(* ===== verification/_CoqProject ===== *)
-Q . S2P
Prelude.v
BQueue.v
Frame.v
Queue.v
Util.v
Alloc.v
Crc32.v
Double.v
Format.v
Dmesg.v
Iface.v
EventQueue.v
TxRx.v
Opipe.v
Ipipe.v
Registers.v
Services.v
Control.v
Phys.v
Usb.v
Dcfg.v
Srvcfg.v
Fstor.v
Client.v
Rolemgr.v
Routing.v
Ledstrip.v
Lstore.v
LstoreLog.v
Settings.v
Status.v
Sensor.v
Analog.v
Numfmt.v
Power.v
Button.v
Rotary.v
Motor.v
Servo.v
Accel.v
Hid.v
