(* ===== verification/Prelude.v ===== *)
(** * Verification of the Jacdac firmware library (jacdac-c)

    jacdac-c runs on the microcontrollers of a Jacdac network: devices on one
    shared wire exchange frames, a frame holds packets, and a packet is
    addressed to a service of a device. This development models the C code of
    the core of the library as functions on explicit states and proves what
    makes it correct. The file and function names below are those under [src/].

    ** How the program fits together, and where each part is modelled

    - [Prelude.v]: machine words with their wrap-around ([u8] ... [u64], [s8]
      to [s32]), buffers as lists of bytes ([mread] and [mwrite] are [memcpy]),
      little-endian fields, C strings, and the monad [outcome] of functions that
      may hit [JD_ASSERT] or [JD_PANIC] or, in a model with fuel, not end.
    - [BQueue.v] ([source/jd_bqueue.c]): ring buffer of bytes.
    - [Frame.v] ([inc/jd_physical.h], [source/jd_util.c]): frames, their CRC, the
      packet writer [jd_push_in_frame] and the packet iterator [jd_shift_frame].
    - [Queue.v] ([source/jd_queue.c]): the queue of frames.
    - [Util.v] ([source/jd_util.c], [inc/jd_util.h]): hashes, random numbers,
      deadlines modulo 2^32, hex, decimal and URL encodings.
    - [Double.v], [Format.v] ([source/jd_util.c]): printf, with IEEE doubles.
    - [Dmesg.v] ([source/jd_dmesg.c]): the log buffer and its readers.
    - [Iface.v]: the type classes through which the parts above the transmit
      side use it ([Sender] for [jd_send], [FrameSender] for [jd_send_frame]);
      [TxRx.v] gives the instances, the logging instances are used to state
      what a part sends.
    - [EventQueue.v] ([source/interfaces/event_queue.c]): events, sent three
      times each.
    - [TxRx.v] ([source/interfaces/tx_queue.c], [simple_rx.c], the frame filter
      of [source/jd_services.c]): accumulation of packets into frames, the send
      and receive queues.
    - [Opipe.v], [Ipipe.v] ([source/jd_opipe.c], [jd_ipipe.c]): output and input
      pipes, linked lists in a store of descriptors.
    - [Registers.v] ([source/jd_services.c], [jd_send_util.c]): the engine that
      serves register reads and writes from a table of registers.
    - [Services.v] ([source/jd_services.c]): dispatch of packets to services,
      announcements, the clock, the main loop and sleeping.
    - [Control.v] ([source/jd_control.c]): the control service.
    - [Phys.v] ([source/jd_physical.c]): the driver of the wire as a machine
      whose steps are interrupts.
    - [Usb.v] ([source/jd_usb.c]): the bridge to a USB host.
    - [Dcfg.v] ([source/jd_dcfg.c], [inc/jd_dcfg.h]), [Srvcfg.v]
      ([source/jd_srvcfg.c]): configuration images in flash, and the services
      they name.
    - [Fstor.v] ([source/jd_fstor.c]): the table of settings in two areas of
      flash, over the class [Flash] of the port's flash with the documented
      laws [FlashLaws]. [Settings.v] ([services/settings.c]): the service that
      gives clients on the wire access to it.
    - [Client.v], [Rolemgr.v], [Routing.v] ([client/rolemgr.c],
      [client/routing.c], [inc/jd_client.h]): the devices, services and queried
      registers a client knows, its roles and the manager that binds them to
      services, and the routing of received packets to them. The three share one
      store of devices, roles and services ([Client.v]); memory comes from the
      class [Heap] of [jd_alloc].
    - [Ledstrip.v] ([services/ledstrip.c], [services/led_internal.h]): the
      interpreter of light programs received from the network.
    - [Status.v] ([services/jd_status_light.c]): blinks, glows and fades of the
      status light, and the LEDs a configuration image can name.
    - [Crc32.v] ([storage/crc32.c]), [Lstore.v], [LstoreLog.v]
      ([storage/lstore.c], [storage/jd_storage.h]): the log on an SD card,
      with its double buffering, the search for the end of the log at start, and
      the writer that works inside a panic. [Lstore.v] has the definitions, over
      the class [Card] of the card; [LstoreLog.v] the theorems, under its laws
      [CardLaws].
    - [Alloc.v] ([source/interfaces/simple_alloc.c]): the allocator, whose memory
      is never given back, and the measure of the stack.
    - [Numfmt.v] ([source/jd_numfmt.c], [inc/jd_numfmt.h]): conversion between
      numbers and the formats of registers.
    - [Sensor.v] ([services/jd_sensor.c], [jd_env.c]): the framework of sensor
      services: waking a driver, its status, requested and streamed readings,
      ranges. [Analog.v] ([services/analogsensor.c]) is built on it, and so are
      [Button.v] ([services/button.c]), [Rotary.v] ([services/rotaryencoder.c])
      and [Accel.v] ([services/accelerometer.c]).
    - [Power.v] ([services/power.c]), [Motor.v] ([services/motor.c]), [Servo.v]
      ([services/servo.c]): services that drive hardware, over the register
      engine; [Hid.v] ([services/hidmouse.c], [hidkeyboard.c],
      [hidjoystick.c]): those that send reports to a USB host.

    A record holds the static variables of a file or a C struct; a definition
    has the name of the C function it models and gives its result with the new
    state; a loop is a fixpoint named after its function. Effects on the outside
    (calls of the UART, wake-ups, pins, packets for the application) are events
    that a trace collects. A pointer into a buffer is an offset; where
    descriptors are shared and relinked (pipes, devices, roles) they live in a
    store and pointers are its keys.

    ** What the theorems show

    - Refinement: the byte queue and the frame queue implement FIFOs for every
      sequence of calls, the event queue the pass over a list of events; the
      settings store is a map of keys and values that survives compaction and
      restarts, and the settings service is a map of names as far as the store
      has room; the log store keeps every entry that was accepted, in order,
      after a restart too; the allocator gives separate zeroed blocks.
    - Round trips: packets through a frame, frames through the USB link; hex,
      decimal and URL encodings are lemmas of [Util.v]; numbers through the
      formats of registers. Equivalence: the CRCs with their polynomial
      definitions, configuration lookup with a search of the whole table, the
      in-place rotation of pixels with a rotation of the list, the events of a
      button with those of a reference on a clock that does not wrap, the count
      of a rotary encoder with the position of its shaft at the last sample.
    - Invariants over all histories: the wire carries the packets sent, in
      order; an event goes out once to three times; the list of pipes stays
      acyclic; the log buffer loses nothing for a reader that keeps up; no role
      or event handler ever refers to a device or service that is gone; the
      status light never shows anything stale; the last report of a HID keyboard
      shows the keys that are down.
    - Safety: on a board that keeps what [phys_enabled] of [Phys.v] assumes of
      it, no reachable state of the wire driver panics or sends while it
      receives; printf stays in its buffer, and so does the printf that runs in
      a panic; a service that sleeps is not re-entered; a light program from the
      network stays inside the pixel buffer, as long as no packet sets more
      pixels than it holds, and its turn ends, unless it divides by zero or a
      fade makes the program pointer wrap around; [init], [process],
      [get_reading] and [sleep] of the driver of a sensor are called in turn (the
      functions of its range at any time); a fault cuts the power of the limiter,
      which stays off; a motor is driven from one side at a time.
    - Liveness and termination: on a quiet wire every queued frame goes out;
      automatic binding fills every role that has a free service; the packet
      iterator on arbitrary bytes ends, and so does the configuration loop on
      arbitrary images, at the latest when a constructor panics; a fade reaches its colour; a blink is shown as often as it says; a
      flush request of the log store is served; a HID mouse moves as far as it is
      told to.
    - Functional behaviour and errors: register reads and writes touch exactly
      the addressed register (that malformed ones are refused is
      [register_rejected] of [Registers.v]); received frames reach exactly the
      addressed services; each event of a server reaches the client once; the
      postures and shakes that an accelerometer announces. Bounds: retries of a pipe, register widths, readings that are
      streamed, the pulses of the power service and of a servo, where signed
      operations that overflow are errors of the model.

    ** Configuration, bounds and fuel

    The preprocessor configuration is [JD_CLIENT], [JD_PIPES], [JD_SEND_FRAME],
    [JD_RX_QUEUE], [JD_USB_BRIDGE], [JD_PHYSICAL], [JD_CONFIG_STATUS],
    [JD_ADVANCED_STRING], [JD_MS_TIMER], [JD_DCFG], [JD_LSTORE], [JD_SD_PANIC],
    [JD_SETTINGS_LARGE] on, and [JD_RAW_FRAME], [JD_NET_BRIDGE],
    [JD_DEVICESCRIPT], [JD_LSTORE_FF] off, with 32-bit pointers and the default
    queue sizes (512, 512 and 1024 bytes). [Power.v] is built with
    [JD_RAW_FRAME], [Alloc.v] with [JD_SIMPLE_ALLOC] and [JD_HW_ALLOC], [Hid.v]
    with [JD_HID], [Rotary.v] without [JD_ROTARY_HW], [Accel.v] without
    [PIN_ACC_INT]. The constants of the generated
    headers of the [jacdac] submodule are classes ([JdSpec], [AnnounceSpec],
    [ControlSpec], [UsbSpec], [RoleManagerSpec], [LedStripSpec],
    [SettingsSpec], [StatusSpec], [SensorSpec], [AnalogSpec], [PowerSpec],
    [ButtonSpec], [RotarySpec], [MotorSpec], [ServoSpec], [AccelSpec],
    [HidSpec]) with the documented facts the code relies on,
    and concrete instances for the examples; so are the functions of the port
    ([Flash], [Card], [Heap], [Pwm]) and what the processor does on a division
    by zero ([Division]).

    Fuel is a constant that a theorem shows to be enough: 59 for the packets of
    a frame (each takes at least four of 240 bytes), 40 turns and 300 bytes for
    [jd_usb_pull] (a turn writes two bytes of 64 at least, a frame has at most
    252 bytes), 104 for [jd_srvcfg_run] (indices end at 100), the number of
    descriptors for the pipe lists and of devices and roles for the lists of the
    client, the number of entries an area has room for in the loops of
    [Fstor.v], 300 instructions for a turn of a light program (each takes a byte of
    at most 236, if no fade makes the pointer wrap around), 33 turns for the binary search of the log store over 32-bit block
    numbers and 40 for its shift, three for the calls of the number formats among
    each other, a step for each word of the stack in the allocator. A theorem that a call gives [Ret] says that
    its loops end and that no assertion fires.

    ** What is not modelled

    Third-party and generated code ([storage/ff], [click/], [jacdac/],
    [dcfg/]), drivers of chips ([drivers/]), and the port's own functions
    ([inc/interfaces/]) are outside; with the FAT file system the branch of
    [jd_lstore_init] that creates files on it. Left out as well are the
    helpers for threads of a client ([client/hclient.c], which for the most part
    is not written yet, and [client/thr_pthread.c]), the weak defaults of hooks
    and the output of assertions ([source/jd_io.c], [source/jd_protocol.c],
    [jd_log_packet]), self-tests, and the services of [services/] other than
    those above ([gpio.c], [gamepad.c], [ledsingle.c], displays, buzzers and
    the like): each is for one kind of hardware and uses the engine of
    [Registers.v] and the framework of [Sensor.v]; [multitouch.c] is switched off
    in the source.
    Interrupts run between the steps of a model, not inside
    them, where the code disables them; [jd_usb_pull] is taken to run to its
    end. Memory that C leaves unspecified (reads past a buffer) reads as 0 or
    as absent, and no theorem rests on such a value. *)
From Stdlib Require Ascii String.
From Stdlib Require Export ZArith Lia List Btauto.
From stdpp Require Export base numbers list.

#[global] Open Scope Z_scope.

(** ** Machine words

    Values of the C integer types are [Z]; the conversions that C performs on
    assignment are written out. *)

(** Conversion to [uint8_t], [uint16_t], [uint32_t] and [uint64_t]. *)
Definition u8 (x : Z) : Z := x mod 2 ^ 8.
Definition u16 (x : Z) : Z := x mod 2 ^ 16.
Definition u32 (x : Z) : Z := x mod 2 ^ 32.
Definition u64 (x : Z) : Z := x mod 2 ^ 64.

(** Conversion to [int32_t] (two's complement, as every supported compiler does). *)
Definition s32 (x : Z) : Z := (x + 2 ^ 31) mod 2 ^ 32 - 2 ^ 31.

(** Conversion to [int8_t] and [int16_t]. *)
Definition s8 (x : Z) : Z := (x + 128) mod 256 - 128.
Definition s16 (x : Z) : Z := (x + 2 ^ 15) mod 2 ^ 16 - 2 ^ 15.

(** [b] as the C value of a boolean expression. *)
Definition zbool (b : bool) : Z := if b then 1 else 0.

(** [x] rounded up to a multiple of four: [(x + 3) & ~3]. *)
Definition align4 (x : Z) : Z := Z.land (x + 3) (Z.lnot 3).

(** Linear arithmetic over words: conversions and constant divisions are
    turned into equations first. *)
Ltac word_lia :=
  unfold u8, u16, u32, u64, s8, s16, s32, zbool in *;
  Z.to_euclidean_division_equations; lia.

(** Destruct the boolean tests in sight into the arithmetic facts they decide. *)
Ltac bool_to_prop :=
  repeat match goal with
  | H : _ && _ = true |- _ => apply andb_true_iff in H as [? ?]
  | H : _ || _ = false |- _ => apply orb_false_iff in H as [? ?]
  | H : negb _ = true |- _ => apply negb_true_iff in H
  | H : negb _ = false |- _ => apply negb_false_iff in H
  | H : (_ =? _) = true |- _ => apply Z.eqb_eq in H
  | H : (_ =? _) = false |- _ => apply Z.eqb_neq in H
  | H : (_ <? _) = true |- _ => apply Z.ltb_lt in H
  | H : (_ <? _) = false |- _ => apply Z.ltb_ge in H
  | H : (_ <=? _) = true |- _ => apply Z.leb_le in H
  | H : (_ <=? _) = false |- _ => apply Z.leb_gt in H
  end.

(** Case analysis on the first comparison of the goal. *)
Ltac case_cmp :=
  match goal with
  | |- context [if ?a =? ?b then _ else _] => destruct (Z.eqb_spec a b)
  | |- context [if ?a <? ?b then _ else _] => destruct (Z.ltb_spec a b)
  | |- context [if ?a <=? ?b then _ else _] => destruct (Z.leb_spec a b)
  | |- context [if ?a >? ?b then _ else _] => rewrite (Z.gtb_ltb a b); destruct (Z.ltb_spec b a)
  | |- context [if ?a >=? ?b then _ else _] => rewrite (Z.geb_leb a b); destruct (Z.leb_spec b a)
  end.

Create HintDb jd.
Create Rewrite HintDb jd.

Lemma u8_range x : 0 <= u8 x < 256.
Proof. unfold u8. apply Z.mod_pos_bound. lia. Qed.
Lemma u16_range x : 0 <= u16 x < 65536.
Proof. unfold u16. apply Z.mod_pos_bound. lia. Qed.
Lemma s16_range x : - 2 ^ 15 <= s16 x < 2 ^ 15.
Proof. word_lia. Qed.
Lemma u32_range x : 0 <= u32 x < 2 ^ 32.
Proof. unfold u32. apply Z.mod_pos_bound. lia. Qed.
Lemma u8_small x : 0 <= x < 256 -> u8 x = x.
Proof. intros. unfold u8. apply Z.mod_small. lia. Qed.
Lemma u16_small x : 0 <= x < 65536 -> u16 x = x.
Proof. intros. unfold u16. apply Z.mod_small. lia. Qed.
Lemma u32_small x : 0 <= x < 2 ^ 32 -> u32 x = x.
Proof. intros. unfold u32. apply Z.mod_small. lia. Qed.

(** [align4] in arithmetic form. *)
Lemma align4_div x : align4 x = 4 * ((x + 3) / 4).
Proof.
  unfold align4.
  change 3 with (Z.ones 2) at 2.
  rewrite <- Z.ldiff_land, Z.ldiff_ones_r by lia.
  rewrite Z.shiftr_div_pow2, Z.shiftl_mul_pow2 by lia. change (2 ^ 2) with 4. lia.
Qed.

Lemma align4_bounds x : x <= align4 x < x + 4.
Proof. rewrite align4_div. word_lia. Qed.

Lemma align4_mul4 k : align4 (4 * k) = 4 * k.
Proof. rewrite align4_div. word_lia. Qed.

Lemma align4_mod x : align4 x mod 4 = 0.
Proof. rewrite align4_div. word_lia. Qed.

(** The C idiom [if (a > b) a = b]. *)
Lemma if_gtb_min a b : (if a >? b then b else a) = Z.min a b.
Proof. rewrite Z.gtb_ltb. case_cmp; lia. Qed.

#[export] Hint Resolve u8_range u16_range u32_range align4_bounds align4_mod : jd.
#[export] Hint Rewrite align4_mul4 : jd.

(** ** Byte memories

    A C buffer is the list of its bytes. [mread] and [mwrite] are [memcpy] out
    of and into a buffer at a byte offset. *)

Definition is_byte (b : Z) : Prop := 0 <= b < 256.
Definition zlen {A} (l : list A) : Z := Z.of_nat (length l).

Definition mread (m : list Z) (off n : Z) : list Z :=
  take (Z.to_nat n) (drop (Z.to_nat off) m).

Definition mwrite (m : list Z) (off : Z) (src : list Z) : list Z :=
  take (Z.to_nat off) m ++ src ++ drop (Z.to_nat off + length src) m.

(** Byte [i] of a buffer; the value past the end is unspecified in C, 0 here. *)
Definition get8 (m : list Z) (i : Z) : Z := default 0 (m !! Z.to_nat i).
Definition put8 (m : list Z) (i v : Z) : list Z := <[Z.to_nat i := u8 v]> m.

(** Little-endian fields. *)
Fixpoint le_bytes (n : nat) (v : Z) : list Z :=
  match n with
  | O => []
  | S n' => u8 v :: le_bytes n' (v / 256)
  end.

Fixpoint le_val (l : list Z) : Z :=
  match l with
  | [] => 0
  | b :: l' => b + 256 * le_val l'
  end.

Definition get16 (m : list Z) (i : Z) : Z := le_val (mread m i 2).
Definition get32 (m : list Z) (i : Z) : Z := le_val (mread m i 4).
Definition get64 (m : list Z) (i : Z) : Z := le_val (mread m i 8).
Definition put16 (m : list Z) (i v : Z) : list Z := mwrite m i (le_bytes 2 v).
Definition put32 (m : list Z) (i v : Z) : list Z := mwrite m i (le_bytes 4 v).
Definition put64 (m : list Z) (i v : Z) : list Z := mwrite m i (le_bytes 8 v).

Lemma length_le_bytes n v : length (le_bytes n v) = n.
Proof. revert v; induction n; intros; simpl; [|rewrite IHn]; done. Qed.

Lemma le_bytes_is_byte n v : Forall is_byte (le_bytes n v).
Proof. revert v; induction n; intros; simpl; constructor; auto using u8_range. apply u8_range. Qed.

Lemma le_val_le_bytes n v : le_val (le_bytes n v) = v mod 256 ^ Z.of_nat n.
Proof.
  revert v; induction n as [|n IH]; intros v; cbn [le_bytes le_val].
  - change (256 ^ Z.of_nat 0) with 1. by rewrite Z.mod_1_r.
  - rewrite IH, Nat2Z.inj_succ, Z.pow_succ_r, Z.rem_mul_r by lia.
    unfold u8. change (2 ^ 8) with 256. lia.
Qed.

Lemma le_bytes_le_val l : Forall is_byte l -> le_bytes (length l) (le_val l) = l.
Proof.
  induction 1 as [|b l Hb _ IH]; [done|]. cbn [length le_bytes le_val].
  unfold is_byte in Hb. f_equal.
  - unfold u8. change (2 ^ 8) with 256. rewrite Z.mul_comm, Z.mod_add by lia. apply Z.mod_small; lia.
  - rewrite Z.mul_comm, Z.div_add, Z.div_small by lia. done.
Qed.

Lemma le_val_range l : Forall is_byte l -> 0 <= le_val l < 256 ^ zlen l.
Proof.
  unfold zlen. induction 1 as [|b l Hb _ IH]; [simpl; lia|].
  cbn [length le_val]. rewrite Nat2Z.inj_succ, Z.pow_succ_r by lia. unfold is_byte in Hb. lia.
Qed.

Lemma lookup_app_case {A} (l1 l2 : list A) i :
  (l1 ++ l2) !! i = if decide (i < length l1)%nat then l1 !! i else l2 !! (i - length l1)%nat.
Proof. case_decide; [by apply lookup_app_l | apply lookup_app_r; lia]. Qed.

Lemma lookup_mread m off n i :
  mread m off n !! i = if decide (i < Z.to_nat n)%nat then m !! (Z.to_nat off + i)%nat else None.
Proof.
  unfold mread. case_decide.
  - by rewrite lookup_take_lt, lookup_drop.
  - rewrite lookup_take_ge by lia. done.
Qed.

Lemma lookup_mwrite m off src i :
  (Z.to_nat off + length src <= length m)%nat ->
  mwrite m off src !! i =
    if decide (Z.to_nat off <= i < Z.to_nat off + length src)%nat
    then src !! (i - Z.to_nat off)%nat else m !! i.
Proof.
  intros H. unfold mwrite. case_decide as Hi.
  - rewrite lookup_app_r; rewrite length_take_le by lia; [|lia].
    rewrite lookup_app_l by lia. done.
  - destruct (decide (i < Z.to_nat off)%nat).
    + rewrite lookup_app_l by (rewrite length_take_le; lia). by apply lookup_take_lt.
    + rewrite lookup_app_r; rewrite length_take_le by lia; [|lia].
      rewrite lookup_app_r by lia. rewrite lookup_drop. f_equal. lia.
Qed.

Lemma length_mwrite m off src :
  (Z.to_nat off + length src <= length m)%nat -> length (mwrite m off src) = length m.
Proof. intros. unfold mwrite. rewrite !length_app, length_take, length_drop. lia. Qed.

Lemma length_mread m off n :
  (Z.to_nat off + Z.to_nat n <= length m)%nat -> length (mread m off n) = Z.to_nat n.
Proof. intros. unfold mread. rewrite length_take, length_drop. lia. Qed.

Lemma length_mread_le m off n : (length (mread m off n) <= Z.to_nat n)%nat.
Proof. unfold mread. rewrite length_take. lia. Qed.

Lemma zlen_mread m off n :
  0 <= off -> 0 <= n -> off + n <= zlen m -> zlen (mread m off n) = n.
Proof. unfold zlen. intros. rewrite length_mread; lia. Qed.

Lemma zlen_mwrite m off src :
  0 <= off -> off + zlen src <= zlen m -> zlen (mwrite m off src) = zlen m.
Proof. unfold zlen. intros. rewrite length_mwrite; lia. Qed.

Lemma zlen_app {A} (l1 l2 : list A) : zlen (l1 ++ l2) = zlen l1 + zlen l2.
Proof. unfold zlen. rewrite length_app. lia. Qed.

Lemma zlen_nonneg {A} (l : list A) : 0 <= zlen l.
Proof. unfold zlen. lia. Qed.

(** Counts past the end of a list are clipped to its length. *)
Lemma take_clip {A} (l : list A) k n :
  k = Z.min n (zlen l) -> take (Z.to_nat k) l = take (Z.to_nat n) l.
Proof.
  unfold zlen. intros ->. destruct (Z.min_spec n (Z.of_nat (length l))) as [[? ->]|[? ->]]; [done|].
  rewrite !take_ge; [done|lia..].
Qed.

Lemma drop_clip {A} (l : list A) k n :
  k = Z.min n (zlen l) -> drop (Z.to_nat k) l = drop (Z.to_nat n) l.
Proof.
  unfold zlen. intros ->. destruct (Z.min_spec n (Z.of_nat (length l))) as [[? ->]|[? ->]]; [done|].
  rewrite !drop_ge; [done|lia..].
Qed.

(** Extensional comparison of two buffers by their lookups. *)
Ltac mem_ext :=
  apply list_eq; intros ?i;
  repeat first
    [ rewrite lookup_mread
    | rewrite lookup_mwrite by (rewrite ?length_mwrite, ?length_le_bytes; unfold zlen in *; simpl; lia)
    | progress case_decide ];
  try (f_equal; lia); try lia; try done.

Lemma mread_mwrite_eq m off src :
  (Z.to_nat off + length src <= length m)%nat -> mread (mwrite m off src) off (zlen src) = src.
Proof.
  intros. apply list_eq; intros i. rewrite lookup_mread, lookup_mwrite by lia. unfold zlen.
  repeat case_decide; try lia.
  - f_equal; lia.
  - symmetry. apply lookup_ge_None. lia.
Qed.

Lemma mread_mwrite_ne m off src off' n :
  (Z.to_nat off + length src <= length m)%nat ->
  (Z.to_nat off' + Z.to_nat n <= Z.to_nat off \/ Z.to_nat off + length src <= Z.to_nat off')%nat ->
  mread (mwrite m off src) off' n = mread m off' n.
Proof.
  intros. apply list_eq; intros i. rewrite !lookup_mread, lookup_mwrite by lia.
  repeat case_decide; try done; lia.
Qed.

(** Reading two adjacent ranges. *)
Lemma mread_add m off a b :
  0 <= off -> 0 <= a -> 0 <= b ->
  mread m off (a + b) = mread m off a ++ mread m (off + a) b.
Proof.
  intros. unfold mread. rewrite !Z2Nat.inj_add by lia.
  rewrite <- (drop_drop m (Z.to_nat a) (Z.to_nat off)).
  generalize (drop (Z.to_nat off) m) as l. intros l.
  rewrite <- (take_drop (Z.to_nat a) (take (Z.to_nat a + Z.to_nat b) l)).
  rewrite take_take, take_drop_commute, Nat.min_l by lia.
  done.
Qed.

Lemma mread_0 m off : mread m off 0 = [].
Proof. done. Qed.

Lemma mread_mread m off n off' n' :
  0 <= off -> 0 <= off' -> 0 <= n' -> off' + n' <= n ->
  mread (mread m off n) off' n' = mread m (off + off') n'.
Proof.
  intros. apply list_eq; intros i. rewrite !lookup_mread.
  repeat case_decide; try done; try lia. f_equal. lia.
Qed.

(** Two adjacent writes are one. *)
Lemma mwrite_app m off a b : 0 <= off -> off + zlen a + zlen b <= zlen m ->
  mwrite (mwrite m off a) (off + zlen a) b = mwrite m off (a ++ b).
Proof.
  unfold zlen. intros Ho Hl. apply list_eq. intros i.
  rewrite !lookup_mwrite by (rewrite ?length_mwrite, ?length_app; lia). rewrite length_app, lookup_app_case.
  repeat case_decide; try lia; f_equal; lia.
Qed.

(** Reading and writing in the middle. *)
Lemma mread_mid (a b c : list Z) off n : off = zlen a -> n = zlen b -> mread (a ++ b ++ c) off n = b.
Proof.
  intros -> ->. unfold mread, zlen. rewrite !Nat2Z.id, drop_app_length. by apply take_app_length.
Qed.
Lemma mwrite_mid (a b c b' : list Z) off : off = zlen a -> zlen b = zlen b' -> mwrite (a ++ b ++ c) off b' = a ++ b' ++ c.
Proof.
  intros -> Hl. unfold mwrite, zlen in *. rewrite Nat2Z.id, take_app_length, <- drop_drop, drop_app_length.
  replace (length b') with (length b) by lia. by rewrite drop_app_length.
Qed.
Lemma zlen_le_bytes n v : zlen (le_bytes n v) = Z.of_nat n.
Proof. unfold zlen. by rewrite length_le_bytes. Qed.
Lemma zlen_replicate {A} n (x : A) : zlen (replicate n x) = Z.of_nat n.
Proof. unfold zlen. by rewrite length_replicate. Qed.

(** *** Fields *)

Lemma zlen_put8 m i v : zlen (put8 m i v) = zlen m.
Proof. unfold zlen, put8. by rewrite length_insert. Qed.

Lemma put8_mwrite m i v : 0 <= i < zlen m -> put8 m i v = mwrite m i [u8 v].
Proof.
  unfold zlen, put8, mwrite. intros Hi. rewrite insert_take_drop by lia.
  simpl. by rewrite Nat.add_1_r.
Qed.

Lemma get8_put8 m i v : 0 <= i < zlen m -> get8 (put8 m i v) i = u8 v.
Proof. unfold zlen, get8, put8. intros. by rewrite list_lookup_insert_eq by lia. Qed.

Lemma get8_put8_ne m i j v : 0 <= i -> 0 <= j -> i <> j -> get8 (put8 m i v) j = get8 m j.
Proof. unfold get8, put8. intros. rewrite list_lookup_insert_ne by lia. done. Qed.

Lemma mread_put8_ne m i v off n :
  0 <= i -> 0 <= off -> 0 <= n -> i < off \/ off + n <= i -> mread (put8 m i v) off n = mread m off n.
Proof.
  intros. apply list_eq; intros k. rewrite !lookup_mread. case_decide; [|done].
  unfold put8. rewrite list_lookup_insert_ne by lia. done.
Qed.

Lemma get8_mwrite_ne m off src i :
  0 <= off -> 0 <= i -> off + zlen src <= zlen m -> i < off \/ off + zlen src <= i ->
  get8 (mwrite m off src) i = get8 m i.
Proof.
  unfold zlen, get8. intros. rewrite lookup_mwrite by lia. rewrite decide_False by lia. done.
Qed.

Lemma get8_mread m off n i : 0 <= off -> 0 <= i < n -> get8 (mread m off n) i = get8 m (off + i).
Proof. unfold get8. intros. rewrite lookup_mread, decide_True by lia. repeat f_equal. lia. Qed.

Lemma get8_is_byte m i : Forall is_byte m -> is_byte (get8 m i).
Proof.
  intros H. unfold get8. destruct (m !! Z.to_nat i) as [b|] eqn:E; simpl; [|done].
  by eapply Forall_lookup_1.
Qed.

Lemma Forall_mread P m off n : Forall P m -> Forall P (mread m off n).
Proof. intros. unfold mread. by apply Forall_take, Forall_drop. Qed.

Lemma Forall_mwrite P m off src : Forall P m -> Forall P src -> Forall P (mwrite m off src).
Proof.
  intros. unfold mwrite. apply Forall_app; split; [by apply Forall_take|].
  apply Forall_app; split; [done|by apply Forall_drop].
Qed.

Lemma Forall_put8 m i v : Forall is_byte m -> Forall is_byte (put8 m i v).
Proof. intros. unfold put8. apply Forall_insert; [done|apply u8_range]. Qed.

Lemma get16_put16 m i v : 0 <= i -> i + 2 <= zlen m -> get16 (put16 m i v) i = u16 v.
Proof.
  unfold zlen. intros. unfold get16, put16.
  change 2 with (zlen (le_bytes 2 v)). rewrite mread_mwrite_eq by (rewrite length_le_bytes; lia).
  by rewrite le_val_le_bytes.
Qed.

Lemma get64_put64 m i v : 0 <= i -> i + 8 <= zlen m -> get64 (put64 m i v) i = u64 v.
Proof.
  unfold zlen. intros. unfold get64, put64.
  change 8 with (zlen (le_bytes 8 v)). rewrite mread_mwrite_eq by (rewrite length_le_bytes; lia).
  by rewrite le_val_le_bytes.
Qed.

(** Writes do not change what lies outside them. *)
Lemma mread_mwrite_out m off src off' n :
  0 <= off -> 0 <= off' -> 0 <= n -> off + zlen src <= zlen m ->
  off' + n <= off \/ off + zlen src <= off' ->
  mread (mwrite m off src) off' n = mread m off' n.
Proof. unfold zlen. intros. apply mread_mwrite_ne; lia. Qed.

#[export] Hint Resolve Forall_mread Forall_mwrite Forall_put8 le_bytes_is_byte u8_range : jd.

(** *** Bits *)

Lemma lxor_range a b n : 0 <= n -> 0 <= a < 2 ^ n -> 0 <= b < 2 ^ n -> 0 <= Z.lxor a b < 2 ^ n.
Proof.
  intros Hn Ha Hb. split; [apply Z.lxor_nonneg; lia|].
  destruct (decide (Z.lxor a b = 0)) as [->|Hne]; [lia|].
  apply Z.log2_lt_pow2; [pose proof (Z.lxor_nonneg a b); lia|].
  pose proof (Z.log2_lxor a b ltac:(lia) ltac:(lia)).
  destruct (decide (a = 0)) as [->|]; destruct (decide (b = 0)) as [->|];
    rewrite ?Z.lxor_0_l, ?Z.lxor_0_r in *; try lia; try (apply Z.log2_lt_pow2; lia).
  pose proof (proj1 (Z.log2_lt_pow2 a n ltac:(lia)) ltac:(lia)).
  pose proof (proj1 (Z.log2_lt_pow2 b n ltac:(lia)) ltac:(lia)). lia.
Qed.

Lemma lor_range a b n : 0 <= n -> 0 <= a < 2 ^ n -> 0 <= b < 2 ^ n -> 0 <= Z.lor a b < 2 ^ n.
Proof.
  intros Hn Ha Hb. assert (Z.lor a b = Z.lor a b mod 2 ^ n) as ->.
  - rewrite <- (Z.mod_small a (2 ^ n)), <- (Z.mod_small b (2 ^ n)) at 1 by lia.
    rewrite <- !Z.land_ones by lia. apply Z.bits_inj'; intros i Hi.
    rewrite !Z.lor_spec, !Z.land_spec, Z.lor_spec. btauto.
  - apply Z.mod_pos_bound. lia.
Qed.

(** A test of every byte, by evaluation. *)
Lemma byte_check (P : Z -> bool) :
  forallb P (seqZ 0 256) = true -> forall c, is_byte c -> P c = true.
Proof. rewrite forallb_forall. intros H c Hc. apply H, list_elem_of_In, elem_of_seqZ. unfold is_byte in Hc. lia. Qed.

(** ** Outcomes

    [JD_ASSERT] and [JD_PANIC] do not return: a function that contains one has
    an [outcome], with [Panic] for the call of [hw_panic]. A loop whose fuel
    runs out gives [OutOfFuel]; a theorem that a call is [Ret] says that its
    loops end. *)

Inductive outcome (A : Type) : Type :=
  | Ret (a : A)
  | Panic
  | OutOfFuel.
Arguments Ret {A} a.
Arguments Panic {A}.
Arguments OutOfFuel {A}.

#[global] Instance outcome_ret : MRet outcome := fun A a => Ret a.
#[global] Instance outcome_bind : MBind outcome :=
  fun A B f m => match m with Ret a => f a | Panic => Panic | OutOfFuel => OutOfFuel end.

Declare Scope jd_scope.
Delimit Scope jd_scope with jd.
#[global] Open Scope jd_scope.

(** [JD_ASSERT(c)] followed by the rest of the function. *)
Notation "'JD_ASSERT' c ;; k" := (if c then k else Panic)
  (at level 10, c at level 99, k at level 200) : jd_scope.

(** Reduce the binds of a computation whose first step is known. *)
Ltac obind := cbn [mbind outcome_bind mret outcome_ret].

(** ** C strings *)

(** The characters before the first NUL: what [strlen] counts. *)
Fixpoint cstring (m : list Z) : list Z :=
  match m with
  | [] => []
  | b :: m => if b =? 0 then [] else b :: cstring m
  end.

Lemma cstring_text l m : Forall (fun b => b <> 0) l -> cstring (l ++ 0 :: m) = l.
Proof. induction 1 as [|b l Hb _ IH]; [done|]. cbn. by rewrite (proj2 (Z.eqb_neq _ _) Hb), IH. Qed.

Lemma cstring_bytes l : Forall is_byte l -> Forall (fun b => 0 < b < 256) (cstring l).
Proof.
  induction 1 as [|b l Hb _ IH]; [constructor|]. cbn. destruct (Z.eqb_spec b 0); [constructor|].
  constructor; [unfold is_byte in Hb; lia|done].
Qed.
Lemma cstring_app_nul l : cstring (l ++ [0]) = cstring l.
Proof. induction l as [|b l IH]; [done|]. cbn. by rewrite IH. Qed.
Lemma take_cstring l : take (length (cstring l)) l = cstring l.
Proof. induction l as [|b l IH]; [done|]. cbn. destruct (b =? 0); [done|]. cbn. by rewrite IH. Qed.

(** The characters of a literal. *)
Definition chars (s : String.string) : list Z :=
  map (fun c => Z.of_nat (Ascii.nat_of_ascii c)) (String.list_ascii_of_string s).

(** Bytes of a concrete list, by evaluation. *)
Lemma bytes_by_test l : forallb (fun b => (0 <=? b) && (b <? 256)) l = true -> Forall is_byte l.
Proof. intros Hl. apply Forall_forall. intros b Hb%list_elem_of_In. apply (proj1 (forallb_forall _ _) Hl) in Hb. bool_to_prop. unfold is_byte. lia. Qed.
