(* ===== verification/BQueue.v ===== *)
(** * The byte queue ([source/jd_bqueue.c])

    A ring buffer of bytes. [bqueue] is [struct jd_bqueue]; the operations are
    the functions of the file, each between [target_disable_irq] and
    [target_enable_irq], hence atomic. A function that copies into [dst]
    returns the bytes it copies. The abstract state of a queue is the list of
    the bytes it holds, oldest first ([bq_contents]). *)
From S2P Require Import Prelude.

Record bqueue := {
  bq_front : Z;   (* uint16_t *)
  bq_back : Z;    (* uint16_t *)
  bq_size : Z;    (* uint16_t *)
  bq_filled : Z;  (* uint16_t *)
  bq_data : list Z;
}.

Definition jd_bqueue_occupied_bytes (q : bqueue) : Z := bq_filled q.

Definition jd_bqueue_free_bytes (q : bqueue) : Z := u32 (bq_size q - bq_filled q - 1).

(** The assertions of [validate]. *)
Definition bq_validate (q : bqueue) : bool :=
  (if bq_front q <=? bq_back q
   then bq_filled q =? bq_back q - bq_front q
   else bq_filled q =? (bq_back q + bq_size q) - bq_front q)
  && (bq_front q <? bq_size q)
  && (bq_back q <? bq_size q)
  && (bq_filled q <? bq_size q).

Definition jd_bqueue_push (q : bqueue) (data : list Z) (len : Z) : outcome (Z * bqueue) :=
  if len =? 0 then Ret (0, q) else
  JD_ASSERT bq_validate q ;;
  let '(ret, q') :=
    if len <=? jd_bqueue_free_bytes q then
      let n := u32 (bq_size q - bq_back q) in
      let n := if n >? len then len else n in
      let buf := mwrite (bq_data q) (bq_back q) (mread data 0 n) in
      let filled := u16 (bq_filled q + len) in
      if len >? n then
        let len := len - n in
        (0, {| bq_front := bq_front q; bq_back := u16 len; bq_size := bq_size q;
               bq_filled := filled; bq_data := mwrite buf 0 (mread data n len) |})
      else
        let back := u16 (bq_back q + n) in
        let back := if back =? bq_size q then 0 else back in
        (0, {| bq_front := bq_front q; bq_back := back; bq_size := bq_size q;
               bq_filled := filled; bq_data := buf |})
    else (-1, q) in
  JD_ASSERT bq_validate q' ;;
  Ret (ret, q').

Definition jd_bqueue_available_cont_data (q : bqueue) : outcome Z :=
  let ret := if bq_front q <=? bq_back q
             then bq_back q - bq_front q
             else bq_size q - bq_front q in
  JD_ASSERT ret <=? bq_filled q ;; Ret ret.

(** [jd_bqueue_cont_data_ptr]: the offset of the pointer in [data]. *)
Definition jd_bqueue_cont_data_ptr (q : bqueue) : Z := bq_front q.

Definition jd_bqueue_cont_data_advance (q : bqueue) (sz : Z) : outcome bqueue :=
  let front := u16 (bq_front q + sz) in
  let filled := u16 (bq_filled q - sz) in
  let front := if front =? bq_size q then 0 else front in
  let q' := {| bq_front := front; bq_back := bq_back q; bq_size := bq_size q;
               bq_filled := filled; bq_data := bq_data q |} in
  JD_ASSERT bq_validate q' ;; Ret q'.

(** The characters that [jd_bqueue_print] passes to [print_fn], in order.
    [len] is the loop counter. *)
Fixpoint bq_print_loop (q : bqueue) (ptr : Z) (len : nat) : list Z :=
  match len with
  | O => []
  | S len' =>
      let ptr' := ptr + 1 in
      get8 (bq_data q) ptr :: bq_print_loop q (if ptr' >=? bq_size q then 0 else ptr') len'
  end.
Definition jd_bqueue_print (q : bqueue) : list Z :=
  bq_print_loop q (bq_front q) (Z.to_nat (bq_filled q)).

Definition jd_bqueue_pop_at_most (q : bqueue) (maxsize : Z) : outcome (Z * list Z * bqueue) :=
  avail ← jd_bqueue_available_cont_data q;
  let sz := if avail >? maxsize then maxsize else avail in
  let dst := mread (bq_data q) (jd_bqueue_cont_data_ptr q) sz in
  q1 ← jd_bqueue_cont_data_advance q sz;
  let maxsize := maxsize - sz in
  if maxsize >? 0 then
    avail1 ← jd_bqueue_available_cont_data q1;
    let n := if avail1 >? maxsize then maxsize else avail1 in
    let dst1 := mread (bq_data q1) (jd_bqueue_cont_data_ptr q1) n in
    q2 ← jd_bqueue_cont_data_advance q1 n;
    Ret (sz + n, dst ++ dst1, q2)
  else Ret (sz, dst, q1).

Definition jd_bqueue_pop_atomic (q : bqueue) (size : Z) : outcome (Z * list Z * bqueue) :=
  if size <=? bq_filled q then
    '(rr, dst, q') ← jd_bqueue_pop_at_most q size;
    JD_ASSERT rr =? size ;; Ret (0, dst, q')
  else Ret (-1, [], q).

Definition jd_bqueue_pop_byte (q : bqueue) : outcome (Z * bqueue) :=
  if negb (bq_filled q =? 0) then
    let r := get8 (bq_data q) (jd_bqueue_cont_data_ptr q) in
    q' ← jd_bqueue_cont_data_advance q 1;
    Ret (r, q')
  else Ret (-1, q).

Definition jd_bqueue_clear (q : bqueue) : bqueue :=
  {| bq_front := 0; bq_back := 0; bq_size := bq_size q; bq_filled := 0; bq_data := bq_data q |}.

(** [jd_alloc] returns zeroed memory. *)
Definition jd_bqueue_alloc (size : Z) : bqueue :=
  {| bq_front := 0; bq_back := 0; bq_size := u16 size; bq_filled := 0;
     bq_data := replicate (Z.to_nat size) 0 |}.

(** ** Abstract state and invariant *)

(** The bytes of the ring from [front] on: the doubled buffer unrolls the wrap. *)
Definition bq_contents (q : bqueue) : list Z :=
  mread (bq_data q ++ bq_data q) (bq_front q) (bq_filled q).

Record bq_wf (q : bqueue) : Prop := {
  bq_wf_len : zlen (bq_data q) = bq_size q;
  bq_wf_size : bq_size q < 65536;
  bq_wf_front : 0 <= bq_front q < bq_size q;
  bq_wf_back : 0 <= bq_back q < bq_size q;
  bq_wf_filled :
    bq_filled q = if bq_front q <=? bq_back q then bq_back q - bq_front q
                  else bq_back q + bq_size q - bq_front q;
}.

Lemma bq_wf_validate q : bq_wf q -> bq_validate q = true.
Proof.
  intros []. unfold bq_validate. rewrite bq_wf_filled0.
  destruct (Z.leb_spec (bq_front q) (bq_back q)); lia.
Qed.

Lemma bq_filled_range q : bq_wf q -> 0 <= bq_filled q < bq_size q.
Proof.
  intros []. rewrite bq_wf_filled0. destruct (Z.leb_spec (bq_front q) (bq_back q)); lia.
Qed.

Lemma bq_contents_lookup q i :
  bq_wf q ->
  bq_contents q !! i =
    if decide (i < Z.to_nat (bq_filled q))%nat
    then bq_data q !! (if decide (Z.to_nat (bq_front q) + i < Z.to_nat (bq_size q))%nat
                       then Z.to_nat (bq_front q) + i
                       else Z.to_nat (bq_front q) + i - Z.to_nat (bq_size q))%nat
    else None.
Proof.
  intros []. unfold bq_contents. rewrite lookup_mread. unfold zlen in *.
  repeat case_decide; try done.
  - rewrite lookup_app_l by lia. done.
  - rewrite lookup_app_r by lia. f_equal. lia.
Qed.

Lemma length_bq_contents q : bq_wf q -> zlen (bq_contents q) = bq_filled q.
Proof.
  intros Hwf. pose proof (bq_filled_range q Hwf). destruct Hwf. unfold zlen, bq_contents in *.
  rewrite length_mread by (rewrite length_app; lia). lia.
Qed.

Lemma bq_free_bytes_wf q : bq_wf q -> jd_bqueue_free_bytes q = bq_size q - 1 - bq_filled q.
Proof.
  intros H. pose proof (bq_filled_range q H). destruct H.
  unfold jd_bqueue_free_bytes. rewrite u32_small; lia.
Qed.

(** ** Helper lemmas *)

(** Solve an equation between two lists of ring bytes by comparing lookups. *)
Ltac ring_ext :=
  apply list_eq; intros ?i;
  repeat first
    [ rewrite lookup_app
    | rewrite lookup_mread
    | rewrite lookup_mwrite by (rewrite ?length_mwrite, ?length_mread; simpl in *; lia)
    | rewrite lookup_take | rewrite lookup_drop
    | progress case_decide | progress case_match; simplify_eq ];
  simpl in *; try lia; try done; try (f_equal; lia).

Lemma bq_advance_refines q sz :
  bq_wf q -> 0 <= sz <= bq_filled q ->
  bq_front q + sz <= bq_size q ->
  exists q', jd_bqueue_cont_data_advance q sz = Ret q' /\ bq_wf q' /\
    bq_size q' = bq_size q /\
    bq_front q' = (if bq_front q + sz =? bq_size q then 0 else bq_front q + sz) /\
    bq_filled q' = bq_filled q - sz /\
    bq_contents q' = drop (Z.to_nat sz) (bq_contents q).
Proof.
  intros Hwf Hsz Hcont. pose proof (bq_filled_range q Hwf) as Hf.
  set (q' := {| bq_front := if bq_front q + sz =? bq_size q then 0 else bq_front q + sz;
                bq_back := bq_back q; bq_size := bq_size q;
                bq_filled := bq_filled q - sz; bq_data := bq_data q |}).
  assert (bq_wf q') as Hwf'.
  { destruct Hwf. constructor; simpl; try done.
    - case_cmp; lia.
    - rewrite bq_wf_filled0 in *. destruct (Z.eqb_spec (bq_front q + sz) (bq_size q));
        repeat case_cmp; lia. }
  exists q'. unfold jd_bqueue_cont_data_advance.
  pose proof (bq_wf_size q Hwf). pose proof (bq_wf_front q Hwf).
  rewrite (u16_small (_ + _)), (u16_small (_ - _)) by lia.
  fold q'. rewrite (bq_wf_validate q') by done. split_and!; try done.
  apply list_eq; intros i. rewrite lookup_drop, !bq_contents_lookup by done. simpl.
  destruct (Z.eqb_spec (bq_front q + sz) (bq_size q)); repeat case_decide; try lia; try done;
    f_equal; lia.
Qed.

Lemma bq_available_spec q :
  bq_wf q ->
  exists n, jd_bqueue_available_cont_data q = Ret n /\ 0 <= n <= bq_filled q /\
    bq_front q + n <= bq_size q /\ (n < bq_filled q -> bq_front q + n = bq_size q).
Proof.
  intros Hwf. pose proof (bq_filled_range q Hwf). destruct Hwf.
  unfold jd_bqueue_available_cont_data. rewrite bq_wf_filled0 in *.
  destruct (Z.leb_spec (bq_front q) (bq_back q)).
  - rewrite (proj2 (Z.leb_le _ _)) by lia. eexists; split; [done|]. lia.
  - rewrite (proj2 (Z.leb_le _ _)) by lia. eexists; split; [done|]. lia.
Qed.

(** The continuous bytes at [cont_data_ptr] are the oldest ones. *)
Lemma bq_cont_read q n :
  bq_wf q -> 0 <= n <= bq_filled q -> bq_front q + n <= bq_size q ->
  mread (bq_data q) (jd_bqueue_cont_data_ptr q) n = take (Z.to_nat n) (bq_contents q).
Proof.
  intros Hwf Hn Hc. apply list_eq; intros i.
  rewrite lookup_mread, lookup_take, bq_contents_lookup by done.
  destruct Hwf. unfold jd_bqueue_cont_data_ptr.
  repeat case_decide; try done; lia.
Qed.

(** The state [jd_bqueue_push] builds when the data fits. *)
Definition bq_pushed (q : bqueue) (data : list Z) : bqueue :=
  let n := Z.min (bq_size q - bq_back q) (zlen data) in
  {| bq_front := bq_front q;
     bq_back := if bq_back q + zlen data <? bq_size q then bq_back q + zlen data
                else bq_back q + zlen data - bq_size q;
     bq_size := bq_size q;
     bq_filled := bq_filled q + zlen data;
     bq_data := mwrite (mwrite (bq_data q) (bq_back q) (mread data 0 n)) 0
                  (mread data n (zlen data - n)) |}.

Lemma bq_pushed_lens q data :
  bq_wf q -> zlen data < bq_size q - bq_filled q ->
  let n := Z.min (bq_size q - bq_back q) (zlen data) in
  zlen (mread data 0 n) = n /\ zlen (mread data n (zlen data - n)) = zlen data - n /\
  zlen (mwrite (bq_data q) (bq_back q) (mread data 0 n)) = bq_size q /\
  zlen (bq_data (bq_pushed q data)) = bq_size q.
Proof.
  intros Hwf Hfit n. pose proof (bq_filled_range q Hwf) as Hf. destruct Hwf.
  pose proof (zlen_nonneg data). simpl. fold n.
  assert (zlen (mread data 0 n) = n) as E1 by (apply zlen_mread; lia).
  assert (zlen (mread data n (zlen data - n)) = zlen data - n) as E2 by (apply zlen_mread; lia).
  rewrite !zlen_mwrite; rewrite ?zlen_mwrite; lia.
Qed.

Lemma bq_pushed_wf q data :
  bq_wf q -> zlen data < bq_size q - bq_filled q -> bq_wf (bq_pushed q data).
Proof.
  intros Hwf Hfit. pose proof (bq_filled_range q Hwf) as Hf.
  destruct (bq_pushed_lens q data Hwf Hfit) as (_ & _ & _ & ?).
  pose proof (zlen_nonneg data). destruct Hwf.
  constructor; try done; simpl; revert Hf Hfit; rewrite bq_wf_filled0; repeat case_cmp; lia.
Qed.

Lemma bq_pushed_contents q data :
  bq_wf q -> zlen data < bq_size q - bq_filled q ->
  bq_contents (bq_pushed q data) = bq_contents q ++ data.
Proof.
  intros Hwf Hfit. pose proof (bq_pushed_wf q data Hwf Hfit) as Hwf'.
  pose proof (bq_filled_range q Hwf) as Hf. pose proof (length_bq_contents q Hwf) as Hl.
  destruct (bq_pushed_lens q data Hwf Hfit) as (E1 & E2 & E3 & _).
  apply list_eq; intros i.
  rewrite bq_contents_lookup, lookup_app_case, bq_contents_lookup by done.
  destruct Hwf. simpl. unfold zlen in *.
  rewrite !lookup_mwrite, !lookup_mread by lia.
  revert Hf Hfit. rewrite bq_wf_filled0 in *. intros.
  destruct (Z.leb_spec (bq_front q) (bq_back q)); repeat case_decide; try lia;
    first [ done | f_equal; lia | symmetry; apply lookup_ge_None; lia ].
Qed.

(** What [jd_bqueue_push] computes when the data fits. *)
Lemma bq_push_pushed q data :
  bq_wf q -> zlen data < bq_size q - bq_filled q -> 0 < zlen data ->
  jd_bqueue_push q data (zlen data) = Ret (0, bq_pushed q data).
Proof.
  intros Hwf Hfit Hpos. pose proof (bq_pushed_wf q data Hwf Hfit) as Hwf'.
  pose proof (bq_filled_range q Hwf) as Hf. pose proof (bq_free_bytes_wf q Hwf) as Hfree.
  unfold jd_bqueue_push. rewrite (bq_wf_validate q Hwf), Hfree.
  rewrite (proj2 (Z.eqb_neq _ _)), (proj2 (Z.leb_le _ _)) by lia. destruct Hwf.
  rewrite (u32_small (bq_size q - bq_back q)), (u16_small (_ + zlen data)) by lia.
  rewrite !Z.gtb_ltb.
  assert (forall q', q' = bq_pushed q data -> (JD_ASSERT bq_validate q' ;; Ret (0, q')) =
    Ret (0, bq_pushed q data)) as Hend by (intros ? ->; by rewrite bq_wf_validate).
  destruct (Z.ltb_spec (zlen data) (bq_size q - bq_back q)) as [Hn|Hn].
  - rewrite Z.ltb_irrefl. apply Hend. unfold bq_pushed.
    rewrite Z.min_r, (proj2 (Z.ltb_lt (bq_back q + _) _)), u16_small, (proj2 (Z.eqb_neq _ _)),
      Z.sub_diag by lia. done.
  - destruct (Z.ltb_spec (bq_size q - bq_back q) (zlen data)).
    + apply Hend. unfold bq_pushed.
      rewrite Z.min_l, (proj2 (Z.ltb_ge (bq_back q + _) _)), u16_small by lia.
      f_equal. lia.
    + apply Hend. unfold bq_pushed.
      rewrite Z.min_l, (proj2 (Z.ltb_ge (bq_back q + _) _)), u16_small, (proj2 (Z.eqb_eq _ _)) by lia.
      replace (zlen data) with (bq_size q - bq_back q) by lia.
      rewrite Z.sub_diag. f_equal. lia.
Qed.

Lemma bq_pop_at_most_spec q maxsize :
  bq_wf q -> 0 <= maxsize ->
  exists q', jd_bqueue_pop_at_most q maxsize =
    Ret (Z.min maxsize (bq_filled q), take (Z.to_nat maxsize) (bq_contents q), q') /\
    bq_wf q' /\ bq_size q' = bq_size q /\
    bq_contents q' = drop (Z.to_nat maxsize) (bq_contents q).
Proof.
  intros Hwf Hm. pose proof (length_bq_contents q Hwf) as Hl. unfold jd_bqueue_pop_at_most.
  destruct (bq_available_spec q Hwf) as (av & -> & Hav & Hc & Hwrap). obind.
  rewrite !if_gtb_min. remember (Z.min av maxsize) as sz eqn:Hsz.
  destruct (bq_advance_refines q sz) as (q1 & -> & Hwf1 & Hs1 & Hfr1 & Hf1 & Hc1); [done|lia..|].
  rewrite bq_cont_read by (done || lia). obind. rewrite Z.gtb_ltb.
  destruct (Z.ltb_spec 0 (maxsize - sz)).
  - destruct (bq_available_spec q1 Hwf1) as (av1 & -> & Hav1 & Hcc1 & Hwrap1). obind.
    rewrite if_gtb_min. remember (Z.min av1 (maxsize - sz)) as n eqn:Hn.
    destruct (bq_advance_refines q1 n) as (q2 & -> & Hwf2 & Hs2 & _ & Hf2 & Hc2); [done|lia..|].
    rewrite bq_cont_read by (done || lia). obind.
    assert (n = Z.min (maxsize - sz) (bq_filled q - sz)) as Hn'.
    { pose proof (bq_filled_range q Hwf). revert Hfr1. case_cmp; intros; lia. }
    exists q2. rewrite Hc2, Hc1, drop_drop, take_take_drop, <- Z2Nat.inj_add by lia.
    rewrite (take_clip _ _ maxsize), (drop_clip _ _ maxsize) by lia.
    split_and!; [|done|lia|done]. repeat f_equal. lia.
  - exists q1. rewrite Hc1, (take_clip _ _ maxsize), (drop_clip _ _ maxsize) by lia.
    split_and!; [|done|lia|done]. repeat f_equal. lia.
Qed.

Lemma bq_pop_atomic_spec q size :
  bq_wf q -> 0 <= size ->
  if size <=? zlen (bq_contents q)
  then exists q', jd_bqueue_pop_atomic q size =
         Ret (0, take (Z.to_nat size) (bq_contents q), q') /\
         bq_wf q' /\ bq_size q' = bq_size q /\
         bq_contents q' = drop (Z.to_nat size) (bq_contents q)
  else jd_bqueue_pop_atomic q size = Ret (-1, [], q).
Proof.
  intros Hwf Hs. unfold jd_bqueue_pop_atomic. rewrite length_bq_contents by done.
  destruct (Z.leb_spec size (bq_filled q)); [|done].
  destruct (bq_pop_at_most_spec q size) as (q' & -> & ? & ? & ?); [done..|]. obind.
  rewrite Z.min_l, Z.eqb_refl by lia. eauto.
Qed.

Lemma bq_pop_byte_spec q :
  bq_wf q ->
  match bq_contents q with
  | [] => jd_bqueue_pop_byte q = Ret (-1, q)
  | b :: l => exists q', jd_bqueue_pop_byte q = Ret (b, q') /\ bq_wf q' /\
                bq_size q' = bq_size q /\ bq_contents q' = l
  end.
Proof.
  intros Hwf. pose proof (length_bq_contents q Hwf) as Hl. unfold jd_bqueue_pop_byte.
  destruct (bq_contents q) as [|b l] eqn:E; unfold zlen in *; simpl in Hl; [by rewrite <- Hl|].
  rewrite (proj2 (Z.eqb_neq _ _)) by lia. simpl.
  pose proof (bq_wf_front q Hwf).
  destruct (bq_advance_refines q 1) as (q' & -> & ? & ? & _ & _ & Hc'); [done|lia..|].
  obind. exists q'. rewrite Hc', E. split_and!; try done.
  pose proof (bq_contents_lookup q 0 Hwf) as Hlk. rewrite E in Hlk.
  rewrite !decide_True in Hlk by lia. rewrite Nat.add_0_r in Hlk.
  unfold get8, jd_bqueue_cont_data_ptr. by rewrite <- Hlk.
Qed.

Lemma bq_push_spec q data :
  bq_wf q ->
  if zlen data <=? bq_size q - 1 - zlen (bq_contents q)
  then exists q', jd_bqueue_push q data (zlen data) = Ret (0, q') /\ bq_wf q' /\
         bq_size q' = bq_size q /\ bq_contents q' = bq_contents q ++ data
  else jd_bqueue_push q data (zlen data) = Ret (-1, q).
Proof.
  intros Hwf. rewrite length_bq_contents by done.
  pose proof (bq_filled_range q Hwf) as Hf. pose proof (zlen_nonneg data).
  destruct (Z.leb_spec (zlen data) (bq_size q - 1 - bq_filled q)).
  - destruct (decide (zlen data = 0)).
    + exists q. destruct data; [|done]. by rewrite app_nil_r.
    + exists (bq_pushed q data).
      split_and!; [apply bq_push_pushed|apply bq_pushed_wf|done|apply bq_pushed_contents]; done || lia.
  - unfold jd_bqueue_push. rewrite (bq_wf_validate q Hwf), bq_free_bytes_wf by done.
    rewrite (proj2 (Z.eqb_neq _ _)), (proj2 (Z.leb_gt _ _)) by lia.
    by rewrite (bq_wf_validate q Hwf).
Qed.

Lemma bq_alloc_wf size : 0 < size < 65536 ->
  bq_wf (jd_bqueue_alloc size) /\ bq_contents (jd_bqueue_alloc size) = [] /\
  bq_size (jd_bqueue_alloc size) = size.
Proof.
  intros. unfold jd_bqueue_alloc. rewrite u16_small by lia.
  split_and!; [|done..]. constructor; simpl; try lia. unfold zlen. rewrite length_replicate. lia.
Qed.

Lemma bq_clear_wf q : bq_wf q -> bq_wf (jd_bqueue_clear q) /\ bq_contents (jd_bqueue_clear q) = [].
Proof. intros []. split; [|done]. constructor; simpl; try done; lia. Qed.

(** ** The abstract queue

    Any client sees the byte queue as a bounded list: the calls it can make,
    and what they answer and leave behind. *)

Inductive bq_op :=
  | OpPush (data : list Z)
  | OpPopAtMost (maxsize : nat)
  | OpPopAtomic (size : nat)
  | OpPopByte
  | OpClear.

(** The return value of a call and the bytes it stores through [dst]. *)
Definition bq_reply : Type := Z * list Z.

Definition fifo_step (cap : Z) (l : list Z) (o : bq_op) : bq_reply * list Z :=
  match o with
  | OpPush data => if zlen data <=? cap - zlen l then ((0, []), l ++ data) else ((-1, []), l)
  | OpPopAtMost n => ((Z.min (Z.of_nat n) (zlen l), take n l), drop n l)
  | OpPopAtomic n => if Z.of_nat n <=? zlen l then ((0, take n l), drop n l) else ((-1, []), l)
  | OpPopByte => match l with [] => ((-1, []), []) | b :: l' => ((b, []), l') end
  | OpClear => ((0, []), [])
  end.

Definition bq_step (q : bqueue) (o : bq_op) : outcome (bq_reply * bqueue) :=
  match o with
  | OpPush data => '(r, q') ← jd_bqueue_push q data (zlen data); Ret ((r, []), q')
  | OpPopAtMost n => '(r, dst, q') ← jd_bqueue_pop_at_most q (Z.of_nat n); Ret ((r, dst), q')
  | OpPopAtomic n => '(r, dst, q') ← jd_bqueue_pop_atomic q (Z.of_nat n); Ret ((r, dst), q')
  | OpPopByte => '(r, q') ← jd_bqueue_pop_byte q; Ret ((r, []), q')
  | OpClear => Ret ((0, []), jd_bqueue_clear q)
  end.

Fixpoint fifo_run (cap : Z) (l : list Z) (ops : list bq_op) : list bq_reply :=
  match ops with
  | [] => []
  | o :: ops' => let '(r, l') := fifo_step cap l o in r :: fifo_run cap l' ops'
  end.

Fixpoint bq_run (q : bqueue) (ops : list bq_op) : outcome (list bq_reply) :=
  match ops with
  | [] => Ret []
  | o :: ops' => '(r, q') ← bq_step q o; rs ← bq_run q' ops'; Ret (r :: rs)
  end.

(** One call: the ring buffer simulates the bounded list. *)
Lemma bq_step_simulates q o :
  bq_wf q ->
  exists q', bq_step q o = Ret (fst (fifo_step (bq_size q - 1) (bq_contents q) o), q') /\
    bq_wf q' /\ bq_size q' = bq_size q /\
    bq_contents q' = snd (fifo_step (bq_size q - 1) (bq_contents q) o).
Proof.
  intros Hwf. destruct o as [data|n|n| |]; cbn [bq_step fifo_step].
  - pose proof (bq_push_spec q data Hwf) as H. case_cmp.
    + destruct H as (q' & -> & ?). eauto.
    + rewrite H. eauto.
  - destruct (bq_pop_at_most_spec q (Z.of_nat n)) as (q' & -> & ? & ? & Hc); [done|lia|].
    rewrite Nat2Z.id in *. rewrite length_bq_contents by done. obind. eauto 6.
  - pose proof (bq_pop_atomic_spec q (Z.of_nat n) Hwf ltac:(lia)) as H.
    rewrite Nat2Z.id in H. case_cmp.
    + destruct H as (q' & -> & ?). eauto.
    + rewrite H. eauto.
  - pose proof (bq_pop_byte_spec q Hwf) as H. destruct (bq_contents q) eqn:E.
    + rewrite H. obind. eauto.
    + destruct H as (q' & -> & ?). eauto.
  - destruct (bq_clear_wf q Hwf). eauto.
Qed.

Lemma bq_run_simulates q ops :
  bq_wf q -> bq_run q ops = Ret (fifo_run (bq_size q - 1) (bq_contents q) ops).
Proof.
  revert q; induction ops as [|o ops IH]; intros q Hwf; [done|].
  cbn [bq_run fifo_run]. destruct (bq_step_simulates q o Hwf) as (q' & -> & Hwf' & Hs & Hc).
  obind. destruct (fifo_step _ _ o) as [r l'] eqn:E. simpl in *.
  rewrite IH, Hs, Hc by done. done.
Qed.

Lemma bq_print_loop_spec q n ptr :
  bq_wf q -> 0 <= ptr < bq_size q -> Z.of_nat n <= bq_size q ->
  bq_print_loop q ptr n = mread (bq_data q ++ bq_data q) ptr (Z.of_nat n).
Proof.
  intros []. unfold zlen in *. revert ptr. induction n as [|n IH]; intros ptr Hp Hn; [done|].
  cbn [bq_print_loop]. rewrite Z.geb_leb. rewrite IH by (try case_cmp; lia).
  assert (exists b, bq_data q !! Z.to_nat ptr = Some b) as [b Hb]
    by (apply lookup_lt_is_Some; lia).
  apply list_eq; intros [|i].
  - simpl. unfold get8. rewrite Hb, lookup_mread, decide_True by lia.
    rewrite Nat.add_0_r, lookup_app_l by lia. done.
  - simpl. rewrite !lookup_mread. repeat case_decide; try lia; try done.
    rewrite !lookup_app_case. destruct (Z.leb_spec (bq_size q) (ptr + 1));
      repeat case_decide; try lia; f_equal; lia.
Qed.

(** ** Properties *)

(** C21. The byte queue of capacity [size - 1] implements a bounded byte FIFO:
    whatever sequence of pushes, pops and clears is made on a freshly
    allocated queue, every call answers and stores exactly what the bounded
    list answers, and no assertion of the C code fires. *)
Theorem jd_bqueue_refines_fifo size ops :
  0 < size < 65536 ->
  bq_run (jd_bqueue_alloc size) ops = Ret (fifo_run (size - 1) [] ops).
Proof.
  intros Hs. destruct (bq_alloc_wf size Hs) as (Hwf & Hc & Hsz).
  rewrite bq_run_simulates, Hc, Hsz by done. done.
Qed.

Lemma jd_bqueue_refines_fifo_witness :
  bq_run (jd_bqueue_alloc 4) [OpPush [1; 2; 3]; OpPopAtMost 2; OpPush [4; 5]; OpPush [6]; OpPopAtomic 3]
  = Ret (fifo_run 3 [] [OpPush [1; 2; 3]; OpPopAtMost 2; OpPush [4; 5]; OpPush [6]; OpPopAtomic 3]).
Proof. apply (jd_bqueue_refines_fifo 4). lia. Defined.

(** The crash handler's [jd_bqueue_print] prints exactly the queued bytes, oldest first. *)
Lemma jd_bqueue_print_contents q : bq_wf q -> jd_bqueue_print q = bq_contents q.
Proof.
  intros Hwf. pose proof (bq_filled_range q Hwf). pose proof (bq_wf_front q Hwf).
  unfold jd_bqueue_print. rewrite bq_print_loop_spec by (done || lia).
  unfold bq_contents. f_equal. lia.
Qed.
