(* ===== verification/Frame.v ===== *)
(** * Frames and packets ([inc/jd_physical.h], frame functions of [source/jd_util.c])

    A [jd_frame_t] is its 252 bytes: header (crc, size, flags, device
    identifier) and 240 bytes of data. A [jd_packet_t] is the same memory seen
    as the header followed by the first packet of the data, so the packet
    accessors are accessors of the frame. Multi-byte fields are little-endian.

    The file holds the CRC, the writer of packets into a frame
    ([jd_push_in_frame]) and the iterator that moves the next packet to the
    front ([jd_shift_frame]). *)
From S2P Require Import Prelude.

(** ** Layout *)

Definition JD_SERIAL_PAYLOAD_SIZE : Z := 236.
Definition JD_SERIAL_FULL_HEADER_SIZE : Z := 16.
Definition JD_FRAME_FLAG_COMMAND : Z := 0x01.
Definition JD_FRAME_FLAG_ACK_REQUESTED : Z := 0x02.
Definition JD_FRAME_FLAG_IDENTIFIER_IS_SERVICE_CLASS : Z := 0x04.
Definition JD_FRAME_FLAG_BROADCAST : Z := 0x04.
Definition JD_FRAME_FLAG_LOOPBACK : Z := 0x40.
Definition JD_FRAME_FLAG_VNEXT : Z := 0x80.
Definition JD_SERVICE_INDEX_CONTROL : Z := 0x00.
Definition JD_SERVICE_INDEX_MASK : Z := 0x3f.
Definition JD_SERVICE_INDEX_CRC_ACK : Z := 0x3f.
Definition JD_SERVICE_INDEX_STREAM : Z := 0x3e.
Definition JD_SERVICE_INDEX_BROADCAST : Z := 0x3d.
Definition JD_SERVICE_INDEX_MAX_NORMAL : Z := 0x30.
Definition JD_DEVICE_IDENTIFIER_BROADCAST_MARK : Z := 0xAAAAAAAA00000000.
Definition JD_PIPE_COUNTER_MASK : Z := 0x001f.
Definition JD_PIPE_CLOSE_MASK : Z := 0x0020.
Definition JD_PIPE_METADATA_MASK : Z := 0x0040.
Definition JD_PIPE_PORT_SHIFT : Z := 7.
Definition JD_CMD_EVENT_MASK : Z := 0x8000.
Definition JD_CMD_EVENT_CODE_MASK : Z := 0xff.
Definition JD_CMD_EVENT_COUNTER_MASK : Z := 0x7f.
Definition JD_CMD_EVENT_COUNTER_SHIFT : Z := 8.
Definition JD_CMD_EVENT_MK (counter code : Z) : Z :=
  Z.lor (Z.lor JD_CMD_EVENT_MASK
           (Z.shiftl (Z.land counter JD_CMD_EVENT_COUNTER_MASK) JD_CMD_EVENT_COUNTER_SHIFT))
    (Z.land code JD_CMD_EVENT_CODE_MASK).

(** [sizeof(jd_frame_t)] and the offset of [data]. *)
Definition sizeof_frame : Z := 252.
Definition frame_data : Z := 12.

Definition f_crc (f : list Z) : Z := get16 f 0.
Definition f_size (f : list Z) : Z := get8 f 2.
Definition f_flags (f : list Z) : Z := get8 f 3.
Definition f_device_identifier (f : list Z) : Z := get64 f 4.
Definition f_data (f : list Z) (i : Z) : Z := get8 f (frame_data + i).

Definition set_f_crc (f : list Z) (v : Z) : list Z := put16 f 0 v.
Definition set_f_size (f : list Z) (v : Z) : list Z := put8 f 2 v.
Definition set_f_flags (f : list Z) (v : Z) : list Z := put8 f 3 v.
Definition set_f_device_identifier (f : list Z) (v : Z) : list Z := put64 f 4 v.
Definition set_f_data (f : list Z) (i v : Z) : list Z := put8 f (frame_data + i) v.

Definition p_service_size (f : list Z) : Z := get8 f 12.
Definition p_service_index (f : list Z) : Z := get8 f 13.
Definition p_service_command (f : list Z) : Z := get16 f 14.
(** The payload: [service_size] bytes of [pkt->data]. *)
Definition p_data (f : list Z) : list Z := mread f 16 (p_service_size f).

Definition set_p_service_size (f : list Z) (v : Z) : list Z := put8 f 12 v.
Definition set_p_service_index (f : list Z) (v : Z) : list Z := put8 f 13 v.
Definition set_p_service_command (f : list Z) (v : Z) : list Z := put16 f 14 v.

(** [x & flag] as a condition. *)
Definition has_flag (x flag : Z) : bool := negb (Z.land x flag =? 0).

Definition JD_FRAME_SIZE (f : list Z) : Z := f_size f + 12.

(** ** CRC *)

(** One iteration of the loop of [jd_crc16]. *)
Definition crc16_step (crc data : Z) : Z :=
  let x := u8 (Z.lxor (Z.shiftr crc 8) data) in
  let x := u8 (Z.lxor x (Z.shiftr x 4)) in
  u16 (Z.lxor (Z.lxor (Z.lxor (Z.shiftl crc 8) (Z.shiftl x 12)) (Z.shiftl x 5)) x).

(** [jd_crc16(data, size)] with [data] the [size] bytes. *)
Definition jd_crc16 (data : list Z) : Z := fold_left crc16_step data 0xffff.

Definition frame_crc (f : list Z) : Z := jd_crc16 (mread f 2 (JD_FRAME_SIZE f - 2)).

Definition jd_frame_crc_ok (f : list Z) : bool := frame_crc f =? f_crc f.
Definition jd_compute_crc (f : list Z) : list Z := set_f_crc f (frame_crc f).

(** ** Moving and writing packets *)

(** [jd_word_move] inside one buffer: left-to-right copy of whole words. *)
Fixpoint word_move_loop (m : list Z) (dp sp : Z) (words : nat) : list Z :=
  match words with
  | O => m
  | S words' => word_move_loop (mwrite m dp (mread m sp 4)) (dp + 4) (sp + 4) words'
  end.
Definition jd_word_move (m : list Z) (dst src numbytes : Z) : list Z :=
  word_move_loop m dst src (Z.to_nat (Z.shiftr numbytes 2)).

Definition jd_shift_frame (frame : list Z) : Z * list Z :=
  let psize := f_size frame in
  let oldsz := p_service_size frame + 4 in
  if align4 oldsz >=? psize then (0, frame) (* nothing to shift *)
  else
    let next :=
      if f_data frame oldsz =? 0xff then
        let ptr := f_data frame (oldsz + 1) in
        if ptr >=? psize then None (* End-of-frame *)
        else if ptr <=? oldsz then None (* don't let it go back *)
        else Some ptr
      else Some (align4 oldsz) in
    match next with
    | None => (0, frame)
    | Some ptr =>
        (* assume the first one got the ACK sorted *)
        let frame := set_f_flags frame (Z.ldiff (f_flags frame) JD_FRAME_FLAG_ACK_REQUESTED) in
        let src := frame_data + ptr in
        let newsz := get8 frame src + 4 in
        if ptr + newsz >? psize then (0, frame)
        else
          let frame := jd_word_move frame frame_data src (newsz + 3) in
          let ptr := ptr + align4 newsz in
          let frame := set_f_data frame newsz 0xff in
          let frame := set_f_data frame (newsz + 1) ptr in
          (1, frame)
    end.

Definition jd_pkt_set_broadcast (pkt : list Z) (service_class : Z) : list Z :=
  let f := set_f_flags pkt (Z.lor (f_flags pkt) JD_FRAME_FLAG_BROADCAST) in
  let f := set_f_device_identifier f (Z.lor service_class JD_DEVICE_IDENTIFIER_BROADCAST_MARK) in
  set_p_service_index f JD_SERVICE_INDEX_BROADCAST.

Definition jd_reset_frame (frame : list Z) : list Z := set_f_size frame 0x00.

(** The result is the pointer to the payload of the new packet, as an offset
    in the frame, or [None] for [NULL]. *)
Definition jd_push_in_frame (frame : list Z) (service_num service_cmd service_size : Z)
    : outcome (option Z * list Z) :=
  if negb (Z.shiftr service_num 8 =? 0) then Panic else
  if negb (Z.shiftr service_cmd 16 =? 0) then Panic else
  let dst := frame_data + f_size frame in
  let szLeft := u32 (JD_SERIAL_PAYLOAD_SIZE - f_size frame) in
  if u32 (service_size + 4) >? szLeft then Ret (None, frame)
  else
    let frame := put8 frame dst service_size in
    let frame := put8 frame (dst + 1) service_num in
    let frame := put8 frame (dst + 2) (Z.land service_cmd 0xff) in
    let frame := put8 frame (dst + 3) (Z.shiftr service_cmd 8) in
    let frame := set_f_size frame (f_size frame + align4 (service_size + 4)) in
    Ret (Some (dst + 4), frame).

(** ** The CRC against its polynomial *)

(** Reference: CRC-16-CCITT, polynomial [0x1021], one bit at a time, most
    significant bit first (the description given in [inc/jd_util.h]). *)
Definition crc_bit (crc : Z) : Z :=
  if Z.testbit crc 15 then u16 (Z.lxor (Z.shiftl crc 1) 0x1021) else u16 (Z.shiftl crc 1).
Definition crc16_ref_step (crc data : Z) : Z :=
  Nat.iter 8 crc_bit (Z.lxor crc (Z.shiftl data 8)).
Definition crc16_ref (data : list Z) : Z := fold_left crc16_ref_step data 0xffff.

(** Both steps depend on the register with the byte already added to it. *)
Definition crc_mix (crc data : Z) : Z := Z.lxor crc (Z.shiftl data 8).
Lemma crc_mix_range crc data : 0 <= crc < 65536 -> is_byte data -> 0 <= crc_mix crc data < 65536.
Proof.
  intros Hc Hd. unfold is_byte in Hd. apply (lxor_range _ _ 16); [lia..|].
  rewrite Z.shiftl_mul_pow2 by lia. lia.
Qed.

(** Adding the byte to the register first does not change the step. *)
Lemma crc16_step_mix crc data :
  0 <= crc < 65536 -> is_byte data -> crc16_step crc data = crc16_step (crc_mix crc data) 0.
Proof.
  intros Hc Hd. unfold crc16_step, crc_mix. rewrite Z.lxor_0_r.
  assert (Z.shiftr (Z.lxor crc (Z.shiftl data 8)) 8 = Z.lxor (Z.shiftr crc 8) data) as ->.
  { rewrite Z.shiftr_lxor, Z.shiftr_shiftl_l by lia. by rewrite Z.sub_diag, Z.shiftl_0_r. }
  generalize (u8 (Z.lxor (Z.shiftr crc 8) data)) as x. intros x.
  unfold u16. rewrite <- !Z.land_ones by lia. apply Z.bits_inj'. intros n Hn.
  rewrite !Z.land_spec, !Z.lxor_spec, Z.testbit_ones_nonneg by lia.
  destruct (Z.ltb_spec n 16); [|by rewrite !andb_false_r].
  rewrite !Z.shiftl_spec, Z.lxor_spec by lia.
  replace (Z.testbit (Z.shiftl data 8) (n - 8)) with false; [by rewrite xorb_false_r|].
  destruct (decide (n - 8 < 0)); [by rewrite Z.testbit_neg_r by lia|].
  rewrite Z.shiftl_spec, Z.testbit_neg_r by lia. done.
Qed.

(** The bit-serial step is linear, so the byte-wise step need only be compared
    with it on the two bytes of the register separately. *)
Lemma crc_bit_lxor a b : crc_bit (Z.lxor a b) = Z.lxor (crc_bit a) (crc_bit b).
Proof.
  unfold crc_bit, u16. rewrite <- !Z.land_ones by lia. rewrite Z.lxor_spec.
  destruct (Z.testbit a 15), (Z.testbit b 15); simpl xorb; cbv iota;
    apply Z.bits_inj'; intros n Hn;
    rewrite ?Z.land_spec, ?Z.lxor_spec, ?Z.land_spec, ?Z.lxor_spec, ?Z.shiftl_spec, ?Z.lxor_spec by lia;
    generalize (Z.testbit a (n - 1)), (Z.testbit b (n - 1)), (Z.testbit 0x1021 n),
      (Z.testbit (Z.ones 16) n); by intros [] [] [] [].
Qed.

Lemma crc_iter_lxor k a b :
  Nat.iter k crc_bit (Z.lxor a b) = Z.lxor (Nat.iter k crc_bit a) (Nat.iter k crc_bit b).
Proof. induction k as [|k IH]; simpl; [done|]. by rewrite IH, crc_bit_lxor. Qed.

Lemma crc_high_table :
  forallb (fun h => crc16_step (Z.shiftl h 8) 0 =? Nat.iter 8 crc_bit (Z.shiftl h 8)) (seqZ 0 256) = true.
Proof. vm_compute. reflexivity. Qed.

Lemma crc_low_table :
  forallb (fun l => Nat.iter 8 crc_bit l =? Z.shiftl l 8) (seqZ 0 256) = true.
Proof. vm_compute. reflexivity. Qed.

Lemma word_bytes c : 0 <= c < 65536 ->
  exists h l, is_byte h /\ is_byte l /\ c = Z.lxor (Z.shiftl h 8) l.
Proof.
  intros Hc. exists (c / 256), (c mod 256). unfold is_byte. split_and!; [word_lia..|].
  rewrite <- Z.add_nocarry_lxor; [rewrite Z.shiftl_mul_pow2 by lia; word_lia|].
  apply Z.bits_inj'; intros n Hn. rewrite Z.land_spec, Z.bits_0, Z.shiftl_spec by lia.
  change 256 with (2 ^ 8). destruct (Z.ltb_spec n 8).
  - rewrite Z.testbit_neg_r by lia. done.
  - rewrite Z.mod_pow2_bits_high by lia. by rewrite andb_false_r.
Qed.

(** The byte-wise step, split over the two bytes of the register. *)
Lemma crc16_step_split h l : is_byte h -> is_byte l ->
  crc16_step (Z.lxor (Z.shiftl h 8) l) 0 = Z.lxor (crc16_step (Z.shiftl h 8) 0) (Z.shiftl l 8).
Proof.
  intros Hh Hl. unfold crc16_step. rewrite !Z.lxor_0_r.
  assert (Z.shiftr (Z.lxor (Z.shiftl h 8) l) 8 = h) as ->.
  { rewrite Z.shiftr_lxor, Z.shiftr_shiftl_l by lia. rewrite Z.sub_diag, Z.shiftl_0_r.
    rewrite (Z.shiftr_div_pow2 l) by lia. unfold is_byte in Hl. rewrite (Z.div_small l) by lia.
    apply Z.lxor_0_r. }
  rewrite Z.shiftr_shiftl_l, Z.sub_diag, Z.shiftl_0_r by lia.
  generalize (Z.lxor (u8 h) (Z.shiftr (u8 h) 4)). intros x0. generalize (u8 x0) as x. intros x.
  rewrite Z.shiftl_lxor.
  assert (Z.shiftl l 8 = u16 (Z.shiftl l 8)) as Hl16.
  { rewrite u16_small; [done|]. rewrite Z.shiftl_mul_pow2 by lia. unfold is_byte in Hl. lia. }
  rewrite Hl16 at 2. unfold u16. rewrite <- !Z.land_ones by lia. apply Z.bits_inj'. intros n Hn.
  rewrite !Z.land_spec, !Z.lxor_spec, !Z.land_spec, !Z.lxor_spec, Z.testbit_ones_nonneg by lia.
  destruct (Z.ltb_spec n 16); [|by rewrite !andb_false_r].
  rewrite (Z.shiftl_shiftl h), (Z.shiftl_spec h _ n), (Z.testbit_neg_r h) by lia. btauto.
Qed.

Lemma crc16_step_0 c : 0 <= c < 65536 -> crc16_step c 0 = Nat.iter 8 crc_bit c.
Proof.
  intros (h & l & Hh & Hl & ->)%word_bytes. rewrite crc16_step_split, crc_iter_lxor by done.
  pose proof (byte_check _ crc_high_table h Hh) as H1.
  pose proof (byte_check _ crc_low_table l Hl) as H2. cbv beta in H1, H2. bool_to_prop. congruence.
Qed.

Lemma crc16_step_range crc data : 0 <= crc16_step crc data < 65536.
Proof. apply u16_range. Qed.

Lemma crc16_step_ref crc data :
  0 <= crc < 65536 -> is_byte data -> crc16_step crc data = crc16_ref_step crc data.
Proof.
  intros Hc Hd. rewrite crc16_step_mix by done.
  apply (crc16_step_0 (crc_mix crc data)), crc_mix_range; done.
Qed.

Lemma crc16_fold_ref data c : 0 <= c < 65536 -> Forall is_byte data ->
  fold_left crc16_step data c = fold_left crc16_ref_step data c.
Proof.
  intros Hc Hd. revert c Hc. induction Hd as [|d data Hd _ IH]; intros c Hc; simpl; [done|].
  rewrite IH by apply crc16_step_range. by rewrite crc16_step_ref.
Qed.

(** *** What the CRC detects *)

Lemma crc_mix_inj_l c c' d : crc_mix c d = crc_mix c' d -> c = c'.
Proof.
  unfold crc_mix. intros H. apply (f_equal (fun z => Z.lxor z (Z.shiftl d 8))) in H.
  by rewrite !Z.lxor_assoc, !Z.lxor_nilpotent, !Z.lxor_0_r in H.
Qed.

Lemma crc_mix_inj_r c d d' : crc_mix c d = crc_mix c d' -> d = d'.
Proof.
  unfold crc_mix. intros H. apply (f_equal (fun z => Z.lxor c z)) in H.
  rewrite <- !Z.lxor_assoc, !Z.lxor_nilpotent, !Z.lxor_0_l in H.
  apply (f_equal (fun z => Z.shiftr z 8)) in H.
  by rewrite !Z.shiftr_shiftl_l, !Z.sub_diag, !Z.shiftl_0_r in H by lia.
Qed.

(** The low byte after a step determines the high byte before it. *)
Definition crc_low_inverse (y : Z) : Z :=
  let x := u8 (Z.lxor y (Z.shiftl y 5)) in Z.lxor x (Z.shiftr x 4).

Lemma crc_low_inverse_table :
  forallb (fun h => crc_low_inverse (u8 (crc16_step (Z.shiftl h 8) 0)) =? h) (seqZ 0 256) = true.
Proof. vm_compute. reflexivity. Qed.

Lemma crc16_step_low h l : is_byte h -> is_byte l ->
  crc_low_inverse (u8 (crc16_step (Z.lxor (Z.shiftl h 8) l) 0)) = h.
Proof.
  intros Hh Hl. pose proof (byte_check _ crc_low_inverse_table h Hh) as H. cbv beta in H.
  bool_to_prop. rewrite <- H at 2. f_equal. rewrite crc16_step_split by done.
  unfold u8. rewrite <- !Z.land_ones by lia. apply Z.bits_inj'; intros n Hn.
  rewrite !Z.land_spec, Z.lxor_spec, Z.testbit_ones_nonneg by lia.
  destruct (Z.ltb_spec n 8); [|by rewrite !andb_false_r].
  rewrite (Z.shiftl_spec_low l) by lia. btauto.
Qed.

(** The step loses nothing: it is injective, by its two bytes. *)
Lemma crc16_step0_inj a b :
  0 <= a < 65536 -> 0 <= b < 65536 -> crc16_step a 0 = crc16_step b 0 -> a = b.
Proof.
  intros (h & l & Hh & Hl & ->)%word_bytes (h' & l' & Hh' & Hl' & ->)%word_bytes H.
  assert (h = h') as <-.
  { rewrite <- (crc16_step_low h l), <- (crc16_step_low h' l') by done. by rewrite H. }
  rewrite !crc16_step_split in H by done. f_equal.
  apply (crc_mix_inj_r _ _ _ H).
Qed.

Lemma crc16_fold_range msg c : 0 <= c < 65536 -> 0 <= fold_left crc16_step msg c < 65536.
Proof.
  revert c; induction msg as [|d msg IH]; intros c Hc; simpl; [done|].
  apply IH, crc16_step_range.
Qed.

(** The register before a message is determined by the register after it. *)
Lemma crc16_fold_inj msg c c' :
  0 <= c < 65536 -> 0 <= c' < 65536 -> Forall is_byte msg ->
  fold_left crc16_step msg c = fold_left crc16_step msg c' -> c = c'.
Proof.
  intros Hc Hc' Hm. revert c c' Hc Hc'. induction Hm as [|d msg Hd _ IH]; intros c c' Hc Hc' H; [done|].
  simpl in H. apply IH in H; [|apply crc16_step_range..].
  rewrite !(crc16_step_mix _ d) in H by done.
  eapply crc_mix_inj_l, crc16_step0_inj, H; by apply crc_mix_range.
Qed.

Lemma u8_crc_mix c d : u8 (crc_mix c d) = u8 c.
Proof.
  unfold u8, crc_mix. rewrite <- !Z.land_ones by lia. apply Z.bits_inj'; intros n Hn.
  rewrite !Z.land_spec, Z.lxor_spec, Z.testbit_ones_nonneg by lia.
  destruct (Z.ltb_spec n 8); [|by rewrite !andb_false_r].
  rewrite Z.shiftl_spec_low by lia. btauto.
Qed.

(** Two adjacent bytes are determined by the registers before and after them. *)
Lemma crc16_two_bytes_inj c a b a' b' :
  0 <= c < 65536 -> is_byte a -> is_byte b -> is_byte a' -> is_byte b' ->
  crc16_step (crc16_step c a) b = crc16_step (crc16_step c a') b' -> a = a' /\ b = b'.
Proof.
  intros Hc Ha Hb Ha' Hb' H.
  rewrite !(crc16_step_mix (crc16_step c _)) in H by (done || apply crc16_step_range).
  apply crc16_step0_inj in H; [|apply crc_mix_range; done || apply crc16_step_range..].
  assert (a = a') as <-; [|by apply crc_mix_inj_r in H].
  apply (f_equal u8) in H. rewrite !u8_crc_mix, !(crc16_step_mix c) in H by done.
  apply word_bytes in Hc as (h & l & Hh & Hl & ->).
  assert (forall d, crc_mix (Z.lxor (Z.shiftl h 8) l) d = Z.lxor (Z.shiftl (Z.lxor h d) 8) l) as Hmix.
  { intros d. unfold crc_mix. rewrite Z.shiftl_lxor, !Z.lxor_assoc. f_equal. apply Z.lxor_comm. }
  assert (forall d, is_byte d -> is_byte (Z.lxor h d)) as Hxb
    by (intros d Hd; apply (lxor_range h d 8); [lia|done..]).
  rewrite !Hmix in H. apply (f_equal crc_low_inverse) in H. rewrite !crc16_step_low in H by auto.
  apply (f_equal (Z.lxor h)) in H. by rewrite <- !Z.lxor_assoc, !Z.lxor_nilpotent, !Z.lxor_0_l in H.
Qed.

(** A message whose CRC is known cannot differ in two adjacent bytes only. *)
Lemma jd_crc16_burst pre a b a' b' post :
  Forall is_byte [a; b; a'; b'] -> Forall is_byte post ->
  jd_crc16 (pre ++ [a; b] ++ post) = jd_crc16 (pre ++ [a'; b'] ++ post) -> a = a' /\ b = b'.
Proof.
  intros Hab Hpost. unfold jd_crc16. rewrite !fold_left_app. intros H.
  apply crc16_fold_inj in H; [|apply crc16_fold_range, crc16_fold_range; lia..|done].
  cbn [fold_left] in H. decompose_Forall_hyps.
  eapply crc16_two_bytes_inj, H; try done. apply crc16_fold_range; lia.
Qed.

(** ** Well-formed frames and accessor lemmas *)

Record frame_ok (f : list Z) : Prop := {
  frame_ok_len : zlen f = sizeof_frame;
  frame_ok_bytes : Forall is_byte f;
}.

Lemma frame_ok_mwrite f off src :
  frame_ok f -> 0 <= off -> off + zlen src <= sizeof_frame -> Forall is_byte src ->
  frame_ok (mwrite f off src).
Proof.
  intros [Hl Hb] ? ? ?. constructor; [|by auto with jd]. by rewrite zlen_mwrite by lia.
Qed.

Lemma frame_ok_set_crc f v : frame_ok f -> frame_ok (set_f_crc f v).
Proof.
  intros. apply frame_ok_mwrite; auto with jd; change (zlen (le_bytes 2 v)) with 2;
    unfold sizeof_frame; lia.
Qed.

Lemma frame_ok_put8 f i v : frame_ok f -> frame_ok (put8 f i v).
Proof. intros []. constructor; [by rewrite zlen_put8|by auto with jd]. Qed.

Lemma f_size_range f : frame_ok f -> 0 <= f_size f < 256.
Proof. intros [_ H]. exact (get8_is_byte f 2 H). Qed.

#[export] Hint Resolve frame_ok_set_crc frame_ok_put8 : jd.

(** A write behind the size byte changes neither the size nor the CRC field. *)
Lemma f_size_mwrite f off src :
  frame_ok f -> 3 <= off -> off + zlen src <= sizeof_frame -> f_size (mwrite f off src) = f_size f.
Proof. intros [Hl _] ? ?. apply get8_mwrite_ne; lia. Qed.

Lemma f_crc_mwrite f off src :
  frame_ok f -> 3 <= off -> off + zlen src <= sizeof_frame -> f_crc (mwrite f off src) = f_crc f.
Proof. intros [Hl _] ? ?. unfold f_crc, get16. rewrite mread_mwrite_out by lia. done. Qed.

Lemma f_size_set_crc f v : frame_ok f -> f_size (set_f_crc f v) = f_size f.
Proof.
  intros [Hl _]. unfold sizeof_frame in *.
  apply get8_mwrite_ne; change (zlen (le_bytes 2 v)) with 2; lia.
Qed.

Lemma frame_crc_range f : 0 <= frame_crc f < 65536.
Proof. apply crc16_fold_range. lia. Qed.

(** The CRC field is outside the bytes the CRC covers. *)
Lemma frame_crc_set_crc f v : frame_ok f -> frame_crc (set_f_crc f v) = frame_crc f.
Proof.
  intros Hf. pose proof (f_size_range f Hf).
  unfold frame_crc, JD_FRAME_SIZE. rewrite f_size_set_crc by done.
  destruct Hf as [Hl _]. unfold sizeof_frame in *.
  unfold set_f_crc, put16. rewrite mread_mwrite_out; change (zlen (le_bytes 2 v)) with 2; lia || done.
Qed.

Lemma jd_compute_crc_ok f : frame_ok f -> jd_frame_crc_ok (jd_compute_crc f) = true.
Proof.
  intros Hf. unfold jd_frame_crc_ok, jd_compute_crc. rewrite frame_crc_set_crc by done.
  unfold f_crc, set_f_crc. destruct Hf as [Hl _]. unfold sizeof_frame in *.
  rewrite get16_put16, u16_small by (lia || apply frame_crc_range). apply Z.eqb_refl.
Qed.

(** The covered bytes, around a window of two. *)
Lemma frame_covered_split f off :
  0 <= f_size f -> 2 <= off -> off + 2 <= JD_FRAME_SIZE f ->
  mread f 2 (JD_FRAME_SIZE f - 2) =
  mread f 2 (off - 2) ++ mread f off 2 ++ mread f (off + 2) (JD_FRAME_SIZE f - off - 2).
Proof.
  intros. replace (JD_FRAME_SIZE f - 2) with ((off - 2) + (2 + (JD_FRAME_SIZE f - off - 2))) by lia.
  rewrite !mread_add by lia. replace (2 + (off - 2)) with off by lia. done.
Qed.



Lemma frame_crc_window g off a b :
  frame_ok g -> JD_FRAME_SIZE g <= sizeof_frame -> 3 <= off -> off + 2 <= JD_FRAME_SIZE g ->
  is_byte a -> is_byte b ->
  frame_crc (mwrite g off [a; b]) = frame_crc g -> mread g off 2 = [a; b].
Proof.
  intros Hg Hsz Hoff Hend Ha Hb H. pose proof (f_size_range g Hg).
  assert (zlen [a; b] = 2) as Hl2 by done. assert (zlen g = sizeof_frame) as Hlen by apply Hg.
  assert (f_size (mwrite g off [a; b]) = f_size g) as Hs by (apply f_size_mwrite; done || lia).
  assert (zlen (mread g off 2) = 2) as Hl by (apply zlen_mread; lia).
  assert (Forall is_byte g) as Hgb by apply Hg.
  assert (Forall is_byte (mread g off 2)) as Hrb by auto with jd.
  destruct (mread g off 2) as [|x [|y [|]]] eqn:E; try (unfold zlen in Hl; simpl in Hl; lia).
  unfold frame_crc in H. rewrite !(frame_covered_split _ off) in H by (unfold JD_FRAME_SIZE in *; lia).
  unfold JD_FRAME_SIZE in *. rewrite Hs, E in H. change 2 with (zlen [a; b]) in H at 3.
  rewrite mread_mwrite_eq in H by (unfold zlen in *; lia).
  rewrite !mread_mwrite_out in H by lia.
  decompose_Forall_hyps. apply (jd_crc16_burst _ a b x y) in H as [-> ->]; [done| |by auto with jd].
  by rewrite !Forall_cons, Forall_nil.
Qed.

(** ** Properties *)

(** The optimised byte-wise [jd_crc16] computes CRC-16-CCITT: on every
    byte string it agrees with the bit-serial definition over the polynomial
    [0x1021]. *)
Lemma jd_crc16_is_ccitt data : Forall is_byte data -> jd_crc16 data = crc16_ref data.
Proof. intros. apply crc16_fold_ref; [lia|done]. Qed.

(** C37. A frame sealed by [jd_compute_crc] passes [jd_frame_crc_ok], and stops
    passing it when any two adjacent bytes behind the size field and inside
    the frame are altered (a burst of up to 16 bits). *)
Theorem jd_compute_crc_protects f off a b :
  frame_ok f -> JD_FRAME_SIZE f <= sizeof_frame ->
  3 <= off -> off + 2 <= JD_FRAME_SIZE f -> is_byte a -> is_byte b ->
  jd_frame_crc_ok (jd_compute_crc f) = true /\
  (mread f off 2 <> [a; b] ->
   jd_frame_crc_ok (mwrite (jd_compute_crc f) off [a; b]) = false).
Proof.
  intros Hf Hsz Hoff Hend Ha Hb. split; [by apply jd_compute_crc_ok|]. intros Hne.
  pose proof (jd_compute_crc_ok f Hf) as Hok. pose proof (f_size_range f Hf).
  assert (frame_ok (jd_compute_crc f)) as Hg by by apply frame_ok_set_crc.
  assert (mread (jd_compute_crc f) off 2 = mread f off 2) as Hrd.
  { apply mread_mwrite_out; change (zlen (le_bytes 2 _)) with 2; destruct Hf; unfold sizeof_frame in *; lia. }
  assert (f_size (jd_compute_crc f) = f_size f) as Hs by by apply f_size_set_crc.
  unfold jd_frame_crc_ok in *. apply Z.eqb_neq. apply Z.eqb_eq in Hok.
  rewrite f_crc_mwrite, <- Hok by (done || change (zlen [a; b]) with 2; unfold JD_FRAME_SIZE in *; lia).
  intros Heq. apply Hne. rewrite <- Hrd.
  apply frame_crc_window; try done; unfold JD_FRAME_SIZE in *; lia.
Qed.

(** A 16-byte frame holding one empty packet: the witnesses use it. *)
Definition sample_frame : list Z := [0; 0; 4; 0; 1; 2; 3; 4; 5; 6; 7; 8; 0; 1; 2; 3] ++ replicate 236 0.

Lemma sample_frame_ok : frame_ok sample_frame.
Proof.
  constructor; [done|]. apply Forall_app; split.
  - repeat constructor; simpl; lia.
  - apply Forall_replicate. done.
Qed.

Lemma jd_compute_crc_protects_witness :
  jd_frame_crc_ok (mwrite (jd_compute_crc sample_frame) 14 [2; 4]) = false.
Proof.
  apply (jd_compute_crc_protects sample_frame 14 2 4); try done.
  apply sample_frame_ok.
Defined.

(** ** The packet iterator

    [jd_services_process_frame] ([source/jd_services.c]) handles the packet at
    the front of the frame and then calls [jd_shift_frame] until it returns 0.
    [frame_packets] is the list of packets its handler sees; the general loop,
    with the handler, is in the services file. *)

Record packet := {
  pk_service_index : Z;
  pk_service_command : Z;
  pk_data : list Z;
}.

(** The packet [jd_services_handle_packet] is given. *)
Definition packet_of (f : list Z) : packet :=
  {| pk_service_index := p_service_index f;
     pk_service_command := p_service_command f;
     pk_data := p_data f |}.

Fixpoint frame_packets (fuel : nat) (f : list Z) : option (list packet) :=
  match fuel with
  | O => None
  | S fuel' =>
      let '(more, f') := jd_shift_frame f in
      if more =? 0 then Some [packet_of f]
      else ps ← frame_packets fuel' f'; Some (packet_of f :: ps)
  end.

(** Writing a packet the way [jd_send] and the pipes do: reserve the room,
    then copy the payload in. *)
Definition push_packet (f : list Z) (p : packet) : option (list Z) :=
  match jd_push_in_frame f (pk_service_index p) (pk_service_command p) (zlen (pk_data p)) with
  | Ret (Some trg, f') => Some (mwrite f' trg (pk_data p))
  | _ => None
  end.

Fixpoint push_packets (f : list Z) (ps : list packet) : option (list Z) :=
  match ps with
  | [] => Some f
  | p :: ps' => f' ← push_packet f p; push_packets f' ps'
  end.

(** ** Layout of packets in a frame *)

Definition encode_packet (p : packet) : list Z :=
  [zlen (pk_data p); pk_service_index p; Z.land (pk_service_command p) 0xff;
   Z.shiftr (pk_service_command p) 8] ++ pk_data p.

Definition packet_ok (p : packet) : Prop :=
  is_byte (pk_service_index p) /\ 0 <= pk_service_command p < 65536 /\
  Forall is_byte (pk_data p).

Definition pk_len (p : packet) : Z := zlen (pk_data p) + 4.

(** From data offset [off] to the declared size, the frame holds [ps]. *)
Fixpoint laid (f : list Z) (off : Z) (ps : list packet) : Prop :=
  match ps with
  | [] => off = f_size f
  | p :: ps' =>
      mread f (frame_data + off) (pk_len p) = encode_packet p /\
      off + align4 (pk_len p) <= f_size f /\
      laid f (off + align4 (pk_len p)) ps'
  end.

Lemma zlen_encode p : zlen (encode_packet p) = pk_len p.
Proof. unfold encode_packet, pk_len. rewrite zlen_app. unfold zlen. simpl. lia. Qed.

Lemma pk_len_ge p : 4 <= pk_len p.
Proof. unfold pk_len. pose proof (zlen_nonneg (pk_data p)). lia. Qed.

(** Two frames that agree from [off] on hold the same packets there. *)
Lemma laid_agree f g off ps :
  0 <= off -> f_size g = f_size f ->
  (forall o n, off <= o -> 0 <= n -> mread g (frame_data + o) n = mread f (frame_data + o) n) ->
  laid f off ps -> laid g off ps.
Proof.
  revert off; induction ps as [|p ps IH]; intros off Ho Hs Hag; cbn [laid]; [lia|].
  intros (He & Hb & Hl). pose proof (pk_len_ge p). pose proof (align4_bounds (pk_len p)).
  rewrite Hs, Hag by lia. split_and!; [done|lia|]. apply IH; try lia; try done.
  intros. apply Hag; lia.
Qed.

(** Reading back a packet that is at the front of the frame. *)
Lemma packet_of_encode f p :
  packet_ok p -> mread f frame_data (pk_len p) = encode_packet p ->
  packet_of f = p /\ p_service_size f = zlen (pk_data p).
Proof.
  intros (Hi & Hc & Hd) He. unfold frame_data in He.
  assert (forall k, 0 <= k < pk_len p -> get8 f (12 + k) = get8 (encode_packet p) k) as Hget.
  { intros k Hk. rewrite <- He, get8_mread by lia. done. }
  pose proof (pk_len_ge p).
  assert (p_service_size f = zlen (pk_data p)) as Hs.
  { unfold p_service_size. change 12 with (12 + 0). rewrite Hget by lia. done. }
  split; [|done]. unfold packet_of. destruct p as [idx cmd data]. simpl in *. f_equal.
  - unfold p_service_index. change 13 with (12 + 1). rewrite Hget by lia. done.
  - unfold p_service_command, get16.
    replace (mread f 14 2) with (mread (encode_packet (Build_packet idx cmd data)) 2 2).
    + simpl. rewrite Z.mul_0_r, Z.add_0_r. change 255 with (Z.ones 8).
      rewrite Z.land_ones, Z.shiftr_div_pow2 by lia. change (2 ^ 8) with 256. word_lia.
    + rewrite <- He, mread_mread by (unfold pk_len in *; simpl in *; lia). done.
  - unfold p_data. rewrite Hs.
    replace (mread f 16 (zlen data)) with (mread (encode_packet (Build_packet idx cmd data)) 4 (zlen data)).
    + unfold encode_packet, mread. simpl. rewrite drop_0. unfold zlen. rewrite Nat2Z.id. by apply take_ge.
    + rewrite <- He, mread_mread by (pose proof (zlen_nonneg data); unfold pk_len in *; simpl in *; lia). done.
Qed.

(** ** One step of the iterator *)

Lemma length_word_move_loop words m dp sp :
  0 <= dp -> dp <= sp -> sp + 4 * Z.of_nat words <= zlen m ->
  zlen (word_move_loop m dp sp words) = zlen m.
Proof.
  revert m dp sp; induction words as [|w IH]; intros m dp sp Hd Hs Hb; [done|].
  cbn [word_move_loop].
  assert (zlen (mread m sp 4) = 4) by (apply zlen_mread; lia).
  rewrite IH; rewrite ?zlen_mwrite; lia.
Qed.

(** Moving towards the front, word by word, reads only unmodified words. *)
Lemma lookup_word_move_loop words m dp sp i :
  0 <= dp -> dp <= sp -> sp + 4 * Z.of_nat words <= zlen m ->
  word_move_loop m dp sp words !! i =
    if decide (dp <= Z.of_nat i < dp + 4 * Z.of_nat words)
    then m !! (i + Z.to_nat (sp - dp))%nat else m !! i.
Proof.
  revert m dp sp; induction words as [|w IH]; intros m dp sp Hd Hs Hb; cbn [word_move_loop].
  - rewrite decide_False by lia. done.
  - assert (zlen (mread m sp 4) = 4) as H4 by (apply zlen_mread; lia).
    rewrite IH by (rewrite ?zlen_mwrite; lia). unfold zlen in *.
    rewrite !lookup_mwrite, !lookup_mread by lia. repeat case_decide; try lia; try done; f_equal; lia.
Qed.

Lemma word_move_loop_mwrite words m dp sp :
  0 <= dp -> dp <= sp -> sp + 4 * Z.of_nat words <= zlen m ->
  word_move_loop m dp sp words = mwrite m dp (mread m sp (4 * Z.of_nat words)).
Proof.
  intros Hd Hs Hb. apply list_eq; intros i. rewrite lookup_word_move_loop by done.
  assert (zlen (mread m sp (4 * Z.of_nat words)) = 4 * Z.of_nat words) by (apply zlen_mread; lia).
  unfold zlen in *. rewrite lookup_mwrite, lookup_mread by lia.
  repeat case_decide; try lia; try done; f_equal; lia.
Qed.

(** [jd_word_move(dst, src, n + 3)] copies [n] bytes rounded up to a word. *)
Lemma jd_word_move_spec m dst src n :
  0 <= n -> 0 <= dst -> dst <= src -> src + align4 n <= zlen m ->
  jd_word_move m dst src (n + 3) = mwrite m dst (mread m src (align4 n)).
Proof.
  intros Hn Hd Hs Hb. unfold jd_word_move. rewrite Z.shiftr_div_pow2 by lia.
  change (2 ^ 2) with 4. rewrite align4_div in *.
  assert (0 <= (n + 3) / 4) by (apply Z.div_pos; lia).
  rewrite word_move_loop_mwrite by (rewrite ?Z2Nat.id; lia). by rewrite Z2Nat.id by lia.
Qed.

(** The frame after a successful shift to the packet at [ptr]. *)
Definition shifted (g : list Z) (ptr newsz : Z) : list Z :=
  let g1 := set_f_flags g (Z.ldiff (f_flags g) JD_FRAME_FLAG_ACK_REQUESTED) in
  set_f_data (set_f_data (mwrite g1 frame_data (mread g1 (frame_data + ptr) (align4 newsz))) newsz 0xff)
    (newsz + 1) (ptr + align4 newsz).

(** The packet [p] is at the front, the packets [ps] are laid out from [off]
    on, and the bytes behind [p] lead the iterator to [off]. *)
Record front (g : list Z) (p : packet) (off : Z) (ps : list packet) : Prop := {
  front_frame : frame_ok g;
  front_size : f_size g <= 240;
  front_bytes : mread g frame_data (pk_len p) = encode_packet p;
  front_ok : Forall packet_ok (p :: ps);
  front_next : ps <> [] ->
    (if f_data g (pk_len p) =? 0xff then f_data g (pk_len p + 1) = off else off = align4 (pk_len p));
  front_last : ps = [] -> f_data g (pk_len p) = 0xff -> align4 (pk_len p) < f_size g ->
    f_data g (pk_len p + 1) = off;
  front_last' : ps = [] -> f_data g (pk_len p) <> 0xff -> off = align4 (pk_len p);
  front_off : align4 (pk_len p) <= off /\ off mod 4 = 0;
  front_laid : laid g off ps;
}.

Lemma front_old g p off ps : front g p off ps -> p_service_size g + 4 = pk_len p.
Proof.
  intros []. decompose_Forall_hyps. destruct (packet_of_encode g p) as [_ ->]; done.
Qed.

Lemma jd_shift_frame_last g p off : front g p off [] -> jd_shift_frame g = (0, g).
Proof.
  intros Hf. pose proof (front_old _ _ _ _ Hf) as Hold. destruct Hf. simpl in front_laid0.
  unfold jd_shift_frame. rewrite Hold, !Z.geb_leb.
  destruct (Z.leb_spec (f_size g) (align4 (pk_len p))); [done|].
  destruct (Z.eqb_spec (f_data g (pk_len p)) 0xff).
  - rewrite (front_last0 ltac:(done)), (proj2 (Z.leb_le _ _)) by lia. done.
  - specialize (front_last'0 ltac:(done) ltac:(done)). lia.
Qed.

(** The service size of a packet that is laid out at [off]. *)
Lemma laid_service_size g off q ps :
  0 <= off -> laid g off (q :: ps) -> f_data g off = zlen (pk_data q).
Proof.
  intros Ho (He & _ & _). pose proof (pk_len_ge q). unfold f_data.
  assert (get8 (mread g (frame_data + off) (pk_len q)) 0 = zlen (pk_data q)) as <- by by rewrite He.
  rewrite get8_mread by (unfold frame_data; lia). f_equal. lia.
Qed.

(** What the code reads as the pointer to the next packet. *)
Lemma front_pointer g p off q ps :
  front g p off (q :: ps) ->
  (if f_data g (pk_len p) =? 255
   then if f_size g <=? f_data g (pk_len p + 1) then None
        else if f_data g (pk_len p + 1) <=? pk_len p then None else Some (f_data g (pk_len p + 1))
   else Some (align4 (pk_len p))) = Some off.
Proof.
  intros Hf. destruct Hf as [_ Hs _ _ Hnext _ _ [Hoff Hoff4] Hlaid].
  specialize (Hnext ltac:(done)). pose proof (pk_len_ge p). pose proof (pk_len_ge q).
  pose proof (align4_bounds (pk_len p)). pose proof (align4_bounds (pk_len q)).
  pose proof (laid_service_size g off q ps ltac:(lia) Hlaid) as Hq. destruct Hlaid as (_ & Hb & _).
  destruct (Z.eqb_spec (f_data g (pk_len p)) 255) as [H255|]; [|by subst].
  rewrite Hnext, !(proj2 (Z.leb_gt _ _)); [done| |lia].
  destruct (decide (pk_len p = off)) as [E|]; [|lia]. exfalso.
  rewrite E, Hq in H255. unfold pk_len in *. lia.
Qed.

Lemma jd_shift_frame_next g p off q ps :
  front g p off (q :: ps) -> jd_shift_frame g = (1, shifted g off (pk_len q)).
Proof.
  intros Hf. pose proof (front_old _ _ _ _ Hf) as Hold. pose proof (front_pointer _ _ _ _ _ Hf) as Hptr.
  destruct Hf as [[Hlen Hby] Hs _ _ _ _ _ [Hoff Hoff4] Hlaid].
  pose proof (pk_len_ge p). pose proof (pk_len_ge q).
  pose proof (align4_bounds (pk_len p)). pose proof (align4_bounds (pk_len q)).
  pose proof (laid_service_size g off q ps ltac:(lia) Hlaid) as Hq. destruct Hlaid as (_ & Hb & _).
  unfold jd_shift_frame, sizeof_frame in *. rewrite Hold, !Z.geb_leb.
  rewrite (proj2 (Z.leb_gt _ _)), Hptr by lia.
  assert (get8 (set_f_flags g (Z.ldiff (f_flags g) JD_FRAME_FLAG_ACK_REQUESTED)) (frame_data + off) + 4
    = pk_len q) as ->.
  { unfold set_f_flags. rewrite get8_put8_ne by (unfold frame_data; lia).
    unfold f_data in Hq. rewrite Hq. unfold pk_len. lia. }
  rewrite Z.gtb_ltb, (proj2 (Z.ltb_ge _ _)) by lia. unfold shifted, frame_data in *.
  rewrite jd_word_move_spec by (try (unfold set_f_flags; rewrite zlen_put8); lia). done.
Qed.

Section Shifted.
Context (g : list Z) (off n : Z).
Hypothesis (Hg : frame_ok g) (Hn : 4 <= n) (Hoff : 4 <= off) (Hend : off + align4 n <= 240).

Let g1 := set_f_flags g (Z.ldiff (f_flags g) JD_FRAME_FLAG_ACK_REQUESTED).
Let moved := mwrite g1 frame_data (mread g1 (frame_data + off) (align4 n)).

Lemma shifted_moved : shifted g off n = set_f_data (set_f_data moved n 0xff) (n + 1) (off + align4 n).
Proof using. done. Qed.

Lemma shifted_g1 : zlen g1 = 252.
Proof using Hg. unfold g1, set_f_flags. rewrite zlen_put8. apply Hg. Qed.

Lemma shifted_src :
  mread g1 (frame_data + off) (align4 n) = mread g (frame_data + off) (align4 n) /\
  zlen (mread g1 (frame_data + off) (align4 n)) = align4 n.
Proof using Hg Hn Hoff Hend.
  pose proof (align4_bounds n). pose proof shifted_g1. unfold frame_data in *.
  split; [apply mread_put8_ne; lia|apply zlen_mread; lia].
Qed.

Lemma shifted_zlen : zlen moved = 252.
Proof using Hg Hn Hoff Hend.
  pose proof (align4_bounds n). pose proof shifted_g1. destruct shifted_src.
  unfold moved, frame_data in *. rewrite zlen_mwrite; lia.
Qed.

Lemma shifted_ok : frame_ok (shifted g off n).
Proof using Hg Hn Hoff Hend.
  pose proof shifted_zlen. pose proof shifted_g1. rewrite shifted_moved. unfold set_f_data.
  assert (Forall is_byte g1) by (apply Forall_put8, Hg).
  constructor; [by rewrite !zlen_put8|]. unfold moved. auto 6 with jd.
Qed.

Lemma shifted_size : f_size (shifted g off n) = f_size g.
Proof using Hg Hn Hoff Hend.
  pose proof (align4_bounds n). pose proof shifted_g1. destruct shifted_src.
  rewrite shifted_moved. unfold set_f_data, f_size, moved in *. unfold frame_data in *.
  rewrite !get8_put8_ne, get8_mwrite_ne by lia. apply get8_put8_ne; lia.
Qed.

Lemma shifted_marker :
  f_data (shifted g off n) n = 0xff /\ f_data (shifted g off n) (n + 1) = off + align4 n.
Proof using Hg Hn Hoff Hend.
  pose proof (align4_bounds n). pose proof shifted_zlen.
  rewrite shifted_moved. unfold set_f_data, f_data, frame_data in *. split.
  - rewrite get8_put8_ne, get8_put8 by lia. done.
  - rewrite get8_put8 by (rewrite ?zlen_put8; lia). apply u8_small. lia.
Qed.

Lemma shifted_front : mread (shifted g off n) frame_data n = mread g (frame_data + off) n.
Proof using Hg Hn Hoff Hend.
  pose proof (align4_bounds n). pose proof shifted_zlen. pose proof shifted_g1.
  destruct shifted_src as [Hsrc Hlen].
  rewrite shifted_moved. unfold set_f_data, frame_data in *. rewrite !mread_put8_ne by lia.
  unfold moved. rewrite Hsrc in *. apply list_eq; intros i.
  unfold zlen in *. rewrite !lookup_mread, lookup_mwrite, lookup_mread by lia.
  repeat case_decide; try lia; try done. f_equal. lia.
Qed.

Lemma shifted_behind o k :
  off + align4 n <= o -> 0 <= k ->
  mread (shifted g off n) (frame_data + o) k = mread g (frame_data + o) k.
Proof using Hg Hn Hoff Hend.
  intros. pose proof (align4_bounds n). pose proof shifted_zlen. pose proof shifted_g1.
  destruct shifted_src as [Hsrc Hlen].
  rewrite shifted_moved. unfold set_f_data, frame_data in *. rewrite !mread_put8_ne by lia.
  unfold moved. rewrite mread_mwrite_out by lia. apply mread_put8_ne; lia.
Qed.
End Shifted.

(** The shift leads to the next packet and keeps the rest of the layout. *)
Lemma front_shifted g p off q ps :
  front g p off (q :: ps) ->
  front (shifted g off (pk_len q)) q (off + align4 (pk_len q)) ps /\
  f_size (shifted g off (pk_len q)) = f_size g.
Proof.
  intros [Hg Hs _ Hok _ _ _ [Hoff Hoff4] (He & Hb & Hl)].
  pose proof (pk_len_ge p). pose proof (pk_len_ge q).
  pose proof (align4_bounds (pk_len p)). pose proof (align4_bounds (pk_len q)).
  pose proof (align4_mod (pk_len q)).
  assert (4 <= off) as Ho by lia. assert (off + align4 (pk_len q) <= 240) as He' by lia.
  destruct (shifted_marker g off (pk_len q) Hg H0 Ho He') as [Hm1 Hm2].
  pose proof (shifted_size g off (pk_len q) Hg H0 Ho He') as Hsz.
  split; [|done]. constructor.
  - by apply shifted_ok.
  - lia.
  - by rewrite shifted_front.
  - by inversion Hok.
  - intros _. rewrite Hm1. done.
  - intros. done.
  - intros. congruence.
  - split; [lia|]. word_lia.
  - eapply laid_agree, Hl; [lia|done|]. intros. by apply shifted_behind.
Qed.

(** The iterator visits exactly the packets of the layout. *)
Lemma frame_packets_front ps : forall g p off fuel,
  front g p off ps -> (length ps < fuel)%nat -> frame_packets fuel g = Some (p :: ps).
Proof.
  induction ps as [|q ps IH]; intros g p off [|fuel] Hf Hfuel; simpl in Hfuel; try lia.
  - cbn [frame_packets]. rewrite (jd_shift_frame_last _ _ _ Hf). simpl.
    destruct Hf as [_ _ He Hok]. decompose_Forall_hyps.
    by destruct (packet_of_encode g p) as [-> _].
  - cbn [frame_packets]. rewrite (jd_shift_frame_next _ _ _ _ _ Hf).
    destruct (front_shifted _ _ _ _ _ Hf) as [Hf' _]. rewrite (IH _ _ _ _ Hf') by lia. simpl.
    destruct Hf as [_ _ He Hok]. decompose_Forall_hyps.
    by destruct (packet_of_encode g p) as [-> _].
Qed.

(** ** Writing packets *)

Lemma put8_4 m i a b c d :
  0 <= i -> i + 4 <= zlen m ->
  put8 (put8 (put8 (put8 m i a) (i + 1) b) (i + 2) c) (i + 3) d = mwrite m i [u8 a; u8 b; u8 c; u8 d].
Proof.
  unfold zlen. intros Hi Hl. unfold put8. apply list_eq; intros k.
  rewrite lookup_mwrite by (simpl; lia). rewrite !list_lookup_insert.
  rewrite !length_insert. simpl length.
  destruct (decide (Z.to_nat i <= k < Z.to_nat i + 4)%nat) as [Hk|Hk].
  - assert (k - Z.to_nat i = 0 \/ k - Z.to_nat i = 1 \/ k - Z.to_nat i = 2 \/ k - Z.to_nat i = 3)%nat
      as [E|[E|[E|E]]] by lia; rewrite E; simpl; repeat case_decide; lia || done.
  - repeat case_decide; lia || done.
Qed.

(** The four header bytes the code stores are those of [encode_packet]. *)
Lemma packet_header_bytes p :
  packet_ok p -> pk_len p <= 236 ->
  [u8 (zlen (pk_data p)); u8 (pk_service_index p); u8 (Z.land (pk_service_command p) 0xff);
   u8 (Z.shiftr (pk_service_command p) 8)] ++ pk_data p = encode_packet p.
Proof.
  intros (Hi & Hc & _) Hl. unfold is_byte, pk_len in *. pose proof (zlen_nonneg (pk_data p)).
  unfold encode_packet. change 255 with (Z.ones 8). rewrite Z.land_ones, Z.shiftr_div_pow2 by lia.
  rewrite !u8_small; [done|word_lia..].
Qed.

(** [jd_push_in_frame] in terms of the bytes it writes. *)
Lemma jd_push_in_frame_spec f idx cmd n :
  frame_ok f -> is_byte idx -> 0 <= cmd < 65536 -> 0 <= n < 2 ^ 31 -> f_size f <= 236 ->
  jd_push_in_frame f idx cmd n =
    if f_size f + (n + 4) <=? 236 then
      let dst := frame_data + f_size f in
      Ret (Some (dst + 4),
        set_f_size (mwrite f dst [u8 n; u8 idx; u8 (Z.land cmd 0xff); u8 (Z.shiftr cmd 8)])
          (f_size f + align4 (n + 4)))
    else Ret (None, f).
Proof.
  intros Hf Hi Hc Hn Hs. pose proof (f_size_range f Hf). unfold is_byte in *.
  unfold jd_push_in_frame. rewrite !Z.shiftr_div_pow2, (Z.div_small idx), (Z.div_small cmd) by lia.
  simpl negb. cbv iota. unfold JD_SERIAL_PAYLOAD_SIZE. rewrite (u32_small (236 - _)), u32_small by lia.
  rewrite Z.gtb_ltb. assert (zlen f = 252) by apply Hf.
  case_cmp; case_cmp; try lia; [done|].
  unfold frame_data in *. rewrite put8_4 by lia.
  assert (forall l, zlen l = 4 -> f_size (mwrite f (12 + f_size f) l) = f_size f) as ->;
    [|done|done].
  intros l Hl. unfold f_size in *. rewrite get8_mwrite_ne by lia. done.
Qed.

Lemma push_packet_spec f p :
  frame_ok f -> packet_ok p -> f_size f mod 4 = 0 -> f_size f + pk_len p <= 236 ->
  exists g, push_packet f p = Some g /\ frame_ok g /\
    f_size g = f_size f + align4 (pk_len p) /\ f_size g <= 236 /\
    mread g (frame_data + f_size f) (pk_len p) = encode_packet p /\
    (forall o n, 3 <= o -> 0 <= n -> o + n <= frame_data + f_size f -> mread g o n = mread f o n) /\
    (forall i, frame_data + f_size f + pk_len p <= i -> get8 g i = get8 f i).
Proof.
  intros Hf Hp H4 Hfit. pose proof (f_size_range f Hf). pose proof Hp as (Hi & Hc & Hd).
  pose proof (pk_len_ge p). pose proof (align4_bounds (pk_len p)). pose proof (align4_mod (pk_len p)).
  assert (0 <= zlen (pk_data p)) by apply zlen_nonneg.
  unfold push_packet. rewrite jd_push_in_frame_spec by (try done; unfold pk_len in *; lia).
  change (zlen (pk_data p) + 4) with (pk_len p). rewrite (proj2 (Z.leb_le _ _)) by done.
  cbv zeta. eexists. split; [done|]. pose proof (packet_header_bytes p Hp ltac:(lia)) as Hhd.
  set (hd := [_; _; _; _]) in *. assert (zlen hd = 4) as Hl4 by done.
  assert (zlen f = 252) as Hl by apply Hf. unfold frame_data, set_f_size, f_size in *.
  assert (Forall is_byte hd) by (repeat constructor; apply u8_range).
  set (h := put8 (mwrite f (12 + get8 f 2) hd) _ _).
  assert (zlen h = 252) as Hh by (unfold h; rewrite zlen_put8, zlen_mwrite; lia).
  assert (frame_ok h) by (apply frame_ok_put8, frame_ok_mwrite; unfold sizeof_frame; done || lia).
  assert (get8 h 2 = get8 f 2 + align4 (pk_len p)) as Hsz.
  { unfold h. rewrite get8_put8 by (rewrite zlen_mwrite; lia). apply u8_small. word_lia. }
  assert (zlen (pk_data p) = pk_len p - 4) as Hld by (unfold pk_len; lia). split_and!.
  - apply frame_ok_mwrite; unfold sizeof_frame; done || lia.
  - by rewrite get8_mwrite_ne by lia.
  - rewrite get8_mwrite_ne by lia. word_lia.
  - rewrite <- Hhd. replace (pk_len p) with (4 + zlen (pk_data p)) by lia.
    rewrite mread_add, mread_mwrite_eq by (unfold zlen in *; lia).
    rewrite mread_mwrite_out by lia. unfold h. rewrite mread_put8_ne by lia.
    change 4 with (zlen hd). rewrite mread_mwrite_eq by (unfold zlen in *; lia). done.
  - intros o n Ho Hn Hend. rewrite mread_mwrite_out by lia. unfold h.
    rewrite mread_put8_ne, mread_mwrite_out by lia. done.
  - intros i Hi'. rewrite get8_mwrite_ne by lia. unfold h.
    rewrite get8_put8_ne, get8_mwrite_ne by lia. done.
Qed.

(** The room the packets [ps] take in a frame. *)
Definition total_len (ps : list packet) : Z := foldr (fun p n => align4 (pk_len p) + n) 0 ps.

Lemma total_len_nonneg ps : 0 <= total_len ps.
Proof.
  induction ps as [|p ps IH]; simpl; [lia|]. pose proof (align4_bounds (pk_len p)).
  pose proof (pk_len_ge p). lia.
Qed.

Lemma push_packets_spec ps : forall f,
  frame_ok f -> Forall packet_ok ps -> f_size f mod 4 = 0 -> f_size f + total_len ps <= 236 ->
  exists g, push_packets f ps = Some g /\ frame_ok g /\ f_size g <= 236 /\ f_size f <= f_size g /\
    laid g (f_size f) ps /\
    (forall o n, 3 <= o -> 0 <= n -> o + n <= frame_data + f_size f -> mread g o n = mread f o n).
Proof.
  induction ps as [|p ps IH]; intros f Hf Hok H4 Hs; simpl in Hs.
  - exists f. simpl. split_and!; try done; lia.
  - apply Forall_cons in Hok as [Hp Hps]. pose proof (pk_len_ge p).
    pose proof (align4_bounds (pk_len p)). pose proof (align4_mod (pk_len p)).
    pose proof (total_len_nonneg ps). pose proof (f_size_range f Hf).
    destruct (push_packet_spec f p) as (g & Hg & Hgo & Hsz & Hle & Henc & Hfr & Hout); try done; try lia.
    destruct (IH g) as (g' & Hg' & Ho' & Hle' & Hge' & Hl' & Hfr'); try done; try lia; [word_lia|].
    exists g'. cbn [push_packets]. rewrite Hg. cbn. rewrite Hg'. split_and!; try done; try lia.
    + unfold frame_data in *. by rewrite Hfr' by lia.
    + by rewrite <- Hsz.
    + intros o n ? ? ?. rewrite Hfr' by lia. by apply Hfr.
Qed.

Lemma get8_mread0 m i : 0 <= i -> get8 m i = get8 (mread m i 1) 0.
Proof. intros. rewrite get8_mread by lia. f_equal. lia. Qed.

(** The byte behind the front packet, when it is padding, keeps the value it
    had before the packets were written. *)
Lemma push_packets_padding f p ps g k :
  frame_ok f -> Forall packet_ok (p :: ps) -> f_size f = 0 -> total_len (p :: ps) <= 236 ->
  push_packets f (p :: ps) = Some g -> pk_len p <= k < align4 (pk_len p) -> f_data g k = f_data f k.
Proof.
  intros Hf Hok H0 Hs Hg Hpad. apply Forall_cons in Hok as [Hp Hps]. simpl in Hs.
  pose proof (pk_len_ge p). pose proof (align4_bounds (pk_len p)). pose proof (align4_mod (pk_len p)).
  pose proof (total_len_nonneg ps).
  destruct (push_packet_spec f p) as (h & Hh & Hho & Hsz & Hle & Henc & Hfr & Hout);
    try done; try (rewrite H0); [done|lia|].
  destruct (push_packets_spec ps h) as (g' & Hg' & Ho' & Hle' & Hge' & Hl' & Hfr'); try done; try lia; [word_lia|].
  cbn [push_packets] in Hg. rewrite Hh in Hg. cbn in Hg. rewrite Hg' in Hg. injection Hg as ->.
  unfold f_data, frame_data in *. rewrite get8_mread0, Hfr' by lia. rewrite <- get8_mread0 by lia.
  apply Hout. lia.
Qed.

(** A pointer marker can only be misread in the padding of the first packet. *)
Definition padding_ok (f : list Z) (p : packet) : Prop :=
  pk_len p mod 4 = 0 \/ f_data f (pk_len p) <> 0xff.

Lemma pushed_front f p ps g :
  frame_ok f -> Forall packet_ok (p :: ps) -> f_size f = 0 -> total_len (p :: ps) <= 236 ->
  padding_ok f p -> push_packets f (p :: ps) = Some g -> front g p (align4 (pk_len p)) ps.
Proof.
  intros Hf Hok H0 Hs Hpad Hg. pose proof (pk_len_ge p).
  pose proof (align4_bounds (pk_len p)). pose proof (align4_mod (pk_len p)).
  destruct (push_packets_spec (p :: ps) f) as (g' & Hg' & Ho' & Hle' & Hge' & Hl' & _);
    try done; [by rewrite H0|lia|]. simplify_eq.
  rewrite H0 in Hl'. destruct Hl' as (He & Hb & Hl). rewrite Z.add_0_l in Hl.
  rewrite Z.add_0_r in He.
  assert (ps <> [] -> f_data g (pk_len p) <> 255) as Hnff.
  { intros Hne. destruct (decide (pk_len p mod 4 = 0)) as [E|E].
    - destruct ps as [|q ps]; [done|]. assert (align4 (pk_len p) = pk_len p) as Ha by word_lia.
      rewrite Ha in *. rewrite (laid_service_size g (pk_len p) q ps) by (done || lia).
      destruct Hl as (_ & Hb' & _). pose proof (align4_bounds (pk_len q)). unfold pk_len in *. lia.
    - rewrite (push_packets_padding f p ps g (pk_len p)); try done; [|word_lia].
      destruct Hpad; done. }
  constructor; try done; try lia.
  - intros Hne. by rewrite (proj2 (Z.eqb_neq _ _)) by auto.
  - intros -> _. simpl in Hl. lia.
Qed.

(** Sealing the frame does not disturb the packets. *)
Lemma front_set_crc g p off ps v : front g p off ps -> front (set_f_crc g v) p off ps.
Proof.
  intros []. assert (zlen g = 252) as Hl by apply front_frame0.
  assert (forall o n, 0 <= o -> 0 <= n -> mread (set_f_crc g v) (frame_data + o) n = mread g (frame_data + o) n) as Hag.
  { intros o n ? ?. unfold set_f_crc, put16, frame_data.
    apply mread_mwrite_out; change (zlen (le_bytes 2 v)) with 2; lia. }
  assert (forall i, 0 <= i -> f_data (set_f_crc g v) i = f_data g i) as Hd.
  { intros i ?. unfold f_data, set_f_crc, put16, frame_data. apply get8_mwrite_ne; change (zlen (le_bytes 2 v)) with 2; lia. }
  pose proof (pk_len_ge p). pose proof (align4_bounds (pk_len p)).
  assert (f_size (set_f_crc g v) = f_size g) as Hsz by by apply f_size_set_crc.
  constructor; rewrite ?Hsz, ?Hd by lia; try done; auto with jd.
  - rewrite <- (Z.add_0_r frame_data), Hag, Z.add_0_r by lia. done.
  - apply (laid_agree g); try done; try lia. intros. apply Hag; lia.
Qed.

(** C3. Round trip of the packet writer and the packet iterator: packets
    pushed into a reset frame that fit its 236 bytes are all accepted, and the
    receiver's loop over the sealed frame visits exactly those packets, in the
    order they were pushed.  The frame may hold arbitrary stale bytes, except
    that the padding byte behind the first packet is not [0xff]. *)
Theorem push_packets_delivered f p ps :
  frame_ok f -> Forall packet_ok (p :: ps) -> total_len (p :: ps) <= 236 -> padding_ok f p ->
  exists g, push_packets (jd_reset_frame f) (p :: ps) = Some g /\
    forall fuel, (length ps < fuel)%nat ->
      frame_packets fuel (jd_compute_crc g) = Some (p :: ps).
Proof.
  intros Hf Hok Hs Hpad. pose proof (pk_len_ge p).
  assert (zlen f = 252) as Hl by apply Hf.
  assert (frame_ok (jd_reset_frame f)) as Hr by by apply frame_ok_put8.
  assert (f_size (jd_reset_frame f) = 0) as H0.
  { unfold f_size, jd_reset_frame, set_f_size. by rewrite get8_put8 by lia. }
  assert (padding_ok (jd_reset_frame f) p) as Hp'.
  { destruct Hpad as [|Hpad]; [by left|right]. unfold f_data, jd_reset_frame, set_f_size, frame_data in *.
    by rewrite get8_put8_ne by lia. }
  destruct (push_packets_spec (p :: ps) (jd_reset_frame f)) as (g & Hg & _);
    try done; [by rewrite H0|rewrite H0; lia|].
  exists g. split; [done|]. intros fuel Hfuel. eapply frame_packets_front; [|done].
  by apply front_set_crc, (pushed_front (jd_reset_frame f)).
Qed.

Lemma push_packets_delivered_witness :
  frame_packets 3 (jd_compute_crc (default [] (push_packets (jd_reset_frame sample_frame)
    [Build_packet 1 0x80 [7]; Build_packet 2 0x1001 []; Build_packet 61 3 [1; 2; 3; 4; 5]]))) =
  Some [Build_packet 1 0x80 [7]; Build_packet 2 0x1001 []; Build_packet 61 3 [1; 2; 3; 4; 5]].
Proof.
  destruct (push_packets_delivered sample_frame (Build_packet 1 0x80 [7])
    [Build_packet 2 0x1001 []; Build_packet 61 3 [1; 2; 3; 4; 5]]) as (g & -> & H).
  - apply sample_frame_ok.
  - repeat constructor; simpl; lia.
  - vm_compute. discriminate.
  - right. vm_compute. discriminate.
  - apply H. simpl. lia.
Defined.

(** When the stale padding does read [0xff 0xff], the iterator takes it for its
    own end marker and the packets behind the first one are lost. *)
Lemma stale_padding_hides_packets f p q :
  frame_ok f -> Forall packet_ok [p; q] -> total_len [p; q] <= 236 ->
  pk_len p mod 4 = 1 \/ pk_len p mod 4 = 2 ->
  f_data f (pk_len p) = 0xff -> f_data f (pk_len p + 1) = 0xff ->
  exists g, push_packets (jd_reset_frame f) [p; q] = Some g /\
    frame_packets 1 (jd_compute_crc g) = Some [p].
Proof.
  intros Hf Hok Hs Hm Hd1 Hd2. pose proof (pk_len_ge p). pose proof (pk_len_ge q).
  pose proof (align4_bounds (pk_len p)). pose proof (align4_mod (pk_len p)).
  pose proof (align4_bounds (pk_len q)).
  assert (zlen f = 252) as Hl by apply Hf.
  assert (frame_ok (jd_reset_frame f)) as Hr by by apply frame_ok_put8.
  assert (f_size (jd_reset_frame f) = 0) as Hz.
  { unfold f_size, jd_reset_frame, set_f_size. by rewrite get8_put8 by lia. }
  destruct (push_packets_spec [p; q] (jd_reset_frame f)) as (g & Hg & Hgo & Hsz & _ & Hlaid & _);
    try done; [by rewrite Hz|rewrite Hz; lia|].
  exists g. split; [done|]. rewrite Hz in Hlaid. destruct Hlaid as (He & Hb & _).
  assert (forall k, pk_len p <= k < align4 (pk_len p) -> f_data (jd_compute_crc g) k = f_data f k) as Hpd.
  { intros k Hk. transitivity (f_data g k).
    - unfold f_data, jd_compute_crc, set_f_crc, put16, frame_data.
      assert (zlen g = 252) by apply Hgo.
      apply get8_mwrite_ne; change (zlen (le_bytes 2 _)) with 2; lia.
    - rewrite (push_packets_padding (jd_reset_frame f) p [q]) by done.
      unfold f_data, jd_reset_frame, set_f_size, frame_data. by rewrite get8_put8_ne by lia. }
  decompose_Forall_hyps. rewrite Z.add_0_r in He.
  destruct (packet_of_encode (jd_compute_crc g) p) as [Hpo Hps]; [done| |].
  { rewrite <- He. assert (zlen g = 252) by apply Hgo. unfold frame_data.
    apply mread_mwrite_out; change (zlen (le_bytes 2 _)) with 2; lia. }
  cbn [frame_packets]. unfold jd_shift_frame. rewrite Hps. change (zlen (pk_data p) + 4) with (pk_len p).
  rewrite Hpd, Hd1 by word_lia. rewrite Hpd, Hd2 by word_lia. simpl.
  unfold jd_compute_crc in *. rewrite f_size_set_crc by done. rewrite !Z.geb_leb, (proj2 (Z.leb_le (f_size g) 255)) by lia.
  by case_cmp; simpl; rewrite Hpo.
Qed.

(** ** Termination on arbitrary frames *)

Lemma jd_shift_frame_cases f :
  frame_ok f -> f_size f <= 236 -> let old := p_service_size f + 4 in
  (exists g, jd_shift_frame f = (0, g)) \/
  exists ptr n, jd_shift_frame f = (1, shifted f ptr n) /\ 4 <= n /\ 4 <= ptr /\ ptr + n <= f_size f /\
    (f_data f old = 0xff -> ptr = f_data f (old + 1)) /\ n = f_data f ptr + 4.
Proof.
  intros Hf Hs old. assert (zlen f = 252) by apply Hf.
  pose proof (get8_is_byte f 12 (frame_ok_bytes _ Hf)) as Hold. fold (p_service_size f) in Hold.
  pose proof (align4_bounds old). unfold is_byte in *.
  assert (forall ptr, old < ptr \/ ptr = align4 old -> ptr < f_size f ->
    let n := get8 (set_f_flags f (Z.ldiff (f_flags f) JD_FRAME_FLAG_ACK_REQUESTED)) (frame_data + ptr) + 4 in
    n = f_data f ptr + 4 /\ 4 <= n) as Hn.
  { intros ptr Hptr Hlt n. unfold n, set_f_flags, f_data, frame_data.
    rewrite get8_put8_ne by lia. pose proof (get8_is_byte f (12 + ptr) (frame_ok_bytes _ Hf)).
    unfold is_byte in *. lia. }
  unfold jd_shift_frame. fold old. rewrite !Z.geb_leb.
  destruct (Z.leb_spec (f_size f) (align4 old)); [by left; eexists|].
  set (next := if _ =? _ then _ else _).
  destruct next as [ptr|] eqn:Hnext; [|by left; eexists].
  assert ((old < ptr \/ ptr = align4 old) /\ ptr < f_size f /\
    (f_data f old = 0xff -> ptr = f_data f (old + 1))) as (Hp & Hlt & Hm).
  { revert Hnext. subst next. repeat case_cmp; intros; simplify_eq; (split; [|split]); try done; lia. }
  destruct (Hn ptr Hp Hlt) as [Hn1 Hn2]. cbv beta iota zeta in *.
  set (n := get8 _ _ + 4) in *. pose proof (align4_bounds n). rewrite Z.gtb_ltb.
  destruct (Z.ltb_spec (f_size f) (ptr + n)); [by left; eexists|].
  right. exists ptr, n. split_and!; try done; try lia. unfold shifted, frame_data in *.
  rewrite jd_word_move_spec by (try (unfold set_f_flags; rewrite zlen_put8); lia). done.
Qed.

(** After a successful shift the frame starts with the marker that the next
    shift reads, further on. *)
Lemma shifted_service_size f ptr n :
  frame_ok f -> 4 <= n -> 4 <= ptr -> ptr + n <= f_size f -> f_size f <= 236 -> n = f_data f ptr + 4 ->
  p_service_size (shifted f ptr n) + 4 = n.
Proof.
  intros Hf Hn Hp He Hs ->. pose proof (align4_bounds (f_data f ptr + 4)).
  assert (mread (shifted f ptr (f_data f ptr + 4)) frame_data (f_data f ptr + 4) =
    mread f (frame_data + ptr) (f_data f ptr + 4)) as Hfr by (apply shifted_front; done || lia).
  apply (f_equal (fun m => get8 m 0)) in Hfr. unfold frame_data in *.
  rewrite !get8_mread, !Z.add_0_r in Hfr by lia.
  unfold p_service_size. rewrite Hfr. done.
Qed.

Lemma frame_packets_marked fuel : forall f,
  frame_ok f -> f_size f <= 236 -> f_data f (p_service_size f + 4) = 0xff ->
  (1 <= fuel)%nat -> f_size f - f_data f (p_service_size f + 5) < 4 * Z.of_nat fuel ->
  is_Some (frame_packets fuel f).
Proof.
  induction fuel as [|fuel IH]; intros f Hf Hs Hm H1 Hfuel; [lia|]. cbn [frame_packets].
  destruct (jd_shift_frame_cases f Hf Hs) as [[g ->]|(ptr & n & -> & Hn & Hp & He & Hmp & Hnd)]; [done|].
  simpl. pose proof (align4_bounds n). assert (ptr + align4 n <= 240) by lia.
  destruct (shifted_marker f ptr n Hf Hn Hp ltac:(lia)) as [M1 M2].
  pose proof (shifted_service_size f ptr n Hf Hn Hp He Hs Hnd) as Hss.
  pose proof (shifted_size f ptr n Hf Hn Hp ltac:(lia)) as Hsz.
  specialize (Hmp Hm). replace (p_service_size f + 4 + 1) with (p_service_size f + 5) in Hmp by lia.
  destruct (IH (shifted f ptr n)) as [ps ->]; [by apply shifted_ok|lia|by rewrite Hss|lia| |by eexists].
  replace (p_service_size (shifted f ptr n) + 5) with (n + 1) by lia. rewrite M2. lia.
Qed.

Lemma frame_packets_enough k f :
  frame_ok f -> f_size f <= 236 -> 228 < 4 * Z.of_nat k -> is_Some (frame_packets (S k) f).
Proof.
  intros Hf Hs Hk. cbn [frame_packets].
  destruct (jd_shift_frame_cases f Hf Hs) as [[g ->]|(ptr & n & -> & Hn & Hp & He & Hmp & Hnd)]; [done|].
  simpl. pose proof (align4_bounds n). assert (ptr + align4 n <= 240) by lia.
  destruct (shifted_marker f ptr n Hf Hn Hp ltac:(lia)) as [M1 M2].
  pose proof (shifted_service_size f ptr n Hf Hn Hp He Hs Hnd) as Hss.
  pose proof (shifted_size f ptr n Hf Hn Hp ltac:(lia)) as Hsz.
  destruct (frame_packets_marked k (shifted f ptr n)) as [ps ->];
    [by apply shifted_ok|lia|by rewrite Hss|lia| |by eexists].
  replace (p_service_size (shifted f ptr n) + 5) with (n + 1) by lia. rewrite M2. lia.
Qed.

(** The receiver's loop over a frame terminates, whatever bytes the frame
    holds, as long as its declared size is one a sender can make (236): it
    handles at most 59 packets, the number of empty packets that fit. *)
Lemma frame_packets_terminates f :
  frame_ok f -> f_size f <= JD_SERIAL_PAYLOAD_SIZE -> is_Some (frame_packets 59 f).
Proof.
  unfold JD_SERIAL_PAYLOAD_SIZE. intros Hf Hs. apply frame_packets_enough; done || lia.
Qed.
