(* ===== verification/Queue.v ===== *)
(** * The frame queue ([source/jd_queue.c])

    A queue of whole frames in one byte buffer: a frame is never split, so the
    buffer wraps early and [curr_size] remembers where. [queue] is [struct
    jd_queue]; every operation of the file runs between [target_disable_irq]
    and [target_enable_irq], hence atomically. The pointer that
    [jd_queue_front] returns is an offset in [data]. The abstract state is the
    list of the queued frames, oldest first ([q_repr]). *)
From S2P Require Import Prelude Frame.

Record queue := {
  q_front : Z;      (* uint16_t *)
  q_back : Z;       (* uint16_t *)
  q_size : Z;       (* uint16_t *)
  q_curr_size : Z;  (* uint16_t *)
  q_data : list Z;
}.

Definition FRM_SIZE (f : list Z) : Z := align4 (JD_FRAME_SIZE f).

Definition jd_queue_will_fit (q : queue) (size : Z) : bool :=
  if q_front q <=? q_back q
  then (q_back q + size <=? q_size q) || (q_front q >? size)
  else q_back q + size <? q_front q.

Definition jd_queue_push (q : queue) (pkt : list Z) : outcome (Z * queue) :=
  if f_size pkt =? 0 then Panic else
  let size := FRM_SIZE pkt in
  let '(ret, back, curr_size) :=
    if q_front q <=? q_back q then
      if q_back q + size <=? q_size q then (0, u16 (q_back q + size), q_curr_size q)
      else if q_front q >? size then (0, u16 size, q_back q)
      else (-1, q_back q, q_curr_size q)
    else
      if q_back q + size <? q_front q then (0, u16 (q_back q + size), q_curr_size q)
      else (-2, q_back q, q_curr_size q) in
  let data := if ret =? 0 then mwrite (q_data q) (back - size) (mread pkt 0 size) else q_data q in
  JD_ASSERT q_front q <=? q_size q ;;
  JD_ASSERT back <=? q_size q ;;
  JD_ASSERT curr_size <=? q_size q ;;
  Ret (ret, {| q_front := q_front q; q_back := back; q_size := q_size q;
               q_curr_size := curr_size; q_data := data |}).

Definition jd_queue_front (q : queue) : option Z :=
  if negb (q_front q =? q_back q) then
    if q_front q >=? q_curr_size q then Some 0 else Some (q_front q)
  else None.

Definition jd_queue_shift (q : queue) : outcome queue :=
  match jd_queue_front q with
  | None => Panic (* ASSERT(pkt != NULL) *)
  | Some pkt =>
      let size := FRM_SIZE (drop (Z.to_nat pkt) (q_data q)) in
      if q_front q >=? q_curr_size q then
        JD_ASSERT q_front q =? q_curr_size q ;;
        Ret {| q_front := u16 size; q_back := q_back q; q_size := q_size q;
               q_curr_size := q_size q; q_data := q_data q |}
      else
        Ret {| q_front := u16 (q_front q + size); q_back := q_back q; q_size := q_size q;
               q_curr_size := q_curr_size q; q_data := q_data q |}
  end.

Definition jd_queue_clear (q : queue) : queue :=
  {| q_front := 0; q_back := 0; q_size := q_size q; q_curr_size := q_curr_size q; q_data := q_data q |}.

(** [jd_alloc] returns zeroed memory. *)
Definition jd_queue_alloc (size : Z) : queue :=
  {| q_front := 0; q_back := 0; q_size := u16 size; q_curr_size := u16 size;
     q_data := replicate (Z.to_nat size) 0 |}.

(** ** The queued frames *)

(** What the queue keeps of a frame, and how the reader sees the frame at an
    offset: the bytes up to its size, rounded to words. *)
Definition q_entry (pkt : list Z) : list Z := mread pkt 0 (FRM_SIZE pkt).
Definition q_frame_at (q : queue) (off : Z) : list Z :=
  mread (q_data q) off (FRM_SIZE (drop (Z.to_nat off) (q_data q))).

Record entry_ok (e : list Z) : Prop := {
  entry_ok_len : zlen e = FRM_SIZE e;
  entry_ok_size : 16 <= FRM_SIZE e <= sizeof_frame;
}.

(** The frames [es] follow each other in [m] from [off] to [stop]. *)
Fixpoint seg (m : list Z) (off : Z) (es : list (list Z)) (stop : Z) : Prop :=
  match es with
  | [] => off = stop
  | e :: es' => mread m off (zlen e) = e /\ entry_ok e /\ seg m (off + zlen e) es' stop
  end.

Record q_wf (q : queue) : Prop := {
  q_wf_size : 0 <= q_size q < 65536;
  q_wf_len : zlen (q_data q) = q_size q;
  q_wf_front : 0 <= q_front q <= q_size q;
  q_wf_back : 0 <= q_back q <= q_size q;
}.

(** Either one run of frames, or a run up to [curr_size] and one from 0. *)
Inductive q_shape (q : queue) : list (list Z) -> Prop :=
  | q_linear es :
      q_front q <= q_back q -> q_curr_size q = q_size q ->
      seg (q_data q) (q_front q) es (q_back q) -> q_shape q es
  | q_wrapped es1 es2 :
      0 < q_back q < q_front q -> q_front q <= q_curr_size q <= q_size q ->
      seg (q_data q) (q_front q) es1 (q_curr_size q) ->
      seg (q_data q) 0 es2 (q_back q) -> q_shape q (es1 ++ es2).

Definition q_repr (q : queue) (es : list (list Z)) : Prop := q_wf q /\ q_shape q es.

(** ** Lemmas on runs of frames *)

Lemma seg_bounds m off es stop : seg m off es stop -> off <= stop.
Proof.
  revert off; induction es as [|e es IH]; intros off; simpl; [lia|].
  intros (_ & _ & H%IH). pose proof (zlen_nonneg e). lia.
Qed.

Lemma seg_nonempty m off es stop : seg m off es stop -> off < stop -> es <> [].
Proof. intros H ? ->. simpl in H. lia. Qed.

Lemma seg_empty m off es : seg m off es off -> es = [].
Proof.
  destruct es as [|e es]; [done|]. simpl. intros (_ & [He1 He2] & H%seg_bounds). lia.
Qed.

Lemma seg_app m off es1 es2 mid stop :
  seg m off es1 mid -> seg m mid es2 stop -> seg m off (es1 ++ es2) stop.
Proof.
  revert off; induction es1 as [|e es IH]; intros off; simpl; [by intros ->|].
  intros (? & ? & ?) ?. split_and!; auto.
Qed.

(** A write outside a run does not change it. *)
Lemma seg_mwrite m off es stop w src :
  0 <= off -> 0 <= w -> w + zlen src <= zlen m -> stop <= w \/ w + zlen src <= off ->
  seg m off es stop -> seg (mwrite m w src) off es stop.
Proof.
  revert off; induction es as [|e es IH]; intros off Ho Hw Hl Hout; simpl; [done|].
  intros (He & Hok & Hs). pose proof (seg_bounds _ _ _ _ Hs). pose proof (zlen_nonneg e).
  pose proof (zlen_nonneg src).
  split_and!; [|done|apply IH; try done; lia]. rewrite mread_mwrite_out by lia. done.
Qed.

Lemma seg_last m w e : 0 <= w -> w + zlen e <= zlen m -> entry_ok e ->
  seg (mwrite m w e) w [e] (w + zlen e).
Proof.
  intros Hw Hl Hok. simpl. split_and!; [|done|done].
  apply mread_mwrite_eq. unfold zlen in *. lia.
Qed.

Lemma f_size_mread m n : 3 <= n -> f_size (mread m 0 n) = f_size m.
Proof. intros. unfold f_size. by rewrite get8_mread by lia. Qed.

Lemma FRM_SIZE_mread m n : 3 <= n -> FRM_SIZE (mread m 0 n) = FRM_SIZE m.
Proof. intros. unfold FRM_SIZE, JD_FRAME_SIZE. by rewrite f_size_mread. Qed.

Lemma FRM_SIZE_range f : 0 < f_size f <= 240 -> 16 <= FRM_SIZE f <= sizeof_frame.
Proof.
  intros. unfold FRM_SIZE, JD_FRAME_SIZE, sizeof_frame. rewrite align4_div. word_lia.
Qed.

Lemma q_entry_ok pkt : frame_ok pkt -> 0 < f_size pkt <= 240 -> entry_ok (q_entry pkt).
Proof.
  intros [Hl _] Hs. pose proof (FRM_SIZE_range pkt Hs). unfold q_entry.
  constructor; rewrite FRM_SIZE_mread by lia; [|done]. apply zlen_mread; lia.
Qed.

Lemma zlen_q_entry pkt : frame_ok pkt -> 0 < f_size pkt <= 240 -> zlen (q_entry pkt) = FRM_SIZE pkt.
Proof. intros [Hl _] Hs. pose proof (FRM_SIZE_range pkt Hs). apply zlen_mread; lia. Qed.

(** The reader of the first frame of a run sees that frame. *)
Lemma seg_head m off e es stop :
  0 <= off -> seg m off (e :: es) stop ->
  FRM_SIZE (drop (Z.to_nat off) m) = zlen e /\ mread m off (zlen e) = e.
Proof.
  intros Ho (He & [Hl Hr] & _). split; [|done]. rewrite Hl.
  rewrite <- (FRM_SIZE_mread (drop _ m) (zlen e)) by lia. f_equal.
  rewrite <- He at 2. unfold mread. by rewrite drop_0.
Qed.

(** ** The operations on the abstract state *)

Lemma q_alloc_repr size : 0 <= size < 65536 ->
  q_repr (jd_queue_alloc size) [] /\ q_size (jd_queue_alloc size) = size.
Proof.
  intros Hs. split; [|by apply u16_small]. split.
  - constructor; simpl; rewrite ?u16_small by lia; try lia.
    unfold zlen. rewrite length_replicate. lia.
  - apply q_linear; simpl; lia.
Qed.

Lemma q_push_data q es pkt back :
  q_wf q -> frame_ok pkt -> 0 < f_size pkt <= 240 ->
  0 <= back - FRM_SIZE pkt -> back <= q_size q ->
  let m := mwrite (q_data q) (back - FRM_SIZE pkt) (q_entry pkt) in
  zlen m = q_size q /\ seg m (back - FRM_SIZE pkt) [q_entry pkt] back /\
  (forall off stop, 0 <= off -> stop <= back - FRM_SIZE pkt \/ back <= off ->
    seg (q_data q) off es stop -> seg m off es stop).
Proof.
  intros [] Hf Hs Hb Hb' m. pose proof (zlen_q_entry pkt Hf Hs) as Hl.
  pose proof (q_entry_ok pkt Hf Hs). unfold m. split_and!.
  - rewrite zlen_mwrite; lia.
  - assert (back = back - FRM_SIZE pkt + zlen (q_entry pkt)) as E by lia.
    rewrite E at 3. apply seg_last; done || lia.
  - intros. apply seg_mwrite; done || lia.
Qed.

Lemma q_push_spec q es pkt :
  q_repr q es -> frame_ok pkt -> 0 < f_size pkt <= 240 ->
  if jd_queue_will_fit q (FRM_SIZE pkt)
  then exists q', jd_queue_push q pkt = Ret (0, q') /\ q_repr q' (es ++ [q_entry pkt]) /\ q_size q' = q_size q
  else exists r, jd_queue_push q pkt = Ret (r, q) /\ r < 0.
Proof.
  intros [Hwf Hsh] Hf Hs. pose proof (FRM_SIZE_range pkt Hs). pose proof Hwf as [].
  assert (forall q0 r, q_front q0 = q_front q -> q_back q0 = q_back q -> q_size q0 = q_size q ->
    q_curr_size q0 = q_curr_size q -> q_data q0 = q_data q -> r < 0 ->
    exists r', Ret (r, q0) = Ret (r', q) /\ r' < 0) as Hsame.
  { intros [] r ? ? ? ? ? ?. destruct q. simpl in *. subst. eauto. }
  unfold jd_queue_will_fit, jd_queue_push.
  rewrite (proj2 (Z.eqb_neq (f_size pkt) 0)) by lia. cbv zeta.
  fold (q_entry pkt). rewrite (Z.gtb_ltb (q_front q)).
  assert (q_curr_size q <= q_size q) as Hcs by (destruct Hsh; lia).
  destruct Hsh as [es Hle Hc Hseg|es1 es2 Hlt Hc Hseg1 Hseg2].
  - rewrite (proj2 (Z.leb_le _ _) Hle). destruct (Z.leb_spec (q_back q + FRM_SIZE pkt) (q_size q)); simpl.
    + rewrite u16_small by lia. rewrite !(proj2 (Z.leb_le _ _)) by lia.
      destruct (q_push_data q es pkt (q_back q + FRM_SIZE pkt)) as (Hl & Hnew & Hold); try done; try lia.
      rewrite Z.add_simpl_r in *. eexists. split; [done|]. split; [|done]. split; [by constructor; simpl; lia|].
      apply q_linear; simpl; try lia. eapply seg_app, Hnew. apply Hold; done || lia.
    + destruct (Z.ltb_spec (FRM_SIZE pkt) (q_front q)); simpl.
      * rewrite u16_small by lia. rewrite !(proj2 (Z.leb_le _ _)) by lia.
        destruct (q_push_data q es pkt (FRM_SIZE pkt)) as (Hl & Hnew & Hold); try done; try lia.
        rewrite Z.sub_diag in *. eexists. split; [done|]. split; [|done]. split; [by constructor; simpl; lia|].
        apply q_wrapped; simpl; try lia; [|done]. apply Hold; done || lia.
      * rewrite !(proj2 (Z.leb_le _ _)) by lia. by apply Hsame.
  - rewrite (proj2 (Z.leb_gt _ _)) by lia. destruct (Z.ltb_spec (q_back q + FRM_SIZE pkt) (q_front q)); simpl.
    + rewrite u16_small by lia. rewrite !(proj2 (Z.leb_le _ _)) by lia.
      destruct (q_push_data q es2 pkt (q_back q + FRM_SIZE pkt)) as (Hl & Hnew & Hold2); try done; try lia.
      destruct (q_push_data q es1 pkt (q_back q + FRM_SIZE pkt)) as (_ & _ & Hold1); try done; try lia.
      rewrite Z.add_simpl_r in *. eexists. split; [done|]. split; [|done]. split; [by constructor; simpl; lia|].
      rewrite <- app_assoc. apply q_wrapped; simpl; try lia; [apply Hold1; done || lia|].
      eapply seg_app, Hnew. apply Hold2; done || lia.
    + rewrite !(proj2 (Z.leb_le _ _)) by lia. by apply Hsame.
Qed.

Lemma q_front_none q : q_repr q [] -> jd_queue_front q = None.
Proof.
  intros [[] Hsh]. unfold jd_queue_front. inversion Hsh as [es Hle Hc Hseg|es1 es2 Hlt Hc Hseg1 Hseg2 E].
  - subst. simpl in Hseg. rewrite Hseg, Z.eqb_refl. done.
  - apply app_eq_nil in E as [-> ->]. simpl in Hseg2. lia.
Qed.

(** A queue that is not empty: its first frame, and the queue behind it. *)
Lemma q_front_shift q e es :
  q_repr q (e :: es) ->
  exists off q', jd_queue_front q = Some off /\ q_frame_at q off = e /\
    jd_queue_shift q = Ret q' /\ q_repr q' es /\ q_size q' = q_size q.
Proof.
  intros [Hwf Hsh]. pose proof Hwf as []. unfold jd_queue_shift.
  inversion Hsh as [es0 Hle Hc Hseg|es1 es2 Hlt Hc Hseg1 Hseg2 E]; subst.
  - pose proof Hseg as (_ & [He1 He2] & Hseg'). pose proof (seg_bounds _ _ _ _ Hseg').
    assert (jd_queue_front q = Some (q_front q)) as Hfr.
    { unfold jd_queue_front. rewrite (proj2 (Z.eqb_neq _ _)), Z.geb_leb, (proj2 (Z.leb_gt _ _)) by lia. done. }
    destruct (seg_head (q_data q) (q_front q) _ _ _ ltac:(lia) Hseg) as [Hsz Hrd].
    rewrite Hfr. cbv zeta. rewrite Hsz.
    rewrite Z.geb_leb, (proj2 (Z.leb_gt _ _)), u16_small by lia.
    eexists _, _. split_and!; try done; [unfold q_frame_at; by rewrite Hsz, Hrd|].
      split; [constructor; simpl; lia|]. by apply q_linear; simpl; try lia.
  - destruct es1 as [|e1 es1]; simpl in E.
    + subst es2. simpl in Hseg1. pose proof Hseg2 as (_ & [He1 He2] & Hseg'). pose proof (seg_bounds _ _ _ _ Hseg').
      assert (jd_queue_front q = Some 0) as Hfr.
      { unfold jd_queue_front. rewrite (proj2 (Z.eqb_neq _ _)), Z.geb_leb, (proj2 (Z.leb_le _ _)) by lia. done. }
      destruct (seg_head (q_data q) 0 _ _ _ ltac:(lia) Hseg2) as [Hsz Hrd].
      rewrite Hfr. cbv zeta. rewrite Hsz.
      rewrite Z.geb_leb, (proj2 (Z.leb_le _ _)), (proj2 (Z.eqb_eq _ _)), u16_small by lia.
      eexists _, _. split_and!; try done; [unfold q_frame_at; by rewrite Hsz, Hrd|].
      split; [constructor; simpl; lia|]. by apply q_linear; simpl; try lia.
    + injection E as <- <-. pose proof Hseg1 as (_ & [He1 He2] & Hseg'). pose proof (seg_bounds _ _ _ _ Hseg').
      assert (jd_queue_front q = Some (q_front q)) as Hfr.
      { unfold jd_queue_front. rewrite (proj2 (Z.eqb_neq _ _)), Z.geb_leb, (proj2 (Z.leb_gt _ _)) by lia. done. }
      destruct (seg_head (q_data q) (q_front q) _ _ _ ltac:(lia) Hseg1) as [Hsz Hrd].
      rewrite Hfr. cbv zeta. rewrite Hsz.
      rewrite Z.geb_leb, (proj2 (Z.leb_gt _ _)), u16_small by lia.
      eexists _, _. split_and!; try done; [unfold q_frame_at; by rewrite Hsz, Hrd|].
      split; [constructor; simpl; lia|]. by apply q_wrapped; simpl; try lia.
Qed.

(** An empty queue of twice the largest frame never refuses a frame. *)
Lemma q_empty_fits q pkt :
  q_repr q [] -> 2 * sizeof_frame <= q_size q -> 0 < f_size pkt <= 240 ->
  jd_queue_will_fit q (FRM_SIZE pkt) = true.
Proof.
  intros Hq Hs Hp. pose proof (q_front_none q Hq) as Hfr. pose proof (FRM_SIZE_range pkt Hp).
  unfold jd_queue_front in Hfr. destruct (Z.eqb_spec (q_front q) (q_back q)) as [E|]; simpl in Hfr;
    [|by case_match]. unfold jd_queue_will_fit, sizeof_frame in *.
  rewrite E, Z.leb_refl, Z.gtb_ltb. destruct (Z.leb_spec (q_back q + FRM_SIZE pkt) (q_size q)); [done|].
  simpl. apply Z.ltb_lt. lia.
Qed.

(** ** The abstract queue and the refinement

    [QTake] is the consumer of [rx_queue] and [tx_queue]: look at the front
    frame and, when there is one, use it and shift it out. *)

Inductive q_op := QPush (pkt : list Z) | QFront | QTake.

Inductive q_reply := RCode (r : Z) | RFrame (f : option (list Z)).

Definition q_step (q : queue) (o : q_op) : outcome (q_reply * queue) :=
  match o with
  | QPush pkt => '(r, q') ← jd_queue_push q pkt; Ret (RCode r, q')
  | QFront => Ret (RFrame (off ← jd_queue_front q; Some (q_frame_at q off)), q)
  | QTake =>
      match jd_queue_front q with
      | None => Ret (RFrame None, q)
      | Some off => q' ← jd_queue_shift q; Ret (RFrame (Some (q_frame_at q off)), q')
      end
  end.

(** A FIFO of frames that may refuse a frame, but never when it is empty. *)
Inductive ffifo_step : list (list Z) -> q_op -> q_reply -> list (list Z) -> Prop :=
  | FPushed es pkt : ffifo_step es (QPush pkt) (RCode 0) (es ++ [q_entry pkt])
  | FRefused es pkt r : r < 0 -> es <> [] -> ffifo_step es (QPush pkt) (RCode r) es
  | FFront es : ffifo_step es QFront (RFrame (head es)) es
  | FTake es : ffifo_step es QTake (RFrame (head es)) (tail es).

Inductive ffifo_run : list (list Z) -> list q_op -> list q_reply -> list (list Z) -> Prop :=
  | FRun_nil es : ffifo_run es [] [] es
  | FRun_cons es o r es1 ops rs es2 :
      ffifo_step es o r es1 -> ffifo_run es1 ops rs es2 -> ffifo_run es (o :: ops) (r :: rs) es2.

Fixpoint q_run (q : queue) (ops : list q_op) : outcome (list q_reply) :=
  match ops with
  | [] => Ret []
  | o :: ops' => '(r, q1) ← q_step q o; rs ← q_run q1 ops'; Ret (r :: rs)
  end.

Definition q_op_ok (o : q_op) : Prop :=
  match o with
  | QPush pkt => frame_ok pkt /\ 0 < f_size pkt <= 240
  | _ => True
  end.

Lemma q_step_simulates q es o :
  q_repr q es -> 2 * sizeof_frame <= q_size q -> q_op_ok o ->
  exists r q' es', q_step q o = Ret (r, q') /\ ffifo_step es o r es' /\
    q_repr q' es' /\ q_size q' = q_size q.
Proof.
  intros Hq Hs Hok. destruct o as [pkt| |]; cbn [q_step].
  - destruct Hok as [Hf Hp]. pose proof (q_push_spec q es pkt Hq Hf Hp) as H.
    destruct (jd_queue_will_fit q (FRM_SIZE pkt)) eqn:Hfit.
    + destruct H as (q' & -> & Hq' & Hs'). eexists _, q', _. split_and!; try done. constructor.
    + destruct H as (r & -> & Hr). eexists _, q, es. split_and!; try done. constructor; [done|].
      intros ->. rewrite q_empty_fits in Hfit by done. done.
  - eexists _, q, es. split_and!; try done. destruct es as [|e es].
    + rewrite q_front_none by done. constructor.
    + destruct (q_front_shift q e es Hq) as (off & q' & -> & <- & _). simpl. constructor.
  - destruct es as [|e es].
    + rewrite q_front_none by done. eexists _, q, []. split_and!; try done. constructor.
    + destruct (q_front_shift q e es Hq) as (off & q' & -> & <- & -> & Hq' & Hs').
      eexists _, q', es. split_and!; try done. constructor.
Qed.

Lemma q_run_simulates ops : forall q es,
  q_repr q es -> 2 * sizeof_frame <= q_size q -> Forall q_op_ok ops ->
  exists rs es', q_run q ops = Ret rs /\ ffifo_run es ops rs es'.
Proof.
  induction ops as [|o ops IH]; intros q es Hq Hs Hok; simpl.
  - eexists _, _. split; [done|constructor].
  - apply Forall_cons in Hok as [Ho Hok].
    destruct (q_step_simulates q es o Hq Hs Ho) as (r & q' & es' & -> & Hst & Hq' & Hs').
    destruct (IH q' es' Hq' ltac:(lia) Hok) as (rs & es'' & Hr & Hrun).
    obind. rewrite Hr. obind. eexists _, _. split; [done|by econstructor].
Qed.

(** ** Properties *)

(** C14. The frame queue implements a FIFO of frames: for every sequence of
    pushes, peeks and takes on a freshly allocated queue of at least two
    maximal frames (the configured sizes are 512 and 1024), no assertion
    fires, takes return the frames pushed, whole, in order and once each, and
    a push is refused only when other frames are still waiting. *)
Theorem jd_queue_refines_fifo size ops :
  2 * sizeof_frame <= size < 65536 -> Forall q_op_ok ops ->
  exists rs es, q_run (jd_queue_alloc size) ops = Ret rs /\ ffifo_run [] ops rs es.
Proof.
  unfold sizeof_frame. intros Hs Hok. destruct (q_alloc_repr size) as [Hq Hsz]; [lia|].
  apply q_run_simulates; try done. rewrite Hsz. unfold sizeof_frame. lia.
Qed.

Lemma jd_queue_refines_fifo_witness :
  exists rs es, q_run (jd_queue_alloc 512) [QPush sample_frame; QTake; QTake] = Ret rs /\
    ffifo_run [] [QPush sample_frame; QTake; QTake] rs es.
Proof.
  apply jd_queue_refines_fifo; [unfold sizeof_frame; lia|].
  repeat constructor; try apply sample_frame_ok; vm_compute; done.
Defined.

(** [jd_queue_will_fit] is an exact prediction: asked for the rounded size
    of a frame it answers whether [jd_queue_push] of that frame returns 0, and
    a refused push leaves the queue as it was. *)
Lemma jd_queue_will_fit_exact q es pkt :
  q_repr q es -> frame_ok pkt -> 0 < f_size pkt <= 240 ->
  exists r q', jd_queue_push q pkt = Ret (r, q') /\
    (jd_queue_will_fit q (FRM_SIZE pkt) = true <-> r = 0) /\ (r <> 0 -> q' = q).
Proof.
  intros Hq Hf Hs. pose proof (q_push_spec q es pkt Hq Hf Hs) as H.
  destruct (jd_queue_will_fit q (FRM_SIZE pkt)).
  - destruct H as (q' & -> & _). by exists 0, q'.
  - destruct H as (r & -> & Hr). exists r, q. split_and!; [done| |done]. split; [done|lia].
Qed.

(** [jd_queue_clear] keeps [curr_size]: cleared while wrapped, the queue reads
    a frame from the wrong place once the reader gets to the old wrap point,
    and the shift after it panics. Here a 60-byte queue is filled so that it
    wraps at 40 and is then cleared; of three frames pushed after that the
    third cannot be taken. *)
Definition sample_frame_of (size : Z) : list Z := set_f_size sample_frame size.

Definition wrapped_then_cleared : outcome queue :=
  '(_, q) ← jd_queue_push (jd_queue_alloc 60) (sample_frame_of 8);
  '(_, q) ← jd_queue_push q (sample_frame_of 8);
  q ← jd_queue_shift q;
  q ← jd_queue_shift q;
  '(_, q) ← jd_queue_push q (sample_frame_of 20);
  Ret (jd_queue_clear q).

Lemma jd_queue_clear_keeps_curr_size :
  (q ← wrapped_then_cleared;
   '(r1, q) ← jd_queue_push q (sample_frame_of 8);
   '(r2, q) ← jd_queue_push q (sample_frame_of 12);
   '(r3, q) ← jd_queue_push q (sample_frame_of 4);
   q ← jd_queue_shift q; q ← jd_queue_shift q; Ret (r1, r2, r3, negb (q_front q =? q_back q))) = Ret (0, 0, 0, true) /\
  (q ← wrapped_then_cleared;
   '(_, q) ← jd_queue_push q (sample_frame_of 8);
   '(_, q) ← jd_queue_push q (sample_frame_of 12);
   '(_, q) ← jd_queue_push q (sample_frame_of 4);
   q ← jd_queue_shift q; q ← jd_queue_shift q; jd_queue_shift q) = Panic.
Proof. vm_compute. split; reflexivity. Qed.
