(* ===== verification/Util.v ===== *)
(** * Utilities ([source/jd_util.c], [inc/jd_util.h])

    Hashes, the random generator, time comparison modulo [2^32], sampling
    periods, and the hex, decimal and URL encodings. A C string argument is the
    list of its characters before the terminating NUL; a function that writes a
    buffer returns the bytes it writes. The frame and CRC functions of
    [jd_util.c] are in [Frame.v], its printf in [Format.v]. *)
From S2P Require Import Prelude Frame.

(** ** Hashes and random numbers *)

Definition jd_hash_fnv1a (data : list Z) : Z :=
  fold_left (fun h b => u32 (Z.lxor h b * 0x1000193)) data 0x811c9dc5.

Definition hash_fnv1 (data : list Z) : Z :=
  fold_left (fun h b => Z.lxor (u32 (h * 0x1000193)) b) data 0x811c9dc5.

Definition mkcd_hash (buf : list Z) (bits : Z) : Z :=
  if bits <? 1 then 0
  else
    let h := hash_fnv1 buf in
    if bits >=? 32 then h
    else Z.land (Z.lxor h (Z.shiftr h bits)) (Z.shiftl 1 bits - 1).

Definition jd_device_short_id (long_id : Z) : list Z :=
  let h := mkcd_hash (le_bytes 8 long_id) 30 in
  [65 + h mod 26; 65 + (h / 26) mod 26; 48 + (h / (26 * 26)) mod 10;
   48 + (h / (26 * 26 * 10)) mod 10; 0].

(** The generator's state is the static variable [seed]. *)
Definition jd_seed_random (seed s : Z) : Z := Z.lxor (u32 (seed * 0x1000193)) s.

Definition xorshift (x : Z) : Z :=
  let x := Z.lxor x (u32 (Z.shiftl x 13)) in
  let x := Z.lxor x (Z.shiftr x 17) in
  Z.lxor x (u32 (Z.shiftl x 5)).

(** The value drawn is the new seed. *)
Definition jd_random (seed : Z) : Z :=
  let seed := if seed =? 0 then jd_seed_random seed 13 else seed in
  xorshift seed.

(** [while (mask > v) mask >>= 1], at most 28 times from [0xfffffff]. *)
Fixpoint around_mask (fuel : nat) (mask v : Z) : Z :=
  match fuel with
  | O => mask
  | S fuel' => if mask >? v then around_mask fuel' (Z.shiftr mask 1) v else mask
  end.

(** The value and the new seed. *)
Definition jd_random_around (seed v : Z) : Z * Z :=
  let mask := around_mask 28 0xfffffff v in
  let r := jd_random seed in
  (u32 (u32 (v - Z.shiftr mask 1) + Z.land r mask), r).

(** ** Time *)

Definition is_before (a b : Z) : bool := Z.shiftr (u32 (b - a)) 31 =? 0.
Definition in_past (now moment : Z) : bool := is_before moment now.
Definition in_future (now moment : Z) : bool := is_before now moment.

(** The result and the new [*sample]. *)
Definition jd_should_sample (now sample period : Z) : bool * Z :=
  if in_future now sample then (false, sample)
  else
    let sample := u32 (sample + period) in
    let sample := if negb (in_future now sample) then u32 (now + period) else sample in
    (true, sample).

Definition jd_should_sample_ms (now_ms sample period : Z) : bool * Z :=
  if in_future now_ms sample then (false, sample)
  else
    let sample := u32 (sample + period) in
    let sample := if negb (in_future now_ms sample) then u32 (now_ms + period) else sample in
    (true, sample).

Definition jd_should_sample_delay (now sample period : Z) : bool * Z :=
  if in_future now sample then (false, sample) else (true, u32 (now + period)).

(** Times of an unbounded clock, each at least [lo] and at most [hi] after the
    one before it, the first after [t]; with what goes with them. *)
Fixpoint gaps {A} (lo hi t : Z) (calls : list (Z * A)) : Prop :=
  match calls with [] => True | (t', _) :: calls => lo <= t' - t <= hi /\ gaps lo hi t' calls end.

(** ** Hexadecimal *)

(** ["0123456789abcdef"[d]] *)
Definition hex_char (d : Z) : Z := if d <? 10 then 48 + d else 87 + d.

Definition jd_to_hex (src : list Z) : list Z :=
  flat_map (fun b => [hex_char (Z.shiftr b 4); hex_char (Z.land b 0xf)]) src ++ [0].

Definition hexdig (c : Z) : Z :=
  if (48 <=? c) && (c <=? 57) then c - 48
  else
    let c := Z.lor c 0x20 in
    if (97 <=? c) && (c <=? 102) then c - 97 + 10 else -1.

(** The bytes stored, from the state [prev]. *)
Fixpoint from_hex_loop (prev : Z) (src : list Z) : list Z :=
  match src with
  | [] => []
  | c :: src' =>
      let v := hexdig c in
      if v =? -1 then from_hex_loop prev src'
      else if prev =? 0 then from_hex_loop (Z.lor (Z.shiftl v 4) 0x100) src'
      else Z.land (Z.lor prev v) 0xff :: from_hex_loop 0 src'
  end.

(** The result and the bytes stored at [dst] (none when [dst] is [NULL]). *)
Definition jd_from_hex (dst_null : bool) (src : list Z) : Z * list Z :=
  let bytes := from_hex_loop 0 src in
  (zlen bytes, if dst_null then [] else bytes).

(** [jd_alloc] returns [sz] zeroed bytes. *)
Definition jd_from_hex_a (src : list Z) : list Z * Z :=
  let sz := zlen src / 2 in
  let '(size, bytes) := jd_from_hex false src in
  (mwrite (replicate (Z.to_nat sz) 0) 0 bytes, size).

Definition jd_to_hex_a (src : list Z) : list Z := jd_to_hex src.

(** ** Decimal *)

(** [s] and [j] are indices of the buffer; the loop runs while [s < j]. *)
Fixpoint reverse_loop (fuel : nat) (buf : list Z) (s j : Z) : list Z :=
  match fuel with
  | O => buf
  | S fuel' =>
      if s <? j then
        let c := get8 buf s in
        let buf := put8 buf s (get8 buf j) in
        let buf := put8 buf j c in
        reverse_loop fuel' buf (s + 1) (j - 1)
      else buf
  end.
Definition jd_string_reverse (s : list Z) : list Z :=
  reverse_loop (length s) s 0 (zlen s - 1).

(** The digits, least significant first; a [uint32_t] has at most ten. *)
Fixpoint utoa_loop (fuel : nat) (k : Z) : list Z :=
  match fuel with
  | O => []
  | S fuel' => (k mod 10 + 48) :: (if k / 10 >? 0 then utoa_loop fuel' (k / 10) else [])
  end.

(** The characters written before the NUL. *)
Definition jd_utoa (k : Z) : list Z := jd_string_reverse (utoa_loop 10 k).

Definition jd_itoa (n : Z) : list Z :=
  if n <? 0 then 45 :: jd_utoa (u32 (s32 (- n))) else jd_utoa n.

Fixpoint atoi_loop (r : Z) (s : list Z) : Z :=
  match s with
  | [] => r
  | c :: s' =>
      let k := c - 48 in
      if (0 <=? k) && (k <=? 9) then atoi_loop (s32 (s32 (r * 10) + k)) s' else r
  end.
Definition jd_atoi (s : list Z) : Z :=
  match s with
  | 45 :: s' => s32 (- atoi_loop 0 s')
  | _ => atoi_loop 0 s
  end.

(** ** URL encoding and other string functions *)

Definition url_plain (c : Z) : bool :=
  ((48 <=? c) && (c <=? 57))
  || ((97 <=? Z.lor c 0x20) && (Z.lor c 0x20 <=? 122))
  || ((c =? 45) || (c =? 46) || (c =? 95) || (c =? 126)).

(** [urlencode_core(NULL, src)] is the length; with a buffer, also the bytes. *)
Fixpoint urlencode_len (src : list Z) (len : Z) : Z :=
  match src with
  | [] => len + 1
  | c :: src' => urlencode_len src' (if url_plain c then len + 1 else len + 3)
  end.
Fixpoint urlencode_bytes (src : list Z) : list Z :=
  match src with
  | [] => [0]
  | c :: src' =>
      if url_plain c then c :: urlencode_bytes src'
      else 37 :: take 2 (jd_to_hex [c]) ++ urlencode_bytes src'
  end.
Definition urlencode_core (dst_null : bool) (src : list Z) : Z * list Z :=
  (urlencode_len src 0, if dst_null then [] else urlencode_bytes src).

Definition jd_urlencode (src : list Z) : list Z :=
  let len := fst (urlencode_core true src) in
  let r := replicate (Z.to_nat len) 0 in
  mwrite r 0 (snd (urlencode_core false src)).

(** [parts] is the array up to its [NULL]. *)
Definition jd_concat_many (parts : list (list Z)) : list Z :=
  let len := foldr (fun p n => zlen p + n) 0 parts in
  let r := replicate (Z.to_nat (len + 1)) 0 in
  let '(r, len) := fold_left (fun '(r, len) p => (mwrite r len p, len + zlen p)) parts (r, 0) in
  put8 r len 0.

(** Arguments that may be [NULL]; the array ends at the first one that is. *)
Definition jd_concat3 (a b c : option (list Z)) : list Z :=
  jd_concat_many
    match a, b, c with
    | None, _, _ => []
    | Some a, None, _ => [a]
    | Some a, Some b, None => [a; b]
    | Some a, Some b, Some c => [a; b; c]
    end.
Definition jd_concat2 (a b : option (list Z)) : list Z := jd_concat3 a b None.
Definition jd_strdup (a : option (list Z)) : list Z := jd_concat3 a None None.

Definition jd_dup_frame (frame : list Z) : list Z := mread frame 0 (JD_FRAME_SIZE frame).
Definition jd_memdup (src : list Z) (size : Z) : list Z :=
  if size =? 0 then [0] else mread src 0 size.

Definition jd_ends_with (s suff : option (list Z)) : bool :=
  match s, suff with
  | None, _ => false
  | Some _, None => true
  | Some s, Some suff =>
      (zlen s >=? zlen suff) && bool_decide (drop (Z.to_nat (zlen s - zlen suff)) s = suff)
  end.

(** [memcmp] over the prefix's length; [s] is compared with its NUL. *)
Definition jd_starts_with (s pref : option (list Z)) : bool :=
  match s, pref with
  | None, _ => false
  | Some _, None => true
  | Some s, Some pref => bool_decide (take (length pref) (s ++ [0]) = pref)
  end.

(** ** Random numbers *)

(** A left shift inside 32 bits never reproduces a number other than zero. *)
Lemma shl_fixpoint x n : 0 < n -> 0 <= x < 2 ^ 32 -> x = u32 (Z.shiftl x n) -> x = 0.
Proof.
  intros Hn Hx H. apply Z.bits_inj'. intros i Hi. rewrite Z.bits_0.
  revert i Hi. refine (Z_lt_induction _ _). intros i IH.
  destruct (Z.ltb_spec i 0); [by apply Z.testbit_neg_r|].
  rewrite H. unfold u32. destruct (Z.ltb_spec i 32).
  - rewrite Z.mod_pow2_bits_low, Z.shiftl_spec by lia.
    destruct (Z.ltb_spec (i - n) 0); [by apply Z.testbit_neg_r|]. apply IH; lia.
  - apply Z.mod_pow2_bits_high. lia.
Qed.

Lemma lxor_shl_nonzero x n : 0 < n -> 0 < x < 2 ^ 32 -> 0 < Z.lxor x (u32 (Z.shiftl x n)) < 2 ^ 32.
Proof.
  intros Hn Hx. pose proof (lxor_range x (u32 (Z.shiftl x n)) 32 ltac:(lia) ltac:(lia) (u32_range _)).
  destruct (decide (Z.lxor x (u32 (Z.shiftl x n)) = 0)) as [E|]; [|lia].
  apply Z.lxor_eq, shl_fixpoint in E; lia.
Qed.

Lemma xorshift_nonzero x : 0 < x < 2 ^ 32 -> 0 < xorshift x < 2 ^ 32.
Proof.
  intros Hx. unfold xorshift. apply (lxor_shl_nonzero x 13) in Hx; [|lia].
  set (y := Z.lxor x _) in *. apply lxor_shl_nonzero; [lia|].
  assert (0 <= Z.shiftr y 17 < y) as Hs.
  { rewrite Z.shiftr_div_pow2 by lia. split; [apply Z.div_pos; lia|apply Z.div_lt; lia]. }
  pose proof (lxor_range y (Z.shiftr y 17) 32 ltac:(lia) ltac:(lia) ltac:(lia)).
  destruct (decide (Z.lxor y (Z.shiftr y 17) = 0)) as [E|]; [|lia].
  apply Z.lxor_eq in E. lia.
Qed.

Lemma jd_random_range seed : 0 <= seed < 2 ^ 32 -> 0 < jd_random seed < 2 ^ 32.
Proof.
  intros Hs. unfold jd_random. case_cmp.
  - subst. apply xorshift_nonzero. vm_compute. done.
  - apply xorshift_nonzero. lia.
Qed.

(** The mask ends as [2 ^ k - 1], the largest of that form below [v]. *)
Lemma around_mask_spec fuel v :
  0 <= v -> exists k, 0 <= k <= Z.of_nat fuel /\ around_mask fuel (Z.ones (Z.of_nat fuel)) v = Z.ones k /\
    Z.ones k <= v /\ (k < Z.of_nat fuel -> v < 2 * Z.ones k + 1).
Proof.
  intros Hv. induction fuel as [|fuel IH]; cbn [around_mask].
  - exists 0. change (Z.ones 0) with 0. split_and!; try done; lia.
  - case_cmp.
    + assert (Z.shiftr (Z.ones (Z.of_nat (S fuel))) 1 = Z.ones (Z.of_nat fuel)) as ->.
      { rewrite Z.ones_equiv, Z.shiftr_div_pow2, Z.ones_equiv, <- !Z.sub_1_r by lia.
        rewrite Nat2Z.inj_succ, Z.pow_succ_r by lia. change (2 ^ 1) with 2.
        pose proof (Z.pow_pos_nonneg 2 (Z.of_nat fuel)). word_lia. }
      destruct IH as (k & Hk & -> & Hle & Hlt). exists k. split_and!; try done; try lia.
      intros _. destruct (decide (k = Z.of_nat fuel)) as [->|]; [|apply Hlt; lia].
      revert H. rewrite !Z.ones_equiv, <- !Z.sub_1_r, Nat2Z.inj_succ, Z.pow_succ_r by lia. lia.
    + exists (Z.of_nat (S fuel)). split_and!; try done; lia.
Qed.

Lemma jd_random_around_spec seed v :
  0 <= seed < 2 ^ 32 -> 0 <= v < 2 ^ 31 ->
  let r := fst (jd_random_around seed v) in
  v - v / 2 <= r <= v + (v + 1) / 2.
Proof.
  intros Hs Hv. unfold jd_random_around. cbn [fst].
  destruct (around_mask_spec 28 v ltac:(lia)) as (k & Hk & Hm & Hle & _).
  change (Z.ones (Z.of_nat 28)) with 0xfffffff in Hm. rewrite Hm.
  pose proof (jd_random_range seed Hs). rewrite Z.land_ones by lia.
  rewrite Z.ones_equiv, <- Z.sub_1_r, Z.shiftr_div_pow2 in * by lia. change (2 ^ 1) with 2.
  pose proof (Z.mod_pos_bound (jd_random seed) (2 ^ k) ltac:(apply Z.pow_pos_nonneg; lia)).
  set (m := jd_random seed mod 2 ^ k) in *.
  assert (2 ^ k <= 2 ^ 28) by (apply Z.pow_le_mono_r; lia). clearbody m.
  set (K := 2 ^ k) in *. clearbody K.
  rewrite (u32_small (v - _)) by word_lia. rewrite u32_small by word_lia. word_lia.
Qed.

(** ** Time *)

Lemma is_before_spec a b : is_before a b = (u32 (b - a) <? 2 ^ 31).
Proof.
  unfold is_before. rewrite Z.shiftr_div_pow2 by lia. pose proof (u32_range (b - a)).
  destruct (Z.eqb_spec (u32 (b - a) / 2 ^ 31) 0); destruct (Z.ltb_spec (u32 (b - a)) (2 ^ 31));
    try done; word_lia.
Qed.

(** ** Hexadecimal *)

Lemma hexdig_hex_char d : 0 <= d < 16 -> hexdig (hex_char d) = d.
Proof.
  intros Hd. assert (d ∈ seqZ 0 16) as Hin by (apply elem_of_seqZ; lia).
  assert (forallb (fun d => hexdig (hex_char d) =? d) (seqZ 0 16) = true) as H by (vm_compute; done).
  rewrite forallb_forall in H. apply Z.eqb_eq, H, list_elem_of_In, Hin.
Qed.

Definition is_hex (c : Z) : bool := negb (hexdig c =? -1).

(** Characters that are not hexadecimal digits are skipped. *)
Lemma from_hex_filter prev s :
  from_hex_loop prev s = from_hex_loop prev (List.filter is_hex s).
Proof.
  revert prev; induction s as [|c s IH]; intros prev; [done|]. cbn [List.filter from_hex_loop].
  unfold is_hex at 1. destruct (Z.eqb_spec (hexdig c) (-1)) as [E|E]; cbn [negb]; [done|].
  cbn [from_hex_loop]. rewrite (proj2 (Z.eqb_neq _ _) E). case_match; by rewrite IH.
Qed.

Definition hex_text (l : list Z) : list Z :=
  flat_map (fun b => [hex_char (Z.shiftr b 4); hex_char (Z.land b 0xf)]) l.

Lemma from_hex_digits h l rest : 0 <= h < 16 -> 0 <= l < 16 ->
  from_hex_loop 0 (hex_char h :: hex_char l :: rest) = h * 16 + l :: from_hex_loop 0 rest.
Proof.
  intros Hh Hl. cbn [from_hex_loop]. rewrite !hexdig_hex_char by done.
  rewrite (proj2 (Z.eqb_neq h (-1))), (proj2 (Z.eqb_neq l (-1))), Z.eqb_refl by lia.
  assert ((Z.lor (Z.shiftl h 4) 256 =? 0) = false) as ->.
  { apply Z.eqb_neq. intros E. apply Z.lor_eq_0_iff in E. lia. }
  f_equal. assert (h ∈ seqZ 0 16 /\ l ∈ seqZ 0 16) as [Hh' Hl'] by (rewrite !elem_of_seqZ; lia).
  assert (forallb (fun h => forallb (fun l =>
    Z.land (Z.lor (Z.lor (Z.shiftl h 4) 256) l) 255 =? h * 16 + l) (seqZ 0 16)) (seqZ 0 16) = true) as H
    by (vm_compute; done).
  rewrite forallb_forall in H. specialize (H h (proj1 (list_elem_of_In _ _) Hh')).
  rewrite forallb_forall in H. apply Z.eqb_eq, H, list_elem_of_In, Hl'.
Qed.

Lemma from_hex_text l : Forall is_byte l -> from_hex_loop 0 (hex_text l) = l.
Proof.
  induction 1 as [|b l Hb _ IH]; [done|]. unfold is_byte in Hb.
  change (hex_text (b :: l)) with (hex_char (Z.shiftr b 4) :: hex_char (Z.land b 0xf) :: hex_text l).
  change 0xf with (Z.ones 4). rewrite Z.land_ones, Z.shiftr_div_pow2 by lia. change (2 ^ 4) with 16.
  rewrite from_hex_digits, IH by word_lia. f_equal. word_lia.
Qed.

Lemma length_from_hex prev s :
  2 * zlen (from_hex_loop prev s) <= zlen s + (if prev =? 0 then 0 else 1).
Proof.
  unfold zlen. revert prev; induction s as [|c s IH]; intros prev; cbn [from_hex_loop length].
  - case_match; lia.
  - repeat case_match; cbn [length].
    + specialize (IH prev). rewrite H0 in IH. lia.
    + specialize (IH prev). rewrite H0 in IH. lia.
    + specialize (IH (Z.lor (Z.shiftl (hexdig c) 4) 256)). case_match; lia.
    + specialize (IH 0). simpl in IH. lia.
Qed.

(** ** Decimal *)

Lemma get8_lookup m i b : 0 <= i -> m !! Z.to_nat i = Some b -> get8 m i = b.
Proof. unfold get8. by intros _ ->. Qed.

Lemma lookup_reverse_loop fuel : forall buf s j i,
  Forall is_byte buf -> 0 <= s -> j < zlen buf -> j - s <= 2 * Z.of_nat fuel ->
  reverse_loop fuel buf s j !! i =
    if decide (s <= Z.of_nat i <= j) then buf !! Z.to_nat (s + j - Z.of_nat i) else buf !! i.
Proof.
  induction fuel as [|fuel IH]; intros buf s j i Hb Hs Hj Hf; cbn [reverse_loop].
  - case_decide; [|done]. f_equal. lia.
  - case_cmp; [|case_decide; [f_equal; lia|done]]. rewrite IH; rewrite ?zlen_put8; auto with jd; try lia.
    assert (0 <= get8 buf j < 256) as Hbj by by apply get8_is_byte.
    assert (0 <= get8 buf s < 256) as Hbs by by apply get8_is_byte.
    unfold put8, zlen in *. rewrite !u8_small by done. rewrite !list_lookup_insert, !length_insert.
    assert (forall k, 0 <= k < Z.of_nat (length buf) -> Some (get8 buf k) = buf !! Z.to_nat k) as Hget.
    { intros k Hk. unfold get8. destruct (buf !! Z.to_nat k) eqn:E; [done|].
      apply lookup_ge_None in E. lia. }
    rewrite !Hget by lia. repeat case_decide; try lia; try done; f_equal; lia.
Qed.

Lemma jd_string_reverse_rev s : Forall is_byte s -> jd_string_reverse s = reverse s.
Proof.
  intros Hs. unfold jd_string_reverse. apply list_eq; intros i.
  rewrite lookup_reverse_loop by (unfold zlen; try done; lia). unfold zlen. case_decide.
  - rewrite reverse_lookup by lia. f_equal. lia.
  - symmetry. rewrite !lookup_ge_None_2; [done|lia|rewrite length_reverse; lia].
Qed.

Definition is_digit (c : Z) : Prop := 48 <= c <= 57.

(** The number a list of digits denotes, most significant first. *)
Definition dec_val (r : Z) (l : list Z) : Z := fold_left (fun r c => 10 * r + (c - 48)) l r.

Lemma dec_val_app r l1 l2 : dec_val r (l1 ++ l2) = dec_val (dec_val r l1) l2.
Proof. unfold dec_val. by rewrite fold_left_app. Qed.

Lemma utoa_loop_spec fuel : forall k, 0 <= k < 10 ^ Z.of_nat fuel ->
  Forall is_digit (utoa_loop fuel k) /\ dec_val 0 (reverse (utoa_loop fuel k)) = k /\
  zlen (utoa_loop fuel k) <= Z.of_nat fuel.
Proof.
  induction fuel as [|fuel IH]; intros k Hk; cbn [utoa_loop].
  - simpl. split_and!; [constructor|change (10 ^ Z.of_nat 0) with 1 in Hk; unfold dec_val; simpl; lia|done].
  - rewrite Nat2Z.inj_succ, Z.pow_succ_r in Hk by lia.
    assert (is_digit (k mod 10 + 48)) by (unfold is_digit; word_lia).
    case_cmp.
    + destruct (IH (k / 10)) as (Hd & Hv & Hl); [split; [word_lia|apply Z.div_lt_upper_bound; lia]|].
      split_and!; [by constructor| |unfold zlen in *; simpl; lia].
      rewrite reverse_cons, dec_val_app, Hv. unfold dec_val. simpl. word_lia.
    + split_and!; [constructor; [done|constructor]| |unfold zlen; simpl; lia].
      unfold dec_val. simpl. word_lia.
Qed.

Lemma is_digit_byte c : is_digit c -> is_byte c.
Proof. unfold is_digit, is_byte. lia. Qed.

Lemma jd_utoa_spec k : 0 <= k < 2 ^ 32 ->
  Forall is_digit (jd_utoa k) /\ dec_val 0 (jd_utoa k) = k /\ 1 <= zlen (jd_utoa k) <= 10.
Proof.
  intros Hk. destruct (utoa_loop_spec 10 k) as (Hd & Hv & Hl).
  { split; [lia|]. eapply Z.lt_trans; [apply Hk|]. vm_compute. done. }
  unfold jd_utoa. rewrite jd_string_reverse_rev by (eapply Forall_impl; [done|apply is_digit_byte]).
  split_and!; [by apply Forall_reverse|done| |].
  - unfold zlen. rewrite length_reverse. simpl. lia.
  - unfold zlen in *. by rewrite length_reverse.
Qed.

Lemma s32_range x : - 2 ^ 31 <= s32 x < 2 ^ 31.
Proof. word_lia. Qed.
Lemma s32_small x : - 2 ^ 31 <= x < 2 ^ 31 -> s32 x = x.
Proof. intros. word_lia. Qed.
Lemma s32_step r c : s32 (s32 (s32 r * 10) + c) = s32 (10 * r + c).
Proof. word_lia. Qed.

Lemma atoi_loop_digits l : forall r, Forall is_digit l -> atoi_loop (s32 r) l = s32 (dec_val r l).
Proof.
  induction l as [|c l IH]; intros r Hl; [done|]. apply Forall_cons in Hl as [Hc Hl].
  unfold is_digit in Hc. cbn [atoi_loop]. rewrite !(proj2 (Z.leb_le _ _)) by lia. cbn [andb].
  rewrite s32_step, IH by done. done.
Qed.

Lemma jd_atoi_digits l : Forall is_digit l -> jd_atoi l = s32 (dec_val 0 l).
Proof.
  intros Hl. assert (jd_atoi l = atoi_loop (s32 0) l) as ->; [|by apply atoi_loop_digits].
  unfold jd_atoi. destruct Hl as [|c l Hc _]; [done|]. unfold is_digit in Hc.
  repeat case_match; try done; lia.
Qed.

(** ** URL encoding *)

(** Reference decoder: [%] and two hexadecimal digits stand for a byte. *)
Fixpoint urldecode (s : list Z) : list Z :=
  match s with
  | [] => []
  | 37 :: h :: l :: s' => (16 * hexdig h + hexdig l) :: urldecode s'
  | c :: s' => c :: urldecode s'
  end.

Lemma urlencode_len_bytes src len : urlencode_len src len = len + zlen (urlencode_bytes src).
Proof.
  revert len; induction src as [|c src IH]; intros len; cbn [urlencode_len urlencode_bytes]; [done|].
  rewrite IH. unfold zlen. case_match; cbn [length app take jd_to_hex flat_map]; lia.
Qed.

Lemma jd_urlencode_bytes src : jd_urlencode src = urlencode_bytes src.
Proof.
  unfold jd_urlencode, urlencode_core. cbn [fst snd]. rewrite urlencode_len_bytes.
  set (r := replicate _ 0). assert (length r = length (urlencode_bytes src)) as Hr.
  { unfold r, zlen. rewrite length_replicate. lia. }
  unfold mwrite. change (Z.to_nat 0) with 0%nat. rewrite drop_ge by lia. by rewrite app_nil_r.
Qed.

Lemma url_plain_not_percent c : url_plain c = true -> c <> 37.
Proof. intros H ->. done. Qed.

(** What is sent is made of unreserved characters, [%] and hexadecimal digits. *)
Definition url_safe (c : Z) : bool := url_plain c || (c =? 37).

Lemma hex_char_plain d : 0 <= d < 16 -> url_plain (hex_char d) = true.
Proof.
  intros Hd. assert (d ∈ seqZ 0 16) as Hin by (apply elem_of_seqZ; lia).
  assert (forallb (fun d => url_plain (hex_char d)) (seqZ 0 16) = true) as H by (vm_compute; done).
  rewrite forallb_forall in H. apply H, list_elem_of_In, Hin.
Qed.

Lemma urlencode_bytes_spec src :
  Forall is_byte src ->
  exists body, urlencode_bytes src = body ++ [0] /\ Forall (fun c => url_safe c = true) body /\
    urldecode body = src.
Proof.
  induction 1 as [|c src Hc _ (body & Hb & Hs & Hd)]; cbn [urlencode_bytes]; [by exists []|].
  unfold is_byte in Hc. rewrite Hb. destruct (url_plain c) eqn:E.
  - exists (c :: body). split_and!; [done|constructor; [unfold url_safe; by rewrite E|done]|].
    cbn [urldecode]. rewrite Hd. pose proof (url_plain_not_percent c E). repeat case_match; done.
  - change (take 2 (jd_to_hex [c])) with [hex_char (Z.shiftr c 4); hex_char (Z.land c 0xf)].
    change 0xf with (Z.ones 4). rewrite Z.land_ones, Z.shiftr_div_pow2 by lia. change (2 ^ 4) with 16.
    exists (37 :: hex_char (c / 16) :: hex_char (c mod 16) :: body). split_and!; [done| |].
    + repeat constructor; unfold url_safe; rewrite ?hex_char_plain by word_lia; done.
    + cbn [urldecode]. rewrite !hexdig_hex_char, Hd by word_lia. f_equal. word_lia.
Qed.

(** ** Properties *)

(** The random generator never reaches the fixed point 0, and
    [jd_random_around] stays within half of its argument on both sides
    (without wrapping) and moves the generator on. *)
Lemma jd_random_around_bounds seed v :
  0 <= seed < 2 ^ 32 -> 0 <= v < 2 ^ 31 ->
  let '(r, seed') := jd_random_around seed v in
  0 < seed' < 2 ^ 32 /\ v - v / 2 <= r <= v + (v + 1) / 2.
Proof.
  intros Hs Hv. pose proof (jd_random_around_spec seed v Hs Hv) as H.
  destruct (jd_random_around seed v) as [r seed'] eqn:E. split; [|exact H].
  unfold jd_random_around in E. simplify_eq. by apply jd_random_range.
Qed.

(** [jd_random_around] is meant to vary its argument by about a quarter; just
    above a power of two less one it varies it by half. *)
Lemma jd_random_around_half : exists seed, fst (jd_random_around seed 1023) < 1023 - 1023 * 45 / 100.
Proof. exists 34. vm_compute. reflexivity. Qed.

(** [jd_should_sample] fires exactly when the deadline has passed, leaves
    the deadline alone otherwise, and moves it into the future, at most one
    period ahead; the phase is kept unless a whole period was missed. All of
    it holds across the wrap-around of the 32-bit clock. *)
Lemma jd_should_sample_schedule now sample period :
  0 <= now < 2 ^ 32 -> 0 <= sample < 2 ^ 32 -> 0 < period < 2 ^ 31 ->
  let '(fire, next) := jd_should_sample now sample period in
  (fire = false <-> u32 (sample - now) < 2 ^ 31) /\
  (fire = false -> next = sample) /\
  (fire = true -> u32 (next - now) <= period /\
    (u32 (now - sample) <= period -> next = u32 (sample + period))).
Proof.
  intros Hn Hs Hp. unfold jd_should_sample, in_future. rewrite !is_before_spec.
  destruct (Z.ltb_spec (u32 (sample - now)) (2 ^ 31)) as [H|H]; [done|].
  destruct (Z.ltb_spec (u32 (u32 (sample + period) - now)) (2 ^ 31)) as [H1|H1]; cbn [negb];
    (split_and!; [split; [done|lia]|done|intros _; split; [word_lia|try done; word_lia]]).
Qed.

(** Hexadecimal round trip: reading back what [jd_to_hex] writes gives
    the bytes, also when the text was interleaved with characters that are not
    hexadecimal digits, and the buffer of [jd_from_hex_a] ([strlen / 2] bytes)
    is always large enough. *)
Lemma jd_hex_roundtrip l s :
  Forall is_byte l -> List.filter is_hex s = take (2 * length l) (jd_to_hex l) ->
  jd_from_hex false s = (zlen l, l) /\ zlen l <= zlen s / 2 /\
  exists pad, jd_from_hex_a s = (l ++ pad, zlen l).
Proof.
  intros Hl Hs.
  assert (from_hex_loop 0 s = l) as Hd.
  { rewrite from_hex_filter, Hs. transitivity (from_hex_loop 0 (hex_text l)); [f_equal|by apply from_hex_text].
    unfold jd_to_hex. fold (hex_text l). rewrite take_app_length'; [done|].
    clear. induction l as [|b l IH]; [done|].
    change (hex_text (b :: l)) with (hex_char (Z.shiftr b 4) :: hex_char (Z.land b 0xf) :: hex_text l).
    simpl. lia. }
  pose proof (length_from_hex 0 s) as Hlen. rewrite Hd, Z.eqb_refl in Hlen.
  assert (zlen l <= zlen s / 2) as Hle by word_lia.
  unfold jd_from_hex_a, jd_from_hex. rewrite Hd. split_and!; [done|done|].
  exists (drop (length l) (replicate (Z.to_nat (zlen s / 2)) 0)). done.
Qed.

(** Decimal round trip: [jd_atoi] reads back what [jd_itoa] writes for
    every [int], the most negative one included, and the text needs at most 11
    characters. *)
Lemma jd_itoa_roundtrip n :
  - 2 ^ 31 <= n < 2 ^ 31 -> jd_atoi (jd_itoa n) = n /\ zlen (jd_itoa n) <= 11.
Proof.
  intros Hn. unfold jd_itoa. case_cmp.
  - destruct (jd_utoa_spec (u32 (s32 (- n))) (u32_range _)) as (Hd & Hv & Hl).
    split; [|unfold zlen in *; simpl; lia]. unfold jd_atoi.
    rewrite (atoi_loop_digits _ 0 Hd : atoi_loop 0 _ = _), Hv. word_lia.
  - destruct (jd_utoa_spec n ltac:(lia)) as (Hd & Hv & Hl).
    split; [|lia]. rewrite jd_atoi_digits, Hv by done. by apply s32_small.
Qed.

(** URL encoding: the result is NUL-terminated and exactly as long as the
    measuring pass said, holds only unreserved characters and [%], and decodes
    to the argument. *)
Lemma jd_urlencode_roundtrip src :
  Forall is_byte src ->
  exists body, jd_urlencode src = body ++ [0] /\
    fst (urlencode_core true src) = zlen (jd_urlencode src) /\
    Forall (fun c => url_safe c = true) body /\ urldecode body = src.
Proof.
  intros Hs. destruct (urlencode_bytes_spec src Hs) as (body & Hb & Hsafe & Hd).
  exists body. rewrite jd_urlencode_bytes. split_and!; try done.
  unfold urlencode_core. cbn [fst]. rewrite urlencode_len_bytes. lia.
Qed.
