(* ===== verification/Alloc.v ===== *)
(** * The allocator ([source/interfaces/simple_alloc.c])

    Memory that is handed out from the end of the static data upwards and never
    given back; the stack grows towards it from the other end. Built with
    [JD_SIMPLE_ALLOC] and [JD_HW_ALLOC]. The memory is the list of the bytes
    from [HEAP_BASE] up to [STACK_BASE]; pointers are addresses. *)
From S2P Require Import Prelude Util.

Definition JD_STACK_SIZE : Z := 512.

(** The static variables, and the memory. *)
Record arena := { ram : list Z; aptr : Z; maxStack : Z (* uint16_t *) }.

Section Alloc.
(** The addresses that the linker chooses. *)
Context (HEAP_BASE STACK_BASE : Z).

Definition HEAP_END : Z := u32 (STACK_BASE - JD_STACK_SIZE).
Definition HEAP_SIZE : Z := u32 (HEAP_END - HEAP_BASE).

(** The first word that is not as [jd_alloc_init] left it; one step for each
    word of the stack. *)
Fixpoint stack_scan (words : nat) (m : list Z) (ptr : Z) : Z :=
  match words with
  | S words =>
      if ptr <? STACK_BASE then
        if negb (get32 m (ptr - HEAP_BASE) =? 0x33333333) then ptr else stack_scan words m (ptr + 4)
      else ptr
  | O => ptr
  end.
Definition jd_alloc_stack_check (a : arena) : arena :=
  let ptr := stack_scan (Z.to_nat (JD_STACK_SIZE / 4)) (ram a) (STACK_BASE - JD_STACK_SIZE) in
  let sz := STACK_BASE - ptr in
  if sz >? maxStack a then {| ram := ram a; aptr := aptr a; maxStack := u16 sz |} else a.

(** [p] is the address of the local variable; the second result is the seed of
    the random numbers. *)
Definition jd_alloc_init (p : Z) (m : list Z) (seed : Z) : arena * Z :=
  let sz := p - HEAP_BASE - 32 in
  let seed := jd_seed_random seed (jd_hash_fnv1a (mread m 0 sz)) in
  let m := mwrite m 0 (replicate (Z.to_nat sz) 0x33) in
  let a := jd_alloc_stack_check {| ram := m; aptr := 0; maxStack := 0 |} in
  ({| ram := ram a; aptr := HEAP_BASE; maxStack := maxStack a |}, seed).

(** Sums of addresses wrap; a [memset] outside of the memory is undefined, here
    [Panic]. *)
Definition jd_alloc (size : Z) (a : arena) : outcome (Z * arena) :=
  let size := Z.shiftr (u32 (size + 3)) 2 in
  let a := jd_alloc_stack_check a in
  let r := aptr a in
  let a := {| ram := ram a; aptr := u32 (r + 4 * size); maxStack := maxStack a |} in
  if aptr a >? HEAP_END then Panic
  else
    let n := u32 (Z.shiftl size 2) in
    if r - HEAP_BASE + n >? zlen (ram a) then Panic
    else Ret (r, {| ram := mwrite (ram a) (r - HEAP_BASE) (replicate (Z.to_nat n) 0); aptr := aptr a; maxStack := maxStack a |}).

Definition jd_available_memory (a : arena) : Z := u32 (HEAP_END - aptr a).

Definition jd_alloc_emergency_area (size : Z) : outcome Z := if size >? HEAP_SIZE then Panic else Ret HEAP_BASE.

(** ** Allocation and use

    The owners of blocks write to them, and the stack is written to. *)

Inductive alloc_op :=
  | AAlloc (size : Z)
  | AWrite (i : nat) (off : Z) (d : list Z)    (* the owner of block [i] *)
  | AStack (off : Z) (d : list Z).             (* from the end of the heap *)

Definition alloc_step (o : alloc_op) (a : arena) (bl : list (Z * Z)) : outcome (arena * list (Z * Z)) :=
  match o with
  | AAlloc size => '(r, a) ← jd_alloc size a; Ret (a, bl ++ [(r, size)])
  | AWrite i off d =>
      match bl !! i with
      | Some (p, size) =>
          if off + zlen d <=? size then Ret ({| ram := mwrite (ram a) (p - HEAP_BASE + off) d; aptr := aptr a; maxStack := maxStack a |}, bl)
          else Ret (a, bl)
      | None => Ret (a, bl)
      end
  | AStack off d =>
      if off + zlen d <=? JD_STACK_SIZE then Ret ({| ram := mwrite (ram a) (HEAP_END - HEAP_BASE + off) d; aptr := aptr a; maxStack := maxStack a |}, bl)
      else Ret (a, bl)
  end.
Fixpoint alloc_run (ops : list alloc_op) (a : arena) (bl : list (Z * Z)) : outcome (arena * list (Z * Z)) :=
  match ops with
  | [] => Ret (a, bl)
  | o :: ops => '(a, bl) ← alloc_step o a bl; alloc_run ops a bl
  end.

(** The specification: blocks of their own, zero at first. *)
Definition total (sizes : list Z) : Z := fold_right (fun s t => align4 s + t) 0 sizes.
Fixpoint ref_alloc_run (ops : list alloc_op) (blocks : list (list Z)) : option (list (list Z)) :=
  match ops with
  | [] => Some blocks
  | AAlloc size :: ops =>
      if total (map zlen blocks) + align4 size <=? HEAP_SIZE then ref_alloc_run ops (blocks ++ [replicate (Z.to_nat size) 0]) else None
  | AWrite i off d :: ops =>
      ref_alloc_run ops (alter (fun b => if off + zlen d <=? zlen b then mwrite b off d else b) i blocks)
  | AStack _ _ :: ops => ref_alloc_run ops blocks
  end.

(** Where the blocks lie: one after the other. *)
Fixpoint places (at_ : Z) (sizes : list Z) : list (Z * Z) :=
  match sizes with
  | [] => []
  | s :: sizes => (at_, s) :: places (at_ + align4 s) sizes
  end.

Definition alloc_op_ok (o : alloc_op) : Prop :=
  match o with
  | AAlloc size => 0 <= size < 2 ^ 31 - 3
  | AWrite _ off _ => 0 <= off
  | AStack off _ => 0 <= off
  end.

(** The heap lies in the lower half of the address space, and is not empty. *)
Definition alloc_geometry : Prop := 0 <= HEAP_BASE /\ HEAP_BASE + JD_STACK_SIZE <= STACK_BASE <= 2 ^ 31.

Lemma places_snoc sizes : forall at_ s, places at_ (sizes ++ [s]) = places at_ sizes ++ [(at_ + total sizes, s)].
Proof. induction sizes as [|s0 sizes IH]; intros at_ s; cbn [places app total fold_right]; [by rewrite Z.add_0_r|]. rewrite IH. cbn [app]. by rewrite Z.add_assoc. Qed.
Lemma total_snoc sizes s : total (sizes ++ [s]) = total sizes + align4 s.
Proof. unfold total. induction sizes as [|s0 sizes IH]; cbn [app fold_right] in *; lia. Qed.
Lemma total_nonneg sizes : Forall (fun s => 0 <= s) sizes -> 0 <= total sizes.
Proof. unfold total. induction 1 as [|s sizes Hs _ IH]; cbn [fold_right] in *; [lia|]. pose proof (align4_bounds s). lia. Qed.
Lemma places_lookup sizes : Forall (fun s => 0 <= s) sizes -> forall at_ i p s, places at_ sizes !! i = Some (p, s) ->
  sizes !! i = Some s /\ at_ <= p /\ p + align4 s <= at_ + total sizes.
Proof.
  induction 1 as [|s0 sizes Hs Hf IH]; intros at_ i p s E; [done|]. pose proof (total_nonneg sizes Hf). pose proof (align4_bounds s0).
  destruct i as [|i]; cbn [places lookup list_lookup] in E; cbn [total fold_right].
  - injection E as <- <-. cbn. unfold total in *. split; [done|]. lia.
  - apply IH in E as (E & H1 & H2). split; [exact E|]. unfold total in *. lia.
Qed.
Lemma places_some sizes : forall at_ i s, sizes !! i = Some s -> exists p, places at_ sizes !! i = Some (p, s).
Proof. induction sizes as [|s0 sizes IH]; intros at_ [|i] s E; [done..| |]; cbn in E |- *; [injection E as <-; by eexists|by apply IH]. Qed.
Lemma places_aligned sizes : forall at_ i p s, places at_ sizes !! i = Some (p, s) -> (p - at_) mod 4 = 0.
Proof.
  induction sizes as [|s0 sizes IH]; intros at_ [|i] p s E; [done..| |]; cbn [places lookup list_lookup] in E.
  - injection E as <- <-. by rewrite Z.sub_diag.
  - apply IH in E. pose proof (align4_mod s0). replace (p - at_) with (p - (at_ + align4 s0) + align4 s0) by lia. by rewrite Zplus_mod, E, H.
Qed.
Lemma length_places sizes : forall at_, length (places at_ (map zlen sizes)) = length (sizes : list (list Z)).
Proof. induction sizes as [|s0 sizes IH]; intros at_; cbn [map places length]; [done|]. by rewrite IH. Qed.
Lemma places_apart sizes : Forall (fun s => 0 <= s) sizes -> forall at_ i j p s q t, (i < j)%nat ->
  places at_ sizes !! i = Some (p, s) -> places at_ sizes !! j = Some (q, t) -> p + align4 s <= q.
Proof.
  induction 1 as [|s0 sizes Hs Hf IH]; intros at_ i j p s q t Hij Ei Ej; [done|]. destruct j as [|j]; [lia|].
  destruct i as [|i]; cbn [places lookup list_lookup] in Ei, Ej.
  - injection Ei as <- <-. by apply places_lookup in Ej as (_ & Hj & _).
  - eapply (IH _ i j); [lia|exact Ei|exact Ej].
Qed.

(** ** The allocator gives out separate blocks *)

Definition blocks_at (a : arena) (bl : list (Z * Z)) (blocks : list (list Z)) : Prop :=
  zlen (ram a) = STACK_BASE - HEAP_BASE /\ bl = places HEAP_BASE (map zlen blocks) /\ aptr a = HEAP_BASE + total (map zlen blocks) /\
  total (map zlen blocks) <= HEAP_SIZE /\
  forall i b p s, blocks !! i = Some b -> bl !! i = Some (p, s) -> mread (ram a) (p - HEAP_BASE) (zlen b) = b.

Lemma alloc_sizes : alloc_geometry -> HEAP_END = STACK_BASE - 512 /\ HEAP_SIZE = STACK_BASE - 512 - HEAP_BASE.
Proof.
  intros [G1 G2]. unfold JD_STACK_SIZE in *. assert (HEAP_END = STACK_BASE - 512) as E by (unfold HEAP_END, JD_STACK_SIZE; apply u32_small; lia).
  split; [done|]. unfold HEAP_SIZE. rewrite E. apply u32_small. lia.
Qed.
Lemma stack_check_kept a : ram (jd_alloc_stack_check a) = ram a /\ aptr (jd_alloc_stack_check a) = aptr a.
Proof. unfold jd_alloc_stack_check. by destruct (_ >? _). Qed.
Lemma zlens_nonneg (blocks : list (list Z)) : Forall (fun s => 0 <= s) (map zlen blocks).
Proof. induction blocks as [|b blocks IH]; cbn [map]; constructor; [apply zlen_nonneg|done]. Qed.

(** A write that meets no block. *)
Lemma blocks_at_outside a bl blocks off d t : blocks_at a bl blocks -> 0 <= off -> off + zlen d <= STACK_BASE - HEAP_BASE ->
  total (map zlen blocks) <= off -> blocks_at {| ram := mwrite (ram a) off d; aptr := aptr a; maxStack := t |} bl blocks.
Proof.
  intros (Hl & Hb & Hp & Ht & Hc) Ho Hd Hout. unfold blocks_at. cbn [ram aptr]. split; [rewrite zlen_mwrite; lia|]. do 3 (split; [done|]).
  intros i b p s Ei Ep. pose proof Ep as Ep2. rewrite Hb in Ep2. apply places_lookup in Ep2 as (Es & H1 & H2); [|apply zlens_nonneg].
  rewrite list_lookup_fmap, Ei in Es. injection Es as <-. pose proof (align4_bounds (zlen b)). pose proof (zlen_nonneg b).
  rewrite mread_mwrite_out by lia. by eapply Hc.
Qed.

Lemma jd_alloc_spec size a bl blocks : alloc_geometry -> 0 <= size < 2 ^ 31 - 3 -> blocks_at a bl blocks ->
  if total (map zlen blocks) + align4 size <=? HEAP_SIZE then
    exists r a', jd_alloc size a = Ret (r, a') /\ blocks_at a' (bl ++ [(r, size)]) (blocks ++ [replicate (Z.to_nat size) 0])
  else jd_alloc size a = Panic.
Proof.
  intros HG Hs Hat. destruct (alloc_sizes HG) as [E1 E2]. destruct HG as [G1 G2]. unfold JD_STACK_SIZE in G2. destruct Hat as (Hl & Hb & Hp & Ht & Hc).
  pose proof (align4_bounds size). pose proof (total_nonneg _ (zlens_nonneg blocks)). set (t := total (map zlen blocks)) in *.
  unfold jd_alloc. destruct (stack_check_kept a) as [-> ->]. set (st := maxStack (jd_alloc_stack_check a)). clearbody st. cbn [ram aptr maxStack].
  rewrite (u32_small (size + 3)) by lia. set (w := Z.shiftr (size + 3) 2). assert (4 * w = align4 size) as Ew by (rewrite align4_div; unfold w; by rewrite Z.shiftr_div_pow2 by lia).
  clearbody w. rewrite Ew, Hp, (u32_small (HEAP_BASE + t + align4 size)), E1, E2 by lia. rewrite !Z.gtb_ltb.
  destruct (Z.leb_spec (t + align4 size) (STACK_BASE - 512 - HEAP_BASE)); [|by rewrite (proj2 (Z.ltb_lt _ _)) by lia].
  rewrite (proj2 (Z.ltb_ge _ _)) by lia. rewrite Z.shiftl_mul_pow2, (Z.mul_comm w) by lia. change (2 ^ 2) with 4. rewrite Ew, (u32_small (align4 size)), Hl, (proj2 (Z.ltb_ge _ _)) by lia.
  eexists _, _. split; [reflexivity|]. replace (HEAP_BASE + t - HEAP_BASE) with t by lia.
  set (d := replicate (Z.to_nat (align4 size)) 0). assert (zlen d = align4 size) as Hd by (unfold d; rewrite zlen_replicate; lia).
  pose proof (blocks_at_outside a bl blocks t d st ltac:(done) ltac:(lia) ltac:(lia) ltac:(lia)) as (Hl' & _ & _ & _ & Hc'). cbn [ram] in Hl', Hc'.
  unfold blocks_at. cbn [ram aptr]. rewrite map_app. cbn [map]. rewrite zlen_replicate, Z2Nat.id, places_snoc, total_snoc, <- Hb by lia.
  split; [done|]. split; [done|]. split; [unfold t; lia|]. split; [unfold t in *; lia|].
  intros i b p s Ei Ep. assert (length bl = length blocks) as Hlen by (rewrite Hb; apply length_places).
  destruct (decide (i < length blocks)%nat).
  - rewrite lookup_app_l in Ei by lia. rewrite lookup_app_l in Ep by lia. by eapply Hc'.
  - rewrite lookup_app_r in Ei by lia. rewrite lookup_app_r in Ep by lia. rewrite Hlen in Ep. destruct (i - length blocks)%nat; [|done]. injection Ei as <-. injection Ep as <- <-.
    replace (HEAP_BASE + t - HEAP_BASE) with t by lia. rewrite zlen_replicate, Z2Nat.id by lia.
    replace (mread (mwrite (ram a) t d) t size) with (mread (mread (mwrite (ram a) t d) t (zlen d)) 0 size) by (rewrite mread_mread by lia; f_equal; lia).
    rewrite mread_mwrite_eq by (unfold zlen in *; lia). unfold d, mread. rewrite drop_0, take_replicate. f_equal. lia.
Qed.

(** A write inside of a block. *)
Lemma owned_sizes off d i blocks : 0 <= off -> map zlen (alter (fun b => if off + zlen d <=? zlen b then mwrite b off d else b) i blocks) = map zlen blocks.
Proof.
  intros Ho. revert i. induction blocks as [|b blocks IH]; intros [|i]; cbn [alter list_alter map]; [done..| |by f_equal; apply IH].
  f_equal. destruct (Z.leb_spec (off + zlen d) (zlen b)); [|done]. apply zlen_mwrite; lia.
Qed.
Lemma owned_none (f : list Z -> list Z) i blocks : (length blocks <= i)%nat -> alter f i blocks = blocks.
Proof. revert i. induction blocks as [|b blocks IH]; intros [|i] Hi; cbn in *; [done..|lia|]. f_equal. apply IH. lia. Qed.
Lemma mread_mwrite_inside m at_ n off d : 0 <= at_ -> 0 <= off -> off + zlen d <= n -> at_ + n <= zlen m ->
  mread (mwrite m (at_ + off) d) at_ n = mwrite (mread m at_ n) off d.
Proof.
  unfold zlen. intros Ha Ho Hd Hn. apply list_eq. intros k. rewrite lookup_mread, !lookup_mwrite by (rewrite ?length_mread; lia). rewrite lookup_mread.
  repeat case_decide; try lia; done || f_equal; lia.
Qed.

Lemma alloc_write_spec i off d a bl blocks : alloc_geometry -> 0 <= off -> blocks_at a bl blocks ->
  let blocks' := alter (fun b => if off + zlen d <=? zlen b then mwrite b off d else b) i blocks in
  match bl !! i with
  | Some (p, size) => if off + zlen d <=? size then blocks_at {| ram := mwrite (ram a) (p - HEAP_BASE + off) d; aptr := aptr a; maxStack := maxStack a |} bl blocks'
                      else blocks_at a bl blocks'
  | None => blocks_at a bl blocks'
  end.
Proof.
  intros HG Ho Hat. pose proof Hat as (Hl & Hb & Hp & Ht & Hc). cbn zeta. destruct (alloc_sizes HG) as [E1 E2]. destruct HG as [G1 G2]. unfold JD_STACK_SIZE in *.
  destruct (bl !! i) as [[p size]|] eqn:Ep; [|by rewrite owned_none by (rewrite <- (length_places blocks HEAP_BASE), <- Hb; by apply lookup_ge_None)].
  pose proof Ep as Es. rewrite Hb in Es. apply places_lookup in Es as (Es & H1 & H2); [|apply zlens_nonneg]. rewrite list_lookup_fmap in Es.
  destruct (blocks !! i) as [b|] eqn:Eb; [|done]. injection Es as <-. pose proof (align4_bounds (zlen b)). pose proof (zlen_nonneg d).
  destruct (Z.leb_spec (off + zlen d) (zlen b)) as [Hin|Hin].
  - unfold blocks_at. cbn [ram aptr]. rewrite owned_sizes by done. split; [rewrite zlen_mwrite by lia; done|]. do 3 (split; [done|]).
    intros j c q s Ej Eq. destruct (decide (j = i)) as [->|Hne].
    + rewrite list_lookup_alter_eq, Eb in Ej. cbn in Ej. rewrite (proj2 (Z.leb_le _ _) Hin) in Ej. injection Ej as <-. rewrite Ep in Eq. injection Eq as <- <-.
      rewrite zlen_mwrite by lia. rewrite <- (Hc _ _ _ _ Eb Ep) at 2. apply mread_mwrite_inside; lia.
    + rewrite list_lookup_alter_ne in Ej by done. rewrite mread_mwrite_out; [by eapply Hc|..]; rewrite Hb in Ep, Eq; pose proof Eq as Eq2;
        apply places_lookup in Eq2 as (Es & H3 & H4); try apply zlens_nonneg; rewrite list_lookup_fmap, Ej in Es; injection Es as <-; pose proof (align4_bounds (zlen c)); pose proof (zlen_nonneg c); try lia.
      destruct (decide (i < j)%nat); [pose proof (places_apart _ (zlens_nonneg blocks) _ i j _ _ _ _ ltac:(lia) Ep Eq)|pose proof (places_apart _ (zlens_nonneg blocks) _ j i _ _ _ _ ltac:(lia) Eq Ep)]; lia.
  - replace (alter _ i blocks) with blocks; [done|]. apply list_eq. intros j. destruct (decide (j = i)) as [->|Hne]; [|by rewrite list_lookup_alter_ne].
    rewrite list_lookup_alter_eq, Eb. cbn. by rewrite (proj2 (Z.leb_gt _ _) Hin).
Qed.

Lemma alloc_step_spec o a bl blocks : alloc_geometry -> alloc_op_ok o -> blocks_at a bl blocks ->
  match ref_alloc_run [o] blocks with
  | Some blocks' => exists a' bl', alloc_step o a bl = Ret (a', bl') /\ blocks_at a' bl' blocks'
  | None => alloc_step o a bl = Panic
  end.
Proof.
  intros HG Ho Hat. destruct (alloc_sizes HG) as [E1 E2]. pose proof HG as [G1 G2]. unfold JD_STACK_SIZE in *. destruct o as [size|i off d|off d]; cbn [ref_alloc_run alloc_step alloc_op_ok] in *.
  - pose proof (jd_alloc_spec size a bl blocks HG Ho Hat) as Hs. destruct (_ <=? _).
    + destruct Hs as (r & a' & -> & Hat'). obind. by eexists _, _.
    + by rewrite Hs.
  - pose proof (alloc_write_spec i off d a bl blocks HG Ho Hat) as Hw. destruct (bl !! i) as [[p size]|]; [destruct (_ <=? _)|]; eexists _, _; (split; [reflexivity|exact Hw]).
  - unfold JD_STACK_SIZE. pose proof Hat as (_ & _ & _ & Ht & _). destruct (Z.leb_spec (off + zlen d) 512).
    + eexists _, _. split; [reflexivity|]. rewrite E1. apply blocks_at_outside; [done|lia..].
    + by exists a, bl.
Qed.

Lemma alloc_run_spec ops : alloc_geometry -> Forall alloc_op_ok ops -> forall a bl blocks, blocks_at a bl blocks ->
  match ref_alloc_run ops blocks with
  | Some blocks' => exists a' bl', alloc_run ops a bl = Ret (a', bl') /\ blocks_at a' bl' blocks'
  | None => alloc_run ops a bl = Panic
  end.
Proof.
  intros HG. induction 1 as [|o ops Ho _ IH]; intros a bl blocks Hat; [by exists a, bl|]. pose proof (alloc_step_spec o a bl blocks HG Ho Hat) as Hs.
  assert (ref_alloc_run (o :: ops) blocks = match ref_alloc_run [o] blocks with Some b => ref_alloc_run ops b | None => None end) as ->
    by (destruct o; cbn [ref_alloc_run]; [by destruct (_ <=? _)|done..]).
  cbn [alloc_run]. destruct (ref_alloc_run [o] blocks) as [b1|]; [|by rewrite Hs]. destruct Hs as (a1 & bl1 & -> & Hat1). obind. by apply IH.
Qed.

Lemma jd_alloc_init_ok p m seed : alloc_geometry -> zlen m = STACK_BASE - HEAP_BASE -> HEAP_BASE + 32 <= p <= STACK_BASE ->
  blocks_at (jd_alloc_init p m seed).1 [] [].
Proof.
  intros HG Hm Hp. destruct (alloc_sizes HG) as [E1 E2]. destruct HG as [G1 G2]. unfold JD_STACK_SIZE in *. unfold blocks_at, jd_alloc_init. cbn [fst ram aptr map places total fold_right].
  destruct (stack_check_kept {| ram := mwrite m 0 (replicate (Z.to_nat (p - HEAP_BASE - 32)) 0x33); aptr := 0; maxStack := 0 |}) as [-> _]. cbn [ram].
  rewrite zlen_mwrite by (rewrite ?zlen_replicate; lia). split; [done|]. split; [done|]. split; [lia|]. split; [lia|]. by intros i b q s E.
Qed.

(** C18. The allocator gives every caller memory of its own. After the start, for
    every sequence of allocations, of writes that owners make to their blocks,
    and of writes to the stack: an allocation panics exactly when the requests,
    in whole words, exceed the heap; otherwise the blocks lie one after the other
    in the heap, aligned, each was zero when it was handed out and holds what
    its owner wrote since, and the memory reported as free is what is left. *)
Theorem alloc_separates p m seed ops : alloc_geometry -> zlen m = STACK_BASE - HEAP_BASE -> HEAP_BASE + 32 <= p <= STACK_BASE -> Forall alloc_op_ok ops ->
  match ref_alloc_run ops [] with
  | Some blocks => exists a bl, alloc_run ops (jd_alloc_init p m seed).1 [] = Ret (a, bl) /\
      bl = places HEAP_BASE (map zlen blocks) /\ jd_available_memory a = HEAP_SIZE - total (map zlen blocks) /\
      (forall i q s, bl !! i = Some (q, s) -> HEAP_BASE <= q /\ q + s <= HEAP_END /\ (q - HEAP_BASE) mod 4 = 0) /\
      (forall i j q s r t, (i < j)%nat -> bl !! i = Some (q, s) -> bl !! j = Some (r, t) -> q + s <= r) /\
      (forall i b q s, blocks !! i = Some b -> bl !! i = Some (q, s) -> mread (ram a) (q - HEAP_BASE) (zlen b) = b)
  | None => alloc_run ops (jd_alloc_init p m seed).1 [] = Panic
  end.
Proof.
  intros HG Hm Hp Hops. pose proof (alloc_run_spec ops HG Hops _ [] [] (jd_alloc_init_ok p m seed HG Hm Hp)) as Hr.
  destruct (alloc_sizes HG) as [E1 E2]. destruct HG as [G1 G2]. unfold JD_STACK_SIZE in *.
  destruct (ref_alloc_run ops []) as [blocks|]; [|exact Hr]. destruct Hr as (a & bl & E & (Hl & Hb & Ha & Ht & Hc)). pose proof (zlens_nonneg blocks) as Hz. pose proof (total_nonneg _ Hz).
  exists a, bl. split; [exact E|]. split; [exact Hb|]. split; [unfold jd_available_memory; rewrite Ha, u32_small by lia; lia|]. split; [|split; [|exact Hc]].
  - intros i q s Ei. rewrite Hb in Ei. pose proof (places_aligned _ _ _ _ _ Ei). apply places_lookup in Ei as (_ & H1 & H2); [|done]. pose proof (align4_bounds s). lia.
  - intros i j q s r t Hij Ei Ej. rewrite Hb in Ei, Ej. pose proof (places_apart _ Hz _ i j q s r t Hij Ei Ej). pose proof (align4_bounds s). lia.
Qed.

(** ** The depth of the stack

    A word of the last [JD_STACK_SIZE] bytes that was written is noticed. *)
Lemma stack_scan_le m w : forall words ptr, ptr + 4 * Z.of_nat w < STACK_BASE -> (w < words)%nat -> get32 m (ptr + 4 * Z.of_nat w - HEAP_BASE) <> 0x33333333 ->
  stack_scan words m ptr <= ptr + 4 * Z.of_nat w.
Proof.
  induction w as [|w IH]; intros [|words] ptr Hp Hw Hne; [lia| |lia|]; cbn [stack_scan]; rewrite (proj2 (Z.ltb_lt _ _)) by lia.
  - rewrite Z.add_0_r in Hne. rewrite (proj2 (Z.eqb_neq _ _) Hne). cbn [negb]. lia.
  - destruct (negb _); [lia|]. specialize (IH words (ptr + 4)). replace (ptr + 4 + 4 * Z.of_nat w) with (ptr + 4 * Z.of_nat (S w)) in IH by lia. apply IH; [done|lia|done].
Qed.
Lemma stack_scan_ge m : forall words ptr, ptr <= stack_scan words m ptr.
Proof. induction words as [|words IH]; intros ptr; cbn [stack_scan]; [lia|]. destruct (_ <? _); [|lia]. destruct (negb _); [lia|]. specialize (IH (ptr + 4)). lia. Qed.
Lemma stack_check_notices a w : 0 <= maxStack a <= 512 -> (w < 128)%nat -> get32 (ram a) (STACK_BASE - 512 + 4 * Z.of_nat w - HEAP_BASE) <> 0x33333333 ->
  512 - 4 * Z.of_nat w <= maxStack (jd_alloc_stack_check a) <= 512.
Proof.
  intros Hm Hw Hne. pose proof (stack_scan_le (ram a) w 128 (STACK_BASE - 512) ltac:(lia) Hw Hne) as Hle. pose proof (stack_scan_ge (ram a) 128 (STACK_BASE - 512)) as Hge.
  unfold jd_alloc_stack_check, JD_STACK_SIZE. change (Z.to_nat (512 / 4)) with 128%nat. rewrite Z.gtb_ltb. destruct (Z.ltb_spec (maxStack a) (STACK_BASE - stack_scan 128 (ram a) (STACK_BASE - 512))); [|lia].
  cbn [maxStack]. unfold u16. rewrite Z.mod_small; lia.
Qed.

(** The size is rounded up in 32 bits: for the greatest sizes an empty block is
    given out where the allocator should panic. *)
Lemma alloc_huge_is_empty a : 0 <= aptr a <= HEAP_END -> aptr a - HEAP_BASE <= zlen (ram a) ->
  exists a', jd_alloc (2 ^ 32 - 1) a = Ret (aptr a, a') /\ aptr a' = aptr a.
Proof.
  intros Ha Hr. unfold jd_alloc. destruct (stack_check_kept a) as [-> ->]. cbn [aptr ram maxStack]. change (Z.shiftr (u32 (2 ^ 32 - 1 + 3)) 2) with 0. change (u32 (Z.shiftl 0 2)) with 0.
  assert (HEAP_END < 2 ^ 32) as He by apply u32_range. rewrite !Z.add_0_r, u32_small, !Z.gtb_ltb by lia. rewrite !(proj2 (Z.ltb_ge _ _)) by lia. by eexists _.
Qed.
End Alloc.

(** ** The theorem at a concrete input *)

Definition demo_alloc_ops : list alloc_op :=
  [AAlloc 5; AStack 500 [1; 2; 3; 4]; AAlloc 4; AWrite 0 1 [9; 9]; AWrite 1 0 [7; 7; 7; 7]; AAlloc 0; AWrite 1 3 [1; 1]].
Lemma alloc_separates_witness :
  exists a bl, alloc_run 1000 1600 demo_alloc_ops (jd_alloc_init 1000 1600 1500 (replicate 600 7) 1).1 [] = Ret (a, bl) /\
    bl = [(1000, 5); (1008, 4); (1012, 0)] /\ mread (ram a) 0 12 = [0; 9; 9; 0; 0; 0; 0; 0; 7; 7; 7; 7].
Proof.
  pose proof (alloc_separates 1000 1600 1500 (replicate 600 7) 1 demo_alloc_ops ltac:(unfold alloc_geometry, JD_STACK_SIZE; lia) eq_refl ltac:(lia)
    ltac:(repeat constructor; cbn; lia)) as Hs.
  change (ref_alloc_run 1000 1600 demo_alloc_ops []) with (Some [[0; 9; 9; 0; 0]; [7; 7; 7; 7]; []]) in Hs. destruct Hs as (a & bl & E & Hb & _ & _ & _ & Hc).
  exists a, bl. split; [exact E|]. split; [exact Hb|]. vm_compute in E. injection E as <- _. vm_compute. reflexivity.
Defined.
