(* ===== verification/Double.v ===== *)
(** * Double-precision arithmetic

    The [double] type of C as the IEEE 754 binary64 numbers of the Standard
    Library's [SpecFloat], rounding to nearest even, with the conversions and
    the compiler builtin the sources use. *)
From Stdlib Require Export SpecFloat.
From S2P Require Import Prelude.

Definition double : Type := spec_float.
Definition d_mul : double -> double -> double := SFmul 53 1024.
Definition d_div : double -> double -> double := SFdiv 53 1024.
Definition d_add : double -> double -> double := SFadd 53 1024.
Definition d_neg : double -> double := SFopp.
Definition d_lt : double -> double -> bool := SFltb.
Definition d_gt (x y : double) : bool := SFltb y x.

(** Conversion from an integer, and [m * 2 ^ e] rounded. *)
Definition d_make (m e : Z) : double := binary_normalize 53 1024 m e false.
Definition d_of_Z (n : Z) : double := d_make n 0.

(** Conversion to an integer type: truncation; the value is the caller's to
    wrap. C leaves NaN and the infinities undefined, 0 here. *)
Definition d_trunc (x : double) : Z :=
  match x with
  | S754_finite s m e =>
      let v := if 0 <=? e then Zpos m * 2 ^ e else Zpos m / 2 ^ (- e) in
      if s then - v else v
  | _ => 0
  end.

Definition isnan (x : double) : bool := match x with S754_nan => true | _ => false end.
Definition isinf (x : double) : bool := match x with S754_infinity _ => true | _ => false end.

(** [__builtin_powi(x, n)] for [n >= 0], by repeated squaring. *)
Fixpoint powi_aux (x : double) (n : positive) (y : double) : double :=
  match n with
  | xH => d_mul y x
  | xO n' => powi_aux (d_mul x x) n' y
  | xI n' => powi_aux (d_mul x x) n' (d_mul y x)
  end.
Fixpoint powi_pos (x : double) (n : positive) : double :=
  match n with
  | xH => x
  | xO n' => powi_pos (d_mul x x) n'
  | xI n' => powi_aux (d_mul x x) n' x
  end.
Definition powi (x : double) (n : Z) : double :=
  match n with
  | Z0 => d_of_Z 1
  | Zpos p => powi_pos x p
  | Zneg p => d_div (d_of_Z 1) (powi_pos x p)
  end.

Definition d_half : double := d_make 1 (-1).
