(* ===== verification/Format.v ===== *)
(** * Formatted output ([jd_vsprintf_ext] and its helpers, [source/jd_util.c])

    The configuration is [JD_ADVANCED_STRING], [JD_FREE_SUPPORTED], without
    [JD_LORA]. The variable arguments are a list of [va]; taking an argument of
    the wrong type, and reading the format past its NUL, is undefined in C and
    [None] here. The output buffer is a byte memory of its own, [dst] an offset
    into it. [log10] of the C library is a parameter. *)
From S2P Require Import Prelude Util Double.

(** ** Numbers *)

Fixpoint writeNum_loop (fuel : nat) (n : Z) (full : bool) (sh : Z) (buf : list Z) : list Z :=
  match fuel with
  | O => buf
  | S fuel' =>
      if sh >=? 0 then
        let d := Z.land (Z.shiftr n sh) 0xf in
        let buf :=
          if full || negb (d =? 0) || (sh =? 0) || negb (zlen buf =? 0)
          then buf ++ [if d >? 9 then 65 + d - 10 else 48 + d] else buf in
        writeNum_loop fuel' n full (sh - 4) buf
      else buf
  end.
(** The characters before the NUL; eight digits with 32-bit pointers. *)
Definition writeNum (n : Z) (full : bool) : list Z := writeNum_loop 8 n full 28 [].

Definition pows (i : Z) : Z := 10 ^ i.

(** The digit loop: [i] counts down, [k] is the digit ([dd >= q] is subtracted
    [dd / q] times). *)
Fixpoint print_digits (i : nat) (numdigits dotAfter dd : Z) : list Z :=
  match i with
  | O => []
  | S i' =>
      let q := pows (Z.of_nat i') in
      let k := 48 + dd / q in
      let dd := dd mod q in
      u8 k ::
        (if (dd =? 0) && (numdigits - Z.of_nat i' >=? dotAfter) then []
         else (if numdigits - Z.of_nat i' =? dotAfter then [46] else [])
              ++ print_digits i' numdigits dotAfter dd)
  end.

Section PrintDouble.
Context (log10 : double -> double).

Definition p10 (v : Z) : double := powi (d_of_Z 10) v.

Definition jd_print_double (d : double) (numdigits : Z) : list Z :=
  let neg := d_lt d (d_of_Z 0) in
  let sign := if neg then [45] else [] in
  let d := if neg then d_neg d else d in
  if isnan d then sign ++ [78; 97; 78] else
  if isinf d then sign ++ [105; 110; 102] else
  if d_lt d (d_make 4655251826068144 (-1074)) (* 2.3e-308 *) then sign ++ [48] else
  let numdigits := if numdigits <? 4 then 4 else numdigits in
  let maxdigits := 15 in
  let numdigits := if numdigits >? maxdigits then maxdigits else numdigits in
  let pw := d_trunc (log10 d) in
  (* if outside 1e-6 -- 1e21 range, we use the e-notation *)
  let outside :=
    d_lt d (d_make 4722366482869645 (-72)) || d_gt d (d_of_Z (10 ^ 21)) in
  let '(d, e, pw) :=
    if outside
    then (if pw <? 0 then d_mul d (p10 (- pw)) else d_div d (p10 pw), pw, 0)
    else (d, 1, pw) in
  let dotAfter := pw + 1 in
  let numdigits :=
    if pw >=? numdigits
    then (if pw + 1 >? maxdigits then maxdigits else pw + 1) else numdigits in
  let trailingZ := if pw >=? numdigits then pw - numdigits + 1 else 0 in
  let dd :=
    if pw >=? numdigits
    then u64 (d_trunc (d_add (d_div d (p10 trailingZ)) d_half))
    else u64 (d_trunc (d_add (d_mul d (p10 (numdigits - pw - 1))) d_half)) in
  let lead := if dotAfter <? 1 then [48; 46] ++ replicate (Z.to_nat (- dotAfter)) 48 else [] in
  sign ++ lead ++ print_digits (Z.to_nat numdigits) numdigits dotAfter dd
    ++ replicate (Z.to_nat trailingZ) 48
    ++ (if negb (e =? 1) then [101] ++ (if e >? 0 then [43] else []) ++ jd_itoa e else []).
End PrintDouble.

(** ** The output context *)

Record printf_ctx := {
  c_dst : Z;          (* ctx->dst - dst *)
  c_size : Z;         (* ctx->dstend - dst *)
  c_ulen : Z;         (* code points *)
  c_mem : list Z;     (* the memory at dst *)
}.

Definition utf8_count (src : list Z) : Z :=
  zlen (List.filter (fun c => negb (Z.land c 0xC0 =? 0x80)) src).

Definition write_n (ctx : printf_ctx) (src : list Z) : printf_ctx :=
  let srclen := zlen src in
  let left := c_size ctx - c_dst ctx in
  let mem :=
    if left >? 0 then
      let srctrimmed := if srclen >=? left then left - 1 else srclen in
      put8 (mwrite (c_mem ctx) (c_dst ctx) (mread src 0 srctrimmed)) (c_dst ctx + srctrimmed) 0
    else c_mem ctx in
  {| c_dst := c_dst ctx + srclen; c_size := c_size ctx;
     c_ulen := c_ulen ctx + utf8_count src; c_mem := mem |}.

(** ** Conversions *)

Inductive va :=
  | VInt (n : Z)                   (* int, unsigned, uintptr_t: 32 bits *)
  | VDouble (d : double)
  | VStr (s : option (list Z))     (* const char *, None for NULL *)
  | VMem (bytes : list Z).         (* pointer to bytes *)

Definition take_int (ap : list va) : option (Z * list va) :=
  match ap with VInt n :: ap' => Some (n, ap') | _ => None end.
Definition take_double (ap : list va) : option (double * list va) :=
  match ap with VDouble d :: ap' => Some (d, ap') | _ => None end.
Definition take_str (ap : list va) : option (option (list Z) * list va) :=
  match ap with VStr s :: ap' => Some (s, ap') | _ => None end.
Definition take_mem (ap : list va) : option (list Z * list va) :=
  match ap with VMem d :: ap' => Some (d, ap') | _ => None end.

(** [strlen(buf)] characters of a buffer with the one character [c]. *)
Definition one_char (c : Z) : list Z := if u8 c =? 0 then [] else [u8 c].

Section Vsprintf.
Context (log10 : double -> double).

(** The text a simple conversion leaves in [buf]. *)
Definition conv_buf (c : Z) (ap : list va) : option (list Z * list va) :=
  if c =? 99 (* c *) then '(n, ap) ← take_int ap; Some (one_char n, ap)
  else if c =? 100 (* d *) then '(n, ap) ← take_int ap; Some (jd_itoa (s32 n), ap)
  else if c =? 117 (* u *) then '(n, ap) ← take_int ap; Some (jd_utoa (u32 n), ap)
  else if (c =? 120) || (c =? 88) (* x X *) then
    '(n, ap) ← take_int ap; Some ([48; 120] ++ writeNum (u32 n) false, ap)
  else if c =? 112 (* p *) then
    '(n, ap) ← take_int ap; Some ([48; 120] ++ writeNum (u32 n) false, ap)
  else if c =? 102 (* f *) then
    '(f, ap) ← take_double ap; Some (jd_print_double log10 f 8, ap)
  else if c =? 37 (* % *) then Some ([37], ap)
  else Some ([63] (* ? *), ap).

(** The loop of [%*p]: 31 bytes at a time through [buf]. *)
Fixpoint hexdump_loop (fuel : nat) (ctx : printf_ctx) (d : list Z) : printf_ctx :=
  match fuel with
  | O => ctx
  | S fuel' =>
      if zlen d >? 0 then
        let ch := 64 / 2 - 1 in
        let ch := if zlen d <? ch then zlen d else ch in
        let ctx := write_n ctx (mread (jd_to_hex (mread d 0 ch)) 0 (ch * 2)) in
        hexdump_loop fuel' ctx (drop (Z.to_nat ch) d)
      else ctx
  end.

(** [run] is the text from [format] to [end]; [s] is what is left at [end];
    [freed] the arguments passed to [jd_free]. *)
Fixpoint vsprintf_loop (dst_null : bool) (ctx : printf_ctx) (freed : list (option (list Z)))
    (run s : list Z) (ap : list va) : option (printf_ctx * list (option (list Z))) :=
  match s with
  | [] => Some (write_n ctx run, freed)
  | c :: s1 =>
      if negb (c =? 37) then vsprintf_loop dst_null ctx freed (run ++ [c]) s1 ap
      else
        let ctx := write_n ctx run in
        match s1 with
        | [] => None (* reads past the NUL *)
        | c1 :: s2 =>
            if c1 =? 42 (* '*' *) then
              '(len, ap) ← take_int ap;
              '(d, ap) ← take_mem ap;
              match s2 with
              | [] => None (* reads past the NUL *)
              | c2 :: s3 =>
                  if c2 =? 112 then
                    let d := mread d 0 (s32 len) in
                    vsprintf_loop dst_null (write_n (hexdump_loop (length d) ctx d) []) freed [] s3 ap
                  else vsprintf_loop dst_null (write_n ctx [63]) freed [] s3 ap
              end
            else if c1 =? 115 (* s *) then
              '(s, ap) ← take_str ap;
              let val := default [40; 110; 117; 108; 108; 41] s in
              vsprintf_loop dst_null (write_n (write_n ctx val) []) freed [] s2 ap
            else
              match s2 with
              | c2 :: s3 =>
                  if (c1 =? 45) && (c2 =? 115) (* -s *) then
                    '(s, ap) ← take_str ap;
                    let val := default [40; 110; 117; 108; 108; 41] s in
                    vsprintf_loop dst_null (write_n (write_n ctx val) [])
                      (if dst_null then freed else freed ++ [s]) [] s3 ap
                  else
                    '(buf, ap) ← conv_buf c1 ap;
                    vsprintf_loop dst_null (write_n ctx buf) freed [] s2 ap
              | [] =>
                  '(buf, ap) ← conv_buf c1 ap;
                  vsprintf_loop dst_null (write_n ctx buf) freed [] s2 ap
              end
        end
  end.

(** The result, [*ulen], the memory at [dst], and what was freed. *)
Definition jd_vsprintf_ext (dst_null : bool) (mem : list Z) (dstsize : Z) (format : list Z)
    (ap : list va) : option (Z * Z * list Z * list (option (list Z))) :=
  let ctx := {| c_dst := 0; c_size := dstsize; c_ulen := 0; c_mem := mem |} in
  '(ctx, freed) ← vsprintf_loop dst_null ctx [] [] format ap;
  Some (c_dst ctx + 1, c_ulen ctx + 1, c_mem ctx, freed).

Definition jd_vsprintf (dst_null : bool) (mem : list Z) (dstsize : Z) (format : list Z)
    (ap : list va) : option (Z * list Z * list (option (list Z))) :=
  '(r, _, mem, freed) ← jd_vsprintf_ext dst_null mem dstsize format ap; Some (r, mem, freed).

Definition jd_sprintf := jd_vsprintf.

(** A measuring pass, then the printing pass into a zeroed allocation. *)
Definition jd_vsprintf_a (format : list Z) (ap : list va)
    : option (list Z * list (option (list Z))) :=
  '(len, _, _) ← jd_vsprintf true [] 0 format ap;
  let r := replicate (Z.to_nat len) 0 in
  '(_, r, freed) ← jd_vsprintf false r len format ap;
  Some (r, freed).
Definition jd_sprintf_a := jd_vsprintf_a.
End Vsprintf.

(** ** Output does not depend on the room

    Everything [jd_vsprintf_ext] does to its context is a sequence of
    [write_n]; what those leave in the buffer depends only on the whole text. *)

(** The buffer after the text [txt]: as much of it as fits, NUL-terminated. *)
Definition render (mem : list Z) (size : Z) (txt : list Z) : list Z :=
  if size >? 0 then mwrite mem 0 (take (Z.to_nat (size - 1)) txt ++ [0]) else mem.

Record ctx_ok (mem : list Z) (txt : list Z) (ctx : printf_ctx) : Prop := {
  ctx_ok_dst : c_dst ctx = zlen txt;
  ctx_ok_size : 0 <= c_size ctx <= zlen mem;
  ctx_ok_mem : (txt = [] /\ c_mem ctx = mem) \/ c_mem ctx = render mem (c_size ctx) txt;
}.

Lemma render_lookup mem size txt i :
  0 < size <= zlen mem ->
  render mem size txt !! i =
    if decide (Z.of_nat i < Z.min (size - 1) (zlen txt)) then txt !! i
    else if decide (Z.of_nat i = Z.min (size - 1) (zlen txt)) then Some 0 else mem !! i.
Proof.
  unfold zlen. intros Hs. unfold render. rewrite Z.gtb_ltb, (proj2 (Z.ltb_lt _ _)) by lia.
  assert (length (take (Z.to_nat (size - 1)) txt) = Z.to_nat (Z.min (size - 1) (Z.of_nat (length txt)))) as Hl
    by (rewrite length_take; lia).
  rewrite lookup_mwrite by (rewrite length_app, Hl; simpl; lia).
  rewrite length_app, Hl. simpl length. change (Z.to_nat 0) with 0%nat. rewrite Nat.sub_0_r.
  rewrite lookup_app_case, Hl. repeat case_decide; try lia; try done.
  - apply lookup_take_lt. lia.
  - replace (i - _)%nat with 0%nat by lia. done.
Qed.

Lemma zlen_render mem size txt : 0 <= size <= zlen mem -> zlen (render mem size txt) = zlen mem.
Proof.
  intros Hs. unfold render. case_cmp; [|done]. apply zlen_mwrite; [lia|].
  unfold zlen in *. rewrite length_app, length_take. simpl. lia.
Qed.

(** The memory [write_n] starts from, at and before the end of the text. *)
Lemma ctx_ok_lookup mem txt ctx i :
  ctx_ok mem txt ctx -> zlen txt < c_size ctx ->
  (Z.of_nat i < zlen txt -> c_mem ctx !! i = txt !! i) /\
  (zlen txt < Z.of_nat i -> c_mem ctx !! i = mem !! i) /\ zlen (c_mem ctx) = zlen mem.
Proof.
  intros [_ Hsz [[-> ->]| ->]] Hl.
  - unfold zlen. simpl. split_and!; done || lia.
  - pose proof (zlen_nonneg txt). rewrite zlen_render, render_lookup by lia.
    repeat case_decide; split_and!; intros; done || lia.
Qed.

Lemma write_n_ok mem txt ctx src :
  ctx_ok mem txt ctx -> ctx_ok mem (txt ++ src) (write_n ctx src) /\
  c_mem (write_n ctx src) = render mem (c_size ctx) (txt ++ src).
Proof.
  intros Hok. pose proof Hok as [Hd Hs Hm]. pose proof (zlen_nonneg txt). pose proof (zlen_nonneg src).
  assert (c_mem (write_n ctx src) = render mem (c_size ctx) (txt ++ src)) as Hr.
  { unfold write_n. cbn [c_mem]. rewrite Hd. case_cmp.
    - pose proof (fun i => ctx_ok_lookup mem txt ctx i Hok ltac:(lia)) as Hlk.
      pose proof (proj2 (proj2 (Hlk 0%nat))) as Hml.
      set (n := if zlen src >=? c_size ctx - zlen txt then _ else _).
      assert (n = Z.min (c_size ctx - zlen txt - 1) (zlen src)) as Hn
        by (unfold n; rewrite Z.geb_leb; case_cmp; lia).
      assert (zlen (mread src 0 n) = n) as Hrn by (apply zlen_mread; lia).
      apply list_eq; intros i. rewrite render_lookup, zlen_app by lia. specialize (Hlk i) as (L1 & L2 & _).
      unfold put8. rewrite list_lookup_insert, length_mwrite by (unfold zlen in *; lia).
      rewrite lookup_mwrite, lookup_mread by (unfold zlen in *; lia). rewrite lookup_app_case.
      unfold zlen in *. repeat case_decide; try lia; try done.
      + f_equal. lia.
      + apply L1. lia.
      + apply L2. lia.
    - destruct Hm as [[-> ->]| ->].
      + unfold zlen in *. simpl in *. unfold render. rewrite Z.gtb_ltb, (proj2 (Z.ltb_ge _ _)); [done|lia].
      + unfold render. case_cmp; [|done]. do 2 f_equal. symmetry. apply take_app_le. unfold zlen in *. lia. }
  split; [|done]. constructor; [|done|by right].
  unfold write_n. cbn [c_dst]. rewrite zlen_app. lia.
Qed.

Lemma write_all_ok mem pieces : forall txt ctx,
  ctx_ok mem txt ctx ->
  ctx_ok mem (txt ++ concat pieces) (fold_left write_n pieces ctx) /\
  c_size (fold_left write_n pieces ctx) = c_size ctx.
Proof.
  induction pieces as [|p ps IH]; intros txt ctx Hok; simpl; [by rewrite app_nil_r|].
  destruct (write_n_ok mem txt ctx p Hok) as [Hok' _].
  destruct (IH _ _ Hok') as [H1 H2]. by rewrite <- app_assoc in H1.
Qed.

Lemma write_all_render mem p pieces ctx :
  ctx_ok mem [] ctx ->
  c_mem (fold_left write_n (p :: pieces) ctx) = render mem (c_size ctx) (concat (p :: pieces)) /\
  c_dst (fold_left write_n (p :: pieces) ctx) = zlen (concat (p :: pieces)).
Proof.
  intros Hok. destruct (write_all_ok mem (removelast (p :: pieces)) [] ctx Hok) as [Hok1 Hs].
  pose proof (write_n_ok mem _ _ (List.last (p :: pieces) []) Hok1) as [[Hd _ _] Hm].
  rewrite Hs in Hm. rewrite app_nil_l in Hm, Hd.
  assert (p :: pieces = removelast (p :: pieces) ++ [List.last (p :: pieces) []]) as E
    by by apply app_removelast_last.
  revert Hm Hd E. generalize (removelast (p :: pieces)) (List.last (p :: pieces) []).
  intros l1 l2 Hm Hd ->. rewrite fold_left_app, concat_app. cbn [fold_left concat].
  rewrite app_nil_r. done.
Qed.

Lemma hexdump_pieces fuel : forall d, exists pieces, forall ctx,
  hexdump_loop fuel ctx d = fold_left write_n pieces ctx.
Proof.
  induction fuel as [|fuel IH]; intros d; cbn [hexdump_loop]; [by exists []|].
  destruct (zlen d >? 0); [|by exists []]. cbv zeta. set (ch := if _ <? _ then _ else _).
  destruct (IH (drop (Z.to_nat ch) d)) as [pieces Hp].
  eexists (_ :: pieces). intros ctx. cbn [fold_left]. apply Hp.
Qed.

(** The loop as a sequence of writes that does not depend on the context. *)
Definition loop_writes log10 run s ap (pieces : list (list Z)) (fr : list (option (list Z))) : Prop :=
  pieces <> [] /\ forall dst_null ctx freed,
    vsprintf_loop log10 dst_null ctx freed run s ap =
      Some (fold_left write_n pieces ctx, if dst_null then freed else freed ++ fr).

Definition loop_settled log10 run s ap : Prop :=
  (forall dst_null ctx freed, vsprintf_loop log10 dst_null ctx freed run s ap = None) \/
  exists pieces fr, loop_writes log10 run s ap pieces fr.

(** One more conversion in front of a settled rest. *)
Lemma settled_cons log10 run s ap ps fr run' s' ap' :
  (forall dst_null ctx freed, vsprintf_loop log10 dst_null ctx freed run s ap =
    vsprintf_loop log10 dst_null (fold_left write_n ps ctx)
      (if dst_null then freed else freed ++ fr) run' s' ap') ->
  loop_settled log10 run' s' ap' -> loop_settled log10 run s ap.
Proof.
  intros Heq [Hn|(pieces & fr' & Hne & Hw)]; [left|right].
  - intros. by rewrite Heq.
  - exists (ps ++ pieces), (fr ++ fr'). split; [by destruct ps|]. intros dst_null ctx freed.
    rewrite Heq, Hw, fold_left_app. destruct dst_null; [done|]. by rewrite app_assoc.
Qed.

Lemma vsprintf_loop_settled log10 n : forall run s ap,
  (length s <= n)%nat -> loop_settled log10 run s ap.
Proof.
  induction n as [|n IH]; intros run [|c s1] ap Hl; simpl in Hl; try lia;
    try (right; exists [run], []; split; [done|]; intros [] ctx freed;
      cbn; rewrite ?app_nil_r; done).
  destruct (negb (c =? 37)) eqn:Ec.
  { apply (settled_cons _ _ _ _ [] [] (run ++ [c]) s1 ap); [|apply IH; lia].
    intros [] ctx freed; cbn [vsprintf_loop fold_left]; rewrite Ec, ?app_nil_r; done. }
  destruct s1 as [|c1 s2]; [left; intros; cbn [vsprintf_loop]; by rewrite Ec|].
  destruct (c1 =? 42) eqn:E1.
  { destruct (take_int ap) as [[len ap1]|] eqn:Ei;
      [|left; intros; cbn [vsprintf_loop]; by rewrite Ec, E1, Ei].
    destruct (take_mem ap1) as [[d ap2]|] eqn:Em;
      [|left; intros; cbn [vsprintf_loop]; rewrite Ec, E1, Ei; cbn; by rewrite Em].
    destruct s2 as [|c2 s3];
      [left; intros; cbn [vsprintf_loop]; rewrite Ec, E1, Ei; cbn; by rewrite Em|].
    destruct (hexdump_pieces (length (mread d 0 (s32 len))) (mread d 0 (s32 len))) as [ps Hps].
    apply (settled_cons _ _ _ _ (run :: if c2 =? 112 then ps ++ [[]] else [[63]]) [] [] s3 ap2);
      [|apply IH; simpl in Hl; lia].
    intros dn ctx freed. cbn [vsprintf_loop]. rewrite Ec, E1, Ei. cbn. rewrite Em. cbn.
    destruct (c2 =? 112); rewrite ?Hps, ?fold_left_app, app_nil_r; by destruct dn. }
  destruct (c1 =? 115) eqn:E2.
  { destruct (take_str ap) as [[v ap1]|] eqn:Ei;
      [|left; intros; cbn [vsprintf_loop]; by rewrite Ec, E1, E2, Ei].
    apply (settled_cons _ _ _ _ [run; default [40; 110; 117; 108; 108; 41] v; []] [] [] s2 ap1);
      [|apply IH; simpl in Hl; lia].
    intros dn ctx freed. cbn [vsprintf_loop]. rewrite Ec, E1, E2, Ei. cbn.
    rewrite app_nil_r. by destruct dn. }
  assert (match s2 with c2 :: _ => (c1 =? 45) && (c2 =? 115) | [] => false end = false ->
    loop_settled log10 run (c :: c1 :: s2) ap) as Hplain.
  { intros E3. destruct (conv_buf log10 c1 ap) as [[buf ap1]|] eqn:Ei; [|left; intros].
    - apply (settled_cons _ _ _ _ [run; buf] [] [] s2 ap1); [|apply IH; simpl in Hl; lia].
      intros dn ctx freed. cbn [vsprintf_loop]. rewrite Ec, E1, E2.
      destruct s2 as [|c2 s3]; rewrite ?E3, Ei; cbn; rewrite app_nil_r; by destruct dn.
    - cbn [vsprintf_loop]. rewrite Ec, E1, E2. destruct s2; rewrite ?E3, Ei; done. }
  destruct s2 as [|c2 s3]; [by apply Hplain|].
  destruct ((c1 =? 45) && (c2 =? 115)) eqn:E3; [|by apply Hplain].
  destruct (take_str ap) as [[v ap1]|] eqn:Ei;
    [|left; intros; cbn [vsprintf_loop]; by rewrite Ec, E1, E2, E3, Ei].
  apply (settled_cons _ _ _ _ [run; default [40; 110; 117; 108; 108; 41] v; []] [v] [] s3 ap1);
    [|apply IH; simpl in Hl; lia].
  intros dn ctx freed. cbn [vsprintf_loop]. rewrite Ec, E1, E2, E3, Ei. cbn. by destruct dn.
Qed.

Lemma vsprintf_text log10 format ap :
  (forall dst_null mem size, jd_vsprintf log10 dst_null mem size format ap = None) \/
  exists text fr, forall dst_null mem size, 0 <= size <= zlen mem ->
    jd_vsprintf log10 dst_null mem size format ap =
      Some (zlen text + 1, render mem size text, if dst_null then [] else fr).
Proof.
  unfold jd_vsprintf, jd_vsprintf_ext.
  destruct (vsprintf_loop_settled log10 (length format) [] format ap) as [Hn|(ps & fr & Hne & Hw)]; [done|left|right].
  - intros. by rewrite Hn.
  - destruct ps as [|p ps]; [done|]. exists (concat (p :: ps)), fr. intros dn mem size Hs.
    rewrite Hw. cbn [mbind option_bind].
    destruct (write_all_render mem p ps {| c_dst := 0; c_size := size; c_ulen := 0; c_mem := mem |})
      as [-> ->]; [constructor; simpl; auto|]. done.
Qed.

Lemma render_full text : render (replicate (Z.to_nat (zlen text + 1)) 0) (zlen text + 1) text = text ++ [0].
Proof.
  unfold render, zlen. rewrite Z.gtb_ltb, (proj2 (Z.ltb_lt _ _)) by lia.
  rewrite take_ge by lia. unfold mwrite. rewrite drop_ge; [by rewrite app_nil_r|].
  rewrite length_replicate, length_app. simpl. lia.
Qed.

(** ** Properties *)

(** C38. [jd_vsprintf] truncates safely: for every format and arguments there
    is one text such that, whatever the room, the call answers the length of
    the whole text with its NUL and leaves in the buffer the prefix that fits,
    NUL-terminated, and not a byte behind it; [jd_vsprintf_a] returns the whole
    text, and frees each [%-s] argument exactly once, in the printing pass. *)
Theorem jd_vsprintf_truncates log10 format ap r freed :
  jd_vsprintf_a log10 format ap = Some (r, freed) ->
  exists text, r = text ++ [0] /\
    forall mem size, 0 <= size <= zlen mem ->
      jd_vsprintf log10 false mem size format ap = Some (zlen text + 1, render mem size text, freed).
Proof.
  unfold jd_vsprintf_a.
  destruct (vsprintf_text log10 format ap) as [Hn|(text & fr & Hw)]; [by rewrite Hn|].
  rewrite (Hw true [] 0) by done. cbn [mbind option_bind].
  pose proof (zlen_nonneg text). rewrite (Hw false) by (unfold zlen; rewrite length_replicate; unfold zlen in *; lia).
  cbn [mbind option_bind]. rewrite render_full. intros [= <- <-].
  exists text. split; [done|]. intros mem size Hs. by rewrite Hw.
Qed.

(** ["%d:%-s"] of 7 and ["ab"]. *)
Lemma jd_vsprintf_truncates_witness :
  jd_vsprintf (fun d => d) false [1; 1; 1; 1; 1; 1] 4 [37; 100; 58; 37; 45; 115] [VInt 7; VStr (Some [97; 98])]
  = Some (5, [55; 58; 97; 0; 1; 1], [Some [97; 98]]).
Proof.
  destruct (jd_vsprintf_truncates (fun d => d) [37; 100; 58; 37; 45; 115] [VInt 7; VStr (Some [97; 98])]
    [55; 58; 97; 98; 0] [Some [97; 98]]) as (text & Ht & H); [vm_compute; reflexivity|].
  rewrite H by (vm_compute; split; discriminate).
  assert (text = [55; 58; 97; 98]) as ->; [|vm_compute; reflexivity].
  change [55; 58; 97; 98; 0] with ([55; 58; 97; 98] ++ [0]) in Ht. by apply app_inj_tail in Ht as [-> _].
Defined.

(** A number that rounds up to the next power of ten is printed with the
    character behind ['9']: 9.99999999 with eight digits gives [":"]. *)
Lemma jd_print_double_carry log10 :
  let d := d_make 5629499528583620 (-49) in
  d_trunc (log10 d) = 0 -> jd_print_double log10 d 8 = [58].
Proof.
  intros d Hd. unfold jd_print_double.
  replace (if d_lt d (d_of_Z 0) then d_neg d else d) with d by (vm_compute; reflexivity).
  rewrite Hd. vm_compute. reflexivity.
Qed.

(** [%-s] with a [NULL] argument hands the literal ["(null)"] to [jd_free]. *)
Lemma jd_vsprintf_frees_null :
  jd_vsprintf_a (fun d => d) [37; 45; 115] [VStr None] = Some ([40; 110; 117; 108; 108; 41; 0], [None]).
Proof. vm_compute. reflexivity. Qed.
