(* ===== verification/Dmesg.v ===== *)
(** * The log buffer ([source/jd_dmesg.c], [inc/jd_dmesg.h])

    A ring of [JD_DMESG_BUFFER_SIZE] bytes that the program writes text into;
    readers keep their own position and read what was written since. Interrupts
    are off during each call. *)
From S2P Require Import Prelude Double Format.

Definition JD_DMESG_BUFFER_SIZE : Z := 1024.
Definition JD_DMESG_LINE_BUFFER : Z := 160.

Record dmesg := { dm_ptr : Z; dm_buffer : list Z }.

Definition dmesg0 : dmesg := {| dm_ptr := 0; dm_buffer := replicate (Z.to_nat JD_DMESG_BUFFER_SIZE) 0 |}.

Definition jd_dmesg_write (d : dmesg) (msg : list Z) : dmesg :=
  let len := zlen msg in
  let space := JD_DMESG_BUFFER_SIZE - dm_ptr d in
  let '(d, msg, len) :=
    if space <? len + 1 then
      let buffer := mwrite (dm_buffer d) (dm_ptr d) (mread msg 0 space) in
      let len := len - space in
      let msg := drop (Z.to_nat space) msg in
      let len := if len + 2 >? JD_DMESG_BUFFER_SIZE then 1 else len in
      ({| dm_ptr := 0; dm_buffer := buffer |}, msg, len)
    else (d, msg, len) in
  let buffer := mwrite (dm_buffer d) (dm_ptr d) (mread msg 0 len) in
  let ptr := dm_ptr d + len in
  {| dm_ptr := ptr; dm_buffer := put8 buffer ptr 0 |}.

(** [while (len && (tmp[len - 1] == '\r' || tmp[len - 1] == '\n')) len--] on
    the reversed text. *)
Fixpoint strip_newlines (rev_text : list Z) : list Z :=
  match rev_text with
  | c :: rest => if (c =? 13) || (c =? 10) then strip_newlines rest else rev_text
  | [] => []
  end.

(** The line: [strlen] bytes of the printed text without trailing newlines,
    and one newline. *)
Definition dmesg_line (tmp : list Z) : list Z :=
  rev (strip_newlines (rev (cstring tmp))) ++ [10].

Section Vdmesg.
Context (log10 : double -> double).

Definition jd_vdmesg (d : dmesg) (format : list Z) (ap : list va) : option dmesg :=
  let tmp := replicate (Z.to_nat JD_DMESG_LINE_BUFFER) 0 in
  '(_, tmp, _) ← jd_vsprintf log10 false tmp (JD_DMESG_LINE_BUFFER - 1) format ap;
  Some (jd_dmesg_write d (dmesg_line tmp)).
End Vdmesg.

Definition jd_dmesg_startptr (d : dmesg) : Z :=
  let curr_ptr := dm_ptr d + 1 in
  if (curr_ptr >=? JD_DMESG_BUFFER_SIZE) || (get8 (dm_buffer d) curr_ptr =? 0) then 0 else curr_ptr.

Definition jd_dmesg_currptr (d : dmesg) : Z := dm_ptr d.

(** The bytes copied to [dst] and the new [*state]. *)
Definition jd_dmesg_read (d : dmesg) (space state : Z) : list Z * Z :=
  let state := if state >=? JD_DMESG_BUFFER_SIZE then 0 else state in
  let curr_ptr := if dm_ptr d <? state then JD_DMESG_BUFFER_SIZE else dm_ptr d in
  let towrite := curr_ptr - state in
  if towrite >? 0 then
    let towrite := if towrite >? space then space else towrite in
    (mread (dm_buffer d) state towrite, state + towrite)
  else ([], state).

(** The loop of [jd_dmesg_read_line]; [room] is [endp - dp]. The bytes and the
    new [sp]. *)
Fixpoint read_line_loop (room : nat) (d : dmesg) (sp : Z) (acc : list Z) : list Z * Z :=
  match room with
  | O => (acc, sp)
  | S room' =>
      let c := get8 (dm_buffer d) sp in
      let sp := sp + 1 in
      if (c =? 0) || (c =? 10) then (acc, sp)
      else
        let acc := acc ++ [c] in
        let sp := if sp =? JD_DMESG_BUFFER_SIZE then 0 else sp in
        if sp =? dm_ptr d then (acc, sp) else read_line_loop room' d sp acc
  end.

Definition jd_dmesg_read_line (d : dmesg) (space state : Z) : list Z * Z :=
  let state := if state >=? JD_DMESG_BUFFER_SIZE then 0 else state in
  if negb (state =? dm_ptr d) then read_line_loop (Z.to_nat (space - 1)) d state []
  else ([], state).

(** ** A reader that keeps up

    [W] is everything that was written. The byte at position [k] of [W] is kept
    at [k] modulo the size until it is one of the last [size - 1]. *)

Record dm_repr (d : dmesg) (W : list Z) : Prop := {
  dr_len : length (dm_buffer d) = 1024%nat;
  dr_ptr : dm_ptr d = zlen W mod JD_DMESG_BUFFER_SIZE;
  dr_bytes : forall k b, zlen W - 1023 <= Z.of_nat k -> W !! k = Some b ->
    dm_buffer d !! (k mod 1024)%nat = Some b;
}.

(** The buffer after a write, byte by byte. *)
Lemma dmesg_write_bytes d msg j :
  length (dm_buffer d) = 1024%nat -> 0 <= dm_ptr d < 1024 -> zlen msg <= 1022 -> (j < 1024)%nat ->
  let d' := jd_dmesg_write d msg in
  let i := (Z.of_nat j - dm_ptr d) mod 1024 in
  length (dm_buffer d') = 1024%nat /\ dm_ptr d' = (dm_ptr d + zlen msg) mod 1024 /\
  dm_buffer d' !! j =
    if decide (Z.of_nat j = dm_ptr d') then Some 0
    else if decide (i < zlen msg) then msg !! Z.to_nat i else dm_buffer d !! j.
Proof.
  destruct d as [p B]. cbn [dm_ptr dm_buffer]. intros Hl Hp Hm Hj. unfold jd_dmesg_write, JD_DMESG_BUFFER_SIZE.
  cbn [dm_ptr dm_buffer].
  assert (zlen B = 1024) as HB by (unfold zlen; lia). pose proof (zlen_nonneg msg).
  destruct (Z.ltb_spec (1024 - p) (zlen msg + 1)).
  - rewrite Z.gtb_ltb, (proj2 (Z.ltb_ge _ _)) by lia. cbn [dm_ptr dm_buffer]. rewrite Z.add_0_l.
    set (m1 := mread msg 0 (1024 - p)). set (m2 := mread (drop (Z.to_nat (1024 - p)) msg) 0 (zlen msg - (1024 - p))).
    assert (length m1 = Z.to_nat (1024 - p)) as L1 by (unfold m1, zlen in *; rewrite length_mread; lia).
    assert (length m2 = Z.to_nat (zlen msg - (1024 - p))) as L2
      by (unfold m2, zlen in *; rewrite length_mread; rewrite ?length_drop; lia).
    assert (length (mwrite B p m1) = 1024%nat) as L3 by (rewrite length_mwrite; lia).
    assert (length (mwrite (mwrite B p m1) 0 m2) = 1024%nat) as L4 by (rewrite length_mwrite; unfold zlen in *; lia).
    split; [unfold put8; by rewrite length_insert|]. split; [apply (Z.mod_unique_pos _ _ 1); lia|].
    unfold put8. case_decide.
    + replace (Z.to_nat (zlen msg - (1024 - p))) with j by lia.
      by rewrite list_lookup_insert_eq by lia.
    + rewrite list_lookup_insert_ne, lookup_mwrite by lia. rewrite L2. change (Z.to_nat 0) with 0%nat.
      destruct (decide (Z.of_nat j < p)).
      * assert ((Z.of_nat j - p) mod 1024 = Z.of_nat j - p + 1024) as -> by (symmetry; apply (Z.mod_unique_pos _ _ (-1)); lia).
        case_decide; case_decide; try lia.
        -- unfold m2. rewrite lookup_mread, decide_True, lookup_drop by lia. f_equal. lia.
        -- rewrite lookup_mwrite, decide_False by lia. done.
      * rewrite Z.mod_small by lia. rewrite decide_False, lookup_mwrite, decide_True, decide_True by lia.
        unfold m1. rewrite lookup_mread, decide_True by lia. f_equal. lia.
  - cbn [dm_ptr dm_buffer]. set (m1 := mread msg 0 (zlen msg)).
    assert (m1 = msg) as -> by (unfold m1, mread, zlen; rewrite Nat2Z.id; apply take_ge; simpl; lia).
    assert (length (mwrite B p msg) = 1024%nat) as L3 by (rewrite length_mwrite; unfold zlen in *; lia).
    split; [unfold put8; by rewrite length_insert|]. split; [symmetry; apply Z.mod_small; lia|].
    unfold put8. case_decide.
    + replace (Z.to_nat (p + zlen msg)) with j by lia. by rewrite list_lookup_insert_eq by lia.
    + rewrite list_lookup_insert_ne, lookup_mwrite by (unfold zlen in *; lia).
      destruct (decide (Z.of_nat j < p)).
      * assert ((Z.of_nat j - p) mod 1024 = Z.of_nat j - p + 1024) as -> by (symmetry; apply (Z.mod_unique_pos _ _ (-1)); lia).
        by rewrite !decide_False by (unfold zlen in *; lia).
      * rewrite Z.mod_small by lia. unfold zlen in *. case_decide; case_decide; try lia; try done. f_equal. lia.
Qed.

Lemma dmesg0_repr : dm_repr dmesg0 [].
Proof. constructor; [reflexivity|reflexivity|]. intros k b _ Hk. done. Qed.

Lemma jd_dmesg_write_repr d W msg :
  dm_repr d W -> zlen msg <= 1022 -> dm_repr (jd_dmesg_write d msg) (W ++ msg).
Proof.
  intros [Hl Hp Hb] Hm. unfold JD_DMESG_BUFFER_SIZE in *. pose proof (Z.mod_pos_bound (zlen W) 1024 ltac:(lia)).
  pose proof (fun j => dmesg_write_bytes d msg j Hl ltac:(lia) Hm) as Hw. cbn zeta in Hw.
  destruct (Hw 0%nat ltac:(lia)) as (Hl' & Hp' & _). constructor; [done| |].
  - rewrite Hp', Hp, zlen_app. unfold JD_DMESG_BUFFER_SIZE. apply Zplus_mod_idemp_l.
  - intros k b Hk Hkb. pose proof (lookup_lt_Some _ _ _ Hkb) as Hlt. rewrite zlen_app in Hk.
    unfold zlen in *. rewrite length_app in Hlt.
    destruct (Hw (k mod 1024)%nat (Nat.mod_upper_bound k 1024 ltac:(done))) as (_ & _ & ->). rewrite Hp', Hp.
    assert (Z.of_nat (k mod 1024) = Z.of_nat k mod 1024) as E by apply Nat2Z.inj_mod. rewrite E.
    rewrite (decide_False (P := Z.of_nat k mod 1024 = _)) by (intros E2; Z.to_euclidean_division_equations; lia).
    rewrite <- Zminus_mod. rewrite lookup_app_case in Hkb. destruct (decide (k < length W)%nat).
    + rewrite <- (Z.mod_unique_pos _ 1024 (-1) (Z.of_nat k - Z.of_nat (length W) + 1024)) by lia.
      rewrite decide_False by lia. apply Hb; [lia|done].
    + rewrite (Z.mod_small (Z.of_nat k - Z.of_nat (length W))) by lia.
      rewrite decide_True by lia. rewrite <- Hkb. f_equal. lia.
Qed.

(** [state] is the reader's variable when it has read [r] bytes. *)
Definition reader_at (state : Z) (r : nat) : Prop :=
  0 <= state <= 1024 /\ (if state =? 1024 then 0 else state) = Z.of_nat r mod 1024.

Lemma jd_dmesg_read_spec d W space state r :
  dm_repr d W -> reader_at state r -> (r <= length W)%nat -> zlen W - Z.of_nat r <= 1023 -> 0 <= space ->
  let '(bytes, state') := jd_dmesg_read d space state in
  bytes = take (length bytes) (drop r W) /\ reader_at state' (r + length bytes) /\
  (r + length bytes <= length W)%nat /\ zlen bytes <= space /\
  (bytes = [] -> space = 0 \/ r = length W).
Proof.
  intros [Hl Hp Hb] [Hs1 Hs2] Hr Hkeep Hsp. unfold jd_dmesg_read, JD_DMESG_BUFFER_SIZE in *.
  assert ((if state >=? 1024 then 0 else state) = Z.of_nat r mod 1024) as ->.
  { rewrite <- Hs2, Z.geb_leb. destruct (Z.leb_spec 1024 state), (Z.eqb_spec state 1024); lia. }
  rewrite Hp. unfold zlen in *. set (s := Z.of_nat r mod 1024) in *. set (p := Z.of_nat (length W) mod 1024) in *.
  set (n := (if p <? s then 1024 else p) - s).
  pose proof (Z.div_mod (Z.of_nat r) 1024 ltac:(lia)) as Er. fold s in Er.
  assert (0 <= s < 1024 /\ 0 <= p < 1024) as [Hs0 Hp0] by (split; apply Z.mod_pos_bound; lia).
  assert (0 <= n <= Z.of_nat (length W) - Z.of_nat r /\ s + n <= 1024 /\ (n = 0 -> r = length W)) as (Hn1 & Hn2 & Hn3).
  { pose proof (Z.div_mod (Z.of_nat (length W)) 1024 ltac:(lia)) as Ew. fold p in Ew.
    unfold n. destruct (Z.ltb_spec p s); lia. }
  assert (forall k, 0 <= k <= n -> let bytes := mread (dm_buffer d) s k in
            length bytes = Z.to_nat k /\ bytes = take (Z.to_nat k) (drop r W)) as Hread.
  { intros k Hk bytes. unfold bytes. split; [rewrite length_mread; lia|].
    apply list_eq. intros i. rewrite lookup_mread. destruct (decide (i < Z.to_nat k)%nat).
    - rewrite lookup_take_lt, lookup_drop by lia. destruct (W !! (r + i)%nat) as [b|] eqn:E.
      + rewrite <- (Hb (r + i)%nat b ltac:(lia) E). f_equal.
        apply Nat2Z.inj. rewrite Nat2Z.inj_mod, !Nat2Z.inj_add, Z2Nat.id by lia. change (Z.of_nat 1024) with 1024.
        apply (Z.mod_unique_pos _ _ (Z.of_nat r / 1024)); lia.
      + apply lookup_ge_None in E. lia.
    - rewrite lookup_take_ge by lia. done. }
  assert (forall k, 0 <= k <= n -> reader_at (s + k) (r + Z.to_nat k)) as Hat.
  { intros k Hk. split; [lia|]. rewrite Nat2Z.inj_add, Z2Nat.id by lia. destruct (Z.eqb_spec (s + k) 1024).
    - apply (Z.mod_unique_pos _ _ (Z.of_nat r / 1024 + 1)); lia.
    - apply (Z.mod_unique_pos _ _ (Z.of_nat r / 1024)); lia. }
  rewrite !Z.gtb_ltb. destruct (Z.ltb_spec 0 n).
  - set (k := if space <? n then space else n). assert (0 <= k <= n /\ k <= space /\ (k = 0 -> space = 0)) as (Hk1 & Hk2 & Hk3).
    { unfold k. case_cmp; lia. }
    destruct (Hread k Hk1) as [L E]. rewrite L. split; [exact E|]. split; [by apply Hat|].
    split; [lia|]. split; [lia|]. intros E0. rewrite E0 in L. cbn in L. left. apply Hk3. lia.
  - cbn [length]. split; [done|]. split; [rewrite Nat.add_0_r|].
    { specialize (Hat 0 ltac:(lia)). by rewrite Z.add_0_r, Nat.add_0_r in Hat. }
    split; [lia|]. split; [lia|]. intros _. right. apply Hn3. lia.
Qed.

(** Writes and reads of one reader, in any order, the reader never more than
    1023 bytes behind; [W] and [R] are all bytes written and read. *)
Inductive dm_history : dmesg -> Z -> list Z -> list Z -> Prop :=
  | dh_start : dm_history dmesg0 0 [] []
  | dh_write d state W R msg :
      dm_history d state W R -> zlen msg <= 1022 -> zlen W + zlen msg - zlen R <= 1023 ->
      dm_history (jd_dmesg_write d msg) state (W ++ msg) R
  | dh_read d state W R space bytes state' :
      dm_history d state W R -> 0 <= space -> jd_dmesg_read d space state = (bytes, state') ->
      dm_history d state' W (R ++ bytes).

Lemma dm_history_inv d state W R :
  dm_history d state W R ->
  dm_repr d W /\ reader_at state (length R) /\ R = take (length R) W /\ (length R <= length W)%nat /\
  zlen W - zlen R <= 1023.
Proof.
  induction 1 as [|d state W R msg Hh IH Hm Hk|d state W R space bytes state' Hh IH Hsp E].
  - split_and!; done || apply dmesg0_repr.
  - destruct IH as (Hr & Hat & HR & Hle & _). split_and!; try done; [by apply jd_dmesg_write_repr| | |].
    + rewrite take_app_le by done. done.
    + rewrite length_app. lia.
    + rewrite zlen_app. lia.
  - destruct IH as (Hr & Hat & HR & Hle & Hk).
    pose proof (jd_dmesg_read_spec d W space state (length R) Hr Hat Hle ltac:(unfold zlen in *; lia) Hsp) as Hspec.
    rewrite E in Hspec. destruct Hspec as (Hb & Hat' & Hle' & _ & _). rewrite length_app.
    split_and!; try done.
    + rewrite HR at 1. rewrite Hb at 1. by rewrite take_take_drop.
    + unfold zlen in *. rewrite length_app. lia.
Qed.

(** The log reader: whatever the interleaving of writes and reads, as long
    as the reader is never more than the buffer less one byte behind, the bytes
    it has read are exactly the first bytes written - none lost, none twice,
    across every wrap of the ring - and a read into any room at all returns
    something unless everything has been read. *)
Lemma dmesg_reader_in_order d state W R space :
  dm_history d state W R -> 0 < space ->
  R = take (length R) W /\
  let '(bytes, _) := jd_dmesg_read d space state in
  zlen bytes <= space /\ bytes = take (length bytes) (drop (length R) W) /\ (bytes = [] <-> R = W).
Proof.
  intros Hh Hsp. destruct (dm_history_inv _ _ _ _ Hh) as (Hr & Hat & HR & Hle & Hk). split; [done|].
  pose proof (jd_dmesg_read_spec d W space state (length R) Hr Hat Hle ltac:(unfold zlen in *; lia) ltac:(lia)) as Hspec.
  destruct (jd_dmesg_read d space state) as [bytes state']. destruct Hspec as (Hb & _ & Hle' & Hlen & He).
  split; [done|]. split; [done|]. split.
  - intros E. destruct (He E) as [|Hall]; [lia|]. rewrite HR, Hall. by rewrite take_ge by lia.
  - intros E. subst W. destruct bytes; [done|]. cbn in Hle'. lia.
Qed.
