(* ===== verification/Iface.v ===== *)
(** * Interfaces between components

    What one component uses of another, as type classes: the clients are
    modelled and verified against the class, the component behind it gives the
    instance. *)
From S2P Require Import Prelude.

(** [jd_send(service_num, service_cmd, data, service_size)] on the state [T] of
    the transmit side; the result is 0 when the packet was taken.
    Implemented by [TxRx.v]. *)
Class Sender (T : Type) := send_packet : T -> Z -> Z -> list Z -> outcome (Z * T).

(** A sender that takes every packet and keeps a log of them, oldest first. *)
Record sent := { s_index : Z; s_command : Z; s_data : list Z }.
#[export] Instance log_sender : Sender (list sent) :=
  fun log i c d => Ret (0, log ++ [{| s_index := i; s_command := c; s_data := d |}]).

#[export] Instance sent_eq_dec : EqDecision sent.
Proof. solve_decision. Defined.

(** [jd_send_frame(f)]: the result, the frame (its flags may change) and the
    new state. Implemented by [TxRx.v]. *)
Class FrameSender (T : Type) := send_frame : T -> list Z -> outcome (Z * list Z * T).

(** A frame sender that takes every frame and logs it. *)
#[export] Instance log_frame_sender : FrameSender (list (list Z)) :=
  fun log f => Ret (0, f, log ++ [f]).

(** [jd_send_event_ext(srv, eventid, data, data_bytes)] for the service with an
    index. Implemented by [EventQueue.v]. *)
Class EventSender (T : Type) := send_event : T -> Z -> Z -> list Z -> outcome T.

(** What a service sends, reports and events in one log, oldest first. *)
Inductive output := Report (s : sent) | Event (index eventid : Z) (data : list Z).
#[export] Instance output_sender : Sender (list output) :=
  fun log i c d => Ret (0, log ++ [Report {| s_index := i; s_command := c; s_data := d |}]).
#[export] Instance output_event_sender : EventSender (list output) :=
  fun log i e d => Ret (log ++ [Event i e d]).
