(* ===== verification/EventQueue.v ===== *)
(** * The event queue ([source/interfaces/event_queue.c])

    An event is sent at once and queued for two repetitions, 20 ms after the
    first transmission and 50 ms after the second. The queue is a byte buffer
    of variable-size [ev_t] records; [ev_t] is the 8-byte header [timestamp],
    [service_size], [service_index], [service_command] and the data, padded to
    words. Bit 7 of [service_index] marks an event whose first repetition was
    sent, [0xff] one that is finished but not at the front. Packets go out
    through the [Sender] interface. The abstract state is the list of queued
    events ([evq_repr]). *)
From S2P Require Import Prelude Frame Util Iface.

Definition FIRST_DELAY : Z := 20.
Definition SECOND_DELAY : Z := 50.
Definition JD_EVENT_QUEUE_SIZE : Z := 128.
Definition sizeof_ev : Z := 8.

(** [struct event_info]; [ei_init] says that [buffer] and [process] are set. *)
Record event_info := {
  ei_init : bool;
  ei_buffer : list Z;
  ei_qptr : Z;      (* uint16_t *)
  ei_counter : Z;   (* uint8_t *)
}.

Definition event_info0 : event_info :=
  {| ei_init := false; ei_buffer := []; ei_qptr := 0; ei_counter := 0 |}.

Definition ev_timestamp (b : list Z) (ev : Z) : Z := get32 b ev.
Definition ev_service_size (b : list Z) (ev : Z) : Z := get8 b (ev + 4).
Definition ev_service_index (b : list Z) (ev : Z) : Z := get8 b (ev + 5).
Definition ev_service_command (b : list Z) (ev : Z) : Z := get16 b (ev + 6).
Definition ev_data (b : list Z) (ev : Z) : list Z := mread b (ev + 8) (ev_service_size b ev).

Definition ev_size (b : list Z) (ev : Z) : Z := sizeof_ev + align4 (ev_service_size b ev).
Definition next_ev (b : list Z) (ev : Z) : Z := ev + ev_size b ev.

Definition set_buffer (info : event_info) (b : list Z) : event_info :=
  {| ei_init := ei_init info; ei_buffer := b; ei_qptr := ei_qptr info; ei_counter := ei_counter info |}.
Definition set_qptr (info : event_info) (q : Z) : event_info :=
  {| ei_init := ei_init info; ei_buffer := ei_buffer info; ei_qptr := q; ei_counter := ei_counter info |}.

Definition next_event_cmd (info : event_info) (eventid : Z) : outcome (Z * event_info) :=
  if negb (Z.shiftr eventid 8 =? 0) then Panic
  else
    let counter := u8 (ei_counter info + 1) in
    Ret (JD_CMD_EVENT_MK counter eventid,
      {| ei_init := ei_init info; ei_buffer := ei_buffer info; ei_qptr := ei_qptr info;
         ei_counter := counter |}).

Definition ev_shift (info : event_info) : event_info :=
  let offset := ev_size (ei_buffer info) 0 in
  let qptr := u16 (ei_qptr info - offset) in
  set_qptr (set_buffer info (jd_word_move (ei_buffer info) 0 offset qptr)) qptr.

Definition ev_init (info : event_info) : event_info :=
  if ei_init info then info
  else {| ei_init := true; ei_buffer := replicate (Z.to_nat JD_EVENT_QUEUE_SIZE) 0;
          ei_qptr := ei_qptr info; ei_counter := ei_counter info |}.

(** [while (JD_EVENT_QUEUE_SIZE - info.qptr < reqlen) ev_shift();] *)
Fixpoint make_room (fuel : nat) (info : event_info) (reqlen : Z) : outcome event_info :=
  match fuel with
  | O => OutOfFuel
  | S fuel' =>
      if JD_EVENT_QUEUE_SIZE - ei_qptr info <? reqlen
      then make_room fuel' (ev_shift info) reqlen else Ret info
  end.

Section WithSender.
Context `{Sender T}.

(** [ev] is the offset of the event the loop is at. *)
Fixpoint process_loop (fuel : nat) (now : Z) (info : event_info) (tx : T) (ev : Z)
    : outcome (event_info * T) :=
  match fuel with
  | O => OutOfFuel
  | S fuel' =>
      let b := ei_buffer info in
      let next info := process_loop fuel' now info in
      if negb (ev <? ei_qptr info) then Ret (info, tx)
      else if ev_service_index b ev =? 0xff then
        if ev =? 0 then next (ev_shift info) tx ev
        else next info tx (next_ev b ev)
      else if in_past now (ev_timestamp b ev) then
        '(r, tx) ← send_packet tx (Z.land (ev_service_index b ev) 0x7f)
                     (ev_service_command b ev) (ev_data b ev);
        if negb (r =? 0) then Ret (info, tx)
        else if negb (Z.land (ev_service_index b ev) 0x80 =? 0) then
          if ev =? 0 then next (ev_shift info) tx ev
          else
            let b := put8 b (ev + 5) 0xff in
            next (set_buffer info b) tx (next_ev b ev)
        else
          let b := put32 b ev (ev_timestamp b ev + SECOND_DELAY * 1000) in
          let b := put8 b (ev + 5) (Z.lor (ev_service_index b ev) 0x80) in
          next (set_buffer info b) tx (next_ev b ev)
      else next info tx (next_ev b ev)
  end.

(** Every turn frees or passes an event of at least 8 bytes. *)
Definition do_process_event_queue (now : Z) (info : event_info) (tx : T) : outcome (event_info * T) :=
  process_loop (S (Z.to_nat (ei_qptr info))) now info tx 0.

Definition jd_process_event_queue (now : Z) (info : event_info) (tx : T) : outcome (event_info * T) :=
  if ei_init info then do_process_event_queue now info tx else Ret (info, tx).

Definition jd_send_event_ext (now : Z) (in_irq : bool) (info : event_info) (tx : T)
    (service_index eventid : Z) (data : list Z) (data_bytes : Z) : outcome (event_info * T) :=
  if in_irq then Panic else
  '(cmd, info) ← next_event_cmd info eventid;
  '(_, tx) ← send_packet tx service_index cmd (mread data 0 data_bytes);
  let info := ev_init info in
  let reqlen := data_bytes + sizeof_ev in
  if reqlen >? JD_EVENT_QUEUE_SIZE then Ret (info, tx)
  else
    info ← make_room (S (Z.to_nat (ei_qptr info))) info reqlen;
    let ev := ei_qptr info in
    let b := ei_buffer info in
    let b := put8 b (ev + 4) data_bytes in
    let b := put16 b (ev + 6) cmd in
    let b := put8 b (ev + 5) service_index in
    let b := mwrite b (ev + 8) (mread data 0 data_bytes) in
    let b := put32 b ev (now + FIRST_DELAY * 1000) in
    Ret (set_qptr (set_buffer info b) (u16 (ev + ev_size b ev)), tx).

(** ** The abstract queue *)

Record event := { e_timestamp : Z; e_index : Z; e_command : Z; e_data : list Z }.

Definition e_size (e : event) : Z := sizeof_ev + align4 (zlen (e_data e)).

(** The events before the current one are [seen]. *)
Fixpoint a_process (now : Z) (tx : T) (seen rest : list event) : outcome (list event * T) :=
  match rest with
  | [] => Ret (seen, tx)
  | e :: rest' =>
      if e_index e =? 0xff then
        a_process now tx (if decide (seen = []) then [] else seen ++ [e]) rest'
      else if in_past now (e_timestamp e) then
        '(r, tx) ← send_packet tx (Z.land (e_index e) 0x7f) (e_command e) (e_data e);
        if negb (r =? 0) then Ret (seen ++ rest, tx)
        else if negb (Z.land (e_index e) 0x80 =? 0) then
          a_process now tx
            (if decide (seen = []) then []
             else seen ++ [{| e_timestamp := e_timestamp e; e_index := 0xff;
                              e_command := e_command e; e_data := e_data e |}]) rest'
        else
          a_process now tx
            (seen ++ [{| e_timestamp := u32 (e_timestamp e + SECOND_DELAY * 1000);
                         e_index := u8 (Z.lor (e_index e) 0x80);
                         e_command := e_command e; e_data := e_data e |}]) rest'
      else a_process now tx (seen ++ [e]) rest'
  end.

(** What services use: [jd_send_event_ext] outside of interrupts, and [jd_send]
    beside it. *)
Definition queue_event_sender (now : Z) : EventSender (event_info * T) :=
  fun '(info, tx) i e d => jd_send_event_ext now false info tx i e d (zlen d).
Definition queue_sender : Sender (event_info * T) :=
  fun '(info, tx) i c d => '(r, tx) ← send_packet tx i c d; Ret (r, (info, tx)).
End WithSender.

(** ** Representation *)

Definition ev_at (b : list Z) (ev : Z) : event :=
  {| e_timestamp := ev_timestamp b ev; e_index := ev_service_index b ev;
     e_command := ev_service_command b ev; e_data := ev_data b ev |}.

(** The events [es] follow each other in [b] from [off] to [stop]. *)
Fixpoint eseg (b : list Z) (off : Z) (es : list event) (stop : Z) : Prop :=
  match es with
  | [] => off = stop
  | e :: es' => ev_at b off = e /\ ev_service_size b off = zlen (e_data e) /\ eseg b (off + e_size e) es' stop
  end.

Record evq_repr (info : event_info) (es : list event) : Prop := {
  er_len : zlen (ei_buffer info) = JD_EVENT_QUEUE_SIZE;
  er_bytes : Forall is_byte (ei_buffer info);
  er_qptr : 0 <= ei_qptr info <= JD_EVENT_QUEUE_SIZE;
  er_seg : eseg (ei_buffer info) 0 es (ei_qptr info);
}.

Lemma e_size_ge e : 8 <= e_size e /\ e_size e mod 4 = 0 /\ zlen (e_data e) + 8 <= e_size e.
Proof.
  unfold e_size, sizeof_ev. pose proof (align4_bounds (zlen (e_data e))).
  pose proof (align4_mod (zlen (e_data e))). pose proof (zlen_nonneg (e_data e)).
  split_and!; try lia. word_lia.
Qed.

Lemma eseg_bounds b off es stop : eseg b off es stop -> off <= stop /\ (off mod 4 = 0 -> stop mod 4 = 0).
Proof.
  revert off; induction es as [|e es IH]; intros off; simpl; [by intros ->|].
  intros (_ & _ & [? ?]%IH). destruct (e_size_ge e) as (? & ? & ?). split; [lia|].
  intros. apply H0. word_lia.
Qed.

Lemma eseg_app b off es1 es2 stop :
  eseg b off (es1 ++ es2) stop <-> exists mid, eseg b off es1 mid /\ eseg b mid es2 stop.
Proof.
  revert off; induction es1 as [|e es IH]; intros off; simpl.
  - split; [by exists off|]. by intros (? & -> & ?).
  - rewrite (IH (off + e_size e)). split; [intros (? & ? & mid & ? & ?)|intros (mid & (? & ? & ?) & ?)]; eauto.
Qed.

Lemma eseg_nil b off es : eseg b off es off -> es = [].
Proof.
  destruct es as [|e es]; [done|]. simpl. intros (_ & _ & [? _]%eseg_bounds).
  destruct (e_size_ge e). lia.
Qed.

Lemma ev_size_at b off e es stop : eseg b off (e :: es) stop -> ev_size b off = e_size e.
Proof. intros (_ & Hs & _). unfold ev_size, e_size. by rewrite Hs. Qed.

(** Buffers that agree from [off] to [stop], up to a displacement, hold the
    same events there. *)
Lemma ev_at_agree b b' off d n :
  0 <= off -> 0 <= off + d -> 8 <= n -> 0 <= ev_service_size b off <= n - 8 ->
  (forall o k, off <= o -> 0 <= k -> o + k <= off + n -> mread b' (o + d) k = mread b o k) ->
  ev_at b' (off + d) = ev_at b off /\ ev_service_size b' (off + d) = ev_service_size b off.
Proof.
  intros Ho Hd Hn Hs Hag.
  assert (forall k, 0 <= k < n -> get8 b' (off + d + k) = get8 b (off + k)) as Hg.
  { intros k Hk. rewrite (get8_mread0 b') by lia. rewrite (get8_mread0 b) by lia.
    rewrite <- (Hag (off + k)) by lia. do 2 f_equal. lia. }
  assert (ev_service_size b' (off + d) = ev_service_size b off) as Hsz by (apply Hg; lia).
  split; [|done]. unfold ev_at, ev_timestamp, ev_service_index, ev_service_command, ev_data, get32, get16.
  rewrite Hsz, Hg by lia. rewrite Hag by lia.
  replace (off + d + 6) with (off + 6 + d) by lia. replace (off + d + 8) with (off + 8 + d) by lia.
  rewrite !Hag by lia. done.
Qed.

Lemma eseg_agree b b' d es : forall off stop,
  0 <= off -> 0 <= off + d ->
  (forall o k, off <= o -> 0 <= k -> o + k <= stop -> mread b' (o + d) k = mread b o k) ->
  eseg b off es stop -> eseg b' (off + d) es (stop + d).
Proof.
  induction es as [|e es IH]; intros off stop Ho Hd Hag; cbn [eseg]; [lia|].
  intros (He & Hs & Hseg). destruct (e_size_ge e) as (? & ? & ?). pose proof (zlen_nonneg (e_data e)).
  pose proof (proj1 (eseg_bounds _ _ _ _ Hseg)).
  destruct (ev_at_agree b b' off d (e_size e)) as [Ha Hsz]; try lia; [intros; apply Hag; lia|].
  split_and!; [by rewrite Ha|by rewrite Hsz|].
  replace (off + d + e_size e) with (off + e_size e + d) by lia.
  apply IH; try lia; [|done]. intros. apply Hag; lia.
Qed.

(** A write outside the events. *)
Lemma eseg_mwrite b off es stop w src :
  0 <= off -> 0 <= w -> w + zlen src <= zlen b -> stop <= w \/ w + zlen src <= off ->
  eseg b off es stop -> eseg (mwrite b w src) off es stop.
Proof.
  intros Ho Hw Hl Hout Hseg. rewrite <- (Z.add_0_r off), <- (Z.add_0_r stop).
  apply (eseg_agree b); try lia; [|done]. intros o k ? ? ?. rewrite Z.add_0_r.
  pose proof (zlen_nonneg src). apply mread_mwrite_out; lia.
Qed.

(** ** The steps *)

Lemma get32_put32 m i v : 0 <= i -> i + 4 <= zlen m -> get32 (put32 m i v) i = u32 v.
Proof.
  unfold zlen. intros. unfold get32, put32.
  change 4 with (zlen (le_bytes 4 v)) at 1. rewrite mread_mwrite_eq by (rewrite length_le_bytes; lia).
  by rewrite le_val_le_bytes.
Qed.

Lemma ev_shift_repr info e es :
  evq_repr info (e :: es) -> evq_repr (ev_shift info) es /\
  ei_qptr (ev_shift info) = ei_qptr info - e_size e /\ ei_init (ev_shift info) = ei_init info.
Proof.
  intros [Hl Hb Hq Hseg]. pose proof (ev_size_at _ _ _ _ _ Hseg) as Hsz.
  destruct (e_size_ge e) as (? & ? & ?). unfold JD_EVENT_QUEUE_SIZE in *.
  destruct (eseg_bounds _ _ _ _ Hseg) as [_ Hm]. specialize (Hm eq_refl).
  destruct Hseg as (_ & _ & Hseg). rewrite Z.add_0_l in Hseg.
  pose proof (proj1 (eseg_bounds _ _ _ _ Hseg)) as Hle.
  unfold ev_shift. rewrite Hsz. cbn [set_qptr set_buffer ei_qptr ei_buffer ei_init].
  rewrite u16_small by lia. set (q := ei_qptr info - e_size e) in *.
  assert (q mod 4 = 0) as Hq4 by (unfold q; word_lia).
  assert (jd_word_move (ei_buffer info) 0 (e_size e) q =
    mwrite (ei_buffer info) 0 (mread (ei_buffer info) (e_size e) q)) as Hmv.
  { unfold jd_word_move. rewrite Z.shiftr_div_pow2 by lia. change (2 ^ 2) with 4.
    assert (q = 4 * (q / 4)) as Hq' by word_lia. assert (0 <= q / 4) by word_lia.
    rewrite word_move_loop_mwrite by (rewrite ?Z2Nat.id; lia). rewrite Z2Nat.id by lia. by rewrite <- Hq'. }
  rewrite Hmv. assert (zlen (mread (ei_buffer info) (e_size e) q) = q) as Hrl by (apply zlen_mread; lia).
  split_and!; try done. constructor; cbn; unfold JD_EVENT_QUEUE_SIZE.
  - rewrite zlen_mwrite; lia.
  - auto with jd.
  - lia.
  - pose proof (eseg_agree (ei_buffer info) (mwrite (ei_buffer info) 0 (mread (ei_buffer info) (e_size e) q))
      (- e_size e) es (e_size e) (ei_qptr info)) as Hag.
    replace (e_size e + - e_size e) with 0 in Hag by lia.
    replace (ei_qptr info + - e_size e) with q in Hag by lia. apply Hag; try lia; [|done].
    intros o k ? ? ?. apply list_eq; intros i. unfold zlen in *.
    rewrite !lookup_mread, lookup_mwrite, lookup_mread by lia.
    repeat case_decide; try lia; try done. f_equal. lia.
Qed.

Lemma make_room_repr fuel : forall info es reqlen,
  evq_repr info es -> reqlen <= JD_EVENT_QUEUE_SIZE -> ei_qptr info < Z.of_nat fuel ->
  exists info' k, make_room fuel info reqlen = Ret info' /\ evq_repr info' (drop k es) /\
    reqlen <= JD_EVENT_QUEUE_SIZE - ei_qptr info' /\
    (ei_init info' = ei_init info /\ ei_counter info' = ei_counter info) /\
    (reqlen <= JD_EVENT_QUEUE_SIZE - ei_qptr info -> k = 0%nat).
Proof.
  induction fuel as [|fuel IH]; intros info es reqlen Hr Hreq Hf; [destruct Hr; lia|].
  cbn [make_room]. case_cmp; [|exists info, 0%nat; by split_and!].
  destruct es as [|e es]; [destruct Hr as [? ? ? Hs]; simpl in Hs; lia|].
  destruct (ev_shift_repr info e es Hr) as (Hr' & Hq & Hi). destruct (e_size_ge e).
  destruct (IH (ev_shift info) es reqlen Hr' Hreq) as (info' & k & Hm & Hr'' & Hfit & [Hi' Hc'] & _); [lia|].
  exists info', (S k). split_and!; try done; try congruence; lia.
Qed.

(** *** Updating the event at [off] in place *)

Definition with_index (e : event) (v : Z) : event :=
  {| e_timestamp := e_timestamp e; e_index := v; e_command := e_command e; e_data := e_data e |}.
Definition with_timestamp (e : event) (v : Z) : event :=
  {| e_timestamp := v; e_index := e_index e; e_command := e_command e; e_data := e_data e |}.

Lemma eseg_put_index b off e stop v :
  0 <= off -> stop <= zlen b -> 0 <= v < 256 -> eseg b off [e] stop ->
  eseg (put8 b (off + 5) v) off [with_index e v] stop.
Proof.
  intros Ho Hst Hv (He & Hs & Hseg). simpl in Hseg. destruct (e_size_ge e) as (? & ? & ?).
  pose proof (zlen_nonneg (e_data e)). cbn [eseg]. rewrite <- He in *. cbn in *.
  assert (ev_service_size (put8 b (off + 5) v) off = ev_service_size b off) as Hsz
    by (apply get8_put8_ne; lia).
  split_and!; [|by rewrite Hsz|done]. unfold ev_at, with_index, ev_data. rewrite Hsz. cbn. f_equal.
  - unfold ev_timestamp, get32. by rewrite mread_put8_ne by lia.
  - unfold ev_service_index. rewrite get8_put8 by lia. by apply u8_small.
  - unfold ev_service_command, get16. by rewrite mread_put8_ne by lia.
  - by rewrite mread_put8_ne by lia.
Qed.

Lemma eseg_put_timestamp b off e stop v :
  0 <= off -> stop <= zlen b -> eseg b off [e] stop ->
  eseg (put32 b off v) off [with_timestamp e (u32 v)] stop.
Proof.
  intros Ho Hst (He & Hs & Hseg). simpl in Hseg. destruct (e_size_ge e) as (? & ? & ?).
  pose proof (zlen_nonneg (e_data e)). cbn [eseg]. rewrite <- He in *. cbn in *.
  assert (zlen (le_bytes 4 v) = 4) as H4 by done.
  assert (ev_service_size (put32 b off v) off = ev_service_size b off) as Hsz
    by (apply get8_mwrite_ne; lia).
  split_and!; [|by rewrite Hsz|done]. unfold ev_at, with_timestamp, ev_data. rewrite Hsz. cbn. f_equal.
  - unfold ev_timestamp. apply get32_put32; lia.
  - unfold ev_service_index. apply get8_mwrite_ne; lia.
  - unfold ev_service_command, get16, put32. by rewrite mread_mwrite_out by lia.
  - unfold put32. by rewrite mread_mwrite_out by lia.
Qed.

(** The queue seen from the event the loop is at. *)
Record evq_at (info : event_info) (seen : list event) (off : Z) (rest : list event) : Prop := {
  ea_len : zlen (ei_buffer info) = JD_EVENT_QUEUE_SIZE;
  ea_bytes : Forall is_byte (ei_buffer info);
  ea_qptr : 0 <= ei_qptr info <= JD_EVENT_QUEUE_SIZE;
  ea_seen : eseg (ei_buffer info) 0 seen off;
  ea_rest : eseg (ei_buffer info) off rest (ei_qptr info);
}.

Lemma evq_at_0 info es : evq_at info [] 0 es <-> evq_repr info es.
Proof. split; intros []; constructor; done. Qed.

Lemma evq_at_repr info seen off rest : evq_at info seen off rest -> evq_repr info (seen ++ rest).
Proof. intros []. constructor; try done. apply eseg_app. eauto. Qed.

Lemma evq_at_next info seen off e rest :
  evq_at info seen off (e :: rest) ->
  evq_at info (seen ++ [e]) (next_ev (ei_buffer info) off) rest.
Proof.
  intros [? ? ? Hs Hr]. unfold next_ev. rewrite (ev_size_at _ _ _ _ _ Hr).
  destruct Hr as (? & ? & ?). constructor; try done.
  apply eseg_app. exists off. split; [done|]. by cbn.
Qed.

(** [off] is the front of the buffer exactly when no event was seen. *)
Lemma evq_at_front info seen off rest : evq_at info seen off rest -> off = 0 <-> seen = [].
Proof.
  intros [? ? ? Hs Hr]. split; intros ->; [by eapply eseg_nil|]. by simpl in Hs.
Qed.

(** The buffer rewritten inside the current event. *)
Lemma evq_at_update info seen off e rest b' e' :
  evq_at info seen off (e :: rest) -> zlen b' = zlen (ei_buffer info) -> Forall is_byte b' ->
  e_size e' = e_size e -> eseg b' off [e'] (off + e_size e) ->
  (forall o k, 0 <= o -> 0 <= k -> o + k <= off \/ off + e_size e <= o ->
    mread b' o k = mread (ei_buffer info) o k) ->
  evq_at (set_buffer info b') (seen ++ [e']) (next_ev b' off) rest.
Proof.
  intros [Hl ? Hq Hs Hr] Hl' Hb' Hsz He' Hag. pose proof (proj1 (eseg_bounds _ _ _ _ Hs)).
  pose proof Hr as (_ & _ & Hr'). destruct (e_size_ge e).
  pose proof (proj1 (eseg_bounds _ _ _ _ Hr')).
  assert (next_ev b' off = off + e_size e) as -> by (unfold next_ev; rewrite (ev_size_at _ _ _ _ _ He'); lia).
  constructor; cbn; try done; [congruence| |].
  - apply eseg_app. exists off. split; [|done]. rewrite <- (Z.add_0_r 0), <- (Z.add_0_r off).
    apply (eseg_agree (ei_buffer info)); try lia; [|done]. intros. rewrite Z.add_0_r. apply Hag; lia.
  - rewrite <- (Z.add_0_r (off + e_size e)), <- (Z.add_0_r (ei_qptr info)).
    apply (eseg_agree (ei_buffer info)); try lia; [|done]. intros. rewrite Z.add_0_r. apply Hag; lia.
Qed.

Lemma evq_at_finish info seen off e rest :
  evq_at info seen off (e :: rest) ->
  let b' := put8 (ei_buffer info) (off + 5) 0xff in
  evq_at (set_buffer info b') (seen ++ [with_index e 0xff]) (next_ev b' off) rest.
Proof.
  intros Hat b'. pose proof Hat as [Hl Hb Hq Hs Hr]. pose proof (proj1 (eseg_bounds _ _ _ _ Hs)).
  pose proof Hr as (He1 & He2 & Hr'). pose proof (proj1 (eseg_bounds _ _ _ _ Hr')).
  destruct (e_size_ge e) as (? & _ & _).
  eapply evq_at_update; eauto; unfold b'; rewrite ?zlen_put8; auto with jd.
  - apply eseg_put_index; try lia. by split_and!.
  - intros. apply mread_put8_ne; lia.
Qed.

Lemma evq_at_repeated info seen off e rest :
  evq_at info seen off (e :: rest) -> is_byte (Z.lor (e_index e) 0x80) ->
  let b := put32 (ei_buffer info) off (ev_timestamp (ei_buffer info) off + SECOND_DELAY * 1000) in
  let b' := put8 b (off + 5) (Z.lor (ev_service_index b off) 0x80) in
  evq_at (set_buffer info b')
    (seen ++ [with_index (with_timestamp e (u32 (e_timestamp e + SECOND_DELAY * 1000)))
                (u8 (Z.lor (e_index e) 0x80))]) (next_ev b' off) rest.
Proof.
  intros Hat Hidx b b'. pose proof Hat as [Hl Hb Hq Hs Hr]. pose proof (proj1 (eseg_bounds _ _ _ _ Hs)).
  pose proof Hr as (He1 & He2 & Hr'). pose proof (proj1 (eseg_bounds _ _ _ _ Hr')).
  destruct (e_size_ge e) as (? & _ & _).
  assert (zlen b = zlen (ei_buffer info)) as Hlb
    by (apply zlen_mwrite; change (zlen (le_bytes 4 _)) with 4; lia).
  assert (eseg b off [with_timestamp e (u32 (e_timestamp e + SECOND_DELAY * 1000))] (off + e_size e)) as Hts.
  { replace (e_timestamp e) with (ev_timestamp (ei_buffer info) off) by by rewrite <- He1.
    apply eseg_put_timestamp; try lia. by split_and!. }
  assert (ev_service_index b off = e_index e) as Hi by (destruct Hts as (Ht & _); apply (f_equal e_index) in Ht; exact Ht).
  eapply evq_at_update; eauto; unfold b'; rewrite ?zlen_put8; auto with jd.
  - apply Forall_put8. unfold b, put32. auto with jd.
  - rewrite Hi, u8_small by done. apply eseg_put_index; try lia; done.
  - intros o k ? ? ?. rewrite mread_put8_ne by lia. unfold b, put32.
    apply mread_mwrite_out; change (zlen (le_bytes 4 _)) with 4; lia.
Qed.

Lemma evq_at_shift info off e rest :
  evq_at info [] off (e :: rest) -> evq_at (ev_shift info) [] 0 rest /\
  ei_qptr (ev_shift info) = ei_qptr info - e_size e /\ ei_init (ev_shift info) = ei_init info.
Proof.
  intros Hat. assert (off = 0) as -> by by eapply evq_at_front.
  apply evq_at_0 in Hat. destruct (ev_shift_repr _ _ _ Hat) as (? & ? & ?).
  split_and!; try done. by apply evq_at_0.
Qed.

(** ** Refinement *)

Fixpoint e_sizes (es : list event) : Z :=
  match es with [] => 0 | e :: es' => e_size e + e_sizes es' end.

Lemma eseg_sizes b off es stop : eseg b off es stop -> stop = off + e_sizes es.
Proof.
  revert off; induction es as [|e es IH]; intros off; simpl; [lia|].
  intros (_ & _ & ->%IH). lia.
Qed.

Lemma e_sizes_nonneg es : 0 <= e_sizes es.
Proof. induction es as [|e es IH]; simpl; [lia|]. destruct (e_size_ge e). lia. Qed.

(** What the loop reads of the event it is at. *)
Lemma evq_at_fields info seen off e rest :
  evq_at info seen off (e :: rest) -> let b := ei_buffer info in
  (off <? ei_qptr info) = true /\ (off =? 0) = bool_decide (seen = []) /\
  ev_service_index b off = e_index e /\ ev_timestamp b off = e_timestamp e /\
  ev_service_command b off = e_command e /\ ev_data b off = e_data e /\
  is_byte (e_index e) /\ is_byte (Z.lor (e_index e) 0x80).
Proof.
  intros Hat b. pose proof (evq_at_front _ _ _ _ Hat) as Hfront. destruct Hat as [Hl Hb Hq Hs Hr].
  pose proof Hr as (He1 & He2 & Hr'). pose proof (proj1 (eseg_bounds _ _ _ _ Hr')).
  destruct (e_size_ge e) as (? & _ & _).
  assert (is_byte (e_index e)) as Hib by (rewrite <- He1; by apply get8_is_byte).
  split_and!; try (by rewrite <- He1); [by apply Z.ltb_lt; lia| |done|].
  - destruct (Z.eqb_spec off 0); [rewrite bool_decide_eq_true_2|rewrite bool_decide_eq_false_2]; tauto.
  - apply (lor_range _ _ 8); [lia|exact Hib|lia].
Qed.

Section Refinement.
Context `{Sender T}.

(** Two outcomes agree: the same result from related states, or no result. *)
Definition refines (m : outcome (event_info * T)) (a : outcome (list event * T)) (init : bool) : Prop :=
  match a with
  | Ret (es, tx) => exists info, m = Ret (info, tx) /\ evq_repr info es /\ ei_init info = init
  | Panic => m = Panic
  | OutOfFuel => m = OutOfFuel
  end.

Lemma process_loop_refines rest : forall fuel now info tx seen off,
  evq_at info seen off rest -> e_sizes rest < Z.of_nat fuel ->
  refines (process_loop fuel now info tx off) (a_process now tx seen rest) (ei_init info).
Proof.
  induction rest as [|e rest IH]; intros [|fuel] now info tx seen off Hat Hfuel;
    cbn [e_sizes] in Hfuel; try lia; cbn [process_loop a_process].
  { pose proof (ea_rest _ _ _ _ Hat) as Hr. simpl in Hr. subst off. rewrite Z.ltb_irrefl. cbn.
    exists info. split_and!; try done. apply evq_at_repr in Hat. by rewrite app_nil_r in Hat. }
  { pose proof (e_sizes_nonneg rest). destruct (e_size_ge e). lia. }
  destruct (evq_at_fields _ _ _ _ _ Hat) as (-> & -> & -> & Hts & -> & -> & Hib & Hlb).
  rewrite Hts. cbn [negb]. destruct (e_size_ge e) as (Hge & _ & _).
  assert (forall tx', seen = [] -> refines (process_loop fuel now (ev_shift info) tx' off)
    (a_process now tx' [] rest) (ei_init info)) as Hshift.
  { intros tx' ->. destruct (evq_at_shift _ _ _ _ Hat) as (Hat' & Hq' & <-).
    rewrite (proj2 (evq_at_front _ _ _ _ Hat) eq_refl). apply IH; [done|lia]. }
  assert (forall tx', refines (process_loop fuel now info tx' (next_ev (ei_buffer info) off))
    (a_process now tx' (seen ++ [e]) rest) (ei_init info)) as Hnx.
  { intros tx'. apply IH; [by apply evq_at_next|lia]. }
  destruct (Z.eqb_spec (e_index e) 0xff) as [|Hnff].
  { case_bool_decide; [rewrite decide_True by done; auto|rewrite decide_False by done; auto]. }
  destruct (in_past now (e_timestamp e)); [|apply Hnx].
  destruct (send_packet tx (Z.land (e_index e) 0x7f) (e_command e) (e_data e)) as [[r tx']| |]; cbn; try done.
  destruct (negb (r =? 0)); [exists info; split_and!; try done; by eapply evq_at_repr|].
  destruct (negb (Z.land (e_index e) 0x80 =? 0)).
  - case_bool_decide; [rewrite decide_True by done; auto|rewrite decide_False by done].
    pose proof (evq_at_finish _ _ _ _ _ Hat) as Hat'. cbv zeta in Hat'.
    apply (IH fuel now (set_buffer info _) tx'); [exact Hat'|lia].
  - pose proof (evq_at_repeated _ _ _ _ _ Hat Hlb) as Hat'. cbv zeta in Hat'. rewrite Hts in Hat'.
    apply (IH fuel now (set_buffer info _) tx'); [exact Hat'|lia].
Qed.

Lemma process_refines now info tx es :
  evq_repr info es ->
  refines (do_process_event_queue now info tx) (a_process now tx [] es) (ei_init info).
Proof.
  intros Hr. apply process_loop_refines; [by apply evq_at_0|].
  destruct Hr as [_ _ Hq Hs]. rewrite (eseg_sizes _ _ _ _ Hs) in *. lia.
Qed.

(** *** Adding an event *)

Definition new_event (now idx cmd : Z) (data : list Z) : event :=
  {| e_timestamp := u32 (now + FIRST_DELAY * 1000); e_index := idx; e_command := cmd; e_data := data |}.
End Refinement.

(** The header and data are written behind the queued events. *)
Lemma evq_repr_write info es now idx cmd data :
  evq_repr info es -> is_byte idx -> 0 <= cmd < 65536 -> Forall is_byte data ->
  zlen data + 8 <= JD_EVENT_QUEUE_SIZE - ei_qptr info ->
  let ev := ei_qptr info in
  let b := put8 (ei_buffer info) (ev + 4) (zlen data) in
  let b := put16 b (ev + 6) cmd in
  let b := put8 b (ev + 5) idx in
  let b := mwrite b (ev + 8) data in
  let b := put32 b ev (now + FIRST_DELAY * 1000) in
  evq_repr (set_qptr (set_buffer info b) (u16 (ev + ev_size b ev))) (es ++ [new_event now idx cmd data]).
Proof.
  intros [Hl Hb Hq Hs] Hi Hc Hd Hfit ev b1 b2 b3 b4 b. unfold JD_EVENT_QUEUE_SIZE in *. unfold is_byte in Hi.
  pose proof (zlen_nonneg data). pose proof (proj2 (eseg_bounds _ _ _ _ Hs) eq_refl) as H4.
  assert (zlen b1 = 128) as H1 by (unfold b1; by rewrite zlen_put8).
  assert (zlen b2 = 128) as H2 by (unfold b2, put16; rewrite zlen_mwrite; change (zlen (le_bytes 2 _)) with 2; lia).
  assert (zlen b3 = 128) as H3 by (unfold b3; by rewrite zlen_put8).
  assert (zlen b4 = 128) as H5 by (unfold b4; rewrite zlen_mwrite; lia).
  assert (zlen b = 128) as H6 by (unfold b, put32; rewrite zlen_mwrite; change (zlen (le_bytes 4 _)) with 4; lia).
  assert (zlen (le_bytes 4 (now + FIRST_DELAY * 1000)) = 4) as L4 by done.
  assert (zlen (le_bytes 2 cmd) = 2) as L2 by done.
  assert (forall o n, 0 <= o -> 0 <= n -> o + n <= ev -> mread b o n = mread (ei_buffer info) o n) as Hag.
  { intros o n ? ? ?. unfold b, put32. rewrite mread_mwrite_out by lia. unfold b4. rewrite mread_mwrite_out by lia.
    unfold b3. rewrite mread_put8_ne by lia. unfold b2, put16. rewrite mread_mwrite_out by lia.
    unfold b1. by apply mread_put8_ne; lia. }
  assert (ev_service_size b ev = zlen data) as Hsz.
  { unfold ev_service_size, b, put32. rewrite get8_mwrite_ne by lia. unfold b4. rewrite get8_mwrite_ne by lia.
    unfold b3. rewrite get8_put8_ne by lia. unfold b2, put16. rewrite get8_mwrite_ne by lia.
    unfold b1. rewrite get8_put8 by lia. apply u8_small. lia. }
  assert (ev_at b ev = new_event now idx cmd data) as Hev.
  { unfold ev_at, new_event, ev_data. rewrite Hsz. f_equal.
    - apply get32_put32; lia.
    - unfold ev_service_index, b, put32. rewrite get8_mwrite_ne by lia. unfold b4. rewrite get8_mwrite_ne by lia.
      unfold b3. rewrite get8_put8 by lia. by apply u8_small.
    - unfold ev_service_command, get16, b, put32. rewrite mread_mwrite_out by lia. unfold b4.
      rewrite mread_mwrite_out by lia. unfold b3. rewrite mread_put8_ne by lia.
      fold (get16 b2 (ev + 6)). unfold b2. rewrite get16_put16 by lia. by apply u16_small.
    - unfold b, put32. rewrite mread_mwrite_out by lia. apply mread_mwrite_eq. unfold zlen in *. lia. }
  assert (Forall is_byte b) as Hbb by (unfold b, put32, b4, b3, b2, put16, b1; auto 10 with jd).
  clearbody b. unfold ev_size. rewrite Hsz. pose proof (align4_bounds (zlen data)).
  pose proof (align4_mod (zlen data)). unfold sizeof_ev. assert (ev + (8 + align4 (zlen data)) <= 128) by word_lia.
  rewrite u16_small by lia. constructor; cbn; unfold JD_EVENT_QUEUE_SIZE; try done; try lia.
  apply eseg_app. exists ev. split; [|by split_and!].
  rewrite <- (Z.add_0_r 0), <- (Z.add_0_r ev). apply (eseg_agree (ei_buffer info)); try lia; [|done].
  intros. rewrite Z.add_0_r. apply Hag; lia.
Qed.

(** ** The queue over time *)

(** Before the first event there is no buffer. *)
Definition evq_inv (info : event_info) (es : list event) : Prop :=
  0 <= ei_counter info < 256 /\
  if ei_init info then evq_repr info es else es = [] /\ ei_qptr info = 0.

Lemma ev_init_repr info es : evq_inv info es ->
  evq_repr (ev_init info) es /\ ei_init (ev_init info) = true /\
  ei_qptr (ev_init info) = ei_qptr info /\ ei_counter (ev_init info) = ei_counter info.
Proof.
  unfold evq_inv, ev_init. intros [_ H]. destruct (ei_init info) eqn:E; [by split_and!|].
  destruct H as [-> H0]. split_and!; try done. constructor; cbn; try lia.
  - done.
  - by apply Forall_replicate.
  - unfold JD_EVENT_QUEUE_SIZE. lia.
Qed.

Lemma event_mk_range c i : 0 <= c < 256 -> 0 <= i < 256 -> 0 <= JD_CMD_EVENT_MK c i < 65536.
Proof.
  intros Hc Hi. unfold JD_CMD_EVENT_MK, JD_CMD_EVENT_COUNTER_MASK, JD_CMD_EVENT_CODE_MASK,
    JD_CMD_EVENT_MASK, JD_CMD_EVENT_COUNTER_SHIFT.
  change 0x7f with (Z.ones 7). change 0xff with (Z.ones 8). rewrite !Z.land_ones, Z.shiftl_mul_pow2 by lia.
  apply (lor_range _ _ 16); [lia| |word_lia]. apply (lor_range _ _ 16); [lia|done|word_lia].
Qed.

Lemma jd_send_event_ext_spec `{Sender T} now info (tx : T) es idx eventid data :
  evq_inv info es -> is_byte idx -> 0 <= eventid < 256 -> Forall is_byte data -> zlen data <= 120 ->
  let cmd := JD_CMD_EVENT_MK (u8 (ei_counter info + 1)) eventid in
  jd_send_event_ext now false info tx idx eventid data (zlen data) =
    ('(_, tx) ← send_packet tx idx cmd data;
     info' ← make_room (S (Z.to_nat (ei_qptr info)))
       {| ei_init := true; ei_buffer := ei_buffer (ev_init info); ei_qptr := ei_qptr info;
          ei_counter := u8 (ei_counter info + 1) |} (zlen data + sizeof_ev);
     let ev := ei_qptr info' in
     let b := put8 (ei_buffer info') (ev + 4) (zlen data) in
     let b := put16 b (ev + 6) cmd in
     let b := put8 b (ev + 5) idx in
     let b := mwrite b (ev + 8) data in
     let b := put32 b ev (now + FIRST_DELAY * 1000) in
     Ret (set_qptr (set_buffer info' b) (u16 (ev + ev_size b ev)), tx)).
Proof.
  intros Hinv Hi He Hd Hl cmd. unfold jd_send_event_ext, next_event_cmd.
  rewrite Z.shiftr_div_pow2, Z.div_small by lia. cbn.
  assert (mread data 0 (zlen data) = data) as -> by (unfold mread, zlen; rewrite Nat2Z.id; by apply firstn_all).
  fold cmd. destruct (send_packet tx idx cmd data) as [[r tx']| |]; try done. cbn.
  unfold sizeof_ev, JD_EVENT_QUEUE_SIZE. rewrite Z.gtb_ltb, (proj2 (Z.ltb_ge _ _)) by lia.
  unfold ev_init at 1 2. cbn. destruct (ei_init info) eqn:E; cbn; unfold ev_init; rewrite E; done.
Qed.

(** A queued event replaces the oldest ones that do not fit any more. *)
Lemma jd_send_event_ext_queues `{Sender T} now info (tx tx1 : T) es idx eventid data r :
  evq_inv info es -> is_byte idx -> 0 <= eventid < 256 -> Forall is_byte data -> zlen data <= 120 ->
  let cmd := JD_CMD_EVENT_MK (u8 (ei_counter info + 1)) eventid in
  send_packet tx idx cmd data = Ret (r, tx1) ->
  exists info' k,
    jd_send_event_ext now false info tx idx eventid data (zlen data) = Ret (info', tx1) /\
    evq_inv info' (drop k es ++ [new_event now idx cmd data]) /\
    ei_counter info' = u8 (ei_counter info + 1) /\
    (zlen data + sizeof_ev <= JD_EVENT_QUEUE_SIZE - ei_qptr info -> k = 0%nat).
Proof.
  intros Hinv Hi He Hd Hl cmd Hsend.
  pose proof (jd_send_event_ext_spec now info tx es idx eventid data Hinv Hi He Hd Hl) as Hspec.
  cbv zeta in Hspec. fold cmd in Hspec. rewrite Hspec, Hsend. cbn [mbind outcome_bind].
  destruct (ev_init_repr info es Hinv) as (Hr & _ & Hq & _).
  set (info1 := {| ei_init := true |}).
  assert (evq_repr info1 es) as Hr1 by (destruct Hr; rewrite Hq in *; by constructor).
  destruct (make_room_repr (S (Z.to_nat (ei_qptr info))) info1 es (zlen data + sizeof_ev)) as
    (info' & k & -> & Hr' & Hfit & [Hi' Hc] & Hk); [done|unfold sizeof_ev, JD_EVENT_QUEUE_SIZE; lia| |].
  { destruct Hr as [_ _ Hq' _]. rewrite Hq in Hq'. cbn. lia. }
  cbn [mbind outcome_bind]. cbv zeta.
  pose proof (event_mk_range (u8 (ei_counter info + 1)) eventid (u8_range _) He) as Hcmd. fold cmd in Hcmd.
  pose proof (evq_repr_write info' (drop k es) now idx cmd data Hr' Hi Hcmd Hd) as Hw. cbv zeta in Hw.
  eexists _, k. split_and!; [done| |exact Hc|exact Hk].
  split; [cbn; rewrite Hc; apply u8_range|]. cbn. rewrite Hi'. cbn. apply Hw. unfold sizeof_ev in *. lia.
Qed.

(** ** Repetition accounting

    With a transport that takes every packet, the packets an event still owes
    are two when it was just queued, one after its first repetition. *)

Definition e_key (e : event) : sent :=
  {| s_index := Z.land (e_index e) 0x7f; s_command := e_command e; s_data := e_data e |}.
Definition e_left (e : event) : nat :=
  if e_index e =? 0xff then 0 else if negb (Z.land (e_index e) 0x80 =? 0) then 1 else 2.

Definition count (key : sent) (log : list sent) : nat := length (filter (key =.) log).
Fixpoint pending (key : sent) (es : list event) : nat :=
  match es with
  | [] => 0
  | e :: es' => (if decide (key = e_key e) then e_left e else 0) + pending key es'
  end.

(** Service indices are at most [0x30]; [0x7f] would be read as finished. *)
Definition e_ok (e : event) : Prop := is_byte (e_index e) /\ (e_index e = 0xff \/ Z.land (e_index e) 0x7f <> 0x7f).

Lemma count_app key l1 l2 : count key (l1 ++ l2) = (count key l1 + count key l2)%nat.
Proof. unfold count. by rewrite filter_app, length_app. Qed.

Lemma pending_app key l1 l2 : pending key (l1 ++ l2) = (pending key l1 + pending key l2)%nat.
Proof. induction l1 as [|e l1 IH]; simpl; lia. Qed.

Lemma pending_drop key k es : (pending key (drop k es) <= pending key es)%nat.
Proof. rewrite <- (take_drop k es) at 2. rewrite pending_app. lia. Qed.

(** Marking the first repetition keeps the key and leaves one packet. *)
Lemma e_repeated e ts :
  e_ok e -> e_index e <> 0xff -> Z.land (e_index e) 0x80 = 0 ->
  let e' := with_index (with_timestamp e ts) (u8 (Z.lor (e_index e) 0x80)) in
  e_ok e' /\ e_key e' = e_key e /\ e_left e' = 1%nat /\ e_left e = 2%nat.
Proof.
  intros [Hb Hok] Hff H80 e'. destruct Hok as [|Hok]; [done|]. unfold is_byte in Hb.
  assert (u8 (Z.lor (e_index e) 0x80) = Z.lor (e_index e) 0x80) as Hu
    by (apply u8_small, (lor_range _ _ 8); lia).
  assert (Z.land (Z.lor (e_index e) 0x80) 0x7f = Z.land (e_index e) 0x7f) as H7.
  { rewrite Z.land_lor_distr_l. change (Z.land 128 127) with 0. apply Z.lor_0_r. }
  assert (Z.land (Z.lor (e_index e) 0x80) 0x80 = 0x80) as H8.
  { rewrite Z.land_lor_distr_l, H80. done. }
  unfold e', e_ok, e_key, e_left, with_index, with_timestamp. cbn. rewrite Hu, H7, H8, H80.
  split_and!; try done.
  - apply (lor_range _ _ 8); lia.
  - right. done.
  - rewrite (proj2 (Z.eqb_neq (Z.lor _ _) 0xff)); [done|]. intros E. rewrite E in H7. by symmetry in H7.
  - rewrite (proj2 (Z.eqb_neq (e_index e) 0xff)); done.
Qed.

Lemma e_finished e : is_byte (e_index e) ->
  e_ok (with_index e 0xff) /\ e_left (with_index e 0xff) = 0%nat.
Proof. intros. split; [split; [done|by left]|done]. Qed.

(** One pass of the queue: no packet is lost and none is repeated. *)
Lemma a_process_counts now rest : forall (log : list sent) seen es' log',
  Forall e_ok (seen ++ rest) -> a_process now log seen rest = Ret (es', log') ->
  Forall e_ok es' /\ forall key,
    (count key log <= count key log')%nat /\
    (count key log' + pending key es' = count key log + pending key (seen ++ rest))%nat.
Proof.
  induction rest as [|e rest IH]; intros log seen es' log' Hok; cbn [a_process].
  { intros [= <- <-]. by rewrite app_nil_r in *. }
  pose proof Hok as [Hs [He Hr]%Forall_cons]%Forall_app. pose proof (proj1 He) as Hb.
  assert (forall l, Forall e_ok l -> Forall e_ok (l ++ rest)) as Hl by (intros; by apply Forall_app).
  destruct (Z.eqb_spec (e_index e) 0xff) as [E|Hff].
  { intros [Ho Hc]%IH; [|case_decide; apply Hl; [done|apply Forall_app; auto]].
    split; [done|]. intros key. specialize (Hc key) as [Hle Hc]. split; [done|]. rewrite Hc. rewrite !pending_app. cbn [pending].
    assert (e_left e = 0%nat) as Hz by (unfold e_left; by rewrite E).
    destruct (decide (seen = [])) as [->|]; [ cbn|rewrite pending_app; cbn]; rewrite Hz; case_decide; lia. }
  destruct (in_past now (e_timestamp e)).
  2:{ intros [Ho Hc]%IH; [|apply Hl, Forall_app; auto]. split; [done|]. intros key.
      specialize (Hc key) as [Hle Hc]. split; [done|]. rewrite Hc. rewrite !pending_app. cbn [pending]. lia. }
  cbn [send_packet log_sender mbind outcome_bind]. cbn [Z.eqb negb]. fold (e_key e).
  assert (forall key, count key (log ++ [e_key e]) = (count key log + if decide (key = e_key e) then 1 else 0)%nat) as Hcnt.
  { intros key. rewrite count_app. f_equal. unfold count. rewrite filter_cons. case_decide; done. }
  destruct (Z.eqb_spec (Z.land (e_index e) 0x80) 0) as [E80|E80]; cbn [negb].
  - pose proof (e_repeated e (u32 (e_timestamp e + SECOND_DELAY * 1000)) He Hff E80) as (Ho' & Hk & L1 & L2).
    unfold with_index, with_timestamp in *. cbn in Ho', Hk, L1.
    intros [Ho Hc]%IH; [|apply Hl, Forall_app; auto]. split; [done|]. intros key.
    specialize (Hc key) as [Hle Hc]. rewrite Hcnt in *. split; [lia|]. rewrite Hc. rewrite !pending_app. cbn [pending]. rewrite Hk, L1, L2. case_decide; lia.
  - destruct (e_finished e Hb) as [Ho' L0]. unfold with_index in *.
    assert (e_left e = 1%nat) as L1 by (unfold e_left; by rewrite !(proj2 (Z.eqb_neq _ _))).
    intros [Ho Hc]%IH; [|case_decide; apply Hl; [done|apply Forall_app; auto]].
    split; [done|]. intros key. specialize (Hc key) as [Hle Hc]. rewrite Hcnt in *. split; [lia|].
    rewrite Hc, !pending_app. cbn [pending].
    destruct (decide (seen = [])) as [->|]; [ cbn [pending]|rewrite pending_app; cbn [pending]; rewrite L0];
      rewrite L1; repeat case_decide; lia.
Qed.


(** ** Histories

    [evq_history info log posted lossless]: the state and the packets sent
    after some calls, the events posted, and whether the queue had room for
    each of them. *)
Inductive evq_history : event_info -> list sent -> list sent -> bool -> Prop :=
  | EH_init : evq_history event_info0 [] [] true
  | EH_process info log posted ok now info' log' :
      evq_history info log posted ok ->
      jd_process_event_queue now info log = Ret (info', log') ->
      evq_history info' log' posted ok
  | EH_send info log posted ok now idx eventid data info' log' :
      evq_history info log posted ok ->
      0 <= idx < 0x7f -> 0 <= eventid < 256 -> Forall is_byte data -> zlen data <= 120 ->
      jd_send_event_ext now false info log idx eventid data (zlen data) = Ret (info', log') ->
      evq_history info' log'
        (posted ++ [{| s_index := idx; s_data := data;
                       s_command := JD_CMD_EVENT_MK (u8 (ei_counter info + 1)) eventid |}])
        (ok && (zlen data + sizeof_ev <=? JD_EVENT_QUEUE_SIZE - ei_qptr info)).

Lemma process_inv `{Sender T} now info (tx : T) es :
  evq_inv info es -> jd_process_event_queue now info tx = Ret (info, tx) /\ ei_init info = false \/
  ei_init info = true /\ refines (jd_process_event_queue now info tx) (a_process now tx [] es) true.
Proof.
  intros [_ Hi]. unfold jd_process_event_queue. destruct (ei_init info) eqn:E; [right|by left].
  split; [done|]. rewrite <- E. by apply process_refines.
Qed.

(** Processing does not touch the event counter. *)
Lemma process_loop_counter `{Sender T} fuel : forall now info (tx : T) ev info' tx',
  process_loop fuel now info tx ev = Ret (info', tx') -> ei_counter info' = ei_counter info.
Proof.
  induction fuel as [|fuel IH]; intros now info tx ev info' tx'; cbn [process_loop]; [done|].
  repeat case_match; try (by intros [= <- <-]); try (by intros ->%IH).
  all: destruct (send_packet tx _ _ _) as [[r tx1]| |]; cbn; try done.
  all: repeat case_match; first [by intros [= <- <-] | by intros ->%IH].
Qed.

(** What is sent, queued and owed, against what was posted. *)
Definition accounted (log posted : list sent) (es : list event) (ok : bool) : Prop :=
  forall key, (count key posted <= count key log)%nat /\
    (count key log + pending key es <= 3 * count key posted)%nat /\
    (ok = true -> (count key log + pending key es = 3 * count key posted)%nat).

Lemma low7 idx : 0 <= idx < 0x7f -> Z.land idx 0x7f = idx /\ Z.land idx 0x80 = 0.
Proof.
  intros Hi. assert (Z.land idx 0x7f = idx) as H7.
  { change 0x7f with (Z.ones 7). rewrite Z.land_ones, Z.mod_small by lia. done. }
  split; [done|]. rewrite <- H7, <- Z.land_assoc. apply Z.land_0_r.
Qed.

Lemma new_event_ok now idx cmd data : 0 <= idx < 0x7f ->
  e_ok (new_event now idx cmd data) /\ e_key (new_event now idx cmd data) = Build_sent idx cmd data /\
  e_left (new_event now idx cmd data) = 2%nat.
Proof.
  intros Hi. destruct (low7 idx Hi) as [H7 H80]. unfold e_ok, e_key, e_left, new_event, is_byte. cbn.
  rewrite H7, H80, (proj2 (Z.eqb_neq idx 0xff)) by lia. split_and!; try done; try lia; right; lia.
Qed.

Lemma accounted_send log posted es ok ok' now idx cmd data k :
  0 <= idx < 0x7f -> accounted log posted es ok -> (ok' = true -> k = 0%nat) ->
  accounted (log ++ [Build_sent idx cmd data]) (posted ++ [Build_sent idx cmd data])
    (drop k es ++ [new_event now idx cmd data]) (ok && ok').
Proof.
  intros Hi Hc Hk key. destruct (new_event_ok now idx cmd data Hi) as (_ & Hkey & Hleft).
  specialize (Hc key) as (H1 & H2 & H3). rewrite !count_app, pending_app. cbn [pending].
  rewrite Hkey, Hleft. pose proof (pending_drop key k es).
  assert (count key [Build_sent idx cmd data] = if decide (key = Build_sent idx cmd data) then 1%nat else 0%nat) as ->
    by (unfold count; rewrite filter_cons; case_decide; done).
  split_and!; [case_decide; lia..|]. intros [Hok' Hfit]%andb_true_iff.
  rewrite (Hk Hfit), drop_0. specialize (H3 Hok'). case_decide; lia.
Qed.

Lemma history_process now info es log posted ok info' log' :
  evq_inv info es -> Forall e_ok es -> accounted log posted es ok ->
  jd_process_event_queue now info log = Ret (info', log') ->
  exists es', evq_inv info' es' /\ Forall e_ok es' /\ accounted log' posted es' ok.
Proof.
  intros Hinv Hok Hc Hp. destruct (process_inv now info log es Hinv) as [[E _]|[Hit Href]].
  { rewrite E in Hp. simplify_eq. eauto. }
  unfold refines in Href. destruct (a_process now log [] es) as [[es' log1]| |] eqn:Ea;
    [|congruence..]. destruct Href as (info1 & E & Hr & Hi1). rewrite E in Hp. simplify_eq.
  destruct (a_process_counts now es log [] es' log' Hok Ea) as [Hok' Hcnt]. cbn [app] in Hcnt.
  exists es'. split_and!; [|done|].
  - split; [|by rewrite Hi1]. unfold jd_process_event_queue, do_process_event_queue in E.
    rewrite Hit in E. apply process_loop_counter in E. rewrite E. apply Hinv.
  - intros key. specialize (Hc key) as (H1 & H2 & H3). specialize (Hcnt key) as [Hle Hcnt].
    split_and!; [lia..|]. intros Hk. specialize (H3 Hk). lia.
Qed.

Lemma evq_history_inv info log posted ok :
  evq_history info log posted ok ->
  exists es, evq_inv info es /\ Forall e_ok es /\ accounted log posted es ok.
Proof.
  induction 1 as [|info log posted ok now info' log' _ (es & Hinv & Hok & Hc) Hp
    |info log posted ok now idx eventid data info' log' _ (es & Hinv & Hok & Hc) Hi He Hd Hl Hsend].
  - exists []. split; [done|]. split; [constructor|]. intros key. cbn. lia.
  - by eapply history_process.
  - destruct (jd_send_event_ext_queues now info log
      (log ++ [Build_sent idx (JD_CMD_EVENT_MK (u8 (ei_counter info + 1)) eventid) data]) es idx eventid data 0)
      as (info1 & k & E & Hinv' & _ & Hk); try done; [unfold is_byte; lia|].
    rewrite E in Hsend. simplify_eq. eexists. split; [done|]. split.
    + apply Forall_app. split; [by apply Forall_drop|].
      constructor; [by apply new_event_ok|constructor].
    + apply accounted_send; try done. intros Hfit. by apply Hk, Z.leb_le.
Qed.

(** ** Properties *)

(** C15. Event repetition: whatever calls were made, every posted event was
    sent at least once and at most three times (with the same counter, so that
    receivers drop the duplicates), and when nothing is waiting any more and
    no event had to make room for another, exactly three times. *)
Theorem events_sent_three_times info log posted ok :
  evq_history info log posted ok ->
  forall key, (count key posted <= count key log <= 3 * count key posted)%nat /\
    (ok = true -> ei_qptr info = 0 -> (count key log = 3 * count key posted)%nat).
Proof.
  intros Hh key. destruct (evq_history_inv _ _ _ _ Hh) as (es & Hinv & _ & Hc).
  specialize (Hc key) as (H1 & H2 & H3). split; [lia|]. intros Hok Hq. specialize (H3 Hok).
  assert (es = []) as ->; [|cbn in *; lia]. destruct Hinv as [_ Hinv].
  destruct (ei_init info); [|apply Hinv]. destruct Hinv as [_ _ _ Hs]. rewrite Hq in Hs. by apply eseg_nil in Hs.
Qed.

Definition after (o : outcome (event_info * list sent)) : event_info * list sent :=
  match o with Ret x => x | _ => (event_info0, []) end.
Definition hist1 := after (jd_send_event_ext 1000 false event_info0 [] 2 1 [9; 8] 2).
Definition hist2 := after (jd_process_event_queue 30000 (fst hist1) (snd hist1)).
Definition hist3 := after (jd_process_event_queue 90000 (fst hist2) (snd hist2)).

Definition key1 : sent := Build_sent 2 0x8101 [9; 8].

Lemma events_sent_three_times_witness : count key1 (snd hist3) = 3%nat.
Proof.
  change 3%nat with (3 * count key1 [key1])%nat.
  apply (events_sent_three_times (fst hist3) (snd hist3) ([] ++ [key1])
    (true && (zlen [9; 8] + sizeof_ev <=? 128))); [|done|vm_compute; reflexivity].
  apply (EH_process (fst hist2) (snd hist2) _ _ 90000); [|vm_compute; reflexivity].
  apply (EH_process (fst hist1) (snd hist1) _ _ 30000); [|vm_compute; reflexivity].
  apply (EH_send event_info0 [] [] true 1000 2 1 [9; 8]); try (vm_compute; done); try constructor; try lia.
  - unfold is_byte. lia.
  - repeat constructor; lia.
Defined.

(** The byte-level loop over the event buffer (records of variable size,
    moved and rewritten in place while they are visited) computes the pass over
    the list of queued events, for every transport, and always comes to an end. *)
Lemma jd_process_event_queue_refines `{Sender T} now info (tx : T) es :
  evq_repr info es -> ei_init info = true ->
  match a_process now tx [] es with
  | Ret (es', tx') =>
      exists info', jd_process_event_queue now info tx = Ret (info', tx') /\ evq_repr info' es'
  | Panic => jd_process_event_queue now info tx = Panic
  | OutOfFuel => jd_process_event_queue now info tx = OutOfFuel
  end.
Proof.
  intros Hr Hi. pose proof (process_refines now info tx es Hr) as Href.
  unfold jd_process_event_queue. rewrite Hi. unfold refines in Href.
  destruct (a_process now tx [] es) as [[es' tx']| |]; try done.
  destruct Href as (info' & -> & Hr' & _). eauto.
Qed.
