(* ===== verification/TxRx.v ===== *)
(** * Transmit and receive queues ([source/interfaces/tx_queue.c],
      [source/interfaces/simple_rx.c])

    [jd_send] collects packets in [tx_acc_buffer]; a full or flushed buffer is
    sealed and queued for the physical layer, and looped back to the receive
    queue of this device. The configuration is [JD_SEND_FRAME], [JD_RX_QUEUE]
    and [JD_USB_BRIDGE] without [JD_RAW_FRAME] and [JD_DEVICESCRIPT]. A function
    that is given a frame pointer and writes through it returns the frame. What
    goes to the USB bridge, the wake-ups and the error reports are events of
    [tr_trace]; [packets_sent] is the counter of [jd_services.c] that
    [jd_services_packet_queued] increments. *)
From S2P Require Import Prelude Frame Queue Iface.

Inductive tr_event :=
  | EvBridge (f : list Z)     (* JD_BRIDGE_SEND *)
  | EvPacketReady             (* jd_packet_ready *)
  | EvWakeMain                (* JD_WAKE_MAIN *)
  | EvOverflow.               (* OVF_ERROR *)

Record txrx := {
  tx_acc_buffer : list Z;
  send_queue : queue;
  q_sending : bool;
  rx_queue : queue;
  packets_sent : Z;           (* uint8_t *)
  tr_trace : list tr_event;
}.

Definition set_acc (st : txrx) (f : list Z) : txrx :=
  {| tx_acc_buffer := f; send_queue := send_queue st; q_sending := q_sending st;
     rx_queue := rx_queue st; packets_sent := packets_sent st; tr_trace := tr_trace st |}.
Definition set_sendq (st : txrx) (q : queue) : txrx :=
  {| tx_acc_buffer := tx_acc_buffer st; send_queue := q; q_sending := q_sending st;
     rx_queue := rx_queue st; packets_sent := packets_sent st; tr_trace := tr_trace st |}.
Definition set_sending (st : txrx) (b : bool) : txrx :=
  {| tx_acc_buffer := tx_acc_buffer st; send_queue := send_queue st; q_sending := b;
     rx_queue := rx_queue st; packets_sent := packets_sent st; tr_trace := tr_trace st |}.
Definition set_rxq (st : txrx) (q : queue) : txrx :=
  {| tx_acc_buffer := tx_acc_buffer st; send_queue := send_queue st; q_sending := q_sending st;
     rx_queue := q; packets_sent := packets_sent st; tr_trace := tr_trace st |}.
Definition set_packets_sent (st : txrx) (n : Z) : txrx :=
  {| tx_acc_buffer := tx_acc_buffer st; send_queue := send_queue st; q_sending := q_sending st;
     rx_queue := rx_queue st; packets_sent := n; tr_trace := tr_trace st |}.
Definition emit (st : txrx) (e : tr_event) : txrx :=
  {| tx_acc_buffer := tx_acc_buffer st; send_queue := send_queue st; q_sending := q_sending st;
     rx_queue := rx_queue st; packets_sent := packets_sent st; tr_trace := tr_trace st ++ [e] |}.

Definition JD_SEND_FRAME_SIZE : Z := 512.
Definition JD_RX_QUEUE_SIZE : Z := 512.

(** The state [jd_tx_init] and [jd_rx_init] set up; static data is zero. *)
Definition jd_tx_init : queue := jd_queue_alloc JD_SEND_FRAME_SIZE.
Definition jd_rx_init : queue := jd_queue_alloc JD_RX_QUEUE_SIZE.
Definition txrx0 : txrx :=
  {| tx_acc_buffer := replicate 252 0; send_queue := jd_tx_init; q_sending := false;
     rx_queue := jd_rx_init; packets_sent := 0; tr_trace := [] |}.

Section TxRx.
(** [jd_device_id()] *)
Context (self : Z).

Definition jd_need_to_send (f : list Z) : bool :=
  negb (has_flag (f_flags f) JD_FRAME_FLAG_COMMAND && (f_device_identifier f =? self)).

(** [source/jd_services.c], with [JD_CLIENT] or [JD_PIPES]. *)
Definition jd_services_needs_frame (frame : list Z) : bool :=
  if has_flag (f_flags frame) JD_FRAME_FLAG_COMMAND
  then has_flag (f_flags frame) JD_FRAME_FLAG_BROADCAST || (f_device_identifier frame =? self)
  else true.

Definition jd_services_packet_queued (st : txrx) : txrx :=
  set_packets_sent st (u8 (packets_sent st + 1)).

(** ** Reception *)

Definition jd_rx_frame_received_core (st : txrx) (frame : list Z) (is_loop : bool)
    : outcome (Z * list Z * txrx) :=
  let st := if negb is_loop then emit st (EvBridge frame) else st in
  if negb (jd_services_needs_frame frame) then Ret (0, frame, st)
  else
    let frame :=
      if is_loop then set_f_flags frame (Z.lor (f_flags frame) JD_FRAME_FLAG_LOOPBACK)
      else set_f_flags frame (Z.ldiff (f_flags frame) JD_FRAME_FLAG_LOOPBACK) in
    let st := emit st EvWakeMain in
    '(r, q) ← jd_queue_push (rx_queue st) frame;
    Ret (r, frame, set_rxq st q).

Definition jd_rx_frame_received (st : txrx) (frame : list Z) := jd_rx_frame_received_core st frame false.
Definition jd_rx_frame_received_loopback (st : txrx) (frame : list Z) := jd_rx_frame_received_core st frame true.

(** The offset of the frame in the receive queue's data. *)
Definition jd_rx_get_frame (st : txrx) : option Z := jd_queue_front (rx_queue st).
Definition jd_rx_release_frame (st : txrx) : outcome txrx :=
  q ← jd_queue_shift (rx_queue st); Ret (set_rxq st q).
Definition jd_rx_has_frame (st : txrx) : bool :=
  match jd_queue_front (rx_queue st) with Some _ => true | None => false end.

(** ** Transmission *)

Definition jd_send_frame_raw (st : txrx) (f : list Z) : outcome (Z * list Z * txrx) :=
  '(r, st) ←
    (if jd_need_to_send f then
       '(r, q) ← jd_queue_push (send_queue st) f;
       let st := set_sendq st q in
       Ret (r, if negb (r =? 0) then emit st EvOverflow else st)
     else Ret (0, st));
  '(lr, f, st) ← jd_rx_frame_received_loopback st f;
  let st := if negb (lr =? 0) then emit st EvOverflow else st in
  Ret (r, f, emit st EvPacketReady).

Definition jd_send_frame (st : txrx) (f : list Z) : outcome (Z * list Z * txrx) :=
  jd_send_frame_raw (emit st (EvBridge f)) f.

Definition jd_send_frame_with_crc (st : txrx) (f : list Z) : outcome (Z * list Z * txrx) :=
  jd_send_frame st (jd_compute_crc (set_f_device_identifier f self)).

Definition jd_tx_will_fit (st : txrx) (size : Z) : bool := jd_queue_will_fit (send_queue st) size.

Definition jd_tx_is_idle (st : txrx) : bool :=
  if q_sending st || match jd_queue_front (send_queue st) with Some _ => true | None => false end then false
  else if negb (f_size (tx_acc_buffer st) =? 0) then false else true.

Definition jd_send (in_irq : bool) (st : txrx) (service_num service_cmd : Z) (data : list Z)
    (service_size : Z) : outcome (Z * txrx) :=
  if in_irq then Panic else
  '(trg, acc) ← jd_push_in_frame (tx_acc_buffer st) service_num service_cmd service_size;
  '(trg, st) ←
    match trg with
    | Some trg => Ret (trg, set_acc st acc)
    | None =>
        '(_, acc, st) ← jd_send_frame_with_crc st (tx_acc_buffer st);
        let acc := jd_reset_frame acc in
        '(trg, acc) ← jd_push_in_frame acc service_num service_cmd service_size;
        match trg with
        | None => Panic (* JD_ASSERT(trg != NULL) *)
        | Some trg => Ret (trg, set_acc st acc)
        end
    end;
  let st :=
    if service_size >? 0
    then set_acc st (mwrite (tx_acc_buffer st) trg (mread data 0 service_size)) else st in
  Ret (0, st).

(** The frame is the offset in the send queue's data. *)
Definition jd_tx_get_frame (st : txrx) : outcome (option Z * txrx) :=
  JD_ASSERT negb (q_sending st) ;;
  match jd_queue_front (send_queue st) with
  | Some f => Ret (Some f, set_sending st true)
  | None => Ret (None, st)
  end.

Definition poke_ready (st : txrx) : txrx :=
  match jd_queue_front (send_queue st) with Some _ => emit st EvPacketReady | None => st end.

Definition jd_tx_frame_sent (st : txrx) : outcome txrx :=
  JD_ASSERT q_sending st ;;
  (q ← jd_queue_shift (send_queue st);
   Ret (poke_ready (set_sending (set_sendq st q) false))).

Definition jd_tx_flush (in_irq : bool) (st : txrx) : outcome txrx :=
  if in_irq then Panic else
  let f := tx_acc_buffer st in
  if f_size f =? 0 then Ret st
  else
    '(_, f, st) ← jd_send_frame_with_crc st f;
    let st := set_acc st f in
    let st := jd_services_packet_queued st in
    Ret (set_acc st (jd_reset_frame (tx_acc_buffer st))).

(** The interfaces the other components send through. *)
#[export] Instance txrx_sender : Sender txrx :=
  fun st idx cmd data => jd_send false st idx cmd data (zlen data).
#[export] Instance txrx_frame_sender : FrameSender txrx := jd_send_frame.
End TxRx.

(** ** The accumulation buffer *)

(** Frames that agree up to [f]'s end hold the same packets. *)
Lemma laid_extend f g ps : forall off,
  0 <= off -> f_size f <= f_size g ->
  (forall o n, off <= o -> 0 <= n -> o + n <= f_size f -> mread g (frame_data + o) n = mread f (frame_data + o) n) ->
  forall qs, laid f off ps -> laid g (f_size f) qs -> laid g off (ps ++ qs).
Proof.
  induction ps as [|p ps IH]; intros off Ho Hs Hag qs; cbn [laid app]; [by intros ->|].
  intros (He & Hb & Hl) Hq. pose proof (pk_len_ge p). pose proof (align4_bounds (pk_len p)).
  split_and!; [by rewrite Hag by lia|lia|]. apply IH; try done; try lia. intros. apply Hag; lia.
Qed.

Lemma push_packet_laid f p ps :
  frame_ok f -> packet_ok p -> f_size f mod 4 = 0 -> f_size f + pk_len p <= 236 -> laid f 0 ps ->
  exists g, push_packet f p = Some g /\ frame_ok g /\ f_size g mod 4 = 0 /\ f_size g <= 236 /\
    0 < f_size g /\ laid g 0 (ps ++ [p]) /\ f_flags g = f_flags f.
Proof.
  intros Hf Hp H4 Hfit Hl. pose proof (f_size_range f Hf). pose proof (pk_len_ge p).
  pose proof (align4_bounds (pk_len p)). pose proof (align4_mod (pk_len p)).
  destruct (push_packet_spec f p Hf Hp H4 Hfit) as (g & Hg & Hgo & Hsz & Hle & He & Hag & _).
  exists g. split_and!; try done; try lia; [word_lia| |].
  - apply (laid_extend f g ps 0); try done; try lia.
    + intros. apply Hag; unfold frame_data; lia.
    + cbn [laid]. rewrite Hsz. split_and!; [done|lia|done].
  - unfold f_flags. rewrite (get8_mread0 g), (get8_mread0 f), Hag by (unfold frame_data; lia). done.
Qed.

(** The state of the buffer: report packets [ps], laid out from the start. *)
Record acc_holds (f : list Z) (ps : list packet) : Prop := {
  ah_frame : frame_ok f;
  ah_size : f_size f mod 4 = 0 /\ f_size f <= 236;
  ah_laid : laid f 0 ps;
  ah_packets : Forall packet_ok ps;
  ah_flags : has_flag (f_flags f) JD_FRAME_FLAG_COMMAND = false;
}.

Lemma acc_holds_empty f ps : acc_holds f ps -> f_size f = 0 <-> ps = [].
Proof.
  intros [Hf Hs Hl _ _]. split; [|by intros ->; simpl in Hl]. intros H0.
  destruct ps as [|p ps]; [done|]. simpl in Hl. destruct Hl as (_ & Hb & _).
  pose proof (pk_len_ge p). pose proof (align4_bounds (pk_len p)). lia.
Qed.

Lemma jd_reset_frame_holds f :
  frame_ok f -> has_flag (f_flags f) JD_FRAME_FLAG_COMMAND = false -> acc_holds (jd_reset_frame f) [].
Proof.
  intros Hf Hfl. assert (zlen f = 252) by apply Hf.
  assert (f_size (jd_reset_frame f) = 0) as H0
    by (unfold f_size, jd_reset_frame, set_f_size; by rewrite get8_put8 by lia).
  constructor; [by apply frame_ok_put8|by rewrite H0|by rewrite <- H0|constructor|].
  unfold f_flags, jd_reset_frame, set_f_size in *. by rewrite get8_put8_ne by lia.
Qed.

(** [jd_send] into the buffer: room and copy are [push_packet]. *)
Lemma push_copy f p :
  frame_ok f -> packet_ok p -> f_size f <= 236 -> f_size f + pk_len p <= 236 ->
  exists trg h, jd_push_in_frame f (pk_service_index p) (pk_service_command p) (zlen (pk_data p)) = Ret (Some trg, h) /\
    push_packet f p = Some (if zlen (pk_data p) >? 0 then mwrite h trg (mread (pk_data p) 0 (zlen (pk_data p))) else h).
Proof.
  intros Hf (Hi & Hc & Hd) Hs Hfit. pose proof (zlen_nonneg (pk_data p)). unfold pk_len in Hfit.
  unfold push_packet. pose proof (f_size_range f Hf). rewrite jd_push_in_frame_spec by (done || lia).
  rewrite (proj2 (Z.leb_le _ _)) by lia. eexists _, _. split; [done|]. f_equal. rewrite Z.gtb_ltb. case_cmp.
  - f_equal. unfold mread, zlen. rewrite Nat2Z.id. symmetry. apply firstn_all.
  - unfold mwrite. assert (pk_data p = []) as ->.
    { destruct (pk_data p); [done|]. unfold zlen in *. simpl in *. lia. }
    simpl. rewrite Nat.add_0_r. apply take_drop.
Qed.

(** ** Sealing and queueing *)

Section TxRxProofs.
Context (self : Z).
Hypothesis (Hself : 0 <= self < 2 ^ 64).

(** [e] is the queued image of a sealed frame with the packets [ps]. *)
Definition sealed (e : list Z) (ps : list packet) : Prop :=
  exists g, e = q_entry g /\ frame_ok g /\ laid g 0 ps /\ ps <> [] /\
    jd_frame_crc_ok g = true /\ f_device_identifier g = self.

Definition seal (f : list Z) : list Z := jd_compute_crc (set_f_device_identifier f self).

Lemma seal_ok f ps :
  acc_holds f ps -> ps <> [] ->
  sealed (q_entry (seal f)) ps /\ frame_ok (seal f) /\ f_size (seal f) = f_size f /\
  f_flags (seal f) = f_flags f.
Proof using Hself.
  intros [Hf Hs Hl Hp Hfl] Hne. assert (zlen f = 252) as Hlen by apply Hf.
  assert (zlen (le_bytes 8 self) = 8) as L8 by done.
  set (h := set_f_device_identifier f self).
  assert (zlen h = 252) as Hlh by (unfold h, set_f_device_identifier, put64; rewrite zlen_mwrite; lia).
  assert (frame_ok h) as Hh.
  { apply frame_ok_mwrite; auto with jd; unfold sizeof_frame; lia. }
  assert (frame_ok (seal f)) as Hg by by apply frame_ok_set_crc.
  assert (forall o n, 12 <= o -> 0 <= n -> mread (seal f) o n = mread f o n) as Hag.
  { intros o n ? ?. unfold seal, jd_compute_crc, set_f_crc, put16.
    rewrite mread_mwrite_out by (change (zlen (le_bytes 2 _)) with 2; fold h; lia).
    unfold set_f_device_identifier, put64. by rewrite mread_mwrite_out by lia. }
  assert (f_size (seal f) = f_size f) as Hsz.
  { unfold seal, jd_compute_crc. rewrite f_size_set_crc by done. apply get8_mwrite_ne; lia. }
  split_and!; try done.
  - exists (seal f). split_and!; try done.
    + apply (laid_agree f); try done. intros. unfold frame_data. apply Hag; lia.
    + by apply jd_compute_crc_ok.
    + unfold f_device_identifier, get64, seal, jd_compute_crc, set_f_crc, put16.
      rewrite mread_mwrite_out by (change (zlen (le_bytes 2 _)) with 2; fold h; lia).
      fold h. fold (get64 h 4). unfold h, set_f_device_identifier. rewrite get64_put64 by lia.
      unfold u64. apply Z.mod_small. lia.
  - unfold f_flags, seal, jd_compute_crc, set_f_crc, put16.
    rewrite get8_mwrite_ne by (change (zlen (le_bytes 2 _)) with 2; fold h; lia).
    apply get8_mwrite_ne; lia.
Qed.

(** What holds of the two queues; [es] is what is queued for sending. *)
Record tx_queues (st : txrx) (es : list (list Z)) : Prop := {
  tq_send : q_repr (send_queue st) es;
  tq_send_size : q_size (send_queue st) = 512;
  tq_rx : exists rs, q_repr (rx_queue st) rs;
  tq_rx_size : q_size (rx_queue st) = 512;
}.

Lemma has_flag_lor x flag bit : Z.land flag bit = 0 -> has_flag (Z.lor x flag) bit = has_flag x bit.
Proof. intros H. unfold has_flag. by rewrite Z.land_lor_distr_l, H, Z.lor_0_r. Qed.

(** Reception, with the queue that cannot panic. *)
Lemma rx_core_ok st frame is_loop es :
  tx_queues st es -> frame_ok frame -> 0 < f_size frame <= 240 ->
  exists r frame' st', jd_rx_frame_received_core self st frame is_loop = Ret (r, frame', st') /\
    frame_ok frame' /\ tx_queues st' es /\ tx_acc_buffer st' = tx_acc_buffer st /\
    q_sending st' = q_sending st /\ send_queue st' = send_queue st /\
    (is_loop = true -> has_flag (f_flags frame') JD_FRAME_FLAG_COMMAND = has_flag (f_flags frame) JD_FRAME_FLAG_COMMAND).
Proof using.
  intros [Hs1 Hs2 [rs Hr1] Hr2] Hf Hsz. unfold jd_rx_frame_received_core.
  assert (zlen frame = 252) as Hl by apply Hf.
  destruct (jd_services_needs_frame self frame); cbn [negb].
  - set (frame' := if is_loop then _ else _).
    assert (frame_ok frame') as Hf' by (unfold frame', set_f_flags; destruct is_loop; by apply frame_ok_put8).
    assert (f_size frame' = f_size frame) as Hsz'
      by (unfold frame', set_f_flags, f_size; destruct is_loop; apply get8_put8_ne; lia).
    assert (rx_queue (emit (if negb is_loop then emit st (EvBridge frame) else st) EvWakeMain) = rx_queue st) as ->
      by by destruct is_loop.
    pose proof (q_push_spec (rx_queue st) rs frame' Hr1 Hf' ltac:(lia)) as Hpush.
    assert (is_loop = true -> has_flag (f_flags frame') JD_FRAME_FLAG_COMMAND =
      has_flag (f_flags frame) JD_FRAME_FLAG_COMMAND) as Hfl.
    { intros ->. unfold frame', f_flags, set_f_flags. rewrite get8_put8 by lia.
      rewrite u8_small; [by apply has_flag_lor|]. apply (lor_range _ _ 8); [lia| |done].
      apply get8_is_byte, Hf. }
    destruct (jd_queue_will_fit (rx_queue st) (FRM_SIZE frame')).
    + destruct Hpush as (q' & -> & Hq' & Hqs). obind. eexists _, _, _. split; [done|].
      destruct is_loop; split_and!; try done; constructor; cbn; eauto; congruence.
    + destruct Hpush as (r & -> & _). obind. eexists _, _, _. split; [done|].
      destruct is_loop; split_and!; try done; constructor; cbn; eauto; congruence.
  - eexists _, _, _. split; [done|]. destruct is_loop; split_and!; try done; constructor; cbn; eauto.
Qed.

(** Sealing the buffer and queueing it for transmission. *)
Lemma send_sealed st f ps es :
  acc_holds f ps -> ps <> [] -> tx_queues st es ->
  let fits := jd_tx_will_fit st (FRM_SIZE (seal f)) in
  exists r f' st', jd_send_frame_with_crc self st f = Ret (r, f', st') /\
    frame_ok f' /\ has_flag (f_flags f') JD_FRAME_FLAG_COMMAND = false /\
    tx_queues st' (if fits then es ++ [q_entry (seal f)] else es) /\
    tx_acc_buffer st' = tx_acc_buffer st /\ q_sending st' = q_sending st.
Proof using Hself.
  intros Ha Hne Hq fits. destruct (seal_ok f ps Ha Hne) as (_ & Hg & Hgs & Hgf).
  pose proof Ha as [Hf Hs _ _ Hfl]. pose proof (f_size_range f Hf).
  assert (0 < f_size f <= 240) as Hsz by (pose proof (acc_holds_empty f ps Ha); destruct (decide (f_size f = 0)); tauto || lia).
  unfold jd_send_frame_with_crc, jd_send_frame, jd_send_frame_raw. fold (seal f).
  unfold jd_need_to_send. rewrite Hgf, Hfl. cbn [andb negb].
  destruct Hq as [Hs1 Hs2 Hr1 Hr2].
  pose proof (q_push_spec (send_queue st) es (seal f) Hs1 Hg ltac:(lia)) as Hpush.
  fold (jd_tx_will_fit st (FRM_SIZE (seal f))) in Hpush. fold fits in Hpush.
  assert (exists r st1, jd_queue_push (send_queue (emit st (EvBridge (seal f)))) (seal f) = Ret (r, send_queue st1) /\
    st1 = set_sendq (emit st (EvBridge (seal f))) (send_queue st1) /\
    tx_queues st1 (if fits then es ++ [q_entry (seal f)] else es)) as (r & st1 & -> & Hst1 & Hq1).
  { destruct fits.
    - destruct Hpush as (q' & E & Hq' & Hqs). exists 0, (set_sendq (emit st (EvBridge (seal f))) q').
      split_and!; try done. constructor; cbn; done || congruence.
    - destruct Hpush as (r & E & _). exists r, (set_sendq (emit st (EvBridge (seal f))) (send_queue st)).
      split_and!; try done. }
  obind. unfold jd_rx_frame_received_loopback. set (st2 := if negb (r =? 0) then _ else _).
  assert (tx_queues st2 (if fits then es ++ [q_entry (seal f)] else es) /\
    tx_acc_buffer st2 = tx_acc_buffer st /\ q_sending st2 = q_sending st) as (Hq2 & Ha2 & Hn2).
  { rewrite Hst1 in Hq1. destruct Hq1. unfold st2. destruct (r =? 0); split_and!; try done; constructor; done. }
  destruct (rx_core_ok st2 (seal f) true _ Hq2 Hg ltac:(lia)) as
    (lr & f' & st3 & -> & Hf' & Hq3 & Ha3 & Hn3 & _ & Hfl3). obind.
  eexists _, _, _. split; [done|]. rewrite Hfl3, Hgf by done. split_and!; try done.
  - destruct Hq3. destruct (lr =? 0); constructor; done.
  - destruct (lr =? 0); cbn; congruence.
  - destruct (lr =? 0); cbn; congruence.
Qed.
(** ** The calls on the abstract state

    [ps] are the packets collected, [qs] the packets of the queued frames. *)

Record tx_inv (st : txrx) (ps : list packet) (qs : list (list packet)) : Prop := {
  ti_acc : acc_holds (tx_acc_buffer st) ps;
  ti_queues : exists es, tx_queues st es /\ Forall2 sealed es qs;
  ti_sending : q_sending st = true -> qs <> [];
}.

Definition has_room (st : txrx) (p : packet) : bool := f_size (tx_acc_buffer st) + pk_len p <=? 236.
Definition will_queue (st : txrx) : bool := jd_tx_will_fit st (FRM_SIZE (seal (tx_acc_buffer st))).

Lemma tx_inv_queued es (b : bool) e ps qs :
  Forall2 sealed es qs -> sealed e ps ->
  Forall2 sealed (if b then es ++ [e] else es) (if b then qs ++ [ps] else qs).
Proof using. intros. destruct b; [apply Forall2_app; auto|done]. Qed.

Lemma jd_send_ok st ps qs p :
  tx_inv st ps qs -> packet_ok p -> zlen (pk_data p) <= 232 ->
  exists st', jd_send self false st (pk_service_index p) (pk_service_command p) (pk_data p) (zlen (pk_data p)) = Ret (0, st') /\
    q_sending st' = q_sending st /\
    if has_room st p then tx_inv st' (ps ++ [p]) qs
    else tx_inv st' [p] (if will_queue st then qs ++ [ps] else qs).
Proof using Hself.
  intros [Ha (es & Hq & Hes) Hsend] Hp Hlen. unfold jd_send. cbn [mbind].
  pose proof Ha as [Hf [H4 Hs] Hl Hps Hfl]. pose proof (pk_len_ge p). pose proof (f_size_range _ Hf).
  unfold has_room. case_cmp.
  - destruct (push_copy _ p Hf Hp Hs ltac:(done)) as (trg & h & -> & Hpush).
    destruct (push_packet_laid _ p ps Hf Hp H4 ltac:(done) Hl) as (g & Hg & Hgo & Hg4 & Hgs & _ & Hgl & Hgf).
    rewrite Hg in Hpush. injection Hpush as Hpush. obind. eexists. split; [done|].
    split; [by destruct (zlen (pk_data p) >? 0)|].
    assert (acc_holds g (ps ++ [p])) as Hag.
    { constructor; try done; [|by rewrite Hgf]. apply Forall_app; auto. }
    destruct Hq. destruct (zlen (pk_data p) >? 0); subst g; constructor; cbn; try done; exists es; by split.
  - assert (jd_push_in_frame (tx_acc_buffer st) (pk_service_index p) (pk_service_command p) (zlen (pk_data p)) =
      Ret (None, tx_acc_buffer st)) as ->.
    { destruct Hp as (? & ? & ?). pose proof (zlen_nonneg (pk_data p)). unfold pk_len in *.
      rewrite jd_push_in_frame_spec by (done || lia). by rewrite (proj2 (Z.leb_gt _ _)) by lia. }
    obind. assert (ps <> []) as Hne by (intros ->; simpl in Hl; unfold pk_len in *; lia).
    destruct (send_sealed st _ ps es Ha Hne Hq) as (r & f' & st1 & -> & Hf' & Hfl' & Hq1 & Ha1 & Hs1). obind.
    pose proof (jd_reset_frame_holds f' Hf' Hfl') as Ha0. pose proof Ha0 as [Hr0 _ _ _ _].
    pose proof (proj2 (acc_holds_empty _ _ Ha0) eq_refl) as Hz.
    destruct (push_copy (jd_reset_frame f') p) as (trg & h & -> & Hpush); try done; [unfold pk_len; lia..|].
    destruct (push_packet_laid (jd_reset_frame f') p []) as (g & Hg & Hgo & Hg4 & Hgs & _ & Hgl & Hgf);
      try done; [by rewrite Hz|unfold pk_len; lia|].
    rewrite Hg in Hpush. injection Hpush as Hpush. obind. eexists. split; [done|].
    split; [by destruct (zlen (pk_data p) >? 0)|].
    assert (acc_holds g [p]) as Hag.
    { constructor; try done; [constructor; [done|constructor]|]. rewrite Hgf. apply Ha0. }
    pose proof (tx_inv_queued es (will_queue st) _ ps qs Hes (proj1 (seal_ok _ ps Ha Hne))) as Hes'.
    fold (will_queue st) in Hq1. destruct Hq1.
    destruct (zlen (pk_data p) >? 0); subst g; constructor; cbn; try done;
      try (eexists; split; [|exact Hes']; by constructor);
      rewrite Hs1; intros Hsd%Hsend; destruct (will_queue st); [by destruct qs|done|by destruct qs|done].
Qed.

Lemma jd_tx_flush_ok st ps qs :
  tx_inv st ps qs ->
  exists st', jd_tx_flush self false st = Ret st' /\ q_sending st' = q_sending st /\
    tx_inv st' [] (if decide (ps = []) then qs else if will_queue st then qs ++ [ps] else qs).
Proof using Hself.
  intros [Ha (es & Hq & Hes) Hsend]. unfold jd_tx_flush. pose proof (acc_holds_empty _ _ Ha) as Hemp.
  destruct (Z.eqb_spec (f_size (tx_acc_buffer st)) 0) as [E|E].
  - exists st. split; [done|]. split; [done|]. apply Hemp in E as ->. rewrite decide_True by done.
    constructor; [done|eauto|done].
  - assert (ps <> []) as Hne by tauto. rewrite decide_False by done.
    destruct (send_sealed st _ ps es Ha Hne Hq) as (r & f' & st1 & -> & Hf' & Hfl' & Hq1 & Ha1 & Hs1). obind.
    eexists. split; [done|]. split; [done|].
    pose proof (tx_inv_queued es (will_queue st) _ ps qs Hes (proj1 (seal_ok _ ps Ha Hne))) as Hes'.
    fold (will_queue st) in Hq1. destruct Hq1. constructor; cbn.
    + by apply jd_reset_frame_holds.
    + eexists. split; [|exact Hes']. by constructor.
    + rewrite Hs1. intros Hsd%Hsend. destruct (will_queue st); [by destruct qs|done].
Qed.

(** The physical layer takes the frame at the front, and later releases it. *)
Lemma jd_tx_get_frame_ok st ps qs :
  tx_inv st ps qs -> q_sending st = false ->
  match qs with
  | [] => jd_tx_get_frame st = Ret (None, st)
  | q :: _ => exists off, jd_tx_get_frame st = Ret (Some off, set_sending st true) /\
      sealed (q_frame_at (send_queue st) off) q /\ tx_inv (set_sending st true) ps qs
  end.
Proof using.
  intros [Ha (es & Hq & Hes) Hsend] Hns. unfold jd_tx_get_frame. rewrite Hns. cbn [negb].
  pose proof Hq as [Hs _ _ _]. destruct Hes as [|e q es qs He Hes].
  - by rewrite q_front_none by done.
  - destruct (q_front_shift _ _ _ Hs) as (off & q' & -> & Hfr & _). exists off.
    rewrite Hfr. split_and!; try done. constructor; cbn; try done.
    exists (e :: es). split; [destruct Hq; by constructor|by constructor].
Qed.

Lemma jd_tx_frame_sent_ok st ps qs :
  tx_inv st ps qs -> q_sending st = true ->
  exists st', jd_tx_frame_sent st = Ret st' /\ q_sending st' = false /\ tx_inv st' ps (tail qs).
Proof using.
  intros [Ha (es & Hq & Hes) Hsend] Hns. unfold jd_tx_frame_sent. rewrite Hns.
  pose proof Hq as [Hs Hsz ? ?]. specialize (Hsend Hns). destruct Hes as [|e q es qs He Hes]; [done|].
  destruct (q_front_shift _ _ _ Hs) as (off & q' & _ & _ & -> & Hq' & Hs'). obind.
  eexists. split; [done|]. unfold poke_ready. cbn. split; [by case_match|].
  case_match; (constructor; cbn; try done; exists es; split; [constructor; cbn; done || congruence|done]).
Qed.

Lemma jd_rx_frame_received_ok st ps qs frame :
  tx_inv st ps qs -> frame_ok frame -> 0 < f_size frame <= 240 ->
  exists r frame' st', jd_rx_frame_received self st frame = Ret (r, frame', st') /\
    q_sending st' = q_sending st /\ tx_inv st' ps qs.
Proof using.
  intros [Ha (es & Hq & Hes) Hsend] Hf Hs.
  destruct (rx_core_ok st frame false es Hq Hf Hs) as (r & f' & st' & E & _ & Hq' & Ha' & Hs' & _).
  unfold jd_rx_frame_received. rewrite E. eexists _, _, _. split; [done|]. split; [done|].
  constructor; [congruence|eauto|]. by rewrite Hs'.
Qed.
End TxRxProofs.

(** ** Histories

    Any interleaving of the application's calls ([jd_send], [jd_tx_flush]), the
    physical layer's ([jd_tx_get_frame], [jd_tx_frame_sent]) and receptions.
    [sent] are the packets given to [jd_send], [wire] the frames handed to the
    physical layer; [lossless] says that no sealed frame met a full queue. *)
Inductive tx_history (self : Z) : txrx -> list packet -> list (list Z) -> bool -> Prop :=
  | TH_init : tx_history self txrx0 [] [] true
  | TH_send st sent wire ok p r st' :
      tx_history self st sent wire ok -> packet_ok p -> zlen (pk_data p) <= 232 ->
      jd_send self false st (pk_service_index p) (pk_service_command p) (pk_data p) (zlen (pk_data p)) = Ret (r, st') ->
      tx_history self st' (sent ++ [p]) wire (ok && (has_room st p || will_queue self st))
  | TH_flush st sent wire ok st' :
      tx_history self st sent wire ok -> jd_tx_flush self false st = Ret st' ->
      tx_history self st' sent wire (ok && ((f_size (tx_acc_buffer st) =? 0) || will_queue self st))
  | TH_get st sent wire ok off st' :
      tx_history self st sent wire ok -> jd_tx_get_frame st = Ret (Some off, st') ->
      tx_history self st' sent (wire ++ [q_frame_at (send_queue st) off]) ok
  | TH_frame_sent st sent wire ok st' :
      tx_history self st sent wire ok -> jd_tx_frame_sent st = Ret st' ->
      tx_history self st' sent wire ok
  | TH_received st sent wire ok frame r frame' st' :
      tx_history self st sent wire ok -> frame_ok frame -> 0 < f_size frame <= 240 ->
      jd_rx_frame_received self st frame = Ret (r, frame', st') ->
      tx_history self st' sent wire ok.

(** The queued frames that are not yet on the wire. *)
Definition waiting {A} (sending : bool) (qs : list A) : list A := if sending then tail qs else qs.

Record tx_accounted (self : Z) (st : txrx) (sent : list packet) (wire : list (list Z)) (ok : bool)
    (ps : list packet) (qs ws : list (list packet)) : Prop := {
  ta_inv : tx_inv self st ps qs;
  ta_wire : Forall2 (sealed self) wire ws;
  ta_order : sublist (concat ws ++ concat (waiting (q_sending st) qs) ++ ps) sent;
  ta_exact : ok = true -> concat ws ++ concat (waiting (q_sending st) qs) ++ ps = sent;
}.

Lemma waiting_snoc {A} b (qs : list (list A)) ps :
  (b = true -> qs <> []) -> concat (waiting b (qs ++ [ps])) = concat (waiting b qs) ++ ps.
Proof.
  intros H. destruct b; cbn [waiting].
  - destruct qs as [|q qs]; [by destruct (H eq_refl)|]. simpl. rewrite concat_app. simpl. by rewrite app_nil_r.
  - rewrite concat_app. simpl. by rewrite app_nil_r.
Qed.

Lemma sublist_drop_mid {A} (a b c d : list A) : sublist (a ++ b ++ c) d -> sublist (a ++ b) d.
Proof.
  intros H. etrans; [|exact H]. rewrite app_assoc. by apply sublist_inserts_r.
Qed.

Lemma tx0_inv self : tx_inv self txrx0 [] [].
Proof.
  destruct (q_alloc_repr 512) as [Hq Hs]; [lia|]. constructor; [|cbn|done].
  - constructor; [|done|done|constructor|done].
    constructor; [done|]. unfold txrx0, tx_acc_buffer. by apply Forall_replicate.
  - exists []. split; [|constructor]. constructor; cbn; eauto.
Qed.

Section History.
Context (self : Z).
Hypothesis (Hself : 0 <= self < 2 ^ 64).

Lemma tx_accounted_send st sent wire ok ps qs ws p r st' :
  tx_accounted self st sent wire ok ps qs ws -> packet_ok p -> zlen (pk_data p) <= 232 ->
  jd_send self false st (pk_service_index p) (pk_service_command p) (pk_data p) (zlen (pk_data p)) = Ret (r, st') ->
  exists ps' qs', tx_accounted self st' (sent ++ [p]) wire (ok && (has_room st p || will_queue self st)) ps' qs' ws.
Proof using Hself.
  intros [Hinv Hw Ho He] Hp Hl E.
  destruct (jd_send_ok self Hself st ps qs p Hinv Hp Hl) as (st1 & E1 & Hs & Hr).
  rewrite E1 in E. simplify_eq. pose proof (ti_sending _ _ _ _ Hinv) as Hne.
  destruct (has_room st p); [|destruct (will_queue self st)]; eexists _, _; constructor; try exact Hr; try done;
    rewrite ?Hs, ?waiting_snoc by done.
  - rewrite !app_assoc. rewrite !app_assoc in Ho. by apply sublist_app.
  - intros [Hok _]%andb_true_iff. rewrite <- (He Hok). by rewrite !app_assoc.
  - rewrite <- !app_assoc. rewrite !app_assoc. rewrite !app_assoc in Ho. by apply sublist_app.
  - intros [Hok _]%andb_true_iff. rewrite <- (He Hok). by rewrite <- !app_assoc.
  - rewrite app_assoc. apply sublist_app; [|done]. by eapply sublist_drop_mid.
  - rewrite andb_false_r. done.
Qed.

Lemma tx_accounted_flush st sent wire ok ps qs ws st' :
  tx_accounted self st sent wire ok ps qs ws -> jd_tx_flush self false st = Ret st' ->
  exists ps' qs', tx_accounted self st' sent wire
    (ok && ((f_size (tx_acc_buffer st) =? 0) || will_queue self st)) ps' qs' ws.
Proof using Hself.
  intros [Hinv Hw Ho He] E.
  destruct (jd_tx_flush_ok self Hself st ps qs Hinv) as (st1 & E1 & Hs & Hr).
  rewrite E1 in E. simplify_eq. pose proof (ti_sending _ _ _ _ Hinv) as Hne.
  pose proof (acc_holds_empty _ _ (ti_acc _ _ _ _ Hinv)) as Hemp.
  destruct (decide (ps = [])) as [->|Hps]; [|destruct (will_queue self st)]; eexists _, _;
    constructor; try exact Hr; try done; rewrite ?Hs, ?waiting_snoc, ?app_nil_r by done.
  - by rewrite app_nil_r in Ho.
  - intros [Hok _]%andb_true_iff. rewrite <- (He Hok). by rewrite app_nil_r.
  - done.
  - intros [Hok _]%andb_true_iff. by rewrite <- (He Hok).
  - by eapply sublist_drop_mid.
  - rewrite (proj2 (Z.eqb_neq _ _)) by tauto. rewrite andb_false_r. done.
Qed.

Lemma tx_history_accounted st sent wire ok :
  tx_history self st sent wire ok -> exists ps qs ws, tx_accounted self st sent wire ok ps qs ws.
Proof using Hself.
  induction 1 as [|st sent wire ok p r st' _ (ps & qs & ws & H) Hp Hl E
    |st sent wire ok st' _ (ps & qs & ws & H) E|st sent wire ok off st' _ (ps & qs & ws & H) E
    |st sent wire ok st' _ (ps & qs & ws & H) E
    |st sent wire ok frame r frame' st' _ (ps & qs & ws & H) Hf Hsz E].
  - exists [], [], []. constructor; [apply tx0_inv|constructor|done|done].
  - destruct (tx_accounted_send _ _ _ _ _ _ _ _ _ _ H Hp Hl E) as (ps' & qs' & ?). eauto.
  - destruct (tx_accounted_flush _ _ _ _ _ _ _ _ H E) as (ps' & qs' & ?). eauto.
  - destruct H as [Hinv Hw Ho He]. destruct (q_sending st) eqn:Hs;
      [unfold jd_tx_get_frame in E; by rewrite Hs in E|].
    pose proof (jd_tx_get_frame_ok self st ps qs Hinv Hs) as Hg. destruct qs as [|q qs]; [congruence|].
    destruct Hg as (off' & E1 & Hsl & Hinv'). rewrite E1 in E. simplify_eq.
    exists ps, (q :: qs), (ws ++ [q]). cbn [waiting concat] in Ho, He. constructor; cbn; try done.
    + apply Forall2_app; auto.
    + rewrite concat_app. cbn [concat]. rewrite app_nil_r, <- !app_assoc. rewrite <- !app_assoc in Ho. done.
    + intros Hok. rewrite concat_app. cbn [concat]. rewrite app_nil_r, <- (He Hok), <- !app_assoc. done.
  - destruct H as [Hinv Hw Ho He]. destruct (q_sending st) eqn:Hs;
      [|unfold jd_tx_frame_sent in E; by rewrite Hs in E].
    destruct (jd_tx_frame_sent_ok self st ps qs Hinv Hs) as (st1 & E1 & Hs' & Hinv').
    rewrite E1 in E. simplify_eq. exists ps, (tail qs), ws. constructor; rewrite ?Hs'; done.
  - destruct H as [Hinv Hw Ho He].
    destruct (jd_rx_frame_received_ok self st ps qs frame Hinv Hf Hsz) as (r1 & f1 & st1 & E1 & Hs & Hinv').
    rewrite E1 in E. simplify_eq. exists ps, qs, ws. constructor; rewrite ?Hs; done.
Qed.
End History.

(** ** Properties *)

(** C1. Ordered delivery to the wire: whatever the interleaving of sends,
    flushes, transmissions and receptions, the frames handed to the physical
    layer are sealed frames of this device with a correct CRC whose packets are
    packets given to [jd_send], in order and none twice; and once the transmit
    side is idle and no frame met a full queue, they are exactly the packets
    that were sent. *)
Theorem tx_wire_in_order self st sent wire ok :
  0 <= self < 2 ^ 64 -> tx_history self st sent wire ok ->
  exists ws, Forall2 (sealed self) wire ws /\ sublist (concat ws) sent /\
    (ok = true -> jd_tx_is_idle st = true -> concat ws = sent).
Proof.
  intros Hself H. destruct (tx_history_accounted self Hself _ _ _ _ H) as (ps & qs & ws & [Hinv Hw Ho He]).
  exists ws. split_and!; [done|..].
  - etrans; [|exact Ho]. by apply sublist_inserts_r.
  - intros Hok Hidle. rewrite <- (He Hok). unfold jd_tx_is_idle in Hidle.
    destruct (q_sending st); [done|]. destruct Hinv as [Ha (es & Hq & Hes) _]. cbn [orb waiting] in *.
    assert (qs = []) as ->.
    { destruct Hes as [|e q es qs]; [done|]. destruct Hq as [Hs _ _ _].
      destruct (q_front_shift _ _ _ Hs) as (off & q' & E & _). by rewrite E in Hidle. }
    assert (ps = []) as ->; [|by rewrite !app_nil_r].
    apply (acc_holds_empty _ _ Ha). destruct (jd_queue_front (send_queue st)); [done|].
    by destruct (Z.eqb_spec (f_size (tx_acc_buffer st)) 0).
Qed.

(** [jd_send] cannot fail or panic: in every reachable state a packet of
    up to 232 payload bytes is accepted with result 0. *)
Lemma jd_send_total self st sent wire ok p :
  0 <= self < 2 ^ 64 -> tx_history self st sent wire ok -> packet_ok p -> zlen (pk_data p) <= 232 ->
  exists st', jd_send self false st (pk_service_index p) (pk_service_command p) (pk_data p) (zlen (pk_data p)) = Ret (0, st').
Proof.
  intros Hself H Hp Hl. destruct (tx_history_accounted self Hself _ _ _ _ H) as (ps & qs & ws & [Hinv _ _ _]).
  destruct (jd_send_ok self Hself st ps qs p Hinv Hp Hl) as (st' & E & _). eauto.
Qed.

(** A device that sends one packet, flushes it and transmits it. *)
Definition tx_after {A} (o : outcome (A * txrx)) : txrx := match o with Ret (_, st) => st | _ => txrx0 end.
Definition tx_after' (o : outcome txrx) : txrx := match o with Ret st => st | _ => txrx0 end.
Definition demo_packet : packet := Build_packet 2 0x1001 [7; 8].
Definition demo1 : txrx := tx_after (jd_send 77 false txrx0 2 0x1001 [7; 8] 2).
Definition demo2 : txrx := tx_after' (jd_tx_flush 77 false demo1).
Definition demo3 : txrx := tx_after (jd_tx_get_frame demo2).
Definition demo4 : txrx := tx_after' (jd_tx_frame_sent demo3).

Lemma demo_packet_ok : packet_ok demo_packet.
Proof. unfold packet_ok, is_byte. simpl. split_and!; try lia. repeat constructor; lia. Qed.

Lemma demo_history :
  tx_history 77 demo4 [demo_packet] [q_frame_at (send_queue demo2) 0] (true && true && true).
Proof.
  apply (TH_frame_sent _ demo3); [|vm_compute; reflexivity].
  apply (TH_get _ demo2 _ [] _ 0); [|vm_compute; reflexivity].
  apply (TH_flush _ demo1 _ _ (true && true)); [|vm_compute; reflexivity].
  apply (TH_send _ txrx0 [] [] true demo_packet 0); [constructor|apply demo_packet_ok|vm_compute; done|].
  vm_compute. reflexivity.
Qed.

Lemma tx_wire_in_order_witness :
  exists ws, Forall2 (sealed 77) [q_frame_at (send_queue demo2) 0] ws /\ concat ws = [demo_packet].
Proof.
  destruct (tx_wire_in_order 77 demo4 [demo_packet] [q_frame_at (send_queue demo2) 0] (true && true && true))
    as (ws & H1 & _ & H2); [lia|apply demo_history|].
  exists ws. split; [exact H1|]. apply H2; vm_compute; reflexivity.
Defined.

(** The loopback reception marks the accumulation buffer itself, and resetting
    the buffer keeps its flags: from the second frame on, what goes to the wire
    carries [JD_FRAME_FLAG_LOOPBACK]. *)
Definition demo5 : txrx := tx_after' (jd_tx_flush 77 false (tx_after (jd_send 77 false demo4 2 0x1001 [7; 8] 2))).

Lemma loopback_flag_on_wire :
  has_flag (f_flags (q_frame_at (send_queue demo2) 0)) JD_FRAME_FLAG_LOOPBACK = false /\
  exists off, jd_queue_front (send_queue demo5) = Some off /\
    has_flag (f_flags (q_frame_at (send_queue demo5) off)) JD_FRAME_FLAG_LOOPBACK = true.
Proof. vm_compute. split; [reflexivity|]. eexists. split; reflexivity. Qed.
