(* ===== verification/Opipe.v ===== *)
(** * Output pipes ([source/jd_opipe.c], [inc/jd_pipes.h])

    A pipe sends numbered packets to a port of another device, a frame at a
    time: a full or flushed frame is sent and repeated, with growing delays,
    until the receiver acknowledges its CRC. The descriptors are caller-owned
    structs linked into the list [opipes]: they live in a store from addresses
    to descriptors, 0 being [NULL]. Frames go out through [FrameSender]. *)
From stdpp Require Import gmap.
From S2P Require Import Prelude Frame Util Iface.

Definition JD_PIPE_OK : Z := 0.
Definition JD_PIPE_TRY_AGAIN : Z := 1.
Definition JD_PIPE_TIMEOUT : Z := -1.
Definition JD_PIPE_ERROR : Z := -2.
Definition JD_OPIPE_MAX_RETRIES : Z := 4.

Definition ST_FREE : Z := 0x00.
Definition ST_OPEN : Z := 0x01.
Definition ST_CLOSED_UNSENT : Z := 0x80.
Definition ST_CLOSED_WAITING : Z := 0x82.
Definition ST_DROPPED : Z := 0x08.

(** [jd_opipe_desc_t] *)
Record opipe := {
  op_next : Z;
  op_counter : Z;      (* uint16_t *)
  op_status : Z;       (* uint8_t *)
  op_curr_retry : Z;   (* uint8_t *)
  op_retry_time : Z;   (* uint32_t *)
  op_frame : list Z;
}.

Definition opipe_zero : opipe :=
  {| op_next := 0; op_counter := 0; op_status := 0; op_curr_retry := 0; op_retry_time := 0;
     op_frame := replicate 252 0 |}.

Record opipe_state := { op_heap : gmap Z opipe; opipes : Z }.

Definition opd (st : opipe_state) (p : Z) : opipe := default opipe_zero (op_heap st !! p).
Definition set_opd (st : opipe_state) (p : Z) (d : opipe) : opipe_state :=
  {| op_heap := <[p := d]> (op_heap st); opipes := opipes st |}.
Definition set_opipes (st : opipe_state) (p : Z) : opipe_state :=
  {| op_heap := op_heap st; opipes := p |}.

Definition set_op_next (d : opipe) (v : Z) : opipe :=
  {| op_next := v; op_counter := op_counter d; op_status := op_status d;
     op_curr_retry := op_curr_retry d; op_retry_time := op_retry_time d; op_frame := op_frame d |}.
Definition set_counter (d : opipe) (v : Z) : opipe :=
  {| op_next := op_next d; op_counter := v; op_status := op_status d;
     op_curr_retry := op_curr_retry d; op_retry_time := op_retry_time d; op_frame := op_frame d |}.
Definition set_status (d : opipe) (v : Z) : opipe :=
  {| op_next := op_next d; op_counter := op_counter d; op_status := v;
     op_curr_retry := op_curr_retry d; op_retry_time := op_retry_time d; op_frame := op_frame d |}.
Definition set_retry (d : opipe) (v : Z) : opipe :=
  {| op_next := op_next d; op_counter := op_counter d; op_status := op_status d;
     op_curr_retry := v; op_retry_time := op_retry_time d; op_frame := op_frame d |}.
Definition set_retry_time (d : opipe) (v : Z) : opipe :=
  {| op_next := op_next d; op_counter := op_counter d; op_status := op_status d;
     op_curr_retry := op_curr_retry d; op_retry_time := v; op_frame := op_frame d |}.
Definition set_frame (d : opipe) (v : list Z) : opipe :=
  {| op_next := op_next d; op_counter := op_counter d; op_status := op_status d;
     op_curr_retry := op_curr_retry d; op_retry_time := op_retry_time d; op_frame := v |}.

(** A traversal of a list of [n] descriptors takes at most [n + 1] turns. *)
Definition list_fuel (st : opipe_state) : nat := S (size (op_heap st)).

(** [for (ss = opipes; ss; ss = ss->next) if (ss->next == str) ...] *)
Fixpoint unlink_loop (fuel : nat) (st : opipe_state) (ss str : Z) : outcome opipe_state :=
  match fuel with
  | O => OutOfFuel
  | S fuel' =>
      if ss =? 0 then Ret st
      else if op_next (opd st ss) =? str
      then Ret (set_opd st ss (set_op_next (opd st ss) (op_next (opd st str))))
      else unlink_loop fuel' st (op_next (opd st ss)) str
  end.

Definition jd_opipe_unlink (st : opipe_state) (str : Z) : outcome opipe_state :=
  if op_status (opd st str) =? ST_FREE then Ret st
  else
    st ← (if opipes st =? str then Ret (set_opipes st (op_next (opd st str)))
          else unlink_loop (list_fuel st) st (opipes st) str);
    Ret (set_opd st str opipe_zero).

Definition jd_opipe_open (in_irq : bool) (st : opipe_state) (str device_id port_num : Z)
    : outcome (Z * opipe_state) :=
  if device_id =? 0 then Ret (JD_PIPE_ERROR, st)
  else if in_irq then Panic
  else
    st ← jd_opipe_unlink st str;
    let d := opd st str in
    let f := set_f_device_identifier (op_frame d) device_id in
    let f := set_f_flags f (Z.lor JD_FRAME_FLAG_COMMAND JD_FRAME_FLAG_ACK_REQUESTED) in
    let d := set_frame d f in
    let d := set_counter d (u16 (Z.shiftl port_num JD_PIPE_PORT_SHIFT)) in
    let d := set_status d ST_OPEN in
    let d := set_retry d 0 in
    let d := set_op_next d (opipes st) in
    Ret (JD_PIPE_OK, set_opipes (set_opd st str d) str).

(** [jd_pipe_cmd_t]: a device identifier, a port number and a reserved word. *)
Definition sizeof_pipe_cmd : Z := 12.
Definition jd_opipe_open_cmd (in_irq : bool) (st : opipe_state) (str : Z) (pkt : list Z)
    : outcome (Z * opipe_state) :=
  if p_service_size pkt <? sizeof_pipe_cmd then Ret (JD_PIPE_ERROR, st)
  else jd_opipe_open in_irq st str (get64 pkt 16) (get16 pkt 24).

Definition jd_opipe_open_report (in_irq : bool) (st : opipe_state) (str : Z) (pkt : list Z)
    : outcome (Z * opipe_state) :=
  if p_service_size pkt <? 2 then Ret (JD_PIPE_ERROR, st)
  else jd_opipe_open in_irq st str (f_device_identifier pkt) (get16 pkt 16).

Definition do_flush (now : Z) (d : opipe) : outcome opipe :=
  JD_ASSERT op_curr_retry d =? 0 ;;
  let d := set_frame d (jd_compute_crc (op_frame d)) in
  let d := set_retry d 1 in
  Ret (set_retry_time d now).

(** These work on one descriptor. *)
Definition jd_opipe_check_space (now : Z) (d : opipe) (len : Z) : outcome (Z * opipe) :=
  if op_status d =? ST_DROPPED then Ret (JD_PIPE_TIMEOUT, d)
  else if negb (op_status d =? ST_OPEN) then Ret (JD_PIPE_ERROR, d)
  else if negb (op_curr_retry d =? 0) then Ret (JD_PIPE_TRY_AGAIN, d)
  else if u32 (f_size (op_frame d) + 4 + len) <=? JD_SERIAL_PAYLOAD_SIZE then Ret (JD_PIPE_OK, d)
  else d ← do_flush now d; Ret (JD_PIPE_TRY_AGAIN, d).

Definition next_counter (c : Z) : Z :=
  Z.lor (Z.land (c + 1) JD_PIPE_COUNTER_MASK) (Z.ldiff c JD_PIPE_COUNTER_MASK).

Definition jd_opipe_write_ex (now : Z) (d : opipe) (data : list Z) (len flags : Z) : outcome (Z * opipe) :=
  '(r, d) ← jd_opipe_check_space now d len;
  if negb (r =? 0) then Ret (r, d)
  else
    '(trg, f) ← jd_push_in_frame (op_frame d) JD_SERVICE_INDEX_STREAM (Z.lor (op_counter d) flags) len;
    match trg with
    | None => Panic (* JD_ASSERT(trg != NULL) *)
    | Some trg =>
        let d := set_frame d (mwrite f trg (mread data 0 len)) in
        Ret (JD_PIPE_OK, set_counter d (next_counter (op_counter d)))
    end.

Definition jd_opipe_flush (now : Z) (d : opipe) : outcome (Z * opipe) :=
  if (op_status d =? ST_OPEN) && (op_curr_retry d =? 0) && (f_size (op_frame d) =? 0)
  then Ret (JD_PIPE_OK, d)
  else jd_opipe_check_space now d 0x100000.

Definition jd_opipe_write_meta (now : Z) (d : opipe) (data : list Z) (len : Z) :=
  jd_opipe_write_ex now d data len JD_PIPE_METADATA_MASK.
Definition jd_opipe_write (now : Z) (d : opipe) (data : list Z) (len : Z) :=
  jd_opipe_write_ex now d data len 0.

Definition jd_opipe_send_close_pkt (now : Z) (d : opipe) : outcome (Z * opipe) :=
  let d := set_status d ST_OPEN in
  '(r, d) ← jd_opipe_write_ex now d [] 0 (Z.lor JD_PIPE_CLOSE_MASK JD_PIPE_METADATA_MASK);
  if r =? JD_PIPE_OK then
    let d := set_status d ST_CLOSED_WAITING in
    d ← do_flush now d;
    Ret (JD_PIPE_TRY_AGAIN, d)
  else Ret (r, set_status d ST_CLOSED_UNSENT).

Definition jd_opipe_close (now : Z) (st : opipe_state) (str : Z) : outcome (Z * opipe_state) :=
  let status := op_status (opd st str) in
  if status =? ST_DROPPED then st ← jd_opipe_unlink st str; Ret (JD_PIPE_OK, st)
  else if status =? ST_FREE then Ret (JD_PIPE_OK, st)
  else if status =? ST_CLOSED_WAITING then Ret (JD_PIPE_TRY_AGAIN, st)
  else if (status =? ST_OPEN) || (status =? ST_CLOSED_UNSENT) then
    '(r, d) ← jd_opipe_send_close_pkt now (opd st str); Ret (r, set_opd st str d)
  else Panic.

(** One turn of the loop of [jd_opipe_handle_packet]. *)
Definition opipe_ack (now : Z) (st : opipe_state) (str : Z) (pkt : list Z) : outcome opipe_state :=
  let d := opd st str in
  if negb (op_curr_retry d =? 0) && (p_service_command pkt =? f_crc (op_frame d))
     && (f_device_identifier (op_frame d) =? f_device_identifier pkt)
  then
    let d := set_retry d 0 in
    let d := set_frame d (jd_reset_frame (op_frame d)) in
    if op_status d =? ST_CLOSED_WAITING then jd_opipe_unlink (set_opd st str d) str
    else if op_status d =? ST_CLOSED_UNSENT then
      '(_, d) ← jd_opipe_send_close_pkt now d; Ret (set_opd st str d)
    else Ret (set_opd st str d)
  else Ret st.

Fixpoint handle_packet_loop (fuel : nat) (now : Z) (st : opipe_state) (str : Z) (pkt : list Z)
    : outcome opipe_state :=
  match fuel with
  | O => OutOfFuel
  | S fuel' =>
      if str =? 0 then Ret st
      else
        st ← opipe_ack now st str pkt;
        handle_packet_loop fuel' now st (op_next (opd st str)) pkt
  end.

Definition jd_opipe_handle_packet (in_irq : bool) (now : Z) (st : opipe_state) (pkt : list Z)
    : outcome opipe_state :=
  if negb (p_service_index pkt =? JD_SERVICE_INDEX_CRC_ACK) || has_flag (f_flags pkt) JD_FRAME_FLAG_COMMAND
  then Ret st
  else if in_irq then Panic
  else handle_packet_loop (list_fuel st) now st (opipes st) pkt.

Section Process.
Context `{FrameSender T}.

(** One turn of the loop of [jd_opipe_process]. *)
Definition opipe_retry (now : Z) (d : opipe) (tx : T) : outcome (opipe * T) :=
  if negb (op_curr_retry d =? 0) && in_past now (op_retry_time d) then
    if op_curr_retry d <? JD_OPIPE_MAX_RETRIES + 1 then
      '(r, f, tx) ← send_frame tx (op_frame d);
      let d := set_frame d f in
      if r =? 0 then
        let d := set_retry_time d (u32 (now + Z.shiftl (4 * 1024) (op_curr_retry d))) in
        Ret (set_retry d (u8 (op_curr_retry d + 1)), tx)
      else Ret (set_retry_time d (u32 (now + Z.shiftl 64 10)), tx)
    else if op_curr_retry d =? JD_OPIPE_MAX_RETRIES + 1 then
      let d := set_retry_time d (u32 (now + 32 * 1024)) in
      Ret (set_retry d (u8 (op_curr_retry d + 1)), tx)
    else Ret (set_status d ST_DROPPED, tx)
  else Ret (d, tx).

Fixpoint opipe_process_loop (fuel : nat) (now : Z) (st : opipe_state) (tx : T) (str : Z)
    : outcome (opipe_state * T) :=
  match fuel with
  | O => OutOfFuel
  | S fuel' =>
      if str =? 0 then Ret (st, tx)
      else
        '(d, tx) ← opipe_retry now (opd st str) tx;
        let st := set_opd st str d in
        opipe_process_loop fuel' now st tx (op_next (opd st str))
  end.

Definition jd_opipe_process (in_irq : bool) (now : Z) (st : opipe_state) (tx : T)
    : outcome (opipe_state * T) :=
  if in_irq then Panic else opipe_process_loop (list_fuel st) now st tx (opipes st).
End Process.

(** ** The linked list *)

(** From [p] on, the list runs through the descriptors [l]. *)
Fixpoint chain (st : opipe_state) (p : Z) (l : list Z) : Prop :=
  match l with
  | [] => p = 0
  | q :: l' => p = q /\ q <> 0 /\ is_Some (op_heap st !! q) /\ chain st (op_next (opd st q)) l'
  end.

(** The open pipes are exactly the linked ones. *)
Record pipes_ok (st : opipe_state) (l : list Z) : Prop := {
  po_chain : chain st (opipes st) l;
  po_nodup : NoDup l;
  po_linked : forall p, op_status (opd st p) <> ST_FREE <-> p ∈ l;
}.

Lemma opd_set st p q d : opd (set_opd st p d) q = if decide (q = p) then d else opd st q.
Proof.
  unfold opd, set_opd. cbn. case_decide; [subst; by rewrite lookup_insert_eq|by rewrite lookup_insert_ne].
Qed.

Lemma opd_head st p q : opd (set_opipes st p) q = opd st q.
Proof. done. Qed.

Lemma heap_set st p q d : is_Some (op_heap st !! q) -> is_Some (op_heap (set_opd st p d) !! q).
Proof.
  intros. unfold set_opd. cbn. destruct (decide (p = q)) as [->|]; [by rewrite lookup_insert_eq|].
  by rewrite lookup_insert_ne.
Qed.

(** Changes that keep the links of [l] keep the list. *)
Lemma chain_agree st st' l : forall p,
  (forall q, q ∈ l -> op_next (opd st' q) = op_next (opd st q)) ->
  (forall q, is_Some (op_heap st !! q) -> is_Some (op_heap st' !! q)) ->
  chain st p l -> chain st' p l.
Proof.
  induction l as [|q l IH]; intros p Hn Hh; cbn [chain]; [done|].
  intros (-> & H0 & Hs & Hc). split_and!; auto. rewrite Hn by set_solver. apply IH; auto. set_solver.
Qed.

Lemma chain_length st p l : chain st p l -> NoDup l -> (length l <= size (op_heap st))%nat.
Proof.
  intros Hc Hnd. rewrite <- (size_dom (D := gset Z)), <- (size_list_to_set (C := gset Z)) by done.
  apply subseteq_size. intros q Hq%elem_of_list_to_set. apply elem_of_dom.
  clear Hnd. revert p Hc; induction l as [|x l IH]; intros p; [set_solver|].
  cbn [chain]. intros (_ & _ & Hs & Hc). apply elem_of_cons in Hq as [->|Hq]; eauto.
Qed.

Lemma unlink_loop_spec l1 : forall fuel st ss x str l2,
  chain st ss (l1 ++ x :: str :: l2) -> NoDup (l1 ++ x :: str :: l2) -> (length l1 < fuel)%nat ->
  unlink_loop fuel st ss str = Ret (set_opd st x (set_op_next (opd st x) (op_next (opd st str)))).
Proof.
  induction l1 as [|y l1 IH]; intros [|fuel] st ss x str l2 Hc Hnd Hf; simpl in Hf; try lia;
    cbn [app chain] in Hc; destruct Hc as (-> & H0 & _ & Hc); cbn [unlink_loop];
    rewrite (proj2 (Z.eqb_neq _ _)) by done.
  - destruct Hc as (-> & _). by rewrite Z.eqb_refl.
  - apply NoDup_cons in Hnd as [_ Hnd]. rewrite (proj2 (Z.eqb_neq (op_next (opd st y)) str)); [apply (IH _ _ _ _ _ l2); done || lia|].
    intros E. destruct l1 as [|z l1]; cbn [app chain] in Hc; destruct Hc as (E' & _); rewrite E in E'; subst;
      rewrite NoDup_cons in Hnd; set_solver.
Qed.

(** Unlinking takes the pipe out of the list and frees its descriptor. *)
Lemma jd_opipe_unlink_spec st l1 str l2 :
  pipes_ok st (l1 ++ str :: l2) ->
  exists st', jd_opipe_unlink st str = Ret st' /\ pipes_ok st' (l1 ++ l2) /\
    opd st' str = opipe_zero /\ is_Some (op_heap st' !! str).
Proof.
  intros [Hc Hnd Hl]. pose proof (chain_length _ _ _ Hc Hnd) as Hlen.
  assert (op_status (opd st str) <> ST_FREE) as Hs by (apply Hl; set_solver).
  assert (str ∉ l1 ++ l2) as Hni by (apply NoDup_app in Hnd as (? & ? & Hnd'); rewrite NoDup_cons in Hnd'; set_solver).
  assert (NoDup (l1 ++ l2)) as Hnd' by (revert Hnd; rewrite !NoDup_app; rewrite NoDup_cons; set_solver).
  unfold jd_opipe_unlink. rewrite (proj2 (Z.eqb_neq _ _)) by done.
  destruct l1 as [|y l1] using rev_ind.
  - destruct Hc as (E & H0 & Hh & Hc). rewrite E, Z.eqb_refl. obind. eexists. split; [done|]. split.
    + constructor; [|done|].
      * apply (chain_agree st); [|intros; by apply heap_set|done]. intros q Hq. rewrite opd_set.
        rewrite decide_False by set_solver. done.
      * intros p. rewrite opd_set. rewrite opd_head. case_decide; [subst; cbn; set_solver|]. rewrite Hl. set_solver.
    + rewrite opd_set, decide_True by done. cbn. rewrite lookup_insert_eq. by split.
  - clear IHl1. rewrite <- app_assoc in Hc, Hnd, Hlen. simpl in Hc, Hnd, Hlen.
    rewrite (proj2 (Z.eqb_neq (opipes st) str)).
    2:{ intros E. destruct l1 as [|z l1]; cbn [app chain] in Hc; destruct Hc as (E' & _); subst; set_solver. }
    rewrite (unlink_loop_spec l1 _ st _ y str l2) by
      (done || (unfold list_fuel; rewrite length_app in Hlen; simpl in Hlen; lia)). obind.
    eexists. split; [done|]. split.
    + constructor; [|done|].
      * rewrite <- app_assoc. cbn [app]. clear Hl Hs Hlen Hnd'.
        match goal with |- chain ?s _ ?l => change (chain s (opipes st) l) end. revert Hc Hni Hnd. generalize (opipes st).
        induction l1 as [|z l1 IH]; intros p Hc Hni Hnd; cbn [app chain] in *.
        -- destruct Hc as (-> & H0 & Hh & _ & H0' & Hh' & Hc). split_and!; try done; [by apply heap_set, heap_set|].
           rewrite !opd_set, (decide_False (P := y = str)), decide_True by set_solver. cbn.
           apply (chain_agree st); [|intros; by apply heap_set, heap_set|done].
           intros q Hq. rewrite !opd_set. rewrite !NoDup_cons in Hnd. rewrite !decide_False by set_solver. done.
        -- destruct Hc as (-> & H0 & Hh & Hc). split_and!; try done; [by apply heap_set, heap_set|].
           apply NoDup_cons in Hnd as [Hz Hnd].
           assert (z <> str /\ z <> y) as [Hz1 Hz2] by (split; intros ->; set_solver).
           rewrite !opd_set, !decide_False by done. apply IH; try done. set_solver.
      * intros p. rewrite !opd_set. case_decide; [subst; cbn; set_solver|].
        case_decide; [subst; cbn; rewrite Hl; set_solver|]. rewrite Hl. set_solver.
    + rewrite opd_set, decide_True by done. cbn. rewrite lookup_insert_eq. by split.
Qed.

(** A pipe that is not linked is pushed in front of the list. *)
Lemma push_front_ok st l str d :
  pipes_ok st l -> str ∉ l -> str <> 0 -> op_status d <> ST_FREE -> op_next d = opipes st ->
  pipes_ok (set_opipes (set_opd st str d) str) (str :: l).
Proof.
  intros [Hc Hnd Hl] Hni H0 Hst Hnx. constructor.
  - cbn [chain]. split_and!; try done.
    + cbn. rewrite lookup_insert_eq. by eexists.
    + rewrite opd_head, opd_set, decide_True, Hnx by done.
      apply (chain_agree st); [|intros; by apply (heap_set st)|done].
      intros q Hq. rewrite opd_head, opd_set, decide_False by set_solver. done.
  - by constructor.
  - intros p. rewrite opd_head, opd_set. case_decide; [subst; set_solver|]. rewrite Hl. set_solver.
Qed.

(** The state of a freshly opened pipe. *)
Record opened (d : opipe) (device_id port_num : Z) : Prop := {
  od_status : op_status d = ST_OPEN;
  od_retry : op_curr_retry d = 0;
  od_counter : op_counter d = u16 (port_num * 128);
}.

Lemma jd_opipe_open_spec st l str device_id port_num :
  pipes_ok st l -> str <> 0 -> device_id <> 0 ->
  exists st' l', jd_opipe_open false st str device_id port_num = Ret (JD_PIPE_OK, st') /\
    pipes_ok st' (str :: l') /\ opened (opd st' str) device_id port_num /\
    (forall q, q ∈ l' <-> q ∈ l /\ q <> str).
Proof.
  intros Hok H0 Hd. unfold jd_opipe_open. rewrite (proj2 (Z.eqb_neq _ _)) by done.
  assert (exists st1 l', jd_opipe_unlink st str = Ret st1 /\ pipes_ok st1 l' /\ (str ∉ l') /\
    (forall q, q ∈ l' <-> q ∈ l /\ q <> str)) as (st1 & l' & -> & Hok1 & Hni & Hl').
  { destruct (decide (str ∈ l)) as [Hin|Hni].
    - apply list_elem_of_split in Hin as (l1 & l2 & ->).
      destruct (jd_opipe_unlink_spec _ _ _ _ Hok) as (st1 & E & Hok1 & _).
      pose proof (po_nodup _ _ Hok) as Hnd. exists st1, (l1 ++ l2).
      assert (str ∉ l1 ++ l2) by (apply NoDup_app in Hnd as (? & ? & Hnd'); rewrite NoDup_cons in Hnd'; set_solver).
      split_and!; try done. intros q. split; [|set_solver]. intros. split; [set_solver|]. by intros ->.
    - exists st, l. unfold jd_opipe_unlink.
      assert (op_status (opd st str) = ST_FREE) as ->.
      { destruct (decide (op_status (opd st str) = ST_FREE)); [done|]. by apply (po_linked _ _ Hok) in n. }
      split_and!; try done. intros q. split; [|tauto]. intros. split; [done|]. by intros ->. }
  obind. eexists _, l'. split; [done|]. split; [by apply push_front_ok|]. split; [|done].
  rewrite opd_head, opd_set, decide_True by done. constructor; cbn; try done.
  unfold JD_PIPE_PORT_SHIFT. by rewrite Z.shiftl_mul_pow2 by lia.
Qed.

(** ** One pipe *)

Record opipe_ok (d : opipe) : Prop := {
  oo_frame : frame_ok (op_frame d);
  oo_size : f_size (op_frame d) mod 4 = 0 /\ f_size (op_frame d) <= 236;
  oo_counter : 0 <= op_counter d < 65536;
}.

Lemma next_counter_spec c : 0 <= c < 65536 ->
  next_counter c mod 32 = (c + 1) mod 32 /\ next_counter c / 32 = c / 32 /\ 0 <= next_counter c < 65536.
Proof.
  intros Hc. unfold next_counter, JD_PIPE_COUNTER_MASK. change 0x1f with (Z.ones 5).
  rewrite Z.land_ones, Z.ldiff_ones_r by lia.
  assert (Z.land ((c + 1) mod 2 ^ 5) (Z.shiftl (Z.shiftr c 5) 5) = 0) as Hdis.
  { apply Z.bits_inj'; intros i Hi. rewrite Z.land_spec, Z.bits_0. destruct (Z.ltb_spec i 5).
    - rewrite Z.shiftl_spec_low by lia. apply andb_false_r.
    - by rewrite Z.mod_pow2_bits_high by lia. }
  rewrite <- Z.lxor_lor, <- Z.add_nocarry_lxor by done.
  rewrite Z.shiftr_div_pow2, Z.shiftl_mul_pow2 by lia. change (2 ^ 5) with 32. word_lia.
Qed.

Definition stream_packet (counter flags : Z) (data : list Z) : packet :=
  {| pk_service_index := JD_SERVICE_INDEX_STREAM; pk_service_command := Z.lor counter flags; pk_data := data |}.

Lemma jd_opipe_write_ex_spec now d data flags r d1 :
  opipe_ok d -> Forall is_byte data -> zlen data < 2 ^ 30 -> 0 <= flags < 128 ->
  jd_opipe_check_space now d (zlen data) = Ret (r, d1) ->
  if r =? 0
  then d1 = d /\ exists g, jd_opipe_write_ex now d data (zlen data) flags =
      Ret (JD_PIPE_OK, set_counter (set_frame d g) (next_counter (op_counter d))) /\
      push_packet (op_frame d) (stream_packet (op_counter d) flags data) = Some g /\
      opipe_ok (set_counter (set_frame d g) (next_counter (op_counter d)))
  else jd_opipe_write_ex now d data (zlen data) flags = Ret (r, d1).
Proof.
  intros [Hf [H4 Hs] Hc] Hd Hl Hfl Hcs. unfold jd_opipe_write_ex. rewrite Hcs. obind.
  destruct (Z.eqb_spec r 0) as [->|]; cbn [negb]; [|done].
  assert (d1 = d /\ f_size (op_frame d) + 4 + zlen data <= 236) as [-> Hfit].
  { revert Hcs. unfold jd_opipe_check_space, JD_PIPE_TIMEOUT, JD_PIPE_ERROR, JD_PIPE_TRY_AGAIN.
    repeat (case_match; [intros; congruence|]). case_match eqn:E.
    - intros [= <-]. apply Z.leb_le in E. pose proof (f_size_range _ Hf). pose proof (zlen_nonneg data).
      rewrite u32_small in E by lia. done.
    - unfold do_flush. case_match; cbn; congruence. }
  split; [done|].
  assert (0 <= Z.lor (op_counter d) flags < 65536) as Hcmd by (apply (lor_range _ _ 16); lia).
  assert (packet_ok (stream_packet (op_counter d) flags data)) as Hpk by done.
  destruct (push_packet_spec (op_frame d) (stream_packet (op_counter d) flags data) Hf Hpk H4) as
    (g & Hg & Hgo & Hgs & Hgl & _); [unfold pk_len; cbn; lia|].
  exists g. pose proof Hg as Hg'. unfold push_packet in Hg'. cbn in Hg'.
  destruct (jd_push_in_frame _ _ _ _) as [[[trg|] f]| |]; try done. injection Hg' as <-. obind.
  assert (mread data 0 (zlen data) = data) as -> by (unfold mread, zlen; rewrite Nat2Z.id; apply firstn_all).
  split_and!; try done. destruct (next_counter_spec _ Hc) as (_ & _ & ?).
  constructor; cbn; try done. split; [|done]. rewrite Hgs.
  pose proof (align4_mod (pk_len (stream_packet (op_counter d) flags data))). word_lia.
Qed.

(** ** Repetition of one frame

    [opipe_retries]: calls of [jd_opipe_process] at the times [ts], as seen by
    one pipe; no acknowledgement arrives. *)
Fixpoint opipe_retries (ts : list Z) (d : opipe) (log : list (list Z)) : outcome (opipe * list (list Z)) :=
  match ts with
  | [] => Ret (d, log)
  | t :: ts' => '(d, log) ← opipe_retry t d log; opipe_retries ts' d log
  end.

Lemma opipe_retry_log now d (log : list (list Z)) :
  1 <= op_curr_retry d <= 6 ->
  exists d' n, opipe_retry now d log = Ret (d', log ++ replicate n (op_frame d)) /\
    op_frame d' = op_frame d /\ 1 <= op_curr_retry d' <= 6 /\
    (Z.of_nat n + Z.min 5 (op_curr_retry d) = Z.min 5 (op_curr_retry d')) /\
    (op_curr_retry d <= op_curr_retry d') /\
    (in_past now (op_retry_time d) = true ->
      if op_curr_retry d =? 6 then op_status d' = ST_DROPPED else op_curr_retry d' = op_curr_retry d + 1).
Proof.
  intros Hr. unfold opipe_retry. rewrite (proj2 (Z.eqb_neq _ 0)) by lia. cbn [negb andb].
  destruct (in_past now (op_retry_time d)).
  2:{ exists d, 0%nat. cbn. rewrite app_nil_r. split_and!; done || lia. }
  unfold JD_OPIPE_MAX_RETRIES. change (4 + 1) with 5.
  destruct (Z.ltb_spec (op_curr_retry d) 5).
  - cbn. eexists _, 1%nat. rewrite u8_small by lia. cbn.
    split; [done|]. cbn. rewrite (proj2 (Z.eqb_neq _ 6)) by lia. split_and!; done || lia.
  - destruct (Z.eqb_spec (op_curr_retry d) 5) as [E|E].
    + eexists _, 0%nat. cbn. rewrite app_nil_r, u8_small by lia. split; [done|]. cbn.
      rewrite (proj2 (Z.eqb_neq _ 6)) by lia. split_and!; done || lia.
    + assert (op_curr_retry d = 6) as E6 by lia. eexists _, 0%nat. cbn. rewrite app_nil_r.
      split; [done|]. cbn. rewrite E6. split_and!; done || lia.
Qed.

Lemma opipe_retries_log ts : forall d log,
  1 <= op_curr_retry d <= 6 ->
  exists d' n, opipe_retries ts d log = Ret (d', log ++ replicate n (op_frame d)) /\
    (Z.of_nat n + Z.min 5 (op_curr_retry d) <= 5).
Proof.
  induction ts as [|t ts IH]; intros d log Hr; cbn [opipe_retries].
  - exists d, 0%nat. rewrite app_nil_r. split; [done|lia].
  - destruct (opipe_retry_log t d log Hr) as (d1 & n & -> & Hf & Hr1 & Hn & _). obind.
    destruct (IH d1 (log ++ replicate n (op_frame d)) Hr1) as (d' & n' & -> & Hn').
    exists d', (n + n')%nat. rewrite Hf, replicate_add, app_assoc. split; [done|lia].
Qed.

(** Every call comes when the retry time has passed. *)
Fixpoint opipe_due (ts : list Z) (d : opipe) (log : list (list Z)) : Prop :=
  match ts with
  | [] => True
  | t :: ts' => in_past t (op_retry_time d) = true /\
      match opipe_retry t d log with Ret (d1, log1) => opipe_due ts' d1 log1 | _ => False end
  end.

Lemma opipe_retry_dropped now d (log : list (list Z)) d' log' :
  op_curr_retry d = 6 -> op_status d = ST_DROPPED -> opipe_retry now d log = Ret (d', log') ->
  op_status d' = ST_DROPPED /\ op_curr_retry d' = 6 /\ log' = log.
Proof.
  intros Hr Hs. unfold opipe_retry. rewrite Hr. cbn. case_match; intros [= <- <-]; by rewrite ?Hr.
Qed.

Lemma opipe_retries_dropped ts : forall d log,
  op_curr_retry d = 6 -> op_status d = ST_DROPPED ->
  exists d', opipe_retries ts d log = Ret (d', log) /\ op_status d' = ST_DROPPED.
Proof.
  induction ts as [|t ts IH]; intros d log Hr Hs; cbn [opipe_retries]; [by exists d|].
  destruct (opipe_retry_log t d log ltac:(lia)) as (d1 & n & E & _). rewrite E. obind.
  destruct (opipe_retry_dropped _ _ _ _ _ Hr Hs E) as (? & ? & ->). by apply IH.
Qed.

Lemma opipe_retries_due ts : forall d log,
  1 <= op_curr_retry d <= 6 -> opipe_due ts d log -> 7 <= zlen ts + op_curr_retry d ->
  exists d' n, opipe_retries ts d log = Ret (d', log ++ replicate n (op_frame d)) /\
    op_status d' = ST_DROPPED /\ Z.of_nat n + Z.min 5 (op_curr_retry d) = 5.
Proof.
  induction ts as [|t ts IH]; intros d log Hr Hdue Hlen; [unfold zlen in Hlen; simpl in Hlen; lia|].
  cbn [opipe_retries opipe_due] in *. destruct Hdue as [Ht Hdue].
  destruct (opipe_retry_log t d log Hr) as (d1 & n & E & Hf & Hr1 & Hn & Hmono & Hstep). rewrite E in *. obind.
  specialize (Hstep Ht). destruct (Z.eqb_spec (op_curr_retry d) 6) as [E6|E6].
  - assert (op_curr_retry d1 = 6) as E6' by lia.
    destruct (opipe_retries_dropped ts d1 (log ++ replicate n (op_frame d)) E6' Hstep) as (d' & -> & Hd).
    exists d', n. split_and!; try done. lia.
  - destruct (IH d1 (log ++ replicate n (op_frame d)) Hr1 Hdue) as (d' & n' & -> & Hd & Hn');
      [unfold zlen in *; cbn in *; lia|].
    exists d', (n + n')%nat. rewrite Hf, replicate_add, app_assoc. split_and!; try done. lia.
Qed.

(** ** Traversals *)

(** A turn of the process loop keeps the links. *)
Lemma opipe_retry_links now d (log : list (list Z)) :
  exists d' log', opipe_retry now d log = Ret (d', log') /\ op_next d' = op_next d /\
    (op_status d <> ST_FREE -> op_status d' <> ST_FREE).
Proof.
  unfold opipe_retry. repeat case_match; cbn; eexists _, _; split; try done; cbn; done.
Qed.

Lemma opipe_process_loop_ok now l : forall fuel st (log : list (list Z)) p,
  chain st p l -> NoDup l -> (forall q, q ∈ l -> op_status (opd st q) <> ST_FREE) -> (length l < fuel)%nat ->
  exists st' log', opipe_process_loop fuel now st log p = Ret (st', log') /\
    opipes st' = opipes st /\
    (forall q, op_next (opd st' q) = op_next (opd st q)) /\
    (forall q, is_Some (op_heap st !! q) -> is_Some (op_heap st' !! q)) /\
    (forall q, op_status (opd st' q) <> ST_FREE <-> op_status (opd st q) <> ST_FREE).
Proof.
  induction l as [|x l IH]; intros [|fuel] st log p Hc Hnd Hs Hf; simpl in Hf; try lia;
    cbn [opipe_process_loop chain] in *.
  - subst p. cbn. eexists _, _. split; [done|]. split_and!; done.
  - destruct Hc as (-> & H0 & Hh & Hc). rewrite (proj2 (Z.eqb_neq _ _)) by done.
    destruct (opipe_retry_links now (opd st x) log) as (d' & log1 & -> & Hn & Hst). obind.
    apply NoDup_cons in Hnd as [Hx Hnd].
    assert (forall q, op_next (opd (set_opd st x d') q) = op_next (opd st q)) as Hnx.
    { intros q. rewrite opd_set. by case_decide; subst. }
    assert (forall q, op_status (opd (set_opd st x d') q) <> ST_FREE <-> op_status (opd st q) <> ST_FREE) as Hstt.
    { intros q. rewrite opd_set. case_decide; [subst|done]. specialize (Hs x ltac:(set_solver)). tauto. }
    destruct (IH fuel (set_opd st x d') log1 (op_next (opd (set_opd st x d') x))) as
      (st' & log' & -> & Ho & Hn' & Hh' & Hs'); try done; [|intros q Hq; apply Hstt, Hs; set_solver|lia|].
    { rewrite Hnx. apply (chain_agree st); auto. intros. by apply heap_set. }
    eexists _, _. split; [done|]. split_and!; [done| | |].
    + intros q. by rewrite Hn', Hnx.
    + intros q Hq. apply Hh', heap_set, Hq.
    + intros q. by rewrite Hs', Hstt.
Qed.

Lemma jd_opipe_process_ok now st l (log : list (list Z)) :
  pipes_ok st l ->
  exists st' log', jd_opipe_process false now st log = Ret (st', log') /\ pipes_ok st' l.
Proof.
  intros [Hc Hnd Hl]. unfold jd_opipe_process.
  pose proof (chain_length _ _ _ Hc Hnd).
  destruct (opipe_process_loop_ok now l (list_fuel st) st log (opipes st)) as
    (st' & log' & -> & Ho & Hn & Hh & Hs); try done; [intros; by apply Hl|unfold list_fuel; lia|].
  eexists _, _. split; [done|]. constructor; [|done|].
  - rewrite Ho. by apply (chain_agree st).
  - intros p. by rewrite Hs.
Qed.

(** ** Properties *)

(** [jd_opipe_check_space] keeps its promise ("if this returns
    [JD_PIPE_OK], then write also will"): the write that follows takes the
    packet into the frame, numbered with the pipe's counter, and advances the
    counter modulo 32 within the port; any other answer is also the answer of
    the write. *)
Lemma jd_opipe_check_then_write now d data r d1 :
  opipe_ok d -> Forall is_byte data -> zlen data < 2 ^ 30 ->
  jd_opipe_check_space now d (zlen data) = Ret (r, d1) ->
  if r =? JD_PIPE_OK then
    exists d2, jd_opipe_write now d data (zlen data) = Ret (JD_PIPE_OK, d2) /\ opipe_ok d2 /\
      push_packet (op_frame d) (stream_packet (op_counter d) 0 data) = Some (op_frame d2) /\
      op_counter d2 mod 32 = (op_counter d + 1) mod 32 /\ op_counter d2 / 32 = op_counter d / 32
  else jd_opipe_write now d data (zlen data) = Ret (r, d1).
Proof.
  intros Hok Hd Hl Hcs. pose proof (jd_opipe_write_ex_spec now d data 0 r d1 Hok Hd Hl ltac:(lia) Hcs) as H.
  unfold jd_opipe_write, JD_PIPE_OK in *. destruct (r =? 0); [|done].
  destruct H as (_ & g & Hw & Hp & Hok2). rewrite Hw. eexists. split; [done|].
  destruct (next_counter_spec _ (oo_counter _ Hok)) as (? & ? & _). by split_and!.
Qed.

Definition demo_pipe : opipe :=
  {| op_next := 0; op_counter := 5 * 128 + 31; op_status := ST_OPEN; op_curr_retry := 0; op_retry_time := 0;
     op_frame := replicate 252 0 |}.

Lemma demo_pipe_ok : opipe_ok demo_pipe.
Proof.
  constructor; [|done|cbn; lia]. constructor; [done|]. unfold demo_pipe, op_frame. by apply Forall_replicate.
Qed.

(** A flushed frame is transmitted at most four times however often
    [jd_opipe_process] runs; and when six calls find the retry time passed and
    no acknowledgement came, exactly four times, and the pipe is dropped, so
    that every further write answers [JD_PIPE_TIMEOUT]. *)
Lemma jd_opipe_retry_bound ts d log :
  op_curr_retry d = 1 ->
  exists d' n, opipe_retries ts d log = Ret (d', log ++ replicate n (op_frame d)) /\ (n <= 4)%nat /\
    (opipe_due ts d log -> 6 <= zlen ts ->
      n = 4%nat /\ op_status d' = ST_DROPPED /\
      forall now data len, jd_opipe_write now d' data len = Ret (JD_PIPE_TIMEOUT, d')).
Proof.
  intros Hr. destruct (opipe_retries_log ts d log) as (d' & n & E & Hn); [lia|].
  exists d', n. split; [done|]. split; [lia|]. intros Hdue Hlen.
  destruct (opipe_retries_due ts d log) as (d1 & n1 & E1 & Hd & Hn1); [lia|done|lia|].
  assert (n1 = 4%nat) as -> by lia. rewrite E1 in E. injection E as -> E.
  apply app_inv_head, (f_equal length) in E. rewrite !length_replicate in E.
  split_and!; [done|done|]. intros now data len.
  unfold jd_opipe_write, jd_opipe_write_ex, jd_opipe_check_space. rewrite Hd. done.
Qed.

Definition flushed_pipe : opipe := set_retry demo_pipe 1.

(** The list of open pipes: opening a pipe (again) puts exactly that pipe
    in front and leaves the others, in the initial state of its port, and the
    traversal of [jd_opipe_process] visits the list and ends. *)
Lemma jd_opipe_open_keeps_list st l str device_id port_num now (log : list (list Z)) :
  pipes_ok st l -> str <> 0 -> device_id <> 0 ->
  exists st' l', jd_opipe_open false st str device_id port_num = Ret (JD_PIPE_OK, st') /\
    pipes_ok st' (str :: l') /\ opened (opd st' str) device_id port_num /\
    (forall q, q ∈ l' <-> q ∈ l /\ q <> str) /\
    exists st'' log', jd_opipe_process false now st' log = Ret (st'', log') /\ pipes_ok st'' (str :: l').
Proof.
  intros Hok H0 Hd. destruct (jd_opipe_open_spec st l str device_id port_num Hok H0 Hd) as (st' & l' & E & Hok' & Ho & Hl).
  exists st', l'. split_and!; try done. by apply jd_opipe_process_ok.
Qed.

(** A write that can never fit (more than 232 bytes) flushes the frame even
    when it is empty. The next [jd_opipe_process] then queues a frame of size
    0, which [jd_queue_push] answers with a panic. *)
Lemma jd_opipe_oversize_write_flushes_empty now :
  exists d, jd_opipe_check_space now demo_pipe 233 = Ret (JD_PIPE_TRY_AGAIN, d) /\
    op_curr_retry d = 1 /\ f_size (op_frame d) = 0.
Proof. eexists. split; [reflexivity|]. split; vm_compute; reflexivity. Qed.
