(* ===== verification/Ipipe.v ===== *)
(** * Input pipes ([source/jd_ipipe.c])

    The receiving end of a pipe: a descriptor with the next expected packet
    number (five bits) and the port (nine bits) in [counter]. Descriptors are
    caller-owned structs linked into the list [ipipes]. The calls of the
    handlers are events, in order; a handler is not modelled as changing the
    pipes itself. *)
From stdpp Require Import gmap.
From S2P Require Import Prelude Frame Util Iface Opipe.

(** [struct jd_ipipe_desc], without the two handlers. *)
Record ipipe := { ip_next : Z; ip_counter : Z (* uint16_t *) }.

Record ipipe_state := { ip_heap : gmap Z ipipe; ipipes : Z }.

Inductive ip_event :=
  | IpData (s : Z) (pkt : packet)     (* s->handler(s, pkt) *)
  | IpMeta (s : Z) (pkt : packet)     (* s->meta_handler(s, pkt) *)
  | IpEof (s : Z).                    (* s->meta_handler(s, NULL) *)

Definition ipd (st : ipipe_state) (p : Z) : ipipe := default {| ip_next := 0; ip_counter := 0 |} (ip_heap st !! p).
Definition set_ipd (st : ipipe_state) (p : Z) (d : ipipe) : ipipe_state :=
  {| ip_heap := <[p := d]> (ip_heap st); ipipes := ipipes st |}.
Definition set_ip_counter (st : ipipe_state) (p c : Z) : ipipe_state :=
  set_ipd st p {| ip_next := ip_next (ipd st p); ip_counter := c |}.
Definition set_ip_next (st : ipipe_state) (p n : Z) : ipipe_state :=
  set_ipd st p {| ip_next := n; ip_counter := ip_counter (ipd st p) |}.
Definition ip_fuel (st : ipipe_state) : nat := S (size (ip_heap st)).

Fixpoint ipipe_unlink_loop (fuel : nat) (st : ipipe_state) (ss str : Z) : outcome ipipe_state :=
  match fuel with
  | O => OutOfFuel
  | S fuel' =>
      if ss =? 0 then Ret st
      else if ip_next (ipd st ss) =? str then Ret (set_ip_next st ss (ip_next (ipd st str)))
      else ipipe_unlink_loop fuel' st (ip_next (ipd st ss)) str
  end.

Definition jd_ipipe_free (st : ipipe_state) (str : Z) : outcome ipipe_state :=
  st ← (if ipipes st =? str
        then Ret {| ip_heap := ip_heap st; ipipes := ip_next (ipd st str) |}
        else ipipe_unlink_loop (ip_fuel st) st (ipipes st) str);
  Ret (set_ip_counter st str 0).

Fixpoint is_free_port_loop (fuel : nat) (st : ipipe_state) (ss p : Z) : outcome bool :=
  match fuel with
  | O => OutOfFuel
  | S fuel' =>
      if ss =? 0 then Ret true
      else if Z.shiftr (ip_counter (ipd st ss)) JD_PIPE_PORT_SHIFT =? p then Ret false
      else is_free_port_loop fuel' st (ip_next (ipd st ss)) p
  end.
Definition is_free_port (st : ipipe_state) (p : Z) : outcome bool :=
  if p =? 0 then Ret false else is_free_port_loop (ip_fuel st) st (ipipes st) p.

(** Draw ports until one is free; how often is a matter of the generator. The
    port and the new seed. *)
Fixpoint draw_port (fuel : nat) (st : ipipe_state) (seed : Z) : outcome (Z * Z) :=
  match fuel with
  | O => OutOfFuel
  | S fuel' =>
      let seed := jd_random seed in
      let p := Z.land seed 511 in
      free ← is_free_port st p;
      if free : bool then Ret (p, seed) else draw_port fuel' st seed
  end.

(** The result, the new seed and the state; [fuel] bounds the draws. *)
Definition jd_ipipe_open (fuel : nat) (in_irq : bool) (seed : Z) (st : ipipe_state) (str : Z)
    : outcome (Z * Z * ipipe_state) :=
  if in_irq then Panic
  else
    st ← jd_ipipe_free st str;
    '(p, seed) ← draw_port fuel st seed;
    let st := set_ip_counter st str (u16 (Z.shiftl p JD_PIPE_PORT_SHIFT)) in
    let st := set_ip_next st str (ipipes st) in
    let st := {| ip_heap := ip_heap st; ipipes := str |} in
    Ret (Z.shiftr (ip_counter (ipd st str)) JD_PIPE_PORT_SHIFT, seed, st).

Fixpoint ipipe_loop (fuel : nat) (st : ipipe_state) (s cmd : Z) (pkt : packet)
    : outcome (ipipe_state * list ip_event) :=
  match fuel with
  | O => OutOfFuel
  | S fuel' =>
      if s =? 0 then Ret (st, [])
      else
        let c := ip_counter (ipd st s) in
        if Z.shiftr c JD_PIPE_PORT_SHIFT =? Z.shiftr cmd JD_PIPE_PORT_SHIFT then
          if Z.land c JD_PIPE_COUNTER_MASK =? Z.land cmd JD_PIPE_COUNTER_MASK then
            let st := set_ip_counter st s (next_counter c) in
            let ev := if has_flag cmd JD_PIPE_METADATA_MASK then [IpMeta s pkt] else [IpData s pkt] in
            if has_flag cmd JD_PIPE_CLOSE_MASK then
              st ← jd_ipipe_free st s; Ret (st, ev ++ [IpEof s])
            else Ret (st, ev)
          else Ret (st, [])
        else ipipe_loop fuel' st (ip_next (ipd st s)) cmd pkt
  end.

(** [self] is [jd_device_id()]; [pkt] the packet at the front of its frame. *)
Definition jd_ipipe_handle_packet (self : Z) (st : ipipe_state) (pkt : list Z)
    : outcome (ipipe_state * list ip_event) :=
  if negb (p_service_index pkt =? JD_SERVICE_INDEX_STREAM)
     || negb (has_flag (f_flags pkt) JD_FRAME_FLAG_COMMAND)
     || negb (f_device_identifier pkt =? self)
  then Ret (st, [])
  else ipipe_loop (ip_fuel st) st (ipipes st) (p_service_command pkt) (packet_of pkt).

Definition jd_ipipe_close (st : ipipe_state) (str : Z) : outcome ipipe_state := jd_ipipe_free st str.

(** ** The list of pipes *)

Fixpoint ichain (st : ipipe_state) (p : Z) (l : list Z) : Prop :=
  match l with
  | [] => p = 0
  | q :: l' => p = q /\ q <> 0 /\ is_Some (ip_heap st !! q) /\ ichain st (ip_next (ipd st q)) l'
  end.

Definition ip_port (st : ipipe_state) (s : Z) : Z := ip_counter (ipd st s) / 128.

(** The open pipes [l], with ports of their own. *)
Record ipipes_ok (st : ipipe_state) (l : list Z) : Prop := {
  io_chain : ichain st (ipipes st) l;
  io_nodup : NoDup l;
  io_ports : forall p q, p ∈ l -> q ∈ l -> ip_port st p = ip_port st q -> p = q;
  io_range : forall p, p ∈ l -> 0 <= ip_counter (ipd st p) < 65536;
}.

Lemma ipd_set st p q d : ipd (set_ipd st p d) q = if decide (q = p) then d else ipd st q.
Proof.
  unfold ipd, set_ipd. cbn. case_decide; [subst; by rewrite lookup_insert_eq|by rewrite lookup_insert_ne].
Qed.

Lemma iheap_set st p q d : is_Some (ip_heap st !! q) -> is_Some (ip_heap (set_ipd st p d) !! q).
Proof.
  intros. unfold set_ipd. cbn. destruct (decide (p = q)) as [->|]; [by rewrite lookup_insert_eq|].
  by rewrite lookup_insert_ne.
Qed.

Lemma ichain_agree st st' l : forall p,
  (forall q, q ∈ l -> ip_next (ipd st' q) = ip_next (ipd st q)) ->
  (forall q, is_Some (ip_heap st !! q) -> is_Some (ip_heap st' !! q)) ->
  ichain st p l -> ichain st' p l.
Proof.
  induction l as [|q l IH]; intros p Hn Hh; cbn [ichain]; [done|].
  intros (-> & H0 & Hs & Hc). split_and!; auto. rewrite Hn by set_solver. apply IH; auto. set_solver.
Qed.

Lemma ichain_length st p l : ichain st p l -> NoDup l -> (length l <= size (ip_heap st))%nat.
Proof.
  intros Hc Hnd. rewrite <- (size_dom (D := gset Z)), <- (size_list_to_set (C := gset Z)) by done.
  apply subseteq_size. intros q Hq%elem_of_list_to_set. apply elem_of_dom.
  clear Hnd. revert p Hc; induction l as [|x l IH]; intros p; [set_solver|].
  cbn [ichain]. intros (_ & _ & Hs & Hc). apply elem_of_cons in Hq as [->|Hq]; eauto.
Qed.

(** Moving the counter of a pipe inside its port keeps the list. *)
Lemma set_counter_ok st l s c :
  ipipes_ok st l -> s ∈ l -> c / 128 = ip_port st s -> 0 <= c < 65536 -> ipipes_ok (set_ip_counter st s c) l.
Proof.
  intros [Hc Hnd Hp Hr] Hs Hpc Hrc. unfold set_ip_counter.
  assert (forall q, ip_port (set_ip_counter st s c) q = ip_port st q) as Hport.
  { intros q. unfold ip_port, set_ip_counter. rewrite ipd_set. case_decide; [by subst|done]. }
  constructor; [|done| |].
  - apply (ichain_agree st); [|intros; by apply iheap_set|done].
    intros q Hq. rewrite ipd_set. by case_decide; subst.
  - intros p q. rewrite !Hport. apply Hp.
  - intros p Hpl. rewrite ipd_set. case_decide; [done|]. by apply Hr.
Qed.

(** ** One packet *)

Definition ip_handle (s : Z) (pkt : packet) : ip_event :=
  if has_flag (pk_service_command pkt) JD_PIPE_METADATA_MASK then IpMeta s pkt else IpData s pkt.

Lemma port_shift c : Z.shiftr c JD_PIPE_PORT_SHIFT = c / 128.
Proof. unfold JD_PIPE_PORT_SHIFT. by rewrite Z.shiftr_div_pow2. Qed.

Lemma counter_land c : Z.land c JD_PIPE_COUNTER_MASK = c mod 32.
Proof. unfold JD_PIPE_COUNTER_MASK. change 0x1f with (Z.ones 5). by rewrite Z.land_ones. Qed.

(** The loop stops at the pipe of the packet's port, and takes the packet when
    it is the next one. *)
Lemma ipipe_loop_spec st l s pkt : forall fuel l1 p l2,
  ipipes_ok st l -> l = l1 ++ p :: l2 -> s ∈ p :: l2 -> (length (p :: l2) < fuel)%nat ->
  ichain st p (p :: l2) ->
  let cmd := pk_service_command pkt in let c := ip_counter (ipd st s) in
  cmd / 128 = ip_port st s -> has_flag cmd JD_PIPE_CLOSE_MASK = false ->
  ipipe_loop fuel st p cmd pkt =
    if c mod 32 =? cmd mod 32 then Ret (set_ip_counter st s (next_counter c), [ip_handle s pkt])
    else Ret (st, []).
Proof.
  intros fuel l1 p l2 Hok Hl Hs Hf Hc cmd c Hport Hclose. revert fuel l1 p Hl Hs Hf Hc.
  induction l2 as [|q l2 IH]; intros [|fuel] l1 p Hl Hs Hf Hc; simpl in Hf; try lia;
    destruct Hc as (_ & H0 & _ & Hc); cbn [ipipe_loop]; rewrite (proj2 (Z.eqb_neq p 0)) by done;
    rewrite !port_shift, !counter_land; fold (ip_port st p); rewrite Hport, Hclose.
  - assert (s = p) as -> by set_solver. rewrite Z.eqb_refl. fold c. case_match; [|done].
    unfold ip_handle. fold cmd. by case_match.
  - destruct (decide (s = p)) as [->|Hne].
    + rewrite Z.eqb_refl. fold c. case_match; [|done]. unfold ip_handle. fold cmd. by case_match.
    + rewrite (proj2 (Z.eqb_neq _ _)).
      2:{ intros E. apply Hne. symmetry. apply (io_ports _ _ Hok); [rewrite Hl; set_solver..|done]. }
      assert (ip_next (ipd st p) = q) as E by apply Hc. rewrite E in *. apply (IH fuel (l1 ++ [p])); [by rewrite <- app_assoc|set_solver|simpl; lia|done].
Qed.

(** ** Streams *)

(** The frame [g] brings the stream packet [pkt] to this device. *)
Definition brings (self : Z) (g : list Z) (pkt : packet) : Prop :=
  packet_of g = pkt /\ p_service_index g = JD_SERVICE_INDEX_STREAM /\
  has_flag (f_flags g) JD_FRAME_FLAG_COMMAND = true /\ f_device_identifier g = self.

(** Packets of [port] numbered from [c] on, modulo 32, none of them closing. *)
Fixpoint numbered (port c : Z) (ps : list packet) : Prop :=
  match ps with
  | [] => True
  | p :: ps' =>
      pk_service_command p / 128 = port /\ pk_service_command p mod 32 = c mod 32 /\
      has_flag (pk_service_command p) JD_PIPE_CLOSE_MASK = false /\ numbered port (c + 1) ps'
  end.

Fixpoint ipipe_receive (self : Z) (st : ipipe_state) (gs : list (list Z)) : outcome (ipipe_state * list ip_event) :=
  match gs with
  | [] => Ret (st, [])
  | g :: gs' =>
      '(st, ev) ← jd_ipipe_handle_packet self st g;
      '(st, evs) ← ipipe_receive self st gs';
      Ret (st, ev ++ evs)
  end.

Lemma ipipe_receive_app self st gs1 gs2 :
  ipipe_receive self st (gs1 ++ gs2) =
    ('(st, e1) ← ipipe_receive self st gs1; '(st, e2) ← ipipe_receive self st gs2; Ret (st, e1 ++ e2)).
Proof.
  revert st; induction gs1 as [|g gs1 IH]; intros st; cbn [app ipipe_receive].
  - obind. destruct (ipipe_receive self st gs2) as [[? ?]| |]; done.
  - destruct (jd_ipipe_handle_packet self st g) as [[st1 ev]| |]; obind; [|done..]. rewrite IH.
    destruct (ipipe_receive self st1 gs1) as [[st2 e1]| |]; obind; [|done..].
    destruct (ipipe_receive self st2 gs2) as [[st3 e2]| |]; obind; [|done..]. by rewrite app_assoc.
Qed.

(** What is known of a state in which pipe [s] expects packet number [c]. *)
Record expects (st : ipipe_state) (l : list Z) (s port c : Z) : Prop := {
  ex_ok : ipipes_ok st l;
  ex_in : s ∈ l;
  ex_port : ip_port st s = port;
  ex_counter : ip_counter (ipd st s) mod 32 = c mod 32;
}.

Lemma handle_packet_spec self st l s port c g pkt :
  expects st l s port c -> brings self g pkt -> pk_service_command pkt / 128 = port ->
  has_flag (pk_service_command pkt) JD_PIPE_CLOSE_MASK = false ->
  if pk_service_command pkt mod 32 =? c mod 32
  then exists st', jd_ipipe_handle_packet self st g = Ret (st', [ip_handle s pkt]) /\ expects st' l s port (c + 1)
  else jd_ipipe_handle_packet self st g = Ret (st, []).
Proof.
  intros [Hok Hin Hport Hc] (Hpk & Hi & Hf & Hd) Hpp Hcl.
  unfold jd_ipipe_handle_packet. rewrite Hi, Hf, Hd, Hpk, !Z.eqb_refl. cbn [negb orb].
  assert (p_service_command g = pk_service_command pkt) as -> by by rewrite <- Hpk.
  pose proof (io_chain _ _ Hok) as Hch. pose proof (ichain_length _ _ _ Hch (io_nodup _ _ Hok)) as Hlen.
  destruct l as [|p l2]; [set_solver|]. pose proof Hch as (Hhead & _). rewrite Hhead in *.
  rewrite (ipipe_loop_spec st (p :: l2) s pkt (ip_fuel st) [] p l2); try done;
    [|unfold ip_fuel; lia|congruence].
  rewrite Hc, (Z.eqb_sym (c mod 32)). destruct (Z.eqb_spec (pk_service_command pkt mod 32) (c mod 32)); [|done].
  eexists. split; [done|].
  destruct (next_counter_spec _ (io_range _ _ Hok s Hin)) as (N1 & N2 & N3).
  assert (next_counter (ip_counter (ipd st s)) / 128 = ip_port st s) as Hn
    by (unfold ip_port; change 128 with (32 * 4); rewrite <- !Z.div_div, N2 by lia; done).
  constructor; try done.
  - by apply set_counter_ok.
  - unfold ip_port in *. unfold set_ip_counter. rewrite ipd_set, decide_True by done. cbn. congruence.
  - unfold set_ip_counter. rewrite ipd_set, decide_True by done. cbn. rewrite N1. word_lia.
Qed.

(** A new batch is delivered completely, in order. *)
Lemma receive_new self l s port ps : forall st c gs,
  expects st l s port c -> Forall2 (brings self) gs ps -> numbered port c ps ->
  exists st', ipipe_receive self st gs = Ret (st', map (ip_handle s) ps) /\ expects st' l s port (c + zlen ps).
Proof.
  induction ps as [|p ps IH]; intros st c gs Hex Hb Hn; inversion Hb as [|g ? gs' ? Hg Hgs]; subst; cbn [ipipe_receive].
  - exists st. split; [done|]. unfold zlen. simpl. by rewrite Z.add_0_r.
  - destruct Hn as (Hp & Hc & Hcl & Hn). pose proof (handle_packet_spec self st l s port c g p Hex Hg Hp Hcl) as H.
    rewrite (proj2 (Z.eqb_eq _ _) Hc) in H. destruct H as (st1 & -> & Hex1). obind.
    destruct (IH st1 (c + 1) gs' Hex1 Hgs Hn) as (st2 & -> & Hex2). obind. exists st2. split; [done|].
    replace (c + zlen (p :: ps)) with (c + 1 + zlen ps) by (unfold zlen; simpl; lia). done.
Qed.

(** A repeated batch of at most 31 packets is ignored completely. *)
Lemma receive_again self st l s port ps : forall c gs n,
  expects st l s port n -> Forall2 (brings self) gs ps -> numbered port c ps ->
  (forall i, 0 <= i < zlen ps -> (c + i) mod 32 <> n mod 32) ->
  ipipe_receive self st gs = Ret (st, []).
Proof.
  induction ps as [|p ps IH]; intros c gs n Hex Hb Hn Hdiff; inversion Hb as [|g ? gs' ? Hg Hgs]; subst;
    cbn [ipipe_receive]; [done|].
  destruct Hn as (Hp & Hc & Hcl & Hn). pose proof (handle_packet_spec self st l s port n g p Hex Hg Hp Hcl) as H.
  rewrite Hc, (proj2 (Z.eqb_neq _ _)) in H.
  2:{ specialize (Hdiff 0). rewrite Z.add_0_r in Hdiff. apply Hdiff. unfold zlen. simpl. lia. }
  rewrite H. obind. rewrite (IH (c + 1) gs' n Hex Hgs Hn); [done|].
  intros i Hi. replace (c + 1 + i) with (c + (i + 1)) by lia. apply Hdiff. unfold zlen in *. simpl. lia.
Qed.

Lemma receive_repeats self l s port k : forall st c gs ps,
  expects st l s port (c + zlen ps) -> Forall2 (brings self) gs ps -> numbered port c ps -> zlen ps <= 31 ->
  ipipe_receive self st (concat (replicate k gs)) = Ret (st, []).
Proof.
  induction k as [|k IH]; intros st c gs ps Hex Hb Hn Hlen; cbn [replicate concat]; [done|].
  rewrite ipipe_receive_app, (receive_again self st l s port ps c gs (c + zlen ps)); try done.
  - obind. rewrite (IH st c gs ps) by done. done.
  - intros i Hi. word_lia.
Qed.

(** ** Properties *)

(** A batch: the frames as received, the packets they bring, and how often the
    batch arrives again. *)
Record batch := { b_frames : list (list Z); b_packets : list packet; b_again : nat }.

Definition batch_ok (self : Z) (b : batch) : Prop :=
  Forall2 (brings self) (b_frames b) (b_packets b) /\ zlen (b_packets b) <= 31.

Definition arrivals (bs : list batch) : list (list Z) :=
  flat_map (fun b => b_frames b ++ concat (replicate (b_again b) (b_frames b))) bs.

Lemma numbered_app port c ps qs :
  numbered port c (ps ++ qs) <-> numbered port c ps /\ numbered port (c + zlen ps) qs.
Proof.
  revert c; induction ps as [|p ps IH]; intros c; cbn [app numbered].
  - unfold zlen. simpl. rewrite Z.add_0_r. tauto.
  - rewrite IH. replace (c + zlen (p :: ps)) with (c + 1 + zlen ps) by (unfold zlen; simpl; lia). tauto.
Qed.

(** C17. Exactly-once, in-order delivery over a repeating sender: when the
    sender's frames (each with at most 31 packets of a numbered stream) arrive
    in order, each of them any number of times, the handlers of the pipe are
    called for every packet exactly once and in order. *)
Theorem ipipe_exactly_once self l s port bs st c :
  expects st l s port c -> Forall (batch_ok self) bs ->
  numbered port c (flat_map b_packets bs) ->
  exists st', ipipe_receive self st (arrivals bs) = Ret (st', map (ip_handle s) (flat_map b_packets bs)) /\
    expects st' l s port (c + zlen (flat_map b_packets bs)).
Proof.
  intros Hex Hbs. revert st c Hex. induction Hbs as [|b bs [Hb Hlen] _ IH]; intros st c Hex Hn; cbn [arrivals flat_map] in *.
  - exists st. cbn. unfold zlen. simpl. by rewrite Z.add_0_r.
  - apply numbered_app in Hn as [Hn1 Hn2].
    destruct (receive_new self l s port _ st c _ Hex Hb Hn1) as (st1 & E1 & Hex1).
    destruct (IH st1 (c + zlen (b_packets b)) Hex1 Hn2) as (st2 & E2 & Hex2).
    exists st2. rewrite <- app_assoc, !ipipe_receive_app, E1. obind. rewrite ipipe_receive_app.
    rewrite (receive_repeats self l s port _ st1 c _ _ Hex1 Hb Hn1 Hlen). obind.
    unfold arrivals in E2. rewrite E2. obind. rewrite map_app, zlen_app, Z.add_assoc. done.
Qed.

Definition stream_frame (cmd : Z) (data : list Z) : list Z :=
  [0; 0; 8; 1; 77; 0; 0; 0; 0; 0; 0; 0; zlen data; 0x3e; cmd mod 256; cmd / 256] ++ data ++ replicate 230 0.
Definition one_pipe (c : Z) : ipipe_state := {| ip_heap := {[ 8 := {| ip_next := 0; ip_counter := c |} ]}; ipipes := 8 |}.

Lemma one_pipe_expects c : 0 <= c < 65536 -> expects (one_pipe c) [8] 8 (c / 128) c.
Proof.
  intros Hc. assert (ipd (one_pipe c) 8 = {| ip_next := 0; ip_counter := c |}) as Hd by done.
  constructor; [|set_solver|unfold ip_port; by rewrite Hd|by rewrite Hd].
  constructor; [|apply NoDup_singleton|intros p q Hp Hq _; set_solver|intros p Hp].
  - cbn [ichain]. rewrite Hd. split_and!; try done.
  - apply list_elem_of_singleton in Hp as ->. by rewrite Hd.
Qed.

Definition demo_batch (i d : Z) (again : nat) : batch :=
  {| b_frames := [stream_frame (5 * 128 + i) [d]];
     b_packets := [{| pk_service_index := 0x3e; pk_service_command := 5 * 128 + i; pk_data := [d] |}];
     b_again := again |}.

Lemma ipipe_exactly_once_witness :
  exists st', ipipe_receive 77 (one_pipe (5 * 128 + 31)) (arrivals [demo_batch 31 7 2; demo_batch 0 9 1]) =
    Ret (st', map (ip_handle 8) (flat_map b_packets [demo_batch 31 7 2; demo_batch 0 9 1])).
Proof.
  destruct (ipipe_exactly_once 77 [8] 8 5 [demo_batch 31 7 2; demo_batch 0 9 1] (one_pipe (5 * 128 + 31)) (5 * 128 + 31))
    as (st' & E & _); [apply (one_pipe_expects (5 * 128 + 31)); lia| | |by exists st'].
  - repeat constructor; try (vm_compute; reflexivity); vm_compute; discriminate.
  - vm_compute. split_and!; done.
Defined.

(** With 32 or more packets in one frame, which only empty packets allow, the
    five-bit number wraps inside the frame and a repetition is taken again. *)
Lemma numbered_wrap port c ps : numbered port c ps -> numbered port (c + 32) ps.
Proof.
  revert c; induction ps as [|p ps IH]; intros c; cbn [numbered]; [done|].
  intros (? & ? & ? & Hn). split_and!; try done; [word_lia|].
  replace (c + 32 + 1) with (c + 1 + 32) by lia. auto.
Qed.

Lemma ipipe_32_delivered_twice self l s port st c gs ps :
  expects st l s port c -> Forall2 (brings self) gs ps -> numbered port c ps -> zlen ps = 32 ->
  exists st', ipipe_receive self st (gs ++ gs) = Ret (st', map (ip_handle s) (ps ++ ps)).
Proof.
  intros Hex Hb Hn Hlen. destruct (receive_new self l s port _ st c _ Hex Hb Hn) as (st1 & E1 & Hex1).
  rewrite Hlen in Hex1. destruct (receive_new self l s port _ st1 (c + 32) _ Hex1 Hb (numbered_wrap _ _ _ Hn)) as (st2 & E2 & _).
  exists st2. rewrite ipipe_receive_app, E1. obind. rewrite E2. obind. by rewrite map_app.
Qed.
