(* ===== verification/Registers.v ===== *)
(** * Register access and responses (register part of [source/jd_services.c],
      [source/jd_send_util.c], [inc/jd_control.h])

    A service describes the registers in its state struct by a list of 16-bit
    words ([REG_DEFINITION]); [service_handle_register] finds the register of a
    get or set packet and reads or writes the struct. The struct is its bytes.
    Command codes come from the generated service definitions, which are not
    part of the sources: they are the class [JdSpec]. *)
From Stdlib Require Import Sorted.
From S2P Require Import Prelude Frame Iface.

(** The constants of [jacdac/dist/c] that the framework uses. *)
Class JdSpec := {
  JD_CMD_GET_REGISTER : Z;
  JD_CMD_SET_REGISTER : Z;
  JD_CMD_COMMAND_NOT_IMPLEMENTED : Z;
  JD_REG_VARIANT : Z;
  JD_REG_INSTANCE_NAME : Z;
  JD_CONTROL_CMD_SERVICES : Z;
  (** [jd_system_command_not_implemented_report_t] of a command and a CRC. *)
  not_implemented_report : Z -> Z -> list Z;
  (** Documented: register commands are a code in the upper four bits of a
      16-bit command, and reading and writing have different codes. *)
  jd_get_code : exists k, 0 < k < 16 /\ JD_CMD_GET_REGISTER = k * 4096;
  jd_set_code : exists k, 0 < k < 16 /\ JD_CMD_SET_REGISTER = k * 4096;
  jd_get_set : JD_CMD_GET_REGISTER <> JD_CMD_SET_REGISTER;
}.

Section Registers.
Context `{JdSpec} `{Sender T}.

Definition JD_GET (reg : Z) : Z := Z.lor JD_CMD_GET_REGISTER reg.
Definition JD_SET (reg : Z) : Z := Z.lor JD_CMD_SET_REGISTER reg.
Definition JD_IS_GET (cmd : Z) : bool := Z.shiftr cmd 12 =? Z.shiftr JD_CMD_GET_REGISTER 12.
Definition JD_IS_SET (cmd : Z) : bool := Z.shiftr cmd 12 =? Z.shiftr JD_CMD_SET_REGISTER 12.
Definition JD_REG_CODE (cmd : Z) : Z := Z.land cmd 0xfff.

Definition jd_is_command (pkt : list Z) : bool := has_flag (f_flags pkt) JD_FRAME_FLAG_COMMAND.
Definition jd_is_report (pkt : list Z) : bool := negb (jd_is_command pkt).
Definition jd_is_event (pkt : list Z) : bool :=
  jd_is_report pkt && (p_service_index pkt <=? JD_SERVICE_INDEX_MAX_NORMAL)
  && has_flag (p_service_command pkt) JD_CMD_EVENT_MASK.
Definition jd_event_code (pkt : list Z) : Z :=
  if jd_is_event pkt then Z.land (p_service_command pkt) JD_CMD_EVENT_CODE_MASK else -1.
Definition jd_is_register_get (pkt : list Z) : bool :=
  (p_service_index pkt <=? JD_SERVICE_INDEX_MAX_NORMAL) && JD_IS_GET (p_service_command pkt).

(** ** Responses *)

Definition respond (tx : T) (pkt data : list Z) : outcome (Z * T) :=
  send_packet tx (p_service_index pkt) (p_service_command pkt) data.

Definition jd_respond_u8 (tx : T) (pkt : list Z) (v : Z) : outcome (Z * T) := respond tx pkt (le_bytes 1 v).
Definition jd_respond_u16 (tx : T) (pkt : list Z) (v : Z) : outcome (Z * T) := respond tx pkt (le_bytes 2 v).
Definition jd_respond_u32 (tx : T) (pkt : list Z) (v : Z) : outcome (Z * T) := respond tx pkt (le_bytes 4 v).
Definition jd_respond_empty (tx : T) (pkt : list Z) : outcome (Z * T) := respond tx pkt [].
Definition jd_respond_string (tx : T) (pkt : list Z) (str : option (list Z)) : outcome (Z * T) :=
  match str with
  | None | Some [] => jd_respond_empty tx pkt
  | Some s => respond tx pkt s
  end.

(** The report holds the offending command and the frame's CRC. *)
Definition jd_send_not_implemented (tx : T) (pkt : list Z) : outcome (Z * T) :=
  if has_flag (f_flags pkt) JD_FRAME_FLAG_IDENTIFIER_IS_SERVICE_CLASS then Ret (0, tx)
  else send_packet tx (p_service_index pkt) JD_CMD_COMMAND_NOT_IMPLEMENTED
         (not_implemented_report (p_service_command pkt) (f_crc pkt)).

(** Sending a packet built in place as a frame of its own. *)
Definition jd_send_pkt `{FrameSender F} (tx : F) (pkt : list Z) : outcome (Z * list Z * F) :=
  send_frame tx (jd_compute_crc (set_f_size pkt (p_service_size pkt + 4))).

Definition jd_block_register (tx : T) (pkt : list Z) (reg_code : Z) : outcome (Z * T) :=
  if (p_service_command pkt =? JD_GET reg_code) || (p_service_command pkt =? JD_SET reg_code)
  then '(_, tx) ← jd_send_not_implemented tx pkt; Ret (1, tx)
  else Ret (0, tx).

(** ** Register definitions *)

Definition JD_REG_PADDING : Z := 0xff0.
Definition JD_REG_END : Z := 0xff1.
Definition JD_PTRSIZE : Z := 4.
Definition JD_REG_BIT : Z := 8.
Definition JD_REG_BYTES : Z := 9.
Definition JD_REG_OPT8 : Z := 10.
Definition JD_REG_ (tp v : Z) : Z := Z.lor (Z.shiftl tp 12) v.

(** The common part of every state struct: the table and the index. *)
Definition REG_SRV_COMMON : list Z := [JD_REG_ JD_REG_BYTES JD_REG_PADDING; JD_PTRSIZE + 2].

Definition REG_IS_SIGNED (r : Z) : bool := (r <=? 4) && (Z.land r 1 =? 0).
Definition REG_IS_OPT (r : Z) : bool := r >=? JD_REG_OPT8.
Definition regSize : list Z := [1; 1; 2; 2; 4; 4; 4; 8; 1; 0; 1; 2; 4; JD_PTRSIZE].

Definition is_zero (p : list Z) : bool := forallb (fun b => b =? 0) p.

(** Where the scan of the definition is: [offset] and [bitoffset] before the
    register; the result of aligning for a register of [regsz] bytes. *)
Definition align_reg (tp regsz offset bitoffset : Z) : Z * Z :=
  if negb (tp =? JD_REG_BIT) && negb (tp =? JD_REG_BYTES) then
    let offset := if negb (bitoffset =? 0) then offset + 1 else offset in
    let align := if regsz <? JD_PTRSIZE then regsz - 1 else JD_PTRSIZE - 1 in
    (Z.land (offset + align) (Z.lnot align), 0)
  else (offset, bitoffset).

(** Reading the register found at [offset]. *)
Definition reg_get (state pkt : list Z) (tp regsz offset bitoffset reg : Z) (tx : T)
    : outcome (Z * list Z * T) :=
  if tp =? JD_REG_BIT then
    let v := if negb (Z.land (get8 state offset) (Z.shiftl 1 bitoffset) =? 0) then 1 else 0 in
    '(_, tx) ← respond tx pkt [v]; Ret (- reg, state, tx)
  else if REG_IS_OPT tp && is_zero (mread state offset regsz) then Ret (0, state, tx)
  else '(_, tx) ← respond tx pkt (mread state offset regsz); Ret (- reg, state, tx).

(** Writing it. *)
Definition reg_set (state pkt : list Z) (tp regsz offset bitoffset : Z) : list Z :=
  let size := p_service_size pkt in
  let data := drop 16 pkt in
  if tp =? JD_REG_BIT then
    if negb (get8 data 0 =? 0)
    then put8 state offset (Z.lor (get8 state offset) (Z.shiftl 1 bitoffset))
    else put8 state offset (Z.ldiff (get8 state offset) (Z.shiftl 1 bitoffset))
  else if regsz <=? size then mwrite state offset (mread data 0 regsz)
  else
    let state := mwrite state offset (mread data 0 size) in
    let fill := if negb (REG_IS_SIGNED tp) then 0
                else if negb (Z.land (get8 data (size - 1)) 0x80 =? 0) then 0xff else 0 in
    mwrite state (offset + size) (replicate (Z.to_nat (regsz - size)) fill).

(** The scan of [sdesc]; running past its end is undefined and cannot happen
    with [JD_REG_END] in place. *)
Fixpoint register_loop (sdesc : list Z) (offset bitoffset : Z) (state pkt : list Z) (reg : Z)
    (is_get : bool) (tx : T) : outcome (Z * list Z * T) :=
  match sdesc with
  | [] => OutOfFuel
  | sd :: rest =>
      if sd =? JD_REG_END then Ret (0, state, tx)
      else
        let tp := Z.shiftr sd 12 in
        let step regsz next :=
          if regsz =? 0 then Panic
          else
            let '(offset, bitoffset) := align_reg tp regsz offset bitoffset in
            if Z.land sd 0xfff =? reg then
              if is_get then reg_get state pkt tp regsz offset bitoffset reg tx
              else Ret (reg, reg_set state pkt tp regsz offset bitoffset, tx)
            else if tp =? JD_REG_BIT then
              let bitoffset := bitoffset + 1 in
              if bitoffset =? 8 then next (offset + 1) 0 else next offset bitoffset
            else next (offset + regsz) bitoffset in
        if tp =? JD_REG_BYTES then
          match rest with
          | [] => OutOfFuel
          | sz :: rest => step sz (fun o b => register_loop rest o b state pkt reg is_get tx)
          end
        else step (default 0 (regSize !! Z.to_nat tp))
               (fun o b => register_loop rest o b state pkt reg is_get tx)
  end.

(** The result, the state struct and the sender. *)
Definition service_handle_register (state pkt : list Z) (sdesc : list Z) (tx : T)
    : outcome (Z * list Z * T) :=
  let cmd := p_service_command pkt in
  let is_get := JD_IS_GET cmd in
  let is_set := JD_IS_SET cmd in
  if negb is_get && negb is_set then Ret (0, state, tx)
  else if is_set && (p_service_size pkt =? 0) then Ret (0, state, tx)
  else
    let reg := JD_REG_CODE cmd in
    if reg >=? 0xf00 then Ret (0, state, tx)
    else if is_set && (Z.land reg 0xf00 =? 0x100) then Ret (0, state, tx)
    else register_loop sdesc 0 0 state pkt reg is_get tx.

Definition service_handle_register_final (state pkt : list Z) (sdesc : list Z) (tx : T)
    : outcome (Z * list Z * T) :=
  '(r, state, tx) ← service_handle_register state pkt sdesc tx;
  if r =? 0 then '(_, tx) ← jd_send_not_implemented tx pkt; Ret (r, state, tx)
  else Ret (r, state, tx).

Definition service_handle_string_register (pkt : list Z) (reg_code : Z) (value : list Z) (tx : T)
    : outcome (Z * T) :=
  if p_service_command pkt =? JD_GET reg_code
  then '(_, tx) ← respond tx pkt value; Ret (- reg_code, tx)
  else Ret (0, tx).

Definition service_handle_variant (pkt : list Z) (variant : Z) (tx : T) : outcome (Z * T) :=
  if p_service_command pkt =? JD_GET JD_REG_VARIANT
  then '(_, tx) ← jd_respond_u8 tx pkt variant; Ret (- JD_REG_VARIANT, tx)
  else Ret (0, tx).
End Registers.

(** ** The layout a definition denotes *)

Record reg_entry := { re_reg : Z; re_tp : Z; re_off : Z; re_bit : Z; re_size : Z }.

(** The registers with their places. [None] for a definition that is not
    ended, has a register of size 0, or puts [REG_BYTES] behind bits that do
    not fill their byte (the scan would give them the byte of the bits). *)
Fixpoint layout (sdesc : list Z) (off bit : Z) : option (list reg_entry) :=
  match sdesc with
  | [] => None
  | sd :: rest =>
      if sd =? JD_REG_END then Some []
      else
        let tp := Z.shiftr sd 12 in
        let reg := Z.land sd 0xfff in
        if tp =? JD_REG_BYTES then
          match rest with
          | [] => None
          | sz :: rest =>
              if (sz <=? 0) || negb (bit =? 0) then None
              else
                es ← layout rest (off + sz) 0;
                Some ({| re_reg := reg; re_tp := tp; re_off := off; re_bit := 0; re_size := sz |} :: es)
          end
        else if tp =? JD_REG_BIT then
          es ← (if bit + 1 =? 8 then layout rest (off + 1) 0 else layout rest off (bit + 1));
          Some ({| re_reg := reg; re_tp := tp; re_off := off; re_bit := bit; re_size := 1 |} :: es)
        else
          let sz := default 0 (regSize !! Z.to_nat tp) in
          let '(o, _) := align_reg tp sz off bit in
          if sz =? 0 then None
          else
            es ← layout rest (o + sz) 0;
            Some ({| re_reg := reg; re_tp := tp; re_off := o; re_bit := 0; re_size := sz |} :: es)
  end.

Lemma align_reg_plain tp sz off bit :
  (tp =? JD_REG_BIT) = false -> (tp =? JD_REG_BYTES) = false -> snd (align_reg tp sz off bit) = 0.
Proof. intros H1 H2. unfold align_reg. by rewrite H1, H2. Qed.

(** The scan acts on the first entry with the register's code. *)
Lemma register_loop_layout `{JdSpec} `{Sender T} n : forall sdesc off bit L state pkt reg is_get tx,
  (length sdesc <= n)%nat -> layout sdesc off bit = Some L ->
  register_loop sdesc off bit state pkt reg is_get tx =
    match List.find (fun e => re_reg e =? reg) L with
    | None => Ret (0, state, tx)
    | Some e =>
        if is_get then reg_get state pkt (re_tp e) (re_size e) (re_off e) (re_bit e) reg tx
        else Ret (reg, reg_set state pkt (re_tp e) (re_size e) (re_off e) (re_bit e), tx)
    end.
Proof.
  induction n as [|n IH]; intros [|sd rest] off bit L state pkt reg is_get tx Hn; simpl in Hn; try lia; try done.
  cbn [layout register_loop]. destruct (sd =? JD_REG_END); [by intros [= <-]|].
  set (tp := Z.shiftr sd 12). destruct (tp =? JD_REG_BYTES) eqn:Eby.
  - destruct rest as [|sz rest]; [done|].
    destruct ((sz <=? 0) || negb (bit =? 0)) eqn:Ebad; [done|]. apply orb_false_iff in Ebad as [Hsz Hbit].
    apply negb_false_iff, Z.eqb_eq in Hbit as ->. apply Z.leb_gt in Hsz.
    destruct (layout rest (off + sz) 0) as [es|] eqn:El; cbn; [|done]. intros [= <-]. cbn [List.find re_reg].
    rewrite (proj2 (Z.eqb_neq sz 0)) by lia.
    assert (tp <> JD_REG_BIT) as Hnb by (apply Z.eqb_eq in Eby; rewrite Eby; done).
    unfold align_reg. rewrite Eby, (proj2 (Z.eqb_neq _ _) Hnb). cbn [negb andb].
    destruct (Z.land sd 0xfff =? reg); [done|]. apply IH; [simpl in *; lia|done].
  - destruct (tp =? JD_REG_BIT) eqn:Ebit.
    + assert (default 0 (regSize !! Z.to_nat tp) = 1) as -> by (apply Z.eqb_eq in Ebit; by rewrite Ebit).
      unfold align_reg. rewrite Ebit. cbn [negb andb Z.eqb].
      destruct (bit + 1 =? 8);
        (match goal with |- context [layout rest ?o ?b] => destruct (layout rest o b) as [es|] eqn:El end; cbn; [|done]);
        intros [= <-]; cbn [List.find re_reg re_tp re_size re_off re_bit];
        (destruct (Z.land sd 0xfff =? reg); [done|]); apply IH; done || lia.
    + set (sz := default 0 (regSize !! Z.to_nat tp)). pose proof (align_reg_plain tp sz off bit Ebit Eby) as Hb.
      destruct (align_reg tp sz off bit) as [o b]. simpl in Hb. subst b.
      destruct (sz =? 0); [done|]. destruct (layout rest (o + sz) 0) as [es|] eqn:El; cbn; [|done].
      intros [= <-]. cbn [List.find re_reg re_tp re_size re_off re_bit].
      destruct (Z.land sd 0xfff =? reg); [done|]. apply IH; [lia|done].
Qed.

(** ** Registers do not overlap *)

Definition re_end (e : reg_entry) : Z := re_off e + re_size e.
Definition re_is_bit (e : reg_entry) : bool := re_tp e =? JD_REG_BIT.

Definition re_wf (e : reg_entry) : Prop :=
  0 < re_size e /\ 0 <= re_off e /\ 0 <= re_bit e < 8 /\ (re_is_bit e = true -> re_size e = 1).

(** [e1] lies wholly in front of [e2]. *)
Definition re_lt (e1 e2 : reg_entry) : Prop :=
  re_end e1 <= re_off e2 \/
  (re_is_bit e1 = true /\ re_is_bit e2 = true /\ re_off e1 = re_off e2 /\ re_bit e1 < re_bit e2).

(** [e] comes behind the place [(off, bit)]. *)
Definition re_after (e : reg_entry) (off bit : Z) : Prop :=
  off < re_off e \/ (re_off e = off /\ (if re_is_bit e then bit <= re_bit e else bit = 0)).

Lemma align_reg_ge tp off bit :
  (tp =? JD_REG_BIT) = false -> (tp =? JD_REG_BYTES) = false -> 0 <= off -> 0 <= bit ->
  let sz := default 0 (regSize !! Z.to_nat tp) in sz <> 0 ->
  off + (if bit =? 0 then 0 else 1) <= fst (align_reg tp sz off bit) /\ 0 < sz.
Proof.
  intros H1 H2 Ho Hb sz Hsz. unfold align_reg. rewrite H1, H2. cbn [negb andb fst].
  assert (sz = 1 \/ sz = 2 \/ sz = 4 \/ sz = 8) as Hs.
  { unfold sz, regSize, JD_PTRSIZE in *.
    destruct (Z.to_nat tp) as [|[|[|[|[|[|[|[|[|[|[|[|[|[|]]]]]]]]]]]]]]; cbn in Hsz |- *;
      first [lia | exfalso; apply Hsz; by destruct n]. }
  assert (forall x k, 0 <= k -> 0 <= x -> x <= Z.land (x + Z.ones k) (Z.lnot (Z.ones k))) as Hal.
  { intros x k Hk Hx. rewrite <- Z.ldiff_land, Z.ldiff_ones_r by lia.
    rewrite Z.shiftr_div_pow2, Z.shiftl_mul_pow2, Z.ones_equiv by lia.
    assert (0 < 2 ^ k) by (apply Z.pow_pos_nonneg; lia). generalize dependent (2 ^ k). intros m Hm.
    pose proof (Z.div_mod (x + Z.pred m) m ltac:(lia)). pose proof (Z.mod_pos_bound (x + Z.pred m) m Hm). lia. }
  assert (exists k, 0 <= k /\ (if sz <? JD_PTRSIZE then sz - 1 else JD_PTRSIZE - 1) = Z.ones k) as (k & Hk & ->).
  { destruct Hs as [->|[->|[->| ->]]]; [exists 0|exists 1|exists 2|exists 2]; done. }
  split; [|lia]. etransitivity; [|apply Hal; [done|]]; destruct (bit =? 0); cbn [negb]; lia.
Qed.

Lemma re_after_mono e off bit off' bit' :
  off < off' \/ (off' = off /\ 0 <= bit <= bit') -> re_after e off' bit' -> re_after e off bit.
Proof. unfold re_after. intros [?|[-> ?]] [?|[? ?]]; try lia; destruct (re_is_bit e); lia. Qed.

(** One entry in front of a sorted rest. *)
Lemma layout_cons e es off bit off' bit' :
  re_wf e -> re_after e off bit ->
  off < off' \/ (off' = off /\ 0 <= bit <= bit') ->
  (forall e2, re_after e2 off' bit' -> re_lt e e2) ->
  Forall (fun e => re_wf e /\ re_after e off' bit') es -> StronglySorted re_lt es ->
  Forall (fun e => re_wf e /\ re_after e off bit) (e :: es) /\ StronglySorted re_lt (e :: es).
Proof.
  intros Hwf Ha Hm Hlt Hes Hs. split.
  - constructor; [done|]. eapply Forall_impl; [exact Hes|]. intros e2 [? ?]. eauto using re_after_mono.
  - constructor; [done|]. eapply Forall_impl; [exact Hes|]. intros e2 [? ?]. auto.
Qed.

Lemma layout_sorted n : forall sdesc off bit L,
  (length sdesc <= n)%nat -> 0 <= off -> 0 <= bit < 8 -> layout sdesc off bit = Some L ->
  Forall (fun e => re_wf e /\ re_after e off bit) L /\ StronglySorted re_lt L.
Proof.
  induction n as [|n IH]; intros [|sd rest] off bit L Hn Ho Hb; simpl in Hn; try lia; try done.
  cbn [layout]. destruct (sd =? JD_REG_END); [intros [= <-]; split; constructor|].
  set (tp := Z.shiftr sd 12). destruct (tp =? JD_REG_BYTES) eqn:Eby.
  - destruct rest as [|sz rest]; [done|].
    destruct ((sz <=? 0) || negb (bit =? 0)) eqn:Ebad; [done|]. bool_to_prop. subst bit.
    assert ((tp =? JD_REG_BIT) = false) as Hnb by (by rewrite Eby).
    destruct (layout rest (off + sz) 0) as [es|] eqn:El; cbn; [|done]. intros [= <-].
    destruct (IH rest (off + sz) 0 es) as [? ?]; [simpl in *; lia|lia|lia|done|].
    eapply (layout_cons _ _ _ _ (off + sz) 0); [| | |intros e2|eassumption|done];
      unfold re_wf, re_after, re_lt, re_end, re_is_bit; cbn; rewrite ?Hnb; lia.
  - destruct (tp =? JD_REG_BIT) eqn:Ebit.
    + destruct (Z.eqb_spec (bit + 1) 8);
        (match goal with |- context [layout rest ?o ?b] => destruct (layout rest o b) as [es|] eqn:El end; cbn; [|done]);
        intros [= <-]; (eapply IH in El as [? ?]; [|lia..]);
        (eapply layout_cons; [| | |intros e2|eassumption|done]);
        unfold re_wf, re_after, re_lt, re_end, re_is_bit; cbn; rewrite ?Ebit;
        try destruct (re_tp _ =? JD_REG_BIT); lia.
    + pose proof (align_reg_plain tp (default 0 (regSize !! Z.to_nat tp)) off bit Ebit Eby) as Hb0.
      pose proof (align_reg_ge tp off bit Ebit Eby Ho ltac:(lia)) as Hge. cbn zeta in Hge.
      set (sz := default 0 (regSize !! Z.to_nat tp)) in *.
      destruct (align_reg tp sz off bit) as [o b]. simpl in Hb0, Hge. subst b.
      destruct (Z.eqb_spec sz 0) as [|Hsz]; [done|]. destruct (Hge Hsz) as [Hoo Hpos].
      destruct (layout rest (o + sz) 0) as [es|] eqn:El; cbn; [|done]. intros [= <-].
      assert (0 <= o) by (destruct (bit =? 0); lia). eapply IH in El as [? ?]; [|lia..].
      eapply (layout_cons _ _ _ _ (o + sz) 0); [| | |intros e2|eassumption|done];
        unfold re_wf, re_after, re_lt, re_end, re_is_bit; cbn; rewrite ?Ebit;
        try destruct (re_tp _ =? JD_REG_BIT); destruct (Z.eqb_spec bit 0); lia.
Qed.

(** ** What a register holds, and what a write puts there *)

(** The bytes a get of [e] reports. *)
Definition reg_value (st : list Z) (e : reg_entry) : list Z :=
  if re_is_bit e then [zbool (Z.testbit (get8 st (re_off e)) (re_bit e))]
  else mread st (re_off e) (re_size e).

(** The bytes a write of [payload] stores in [e]: cut to the register, or
    extended by zeros or the sign. *)
Definition written (e : reg_entry) (payload : list Z) : list Z :=
  if re_is_bit e then [zbool (negb (get8 payload 0 =? 0))]
  else if re_size e <=? zlen payload then take (Z.to_nat (re_size e)) payload
  else payload ++ replicate (Z.to_nat (re_size e - zlen payload))
                    (if REG_IS_SIGNED (re_tp e) && Z.testbit (get8 payload (zlen payload - 1)) 7
                     then 0xff else 0).

Lemma land_bit x n : 0 <= n -> (Z.land x (Z.shiftl 1 n) =? 0) = negb (Z.testbit x n).
Proof.
  intros Hn. rewrite Z.shiftl_1_l. destruct (Z.testbit x n) eqn:E; cbn [negb].
  - apply Z.eqb_neq. intros H0. assert (Z.testbit (Z.land x (2 ^ n)) n = true) as Ht.
    { by rewrite Z.land_spec, E, Z.pow2_bits_true by lia. }
    rewrite H0, Z.bits_0 in Ht. done.
  - apply Z.eqb_eq, Z.bits_inj'. intros k Hk. rewrite Z.land_spec, Z.bits_0.
    destruct (decide (k = n)) as [->|]; [by rewrite E|].
    rewrite Z.pow2_bits_false by lia. by rewrite andb_false_r.
Qed.

(** A write stays inside the register's bytes, whatever the packet. *)
Definition reg_fits (st : list Z) (e : reg_entry) : Prop := re_wf e /\ re_end e <= zlen st.

Lemma length_reg_set st pkt e :
  reg_fits st e -> 0 <= p_service_size pkt <= zlen (drop 16 pkt) ->
  length (reg_set st pkt (re_tp e) (re_size e) (re_off e) (re_bit e)) = length st.
Proof.
  intros [(Hs & Ho & Hb & Hbit) Hend] Hsz. unfold reg_set, re_is_bit, re_end, zlen in *.
  destruct (re_tp e =? JD_REG_BIT); [destruct (negb _); unfold put8; by rewrite length_insert|].
  destruct (Z.leb_spec (re_size e) (p_service_size pkt)).
  - rewrite length_mwrite; rewrite ?length_mread; lia.
  - rewrite !length_mwrite; rewrite ?length_mwrite, ?length_mread, ?length_replicate by (rewrite ?length_mread; lia); lia.
Qed.

Lemma reg_set_outside st pkt e i :
  reg_fits st e -> 0 <= p_service_size pkt <= zlen (drop 16 pkt) ->
  Z.of_nat i < re_off e \/ re_end e <= Z.of_nat i ->
  reg_set st pkt (re_tp e) (re_size e) (re_off e) (re_bit e) !! i = st !! i.
Proof.
  intros [(Hs & Ho & Hb & Hbit) Hend] Hsz Hi. unfold reg_set, re_is_bit, re_end, zlen in *.
  destruct (re_tp e =? JD_REG_BIT).
  { destruct (negb _); unfold put8; apply list_lookup_insert_ne; lia. }
  destruct (Z.leb_spec (re_size e) (p_service_size pkt)).
  - rewrite lookup_mwrite by (rewrite length_mread; lia). rewrite length_mread by lia.
    rewrite decide_False by lia. done.
  - assert (length (mwrite st (re_off e) (mread (drop 16 pkt) 0 (p_service_size pkt))) = length st) as Hl.
    { rewrite length_mwrite; rewrite ?length_mread; lia. }
    rewrite lookup_mwrite by (rewrite length_replicate; lia). rewrite length_replicate.
    rewrite decide_False by lia.
    rewrite lookup_mwrite by (rewrite length_mread; lia). rewrite length_mread by lia.
    rewrite decide_False by lia. done.
Qed.

Lemma reg_value_ext st st' e :
  re_wf e -> (forall i : nat, re_off e <= Z.of_nat i < re_end e -> st' !! i = st !! i) ->
  reg_value st' e = reg_value st e.
Proof.
  intros (Hs & Ho & _ & Hbit) Heq. unfold reg_value, re_end in *. destruct (re_is_bit e).
  - unfold get8. rewrite Heq by lia. done.
  - apply list_eq. intros i. rewrite !lookup_mread. case_decide; [apply Heq; lia|done].
Qed.

Lemma reg_set_bit st pkt e k :
  reg_fits st e -> re_is_bit e = true -> 0 <= k < 8 ->
  Z.testbit (get8 (reg_set st pkt (re_tp e) (re_size e) (re_off e) (re_bit e)) (re_off e)) k =
    if k =? re_bit e then negb (get8 (drop 16 pkt) 0 =? 0) else Z.testbit (get8 st (re_off e)) k.
Proof.
  intros [(Hs & Ho & Hb & Hbit) Hend] Ht Hk. unfold reg_set, re_is_bit, re_end, zlen in *. rewrite Ht.
  assert (forall v, get8 (put8 st (re_off e) v) (re_off e) = u8 v) as Hg.
  { intros v. unfold get8, put8. by rewrite list_lookup_insert_eq by lia. }
  destruct (get8 (drop 16 pkt) 0 =? 0); cbn [negb]; rewrite Hg; unfold u8;
    rewrite Z.mod_pow2_bits_low, ?Z.ldiff_spec, ?Z.lor_spec, Z.shiftl_1_l by lia;
    destruct (Z.eqb_spec k (re_bit e)) as [->|];
    rewrite ?Z.pow2_bits_true, ?Z.pow2_bits_false by lia; cbn [negb];
    by rewrite ?orb_true_r, ?orb_false_r, ?andb_false_r, ?andb_true_r.
Qed.

(** Registers with other places keep their value. *)
Lemma reg_set_other st pkt e e2 :
  reg_fits st e -> re_wf e2 -> 0 <= p_service_size pkt <= zlen (drop 16 pkt) ->
  re_lt e e2 \/ re_lt e2 e ->
  reg_value (reg_set st pkt (re_tp e) (re_size e) (re_off e) (re_bit e)) e2 = reg_value st e2.
Proof.
  intros Hf Hwf Hsz Hlt.
  assert (re_end e <= re_off e2 \/ re_end e2 <= re_off e \/
          (re_is_bit e = true /\ re_is_bit e2 = true /\ re_off e = re_off e2 /\ re_bit e <> re_bit e2))
    as [?|[?|(Hb1 & Hb2 & Ho & Hne)]].
  { unfold re_lt in Hlt. destruct Hlt as [[?|(? & ? & ? & ?)]|[?|(? & ? & ? & ?)]]; auto;
      right; right; repeat split; (done || lia). }
  - apply reg_value_ext; [done|]. intros i Hi. apply reg_set_outside; [done..|lia].
  - apply reg_value_ext; [done|]. intros i Hi. apply reg_set_outside; [done..|lia].
  - unfold reg_value. rewrite Hb2, <- Ho. do 2 f_equal.
    rewrite reg_set_bit; [|done|done|destruct Hwf; lia].
    by rewrite (proj2 (Z.eqb_neq _ _)) by lia.
Qed.

Lemma get8_take l n i : 0 <= i < n -> get8 (take (Z.to_nat n) l) i = get8 l i.
Proof. intros. unfold get8. rewrite lookup_take_lt by lia. done. Qed.

(** The register holds what was written. *)
Lemma reg_set_same st pkt e :
  reg_fits st e -> 0 < p_service_size pkt <= zlen (drop 16 pkt) ->
  reg_value (reg_set st pkt (re_tp e) (re_size e) (re_off e) (re_bit e)) e =
    written e (take (Z.to_nat (p_service_size pkt)) (drop 16 pkt)).
Proof.
  intros Hf Hsz. unfold reg_value, written. destruct (re_is_bit e) eqn:Hb.
  { rewrite reg_set_bit, Z.eqb_refl by (done || destruct Hf as [(_ & _ & ? & _) _]; done).
    by rewrite get8_take by lia. }
  assert (zlen (take (Z.to_nat (p_service_size pkt)) (drop 16 pkt)) = p_service_size pkt) as Hl.
  { unfold zlen in *. rewrite length_take. lia. }
  rewrite Hl, get8_take by lia. destruct Hf as [(Hs & Ho & _) Hend]. unfold reg_set.
  unfold re_is_bit in Hb. rewrite Hb. unfold re_end, zlen in *.
  set (d := drop 16 pkt) in *. set (sz := p_service_size pkt) in *. clearbody d sz.
  case_cmp.
  - apply list_eq. intros i. rewrite lookup_mread. case_decide.
    + rewrite lookup_mwrite by (rewrite length_mread; lia). rewrite length_mread by lia.
      rewrite decide_True by lia. rewrite lookup_mread, decide_True by lia.
      rewrite !lookup_take_lt by lia. f_equal. lia.
    + rewrite lookup_take_ge by lia. done.
  - set (fill := if negb (REG_IS_SIGNED (re_tp e)) then 0
                 else if negb (Z.land (get8 d (sz - 1)) 128 =? 0) then 255 else 0).
    assert ((if REG_IS_SIGNED (re_tp e) && Z.testbit (get8 d (sz - 1)) 7 then 255 else 0) = fill) as ->.
    { unfold fill. change 128 with (Z.shiftl 1 7). rewrite land_bit, negb_involutive by lia.
      by destruct (REG_IS_SIGNED (re_tp e)). }
    assert (length (mwrite st (re_off e) (mread d 0 sz)) = length st) as Hw.
    { rewrite length_mwrite; rewrite ?length_mread; lia. }
    apply list_eq. intros i. rewrite lookup_mread, lookup_app_case, length_take. case_decide.
    + rewrite lookup_mwrite by (rewrite length_replicate; lia). rewrite length_replicate.
      case_decide; [rewrite decide_False by lia|rewrite decide_True by lia].
      * rewrite !lookup_replicate_2 by lia. done.
      * rewrite lookup_mwrite by (rewrite length_mread; lia). rewrite length_mread by lia.
        rewrite decide_True by lia. rewrite lookup_mread, decide_True, lookup_take_lt by lia. f_equal. lia.
    + rewrite decide_False by lia. symmetry. apply lookup_ge_None_2. rewrite length_replicate. lia.
Qed.

Lemma sorted_trichotomy {A} (R : A -> A -> Prop) l a b :
  StronglySorted R l -> In a l -> In b l -> a = b \/ R a b \/ R b a.
Proof.
  induction 1 as [|x l _ IH Hx]; [done|]. rewrite List.Forall_forall in Hx.
  intros [->|Ha] [->|Hb]; auto.
Qed.

Lemma layout_fits sdesc L st :
  layout sdesc 0 0 = Some L -> Forall (fun e => re_end e <= zlen st) L ->
  (forall e, In e L -> reg_fits st e) /\
  (forall e e2, In e L -> In e2 L -> re_reg e <> re_reg e2 -> re_lt e e2 \/ re_lt e2 e).
Proof.
  intros HL Hend. destruct (layout_sorted _ sdesc 0 0 L (le_n _) ltac:(lia) ltac:(lia) HL) as [Hwf Hs].
  rewrite List.Forall_forall in Hwf, Hend. split.
  - intros e He. split; [by apply Hwf|by apply Hend].
  - intros e e2 H1 H2 Hne. destruct (sorted_trichotomy _ _ _ _ Hs H1 H2) as [->|?]; done.
Qed.

Lemma jd_is_get_set `{JdSpec} cmd : JD_IS_SET cmd = true -> JD_IS_GET cmd = false.
Proof.
  unfold JD_IS_SET, JD_IS_GET. destruct jd_get_code as (k & Hk & Eg), jd_set_code as (k' & Hk' & Es).
  pose proof jd_get_set as Hne. rewrite Eg, Es in *. intros E. apply Z.eqb_eq in E.
  apply Z.eqb_neq. rewrite E, !Z.shiftr_div_pow2 by lia. change (2 ^ 12) with 4096.
  rewrite !Z.div_mul by lia. intros ->. done.
Qed.

Definition reg_writable (reg : Z) : bool := (reg <? 0xf00) && negb (Z.land reg 0xf00 =? 0x100).

Definition pkt_payload (pkt : list Z) : list Z := take (Z.to_nat (p_service_size pkt)) (drop 16 pkt).

(** C19. A set packet for a writable register of the definition stores the
    packet's payload in that register, truncated or extended to the register's
    width, and changes no other register of the service: bit-fields sharing a
    byte, differently aligned neighbours and byte arrays included. *)
Theorem register_set_isolated `{JdSpec} `{Sender T} sdesc L st pkt (tx : T) e :
  layout sdesc 0 0 = Some L -> Forall (fun e => re_end e <= zlen st) L ->
  JD_IS_SET (p_service_command pkt) = true ->
  reg_writable (JD_REG_CODE (p_service_command pkt)) = true ->
  0 < p_service_size pkt <= zlen (drop 16 pkt) ->
  List.find (fun e => re_reg e =? JD_REG_CODE (p_service_command pkt)) L = Some e ->
  exists st',
    service_handle_register st pkt sdesc tx = Ret (JD_REG_CODE (p_service_command pkt), st', tx) /\
    length st' = length st /\
    reg_value st' e = written e (pkt_payload pkt) /\
    forall e2, In e2 L -> re_reg e2 <> re_reg e -> reg_value st' e2 = reg_value st e2.
Proof.
  intros HL Hend Hset Hw Hsz Hfind. destruct (layout_fits _ _ _ HL Hend) as [Hfit Hdis].
  apply List.find_some in Hfind as Hin. destruct Hin as [Hin Hcode]. apply Z.eqb_eq in Hcode.
  exists (reg_set st pkt (re_tp e) (re_size e) (re_off e) (re_bit e)).
  split; [|split; [apply length_reg_set; [by apply Hfit|lia]|split; [apply reg_set_same; [by apply Hfit|lia]|]]].
  - unfold service_handle_register. rewrite Hset, (jd_is_get_set _ Hset). cbn [negb andb].
    rewrite (proj2 (Z.eqb_neq (p_service_size pkt) 0)) by lia.
    unfold reg_writable in Hw. bool_to_prop. rewrite Z.geb_leb, (proj2 (Z.leb_gt _ _)) by lia.
    rewrite (proj2 (Z.eqb_neq (Z.land _ _) _)) by done.
    rewrite (register_loop_layout _ _ 0 0 L _ _ _ _ _ (le_n _) HL), Hfind. done.
  - intros e2 Hin2 Hne. apply reg_set_other; [by apply Hfit|by apply Hfit|lia|]. apply Hdis; [done..|congruence].
Qed.

(** A get packet leaves the service state alone and reports exactly the
    register's bytes under the request's command code; a register that is not
    in the definition, a reserved code, and an optional register that is all
    zeros report nothing and return 0. *)
Lemma register_get_reports `{JdSpec} `{Sender T} sdesc L st pkt (tx : T) :
  layout sdesc 0 0 = Some L ->
  JD_IS_GET (p_service_command pkt) = true -> JD_IS_SET (p_service_command pkt) = false ->
  service_handle_register st pkt sdesc tx =
    let reg := JD_REG_CODE (p_service_command pkt) in
    if reg >=? 0xf00 then Ret (0, st, tx)
    else match List.find (fun e => re_reg e =? reg) L with
         | None => Ret (0, st, tx)
         | Some e =>
             if REG_IS_OPT (re_tp e) && is_zero (reg_value st e) then Ret (0, st, tx)
             else '(_, tx) ← send_packet tx (p_service_index pkt) (p_service_command pkt) (reg_value st e);
                  Ret (- reg, st, tx)
         end.
Proof.
  intros HL Hget Hset. destruct (layout_sorted _ sdesc 0 0 L (le_n _) ltac:(lia) ltac:(lia) HL) as [Hwf _].
  unfold service_handle_register. rewrite Hset, Hget. cbn zeta. cbn [negb andb].
  destruct (_ >=? _); [done|].
  rewrite (register_loop_layout _ _ 0 0 L _ _ _ _ _ (le_n _) HL).
  destruct (List.find _ L) as [e|] eqn:Hfind; [|done].
  apply List.find_some in Hfind as [Hin _]. rewrite List.Forall_forall in Hwf.
  destruct (Hwf e Hin) as [(_ & _ & Hbit & _) _].
  unfold reg_get, reg_value, respond, re_is_bit. destruct (re_tp e =? JD_REG_BIT) eqn:Ht; [|done].
  apply Z.eqb_eq in Ht. rewrite Ht. cbn [REG_IS_OPT JD_REG_BIT JD_REG_OPT8 Z.geb Z.compare andb].
  rewrite land_bit, negb_involutive by lia. done.
Qed.

(** The payload of a packet as a little-endian number of its own width. *)
Definition reg_number (signed : bool) (l : list Z) : Z :=
  if signed && Z.testbit (get8 l (zlen l - 1)) 7 then le_val l - 256 ^ zlen l else le_val l.

Lemma le_val_app l1 l2 : le_val (l1 ++ l2) = le_val l1 + 256 ^ zlen l1 * le_val l2.
Proof.
  induction l1 as [|b l1 IH]; [change (256 ^ zlen []) with 1; cbn [app le_val]; lia|]. cbn [app le_val]. rewrite IH.
  assert (256 ^ zlen (b :: l1) = 256 * 256 ^ zlen l1) as ->.
  { unfold zlen. cbn [length]. rewrite Nat2Z.inj_succ, Z.pow_succ_r by lia. done. }
  lia.
Qed.

Lemma le_val_replicate n b : le_val (replicate n b) * 255 = b * (256 ^ Z.of_nat n - 1).
Proof.
  induction n as [|n IH]; [cbn; lia|]. cbn [replicate le_val].
  rewrite Nat2Z.inj_succ, Z.pow_succ_r by lia. lia.
Qed.

Lemma le_val_take l n : Forall is_byte l -> 0 <= n <= zlen l -> le_val (take (Z.to_nat n) l) = le_val l mod 256 ^ n.
Proof.
  intros Hb Hn. rewrite <- (take_drop (Z.to_nat n) l) at 2. rewrite le_val_app.
  assert (zlen (take (Z.to_nat n) l) = n) as El by (unfold zlen in *; rewrite length_take; lia).
  rewrite El, Z.mul_comm, Z.mod_add by (apply Z.pow_nonzero; lia). symmetry. apply Z.mod_small.
  pose proof (le_val_range (take (Z.to_nat n) l) ltac:(by apply Forall_take)) as Hr. by rewrite El in Hr.
Qed.

Lemma get8_app_last l k b : (0 < k)%nat -> get8 (l ++ replicate k b) (zlen (l ++ replicate k b) - 1) = b.
Proof.
  intros Hk. unfold get8, zlen. rewrite length_app, length_replicate, lookup_app_r by lia.
  rewrite lookup_replicate_2 by lia. done.
Qed.

(** Numbers survive a write of another width: a register wider than the
    payload holds the same number afterwards, sign-extended when its type is
    signed and zero-extended otherwise; a narrower one holds it modulo its
    width. *)
Lemma register_write_number e payload :
  re_is_bit e = false -> 0 < re_size e -> payload <> [] -> Forall is_byte payload ->
  zlen (written e payload) = re_size e /\
  (zlen payload <= re_size e ->
     reg_number (REG_IS_SIGNED (re_tp e)) (written e payload) =
     reg_number (REG_IS_SIGNED (re_tp e)) payload) /\
  (re_size e <= zlen payload -> le_val (written e payload) = le_val payload mod 256 ^ re_size e).
Proof.
  intros Hbit Hs Hne Hb. unfold written. rewrite Hbit.
  assert (0 < zlen payload) as Hpos by (unfold zlen; destruct payload; [done|cbn; lia]).
  case_cmp.
  - split; [unfold zlen in *; rewrite length_take; lia|]. split.
    + intros Hle. rewrite take_ge by (unfold zlen in *; lia). done.
    + intros _. apply le_val_take; [done|lia].
  - set (s := REG_IS_SIGNED (re_tp e)). set (n := Z.to_nat (re_size e - zlen payload)).
    set (neg := s && Z.testbit (get8 payload (zlen payload - 1)) 7).
    assert (zlen (payload ++ replicate n (if neg then 255 else 0)) = re_size e) as Hl.
    { unfold zlen in *. rewrite length_app, length_replicate. lia. }
    split; [done|]. split; [|lia]. intros _. unfold reg_number.
    rewrite get8_app_last by (unfold n; lia). fold neg. rewrite Hl, le_val_app.
    pose proof (le_val_replicate n (if neg then 255 else 0)) as Hr.
    assert (Z.of_nat n = re_size e - zlen payload) as En by (unfold n; lia). rewrite En in Hr.
    assert (256 ^ re_size e = 256 ^ zlen payload * 256 ^ (re_size e - zlen payload)) as ->.
    { rewrite <- Z.pow_add_r by lia. f_equal. lia. }
    destruct neg eqn:En'.
    + assert (s = true) as -> by (unfold neg in En'; by destruct s). cbn. nia.
    + rewrite andb_false_r. nia.
Qed.

(** Packets for the register engine that it must not serve - not a
    register command, an empty set, a set of a read-only or reserved register,
    a get of a reserved one, a register the definition lacks - change nothing
    and are answered with one not-implemented report. *)
Lemma register_rejected `{JdSpec} `{Sender T} sdesc L st pkt (tx : T) :
  layout sdesc 0 0 = Some L ->
  let cmd := p_service_command pkt in
  (JD_IS_GET cmd = false /\ JD_IS_SET cmd = false) \/
  (JD_IS_SET cmd = true /\ (p_service_size pkt = 0 \/ reg_writable (JD_REG_CODE cmd) = false)) \/
  0xf00 <= JD_REG_CODE cmd \/
  List.find (fun e => re_reg e =? JD_REG_CODE cmd) L = None ->
  service_handle_register_final st pkt sdesc tx =
    '(_, tx) ← jd_send_not_implemented tx pkt; Ret (0, st, tx).
Proof.
  intros HL cmd Hrej. unfold service_handle_register_final.
  assert (service_handle_register st pkt sdesc tx = Ret (0, st, tx)) as ->; [|done].
  unfold service_handle_register. fold cmd.
  destruct (JD_IS_GET cmd) eqn:Eg, (JD_IS_SET cmd) eqn:Es; cbn [negb andb]; [|..|done];
    (destruct (Z.eqb_spec (p_service_size pkt) 0); cbn [andb]; [try done|]);
    rewrite ?Z.geb_leb; try (destruct (Z.leb_spec 0xf00 (JD_REG_CODE cmd)); [done|]); cbn [andb];
    try (destruct (Z.eqb_spec (Z.land (JD_REG_CODE cmd) 0xf00) 0x100); [done|]);
    rewrite (register_loop_layout _ _ 0 0 L _ _ _ _ _ (le_n _) HL).
  all: destruct Hrej as [[? ?]|[[? [?|Hw]]|[?| ->]]]; try done; try lia; exfalso.
  all: unfold reg_writable in Hw; apply andb_false_iff in Hw as [Hw|Hw]; bool_to_prop; done || lia.
Qed.

(** ** Register numbers and command codes *)

Section Codes.
Context `{JdSpec}.

Lemma lor_code k x : 0 <= k -> 0 <= x < 4096 -> Z.lor (k * 4096) x = k * 4096 + x.
Proof.
  intros Hk Hx. change 4096 with (2 ^ 12). rewrite <- Z.shiftl_mul_pow2 by lia. rewrite <- Z.add_lor_land.
  assert (Z.land (Z.shiftl k 12) x = 0) as ->; [|lia]. apply Z.bits_inj'. intros n Hn. rewrite Z.land_spec, Z.bits_0.
  destruct (Z.ltb_spec n 12) as [Hlt|Hge].
  - by rewrite Z.shiftl_spec_low by lia.
  - assert (Z.testbit x n = false) as ->; [|by rewrite andb_false_r]. destruct (Z.eqb_spec x 0) as [->|]; [apply Z.bits_0|].
    apply Z.bits_above_log2; [lia|]. apply Z.lt_le_trans with 12; [apply Z.log2_lt_pow2; lia|lia].
Qed.

(** The code of a set command and of a get command, and the register. *)
Lemma jd_set_split r : 0 <= r < 4096 -> JD_IS_SET (JD_SET r) = true /\ JD_IS_GET (JD_SET r) = false /\ JD_REG_CODE (JD_SET r) = r.
Proof.
  intros Hr. destruct jd_set_code as (k & Hk & E). unfold JD_IS_SET, JD_IS_GET, JD_REG_CODE, JD_SET. destruct jd_get_code as (g & Hg & Eg).
  pose proof jd_get_set as Hne. rewrite E, Eg in *. rewrite lor_code by lia. change 0xfff with (Z.ones 12).
  rewrite !Z.shiftr_div_pow2, Z.land_ones by lia. change (2 ^ 12) with 4096.
  rewrite !Z.div_mul by lia. replace ((k * 4096 + r) / 4096) with k by (Z.to_euclidean_division_equations; lia).
  split; [apply Z.eqb_refl|]. split; [apply Z.eqb_neq; lia|]. Z.to_euclidean_division_equations; lia.
Qed.

Lemma jd_set_inj a b : 0 <= a < 4096 -> 0 <= b < 4096 -> JD_SET a = JD_SET b -> a = b.
Proof. intros Ha Hb E. destruct (jd_set_split a Ha) as (_ & _ & <-). destruct (jd_set_split b Hb) as (_ & _ & <-). by rewrite E. Qed.

Lemma jd_get_not_set a b : 0 <= a < 4096 -> 0 <= b < 4096 -> JD_GET a <> JD_SET b.
Proof.
  intros Ha Hb E. destruct (jd_set_split b Hb) as (_ & Hg & _). rewrite <- E in Hg. destruct jd_get_code as (g & Hg1 & Eg).
  unfold JD_IS_GET, JD_GET in Hg. rewrite Eg, lor_code in Hg by lia. rewrite !Z.shiftr_div_pow2 in Hg by lia. change (2 ^ 12) with 4096 in Hg.
  rewrite Z.div_mul in Hg by lia. replace ((g * 4096 + a) / 4096) with g in Hg by (Z.to_euclidean_division_equations; lia). by rewrite Z.eqb_refl in Hg.
Qed.

Lemma reg_word tp v : 0 <= tp < 16 -> 0 <= v < 4096 ->
  Z.shiftr (JD_REG_ tp v) 12 = tp /\ Z.land (JD_REG_ tp v) 0xfff = v /\ JD_REG_ tp v = tp * 4096 + v.
Proof.
  intros Ht Hv. unfold JD_REG_. rewrite Z.shiftl_mul_pow2 by lia. change (2 ^ 12) with 4096. rewrite lor_code by lia. change 0xfff with (Z.ones 12).
  rewrite Z.shiftr_div_pow2, Z.land_ones by lia. change (2 ^ 12) with 4096. Z.to_euclidean_division_equations. lia.
Qed.

(** One step of the layout, for a register with a size of its own. *)
Lemma layout_plain tp v rest off bit o sz : 0 <= tp < 8 -> 0 <= v < 0xff1 -> regSize !! Z.to_nat tp = Some sz -> 0 < sz -> align_reg tp sz off bit = (o, 0) ->
  layout (JD_REG_ tp v :: rest) off bit =
    (es ← layout rest (o + sz) 0; Some ({| re_reg := v; re_tp := tp; re_off := o; re_bit := 0; re_size := sz |} :: es)).
Proof.
  intros Ht Hv Hsz Hs Ha. destruct (reg_word tp v) as (W1 & W2 & W3); [lia..|]. set (w := JD_REG_ tp v) in *. clearbody w. cbn [layout].
  rewrite W1, W2, Hsz. rewrite (proj2 (Z.eqb_neq w _)), (proj2 (Z.eqb_neq tp JD_REG_BYTES)), (proj2 (Z.eqb_neq tp JD_REG_BIT)); [|unfold JD_REG_BIT, JD_REG_BYTES, JD_REG_END; lia..].
  change (default 0 (Some sz)) with sz. rewrite Ha. by rewrite (proj2 (Z.eqb_neq sz 0)) by lia.
Qed.

(** The bits that tell the registers apart that cannot be written. *)
Lemma reg_group r : 0 <= r -> Z.land r 0xf00 = r / 256 mod 16 * 256.
Proof.
  intros Hr. change 256 with (2 ^ 8) at 2. rewrite <- Z.shiftl_mul_pow2 by lia. change (r / 256 mod 16) with (r / 2 ^ 8 mod 2 ^ 4).
  rewrite <- Z.shiftr_div_pow2, <- Z.land_ones by lia. apply Z.bits_inj'. intros n Hn. change 0xf00 with (Z.shiftl 15 8). change (Z.ones 4) with 15.
  rewrite Z.shiftl_spec, !Z.land_spec, Z.shiftl_spec by lia. destruct (Z.ltb_spec n 8).
  - rewrite (Z.testbit_neg_r 15) by lia. by rewrite !andb_false_r.
  - rewrite Z.shiftr_spec by lia. by replace (n - 8 + 8) with n by lia.
Qed.

Lemma reg_set_bytes st pkt tp sz off bit : Forall is_byte st -> Forall is_byte pkt -> Forall is_byte (reg_set st pkt tp sz off bit).
Proof.
  intros Hs Hp. assert (Forall is_byte (drop 16 pkt)) by (by apply Forall_drop). unfold reg_set.
  repeat case_match; auto with jd; apply Forall_mwrite; auto with jd; apply Forall_replicate; unfold is_byte; lia.
Qed.

(** Whatever the packet, the engine ends, and sends reports only. *)
Lemma register_total st pkt sdesc L (log : list output) : layout sdesc 0 0 = Some L -> exists r b rs,
  service_handle_register st pkt sdesc log = Ret (r, b, log ++ map Report rs).
Proof.
  intros HL. assert (forall r s, exists r' b rs, Ret (r, s, log) = Ret (A := Z * list Z * list output) (r', b, log ++ map Report rs)) as Hnil
    by (intros r s; exists r, s, []; cbn; by rewrite app_nil_r).
  unfold service_handle_register. repeat (match goal with |- context [if ?b then Ret _ else _] => destruct b; [apply Hnil|] end).
  rewrite (register_loop_layout _ _ 0 0 _ _ _ _ _ _ (le_n _) HL).
  destruct (List.find _ _) as [e|]; [|apply Hnil]. destruct (JD_IS_GET _); [|apply Hnil].
  unfold reg_get. destruct (_ =? JD_REG_BIT); [|destruct (_ && _); [apply Hnil|]].
  all: eexists _, _, [_]; reflexivity.
Qed.
(** And unless the packet writes a register, whose number it gives back, the
    state stays; if it does, the other registers keep their values. *)
Lemma register_final_spec st pkt sdesc L (log : list output) : layout sdesc 0 0 = Some L -> Forall (fun e => re_end e <= zlen st) L ->
  0 <= p_service_size pkt <= zlen (drop 16 pkt) -> Forall is_byte st -> Forall is_byte pkt -> exists r b log',
  service_handle_register_final st pkt sdesc log = Ret (r, b, log') /\ Forall is_byte b /\
    (b = st \/
     (r = JD_REG_CODE (p_service_command pkt) /\ JD_IS_SET (p_service_command pkt) = true /\ reg_writable r = true /\ (exists e, List.find (fun e => re_reg e =? r) L = Some e /\ reg_value b e = written e (pkt_payload pkt)) /\
      forall e, In e L -> re_reg e <> r -> reg_value b e = reg_value st e)).
Proof.
  intros HL Hend Hsz Hbs Hbp. destruct (layout_fits _ _ _ HL Hend) as [Hfit Hdis].
  assert (exists r b log', service_handle_register st pkt sdesc log = Ret (r, b, log') /\ Forall is_byte b /\
    (b = st \/ (r = JD_REG_CODE (p_service_command pkt) /\ JD_IS_SET (p_service_command pkt) = true /\ reg_writable r = true /\ (exists e, List.find (fun e => re_reg e =? r) L = Some e /\ reg_value b e = written e (pkt_payload pkt)) /\
      forall e, In e L -> re_reg e <> r -> reg_value b e = reg_value st e))) as (r & b & log' & E & Hbb & Hb).
  { unfold service_handle_register. repeat (match goal with |- context [if ?b then Ret _ else _] => destruct b eqn:?; [by eauto 9|] end).
    rewrite (register_loop_layout _ _ 0 0 _ _ _ _ _ _ (le_n _) HL).
    destruct (List.find _ _) as [e|] eqn:Ef; [|by eauto 9].
    pose proof Ef as [Hin Hcode%Z.eqb_eq]%List.find_some. destruct (JD_IS_GET _) eqn:Eg.
    - unfold reg_get. destruct (_ =? JD_REG_BIT); [|case_match; [by eauto 9|]]. all: eexists _, _, _; split; [reflexivity|split; [done|by left]].
    - eexists _, _, _. split; [reflexivity|]. split; [by apply reg_set_bytes|]. right. cbn [negb andb] in *. bool_to_prop.
      destruct (JD_IS_SET (p_service_command pkt)); [|done]. cbn [andb] in *. bool_to_prop. split; [done|]. split; [done|]. split.
      + unfold reg_writable. apply andb_true_iff. split; [|by apply negb_true_iff, Z.eqb_neq].
        match goal with Hg : (_ >=? 0xf00) = false |- _ => rewrite Z.geb_leb in Hg; apply Z.leb_gt in Hg; by apply Z.ltb_lt end.
      + split.
        { exists e. split; [exact Ef|]. apply reg_set_same; [by apply Hfit|lia]. }
        intros e2 Hin2 Hne. apply reg_set_other; [by apply Hfit|by apply Hfit|lia|]. apply Hdis; [done..|congruence]. }
  unfold service_handle_register_final. rewrite E. obind. destruct (r =? 0); [|by exists r, b, log'].
  unfold jd_send_not_implemented. destruct (has_flag _ _); obind; by eexists r, b, _.
Qed.

Lemma not_implemented_reports pkt (log : list output) : exists r rs, jd_send_not_implemented log pkt = Ret (r, log ++ map Report rs).
Proof.
  unfold jd_send_not_implemented. destruct (has_flag _ _); [exists 0, []; cbn; by rewrite app_nil_r|].
  unfold send_packet, output_sender. eexists 0, [_]. reflexivity.
Qed.
Lemma register_final_total st pkt sdesc L (log : list output) : layout sdesc 0 0 = Some L -> exists r b rs,
  service_handle_register_final st pkt sdesc log = Ret (r, b, log ++ map Report rs).
Proof.
  intros HL. unfold service_handle_register_final. destruct (register_total st pkt sdesc L log HL) as (r & b & rs & ->). obind.
  destruct (r =? 0); [|by exists r, b, rs]. destruct (not_implemented_reports pkt (log ++ map Report rs)) as (r2 & rs2 & ->). obind.
  exists r, b, (rs ++ rs2). by rewrite map_app, app_assoc.
Qed.

(** The values of registers of one, two and four bytes. *)
Lemma le_val_mread b i n : Forall is_byte b -> 0 <= n -> 0 <= le_val (mread b i n) < 256 ^ n.
Proof.
  intros Hb Hn. pose proof (le_val_range (mread b i n) ltac:(auto with jd)) as Hr. split; [lia|].
  apply Z.lt_le_trans with (256 ^ zlen (mread b i n)); [lia|]. apply Z.pow_le_mono_r; [lia|]. unfold zlen, mread. rewrite length_take. lia.
Qed.
Lemma get8_hd l i : get8 l i = hd 0 (mread l i 1).
Proof. unfold get8, mread. rewrite <- (Nat.add_0_r (Z.to_nat i)), <- lookup_drop, Nat.add_0_r. by destruct (drop _ l). Qed.
End Codes.

(** ** The theorems at concrete inputs *)

Lemma demo_get_code : exists k, 0 < k < 16 /\ 0x1000 = k * 4096.
Proof. by exists 1. Qed.
Lemma demo_set_code : exists k, 0 < k < 16 /\ 0x2000 = k * 4096.
Proof. by exists 2. Qed.
Lemma demo_get_set : 0x1000 <> 0x2000.
Proof. done. Qed.

(** Codes like those of the generated headers. *)
Definition demo_spec : JdSpec :=
  {| JD_CMD_GET_REGISTER := 0x1000; JD_CMD_SET_REGISTER := 0x2000;
     JD_CMD_COMMAND_NOT_IMPLEMENTED := 0x3; JD_REG_VARIANT := 0x107; JD_REG_INSTANCE_NAME := 0x109;
     JD_CONTROL_CMD_SERVICES := 0;
     not_implemented_report := fun cmd crc => le_bytes 2 cmd ++ le_bytes 2 crc;
     jd_get_code := demo_get_code; jd_set_code := demo_set_code; jd_get_set := demo_get_set |}.

(** A byte, two bits sharing the next one, an aligned signed 16-bit number,
    and an array of three bytes. *)
Definition demo_sdesc : list Z :=
  [JD_REG_ 1 0x80; JD_REG_ JD_REG_BIT 0x81; JD_REG_ JD_REG_BIT 0x82; JD_REG_ 2 0x83;
   JD_REG_ JD_REG_BYTES 0x84; 3; JD_REG_END].

Definition demo_pkt (cmd : Z) (data : list Z) : list Z :=
  replicate 12 0 ++ [zlen data; 1] ++ le_bytes 2 cmd ++ data ++ replicate (Z.to_nat (236 - zlen data)) 0.

(** -3 as one byte, into the 16-bit register. *)
Lemma register_set_isolated_witness :
  exists st', service_handle_register (H := demo_spec) (replicate 8 7) (demo_pkt 0x2083 [253]) demo_sdesc
                ([] : list sent) = Ret (0x83, st', []).
Proof.
  destruct (register_set_isolated (H := demo_spec) demo_sdesc
              (default [] (layout demo_sdesc 0 0)) (replicate 8 7) (demo_pkt 0x2083 [253]) ([] : list sent)
              {| re_reg := 0x83; re_tp := 2; re_off := 2; re_bit := 0; re_size := 2 |})
    as (st' & E & _); [vm_compute; reflexivity| |vm_compute; reflexivity..| |vm_compute; reflexivity|by exists st'].
  - repeat constructor; vm_compute; discriminate.
  - vm_compute. split; done.
Defined.

(** Two bits and a byte array: the array takes the byte of the bits. *)
Lemma reg_bytes_overlap_bits :
  let sdesc := [JD_REG_ JD_REG_BIT 0x81; JD_REG_ JD_REG_BYTES 0x82; 2; JD_REG_END] in
  service_handle_register (H := demo_spec) [0; 0; 0; 0] (demo_pkt 0x2082 [1; 9]) sdesc ([] : list sent) =
    Ret (0x82, [1; 9; 0; 0], []) /\
  service_handle_register (H := demo_spec) [1; 9; 0; 0] (demo_pkt 0x1081 []) sdesc ([] : list sent) =
    Ret (- 0x81, [1; 9; 0; 0], [{| s_index := 1; s_command := 0x1081; s_data := [1] |}]).
Proof. vm_compute. split; reflexivity. Qed.
