(* ===== verification/Services.v ===== *)
(** * The service framework ([source/jd_services.c])

    The main loop of a device: frames are taken from the receive queue, their
    packets dispatched to the services, and the services run in turn. A service
    is its class with its two functions (the virtual table [srv_vt_t]); service
    functions work on the whole state of the device, so they may send packets,
    open pipes or post events. [A] is the state of the services, the
    application and the board. *)
From S2P Require Import Prelude Frame Util Iface Queue EventQueue TxRx Opipe Ipipe Registers.

Definition JD_MAX_SERVICES : Z := 32.
Definition IN_SERV_INIT : Z := 0xff.
Definition IN_SERV_SLEEP : Z := 0xfe.

(** The announcement flags of the generated control-service header. *)
Class AnnounceSpec := {
  JD_CONTROL_ANNOUNCE_FLAGS_RESTART_COUNTER_STEADY : Z;
  JD_CONTROL_ANNOUNCE_FLAGS_STATUS_LIGHT_RGB_FADE : Z;
  JD_CONTROL_ANNOUNCE_FLAGS_STATUS_LIGHT_MONO : Z;
  JD_CONTROL_ANNOUNCE_FLAGS_IS_CLIENT : Z;
  JD_CONTROL_ANNOUNCE_FLAGS_SUPPORTS_ACK : Z;
  JD_CONTROL_ANNOUNCE_FLAGS_SUPPORTS_BROADCAST : Z;
  JD_CONTROL_ANNOUNCE_FLAGS_SUPPORTS_FRAMES : Z;
  (** Documented: the restart counter is the low four bits, saturating at 15;
      the flags are in the other twelve bits of the low half. *)
  jd_steady : JD_CONTROL_ANNOUNCE_FLAGS_RESTART_COUNTER_STEADY = 0xf;
  jd_flag_bits : Forall (fun f => exists k, 0 <= k < 4096 /\ f = 16 * k)
    [JD_CONTROL_ANNOUNCE_FLAGS_STATUS_LIGHT_RGB_FADE; JD_CONTROL_ANNOUNCE_FLAGS_STATUS_LIGHT_MONO;
     JD_CONTROL_ANNOUNCE_FLAGS_IS_CLIENT; JD_CONTROL_ANNOUNCE_FLAGS_SUPPORTS_ACK;
     JD_CONTROL_ANNOUNCE_FLAGS_SUPPORTS_BROADCAST; JD_CONTROL_ANNOUNCE_FLAGS_SUPPORTS_FRAMES];
}.

(** ** Time *)

Record clock := { now : Z; prev_us : Z; now_ms_long : Z }.

(** [while (new_delta > 1000) { new_delta -= 1000; now_ms_long++; }] *)
Fixpoint ms_loop (fuel : nat) (new_delta ms : Z) : outcome (Z * Z) :=
  match fuel with
  | O => OutOfFuel
  | S fuel' => if new_delta >? 1000 then ms_loop fuel' (new_delta - 1000) (ms + 1) else Ret (new_delta, ms)
  end.

(** [micros] is what [tim_get_micros] returns; below 16384 the loop runs at
    most 16 times. *)
Definition jd_refresh_now (c : clock) (micros : Z) : outcome clock :=
  let now := u32 micros in
  let new_delta := u32 (now - prev_us c) in
  '(new_delta, ms) ←
    (if new_delta <? 16 * 1024 then ms_loop 17 new_delta (now_ms_long c)
     else Ret (new_delta mod 1000, now_ms_long c + new_delta / 1000));
  Ret {| now := now; prev_us := u32 (now - new_delta); now_ms_long := ms |}.

Definition now_ms (c : clock) : Z := u32 (now_ms_long c).

(** ** The state *)

(** The static variables of [jd_services.c]. *)
Record sched := {
  reset_counter : Z;          (* uint8_t *)
  curr_service_process : Z;   (* uint8_t *)
  lastMax : Z;                (* uint32_t *)
  nextAnnounce : Z;           (* uint32_t *)
}.

Record sys (A : Type) := {
  sy_tx : txrx;
  sy_op : opipe_state;
  sy_ip : ipipe_state;
  sy_ev : event_info;
  sy_clock : clock;
  sy_sched : sched;
  sy_app : A;
}.
Arguments sy_tx {A}. Arguments sy_op {A}. Arguments sy_ip {A}. Arguments sy_ev {A}.
Arguments sy_clock {A}. Arguments sy_sched {A}. Arguments sy_app {A}.

Section Setters.
Context {A : Type}.
Definition set_tx (st : sys A) (v : txrx) : sys A :=
  {| sy_tx := v; sy_op := sy_op st; sy_ip := sy_ip st; sy_ev := sy_ev st; sy_clock := sy_clock st;
     sy_sched := sy_sched st; sy_app := sy_app st |}.
Definition set_op (st : sys A) (v : opipe_state) : sys A :=
  {| sy_tx := sy_tx st; sy_op := v; sy_ip := sy_ip st; sy_ev := sy_ev st; sy_clock := sy_clock st;
     sy_sched := sy_sched st; sy_app := sy_app st |}.
Definition set_ip (st : sys A) (v : ipipe_state) : sys A :=
  {| sy_tx := sy_tx st; sy_op := sy_op st; sy_ip := v; sy_ev := sy_ev st; sy_clock := sy_clock st;
     sy_sched := sy_sched st; sy_app := sy_app st |}.
Definition set_ev (st : sys A) (v : event_info) : sys A :=
  {| sy_tx := sy_tx st; sy_op := sy_op st; sy_ip := sy_ip st; sy_ev := v; sy_clock := sy_clock st;
     sy_sched := sy_sched st; sy_app := sy_app st |}.
Definition set_clock (st : sys A) (v : clock) : sys A :=
  {| sy_tx := sy_tx st; sy_op := sy_op st; sy_ip := sy_ip st; sy_ev := sy_ev st; sy_clock := v;
     sy_sched := sy_sched st; sy_app := sy_app st |}.
Definition set_sched (st : sys A) (v : sched) : sys A :=
  {| sy_tx := sy_tx st; sy_op := sy_op st; sy_ip := sy_ip st; sy_ev := sy_ev st; sy_clock := sy_clock st;
     sy_sched := v; sy_app := sy_app st |}.
Definition set_app (st : sys A) (v : A) : sys A :=
  {| sy_tx := sy_tx st; sy_op := sy_op st; sy_ip := sy_ip st; sy_ev := sy_ev st; sy_clock := sy_clock st;
     sy_sched := sy_sched st; sy_app := v |}.
Definition set_curr (st : sys A) (v : Z) : sys A :=
  set_sched st {| reset_counter := reset_counter (sy_sched st); curr_service_process := v;
                  lastMax := lastMax (sy_sched st); nextAnnounce := nextAnnounce (sy_sched st) |}.
Definition set_lastMax (st : sys A) (v : Z) : sys A :=
  set_sched st {| reset_counter := reset_counter (sy_sched st);
                  curr_service_process := curr_service_process (sy_sched st);
                  lastMax := v; nextAnnounce := nextAnnounce (sy_sched st) |}.
Definition set_nextAnnounce (st : sys A) (v : Z) : sys A :=
  set_sched st {| reset_counter := reset_counter (sy_sched st);
                  curr_service_process := curr_service_process (sy_sched st);
                  lastMax := lastMax (sy_sched st); nextAnnounce := v |}.
Definition set_reset_counter (st : sys A) (v : Z) : sys A :=
  set_sched st {| reset_counter := v; curr_service_process := curr_service_process (sy_sched st);
                  lastMax := lastMax (sy_sched st); nextAnnounce := nextAnnounce (sy_sched st) |}.
End Setters.

(** A service: [vt->service_class], [vt->handle_pkt] and [vt->process]. *)
Record srv (A : Type) := {
  srv_class : Z;
  srv_handle : list Z -> sys A -> outcome (sys A);
  srv_process : sys A -> outcome (sys A);
}.
Arguments srv_class {A}. Arguments srv_handle {A}. Arguments srv_process {A}.

(** The application, the board and the components outside this file. *)
Class Hooks (A : Type) := {
  tim_get_micros : A -> Z * A;
  target_wait_us : Z -> A -> A;
  glow_brain : bool -> A -> A;                     (* JD_GLOW_BRAIN_CONNECTED or _DISCONNECTED *)
  blink_connected : A -> A;
  status_has_color : bool;
  app_handle_packet : list Z -> sys A -> outcome (sys A);
  app_handle_command : list Z -> sys A -> outcome (sys A);
  ipipe_handlers : list ip_event -> sys A -> outcome (sys A);
  client_handle_packet : list Z -> sys A -> outcome (sys A);
  app_get_instance_name : Z -> option (list Z);
  srvcfg_instance_name : Z -> option (list Z);
  srvcfg_variant : Z -> Z;
  status_process : sys A -> outcome (sys A);
  client_process : sys A -> outcome (sys A);
  lstore_process : sys A -> outcome (sys A);
  usb_process : sys A -> outcome (sys A);          (* jd_usb_proto_process(); jd_usb_process() *)
  app_process : sys A -> outcome (sys A);
}.

Section Services.
Context {A : Type} `{JdSpec} `{AnnounceSpec} `{Hooks A}.
(** [jd_device_id()] *)
Context (self : Z).

(** [jd_send] and [jd_tx_flush] on the whole state; this file runs outside of
    interrupts. *)
#[local] Instance sys_sender : Sender (sys A) :=
  fun st idx cmd data => '(r, tx) ← jd_send self false (sy_tx st) idx cmd data (zlen data); Ret (r, set_tx st tx).
Definition tx_flush (st : sys A) : outcome (sys A) :=
  tx ← jd_tx_flush self false (sy_tx st); Ret (set_tx st tx).

Definition refresh_now (st : sys A) : outcome (sys A) :=
  let '(micros, app) := tim_get_micros (sy_app st) in
  c ← jd_refresh_now (sy_clock st) micros;
  Ret (set_app (set_clock st c) app).

(** ** Announcements *)

Definition announce_flags (reset_counter : Z) : Z :=
  let adflags := reset_counter in
  let adflags := Z.lor adflags (if status_has_color then JD_CONTROL_ANNOUNCE_FLAGS_STATUS_LIGHT_RGB_FADE
                                else JD_CONTROL_ANNOUNCE_FLAGS_STATUS_LIGHT_MONO) in
  let adflags := Z.lor adflags JD_CONTROL_ANNOUNCE_FLAGS_IS_CLIENT in
  Z.lor adflags (Z.lor (Z.lor JD_CONTROL_ANNOUNCE_FLAGS_SUPPORTS_ACK
                              JD_CONTROL_ANNOUNCE_FLAGS_SUPPORTS_BROADCAST)
                       JD_CONTROL_ANNOUNCE_FLAGS_SUPPORTS_FRAMES).

(** [dst]: the classes, the first word replaced by flags and packet count. *)
Definition announce_words (services : list (srv A)) (reset_counter packets_sent : Z) : list Z :=
  <[0%nat := u32 (Z.lor (u16 (announce_flags reset_counter)) (Z.shiftl (packets_sent + 1) 16))]>
    (map (fun s => u32 (srv_class s)) services).

Definition jd_services_announce (services : list (srv A)) (st : sys A) : outcome (sys A) :=
  let rc := reset_counter (sy_sched st) in
  let rc := if rc <? JD_CONTROL_ANNOUNCE_FLAGS_RESTART_COUNTER_STEADY then u8 (rc + 1) else rc in
  let st := set_reset_counter st rc in
  let dst := announce_words services rc (packets_sent (sy_tx st)) in
  '(r, st) ← send_packet st JD_SERVICE_INDEX_CONTROL JD_CONTROL_CMD_SERVICES (flat_map (le_bytes 4) dst);
  if r =? 0 then Ret (set_tx st (set_packets_sent (sy_tx st) 0)) else Ret st.

(** ** Packet dispatch *)

Definition is_client_announce (pkt : list Z) : bool :=
  (p_service_index pkt =? 0) && (p_service_command pkt =? JD_CONTROL_CMD_SERVICES)
  && (p_service_size pkt >=? 4)
  && has_flag (get8 pkt 17) (Z.shiftr JD_CONTROL_ANNOUNCE_FLAGS_IS_CLIENT 8).

Definition handle_ctrl_tick (pkt : list Z) (st : sys A) : sys A :=
  if is_client_announce pkt then
    let st := set_lastMax st (now (sy_clock st)) in
    set_app st (blink_connected (glow_brain true (sy_app st)))
  else st.

(** A command for this device. *)
Definition handle_own_command (services : list (srv A)) (pkt : list Z) (st : sys A) : outcome (sys A) :=
  st ← app_handle_command pkt st;
  let idx := p_service_index pkt in
  match services !! Z.to_nat idx with
  | None => Ret st
  | Some s =>
      if p_service_command pkt =? JD_GET JD_REG_INSTANCE_NAME then
        let name := match app_get_instance_name idx with
                    | None => srvcfg_instance_name idx
                    | name => name
                    end in
        '(_, st) ← match name with
                   | None => jd_send_not_implemented st pkt
                   | name => jd_respond_string st pkt name
                   end;
        Ret st
      else if (p_service_command pkt =? JD_GET JD_REG_VARIANT) && negb (srvcfg_variant idx =? -1) then
        '(_, st) ← jd_respond_u8 st pkt (srvcfg_variant idx); Ret st
      else srv_handle s pkt st
  end.

(** A command for all services of a class; [pkt->service_index] is set to each
    of them in turn. *)
Fixpoint class_loop (services : list (srv A)) (i id : Z) (pkt : list Z) (st : sys A)
    : outcome (list Z * sys A) :=
  match services with
  | [] => Ret (pkt, st)
  | s :: rest =>
      if id =? srv_class s then
        let pkt := set_p_service_index pkt i in
        st ← srv_handle s pkt st;
        class_loop rest (i + 1) id pkt st
      else class_loop rest (i + 1) id pkt st
  end.

(** The packet is returned for its changed service index. *)
Definition jd_services_handle_packet (services : list (srv A)) (pkt : list Z) (st : sys A)
    : outcome (list Z * sys A) :=
  st ← app_handle_packet pkt st;
  op ← jd_opipe_handle_packet false (now (sy_clock st)) (sy_op st) pkt;
  let st := set_op st op in
  '(ip, evs) ← jd_ipipe_handle_packet self (sy_ip st) pkt;
  st ← ipipe_handlers evs (set_ip st ip);
  st ← client_handle_packet pkt st;
  if negb (has_flag (f_flags pkt) JD_FRAME_FLAG_COMMAND) then Ret (pkt, handle_ctrl_tick pkt st)
  else if f_device_identifier pkt =? self then
    st ← handle_own_command services pkt st; Ret (pkt, st)
  else if has_flag (f_flags pkt) JD_FRAME_FLAG_IDENTIFIER_IS_SERVICE_CLASS then
    class_loop services 0 (u32 (f_device_identifier pkt)) pkt st
  else Ret (pkt, st).

(** [for (;;) { handle; if (!jd_shift_frame(frame)) break; }] *)
Fixpoint process_frame_loop (fuel : nat) (services : list (srv A)) (frame : list Z) (st : sys A)
    : outcome (list Z * sys A) :=
  match fuel with
  | O => OutOfFuel
  | S fuel' =>
      '(frame, st) ← jd_services_handle_packet services frame st;
      let '(more, frame) := jd_shift_frame frame in
      if more =? 0 then Ret (frame, st) else process_frame_loop fuel' services frame st
  end.

(** A frame holds at most 59 packets ([frame_packets_terminates]). *)
Definition FRAME_FUEL : nat := 70.

(** Acknowledge first: the handling can take time. *)
Definition ack_frame (frame : list Z) (st : sys A) : outcome (sys A) :=
  if has_flag (f_flags frame) JD_FRAME_FLAG_ACK_REQUESTED
     && has_flag (f_flags frame) JD_FRAME_FLAG_COMMAND
     && (f_device_identifier frame =? self) then
    '(_, st) ← send_packet st JD_SERVICE_INDEX_CRC_ACK (f_crc frame) [];
    tx_flush st
  else Ret st.

Definition jd_services_process_frame (services : list (srv A)) (frame : list Z) (st : sys A)
    : outcome (list Z * sys A) :=
  st ← ack_frame frame st;
  process_frame_loop FRAME_FUEL services frame st.

(** ** Allocation and start *)

Definition jd_allocate_service (services : list (srv A)) (vt : srv A) (st : sys A)
    : outcome (list (srv A) * sys A) :=
  if zlen services >=? JD_MAX_SERVICES then Panic
  else Ret (services ++ [vt], set_curr st IN_SERV_INIT).

Fixpoint allocate_services (services vts : list (srv A)) (st : sys A) : outcome (list (srv A) * sys A) :=
  match vts with
  | [] => Ret (services, st)
  | vt :: vts => '(services, st) ← jd_allocate_service services vt st; allocate_services services vts st
  end.

(** The control service first, then those of [app_init_services] and
    [jd_srvcfg_run]. *)
Definition jd_services_init (ctrl : srv A) (vts : list (srv A)) (st : sys A)
    : outcome (list (srv A) * sys A) :=
  st ← refresh_now st;
  '(services, st) ← allocate_services [] (ctrl :: vts) st;
  let st := set_curr st 0 in
  let '(micros, app) := tim_get_micros (sy_app st) in
  Ret (services, set_app (set_lastMax st (u32 micros)) app).

(** ** The main loop *)

Fixpoint process_services (services : list (srv A)) (i : Z) (st : sys A) : outcome (sys A) :=
  match services with
  | [] => Ret st
  | s :: rest => st ← srv_process s (set_curr st i); process_services rest (i + 1) st
  end.

Definition event_queue_process (st : sys A) : outcome (sys A) :=
  '(ev, tx) ← jd_process_event_queue (H := txrx_sender self) (now (sy_clock st)) (sy_ev st) (sy_tx st);
  Ret (set_tx (set_ev st ev) tx).

Definition opipe_process (st : sys A) : outcome (sys A) :=
  '(op, tx) ← jd_opipe_process (H := txrx_frame_sender self) false (now (sy_clock st)) (sy_op st) (sy_tx st);
  Ret (set_tx (set_op st op) tx).

Definition jd_services_tick (services : list (srv A)) (st : sys A) : outcome (sys A) :=
  let '(due, na) := jd_should_sample (now (sy_clock st)) (nextAnnounce (sy_sched st)) 500000 in
  let st := set_nextAnnounce st na in
  st ← (if due then jd_services_announce services st else Ret st);
  let lm := lastMax (sy_sched st) in
  let st := if (lm =? 0) || in_past (now (sy_clock st)) (u32 (lm + Z.shiftl 2 20))
            then let st := set_lastMax st 0 in set_app st (glow_brain false (sy_app st)) else st in
  match services with
  | [] => Panic
  | ctrl :: rest =>
      st ← srv_process ctrl st;
      st ← (if negb (curr_service_process (sy_sched st) =? IN_SERV_SLEEP) then
              st ← process_services rest 1 st; Ret (set_curr st 0)
            else Ret st);
      st ← event_queue_process st;
      st ← status_process st;
      st ← opipe_process st;
      st ← client_process st;
      st ← lstore_process st;
      st ← usb_process st;
      tx_flush st
  end.

(** The frame is handled as the 252 bytes of the receive queue it starts. *)
Definition jd_process_one (services : list (srv A)) (st : sys A) : outcome (bool * sys A) :=
  let fr := jd_rx_get_frame (sy_tx st) in
  st ← match fr with
       | Some off =>
           '(_, st) ← jd_services_process_frame services
                         (mread (q_data (rx_queue (sy_tx st))) off sizeof_frame) st;
           tx ← jd_rx_release_frame (sy_tx st); Ret (set_tx st tx)
       | None => Ret st
       end;
  st ← jd_services_tick services st;
  st ← app_process st;
  Ret (match fr with Some _ => true | None => false end, st).

(** The loop ends at the first turn without a frame. *)
Fixpoint jd_process_everything_core (fuel : nat) (services : list (srv A)) (st : sys A)
    : outcome (sys A) :=
  match fuel with
  | O => OutOfFuel
  | S fuel' =>
      '(more, st) ← jd_process_one services st;
      if more : bool then jd_process_everything_core fuel' services st else Ret st
  end.

Definition jd_process_everything (fuel : nat) (services : list (srv A)) (st : sys A) : outcome (sys A) :=
  st ← refresh_now st;
  jd_process_everything_core fuel services st.

(** [while (in_future(end_time))] *)
Fixpoint sleep_loop (fuel : nat) (services : list (srv A)) (end_time : Z) (st : sys A) : outcome (sys A) :=
  match fuel with
  | O => OutOfFuel
  | S fuel' =>
      if in_future (now (sy_clock st)) end_time then
        st ← jd_process_everything_core fuel services st;
        st ← refresh_now st;
        sleep_loop fuel' services end_time st
      else Ret st
  end.

Definition jd_services_sleep_us (fuel : nat) (services : list (srv A)) (delta : Z) (st : sys A)
    : outcome (sys A) :=
  if delta <=? 1 then Ret st
  else
    let curr_serv := curr_service_process (sy_sched st) in
    if (delta <? 50) || (curr_serv =? IN_SERV_INIT) then Ret (set_app st (target_wait_us delta (sy_app st)))
    else if (curr_serv =? 0) || (curr_serv =? IN_SERV_SLEEP) then Panic
    else
      let st := set_curr st IN_SERV_SLEEP in
      st ← refresh_now st;
      let end_time := u32 (now (sy_clock st) + delta) in
      st ← sleep_loop fuel services end_time st;
      Ret (set_curr st curr_serv).
End Services.

(** ** Shifting a frame whose service index was overwritten *)

Lemma shifted_header g ptr n :
  frame_ok g -> 4 <= n -> 4 <= ptr -> ptr + align4 n <= 240 ->
  f_device_identifier (shifted g ptr n) = f_device_identifier g /\
  f_flags (shifted g ptr n) = u8 (Z.ldiff (f_flags g) JD_FRAME_FLAG_ACK_REQUESTED).
Proof.
  intros Hg Hn Hp He. pose proof (align4_bounds n). pose proof (shifted_g1 g Hg).
  destruct (shifted_src g ptr n Hg Hn Hp He) as [_ Hlen]. rewrite shifted_moved.
  unfold set_f_data, f_device_identifier, f_flags, get64, frame_data in *. split.
  - rewrite !mread_put8_ne, mread_mwrite_out by lia. unfold set_f_flags. rewrite mread_put8_ne by lia. done.
  - rewrite !get8_put8_ne, get8_mwrite_ne by lia. unfold set_f_flags. apply get8_put8.
    unfold set_f_flags in *. rewrite zlen_put8 in *. lia.
Qed.

Lemma insert_mwrite_inside m i v off src :
  off <= Z.of_nat i < off + zlen src -> 0 <= off -> off + zlen src <= zlen m ->
  mwrite (<[i := v]> m) off src = mwrite m off src.
Proof.
  unfold zlen. intros. apply list_eq. intros k.
  rewrite !lookup_mwrite by (rewrite ?length_insert; lia). case_decide; [done|].
  apply list_lookup_insert_ne. lia.
Qed.

Lemma shift_set_index g v :
  frame_ok g -> f_size g <= 236 ->
  (fst (jd_shift_frame g) = 0 /\ fst (jd_shift_frame (set_p_service_index g v)) = 0) \/
  (exists g', jd_shift_frame g = (1, g') /\ jd_shift_frame (set_p_service_index g v) = (1, g')).
Proof.
  intros Hg Hs. set (h := set_p_service_index g v).
  assert (zlen g = 252) by apply Hg. pose proof (get8_is_byte g 12 (frame_ok_bytes _ Hg)) as Ho. unfold is_byte in Ho.
  assert (forall i, 0 <= i -> i <> 13 -> get8 h i = get8 g i) as Hget.
  { intros i Hi Hne. apply get8_put8_ne; lia. }
  unfold jd_shift_frame, f_size, p_service_size, f_data, frame_data, f_flags.
  rewrite !(Hget 2), !(Hget 12), !(Hget 3), !(Hget (12 + (get8 g 12 + 4))), !(Hget (12 + (get8 g 12 + 4 + 1))) by lia.
  fold (p_service_size g) (f_size g) (f_data g (p_service_size g + 4)) (f_data g (p_service_size g + 4 + 1)).
  rewrite !Z.geb_leb. destruct (f_size g <=? align4 (p_service_size g + 4)) eqn:E1; [by left|].
  match goal with |- context [match ?x with Some _ => _ | None => _ end] => set (next := x) end.
  destruct next as [ptr|] eqn:En; [|by left].
  assert (4 <= ptr < f_size g) as Hptr.
  { pose proof (align4_bounds (p_service_size g + 4)). unfold p_service_size in *. unfold next in En.
    apply Z.leb_gt in E1. destruct (_ =? 255); [|injection En as <-; lia].
    destruct (f_size g <=? _) eqn:E2; [done|]. apply Z.leb_gt in E2.
    destruct (_ <=? get8 g 12 + 4) eqn:E3; [done|]. apply Z.leb_gt in E3. injection En as <-. lia. }
  set (fl := Z.ldiff _ _). assert (set_f_flags h fl = set_p_service_index (set_f_flags g fl) v) as ->.
  { unfold h, set_f_flags, set_p_service_index, put8. apply list_insert_insert_ne. lia. }
  set (g1 := set_f_flags g fl). assert (frame_ok g1) as Hg1 by by apply frame_ok_put8.
  assert (zlen g1 = 252) by apply Hg1.
  assert (get8 (set_p_service_index g1 v) (12 + ptr) = get8 g1 (12 + ptr)) as ->.
  { apply get8_put8_ne; lia. }
  pose proof (get8_is_byte g1 (12 + ptr) (frame_ok_bytes _ Hg1)) as Hb. unfold is_byte in Hb.
  set (n := get8 g1 (12 + ptr) + 4) in *. pose proof (align4_bounds n). rewrite Z.gtb_ltb.
  destruct (Z.ltb_spec (f_size g) (ptr + n)); [by left|]. right. eexists. split; [reflexivity|].
  rewrite !jd_word_move_spec by (unfold set_p_service_index; rewrite ?zlen_put8; lia).
  assert (mread (set_p_service_index g1 v) (12 + ptr) (align4 n) = mread g1 (12 + ptr) (align4 n)) as ->.
  { apply mread_put8_ne; lia. }
  change (set_p_service_index g1 v) with (<[Z.to_nat 13 := u8 v]> g1). rewrite insert_mwrite_inside; [done|..];
    rewrite ?zlen_mread by lia; lia.
Qed.

(** ** Dispatch of a frame *)

Definition no_pipes {A} (st : sys A) : Prop := opipes (sy_op st) = 0 /\ ipipes (sy_ip st) = 0.

(** Hooks that do nothing but let the time pass. *)
Definition quiet_hooks {A} (micros : A -> Z * A) (color : bool) (name : Z -> option (list Z)) (variant : Z -> Z) : Hooks A := {|
  tim_get_micros := micros;
  target_wait_us := fun _ app => app;
  glow_brain := fun _ app => app;
  blink_connected := fun app => app;
  status_has_color := color;
  app_handle_packet := fun _ st => Ret st;
  app_handle_command := fun _ st => Ret st;
  ipipe_handlers := fun _ st => Ret st;
  client_handle_packet := fun _ st => Ret st;
  app_get_instance_name := name;
  srvcfg_instance_name := name;
  srvcfg_variant := variant;
  status_process := fun st => Ret st;
  client_process := fun st => Ret st;
  lstore_process := fun st => Ret st;
  usb_process := fun st => Ret st;
  app_process := fun st => Ret st;
|}.

(** The log of the packets that services were given, each with the service. *)
Definition srv_log : Type := list (Z * packet).

Definition observer (i : nat) (cls : Z) : srv srv_log :=
  {| srv_class := cls;
     srv_handle := fun pkt st => Ret (set_app st (sy_app st ++ [(Z.of_nat i, packet_of pkt)]));
     srv_process := fun st => Ret st |}.
Definition observers (classes : list Z) : list (srv srv_log) := imap observer classes.

(** The services of the class [id], in their order. *)
Fixpoint class_indices (i id : Z) (classes : list Z) : list Z :=
  match classes with
  | [] => []
  | c :: cs => if id =? c then i :: class_indices (i + 1) id cs else class_indices (i + 1) id cs
  end.

Lemma class_indices_spec classes id : forall i j,
  In j (class_indices i id classes) <-> i <= j /\ classes !! Z.to_nat (j - i) = Some id.
Proof.
  induction classes as [|c cs IH]; intros i j; cbn [class_indices]; [split; [done|intros [_ [=]]]|].
  destruct (Z.eqb_spec id c) as [->|Hne].
  - cbn [In]. rewrite IH. split.
    + intros [->|[Hle Hl]]; [split; [lia|by rewrite Z.sub_diag]|]. split; [lia|].
      replace (Z.to_nat (j - i)) with (S (Z.to_nat (j - (i + 1)))) by lia. done.
    + intros [Hle Hl]. destruct (decide (i = j)); [by left|right]. split; [lia|].
      replace (Z.to_nat (j - i)) with (S (Z.to_nat (j - (i + 1)))) in Hl by lia. done.
  - rewrite IH. split.
    + intros [Hle Hl]. split; [lia|].
      replace (Z.to_nat (j - i)) with (S (Z.to_nat (j - (i + 1)))) by lia. done.
    + intros [Hle Hl]. destruct (decide (i = j)) as [->|].
      * rewrite Z.sub_diag in Hl. simpl in Hl. congruence.
      * split; [lia|]. replace (Z.to_nat (j - i)) with (S (Z.to_nat (j - (i + 1)))) in Hl by lia. done.
Qed.

(** The services a command packet is meant for: the addressed one if it is for
    this device, all of the class if it is a broadcast to a class. *)
Definition route (self : Z) (classes : list Z) (flags device : Z) (p : packet) : list Z :=
  if negb (has_flag flags JD_FRAME_FLAG_COMMAND) then []
  else if device =? self then
    if pk_service_index p <? zlen classes then [pk_service_index p] else []
  else if has_flag flags JD_FRAME_FLAG_IDENTIFIER_IS_SERVICE_CLASS then
    class_indices 0 (u32 device) classes
  else [].

Definition addressed (i : Z) (p : packet) : Z * packet :=
  (i, {| pk_service_index := i; pk_service_command := pk_service_command p; pk_data := pk_data p |}).

Definition delivered (self : Z) (classes : list Z) (flags device : Z) (p : packet) : srv_log :=
  map (fun i => addressed i p) (route self classes flags device p).

Section Dispatch.
Context `{JdSpec} `{AnnounceSpec}.
Context (self : Z) (color : bool) (name : Z -> option (list Z)) (variant : Z -> Z).
Let hooks : Hooks srv_log := quiet_hooks (fun app => (0, app)) color name variant.
#[local] Existing Instance hooks.

(** Not one of the two reads the framework answers itself. *)
Definition ordinary (p : packet) : Prop :=
  pk_service_command p <> JD_GET JD_REG_INSTANCE_NAME /\
  (pk_service_command p = JD_GET JD_REG_VARIANT -> variant (pk_service_index p) = -1).

Lemma packet_of_set_index g i :
  frame_ok g -> 0 <= i < 256 ->
  packet_of (set_p_service_index g i) =
    {| pk_service_index := i; pk_service_command := p_service_command g; pk_data := p_data g |}.
Proof using.
  intros Hg Hi. assert (zlen g = 252) by apply Hg.
  pose proof (get8_is_byte g 12 (frame_ok_bytes _ Hg)) as Ho. unfold is_byte in Ho.
  unfold packet_of, set_p_service_index, p_service_index, p_service_command, p_data, p_service_size, get16.
  rewrite (get8_put8_ne g 13 12) by lia. rewrite !mread_put8_ne by lia.
  rewrite get8_put8, u8_small by lia. done.
Qed.
Lemma set_index_twice g i j : set_p_service_index (set_p_service_index g i) j = set_p_service_index g j.
Proof using. unfold set_p_service_index, put8. apply list_insert_insert_eq. Qed.

(** [pkt] is [g] but for the service index. *)
Definition same_but_index (g pkt : list Z) : Prop := pkt = g \/ exists v, pkt = set_p_service_index g v.

(** The loop over the services of a class. *)
Lemma class_loop_observers id classes : forall k pkt g (st : sys srv_log),
  frame_ok g -> (k + length classes <= 256)%nat -> same_but_index g pkt ->
  exists pkt',
    class_loop (imap (fun i => observer (k + i)) classes) (Z.of_nat k) id pkt st =
      Ret (pkt', set_app st (sy_app st ++
        map (fun i => addressed i (packet_of g)) (class_indices (Z.of_nat k) id classes))) /\
    same_but_index g pkt'.
Proof using.
  induction classes as [|c cs IH]; intros k pkt g st Hg Hk Hp; cbn [imap class_loop class_indices].
  { exists pkt. rewrite app_nil_r. destruct st. done. }
  cbn [length] in Hk. replace (Z.of_nat k + 1) with (Z.of_nat (S k)) by lia.
  rewrite Nat.add_0_r. cbn [observer srv_class srv_handle].
  assert (imap (compose (fun i => observer (k + i)) S) cs = imap (fun i => observer (S k + i)) cs) as ->.
  { apply imap_ext. intros i x _. unfold compose. f_equal. lia. }
  destruct (id =? c).
  - obind. set (pkt1 := set_p_service_index pkt (Z.of_nat k)).
    assert (pkt1 = set_p_service_index g (Z.of_nat k)) as E1.
    { unfold pkt1. destruct Hp as [->|[v ->]]; [done|apply set_index_twice]. }
    destruct (IH (S k) pkt1 g (set_app st (sy_app st ++ [(Z.of_nat k, packet_of pkt1)])) Hg)
      as (pkt' & E & Hp'); [lia|right; by eexists|].
    exists pkt'. split; [|done]. etransitivity; [exact E|]. cbn [set_app sy_app]. rewrite E1, packet_of_set_index by (done || lia).
    cbn [map]. by rewrite <- app_assoc.
  - apply IH; [done|lia|done].
Qed.

(** A packet, to devices whose services are observers. *)
Lemma handle_packet_observers classes g (st : sys srv_log) :
  frame_ok g -> zlen classes <= 255 -> no_pipes st -> ordinary (packet_of g) ->
  exists pkt' st',
    jd_services_handle_packet self (observers classes) g st = Ret (pkt', st') /\ same_but_index g pkt' /\
    no_pipes st' /\
    sy_app st' = sy_app st ++ delivered self classes (f_flags g) (f_device_identifier g) (packet_of g).
Proof using.
  intros Hg Hn [Hop Hip] [Ho1 Ho2]. unfold zlen in Hn.
  pose proof (get8_is_byte g 13 (frame_ok_bytes _ Hg)) as Hi. fold (p_service_index g) in Hi. unfold is_byte in Hi.
  unfold jd_services_handle_packet, delivered, route. cbn [hooks quiet_hooks app_handle_packet]. obind.
  assert (forall n, jd_opipe_handle_packet false n (sy_op st) g = Ret (sy_op st)) as ->.
  { intros n. unfold jd_opipe_handle_packet. cbn. rewrite Hop. by destruct (_ || _). }
  obind. change (sy_ip (set_op st (sy_op st))) with (sy_ip st).
  assert (jd_ipipe_handle_packet self (sy_ip st) g = Ret (sy_ip st, [])) as ->.
  { unfold jd_ipipe_handle_packet. cbn. rewrite Hip. by destruct (_ || _). }
  obind. cbn [ipipe_handlers client_handle_packet hooks quiet_hooks]. obind.
  assert (set_ip (set_op st (sy_op st)) (sy_ip st) = st) as -> by by destruct st.
  destruct (has_flag (f_flags g) JD_FRAME_FLAG_COMMAND); cbn [negb].
  2:{ eexists _, _. split_and!; [done|by left| |].
      - unfold handle_ctrl_tick. by destruct (is_client_announce g).
      - unfold handle_ctrl_tick. rewrite app_nil_r. by destruct (is_client_announce g). }
  destruct (f_device_identifier g =? self).
  - unfold handle_own_command. cbn [app_handle_command hooks quiet_hooks]. obind. unfold observers. rewrite list_lookup_imap.
    cbn [packet_of pk_service_index pk_service_command] in *.
    destruct (classes !! Z.to_nat (p_service_index g)) as [c|] eqn:Ec; cbn [fmap option_fmap option_map].
    + apply lookup_lt_Some in Ec. rewrite (proj2 (Z.eqb_neq _ _) Ho1).
      assert ((p_service_command g =? JD_GET JD_REG_VARIANT) && negb (variant (p_service_index g) =? -1) = false) as Hv.
      { destruct (Z.eqb_spec (p_service_command g) (JD_GET JD_REG_VARIANT)) as [E|]; [|done].
        by rewrite (Ho2 E). }
      cbn [srvcfg_variant hooks quiet_hooks]. rewrite Hv. obind.
      eexists _, _. split_and!; [reflexivity|by left|done|].
      rewrite (proj2 (Z.ltb_lt _ _)) by (unfold zlen; lia). cbn. unfold addressed. by rewrite Z2Nat.id by lia.
    + apply lookup_ge_None in Ec. eexists _, _. split_and!; [reflexivity|by left|done|].
      rewrite (proj2 (Z.ltb_ge _ _)) by (unfold zlen; lia). cbn. by rewrite app_nil_r.
  - destruct (has_flag (f_flags g) JD_FRAME_FLAG_IDENTIFIER_IS_SERVICE_CLASS).
    + destruct (class_loop_observers (u32 (f_device_identifier g)) classes 0 g g st Hg ltac:(lia) ltac:(by left))
        as (pkt' & E & Hp'). eexists _, _. split_and!; [exact E|done|done|done].
    + eexists _, _. split_and!; [reflexivity|by left|done|]. cbn. by rewrite app_nil_r.
Qed.

Lemma route_clear_ack classes fl dev p :
  is_byte fl -> route self classes (u8 (Z.ldiff fl JD_FRAME_FLAG_ACK_REQUESTED)) dev p = route self classes fl dev p.
Proof using.
  intros Hfl.
  assert (has_flag (u8 (Z.ldiff fl 2)) 1 = has_flag fl 1 /\ has_flag (u8 (Z.ldiff fl 2)) 4 = has_flag fl 4) as [E1 E2].
  { pose proof (byte_check (fun fl => Bool.eqb (has_flag (u8 (Z.ldiff fl 2)) 1) (has_flag fl 1)
                                   && Bool.eqb (has_flag (u8 (Z.ldiff fl 2)) 4) (has_flag fl 4))
                 ltac:(vm_compute; reflexivity) fl Hfl) as Hc.
    apply andb_true_iff in Hc as [H1 H2]. split; by apply eqb_prop. }
  unfold route, JD_FRAME_FLAG_COMMAND, JD_FRAME_FLAG_ACK_REQUESTED, JD_FRAME_FLAG_IDENTIFIER_IS_SERVICE_CLASS.
  by rewrite E1, E2.
Qed.

Lemma process_frame_observers classes fuel : forall g ps (st : sys srv_log),
  frame_ok g -> f_size g <= 236 -> zlen classes <= 255 -> no_pipes st ->
  frame_packets fuel g = Some ps -> Forall ordinary ps ->
  exists g' st',
    process_frame_loop self fuel (observers classes) g st = Ret (g', st') /\
    sy_app st' = sy_app st ++ flat_map (delivered self classes (f_flags g) (f_device_identifier g)) ps.
Proof using.
  induction fuel as [|fuel IH]; intros g ps st Hg Hs Hn Hp Hps Hord; [done|].
  cbn [frame_packets process_frame_loop] in *.
  assert (exists ps', ps = packet_of g :: ps') as [ps' ->].
  { destruct (jd_shift_frame g) as [m g']. destruct (m =? 0); [injection Hps as <-; by eexists|].
    destruct (frame_packets fuel g'); [|done]. injection Hps as <-. by eexists. }
  apply Forall_cons in Hord as [Ho Hord].
  destruct (handle_packet_observers classes g st Hg Hn Hp Ho) as (pkt' & st1 & E & Hsame & Hp1 & Happ).
  rewrite E. obind.
  assert ((fst (jd_shift_frame g) = 0 /\ fst (jd_shift_frame pkt') = 0) \/
          exists g', jd_shift_frame g = (1, g') /\ jd_shift_frame pkt' = (1, g')) as Hshift.
  { destruct Hsame as [->|[v ->]]; [|by apply shift_set_index].
    destruct (jd_shift_frame_cases g Hg Hs) as [[g' ->]|(ptr & n & -> & _)]; [by left|right; by eexists]. }
  destruct Hshift as [[H1 H2]|(g' & H1 & H2)].
  - destruct (jd_shift_frame g) as [m g1]. destruct (jd_shift_frame pkt') as [m2 g2]. simpl in H1, H2. subst.
    simpl in *. injection Hps as <-. eexists _, _. split; [reflexivity|]. by rewrite Happ, app_nil_r.
  - rewrite H2. rewrite H1 in Hps. simpl in Hps |- *.
    destruct (frame_packets fuel g') as [ps1|] eqn:Hps1; [|done]. injection Hps as <-.
    destruct (jd_shift_frame_cases g Hg Hs) as [[g2 Hc]|(ptr & n & Hc & Hn4 & Hp4 & He & _)]; [congruence|].
    rewrite Hc in H1. injection H1 as <-. pose proof (align4_bounds n).
    destruct (shifted_header g ptr n) as [Hdev Hfl]; [done|lia..|].
    destruct (IH (shifted g ptr n) ps1 st1) as (g2 & st2 & E2 & Happ2); try done.
    + apply shifted_ok; done || lia.
    + rewrite shifted_size; done || lia.
    + eexists _, _. split; [exact E2|]. rewrite Happ2, Happ, <- app_assoc. do 2 f_equal.
      apply flat_map_ext. intros p. unfold delivered. rewrite Hdev, Hfl, route_clear_ack; [done|].
      apply get8_is_byte, frame_ok_bytes, Hg.
Qed.

Lemma ack_frame_only_tx g (st st0 : sys srv_log) : ack_frame self g st = Ret st0 -> exists tx, st0 = set_tx st tx.
Proof using.
  unfold ack_frame, send_packet, sys_sender, tx_flush. destruct (_ && _).
  - destruct (jd_send _ _ _ _ _ _ _) as [[r tx]| |]; obind; [|done..].
    destruct (jd_tx_flush _ _ _) as [tx'| |]; obind; [|done..]. intros [= <-]. by exists tx'.
  - intros [= <-]. exists (sy_tx st). by destruct st.
Qed.

(** C16. Dispatch of a received frame, whatever bytes it holds: the loop ends,
    and once the acknowledgement, if one was asked for, is sent, its packets
    reach the services in order - a command for this device only the addressed
    service, a command to a service class every service of that class with its
    own index, anything else no service.  Each packet arrives with its command
    and payload. *)
Theorem process_frame_delivers classes g (st st0 : sys srv_log) :
  frame_ok g -> f_size g <= 236 -> zlen classes <= JD_MAX_SERVICES -> no_pipes st ->
  ack_frame self g st = Ret st0 ->
  exists ps, frame_packets FRAME_FUEL g = Some ps /\
    (Forall ordinary ps ->
     exists g' st',
       jd_services_process_frame self (observers classes) g st = Ret (g', st') /\
       sy_app st' = sy_app st ++ flat_map (delivered self classes (f_flags g) (f_device_identifier g)) ps).
Proof using.
  intros Hg Hs Hn Hp Hack.
  destruct (frame_packets_enough 69 g Hg Hs ltac:(lia)) as [ps Hps]. exists ps. split; [exact Hps|]. intros Hord.
  unfold jd_services_process_frame. rewrite Hack. obind.
  destruct (ack_frame_only_tx _ _ _ Hack) as [tx ->].
  unfold JD_MAX_SERVICES in Hn. apply (process_frame_observers classes _ g ps (set_tx st tx)); done || lia.
Qed.
End Dispatch.

(** ** The millisecond clock *)

(** The clock after a reading [t] of the microsecond counter. *)
Definition clock_at (c : clock) (t : Z) : Prop :=
  now c = u32 t /\ prev_us c = u32 (1000 * now_ms_long c) /\
  1000 * now_ms_long c <= t <= 1000 * now_ms_long c + 1000.

Lemma ms_loop_spec fuel : forall d ms,
  0 <= d -> d < 1000 * Z.of_nat fuel ->
  exists d' ms', ms_loop fuel d ms = Ret (d', ms') /\ 1000 * ms' + d' = 1000 * ms + d /\ 0 <= d' <= 1000.
Proof.
  induction fuel as [|fuel IH]; intros d ms Hd Hf; [lia|]. cbn [ms_loop]. rewrite Z.gtb_ltb.
  destruct (Z.ltb_spec 1000 d).
  - destruct (IH (d - 1000) (ms + 1)) as (d' & ms' & -> & ? & ?); [lia..|]. exists d', ms'. repeat split; lia.
  - exists d, ms. repeat split; lia.
Qed.

Lemma jd_refresh_now_step c p t :
  prev_us c = u32 p -> p = 1000 * now_ms_long c -> p <= t < p + 2 ^ 32 ->
  exists c', jd_refresh_now c t = Ret c' /\ clock_at c' t.
Proof.
  intros Hp Hms Ht. unfold jd_refresh_now. rewrite Hp.
  assert (u32 (u32 t - u32 p) = t - p) as -> by word_lia.
  destruct (Z.ltb_spec (t - p) (16 * 1024)).
  - destruct (ms_loop_spec 17 (t - p) (now_ms_long c)) as (d & ms & -> & Hs & Hd); [lia..|]. obind.
    eexists. split; [reflexivity|]. unfold clock_at. cbn [now prev_us now_ms_long].
    repeat split; [|lia|lia]. replace (1000 * ms) with (t - d) by lia. word_lia.
  - obind. eexists. split; [reflexivity|]. unfold clock_at. cbn [now prev_us now_ms_long].
    repeat split; [|word_lia..].
    replace (1000 * (now_ms_long c + (t - p) / 1000)) with (t - (t - p) mod 1000) by word_lia. word_lia.
Qed.

(** Successive calls of [jd_refresh_now]. *)
Fixpoint refreshes (c : clock) (ts : list Z) : outcome clock :=
  match ts with
  | [] => Ret c
  | t :: ts => c ← jd_refresh_now c t; refreshes c ts
  end.

(** The counter never stands still for 2^32 - 1000 microseconds between calls. *)
Fixpoint frequent (t : Z) (ts : list Z) : Prop :=
  match ts with
  | [] => True
  | t' :: ts => t <= t' < t + 2 ^ 32 - 1000 /\ frequent t' ts
  end.

Definition last_reading (t : Z) (ts : list Z) : Z := fold_left (fun _ t' => t') ts t.

Lemma refreshes_accurate ts : forall c t,
  clock_at c t -> frequent t ts ->
  exists c', refreshes c ts = Ret c' /\ clock_at c' (last_reading t ts).
Proof.
  induction ts as [|t' ts IH]; intros c t Hc Hf; [by eexists|]. destruct Hf as [Ht Hf].
  destruct Hc as (_ & Hp & Hr).
  destruct (jd_refresh_now_step c (1000 * now_ms_long c) t' Hp ltac:(done) ltac:(lia)) as (c1 & E & Hc1).
  destruct (IH c1 t' Hc1 Hf) as (c' & E' & Hc'). exists c'. split; [cbn [refreshes]; by rewrite E|done].
Qed.

Definition clock0 : clock := {| now := 0; prev_us := 0; now_ms_long := 0 |}.

(** The millisecond clock does not drift: however irregular the calls of
    [jd_refresh_now] are, short of a gap of 2^32 - 1000 microseconds, the loops
    end and the milliseconds are within one of the microseconds of the last
    reading, across every wrap-around of the 32-bit counters. *)
Lemma jd_refresh_now_accurate ts :
  frequent 0 ts ->
  exists c, refreshes clock0 ts = Ret c /\ now c = u32 (last_reading 0 ts) /\
    1000 * now_ms_long c <= last_reading 0 ts <= 1000 * now_ms_long c + 1000.
Proof.
  intros Hf. destruct (refreshes_accurate ts clock0 0) as (c & E & Hn & _ & Hr); [|done|by exists c].
  unfold clock_at, clock0. cbn. repeat split; lia || done.
Qed.

(** ** Announcements *)

Lemma get32_words ws : forall i w,
  ws !! i = Some w -> get32 (flat_map (le_bytes 4) ws) (4 * Z.of_nat i) = u32 w.
Proof.
  induction ws as [|v ws IH]; intros [|i] w Hw; [done|done| |].
  - injection Hw as ->. cbn [flat_map]. unfold get32. change (mread _ _ _) with (le_bytes 4 w).
    rewrite le_val_le_bytes. done.
  - cbn [flat_map]. rewrite <- (IH i w Hw). unfold get32, mread. f_equal. f_equal.
    rewrite drop_app_ge by (rewrite length_le_bytes; lia). rewrite length_le_bytes. f_equal. lia.
Qed.

Lemma zlen_words ws : zlen (flat_map (le_bytes 4) ws) = 4 * zlen ws.
Proof.
  unfold zlen. induction ws as [|w ws IH]; [done|]. cbn [flat_map]. rewrite length_app, length_le_bytes.
  cbn [length]. lia.
Qed.

Lemma lor_mod16 x f : (exists k, f = 16 * k) -> Z.lor x f mod 16 = x mod 16.
Proof.
  intros [k ->]. change 16 with (2 ^ 4) at 2 3. rewrite <- !Z.land_ones, Z.land_lor_distr_l by lia.
  assert (Z.land (16 * k) (Z.ones 4) = 0) as ->; [|apply Z.lor_0_r].
  rewrite Z.land_ones by lia. change (2 ^ 4) with 16. rewrite Z.mul_comm. apply Z.mod_mul. lia.
Qed.

Section Announce.
Context {A : Type} `{JdSpec} `{AnnounceSpec} `{Hooks A} (self : Z).

Lemma announce_flags_range rc :
  0 <= rc < 16 -> 0 <= announce_flags rc < 65536 /\ announce_flags rc mod 16 = rc.
Proof using.
  intros Hrc. pose proof jd_flag_bits as Hf. decompose_Forall_hyps.
  assert (forall f, (exists k, 0 <= k < 4096 /\ f = 16 * k) -> 0 <= f < 2 ^ 16 /\ exists k, f = 16 * k) as Hr.
  { intros f (k & ? & ->). split; [lia|by eexists]. }
  assert (forall x f, (0 <= x < 2 ^ 16 /\ x mod 16 = rc) -> (0 <= f < 2 ^ 16 /\ exists k, f = 16 * k) ->
            0 <= Z.lor x f < 2 ^ 16 /\ Z.lor x f mod 16 = rc) as Hl.
  { intros x f [? ?] [? ?]. split; [apply lor_range; lia|by rewrite lor_mod16]. }
  unfold announce_flags. rewrite !Z.lor_assoc. change 65536 with (2 ^ 16).
  repeat (apply Hl; [|apply Hr; try destruct status_has_color; eauto]).
  split; [lia|apply Z.mod_small; lia].
Qed.

(** An announcement has one word per service: the classes of the services
    from the second on, and in the first word the restart counter (one more
    than before, saturating at 15) in the low four bits and the number of
    packets sent, this one included, in the upper half; nothing of it
    overlaps. The packet count restarts when the announcement was accepted. *)
Lemma jd_services_announce_decodes (services : list (srv A)) (st : sys A) :
  services <> [] -> 0 <= reset_counter (sy_sched st) <= 15 -> 0 <= packets_sent (sy_tx st) < 256 ->
  let rc := Z.min 15 (reset_counter (sy_sched st) + 1) in
  exists data,
    zlen data = 4 * zlen services /\
    get32 data 0 mod 16 = rc /\ get32 data 0 / 65536 = packets_sent (sy_tx st) + 1 /\
    (forall i s, (0 < i)%nat -> services !! i = Some s -> get32 data (4 * Z.of_nat i) = u32 (srv_class s)) /\
    jd_services_announce self services st =
      '(r, tx) ← jd_send self false (sy_tx st) JD_SERVICE_INDEX_CONTROL JD_CONTROL_CMD_SERVICES data (zlen data);
      Ret (set_tx (set_reset_counter st rc) (if r =? 0 then set_packets_sent tx 0 else tx)).
Proof using.
  intros Hne Hrc Hps rc. set (ws := announce_words services rc (packets_sent (sy_tx st))).
  exists (flat_map (le_bytes 4) ws).
  assert (0 < length services)%nat as Hlen by (destruct services; [done|simpl; lia]).
  set (w0 := Z.lor (u16 (announce_flags rc)) (Z.shiftl (packets_sent (sy_tx st) + 1) 16)).
  destruct (announce_flags_range rc ltac:(lia)) as [Hfr Hfm].
  assert (0 <= w0 < 2 ^ 32) as Hw0.
  { apply lor_range; [lia|rewrite u16_small; lia|]. rewrite Z.shiftl_mul_pow2 by lia. lia. }
  assert (get32 (flat_map (le_bytes 4) ws) 0 = w0) as Hget0.
  { change 0 with (4 * Z.of_nat 0). rewrite (get32_words ws 0 (u32 w0)); [rewrite !u32_small by (rewrite ?u32_small; lia); done|].
    unfold ws, announce_words. fold w0. apply list_lookup_insert_eq. rewrite length_map. lia. }
  split_and!.
  - rewrite zlen_words. unfold ws, announce_words, zlen. rewrite length_insert, length_map. done.
  - rewrite Hget0. unfold w0. rewrite lor_mod16; [rewrite u16_small; lia|].
    exists (4096 * (packets_sent (sy_tx st) + 1)). rewrite Z.shiftl_mul_pow2 by lia. lia.
  - rewrite Hget0. unfold w0. change 65536 with (2 ^ 16). rewrite <- Z.shiftr_div_pow2, Z.shiftr_lor by lia.
    rewrite Z.shiftr_shiftl_l, Z.sub_diag, Z.shiftl_0_r, Z.shiftr_div_pow2 by lia.
    rewrite u16_small, Z.div_small by lia. apply Z.lor_0_l.
  - intros i s Hi Hs. rewrite (get32_words ws i (u32 (srv_class s))).
    + apply u32_small, u32_range.
    + unfold ws, announce_words. rewrite list_lookup_insert_ne by lia. by rewrite list_lookup_fmap, Hs.
  - unfold jd_services_announce. rewrite jd_steady.
    assert ((if reset_counter (sy_sched st) <? 15 then u8 (reset_counter (sy_sched st) + 1)
             else reset_counter (sy_sched st)) = rc) as ->.
    { unfold rc. case_cmp; [rewrite u8_small|]; lia. }
    unfold send_packet, sys_sender. change (sy_tx (set_reset_counter st rc)) with (sy_tx st). fold ws.
    destruct (jd_send _ _ _ _ _ _ _) as [[r tx]| |]; obind; [|done..]. by destruct (r =? 0).
Qed.
End Announce.

(** ** Sleeping inside a service *)

(** Every result satisfies [Q]. *)
Definition holds {B} (Q : B -> Prop) (m : outcome B) : Prop := match m with Ret b => Q b | _ => True end.

Lemma holds_bind {B C} (Q : B -> Prop) (R : C -> Prop) m (f : B -> outcome C) :
  holds Q m -> (forall b, Q b -> holds R (f b)) -> holds R (m ≫= f).
Proof. destruct m; simpl; auto. Qed.

Lemma bind_ext {B C} (Q : B -> Prop) (m : outcome B) (f g : B -> outcome C) :
  holds Q m -> (forall b, Q b -> f b = g b) -> (m ≫= f) = (m ≫= g).
Proof. destruct m; simpl; auto. Qed.

Lemma holds_True {B} (m : outcome B) : holds (fun _ => True) m.
Proof. by destruct m. Qed.

Section Sleeping.
Context {A : Type} `{JdSpec} `{AnnounceSpec} `{Hooks A} (self : Z).
Implicit Types st : sys A.

Definition curr_is (v : Z) (st : sys A) : Prop := curr_service_process (sy_sched st) = v.
Definition curr_is2 {B} (v : Z) (r : B * sys A) : Prop := curr_is v (snd r).

(** [f] leaves [curr_service_process] as it found it: it does not sleep, or
    comes back from it. *)
Definition calm (f : sys A -> outcome (sys A)) : Prop := forall v st, curr_is v st -> holds (curr_is v) (f st).

Definition frozen (s : srv A) : srv A :=
  {| srv_class := srv_class s; srv_handle := srv_handle s; srv_process := fun st => Ret st |}.

(** All but the control service with a process function that does nothing. *)
Definition freeze (services : list (srv A)) : list (srv A) :=
  match services with [] => [] | ctrl :: rest => ctrl :: map frozen rest end.

Record calm_device (services : list (srv A)) : Prop := {
  calm_handle : Forall (fun s => forall pkt, calm (srv_handle s pkt)) services;
  calm_ctrl : match services with [] => True | ctrl :: _ => calm (srv_process ctrl) end;
  calm_app_handle_packet : forall pkt, calm (app_handle_packet pkt);
  calm_app_handle_command : forall pkt, calm (app_handle_command pkt);
  calm_ipipe_handlers : forall evs, calm (ipipe_handlers evs);
  calm_client_handle_packet : forall pkt, calm (client_handle_packet pkt);
  calm_status : calm status_process;
  calm_client : calm client_process;
  calm_lstore : calm lstore_process;
  calm_usb : calm usb_process;
  calm_app_process : calm app_process;
}.

Lemma calm_send v st i c d : curr_is v st -> holds (curr_is2 v) (sys_sender self st i c d).
Proof using. unfold sys_sender. destruct (jd_send _ _ _ _ _ _ _) as [[r tx]| |]; done. Qed.

Lemma calm_flush : calm (tx_flush self).
Proof using. intros v st Hc. unfold tx_flush. by destruct (jd_tx_flush _ _ _). Qed.

Lemma calm_refresh : calm refresh_now.
Proof using.
  intros v st Hc. unfold refresh_now. destruct (tim_get_micros _). by destruct (jd_refresh_now _ _).
Qed.

Lemma calm_announce services : calm (jd_services_announce self services).
Proof using.
  intros v st Hc. unfold jd_services_announce. eapply holds_bind; [by apply calm_send|].
  intros [r st1] Hc1. by destruct (r =? 0).
Qed.

Lemma calm_own_command services pkt : calm_device services -> calm (handle_own_command self services pkt).
Proof using.
  intros Hd v st Hc. unfold handle_own_command. eapply holds_bind; [by apply Hd|]. intros st1 Hc1.
  destruct (services !! _) as [s|] eqn:Es; [|done].
  assert (forall str, holds (curr_is2 v) (jd_respond_string (H0 := sys_sender self) st1 pkt str)) as Hstr.
  { intros str. unfold jd_respond_string, jd_respond_empty, respond. by destruct str as [[|]|]; apply calm_send. }
  assert (forall m : outcome (Z * sys A), holds (curr_is2 v) m ->
            holds (curr_is v) ('(_, st) ← m; Ret st)) as Hsnd by by intros [[? ?]| |].
  destruct (_ =? JD_GET JD_REG_INSTANCE_NAME); [|destruct (_ && _)].
  - apply Hsnd. destruct (match app_get_instance_name _ with Some _ => _ | None => _ end); [by apply Hstr|].
    unfold jd_send_not_implemented. case_match; [done|by apply calm_send].
  - apply Hsnd, calm_send, Hc1.
  - destruct Hd. rewrite Forall_lookup in calm_handle0. by eapply calm_handle0.
Qed.

Lemma calm_class_loop services id : forall i pkt v st,
  Forall (fun s => forall pkt, calm (srv_handle s pkt)) services ->
  curr_is v st -> holds (curr_is2 v) (class_loop services i id pkt st).
Proof using.
  induction services as [|s services IH]; intros i pkt v st Hd Hc; [done|]. cbn [class_loop].
  apply Forall_cons in Hd as [Hs Hd]. destruct (id =? _); [|by apply IH].
  eapply holds_bind; [by apply Hs|]. intros. by apply IH.
Qed.

Lemma calm_handle_packet services pkt v st :
  calm_device services -> curr_is v st -> holds (curr_is2 v) (jd_services_handle_packet self services pkt st).
Proof using.
  intros Hd Hc. unfold jd_services_handle_packet.
  eapply holds_bind; [by apply Hd|]. intros st1 Hc1.
  eapply (holds_bind (fun _ => True)); [by destruct (jd_opipe_handle_packet _ _ _ _)|]. intros op _.
  eapply (holds_bind (fun _ => True)); [by destruct (jd_ipipe_handle_packet _ _ _)|]. intros [ip evs] _.
  eapply holds_bind; [by apply Hd|]. intros st2 Hc2.
  eapply holds_bind; [by apply Hd|]. intros st3 Hc3.
  case_match; [|case_match; [|case_match]].
  - unfold handle_ctrl_tick. by destruct (is_client_announce pkt).
  - eapply holds_bind; [by apply calm_own_command|]. done.
  - apply calm_class_loop; [apply Hd|done].
  - done.
Qed.

Lemma calm_process_frame services frame v st :
  calm_device services -> curr_is v st -> holds (curr_is2 v) (jd_services_process_frame self services frame st).
Proof using.
  intros Hd Hc. unfold jd_services_process_frame. eapply (holds_bind (curr_is v)).
  - unfold ack_frame. case_match; [|done]. eapply holds_bind; [by apply calm_send|].
    intros [r st1] Hc1. by apply calm_flush.
  - generalize FRAME_FUEL. intros fuel. revert frame st Hc.
    induction fuel as [|fuel IH]; intros frame st Hc st1 Hc1; [done|]. cbn [process_frame_loop].
    eapply holds_bind; [by apply calm_handle_packet|]. intros [frame1 st2] Hc2.
    destruct (jd_shift_frame frame1) as [more frame2]. case_match; [done|]. by apply (IH frame2 st2).
Qed.

Lemma calm_event_queue : calm (event_queue_process self).
Proof using.
  intros v st Hc. unfold event_queue_process. by destruct (jd_process_event_queue _ _ _) as [[? ?]| |].
Qed.

Lemma calm_opipe : calm (opipe_process self).
Proof using. intros v st Hc. unfold opipe_process. by destruct (jd_opipe_process _ _ _ _) as [[? ?]| |]. Qed.

(** A turn of the main loop while a service sleeps. *)
Lemma calm_tick services st :
  calm_device services -> curr_is IN_SERV_SLEEP st ->
  holds (curr_is IN_SERV_SLEEP) (jd_services_tick self services st).
Proof using.
  intros Hd Hc. unfold jd_services_tick. destruct (jd_should_sample _ _ _) as [due na].
  eapply holds_bind; [by destruct due; [apply calm_announce|]|]. intros st1 Hc1.
  assert (forall b app, curr_is IN_SERV_SLEEP (if b : bool then set_app (set_lastMax st1 0) app else st1)) as Hc2.
  { by intros [] ?. }
  destruct services as [|ctrl rest]; [done|]. destruct Hd as [_ Hctrl].
  eapply holds_bind; [by apply Hctrl, Hc2|]. intros st3 Hc3. rewrite Hc3. cbn [negb Z.eqb IN_SERV_SLEEP Pos.eqb].
  eapply holds_bind; [exact Hc3|]. intros st4 Hc4.
  eapply holds_bind; [by apply calm_event_queue|]. intros st5 Hc5.
  eapply holds_bind; [by apply calm_status0|]. intros st6 Hc6.
  eapply holds_bind; [by apply calm_opipe|]. intros st7 Hc7.
  eapply holds_bind; [by apply calm_client0|]. intros st8 Hc8.
  eapply holds_bind; [by apply calm_lstore0|]. intros st9 Hc9.
  eapply holds_bind; [by apply calm_usb0|]. intros st10 Hc10. by apply calm_flush.
Qed.

Lemma calm_process_one services st :
  calm_device services -> curr_is IN_SERV_SLEEP st ->
  holds (curr_is2 IN_SERV_SLEEP) (jd_process_one self services st).
Proof using.
  intros Hd Hc. unfold jd_process_one. eapply (holds_bind (curr_is IN_SERV_SLEEP)).
  - destruct (jd_rx_get_frame _); [|done]. eapply holds_bind; [by apply calm_process_frame|].
    intros [? st1] Hc1. by destruct (jd_rx_release_frame _).
  - intros st1 Hc1. eapply holds_bind; [by apply calm_tick|]. intros st2 Hc2.
    eapply holds_bind; [by apply Hd|]. done.
Qed.

(** ** Without the other services *)

Lemma freeze_class services : map srv_class (freeze services) = map srv_class services.
Proof using. destruct services; cbn [freeze map]; [done|]. by rewrite map_map. Qed.

Lemma freeze_lookup services i : srv_handle <$> freeze services !! i = srv_handle <$> services !! i.
Proof using.
  destruct services as [|c rest], i; try done.
  transitivity (srv_handle <$> ((frozen <$> rest) !! i)); [done|]. rewrite list_lookup_fmap.
  change ((c :: rest) !! S i) with (rest !! i). by destruct (rest !! i).
Qed.

Lemma freeze_announce services st : jd_services_announce self (freeze services) st = jd_services_announce self services st.
Proof using.
  unfold jd_services_announce, announce_words.
  assert (forall l : list (srv A), map (fun s => u32 (srv_class s)) l = map u32 (map srv_class l)) as E
    by (intros; by rewrite map_map).
  by rewrite !E, freeze_class.
Qed.

Lemma freeze_class_loop services : forall i id pkt st,
  class_loop (freeze services) i id pkt st = class_loop services i id pkt st.
Proof using.
  assert (forall rest i id pkt st, class_loop (map frozen rest) i id pkt st = class_loop rest i id pkt st) as Hr.
  { induction rest as [|s rest IH]; intros; cbn [map class_loop]; [done|]. cbn [frozen srv_class srv_handle].
    destruct (_ =? _); [|by apply IH]. destruct (srv_handle s _ _); obind; [apply IH|done..]. }
  intros. destruct services as [|c rest]; [done|]. cbn [freeze class_loop].
  destruct (_ =? _); [|by apply Hr]. destruct (srv_handle c _ _); obind; [apply Hr|done..].
Qed.

Lemma freeze_own_command services pkt st :
  handle_own_command self (freeze services) pkt st = handle_own_command self services pkt st.
Proof using.
  unfold handle_own_command. eapply bind_ext; [apply holds_True|]. intros st1 _.
  pose proof (freeze_lookup services (Z.to_nat (p_service_index pkt))) as Hl.
  destruct (freeze services !! _), (services !! _); simplify_eq/=; [|done].
  destruct (_ =? _); [done|]. destruct (_ && _); [done|]. congruence.
Qed.

Lemma freeze_process_frame services frame st :
  jd_services_process_frame self (freeze services) frame st = jd_services_process_frame self services frame st.
Proof using.
  assert (forall pkt st, jd_services_handle_packet self (freeze services) pkt st =
                         jd_services_handle_packet self services pkt st) as Hh.
  { intros pkt st'. unfold jd_services_handle_packet.
    do 2 (eapply bind_ext; [apply holds_True|]; intros ? _).
    eapply bind_ext; [apply holds_True|]; intros [? ?] _.
    do 2 (eapply bind_ext; [apply holds_True|]; intros ? _).
    by rewrite freeze_own_command, freeze_class_loop. }
  unfold jd_services_process_frame. eapply bind_ext; [apply holds_True|]. intros st1 _.
  generalize FRAME_FUEL. intros fuel. revert frame st1.
  induction fuel as [|fuel IH]; intros frame st1; [done|]. cbn [process_frame_loop]. rewrite Hh.
  eapply bind_ext; [apply holds_True|]; intros [f1 st2] _. destruct (jd_shift_frame f1). by rewrite IH.
Qed.

Lemma freeze_tick services st :
  calm_device services -> curr_is IN_SERV_SLEEP st ->
  jd_services_tick self (freeze services) st = jd_services_tick self services st.
Proof using.
  intros Hd Hc. unfold jd_services_tick. destruct (jd_should_sample _ _ _) as [due na].
  rewrite freeze_announce. apply (bind_ext (curr_is IN_SERV_SLEEP)).
  { destruct due; [by apply calm_announce|done]. }
  intros st1 Hc1. destruct services as [|ctrl rest]; [done|]. cbn [freeze].
  apply (bind_ext (curr_is IN_SERV_SLEEP)).
  { apply (calm_ctrl _ Hd). by case_match. }
  intros st2 Hc2. by rewrite Hc2.
Qed.

Lemma freeze_process_one services st :
  calm_device services -> curr_is IN_SERV_SLEEP st ->
  jd_process_one self (freeze services) st = jd_process_one self services st.
Proof using.
  intros Hd Hc. unfold jd_process_one.
  set (rx := match jd_rx_get_frame (sy_tx st) with Some _ => _ | None => Ret st end) at 2.
  assert (holds (curr_is IN_SERV_SLEEP) rx) as Hrx.
  { unfold rx. destruct (jd_rx_get_frame _); [|done]. eapply holds_bind; [by apply calm_process_frame|].
    intros [? st1] Hc1. by destruct (jd_rx_release_frame _). }
  assert (match jd_rx_get_frame (sy_tx st) with
          | Some off =>
              '(_, st) ← jd_services_process_frame self (freeze services)
                            (mread (q_data (rx_queue (sy_tx st))) off sizeof_frame) st;
              tx ← jd_rx_release_frame (sy_tx st); Ret (set_tx st tx)
          | None => Ret st
          end = rx) as ->.
  { unfold rx. destruct (jd_rx_get_frame _); [|done]. by rewrite freeze_process_frame. }
  clearbody rx. apply (bind_ext (curr_is IN_SERV_SLEEP)); [done|]. intros st1 Hc1. by rewrite freeze_tick.
Qed.

Lemma process_core_sleep fuel services : forall st,
  calm_device services -> curr_is IN_SERV_SLEEP st ->
  holds (curr_is IN_SERV_SLEEP) (jd_process_everything_core self fuel services st) /\
  jd_process_everything_core self fuel (freeze services) st = jd_process_everything_core self fuel services st.
Proof using.
  induction fuel as [|fuel IH]; intros st Hd Hc; [done|]. cbn [jd_process_everything_core].
  rewrite freeze_process_one by done. pose proof (calm_process_one services st Hd Hc) as Hp. split.
  - eapply holds_bind; [exact Hp|]. intros [[] st1] Hc1; [by apply IH|done].
  - apply (bind_ext (curr_is2 IN_SERV_SLEEP)); [done|]. intros [[] st1] Hc1; [by apply IH|done].
Qed.

Lemma sleep_loop_sleep services end_time fuel : forall st,
  calm_device services -> curr_is IN_SERV_SLEEP st ->
  holds (fun st' => curr_is IN_SERV_SLEEP st' /\ in_future (now (sy_clock st')) end_time = false)
    (sleep_loop self fuel services end_time st) /\
  sleep_loop self fuel (freeze services) end_time st = sleep_loop self fuel services end_time st.
Proof using.
  induction fuel as [|fuel IH]; intros st Hd Hc; [done|]. cbn [sleep_loop].
  destruct (in_future _ _) eqn:Ef; [|done]. destruct (process_core_sleep (S fuel) services st Hd Hc) as [Hh ->]. split.
  - eapply holds_bind; [exact Hh|]. intros st1 Hc1. eapply holds_bind; [by apply calm_refresh|].
    intros st2 Hc2. by apply IH.
  - apply (bind_ext (curr_is IN_SERV_SLEEP)); [done|]. intros st1 Hc1.
    apply (bind_ext (curr_is IN_SERV_SLEEP)); [by apply calm_refresh|]. intros st2 Hc2. by apply IH.
Qed.

(** Sleeping inside a service's process function: while it lasts, packets
    are handled and the control service runs, but no process function of
    another service does - the device behaves as if they were empty, so none is
    entered twice - and when the call returns the time has passed and the
    service is the current one again. Outside of a process function the call
    panics. *)
Lemma jd_services_sleep_us_not_reentrant fuel services delta st :
  calm_device services -> 50 <= delta -> curr_service_process (sy_sched st) <> IN_SERV_INIT ->
  let curr := curr_service_process (sy_sched st) in
  let r := jd_services_sleep_us self fuel services delta st in
  r = jd_services_sleep_us self fuel (freeze services) delta st /\
  (curr = 0 \/ curr = IN_SERV_SLEEP -> r = Panic) /\
  (curr <> 0 -> curr <> IN_SERV_SLEEP -> forall st', r = Ret st' ->
     curr_service_process (sy_sched st') = curr /\
     exists st0, refresh_now (set_curr st IN_SERV_SLEEP) = Ret st0 /\
       in_future (now (sy_clock st')) (u32 (now (sy_clock st0) + delta)) = false).
Proof using.
  intros Hd Hdelta Hinit curr r. unfold r, jd_services_sleep_us.
  rewrite (proj2 (Z.leb_gt _ _)), (proj2 (Z.ltb_ge _ _)) by lia. fold curr.
  rewrite (proj2 (Z.eqb_neq curr IN_SERV_INIT) Hinit). cbn [orb].
  destruct ((curr =? 0) || (curr =? IN_SERV_SLEEP)) eqn:Ec.
  { split_and!; [done|done|]. intros H2 H3. apply orb_true_iff in Ec as [E|E]; apply Z.eqb_eq in E; congruence. }
  apply orb_false_iff in Ec as [E0 Es]. apply Z.eqb_neq in E0, Es.
  assert (curr_is IN_SERV_SLEEP (set_curr st IN_SERV_SLEEP)) as Hc by done.
  pose proof (calm_refresh _ _ Hc) as Hr. split_and!; [|by intros [?|?]|].
  - apply (bind_ext (curr_is IN_SERV_SLEEP)); [done|]. intros st0 Hc0.
    destruct (sleep_loop_sleep services (u32 (now (sy_clock st0) + delta)) fuel st0 Hd Hc0) as [_ ->]. done.
  - intros _ _ st'. destruct (refresh_now _) as [st0| |] eqn:Er; obind; [|done..]. simpl in Hr.
    destruct (sleep_loop_sleep services (u32 (now (sy_clock st0) + delta)) fuel st0 Hd Hr) as [Hh _].
    destruct (sleep_loop _ _ _ _ _) as [st1| |]; obind; [|done..]. intros [= <-].
    split; [done|]. exists st0. split; [done|apply Hh].
Qed.
End Sleeping.

(** ** The theorems at concrete inputs *)

Lemma demo_flag_bits : Forall (fun f => exists k, 0 <= k < 4096 /\ f = 16 * k) [0x30; 0x10; 0x800; 0x100; 0x200; 0x400].
Proof. repeat constructor; [exists 3|exists 1|exists 128|exists 16|exists 32|exists 64]; lia. Qed.

Definition demo_announce : AnnounceSpec :=
  {| JD_CONTROL_ANNOUNCE_FLAGS_RESTART_COUNTER_STEADY := 0xf;
     JD_CONTROL_ANNOUNCE_FLAGS_STATUS_LIGHT_RGB_FADE := 0x30; JD_CONTROL_ANNOUNCE_FLAGS_STATUS_LIGHT_MONO := 0x10;
     JD_CONTROL_ANNOUNCE_FLAGS_IS_CLIENT := 0x800; JD_CONTROL_ANNOUNCE_FLAGS_SUPPORTS_ACK := 0x100;
     JD_CONTROL_ANNOUNCE_FLAGS_SUPPORTS_BROADCAST := 0x200; JD_CONTROL_ANNOUNCE_FLAGS_SUPPORTS_FRAMES := 0x400;
     jd_steady := eq_refl; jd_flag_bits := demo_flag_bits |}.

(** A device just started, process function [curr] running. *)
Definition demo_sys {A} (app : A) (curr : Z) : sys A :=
  {| sy_tx := txrx0; sy_op := {| op_heap := ∅; opipes := 0 |}; sy_ip := {| ip_heap := ∅; ipipes := 0 |};
     sy_ev := event_info0; sy_clock := clock0;
     sy_sched := {| reset_counter := 0; curr_service_process := curr; lastMax := 0; nextAnnounce := 0 |};
     sy_app := app |}.

(** A command with two payload bytes to service 1 of device 77, to be
    acknowledged. *)
Definition demo_frame : list Z :=
  [0; 0; 6; 3; 77; 0; 0; 0; 0; 0; 0; 0; 2; 1; 0x80; 0; 5; 6] ++ replicate 234 0.

Lemma demo_frame_ok : frame_ok demo_frame.
Proof.
  constructor; [done|]. apply Forall_app; split; [repeat constructor; simpl; lia|by apply Forall_replicate].
Qed.

Lemma process_frame_delivers_witness :
  exists g' st',
    jd_services_process_frame (H := demo_spec) (H1 := quiet_hooks (fun app => (0, app)) true (fun _ => None) (fun _ => -1))
      (H0 := demo_announce) 77 (observers [10; 20]) demo_frame (demo_sys [] 0) = Ret (g', st') /\
    sy_app st' = [(1, {| pk_service_index := 1; pk_service_command := 0x80; pk_data := [5; 6] |})].
Proof.
  destruct (ack_frame 77 demo_frame (demo_sys ([] : srv_log) 0)) as [st0| |] eqn:Hack; [|by vm_compute in Hack..].
  destruct (process_frame_delivers (H := demo_spec) (H0 := demo_announce) 77 true (fun _ => None) (fun _ => -1)
              [10; 20] demo_frame (demo_sys [] 0) st0) as (ps & Hps & Hd);
    [apply demo_frame_ok|vm_compute; discriminate..|done|exact Hack|].
  vm_compute in Hps. injection Hps as <-.
  destruct Hd as (g' & st' & E & Happ); [repeat constructor; done|].
  exists g', st'. split; [exact E|]. rewrite Happ. vm_compute. reflexivity.
Defined.

Definition demo_srv (cls : Z) : srv Z :=
  {| srv_class := cls; srv_handle := fun _ st => Ret st; srv_process := fun st => Ret st |}.
Definition demo_hooks : Hooks Z := quiet_hooks (fun t => (t, t + 100)) true (fun _ => None) (fun _ => -1).

Lemma demo_calm : calm_device (H1 := demo_hooks) [demo_srv 0; demo_srv 20].
Proof.
  constructor; [|(intros ? ? Hc; exact Hc) || (intros ? ? ? Hc; exact Hc)..].
  repeat (apply Forall_cons; split; [intros ? ? ? Hc; exact Hc|]). by apply Forall_nil.
Qed.

(** 60 microseconds, with the clock advancing by 100 at each reading. *)
