(* ===== verification/Control.v ===== *)
(** * The control service ([source/jd_control.c])

    Service 0 of every device: announcements on request, identification, reset
    and standby, the flood-ping test, the registers of the device and the
    watchdog. Compiled with [JD_CONFIG_CONTROL_FLOOD], [JD_CONFIG_WATCHDOG] and
    [JD_CONFIG_STATUS], without [JD_CONFIG_TEMPERATURE] and
    [JD_CONFIG_DEV_SPEC_URL]. The effects on the board are events of a trace. *)
From S2P Require Import Prelude Frame Util Iface Queue TxRx Registers Services.

(** Commands and registers of the generated control-service header. *)
Class ControlSpec := {
  JD_CONTROL_CMD_IDENTIFY : Z;
  JD_CONTROL_CMD_RESET : Z;
  JD_CONTROL_CMD_STANDBY : Z;
  JD_CONTROL_CMD_FLOOD_PING : Z;
  JD_CONTROL_REG_DEVICE_DESCRIPTION : Z;
  JD_CONTROL_REG_FIRMWARE_VERSION : Z;
  JD_CONTROL_REG_PRODUCT_IDENTIFIER : Z;
  JD_CONTROL_REG_BOOTLOADER_PRODUCT_IDENTIFIER : Z;
  JD_CONTROL_REG_UPTIME : Z;
  JD_CONTROL_REG_RESET_IN : Z;
  (** [jd_control_flood_ping_t]: [num_responses], [start_counter], [size]. *)
  sizeof_flood_ping : Z;
  flood_num_responses : list Z -> Z;
  flood_start_counter : list Z -> Z;
  flood_size_arg : list Z -> Z;
}.

Inductive ctrl_event :=
  | CtrlReset                  (* target_reset *)
  | CtrlStandby (ms : Z)       (* target_standby *)
  | CtrlIdentify               (* jd_blink(JD_BLINK_IDENTIFY) *)
  | CtrlNoSleep.               (* pwr_enter_no_sleep *)

Record ctrl_state := {
  flood_size : Z;        (* uint8_t *)
  watchdog : Z;          (* uint32_t *)
  flood_counter : Z;     (* uint32_t *)
  flood_remaining : Z;   (* uint32_t *)
  ctrl_trace : list ctrl_event;
}.

Definition ctrl_emit (s : ctrl_state) (e : ctrl_event) : ctrl_state :=
  {| flood_size := flood_size s; watchdog := watchdog s; flood_counter := flood_counter s;
     flood_remaining := flood_remaining s; ctrl_trace := ctrl_trace s ++ [e] |}.
Definition set_flood_counter (s : ctrl_state) (v : Z) : ctrl_state :=
  {| flood_size := flood_size s; watchdog := watchdog s; flood_counter := v;
     flood_remaining := flood_remaining s; ctrl_trace := ctrl_trace s |}.
Definition set_flood_size (s : ctrl_state) (v : Z) : ctrl_state :=
  {| flood_size := v; watchdog := watchdog s; flood_counter := flood_counter s;
     flood_remaining := flood_remaining s; ctrl_trace := ctrl_trace s |}.
Definition set_watchdog (s : ctrl_state) (v : Z) : ctrl_state :=
  {| flood_size := flood_size s; watchdog := v; flood_counter := flood_counter s;
     flood_remaining := flood_remaining s; ctrl_trace := ctrl_trace s |}.

(** Both branches take the sleep lock. *)
Definition set_flood (s : ctrl_state) (num : Z) : ctrl_state :=
  let s := if (flood_remaining s =? 0) && negb (num =? 0) then ctrl_emit s CtrlNoSleep
           else if negb (flood_remaining s =? 0) && (num =? 0) then ctrl_emit s CtrlNoSleep
           else s in
  {| flood_size := flood_size s; watchdog := watchdog s; flood_counter := flood_counter s;
     flood_remaining := num; ctrl_trace := ctrl_trace s |}.

(** [tmp]: the counter, then 0, 1, 2, ... *)
Definition flood_payload (counter size : Z) : list Z :=
  le_bytes 4 counter ++ map u8 (seqZ 0 size).

Section Control.
Context `{JdSpec} `{ControlSpec} `{Sender T}.

(** [idle] is [jd_tx_is_idle()]. *)
Definition process_flood (idle : bool) (s : ctrl_state) (tx : T) : outcome (ctrl_state * T) :=
  if negb (flood_remaining s =? 0) && idle then
    let tmp := flood_payload (flood_counter s) (flood_size s) in
    let s := set_flood_counter s (u32 (flood_counter s + 1)) in
    let s := set_flood s (flood_remaining s - 1) in
    '(_, tx) ← send_packet tx JD_SERVICE_INDEX_CONTROL JD_CONTROL_CMD_FLOOD_PING tmp;
    Ret (s, tx)
  else Ret (s, tx).

Definition jd_ctrl_process (now : Z) (idle : bool) (s : ctrl_state) (tx : T) : outcome (ctrl_state * T) :=
  '(s, tx) ← process_flood idle s tx;
  if negb (watchdog s =? 0) && in_past now (watchdog s) then Ret (ctrl_emit s CtrlReset, tx)
  else Ret (s, tx).

(** [status_handled] is the result of [jd_status_handle_packet], [announce]
    is [jd_services_announce], [micros] [tim_get_micros()]. *)
Definition jd_ctrl_handle_packet (now micros : Z) (status_handled : bool) (announce : T -> outcome T)
    (dev_class_name fw_version : list Z) (device_class : Z) (s : ctrl_state) (pkt : list Z) (tx : T)
    : outcome (ctrl_state * T) :=
  let cmd := p_service_command pkt in
  let data := drop 16 pkt in
  let reply (r : outcome (Z * T)) := '(_, tx) ← r; Ret (s, tx) in
  if status_handled then Ret (s, tx)
  else if cmd =? JD_CONTROL_CMD_SERVICES then tx ← announce tx; Ret (s, tx)
  else if cmd =? JD_CONTROL_CMD_IDENTIFY then Ret (ctrl_emit s CtrlIdentify, tx)
  else if cmd =? JD_CONTROL_CMD_RESET then Ret (ctrl_emit s CtrlReset, tx)
  else if cmd =? JD_CONTROL_CMD_STANDBY then Ret (ctrl_emit s (CtrlStandby (get32 data 0)), tx)
  else if cmd =? JD_CONTROL_CMD_FLOOD_PING then
    if p_service_size pkt >=? sizeof_flood_ping then
      let s := set_flood_counter s (flood_start_counter data) in
      let s := set_flood_size s (flood_size_arg data) in
      Ret (set_flood s (flood_num_responses data), tx)
    else Ret (s, tx)
  else if cmd =? JD_GET JD_CONTROL_REG_DEVICE_DESCRIPTION then reply (jd_respond_string tx pkt (Some dev_class_name))
  else if cmd =? JD_GET JD_CONTROL_REG_FIRMWARE_VERSION then reply (jd_respond_string tx pkt (Some fw_version))
  else if (cmd =? JD_GET JD_CONTROL_REG_PRODUCT_IDENTIFIER)
          || (cmd =? JD_GET JD_CONTROL_REG_BOOTLOADER_PRODUCT_IDENTIFIER) then
    reply (jd_respond_u32 tx pkt device_class)
  else if cmd =? JD_GET JD_CONTROL_REG_UPTIME then
    reply (send_packet tx JD_SERVICE_INDEX_CONTROL cmd (le_bytes 8 micros))
  else if cmd =? JD_GET JD_CONTROL_REG_RESET_IN then
    let d := watchdog s in
    let d := if negb (d =? 0) then u32 (d - now) else d in
    reply (jd_respond_u32 tx pkt d)
  else if cmd =? JD_SET JD_CONTROL_REG_RESET_IN then
    if p_service_size pkt =? 4 then
      let delta := get32 data 0 in
      Ret (set_watchdog s (if negb (delta =? 0) then u32 (now + delta) else 0), tx)
    else Ret (s, tx)
  else reply (jd_send_not_implemented tx pkt).
End Control.

(** ** The flood test *)

(** Turns of [jd_ctrl_process] with the idle states [idles]. *)
Fixpoint flood_turns `{JdSpec} `{ControlSpec} (idles : list bool) (s : ctrl_state) (log : list sent)
    : outcome (ctrl_state * list sent) :=
  match idles with
  | [] => Ret (s, log)
  | idle :: idles => '(s, log) ← process_flood idle s log; flood_turns idles s log
  end.

Definition pings `{JdSpec} `{ControlSpec} (counter size n : Z) : list sent :=
  map (fun k => {| s_index := JD_SERVICE_INDEX_CONTROL; s_command := JD_CONTROL_CMD_FLOOD_PING;
                   s_data := flood_payload (u32 (counter + k)) size |}) (seqZ 0 n).

Lemma flood_turns_spec `{JdSpec} `{ControlSpec} idles : forall s log,
  0 <= flood_remaining s < 2 ^ 32 -> 0 <= flood_counter s < 2 ^ 32 ->
  let n := Z.min (flood_remaining s) (zlen (filter (fun b : bool => b = true) idles)) in
  exists s', flood_turns idles s log = Ret (s', log ++ pings (flood_counter s) (flood_size s) n) /\
    flood_remaining s' = flood_remaining s - n.
Proof.
  induction idles as [|idle idles IH]; intros s log Hr Hc; cbn [flood_turns].
  { exists s. change (zlen (filter _ [])) with 0. rewrite Z.min_r by lia. cbn. rewrite app_nil_r. split; [done|lia]. }
  rewrite filter_cons. unfold process_flood. destruct (Z.eqb_spec (flood_remaining s) 0) as [E|E]; cbn [negb andb].
  { obind. destruct (IH s log Hr Hc) as (s' & E1 & E2). exists s'. rewrite E in E1, E2 |- *.
    rewrite !Z.min_l in * by apply zlen_nonneg. done. }
  destruct idle; [rewrite decide_True by done|rewrite decide_False by done]; [|by apply IH].
  unfold send_packet, log_sender. obind.
  set (s1 := set_flood (set_flood_counter s _) _).
  assert (flood_remaining s1 = flood_remaining s - 1 /\ flood_counter s1 = u32 (flood_counter s + 1) /\
          flood_size s1 = flood_size s) as (H1 & H2 & H3).
  { unfold s1, set_flood. repeat case_match; done. }
  set (f := filter _ idles).
  destruct (IH s1 (log ++ [{| s_index := JD_SERVICE_INDEX_CONTROL; s_command := JD_CONTROL_CMD_FLOOD_PING;
              s_data := flood_payload (flood_counter s) (flood_size s) |}])) as (s' & E1 & E2);
    [lia|rewrite H2; apply u32_range|].
  exists s'. rewrite E1, E2. fold f. pose proof (zlen_nonneg f).
  assert (zlen (true :: f) = zlen f + 1) as -> by (unfold zlen; cbn [length]; lia).
  replace (Z.min (flood_remaining s) (zlen f + 1)) with (Z.succ (Z.min (flood_remaining s1) (zlen f))) by lia.
  split; [|lia]. rewrite <- app_assoc. do 2 f_equal. rewrite H2, H3. unfold pings.
  rewrite (seqZ_cons 0 (Z.succ _)) by lia. cbn [map app]. rewrite Z.add_0_r, (u32_small (flood_counter s)) by lia.
  rewrite Z.pred_succ, <- (fmap_add_seqZ 1 0). change (fmap ?f ?l) with (map f l). rewrite map_map.
  do 2 f_equal. apply map_ext. intros k. do 2 f_equal. word_lia.
Qed.

(** The flood test: a FLOOD_PING command for [n] responses makes exactly
    [n] reports, one in each turn that finds the transmitter idle and none
    otherwise, numbered from the start counter modulo 2^32, each with the
    padding asked for. *)
Lemma flood_test `{JdSpec} `{ControlSpec} now micros announce name version cls s pkt log idles :
  let data := drop 16 pkt in
  p_service_command pkt = JD_CONTROL_CMD_FLOOD_PING ->
  ~ In JD_CONTROL_CMD_FLOOD_PING [JD_CONTROL_CMD_SERVICES; JD_CONTROL_CMD_IDENTIFY; JD_CONTROL_CMD_RESET; JD_CONTROL_CMD_STANDBY] ->
  sizeof_flood_ping <= p_service_size pkt ->
  0 <= flood_num_responses data < 2 ^ 32 -> 0 <= flood_start_counter data < 2 ^ 32 ->
  exists s1 s2,
    jd_ctrl_handle_packet now micros false announce name version cls s pkt log = Ret (s1, log) /\
    let n := Z.min (flood_num_responses data) (zlen (filter (fun b : bool => b = true) idles)) in
    flood_turns idles s1 log = Ret (s2, log ++ pings (flood_start_counter data) (flood_size_arg data) n) /\
    flood_remaining s2 = flood_num_responses data - n.
Proof.
  intros data Hcmd Hne Hsz Hn Hc. unfold jd_ctrl_handle_packet. rewrite Hcmd. fold data.
  cbn [In] in Hne. rewrite !(proj2 (Z.eqb_neq _ _)) by (intros E; apply Hne; rewrite E; tauto).
  rewrite Z.eqb_refl, Z.geb_leb, (proj2 (Z.leb_le _ _)) by done.
  set (s1 := set_flood _ _).
  assert (flood_remaining s1 = flood_num_responses data /\ flood_counter s1 = flood_start_counter data /\
          flood_size s1 = flood_size_arg data) as (H1 & H2 & H3).
  { unfold s1, set_flood. repeat case_match; done. }
  destruct (flood_turns_spec idles s1 log ltac:(lia) ltac:(lia)) as (s2 & E1 & E2).
  rewrite H1, H2, H3 in *. exists s1, s2. done.
Qed.

(** ** At a concrete input *)

Definition demo_control : ControlSpec := {|
  JD_CONTROL_CMD_IDENTIFY := 0x81; JD_CONTROL_CMD_RESET := 0x82; JD_CONTROL_CMD_STANDBY := 0x87;
  JD_CONTROL_CMD_FLOOD_PING := 0x83; JD_CONTROL_REG_DEVICE_DESCRIPTION := 0x180;
  JD_CONTROL_REG_FIRMWARE_VERSION := 0x185; JD_CONTROL_REG_PRODUCT_IDENTIFIER := 0x181;
  JD_CONTROL_REG_BOOTLOADER_PRODUCT_IDENTIFIER := 0x184; JD_CONTROL_REG_UPTIME := 0x186;
  JD_CONTROL_REG_RESET_IN := 0x80; sizeof_flood_ping := 9;
  flood_num_responses := fun d => get32 d 0; flood_start_counter := fun d => get32 d 4;
  flood_size_arg := fun d => get8 d 8 |}.

Definition ctrl0 : ctrl_state :=
  {| flood_size := 0; watchdog := 0; flood_counter := 0; flood_remaining := 0; ctrl_trace := [] |}.
Definition demo_ping : list Z := demo_pkt 0x83 (le_bytes 4 2 ++ le_bytes 4 7 ++ [1]).

(** Starting the flood takes the sleep lock, and ending it takes it again. *)
Lemma set_flood_never_releases s n :
  flood_remaining s = 0 -> 0 < n ->
  ctrl_trace (set_flood (set_flood s n) 0) = ctrl_trace s ++ [CtrlNoSleep; CtrlNoSleep].
Proof.
  intros H0 Hn. unfold set_flood at 2. rewrite H0, (proj2 (Z.eqb_neq n 0)) by lia. cbn [Z.eqb negb andb].
  unfold set_flood. cbn [flood_remaining]. rewrite (proj2 (Z.eqb_neq n 0)) by lia.
  cbn. by rewrite <- app_assoc.
Qed.

(** A reset time that falls on time 0 turns the watchdog off. *)
Lemma watchdog_wraps_to_off :
  exists s', jd_ctrl_handle_packet (H := demo_spec) (H0 := demo_control) (2 ^ 32 - 5) 0 false (fun tx => Ret tx) [] [] 0 ctrl0
      (demo_pkt 0x2080 (le_bytes 4 5)) ([] : list sent) = Ret (s', []) /\ watchdog s' = 0.
Proof. eexists. split; [vm_compute; reflexivity|reflexivity]. Qed.
