(* ===== verification/Phys.v ===== *)
(** * The single-wire bus driver ([source/jd_physical.c])

    A state machine driven from outside: the line goes low, bytes arrive, the
    UART finishes, the timer fires, the application has a frame to send. All
    entry points run with interrupts off, so each is one step. The one place
    where an interrupt matters, between [flush_tx_queue] taking the bus and
    starting the UART, is a parameter of that step. There is one timer;
    [tim_set_timer] replaces what it was set to. *)
From S2P Require Import Prelude Frame Util Iface Queue TxRx.

Definition JD_STATUS_RX_ACTIVE : Z := 0x01.
Definition JD_STATUS_TX_ACTIVE : Z := 0x02.
Definition JD_STATUS_TX_QUEUED : Z := 0x04.
Definition JD_MIN_MAX_SLEEP : Z := 10000.
Definition JD_WR_OVERHEAD : Z := 8.

(** The functions given to [tim_set_timer]. *)
Inductive timer_cb := CbTick | CbFlush | CbSetupRx | CbRxTimeout.

(** [jd_diagnostics_t]. *)
Record diagnostics := {
  bus_lo_error : Z;
  bus_uart_error : Z;
  bus_timeout_error : Z;
  packets_received : Z;
  packets_dropped : Z;
}.

(** The calls of the UART and their arguments. *)
Inductive uart_event :=
  | UartStartTx (bytes : list Z)
  | UartStartRx
  | UartDisable
  | UartFlushRx.

Record phys := {
  rxFrame : list Z;
  phys_status : Z;
  txFrame : option Z;               (* the offset in the send queue *)
  txPending : Z;
  jd_diagnostics : diagnostics;
  start_tx : Z;                     (* uint32_t *)
  timer : option (Z * timer_cb);    (* the delay and the function *)
  seed : Z;                         (* of jd_random *)
  ph_tx : txrx;
  uart : list uart_event;
}.

Definition set_rxFrame (st : phys) (v : list Z) : phys :=
  {| rxFrame := v; phys_status := phys_status st; txFrame := txFrame st; txPending := txPending st;
     jd_diagnostics := jd_diagnostics st; start_tx := start_tx st; timer := timer st; seed := seed st;
     ph_tx := ph_tx st; uart := uart st |}.
Definition set_status (st : phys) (v : Z) : phys :=
  {| rxFrame := rxFrame st; phys_status := v; txFrame := txFrame st; txPending := txPending st;
     jd_diagnostics := jd_diagnostics st; start_tx := start_tx st; timer := timer st; seed := seed st;
     ph_tx := ph_tx st; uart := uart st |}.
Definition set_txFrame (st : phys) (v : option Z) : phys :=
  {| rxFrame := rxFrame st; phys_status := phys_status st; txFrame := v; txPending := txPending st;
     jd_diagnostics := jd_diagnostics st; start_tx := start_tx st; timer := timer st; seed := seed st;
     ph_tx := ph_tx st; uart := uart st |}.
Definition set_txPending (st : phys) (v : Z) : phys :=
  {| rxFrame := rxFrame st; phys_status := phys_status st; txFrame := txFrame st; txPending := v;
     jd_diagnostics := jd_diagnostics st; start_tx := start_tx st; timer := timer st; seed := seed st;
     ph_tx := ph_tx st; uart := uart st |}.
Definition set_diag (st : phys) (v : diagnostics) : phys :=
  {| rxFrame := rxFrame st; phys_status := phys_status st; txFrame := txFrame st; txPending := txPending st;
     jd_diagnostics := v; start_tx := start_tx st; timer := timer st; seed := seed st;
     ph_tx := ph_tx st; uart := uart st |}.
Definition set_start_tx (st : phys) (v : Z) : phys :=
  {| rxFrame := rxFrame st; phys_status := phys_status st; txFrame := txFrame st; txPending := txPending st;
     jd_diagnostics := jd_diagnostics st; start_tx := v; timer := timer st; seed := seed st;
     ph_tx := ph_tx st; uart := uart st |}.
Definition set_seed (st : phys) (v : Z) : phys :=
  {| rxFrame := rxFrame st; phys_status := phys_status st; txFrame := txFrame st; txPending := txPending st;
     jd_diagnostics := jd_diagnostics st; start_tx := start_tx st; timer := timer st; seed := v;
     ph_tx := ph_tx st; uart := uart st |}.
Definition set_phtx (st : phys) (v : txrx) : phys :=
  {| rxFrame := rxFrame st; phys_status := phys_status st; txFrame := txFrame st; txPending := txPending st;
     jd_diagnostics := jd_diagnostics st; start_tx := start_tx st; timer := timer st; seed := seed st;
     ph_tx := v; uart := uart st |}.
Definition tim_set_timer (st : phys) (delta : Z) (cb : timer_cb) : phys :=
  {| rxFrame := rxFrame st; phys_status := phys_status st; txFrame := txFrame st; txPending := txPending st;
     jd_diagnostics := jd_diagnostics st; start_tx := start_tx st; timer := Some (delta, cb); seed := seed st;
     ph_tx := ph_tx st; uart := uart st |}.
Definition clear_timer (st : phys) : phys :=
  {| rxFrame := rxFrame st; phys_status := phys_status st; txFrame := txFrame st; txPending := txPending st;
     jd_diagnostics := jd_diagnostics st; start_tx := start_tx st; timer := None; seed := seed st;
     ph_tx := ph_tx st; uart := uart st |}.
Definition uart_do (st : phys) (e : uart_event) : phys :=
  {| rxFrame := rxFrame st; phys_status := phys_status st; txFrame := txFrame st; txPending := txPending st;
     jd_diagnostics := jd_diagnostics st; start_tx := start_tx st; timer := timer st; seed := seed st;
     ph_tx := ph_tx st; uart := uart st ++ [e] |}.

(** [jd_diagnostics.<counter>++] *)
Definition count_lo (st : phys) : phys :=
  let d := jd_diagnostics st in
  set_diag st {| bus_lo_error := u32 (bus_lo_error d + 1); bus_uart_error := bus_uart_error d;
                 bus_timeout_error := bus_timeout_error d; packets_received := packets_received d;
                 packets_dropped := packets_dropped d |}.
Definition count_uart (st : phys) : phys :=
  let d := jd_diagnostics st in
  set_diag st {| bus_lo_error := bus_lo_error d; bus_uart_error := u32 (bus_uart_error d + 1);
                 bus_timeout_error := bus_timeout_error d; packets_received := packets_received d;
                 packets_dropped := packets_dropped d |}.
Definition count_timeout (st : phys) : phys :=
  let d := jd_diagnostics st in
  set_diag st {| bus_lo_error := bus_lo_error d; bus_uart_error := bus_uart_error d;
                 bus_timeout_error := u32 (bus_timeout_error d + 1); packets_received := packets_received d;
                 packets_dropped := packets_dropped d |}.
Definition count_received (st : phys) : phys :=
  let d := jd_diagnostics st in
  set_diag st {| bus_lo_error := bus_lo_error d; bus_uart_error := bus_uart_error d;
                 bus_timeout_error := bus_timeout_error d; packets_received := u32 (packets_received d + 1);
                 packets_dropped := packets_dropped d |}.
Definition count_dropped (st : phys) : phys :=
  let d := jd_diagnostics st in
  set_diag st {| bus_lo_error := bus_lo_error d; bus_uart_error := bus_uart_error d;
                 bus_timeout_error := bus_timeout_error d; packets_received := packets_received d;
                 packets_dropped := u32 (packets_dropped d + 1) |}.

(** [phys_status & flag]. *)
Definition in_status (st : phys) (flag : Z) : bool := has_flag (phys_status st) flag.

(** ** The timer *)

Definition set_tick_timer (st : phys) (statusClear : Z) : phys :=
  let st := if negb (statusClear =? 0) then set_status st (Z.ldiff (phys_status st) statusClear) else st in
  if negb (in_status st JD_STATUS_RX_ACTIVE) then
    if negb (txPending st =? 0) && negb (in_status st JD_STATUS_TX_ACTIVE) then
      let st := set_status st (Z.lor (phys_status st) JD_STATUS_TX_QUEUED) in
      let '(r, s) := jd_random_around (seed st) 150 in
      tim_set_timer (set_seed st s) (r - JD_WR_OVERHEAD) CbFlush
    else
      tim_set_timer (set_status st (Z.ldiff (phys_status st) JD_STATUS_TX_QUEUED)) JD_MIN_MAX_SLEEP CbTick
  else st.

Definition tx_done (st : phys) : phys := set_tick_timer st JD_STATUS_TX_ACTIVE.

Definition jd_packet_ready (st : phys) : phys :=
  let st := set_txPending st 1 in
  if phys_status st =? 0 then set_tick_timer st 0 else st.

Definition _jd_phys_start (st : phys) : phys := set_tick_timer st 0.

Definition jd_is_busy (st : phys) : bool := negb (phys_status st =? 0).

Section Phys.
(** [jd_device_id()] *)
Context (self : Z).

(** The calls of [jd_packet_ready] that the queue made, last since [old]. *)
Definition run_ready (old : txrx) (st : phys) : phys :=
  if existsb (fun e => match e with EvPacketReady => true | _ => false end)
       (drop (length (tr_trace old)) (tr_trace (ph_tx st)))
  then jd_packet_ready st else st.

(** [jd_send_frame] of the application. *)
Definition phys_send_frame (st : phys) (f : list Z) : outcome (Z * phys) :=
  '(r, _, tx) ← jd_send_frame self (ph_tx st) f;
  Ret (r, run_ready (ph_tx st) (set_phtx st tx)).

Definition jd_tx_completed (st : phys) : outcome phys :=
  tx ← jd_tx_frame_sent (ph_tx st);
  let st := run_ready (ph_tx st) (set_phtx st tx) in
  Ret (tx_done (set_txFrame st None)).

(** [micros] is [tim_get_micros()]. *)
Definition tick (st : phys) (micros : Z) : outcome phys :=
  if in_status st JD_STATUS_TX_ACTIVE && (u32 (micros - start_tx st) >? 0x20000) then Panic
  else Ret (set_tick_timer st 0).

(** ** Reception *)

Definition rx_timeout (st : phys) : phys :=
  set_tick_timer (uart_do (count_timeout st) UartDisable) JD_STATUS_RX_ACTIVE.

Definition setup_rx_timeout (st : phys) : phys :=
  if in_status st JD_STATUS_RX_ACTIVE then
    let st := uart_do st UartFlushRx in
    if (get32 (rxFrame st) 0 =? 0) && (get32 (rxFrame st) 4 =? 0) then rx_timeout st
    else tim_set_timer st (JD_FRAME_SIZE (rxFrame st) * 12 + 60) CbRxTimeout
  else set_tick_timer st 0.

Definition jd_rx_completed (st : phys) (dataLeft : Z) : outcome phys :=
  let frame := rxFrame st in
  let st := set_tick_timer st JD_STATUS_RX_ACTIVE in
  if f_size frame =? 0 then Ret st
  else if dataLeft <? 0 then Ret (count_uart st)
  else
    let txSize := u32 (sizeof_frame - dataLeft) in
    let declaredSize := JD_FRAME_SIZE frame in
    if txSize <? declaredSize then Ret (count_uart st)
    else if negb (jd_crc16 (mread frame 2 (declaredSize - 2)) =? f_crc frame) then Ret (count_uart st)
    else if (declaredSize >? JD_SERIAL_PAYLOAD_SIZE + JD_SERIAL_FULL_HEADER_SIZE)
            || (p_service_size frame >? JD_SERIAL_PAYLOAD_SIZE) then Ret (count_uart st)
    else if has_flag (f_flags frame) JD_FRAME_FLAG_VNEXT then Ret (count_dropped st)
    else
      let st := count_received st in
      '(err, frame, tx) ← jd_rx_frame_received self (ph_tx st) frame;
      let st := run_ready (ph_tx st) (set_rxFrame (set_phtx st tx) frame) in
      Ret (if negb (err =? 0) then count_dropped st else st).

(** What happens while [jd_line_falling] runs: whether the line went high in
    time, and a reception so short that it completes before [uart_start_rx]
    returns - the bytes and the argument of [jd_rx_completed]. *)
Record line_input := { li_high : bool; li_quick : option (list Z * Z) }.

Definition jd_line_falling (st : phys) (li : line_input) : outcome phys :=
  if in_status st JD_STATUS_RX_ACTIVE then Panic
  else
    let st := set_status st (Z.lor (phys_status st) JD_STATUS_RX_ACTIVE) in
    let st := set_rxFrame st (mwrite (rxFrame st) 0 (replicate 16 0)) in
    if negb (li_high li) then Ret (rx_timeout st)
    else
      let st := uart_do st UartStartRx in
      st ← match li_quick li with
           | Some (bytes, dataLeft) => jd_rx_completed (set_rxFrame st (mwrite (rxFrame st) 0 bytes)) dataLeft
           | None => Ret st
           end;
      if in_status st JD_STATUS_RX_ACTIVE then Ret (tim_set_timer st 250 CbSetupRx) else Ret st.

(** ** Transmission *)

(** An interrupt between taking the bus and starting the UART. *)
Definition run_race (st : phys) (race : option line_input) : outcome phys :=
  match race with Some li => jd_line_falling st li | None => Ret st end.

(** [if (!txFrame) txFrame = jd_tx_get_frame();] *)
Definition next_frame (st : phys) : outcome (option Z * phys) :=
  match txFrame st with
  | Some f => Ret (Some f, st)
  | None => '(f, tx) ← jd_tx_get_frame (ph_tx st); Ret (f, set_txFrame (set_phtx st tx) f)
  end.

(** [race] is a falling line in the moment after [phys_status] is set and
    interrupts are on again; [uart_ok] that [uart_start_tx] takes the frame. *)
Definition flush_tx_queue (st : phys) (micros : Z) (uart_ok : bool) (race : option line_input)
    : outcome phys :=
  if has_flag (phys_status st) (Z.lor JD_STATUS_RX_ACTIVE JD_STATUS_TX_ACTIVE) then Ret st
  else
    let st := set_status st (Z.lor (phys_status st) JD_STATUS_TX_ACTIVE) in
    st ← run_race st race;
    let st := set_txPending st 0 in
    '(f, st) ← next_frame st;
    match f with
    | None => Ret (tx_done st)
    | Some f =>
        let st := set_start_tx st (u32 micros) in
        let frame := drop (Z.to_nat f) (q_data (send_queue (ph_tx st))) in
        if negb uart_ok then Ret (set_txPending (tx_done (count_lo st)) 1)
        else Ret (set_tick_timer (uart_do st (UartStartTx (mread frame 0 (JD_FRAME_SIZE frame)))) 0)
    end.

(** ** The driver as a machine *)

Inductive phys_event :=
  | PhLineFalling (li : line_input)
  | PhRxBytes (bytes : list Z)      (* the UART wrote into rxFrame *)
  | PhRxCompleted (dataLeft : Z)
  | PhTimer (micros : Z) (uart_ok : bool) (race : option line_input)
  | PhTxCompleted
  | PhSendFrame (f : list Z).

Definition phys_step (st : phys) (ev : phys_event) : outcome phys :=
  match ev with
  | PhLineFalling li => jd_line_falling st li
  | PhRxBytes bytes => Ret (set_rxFrame st (mwrite (rxFrame st) 0 bytes))
  | PhRxCompleted dataLeft => jd_rx_completed st dataLeft
  | PhTimer micros uart_ok race =>
      match timer st with
      | None => Ret st
      | Some (_, cb) =>
          let st := clear_timer st in
          match cb with
          | CbTick => tick st micros
          | CbFlush => flush_tx_queue st micros uart_ok race
          | CbSetupRx => Ret (setup_rx_timeout st)
          | CbRxTimeout => Ret (rx_timeout st)
          end
      end
  | PhTxCompleted => jd_tx_completed st
  | PhSendFrame f => '(_, st) ← phys_send_frame st f; Ret st
  end.
End Phys.

(** ** Invariant

    [es] are the queued frames. At the end of every step the status is one of
    five values, and the timer is always set, to a function that fits it. *)

Inductive ctl_ok (st : phys) : Prop :=
  | ctl_idle d : phys_status st = 0 -> timer st = Some (d, CbTick) -> ctl_ok st
  | ctl_queued d : phys_status st = 4 -> timer st = Some (d, CbFlush) -> txPending st <> 0 -> ctl_ok st
  | ctl_rx d cb : phys_status st = 1 \/ phys_status st = 5 -> timer st = Some (d, cb) ->
      cb = CbSetupRx \/ cb = CbRxTimeout -> ctl_ok st
  | ctl_tx d : phys_status st = 2 -> timer st = Some (d, CbTick) -> txFrame st <> None -> ctl_ok st.

Record data_ok (st : phys) (es : list (list Z)) : Prop := {
  do_queues : tx_queues (ph_tx st) es;
  do_sending : q_sending (ph_tx st) = match txFrame st with Some _ => true | None => false end;
  do_front : forall f, txFrame st = Some f -> jd_queue_front (send_queue (ph_tx st)) = Some f;
  do_rxFrame : frame_ok (rxFrame st);
}.

Record phys_inv (st : phys) (es : list (list Z)) : Prop := {
  pi_ctl : ctl_ok st;
  pi_data : data_ok st es;
  (** No frame is forgotten: one is on the wire, or a transmission is pending. *)
  pi_wake : es <> [] -> phys_status st = 2 \/ txPending st <> 0;
}.

(** What [set_tick_timer] leaves alone. *)
Record same_data (st st' : phys) : Prop := {
  sd_rxFrame : rxFrame st' = rxFrame st;
  sd_txFrame : txFrame st' = txFrame st;
  sd_tx : ph_tx st' = ph_tx st;
  sd_pending : txPending st' = txPending st;
}.

Lemma data_ok_same st st' es : same_data st st' -> data_ok st es -> data_ok st' es.
Proof. intros [E1 E2 E3 _] []. constructor; rewrite ?E1, ?E2, ?E3; done. Qed.

Lemma same_data_refl st : same_data st st.
Proof. done. Qed.
Lemma same_data_trans st1 st2 st3 : same_data st1 st2 -> same_data st2 st3 -> same_data st1 st3.
Proof. intros [] []. constructor; congruence. Qed.
#[local] Hint Resolve same_data_refl : core.

(** [set_tick_timer], by the status after clearing. *)
Lemma set_tick_timer_spec st c s :
  (if c =? 0 then phys_status st else Z.ldiff (phys_status st) c) = s ->
  let st' := set_tick_timer st c in
  same_data st st' /\ uart st' = uart st /\
  ((s = 1 \/ s = 5 -> phys_status st' = s /\ timer st' = timer st) /\
   (s = 2 \/ s = 6 -> phys_status st' = 2 /\ exists d, timer st' = Some (d, CbTick)) /\
   (s = 0 \/ s = 4 ->
      if txPending st =? 0 then phys_status st' = 0 /\ exists d, timer st' = Some (d, CbTick)
      else phys_status st' = 4 /\ exists d, timer st' = Some (d, CbFlush))).
Proof.
  intros Es. unfold set_tick_timer.
  set (st1 := if negb (c =? 0) then _ else st).
  assert (phys_status st1 = s /\ same_data st st1 /\ uart st1 = uart st /\ timer st1 = timer st)
    as (E1 & Hd & Hu & Ht).
  { unfold st1. rewrite <- Es. by destruct (c =? 0). }
  clearbody st1. assert (txPending st1 = txPending st) as Ep by apply Hd. unfold in_status. rewrite E1, <- Ep.
  split_and!.
  - repeat case_match; try (eapply same_data_trans; [exact Hd|]); done.
  - rewrite <- Hu. repeat case_match; done.
  - intros [->| ->]; cbn; auto.
  - intros [->| ->]; cbn; rewrite andb_false_r; cbn; rewrite ?E1; eauto.
  - intros [->| ->]; cbn; rewrite andb_true_r; destruct (txPending st1 =? 0); cbn; rewrite ?E1; eauto;
      destruct (jd_random_around (seed st1) 150); cbn; rewrite ?E1; eauto.
Qed.

(** With the line free the timer is set for what is pending. *)
Lemma set_tick_idle st c es :
  (if c =? 0 then phys_status st else Z.ldiff (phys_status st) c) = 0 \/
  (if c =? 0 then phys_status st else Z.ldiff (phys_status st) c) = 4 ->
  data_ok st es -> (es <> [] -> txPending st <> 0) -> phys_inv (set_tick_timer st c) es.
Proof.
  intros Hs Hd Hw. destruct (set_tick_timer_spec st c _ eq_refl) as (Hsame & _ & _ & _ & Hidle).
  specialize (Hidle Hs). pose proof Hsame as [_ _ _ Hp]. destruct (Z.eqb_spec (txPending st) 0) as [E|E].
  - destruct Hidle as (E1 & d & E2). constructor; [by eapply ctl_idle|by eapply data_ok_same|].
    intros Hne. by specialize (Hw Hne).
  - destruct Hidle as (E1 & d & E2).
    constructor; [eapply ctl_queued; [done..|by rewrite Hp]|by eapply data_ok_same|right; by rewrite Hp].
Qed.

(** With a frame on the wire. *)
Lemma set_tick_tx st c es :
  (if c =? 0 then phys_status st else Z.ldiff (phys_status st) c) = 2 \/
  (if c =? 0 then phys_status st else Z.ldiff (phys_status st) c) = 6 ->
  data_ok st es -> txFrame st <> None -> phys_inv (set_tick_timer st c) es.
Proof.
  intros Hs Hd Hf. destruct (set_tick_timer_spec st c _ eq_refl) as (Hsame & _ & _ & Htx & _).
  destruct (Htx Hs) as (E1 & d & E2). constructor; [|by eapply data_ok_same|by left].
  eapply ctl_tx; [done..|]. by destruct Hsame as [_ -> _ _].
Qed.

(** The part of the state that the control invariant is about. *)
Definition ctl (st : phys) : Z * option (Z * timer_cb) * Z * option Z :=
  (phys_status st, timer st, txPending st, txFrame st).

Lemma phys_inv_ext st st' es : ctl st' = ctl st -> data_ok st' es -> phys_inv st es -> phys_inv st' es.
Proof.
  unfold ctl. intros [= E1 E2 E3 E4] Hd [Hc _ Hw]. constructor; [|done|by rewrite E1, E3].
  destruct Hc; [eapply ctl_idle|eapply ctl_queued|eapply ctl_rx|eapply ctl_tx]; rewrite ?E1, ?E2, ?E3, ?E4; eauto.
Qed.

Lemma frame_ok_rxFrame st es : data_ok st es -> 0 <= f_size (rxFrame st) < 256.
Proof. intros []. by apply f_size_range. Qed.

Section PhysProofs.
Context (self : Z).

Lemma rx_received_trace tx frame r f' tx' :
  jd_rx_frame_received self tx frame = Ret (r, f', tx') ->
  tr_trace tx' = tr_trace tx ++ [EvBridge frame] \/ tr_trace tx' = tr_trace tx ++ [EvBridge frame; EvWakeMain].
Proof using.
  unfold jd_rx_frame_received, jd_rx_frame_received_core. cbn [negb].
  destruct (jd_services_needs_frame self frame); cbn [negb].
  - destruct (jd_queue_push _ _) as [[r1 q1]| |]; obind; [|done..]. intros [= <- <- <-]. right. cbn.
    by rewrite <- app_assoc.
  - intros [= <- <- <-]. by left.
Qed.

Lemma run_ready_rx tx st t :
  tr_trace (ph_tx st) = tr_trace tx ++ t -> Forall (fun e => e <> EvPacketReady) t -> run_ready tx st = st.
Proof using.
  intros E Ht. unfold run_ready. rewrite E, drop_app_length.
  destruct (existsb _ t) eqn:Ex; [|done]. apply existsb_exists in Ex as (e & Hin & He).
  rewrite List.Forall_forall in Ht. specialize (Ht e Hin). by destruct e.
Qed.

(** A reception ends. *)
Lemma rx_completed_ok st es dataLeft :
  data_ok st es -> dataLeft <= 252 ->
  exists st', jd_rx_completed self st dataLeft = Ret st' /\ data_ok st' es /\
    ctl st' = ctl (set_tick_timer st JD_STATUS_RX_ACTIVE) /\ uart st' = uart st.
Proof using.
  intros Hd Hdl. unfold jd_rx_completed. pose proof (frame_ok_rxFrame _ _ Hd) as Hsz.
  destruct (set_tick_timer_spec st JD_STATUS_RX_ACTIVE _ eq_refl) as (Hsame & Hu & _).
  pose proof (data_ok_same _ _ _ Hsame Hd) as Hd1. pose proof Hsame as [Hrx _ _ _].
  set (st1 := set_tick_timer st JD_STATUS_RX_ACTIVE) in *.
  assert (forall st2, same_data st1 st2 -> ctl st2 = ctl st1 -> uart st2 = uart st1 ->
            exists st', Ret st2 = Ret st' /\ data_ok st' es /\ ctl st' = ctl st1 /\ uart st' = uart st) as Hret.
  { intros st2 H1 H2 H3. exists st2. split; [done|]. split; [by eapply data_ok_same|]. split; congruence. }
  repeat (match goal with |- context [if ?b then Ret _ else _] => destruct b eqn:? end;
          [apply Hret; done|]).
  bool_to_prop. rewrite Z.gtb_ltb in *. unfold JD_FRAME_SIZE, JD_SERIAL_PAYLOAD_SIZE, JD_SERIAL_FULL_HEADER_SIZE in *.
  bool_to_prop. rewrite <- Hrx in *.
  destruct Hd1 as [Hq Hs Hf Hr]. change (ph_tx (count_received st1)) with (ph_tx st1).
  destruct (rx_core_ok self (ph_tx st1) (rxFrame st1) false es Hq Hr ltac:(lia))
    as (err & f' & tx' & E & Hf' & Hq' & _ & Hs' & Hsq & _).
  unfold jd_rx_frame_received. rewrite E. obind.
  rewrite (run_ready_rx (ph_tx st1) _ (drop (length (tr_trace (ph_tx st1))) (tr_trace tx'))).
  - destruct (negb (err =? 0)); (eexists; split; [reflexivity|]; split; [|done]);
      constructor; cbn; rewrite ?Hs', ?Hsq; done.
  - destruct (rx_received_trace _ _ _ _ _ E) as [Et|Et]; cbn; rewrite Et, drop_app_length; done.
  - destruct (rx_received_trace _ _ _ _ _ E) as [Et|Et]; rewrite Et, drop_app_length; by repeat constructor.
Qed.

Definition line_input_ok (li : line_input) : Prop :=
  match li_quick li with
  | Some (bytes, dataLeft) => Forall is_byte bytes /\ zlen bytes <= 252 /\ dataLeft <= 252
  | None => True
  end.

Lemma data_ok_rxFrame st es f : data_ok st es -> frame_ok f -> data_ok (set_rxFrame st f) es.
Proof using. intros [] ?. by constructor. Qed.

Lemma data_ok_status st es v : data_ok st es -> data_ok (set_status st v) es.
Proof using. intros []. by constructor. Qed.

(** The line falls: either the reception is over at once, or it is under way. *)
Lemma line_falling_ok st es li s :
  data_ok st es -> line_input_ok li -> phys_status st = s -> s = 0 \/ s = 4 \/ s = 6 ->
  exists st', jd_line_falling self st li = Ret st' /\ data_ok st' es /\ txPending st' = txPending st /\
    txFrame st' = txFrame st /\ uart st' = uart st ++ (if li_high li then [UartStartRx] else [UartDisable]) /\
    ((exists st1, phys_status st1 = Z.lor s 1 /\ data_ok st1 es /\ txPending st1 = txPending st /\
        txFrame st1 = txFrame st /\ ctl st' = ctl (set_tick_timer st1 JD_STATUS_RX_ACTIVE)) \/
     (phys_status st' = Z.lor s 1 /\ timer st' = Some (250, CbSetupRx))).
Proof using.
  intros Hd Hli Es Hs. unfold jd_line_falling, in_status. rewrite Es.
  assert (has_flag s JD_STATUS_RX_ACTIVE = false) as -> by by destruct Hs as [->|[->| ->]].
  set (st1 := set_rxFrame _ _).
  assert (data_ok st1 es) as Hd1.
  { apply data_ok_rxFrame; [by apply data_ok_status|]. destruct Hd as [_ _ _ Hr].
    apply frame_ok_mwrite; [done|lia|vm_compute; discriminate|by repeat constructor]. }
  assert (phys_status st1 = Z.lor s 1) as E1 by (unfold st1; cbn; by rewrite ?Es).
  assert (txPending st1 = txPending st /\ txFrame st1 = txFrame st /\ uart st1 = uart st) as (Hp & Hf & Hu) by done.
  clearbody st1. destruct (li_high li); cbn [negb].
  2:{ unfold rx_timeout. set (st2 := uart_do (count_timeout st1) UartDisable).
      destruct (set_tick_timer_spec st2 JD_STATUS_RX_ACTIVE _ eq_refl) as (Hsame & Hu2 & _).
      assert (data_ok st2 es) as Hd2 by (destruct Hd1; by constructor).
      eexists. split; [reflexivity|]. split; [by eapply data_ok_same|]. pose proof Hsame as [_ E2 _ E3].
      rewrite E2, E3, Hu2. split_and!; try done; [cbn; by rewrite Hu|]. left. by exists st2. }
  set (st2 := uart_do st1 UartStartRx).
  assert (data_ok st2 es) as Hd2 by (destruct Hd1; by constructor).
  assert (uart st2 = uart st ++ [UartStartRx]) as Hu2 by (cbn; by rewrite Hu).
  unfold line_input_ok in Hli. destruct (li_quick li) as [[bytes dl]|].
  - destruct Hli as (Hb & Hl & Hdl). set (st3 := set_rxFrame st2 _).
    assert (data_ok st3 es) as Hd3.
    { apply data_ok_rxFrame; [done|]. destruct Hd2 as [_ _ _ Hr]. apply frame_ok_mwrite; done || unfold sizeof_frame; lia. }
    destruct (rx_completed_ok st3 es dl Hd3 Hdl) as (st' & -> & Hd' & Hctl & Hu'). obind.
    destruct (set_tick_timer_spec st3 JD_STATUS_RX_ACTIVE _ eq_refl) as (Hsame & _ & _ & Htx & Hid).
    pose proof Hsame as [_ F2 _ F3]. pose proof Hctl as Hctl'. unfold ctl in Hctl'. injection Hctl' as C1 C2 C3 C4.
    assert (has_flag (phys_status st') JD_STATUS_RX_ACTIVE = false) as ->.
    { rewrite C1. cbn [st3 phys_status set_rxFrame uart_do] in Htx, Hid. cbn in Htx, Hid. rewrite E1 in Htx, Hid.
      destruct Hs as [->|[->| ->]]; cbn in Htx, Hid;
        [destruct (_ =? 0) in Hid; destruct Hid as [-> _]; auto..|destruct Htx as [-> _]; auto]. }
    exists st'. split; [done|]. split; [done|]. rewrite C3, C4, F2, F3, Hu'.
    split_and!; try done. left. by exists st3.
  - obind. assert (has_flag (phys_status st2) JD_STATUS_RX_ACTIVE = true) as ->
      by (cbn; rewrite E1; by destruct Hs as [->|[->| ->]]).
    eexists. split; [reflexivity|]. split; [destruct Hd2; by constructor|]. split_and!; try done.
    right. by split.
Qed.

(** In the moment of taking the bus. *)
Lemma race_ok st es race :
  data_ok st es -> phys_status st = 6 -> match race with Some li => line_input_ok li | None => True end ->
  exists st' ts, run_race self st race = Ret st' /\
    data_ok st' es /\ txPending st' = txPending st /\ txFrame st' = txFrame st /\ uart st' = uart st ++ ts /\
    (race = None -> ts = []) /\
    (phys_status st' = 2 \/ phys_status st' = 6 \/ (phys_status st' = 7 /\ timer st' = Some (250, CbSetupRx))).
Proof using.
  intros Hd Es Hr. destruct race as [li|].
  - destruct (line_falling_ok st es li 6 Hd Hr Es ltac:(auto)) as (st' & E & Hd' & Hp & Hf & Hu & Hc).
    exists st'. eexists. split; [exact E|]. split_and!; try done. destruct Hc as [(st1 & E1 & _ & _ & _ & Hctl)|[E1 E2]]; [left|auto].
    destruct (set_tick_timer_spec st1 JD_STATUS_RX_ACTIVE _ eq_refl) as (_ & _ & _ & Htx & _).
    rewrite E1 in Htx. cbn in Htx. unfold ctl in Hctl. injection Hctl as -> _ _ _. by destruct Htx as [-> _]; auto.
  - exists st, []. rewrite app_nil_r. split_and!; auto.
Qed.

(** What is assumed of the board, whose UART and timer call the handlers: a
    reception starts only when neither a reception nor a transmission is under
    way, the UART reports the end of what is under way, the timer is late but
    not by 130 ms, and [uart_start_tx] refuses while a reception is under way.
    Two of these are exactly what the code tests with [JD_PANIC]: a second
    falling edge during a reception in [jd_line_falling], and a transmission
    that has not ended after 130 ms in [tick]. A board that breaks them panics;
    the theorems are about the calls of a board that keeps them. *)
Definition phys_enabled (st : phys) (ev : phys_event) : Prop :=
  match ev with
  | PhLineFalling li =>
      in_status st JD_STATUS_RX_ACTIVE = false /\ in_status st JD_STATUS_TX_ACTIVE = false /\ line_input_ok li
  | PhRxBytes bytes => in_status st JD_STATUS_RX_ACTIVE = true /\ Forall is_byte bytes /\ zlen bytes <= 252
  | PhRxCompleted dataLeft => in_status st JD_STATUS_RX_ACTIVE = true /\ dataLeft <= 252
  | PhTimer micros uart_ok race =>
      (in_status st JD_STATUS_TX_ACTIVE = true -> u32 (micros - start_tx st) <= 0x20000) /\
      match race with
      | Some li => line_input_ok li /\
          forall st', jd_line_falling self (set_status (clear_timer st) (Z.lor (phys_status st) JD_STATUS_TX_ACTIVE)) li = Ret st' ->
            in_status st' JD_STATUS_RX_ACTIVE = true -> uart_ok = false
      | None => True
      end
  | PhTxCompleted => in_status st JD_STATUS_TX_ACTIVE = true
  | PhSendFrame f => frame_ok f /\ 0 < f_size f <= 236
  end.

Lemma inv_line_falling st es li :
  phys_inv st es -> phys_enabled st (PhLineFalling li) ->
  exists st', jd_line_falling self st li = Ret st' /\ phys_inv st' es.
Proof using.
  intros [Hc Hd Hw] (Hrx & Htx & Hli).
  assert (phys_status st = 0 \/ phys_status st = 4) as Hs.
  { destruct Hc as [d E|d E|d cb [E|E]|d E]; auto; unfold in_status in *; by rewrite E in *. }
  assert (es <> [] -> txPending st <> 0) as Hw'.
  { intros Hne. destruct (Hw Hne) as [E|]; [|done]. rewrite E in Hs. by destruct Hs. }
  destruct (line_falling_ok st es li _ Hd Hli eq_refl ltac:(destruct Hs; auto))
    as (st' & E & Hd' & Hp & Hf & _ & [(st1 & E1 & Hd1 & Hp1 & Hf1 & Hctl)|[E1 E2]]); exists st'; split; try done.
  - eapply phys_inv_ext; [exact Hctl|done|]. apply set_tick_idle; [|done|by rewrite Hp1].
    rewrite E1. destruct Hs as [-> | ->]; auto.
  - constructor; [|done|rewrite Hp; auto]. eapply ctl_rx; [|exact E2|auto].
    rewrite E1. destruct Hs as [-> | ->]; auto.
Qed.

Lemma inv_rx st es (Hi : phys_inv st es) :
  in_status st JD_STATUS_RX_ACTIVE = true ->
  (phys_status st = 1 \/ phys_status st = 5) /\ (es <> [] -> txPending st <> 0).
Proof using.
  intros Hrx. destruct Hi as [Hc Hd Hw]. assert (phys_status st = 1 \/ phys_status st = 5) as Hs.
  { unfold in_status in Hrx. by destruct Hc as [d E|d E|d cb E|d E]; rewrite ?E in Hrx. }
  split; [done|]. intros Hne. destruct (Hw Hne) as [E|]; [|done]. rewrite E in Hs. by destruct Hs.
Qed.

Lemma inv_rx_completed st es dataLeft :
  phys_inv st es -> phys_enabled st (PhRxCompleted dataLeft) ->
  exists st', jd_rx_completed self st dataLeft = Ret st' /\ phys_inv st' es.
Proof using.
  intros Hi (Hrx & Hdl). destruct (inv_rx _ _ Hi Hrx) as [Hs Hw].
  destruct (rx_completed_ok st es dataLeft (pi_data _ _ Hi) Hdl) as (st' & E & Hd' & Hctl & _).
  exists st'. split; [done|]. eapply phys_inv_ext; [exact Hctl|done|].
  apply set_tick_idle; [|apply Hi|done]. destruct Hs as [-> | ->]; auto.
Qed.

Lemma inv_rx_timeout st es :
  data_ok st es -> phys_status st = 1 \/ phys_status st = 5 -> (es <> [] -> txPending st <> 0) ->
  phys_inv (rx_timeout st) es.
Proof using.
  intros Hd Hs Hw. unfold rx_timeout. apply set_tick_idle; [|destruct Hd; by constructor|done].
  cbn. destruct Hs as [-> | ->]; auto.
Qed.

(** A transmission is given up or there is nothing to send. *)
Lemma inv_tx_done st es :
  data_ok st es -> (phys_status st = 2 \/ phys_status st = 6 \/ (phys_status st = 7 /\ timer st = Some (250, CbSetupRx))) ->
  ctl_ok (tx_done st) /\ same_data st (tx_done st) /\ phys_status (tx_done st) <> 2.
Proof using.
  intros Hd Hs. unfold tx_done. destruct (set_tick_timer_spec st JD_STATUS_TX_ACTIVE _ eq_refl) as (Hsame & _ & Hrx & _ & Hid).
  pose proof Hsame as [_ _ _ Hp].
  destruct Hs as [E|[E|[E Et]]]; rewrite E in Hrx, Hid; cbn in Hrx, Hid.
  1,2: specialize (Hid ltac:(auto)); destruct (Z.eqb_spec (txPending st) 0); destruct Hid as (E1 & d & E2);
    (split; [|split; [done|rewrite E1; done]]); [by eapply ctl_idle|eapply ctl_queued; [done..|by rewrite Hp]].
  destruct (Hrx ltac:(auto)) as [E1 E2]. split; [|split; [done|rewrite E1; done]].
  eapply ctl_rx; [auto|by rewrite E2|auto].
Qed.

(** The frame to send: the one kept from a failed attempt, or the next of the
    queue. *)
Lemma fetch_ok st es :
  data_ok st es ->
  exists f st',
    next_frame st = Ret (f, st') /\
    data_ok st' es /\ txFrame st' = f /\ phys_status st' = phys_status st /\ timer st' = timer st /\
    txPending st' = txPending st /\ uart st' = uart st /\
    match f with
    | None => es = []
    | Some f => exists e es', es = e :: es' /\ q_frame_at (send_queue (ph_tx st')) f = e
    end.
Proof using.
  intros Hd. pose proof Hd as [Hq Hs Hf Hr].
  assert (forall f, jd_queue_front (send_queue (ph_tx st)) = Some f ->
            exists e es', es = e :: es' /\ q_frame_at (send_queue (ph_tx st)) f = e) as Hfront.
  { intros f Ef. destruct es as [|e es]; [rewrite q_front_none in Ef by apply Hq; done|].
    destruct (q_front_shift _ _ _ (tq_send _ _ Hq)) as (off & q' & E & Ee & _).
    exists e, es. split; [done|]. congruence. }
  unfold next_frame. destruct (txFrame st) as [f|] eqn:E.
  - exists (Some f), st. split_and!; auto.
  - unfold jd_tx_get_frame. rewrite Hs. cbn [negb].
    destruct (jd_queue_front (send_queue (ph_tx st))) as [f|] eqn:Ef; obind.
    + exists (Some f). eexists. split; [reflexivity|].
      split; [constructor; cbn; [by destruct Hq|done|congruence|done]|]. split_and!; try done. by apply Hfront.
    + exists None. eexists. split; [reflexivity|].
      split; [constructor; cbn; done|]. split_and!; try done.
      destruct es as [|e es]; [done|]. destruct (q_front_shift _ _ _ (tq_send _ _ Hq)) as (off & q' & E' & _). congruence.
Qed.

(** The bytes given to the UART. *)
Lemma frame_at_bytes q off e :
  0 <= off -> q_frame_at q off = e -> entry_ok e -> q_wf q ->
  mread (drop (Z.to_nat off) (q_data q)) 0 (JD_FRAME_SIZE (drop (Z.to_nat off) (q_data q))) =
  mread e 0 (JD_FRAME_SIZE e).
Proof using.
  intros Ho <- He Hwf. unfold q_frame_at in *. set (m := drop (Z.to_nat off) (q_data q)) in *.
  assert (mread (q_data q) off (FRM_SIZE m) = mread m 0 (FRM_SIZE m)) as E by done. rewrite E in *.
  destruct He as [H1 H2]. destruct (decide (3 <= FRM_SIZE m)).
  - assert (JD_FRAME_SIZE (mread m 0 (FRM_SIZE m)) = JD_FRAME_SIZE m) as ->
      by (unfold JD_FRAME_SIZE; by rewrite f_size_mread).
    unfold FRM_SIZE in *. pose proof (align4_bounds (JD_FRAME_SIZE m)).
    destruct (decide (0 <= JD_FRAME_SIZE m)); [by rewrite mread_mread by lia|].
    unfold mread. rewrite !(Z2Nat.nonpos (JD_FRAME_SIZE m)) by lia. done.
  - pose proof (length_mread_le m 0 (FRM_SIZE m)). unfold zlen in *. lia.
Qed.

Lemma seg_entries m es : forall off stop, seg m off es stop -> Forall entry_ok es.
Proof using. induction es as [|e es IH]; intros off stop Hs; [done|]. destruct Hs as (_ & He & Hs). eauto. Qed.

Lemma q_repr_entries q es : q_repr q es -> Forall entry_ok es.
Proof using.
  intros [_ Hs]. destruct Hs as [es _ _ Hs|es1 es2 _ _ Hs1 Hs2]; [by eapply seg_entries|].
  apply Forall_app; split; by eapply seg_entries.
Qed.

Lemma front_nonneg q f : q_wf q -> jd_queue_front q = Some f -> 0 <= f.
Proof using. intros [] . unfold jd_queue_front. repeat case_match; intros [= <-]; lia. Qed.

Lemma inv_flush st es d micros uart_ok race :
  phys_inv st es -> phys_status st = 4 -> timer st = Some (d, CbFlush) ->
  phys_enabled st (PhTimer micros uart_ok race) ->
  exists st', flush_tx_queue self (clear_timer st) micros uart_ok race = Ret st' /\ phys_inv st' es /\
    (race = None -> uart_ok = true -> forall e es', es = e :: es' ->
       phys_status st' = 2 /\ uart st' = uart st ++ [UartStartTx (mread e 0 (JD_FRAME_SIZE e))]).
Proof using.
  intros [Hc Hd Hw] Es Et [_ Hrace]. unfold flush_tx_queue. cbn [phys_status clear_timer].
  rewrite Es in *. change (has_flag 4 _) with false. change (Z.lor 4 JD_STATUS_TX_ACTIVE) with 6 in *.
  set (st1 := set_status (clear_timer st) 6) in *.
  assert (data_ok st1 es) as Hd1 by (destruct Hd; by constructor).
  destruct (race_ok st1 es race Hd1 eq_refl) as (st2 & ts & E2 & Hd2 & Hp2 & Hf2 & Hu2 & Hts & Hs2);
    [destruct race; [apply Hrace|done]|].
  rewrite E2. obind. set (st3 := set_txPending st2 0).
  assert (data_ok st3 es) as Hd3 by (destruct Hd2; by constructor).
  destruct (fetch_ok st3 es Hd3) as (f & st4 & -> & Hd4 & Hf4 & Hs4 & Ht4 & Hp4 & Hu4 & Hes). obind.
  assert (phys_status st4 = 2 \/ phys_status st4 = 6 \/ (phys_status st4 = 7 /\ timer st4 = Some (250, CbSetupRx))) as Hst4.
  { rewrite Hs4, Ht4. exact Hs2. }
  destruct f as [f|].
  2:{ destruct (inv_tx_done st4 es Hd4 Hst4) as (Hctl & Hsame & _). eexists. split; [reflexivity|]. split.
      - constructor; [done|by eapply data_ok_same|by subst es].
      - intros _ _ e es' ->. done. }
  destruct Hes as (e & es' & Ees & Hat). destruct uart_ok; cbn [negb].
  - assert (phys_status st4 = 2 \/ phys_status st4 = 6) as Hst.
    { destruct Hst4 as [|[|[E7 _]]]; auto. exfalso. destruct race as [li|].
      - destruct Hrace as [_ Hrace]. specialize (Hrace _ E2). unfold in_status in Hrace.
        change (phys_status st3) with (phys_status st2) in Hs4. rewrite <- Hs4, E7 in Hrace. by specialize (Hrace eq_refl).
      - injection E2 as <-. rewrite Hs4 in E7. done. }
    set (st5 := uart_do _ _). assert (data_ok st5 es) as Hd5 by (destruct Hd4; by constructor).
    eexists. split; [reflexivity|]. split.
    + apply set_tick_tx; [exact Hst|done|cbn; by rewrite Hf4].
    + intros -> _ e0 es0 ->. injection Ees as -> ->.
      destruct (set_tick_timer_spec st5 0 _ eq_refl) as (_ & Hu & _ & Htx & _).
      destruct (Htx Hst) as [-> _]. split; [done|]. rewrite Hu. cbn. rewrite Hu4. cbn. rewrite Hu2, Hts by done.
      rewrite app_nil_r. do 3 f_equal. destruct Hd4 as [Hq4 _ Hfr4 _]. specialize (Hfr4 _ Hf4).
      apply frame_at_bytes; [eapply front_nonneg; [apply Hq4|done]|done| |apply Hq4].
      pose proof (q_repr_entries _ _ (tq_send _ _ Hq4)) as He. by inversion He.
  - set (st5 := count_lo _). assert (data_ok st5 es) as Hd5 by (destruct Hd4; by constructor).
    destruct (inv_tx_done st5 es Hd5 Hst4) as (Hctl & Hsame & Hn2).
    eexists. split; [reflexivity|]. split; [|done].
    constructor; [|destruct (data_ok_same _ _ _ Hsame Hd5); by constructor|right; done].
    destruct Hctl; [eapply ctl_idle|eapply ctl_queued|eapply ctl_rx|]; try done; eauto.
Qed.

(** Pushing does not move the front of a queue that holds something. *)
Lemma front_push q es pkt r q' f :
  q_repr q es -> 0 < f_size pkt <= 240 -> jd_queue_push q pkt = Ret (r, q') -> jd_queue_front q = Some f ->
  jd_queue_front q' = Some f.
Proof using.
  intros [Hwf Hsh] Hsz Hp Hf. pose proof (FRM_SIZE_range pkt Hsz) as Hr. unfold sizeof_frame in Hr. destruct Hwf as [W1 W2 W3 W4]. unfold jd_queue_push in Hp.
  destruct (f_size pkt =? 0); [done|]. set (sz := FRM_SIZE pkt) in *.
  destruct (if q_front q <=? q_back q then _ else _) as [[ret back] cs] eqn:Eb.
  repeat (match type of Hp with (if ?b then _ else _) = _ => destruct b; [|done] end).
  injection Hp as <- <-. unfold jd_queue_front in *. cbn [q_front q_back q_curr_size].
  destruct (Z.eqb_spec (q_front q) (q_back q)) as [|Hne]; [done|].
  assert (q_front q <> back /\ (q_front q >=? cs) = (q_front q >=? q_curr_size q)) as [H1 H2].
  { assert (q_front q <= q_back q -> q_curr_size q = q_size q) as Hlin by (intros; inversion Hsh; lia).
    rewrite !Z.geb_leb. revert Eb. rewrite !Z.gtb_ltb. unfold u16.
    repeat case_cmp; intros [= <- <- <-]; rewrite ?Z.mod_small in * by lia;
      (split; [lia|]); try done; rewrite !(proj2 (Z.leb_gt _ _)) by lia; done. }
  rewrite (proj2 (Z.eqb_neq _ _)) by done. by rewrite H2.
Qed.

Lemma send_frame_trace tx f r f' tx' :
  jd_send_frame self tx f = Ret (r, f', tx') ->
  exists t, tr_trace tx' = tr_trace tx ++ t /\ existsb (fun e => match e with EvPacketReady => true | _ => false end) t = true.
Proof using.
  unfold jd_send_frame, jd_send_frame_raw, jd_rx_frame_received_loopback, jd_rx_frame_received_core. cbn [negb].
  assert (forall (tx0 : txrx) t0 e, tr_trace tx0 = tr_trace tx ++ t0 -> tr_trace (emit tx0 e) = tr_trace tx ++ (t0 ++ [e])) as He.
  { intros tx0 t0 e E. cbn. by rewrite E, app_assoc. }
  assert (exists t0, tr_trace (emit tx (EvBridge f)) = tr_trace tx ++ t0) as [t0 Et] by by eexists.
  set (tx1 := emit tx (EvBridge f)) in *. clearbody tx1.
  set (sent := if jd_need_to_send self f then _ else _).
  assert (forall r1 tx2, sent = Ret (r1, tx2) -> exists t2, tr_trace tx2 = tr_trace tx ++ t2) as Hsent.
  { intros r1 tx2. unfold sent. destruct (jd_need_to_send self f); [|intros [= <- <-]; by eexists].
    destruct (jd_queue_push _ _) as [[r2 q2]| |]; obind; [|done..]. intros [= <- <-].
    destruct (negb (r2 =? 0)); eexists; [by apply He|done]. }
  destruct sent as [[r1 tx2]| |]; obind; [|done..]. destruct (Hsent _ _ eq_refl) as [t2 Et2].
  destruct (jd_services_needs_frame self f); cbn [negb].
  - destruct (jd_queue_push _ _) as [[r3 q3]| |]; obind; [|done..]. intros [= <- <- <-].
    pose proof (He tx2 t2 EvWakeMain Et2) as Et3.
    destruct (negb (r3 =? 0)); (eexists; split; [apply He|]);
      [apply He; exact Et3| |exact Et3|]; rewrite !existsb_app; cbn; by rewrite !orb_true_r.
  - obind. intros [= <- <- <-]. eexists. split; [apply He; exact Et2|]. rewrite existsb_app. cbn. by rewrite orb_true_r.
Qed.

(** A frame of the application is queued, or refused when there is no room. *)
Lemma send_frame_queues tx es f :
  tx_queues tx es -> frame_ok f -> 0 < f_size f <= 240 ->
  exists r f' tx' es', jd_send_frame self tx f = Ret (r, f', tx') /\ tx_queues tx' es' /\
    (es' = es \/ es' = es ++ [q_entry f]) /\ q_sending tx' = q_sending tx /\
    (forall off, jd_queue_front (send_queue tx) = Some off -> jd_queue_front (send_queue tx') = Some off).
Proof using.
  intros Hq Hf Hsz. unfold jd_send_frame, jd_send_frame_raw.
  set (tx1 := emit tx (EvBridge f)).
  set (sent := if jd_need_to_send self f then _ else _).
  assert (exists r1 tx2 es', sent = Ret (r1, tx2) /\ tx_queues tx2 es' /\ (es' = es \/ es' = es ++ [q_entry f]) /\
     q_sending tx2 = q_sending tx /\
     (forall off, jd_queue_front (send_queue tx) = Some off -> jd_queue_front (send_queue tx2) = Some off))
    as (r1 & tx2 & es' & -> & Hq2 & Hes & Hs2 & Hfr2).
  { unfold sent. destruct Hq as [Q1 Q2 Q3 Q4].
    destruct (jd_need_to_send self f); [|exists 0, tx1, es; split_and!; auto; by constructor].
    pose proof (q_push_spec (send_queue tx) es f Q1 Hf Hsz) as Hpush. change (send_queue tx1) with (send_queue tx).
    destruct (jd_queue_will_fit _ _).
    - destruct Hpush as (q' & E & Hq' & Hsq). rewrite E. obind. eexists _, _, _. split; [reflexivity|].
      split; [constructor; cbn; done || congruence|]. split; [by right|]. split; [done|]. cbn.
      intros off. by eapply front_push.
    - destruct Hpush as (r & E & Hr). rewrite E. obind. eexists _, _, _. split; [reflexivity|].
      destruct (negb (r =? 0)); (split; [constructor; cbn; done|]); auto. }
  obind. unfold jd_rx_frame_received_loopback.
  destruct (rx_core_ok self tx2 f true es' Hq2 Hf Hsz) as (lr & f' & tx3 & -> & _ & Hq3 & _ & Hs3 & Hsq3 & _).
  obind. destruct (negb (lr =? 0)); (eexists _, _, _, es'; split; [reflexivity|]);
    (split; [destruct Hq3; by constructor|]); (split; [done|]); cbn; rewrite Hs3, Hsq3; done.
Qed.

Lemma inv_send_frame st es f :
  phys_inv st es -> frame_ok f -> 0 < f_size f <= 236 ->
  exists r st' es', phys_send_frame self st f = Ret (r, st') /\ phys_inv st' es' /\
    (es' = es \/ es' = es ++ [q_entry f]).
Proof using.
  intros [Hc Hd Hw] Hf Hsz. unfold phys_send_frame. destruct Hd as [Hq Hs Hfr Hrx].
  destruct (send_frame_queues (ph_tx st) es f Hq Hf ltac:(lia)) as (r & f' & tx & es' & E & Hq' & Hes & Hs' & Hfr').
  rewrite E. obind. eexists _, _, es'. split; [reflexivity|]. split; [|done].
  destruct (send_frame_trace _ _ _ _ _ E) as (t & Et & Hr). unfold run_ready. cbn [ph_tx set_phtx].
  rewrite Et, drop_app_length, Hr. unfold jd_packet_ready. set (st1 := set_txPending (set_phtx st tx) 1).
  assert (data_ok st1 es') as Hd1 by (constructor; cbn; [done|by rewrite Hs'|intros; by apply Hfr', Hfr|done]).
  destruct (Z.eqb_spec (phys_status st1) 0) as [E0|E0].
  - apply set_tick_idle; [by left; rewrite E0|done|done].
  - constructor; [|done|by right]. cbn in E0.
    destruct Hc; [done|eapply ctl_queued|eapply ctl_rx|eapply ctl_tx]; try done; eauto.
Qed.

Lemma inv_tx_completed st es :
  phys_inv st es -> in_status st JD_STATUS_TX_ACTIVE = true ->
  exists st', jd_tx_completed st = Ret st' /\ phys_inv st' (tail es) /\ in_status st' JD_STATUS_RX_ACTIVE = false /\
    in_status st' JD_STATUS_TX_ACTIVE = false /\ uart st' = uart st.
Proof using.
  intros [Hc [Hq Hs Hfr Hrx] Hw] Htx.
  assert (phys_status st = 2 /\ txFrame st <> None) as [E2 Hne].
  { unfold in_status in Htx. destruct Hc as [d E|d E|d cb [E|E]|d E]; rewrite E in Htx; done. }
  destruct (txFrame st) as [f|] eqn:Ef; [|done]. specialize (Hfr f eq_refl).
  destruct es as [|e es]; [rewrite q_front_none in Hfr by apply Hq; done|]. destruct Hq as [Q1 Q2 Q3 Q4].
  destruct (q_front_shift _ _ _ Q1) as (off & q' & _ & _ & E & Hq' & Hsz).
  unfold jd_tx_completed, jd_tx_frame_sent. rewrite Hs, E. obind.
  set (tx := poke_ready _). set (st1 := run_ready (ph_tx st) (set_phtx st tx)).
  assert (phys_status st1 = 2 /\ ph_tx st1 = tx /\ rxFrame st1 = rxFrame st /\ uart st1 = uart st /\
          (es <> [] -> txPending st1 <> 0)) as (E1 & Htx1 & Hr1 & Hu1 & Hp1).
  { unfold st1, run_ready. set (b := existsb _ _).
    assert (es <> [] -> b = true) as Hb.
    { intros Hes. destruct es as [|e1 es]; [done|]. destruct (q_front_shift _ _ _ Hq') as (off1 & q1 & F & _).
      unfold b, tx, poke_ready. cbn [set_phtx ph_tx send_queue set_sending set_sendq]. rewrite F. cbn.
      by rewrite drop_app_length. }
    destruct b; [|by split_and!; try done; intros ?%Hb].
    unfold jd_packet_ready. cbn [phys_status set_txPending set_phtx]. rewrite E2. cbn. by rewrite E2. }
  clearbody st1. eexists. split; [reflexivity|]. cbn [tail]. unfold tx_done.
  set (st2 := set_txFrame st1 None).
  assert (data_ok st2 es) as Hd2.
  { constructor; cbn; rewrite ?Htx1, ?Hr1; try done; unfold tx, poke_ready; case_match; constructor; cbn; done || congruence. }
  assert (phys_status st2 = 2) as E3 by done.
  destruct (set_tick_timer_spec st2 JD_STATUS_TX_ACTIVE _ eq_refl) as (_ & Hu & _ & _ & Hid).
  rewrite E3 in Hid. cbn in Hid. specialize (Hid ltac:(auto)).
  split; [apply set_tick_idle; [rewrite E3; by left|done|done]|].
  unfold in_status. rewrite Hu. destruct (txPending st1 =? 0); destruct Hid as [-> _]; done.
Qed.

(** Every step the board allows succeeds and keeps the invariant. *)
Lemma phys_step_ok st es ev :
  phys_inv st es -> phys_enabled st ev ->
  exists st' es', phys_step self st ev = Ret st' /\ phys_inv st' es'.
Proof using.
  intros Hi Hen. destruct ev as [li|bytes|dl|micros uart_ok race| |f]; cbn [phys_step].
  - destruct (inv_line_falling _ _ _ Hi Hen) as (st' & E & Hi'). eauto.
  - destruct Hen as (_ & Hb & Hl). eexists _, es. split; [reflexivity|].
    eapply phys_inv_ext; [|apply data_ok_rxFrame|exact Hi]; [done|apply Hi|].
    apply frame_ok_mwrite; [apply (do_rxFrame _ _ (pi_data _ _ Hi))|lia|unfold sizeof_frame; lia|done].
  - destruct (inv_rx_completed _ _ _ Hi Hen) as (st' & E & Hi'). eauto.
  - pose proof Hi as [Hc Hd Hw].
    assert (data_ok (clear_timer st) es) as Hd0 by (destruct Hd; by constructor).
    destruct Hc as [d Es Et|d Es Et Hp|d cb Es Et Hcb|d Es Et Hf]; rewrite Et.
    + unfold tick, in_status. cbn [phys_status clear_timer]. rewrite Es. cbn [andb has_flag]. eexists _, es.
      split; [reflexivity|]. apply set_tick_idle; [by left|done|]. intros Hne. by destruct (Hw Hne); [congruence|].
    + destruct (inv_flush st es d micros uart_ok race Hi Es Et Hen) as (st' & E & Hi' & _). eauto.
    + assert (es <> [] -> txPending (clear_timer st) <> 0) as Hw'.
      { intros Hne. destruct (Hw Hne) as [E|]; [|done]. rewrite E in Es. by destruct Es. }
      assert (phys_inv (rx_timeout (clear_timer st)) es) as Hto by by apply inv_rx_timeout.
      destruct Hcb as [-> | ->]; (eexists _, es; split; [reflexivity|]); [|done].
      unfold setup_rx_timeout, in_status. cbn [phys_status clear_timer].
      assert (has_flag (phys_status st) JD_STATUS_RX_ACTIVE = true) as -> by by destruct Es as [->| ->].
      destruct (_ && _); [apply inv_rx_timeout; [destruct Hd; by constructor|done|done]|].
      constructor; [eapply ctl_rx; [exact Es|reflexivity|auto]|destruct Hd; by constructor|by right; apply Hw'].
    + unfold tick, in_status. cbn [phys_status clear_timer start_tx]. rewrite Es.
      destruct Hen as [Hen _]. unfold in_status in Hen. rewrite Es in Hen. specialize (Hen eq_refl).
      rewrite Z.gtb_ltb, (proj2 (Z.ltb_ge _ _)) by lia. rewrite andb_false_r. eexists _, es.
      split; [reflexivity|]. apply set_tick_tx; [by left|done|done].
  - destruct (inv_tx_completed st es Hi Hen) as (st' & E & Hi' & _). eauto.
  - destruct Hen as [Hf Hsz]. destruct (inv_send_frame st es f Hi Hf Hsz) as (r & st' & es' & E & Hi' & _).
    rewrite E. obind. eauto.
Qed.
End PhysProofs.

(** ** Reachable states *)

(** Static data is zero; [seed] is what the generator was seeded with. *)
Definition phys0 (seed0 : Z) : phys :=
  {| rxFrame := replicate 252 0; phys_status := 0; txFrame := None; txPending := 0;
     jd_diagnostics := {| bus_lo_error := 0; bus_uart_error := 0; bus_timeout_error := 0; packets_received := 0; packets_dropped := 0 |};
     start_tx := 0; timer := None; seed := seed0; ph_tx := txrx0; uart := [] |}.

Inductive phys_reach (self : Z) : phys -> Prop :=
  | reach_start seed0 : phys_reach self (_jd_phys_start (phys0 seed0))
  | reach_step st ev st' :
      phys_reach self st -> phys_enabled self st ev -> phys_step self st ev = Ret st' -> phys_reach self st'.

(** A sequence of steps that the board allows. *)
Inductive phys_runs (self : Z) : phys -> list phys_event -> phys -> Prop :=
  | runs_nil st : phys_runs self st [] st
  | runs_cons st ev st' evs st'' :
      phys_enabled self st ev -> phys_step self st ev = Ret st' -> phys_runs self st' evs st'' ->
      phys_runs self st (ev :: evs) st''.

Lemma zero_frame_ok : frame_ok (replicate 252 0).
Proof. constructor; [done|by apply Forall_replicate]. Qed.

Lemma phys_reach_inv self st : phys_reach self st -> exists es, phys_inv st es.
Proof.
  induction 1 as [seed0|st ev st' _ [es Hi] Hen Hst].
  - exists []. apply set_tick_idle; [by left| |done].
    constructor; [|done|done|apply zero_frame_ok].
    constructor; cbn; try done; [by apply q_alloc_repr|exists []; by apply q_alloc_repr].
  - destruct (phys_step_ok self st es ev Hi Hen) as (st1 & es' & E & Hi'). exists es'. congruence.
Qed.

(** C2. Safety of the bus driver, on a board that calls its handlers as
    [phys_enabled] says: in every state it can reach, whatever the
    order of falling lines, receptions, timers, transmissions and new frames,
    no step of the board panics; it never receives and transmits at once; the
    timer is always set; and no queued frame is forgotten - one is on the wire
    or a transmission is pending. *)
Theorem phys_safe self st :
  phys_reach self st ->
  (forall ev, phys_enabled self st ev -> exists st', phys_step self st ev = Ret st') /\
  in_status st JD_STATUS_RX_ACTIVE && in_status st JD_STATUS_TX_ACTIVE = false /\
  timer st <> None /\
  (jd_queue_front (send_queue (ph_tx st)) <> None -> in_status st JD_STATUS_TX_ACTIVE = true \/ txPending st <> 0).
Proof.
  intros Hr. destruct (phys_reach_inv _ _ Hr) as [es Hi]. split_and!.
  - intros ev Hen. destruct (phys_step_ok self st es ev Hi Hen) as (st' & _ & E & _). eauto.
  - destruct Hi as [[d E|d E|d cb [E|E]|d E] _ _]; unfold in_status; by rewrite E.
  - destruct Hi as [[d E|d E|d cb E|d E] _ _]; congruence.
  - intros Hf. destruct Hi as [_ Hd Hw].
    destruct es as [|e es]; [destruct Hf; apply q_front_none, Hd|].
    destruct (Hw ltac:(done)) as [E|]; [left|by right]. unfold in_status. by rewrite E.
Qed.

(** ** Progress *)

(** What the bus does when nobody else talks: the timer and the UART. *)
Definition quiet_event (ev : phys_event) : Prop :=
  match ev with PhTimer _ true None | PhTxCompleted => True | _ => False end.

Definition start_of (e : list Z) : uart_event := UartStartTx (mread e 0 (JD_FRAME_SIZE e)).

Definition quiet_runs (self : Z) (st : phys) (evs : list phys_event) (st' : phys) : Prop :=
  Forall quiet_event evs /\ phys_runs self st evs st'.

Lemma quiet_runs_app self st1 st2 st3 evs1 evs2 :
  quiet_runs self st1 evs1 st2 -> quiet_runs self st2 evs2 st3 -> quiet_runs self st1 (evs1 ++ evs2) st3.
Proof.
  intros [Hq1 H1] [Hq2 H2]. split; [by apply Forall_app|]. clear Hq1 Hq2.
  induction H1; cbn; [done|]. econstructor; eauto.
Qed.

(** From a free line with a frame waiting to that frame on the wire. *)
Lemma quiet_start self st e es :
  phys_inv st (e :: es) -> phys_status st = 0 \/ phys_status st = 4 ->
  exists evs st', quiet_runs self st evs st' /\ (length evs <= 2)%nat /\ phys_inv st' (e :: es) /\
    phys_status st' = 2 /\ uart st' = uart st ++ [start_of e].
Proof.
  assert (forall st, phys_inv st (e :: es) -> phys_status st = 4 ->
    exists st', quiet_runs self st [PhTimer 0 true None] st' /\ phys_inv st' (e :: es) /\
      phys_status st' = 2 /\ uart st' = uart st ++ [start_of e]) as Hflush.
  { intros st1 Hi1 E4. pose proof Hi1 as [Hc1 _ _].
    destruct Hc1 as [d E|d E Et _|d cb [E|E]|d E]; try congruence.
    assert (phys_enabled self st1 (PhTimer 0 true None)) as Hen by (split; [unfold in_status; by rewrite E4|done]).
    destruct (inv_flush self st1 _ d 0 true None Hi1 E4 Et Hen) as (st' & F & Hi' & Hs).
    destruct (Hs eq_refl eq_refl e es eq_refl) as [S1 S2]. exists st'. split; [|done].
    split; [by repeat constructor|]. econstructor; [done| |constructor]. cbn [phys_step]. by rewrite Et. }
  intros Hi [E0|E4]; [|destruct (Hflush st Hi E4) as (st' & ? & ? & ? & ?); eexists _, st'; split_and!; eauto].
  pose proof Hi as [Hc Hd Hw]. destruct Hc as [d E Et|d E|d cb [E|E]|d E]; try congruence.
  assert (phys_enabled self st (PhTimer 0 true None)) as Hen by (split; [unfold in_status; by rewrite E0|done]).
  set (st1 := set_tick_timer (clear_timer st) 0).
  assert (phys_step self st (PhTimer 0 true None) = Ret st1) as Hstep.
  { cbn [phys_step]. rewrite Et. unfold tick, in_status. cbn [phys_status clear_timer]. by rewrite E0. }
  assert (txPending (clear_timer st) <> 0) as Hp by (destruct (Hw ltac:(done)); [congruence|done]).
  assert (data_ok (clear_timer st) (e :: es)) as Hd0 by (destruct Hd; by constructor).
  destruct (set_tick_timer_spec (clear_timer st) 0 _ eq_refl) as (_ & Hu & _ & _ & Hid).
  specialize (Hid ltac:(by left)). rewrite (proj2 (Z.eqb_neq _ _) Hp) in Hid. destruct Hid as [E1 _].
  destruct (Hflush st1) as (st' & Hr & Hi' & Hs & Hu'); [by apply set_tick_idle; [left| |]|done|].
  exists ([PhTimer 0 true None] ++ [PhTimer 0 true None]), st'. split.
  { eapply quiet_runs_app; [|exact Hr]. split; [by repeat constructor|]. econstructor; [done..|constructor]. }
  split_and!; try done. rewrite Hu'. unfold st1. by rewrite Hu.
Qed.

(** The frame on the wire completes. *)
Lemma quiet_complete self st es :
  phys_inv st es -> phys_status st = 2 ->
  exists st', quiet_runs self st [PhTxCompleted] st' /\ phys_inv st' (tail es) /\
    (phys_status st' = 0 \/ phys_status st' = 4) /\ uart st' = uart st.
Proof.
  intros Hi E2. assert (in_status st JD_STATUS_TX_ACTIVE = true) as Htx by (unfold in_status; by rewrite E2).
  destruct (inv_tx_completed st es Hi Htx) as (st' & E & Hi' & Hr & Ht & Hu).
  exists st'. split; [split; [by repeat constructor|]; econstructor; [exact Htx|exact E|constructor]|].
  split_and!; try done. destruct Hi' as [[d F|d F|d cb [F|F]|d F] _ _]; auto; unfold in_status in *; by rewrite F in *.
Qed.

Lemma quiet_drain self es : forall st,
  phys_inv st es -> phys_status st = 0 \/ phys_status st = 4 ->
  exists evs st', quiet_runs self st evs st' /\ (length evs <= 3 * length es)%nat /\ phys_inv st' [] /\
    uart st' = uart st ++ map start_of es.
Proof.
  induction es as [|e es IH]; intros st Hi Hs.
  { exists [], st. rewrite app_nil_r. split_and!; try done. split; [done|constructor]. }
  destruct (quiet_start self st e es Hi Hs) as (evs1 & st1 & R1 & L1 & I1 & S1 & U1).
  destruct (quiet_complete self st1 _ I1 S1) as (st2 & R2 & I2 & S2 & U2).
  destruct (IH st2 I2 S2) as (evs3 & st3 & R3 & L3 & I3 & U3).
  exists (evs1 ++ [PhTxCompleted] ++ evs3), st3. split_and!.
  - eapply quiet_runs_app; [exact R1|]. eapply quiet_runs_app; [exact R2|exact R3].
  - rewrite !length_app. cbn. lia.
  - done.
  - rewrite U3, U2, U1. cbn [map]. by rewrite <- app_assoc.
Qed.

(** C35. Progress of the bus driver: from every reachable state without a
    reception under way, when nobody else uses the bus, at most three events of
    the timer and the UART per queued frame empty the send queue, and each
    waiting frame - the one already on the wire apart - is put on the wire once,
    in the order of the queue, with exactly its bytes. *)
Theorem phys_quiet_bus_drains self st :
  phys_reach self st -> in_status st JD_STATUS_RX_ACTIVE = false ->
  exists es, q_repr (send_queue (ph_tx st)) es /\
  exists evs st',
    Forall quiet_event evs /\ (length evs <= 3 * length es)%nat /\ phys_runs self st evs st' /\
    jd_queue_front (send_queue (ph_tx st')) = None /\
    uart st' = uart st ++ map start_of (if in_status st JD_STATUS_TX_ACTIVE then tail es else es).
Proof.
  intros Hr Hrx. destruct (phys_reach_inv _ _ Hr) as [es Hi]. exists es. split; [apply Hi|].
  assert (phys_status st = 2 \/ phys_status st = 0 \/ phys_status st = 4) as [E|E].
  { destruct Hi as [[d F|d F|d cb [F|F]|d F] _ _]; auto; unfold in_status in Hrx; by rewrite F in Hrx. }
  - destruct (quiet_complete self st es Hi E) as (st1 & [Q1 R1] & I1 & S1 & U1).
    destruct (quiet_drain self (tail es) st1 I1 S1) as (evs & st' & [Q2 R2] & L2 & I2 & U2).
    exists ([PhTxCompleted] ++ evs), st'.
    destruct (quiet_runs_app self st st1 st' _ _ (conj Q1 R1) (conj Q2 R2)) as [Q R].
    split; [done|]. split; [|split; [done|split; [apply q_front_none, I2|]]].
    + assert (es <> []) as Hne.
      { intros ->. destruct Hi as [Hc Hd _]. destruct Hc as [d F|d F|d cb [F|F]|d F Ft Hf]; try congruence.
        destruct (txFrame st) as [f|] eqn:Ef; [|done]. pose proof (do_front _ _ Hd f Ef) as Hfr.
        rewrite q_front_none in Hfr by apply Hd. done. }
      destruct es; [done|]. cbn [length tail app] in *. lia.
    + rewrite U2, U1. unfold in_status. by rewrite E.
  - assert (in_status st JD_STATUS_TX_ACTIVE = false) as ->
      by (unfold in_status; by destruct E as [-> | ->]).
    destruct (quiet_drain self es st Hi E) as (evs & st' & [Q R] & L & I & U).
    exists evs, st'. split; [done|]. split; [done|]. split; [done|]. split; [apply q_front_none, I|done].
Qed.

(** ** The theorems at concrete inputs *)

Definition phys_of (o : outcome phys) : phys := match o with Ret st => st | _ => phys0 0 end.

(** A report of 4 bytes is queued, then sent. *)
Definition demo_report : list Z := jd_compute_crc ([0; 0; 4; 0; 77; 0; 0; 0; 0; 0; 0; 0; 0; 1; 2; 3] ++ replicate 236 0).
Definition demo_phys : phys := phys_of (phys_step 77 (_jd_phys_start (phys0 1)) (PhSendFrame demo_report)).

Lemma demo_report_ok : frame_ok demo_report.
Proof.
  apply frame_ok_set_crc. constructor; [done|].
  apply Forall_app; split; [repeat constructor; simpl; lia|by apply Forall_replicate].
Qed.

Lemma demo_phys_reach : phys_reach 77 demo_phys.
Proof.
  eapply reach_step; [apply (reach_start 77 1)| |].
  - instantiate (1 := PhSendFrame demo_report). split; [apply demo_report_ok|vm_compute; split; [reflexivity|discriminate]].
  - vm_compute. reflexivity.
Qed.

Lemma phys_safe_witness : timer demo_phys <> None /\ txPending demo_phys = 1.
Proof. destruct (phys_safe 77 demo_phys demo_phys_reach) as (_ & _ & Ht & _). split; [exact Ht|vm_compute; reflexivity]. Defined.

Lemma phys_quiet_bus_drains_witness :
  exists evs st', Forall quiet_event evs /\ phys_runs 77 demo_phys evs st' /\
    jd_queue_front (send_queue (ph_tx st')) = None.
Proof.
  destruct (phys_quiet_bus_drains 77 demo_phys demo_phys_reach) as (es & _ & evs & st' & Hq & _ & Hr & Hf & _);
    [vm_compute; reflexivity|].
  exists evs, st'. split; [exact Hq|]. split; [exact Hr|exact Hf].
Defined.
