(* ===== verification/Usb.v ===== *)
(** * The USB bridge ([source/jd_usb.c])

    Frames go to and come from a host as a byte stream: a magic byte quotes the
    marks of the start and end of a frame, and itself. [jd_usb_pull] fills the
    64-byte packets of the device's USB stack from a queue of frames,
    [jd_usb_push] takes apart what the host sends. The marks are those of the
    generated header [usbbridge.h] and are the class [UsbSpec]. Logging, the
    wake-ups and the serial callback are events of a trace. *)
From S2P Require Import Prelude Frame Util Iface Queue TxRx Dmesg.

Class UsbSpec := {
  JD_USB_BRIDGE_QBYTE_MAGIC : Z;
  JD_USB_BRIDGE_QBYTE_LITERAL_MAGIC : Z;
  JD_USB_BRIDGE_QBYTE_RESERVED : Z;
  JD_USB_BRIDGE_QBYTE_SERIAL_GAP : Z;
  JD_USB_BRIDGE_QBYTE_FRAME_GAP : Z;
  JD_USB_BRIDGE_QBYTE_FRAME_START : Z;
  JD_USB_BRIDGE_QBYTE_FRAME_END : Z;
  JD_USB_BRIDGE_CMD_ENABLE_PACKETS : Z;
  JD_USB_BRIDGE_CMD_DISABLE_PACKETS : Z;
  JD_USB_BRIDGE_CMD_ENABLE_LOG : Z;
  JD_USB_BRIDGE_CMD_DISABLE_LOG : Z;
  JD_SERVICE_CLASS_USB_BRIDGE : Z;
  (** Documented: the marks are different bytes, none of them 0. *)
  qbytes_distinct : NoDup [JD_USB_BRIDGE_QBYTE_MAGIC; JD_USB_BRIDGE_QBYTE_LITERAL_MAGIC; JD_USB_BRIDGE_QBYTE_RESERVED;
    JD_USB_BRIDGE_QBYTE_SERIAL_GAP; JD_USB_BRIDGE_QBYTE_FRAME_GAP; JD_USB_BRIDGE_QBYTE_FRAME_START;
    JD_USB_BRIDGE_QBYTE_FRAME_END];
  qbytes_nonzero : JD_USB_BRIDGE_QBYTE_FRAME_START <> 0;
}.

Definition JD_USB_QUEUE_SIZE : Z := 1024.

Inductive usb_event :=
  | UsbError               (* USB_ERROR *)
  | UsbSerial (b : Z)      (* jd_usb_serial_cb *)
  | UsbPullReady           (* jd_usb_pull_ready *)
  | UsbWake                (* JD_WAKE_MAIN *)
  | UsbNetDisable.         (* jd_net_disable_fwd *)

(** The sending side. *)
Record usb_out := {
  usb_queue : option queue;   (* NULL until jd_usb_init *)
  usb_frame_ptr : Z;          (* uint8_t *)
  usb_frame_gap : Z;
  usb_panic_mode : Z;
  serial_buf_ptr : Z;
  serial_buf_len : Z;
  serial_buf : list Z;
  dmesg_timer : Z;
  dmesg_ptr : Z;
}.

(** The receiving side. *)
Record usb_in := {
  usb_rx_ptr : Z;             (* uint8_t *)
  usb_rx_state : Z;
  usb_rx_was_magic : bool;
  usb_rx_buf : list Z;
}.

Record usb := {
  us_out : usb_out;
  us_in : usb_in;
  usb_fwd_en : bool;
  usb_serial_en : bool;
  us_tx : txrx;
  us_trace : list usb_event;
}.

Definition set_queue (o : usb_out) (q : option queue) : usb_out :=
  {| usb_queue := q; usb_frame_ptr := usb_frame_ptr o; usb_frame_gap := usb_frame_gap o;
     usb_panic_mode := usb_panic_mode o; serial_buf_ptr := serial_buf_ptr o; serial_buf_len := serial_buf_len o;
     serial_buf := serial_buf o; dmesg_timer := dmesg_timer o; dmesg_ptr := dmesg_ptr o |}.
Definition set_frame_ptr (o : usb_out) (v : Z) : usb_out :=
  {| usb_queue := usb_queue o; usb_frame_ptr := v; usb_frame_gap := usb_frame_gap o;
     usb_panic_mode := usb_panic_mode o; serial_buf_ptr := serial_buf_ptr o; serial_buf_len := serial_buf_len o;
     serial_buf := serial_buf o; dmesg_timer := dmesg_timer o; dmesg_ptr := dmesg_ptr o |}.
Definition set_frame_gap (o : usb_out) (v : Z) : usb_out :=
  {| usb_queue := usb_queue o; usb_frame_ptr := usb_frame_ptr o; usb_frame_gap := v;
     usb_panic_mode := usb_panic_mode o; serial_buf_ptr := serial_buf_ptr o; serial_buf_len := serial_buf_len o;
     serial_buf := serial_buf o; dmesg_timer := dmesg_timer o; dmesg_ptr := dmesg_ptr o |}.
Definition set_panic_mode (o : usb_out) (v : Z) : usb_out :=
  {| usb_queue := usb_queue o; usb_frame_ptr := usb_frame_ptr o; usb_frame_gap := usb_frame_gap o;
     usb_panic_mode := v; serial_buf_ptr := serial_buf_ptr o; serial_buf_len := serial_buf_len o;
     serial_buf := serial_buf o; dmesg_timer := dmesg_timer o; dmesg_ptr := dmesg_ptr o |}.
Definition set_serial (o : usb_out) (buf : list Z) (ptr len dptr : Z) : usb_out :=
  {| usb_queue := usb_queue o; usb_frame_ptr := usb_frame_ptr o; usb_frame_gap := usb_frame_gap o;
     usb_panic_mode := usb_panic_mode o; serial_buf_ptr := ptr; serial_buf_len := len;
     serial_buf := buf; dmesg_timer := dmesg_timer o; dmesg_ptr := dptr |}.
Definition set_dmesg_timer (o : usb_out) (v : Z) : usb_out :=
  {| usb_queue := usb_queue o; usb_frame_ptr := usb_frame_ptr o; usb_frame_gap := usb_frame_gap o;
     usb_panic_mode := usb_panic_mode o; serial_buf_ptr := serial_buf_ptr o; serial_buf_len := serial_buf_len o;
     serial_buf := serial_buf o; dmesg_timer := v; dmesg_ptr := dmesg_ptr o |}.

Definition set_out (u : usb) (o : usb_out) : usb :=
  {| us_out := o; us_in := us_in u; usb_fwd_en := usb_fwd_en u; usb_serial_en := usb_serial_en u;
     us_tx := us_tx u; us_trace := us_trace u |}.
Definition set_in (u : usb) (i : usb_in) : usb :=
  {| us_out := us_out u; us_in := i; usb_fwd_en := usb_fwd_en u; usb_serial_en := usb_serial_en u;
     us_tx := us_tx u; us_trace := us_trace u |}.
Definition set_fwd_en (u : usb) (b : bool) : usb :=
  {| us_out := us_out u; us_in := us_in u; usb_fwd_en := b; usb_serial_en := usb_serial_en u;
     us_tx := us_tx u; us_trace := us_trace u |}.
Definition set_serial_en (u : usb) (b : bool) : usb :=
  {| us_out := us_out u; us_in := us_in u; usb_fwd_en := usb_fwd_en u; usb_serial_en := b;
     us_tx := us_tx u; us_trace := us_trace u |}.
Definition set_ustx (u : usb) (tx : txrx) : usb :=
  {| us_out := us_out u; us_in := us_in u; usb_fwd_en := usb_fwd_en u; usb_serial_en := usb_serial_en u;
     us_tx := tx; us_trace := us_trace u |}.
Definition usb_emit (u : usb) (e : usb_event) : usb :=
  {| us_out := us_out u; us_in := us_in u; usb_fwd_en := usb_fwd_en u; usb_serial_en := usb_serial_en u;
     us_tx := us_tx u; us_trace := us_trace u ++ [e] |}.

Section Usb.
Context `{UsbSpec}.

(** ** To the host *)

Definition SPACE (dst : list Z) : Z := 64 - zlen dst.

(** [while (usb_frame_ptr < frame_size)]: whether [jd_usb_pull] returns, the
    bytes and the new [usb_frame_ptr]. *)
Fixpoint frame_loop (fuel : nat) (f : list Z) (frame_size : Z) (dst : list Z) (ptr : Z)
    : outcome (bool * list Z * Z) :=
  match fuel with
  | O => OutOfFuel
  | S fuel' =>
      if ptr <? frame_size then
        let b := get8 f ptr in
        if b =? JD_USB_BRIDGE_QBYTE_MAGIC then
          if SPACE dst <? 2 then Ret (false, dst, ptr)
          else frame_loop fuel' f frame_size
                 (dst ++ [JD_USB_BRIDGE_QBYTE_MAGIC; JD_USB_BRIDGE_QBYTE_LITERAL_MAGIC]) (u8 (ptr + 1))
        else if SPACE dst <? 1 then Ret (true, dst, ptr)
        else frame_loop fuel' f frame_size (dst ++ [b]) (u8 (ptr + 1))
      else Ret (false, dst, ptr)
  end.

(** The mark that frames were lost, between two frames. *)
Definition put_gap (o : usb_out) (dst : list Z) : list Z * usb_out :=
  if (usb_frame_gap o =? 1) && (usb_frame_ptr o =? 0) && (SPACE dst >=? 2)
  then (dst ++ [JD_USB_BRIDGE_QBYTE_MAGIC; JD_USB_BRIDGE_QBYTE_FRAME_GAP], set_frame_gap o 2)
  else (dst, o).

(** [for (;;)]: whether the function returns at once, and the bytes. Every
    turn but the last puts at least two bytes into [dst]. *)
Fixpoint queue_loop (fuel : nat) (q : queue) (o : usb_out) (dst : list Z) : outcome (bool * list Z * usb_out) :=
  match fuel with
  | O => OutOfFuel
  | S fuel' =>
      let '(dst, o) := put_gap o dst in
      match jd_queue_front q with
      | None => Ret (false, dst, o)
      | Some off =>
          let f := drop (Z.to_nat off) (q_data q) in
          let frame_size := JD_FRAME_SIZE f in
          if (usb_frame_ptr o =? 0) && (SPACE dst <? 4) then Ret (false, dst, o)
          else
            let dst := if usb_frame_ptr o =? 0
                       then dst ++ [JD_USB_BRIDGE_QBYTE_MAGIC; JD_USB_BRIDGE_QBYTE_FRAME_START] else dst in
            '(ret, dst, ptr) ← frame_loop 300 f frame_size dst (usb_frame_ptr o);
            let o := set_frame_ptr o ptr in
            if ret : bool then Ret (true, dst, o)
            else if SPACE dst <? 2 then Ret (false, dst, o)
            else
              let dst := dst ++ [JD_USB_BRIDGE_QBYTE_MAGIC; JD_USB_BRIDGE_QBYTE_FRAME_END] in
              q ← jd_queue_shift q;
              queue_loop fuel' q (set_queue (set_frame_ptr o 0) (Some q)) dst
      end
  end.

(** [while (SPACE() >= 2)]: the log, quoted like frames. *)
Fixpoint serial_loop (fuel : nat) (d : dmesg) (o : usb_out) (dst : list Z) : outcome (list Z * usb_out) :=
  match fuel with
  | O => OutOfFuel
  | S fuel' =>
      if SPACE dst >=? 2 then
        let o :=
          if serial_buf_ptr o >=? serial_buf_len o then
            let '(bytes, dptr) := jd_dmesg_read d 64 (dmesg_ptr o) in
            set_serial o (mwrite (serial_buf o) 0 bytes) 0 (zlen bytes) dptr
          else o in
        if serial_buf_ptr o >=? serial_buf_len o then Ret (dst, o)
        else
          let b := get8 (serial_buf o) (serial_buf_ptr o) in
          let o := set_serial o (serial_buf o) (u8 (serial_buf_ptr o + 1)) (serial_buf_len o) (dmesg_ptr o) in
          serial_loop fuel' d o
            (dst ++ (if b =? JD_USB_BRIDGE_QBYTE_MAGIC
                     then [JD_USB_BRIDGE_QBYTE_MAGIC; JD_USB_BRIDGE_QBYTE_LITERAL_MAGIC] else [b]))
      else Ret (dst, o)
  end.

(** The bytes put into [dst]. *)
Definition jd_usb_pull (d : dmesg) (o : usb_out) : outcome (list Z * usb_out) :=
  if negb (usb_panic_mode o =? 0) then
    if usb_panic_mode o >? 1 then Ret ([], o)
    else Ret (mread (serial_buf o) 0 (serial_buf_ptr o),
              set_serial o (serial_buf o) 0 (serial_buf_len o) (dmesg_ptr o))
  else
    match usb_queue o with
    | None => Ret ([], o)
    | Some q =>
        '(ret, dst, o) ← queue_loop 40 q o [];
        if ret : bool then Ret (dst, o)
        else if dmesg_timer o =? 1 then serial_loop 70 d o dst
        else Ret (dst, o)
    end.

Definition jd_usb_init (o : usb_out) : usb_out :=
  match usb_queue o with
  | None => set_frame_ptr (set_queue o (Some (jd_queue_alloc JD_USB_QUEUE_SIZE))) 0
  | Some _ => o
  end.

Definition jd_usb_is_pending (o : usb_out) : bool :=
  match usb_queue o with
  | None => false
  | Some q => match jd_queue_front q with Some _ => true | None => serial_buf_ptr o <? serial_buf_len o end
  end.

(** [jd_queue_push] of a queue that is not there dereferences NULL. *)
Definition push_frame (u : usb) (f : list Z) : outcome (Z * usb) :=
  match usb_queue (us_out u) with
  | None => Panic
  | Some q => '(r, q) ← jd_queue_push q f; Ret (r, set_out u (set_queue (us_out u) (Some q)))
  end.

Definition jd_usb_respond_to_processing_packet (u : usb) (service_command : Z) : outcome (Z * usb) :=
  let pkt := replicate 252 0 in
  let pkt := jd_pkt_set_broadcast pkt JD_SERVICE_CLASS_USB_BRIDGE in
  let pkt := set_f_size pkt 4 in
  let pkt := set_p_service_command pkt service_command in
  let frame := jd_compute_crc pkt in
  '(r, u) ← push_frame (usb_emit u UsbWake) frame;
  Ret (r, usb_emit u UsbPullReady).

(** Frames of this device and of the bus go to the host. *)
Definition jd_usb_send_frame (u : usb) (frame : list Z) : outcome (Z * usb) :=
  if negb (usb_fwd_en u) then Ret (0, u)
  else
    '(r, u) ← push_frame (usb_emit u UsbWake) frame;
    let o := us_out u in
    let o := if r =? 0 then (if usb_frame_gap o =? 2 then set_frame_gap o 0 else o)
             else (if usb_frame_gap o =? 0 then set_frame_gap o 1 else o) in
    Ret (r, usb_emit (set_out u o) UsbPullReady).

Definition jd_usb_enable_serial (u : usb) : usb :=
  set_serial_en (set_out u (jd_usb_init (us_out u))) true.

(** ** Output of a panic

    [jd_usb_pull_ready] is the port's: it may call [jd_usb_pull] when the host
    reads. [host n] says whether it does at the [n]-th call of a wait; [sent]
    collects the bytes the host gets. *)

Fixpoint panic_wait (fuel : nat) (host : Z -> bool) (num_pull : Z) (d : dmesg) (o : usb_out) (sent : list Z)
    : outcome (usb_out * list Z) :=
  match fuel with
  | O => OutOfFuel
  | S fuel' =>
      if serial_buf_ptr o >? 0 then
        '(o, sent) ← (if host num_pull then '(dst, o) ← jd_usb_pull d o; Ret (o, sent ++ dst) else Ret (o, sent));
        if num_pull >? 50000 then
          Ret (set_panic_mode (set_serial o (serial_buf o) 0 (serial_buf_len o) (dmesg_ptr o)) 2, sent)
        else panic_wait fuel' host (num_pull + 1) d o sent
      else Ret (o, sent)
  end.

Definition jd_usb_panic_print_char (host : Z -> bool) (d : dmesg) (u : usb) (c : Z) : outcome (usb * list Z) :=
  if usb_panic_mode (us_out u) >? 1 then Ret (u, [])
  else
    let u :=
      if usb_panic_mode (us_out u) =? 0 then
        let u := set_serial_en (set_fwd_en u false) false in
        let o := us_out u in
        let buf := put8 (put8 (serial_buf o) 0 JD_USB_BRIDGE_QBYTE_MAGIC) 1 JD_USB_BRIDGE_QBYTE_FRAME_END in
        set_out u (set_panic_mode (set_serial o buf 2 (serial_buf_len o) (dmesg_ptr o)) 1)
      else u in
    let o := us_out u in
    let o := set_serial o (put8 (serial_buf o) (serial_buf_ptr o) c) (u8 (serial_buf_ptr o + 1))
               (serial_buf_len o) (dmesg_ptr o) in
    if (serial_buf_ptr o <? 64) && negb (c =? 10) then Ret (set_out u o, [])
    else '(o, sent) ← panic_wait (Z.to_nat 50003) host 0 d o []; Ret (set_out u o, sent).

Fixpoint panic_print_chars (host : Z -> bool) (d : dmesg) (u : usb) (s : list Z) : outcome (usb * list Z) :=
  match s with
  | [] => Ret (u, [])
  | c :: s =>
      '(u, sent) ← jd_usb_panic_print_char host d u c;
      '(u, sent') ← panic_print_chars host d u s;
      Ret (u, sent ++ sent')
  end.

(** [None] is NULL. *)
Definition jd_usb_panic_print_str (host : Z -> bool) (d : dmesg) (u : usb) (s : option (list Z)) :=
  let s := match s with None => [0x28; 0x6e; 0x75; 0x6c; 0x6c; 0x29] | Some s => s end in
  panic_print_chars host d u (cstring s).

Definition jd_usb_panic_start (host : Z -> bool) (d : dmesg) (u : usb) : outcome (usb * list Z) :=
  if usb_panic_mode (us_out u) >? 1 then Ret (u, []) else jd_usb_panic_print_char host d u 10.

(** ** The log's way into the storage

    [usb_is_connected] and the function's own [dmesg_ptr]. The bytes that go to
    [jd_lstore_append_frag] are the last result. *)
Record usb_log := { usb_is_connected : bool; log_dmesg_ptr : Z }.

Definition jd_usb_proto_process (now : Z) (looks_connected : bool) (d : dmesg) (o : usb_out) (l : usb_log)
    : usb_out * usb_log * option (list Z) :=
  let '(o, l) :=
    if negb (usb_is_connected l) && looks_connected then
      (set_dmesg_timer o (u32 (now + Z.shiftl 128 10)),
       {| usb_is_connected := true; log_dmesg_ptr := log_dmesg_ptr l |})
    else (o, l) in
  let o := if negb (dmesg_timer o =? 1) && in_past now (dmesg_timer o) then set_dmesg_timer o 1 else o in
  if dmesg_timer o =? 1 then
    let '(bytes, p) := jd_dmesg_read d 64 (log_dmesg_ptr l) in
    (o, {| usb_is_connected := usb_is_connected l; log_dmesg_ptr := p |},
     if zlen bytes >? 0 then Some bytes else None)
  else (o, l, None).

(** ** From the host *)

(** [self] is [jd_device_id()]. *)
Context (self : Z).

Definition set_rx (i : usb_in) (ptr state : Z) (was_magic : bool) : usb_in :=
  {| usb_rx_ptr := ptr; usb_rx_state := state; usb_rx_was_magic := was_magic; usb_rx_buf := usb_rx_buf i |}.
Definition set_rx_buf (i : usb_in) (buf : list Z) : usb_in :=
  {| usb_rx_ptr := usb_rx_ptr i; usb_rx_state := usb_rx_state i; usb_rx_was_magic := usb_rx_was_magic i;
     usb_rx_buf := buf |}.

Definition jd_usb_handle_processing_packet (u : usb) (pkt : list Z) : outcome usb :=
  let u := set_out u (jd_usb_init (us_out u)) in
  let cmd := p_service_command pkt in
  if (cmd =? JD_USB_BRIDGE_CMD_ENABLE_PACKETS) || (cmd =? JD_USB_BRIDGE_CMD_DISABLE_PACKETS) then
    let u := set_fwd_en u (Z.testbit cmd 0) in
    let u := if usb_fwd_en u then usb_emit u UsbNetDisable else u in
    '(_, u) ← jd_usb_respond_to_processing_packet u cmd; Ret u
  else if (cmd =? JD_USB_BRIDGE_CMD_ENABLE_LOG) || (cmd =? JD_USB_BRIDGE_CMD_DISABLE_LOG) then
    let u := set_serial_en u (Z.testbit cmd 0) in
    '(_, u) ← jd_usb_respond_to_processing_packet u cmd; Ret u
  else '(_, u) ← jd_usb_respond_to_processing_packet u 0xff; Ret u.

Definition jd_usb_handle_frame (u : usb) : outcome usb :=
  let frame := usb_rx_buf (us_in u) in
  let txSize := usb_rx_ptr (us_in u) in
  let declaredSize := JD_FRAME_SIZE frame in
  if txSize <? declaredSize then Ret (usb_emit u UsbError)
  else if negb (jd_crc16 (mread frame 2 (declaredSize - 2)) =? f_crc frame) then Ret (usb_emit u UsbError)
  else if has_flag (f_flags frame) JD_FRAME_FLAG_BROADCAST && has_flag (f_flags frame) JD_FRAME_FLAG_COMMAND
          && (u32 (f_device_identifier frame) =? JD_SERVICE_CLASS_USB_BRIDGE) then
    jd_usb_handle_processing_packet u frame
  else
    let u := usb_emit u UsbNetDisable in
    '(_, frame, tx) ← jd_send_frame_raw self (us_tx u) frame;
    Ret (set_in (set_ustx u tx) (set_rx_buf (us_in u) frame)).

(** What was collected goes to the serial port. *)
Definition frame_error (u : usb) : usb :=
  let i := us_in u in
  let u := fold_left (fun u b => usb_emit u (UsbSerial b)) (mread (usb_rx_buf i) 0 (usb_rx_ptr i)) u in
  set_in u (set_rx i 0 0 (usb_rx_was_magic i)).

(** The tail of the loop body: the byte [c] is data. *)
Definition rx_data (u : usb) (c : Z) : usb :=
  let i := us_in u in
  if negb (usb_rx_state i =? 0) then
    if usb_rx_ptr i >=? sizeof_frame then frame_error (usb_emit u UsbError)
    else set_in u (set_rx (set_rx_buf i (put8 (usb_rx_buf i) (usb_rx_ptr i) c)) (u8 (usb_rx_ptr i + 1))
                     (usb_rx_state i) (usb_rx_was_magic i))
  else usb_emit u (UsbSerial c).

Definition jd_usb_push_byte (u : usb) (c : Z) : outcome usb :=
  let i := us_in u in
  if usb_rx_was_magic i then
    if c =? JD_USB_BRIDGE_QBYTE_MAGIC then
      if negb (usb_rx_state i =? 0) then Ret (frame_error (usb_emit u UsbError))
      else Ret (rx_data u c)
    else
      let i := set_rx i (usb_rx_ptr i) (usb_rx_state i) false in
      let u := set_in u i in
      if c =? JD_USB_BRIDGE_QBYTE_LITERAL_MAGIC then Ret (rx_data u JD_USB_BRIDGE_QBYTE_MAGIC)
      else if c =? JD_USB_BRIDGE_QBYTE_FRAME_START then
        let u := if negb (usb_rx_ptr i =? 0) then frame_error (usb_emit u UsbError) else u in
        Ret (set_in u (set_rx (us_in u) (usb_rx_ptr (us_in u)) c false))
      else if c =? JD_USB_BRIDGE_QBYTE_FRAME_END then
        if negb (usb_rx_state i =? 0) then
          u ← jd_usb_handle_frame (set_in u (set_rx i (usb_rx_ptr i) 0 false));
          Ret (set_in u (set_rx (us_in u) 0 (usb_rx_state (us_in u)) (usb_rx_was_magic (us_in u))))
        else Ret (usb_emit u UsbError)
      else if (c =? JD_USB_BRIDGE_QBYTE_RESERVED) || (c =? JD_USB_BRIDGE_QBYTE_SERIAL_GAP)
              || (c =? JD_USB_BRIDGE_QBYTE_FRAME_GAP) then Ret u
      else
        let u := if negb (usb_rx_state i =? 0) then frame_error (usb_emit u UsbError) else u in
        Ret (rx_data (usb_emit u (UsbSerial JD_USB_BRIDGE_QBYTE_MAGIC)) c)
  else if c =? JD_USB_BRIDGE_QBYTE_MAGIC then
    Ret (set_in u (set_rx i (usb_rx_ptr i) (usb_rx_state i) true))
  else Ret (rx_data u c).

Fixpoint jd_usb_push (u : usb) (buf : list Z) : outcome usb :=
  match buf with
  | [] => Ret u
  | c :: buf => u ← jd_usb_push_byte u c; jd_usb_push u buf
  end.

(** ** The byte stream of a queue *)

Definition escape (b : Z) : list Z :=
  if b =? JD_USB_BRIDGE_QBYTE_MAGIC then [JD_USB_BRIDGE_QBYTE_MAGIC; JD_USB_BRIDGE_QBYTE_LITERAL_MAGIC] else [b].
Definition start_mark : list Z := [JD_USB_BRIDGE_QBYTE_MAGIC; JD_USB_BRIDGE_QBYTE_FRAME_START].
Definition end_mark : list Z := [JD_USB_BRIDGE_QBYTE_MAGIC; JD_USB_BRIDGE_QBYTE_FRAME_END].
Definition gap_mark (gap : Z) : list Z :=
  if gap =? 1 then [JD_USB_BRIDGE_QBYTE_MAGIC; JD_USB_BRIDGE_QBYTE_FRAME_GAP] else [].

(** The bytes of the frame a queue entry holds. *)
Definition wire_bytes (e : list Z) : list Z := mread e 0 (JD_FRAME_SIZE e).
Definition enc_bytes (l : list Z) : list Z := flat_map escape l ++ end_mark.
Definition enc_frame (e : list Z) : list Z := start_mark ++ enc_bytes (wire_bytes e).

(** What is still to be sent when [ptr] bytes of the first frame are out. *)
Definition pending (gap ptr : Z) (es : list (list Z)) : list Z :=
  if ptr =? 0 then gap_mark gap ++ flat_map enc_frame es
  else match es with
       | [] => []
       | e :: es => enc_bytes (drop (Z.to_nat ptr) (wire_bytes e)) ++ gap_mark gap ++ flat_map enc_frame es
       end.

(** [jd_usb_pull] between two calls, or between two turns of its loop. *)
Record out_repr (o : usb_out) (q : queue) (es : list (list Z)) : Prop := {
  or_queue : q_repr q es;
  or_ptr : 0 <= usb_frame_ptr o;
  or_inside : usb_frame_ptr o <> 0 -> exists e es', es = e :: es' /\ usb_frame_ptr o <= JD_FRAME_SIZE e;
  or_entries : Forall (fun e => entry_ok e /\ JD_FRAME_SIZE e <= sizeof_frame) es;
}.

Lemma zlen_escape b : zlen (escape b) = if b =? JD_USB_BRIDGE_QBYTE_MAGIC then 2 else 1.
Proof. unfold escape. by case_cmp. Qed.

Lemma zlen_wire_bytes e : entry_ok e -> zlen (wire_bytes e) = JD_FRAME_SIZE e /\ 12 <= JD_FRAME_SIZE e.
Proof.
  intros [Hl Hs]. unfold FRM_SIZE in *. pose proof (align4_bounds (JD_FRAME_SIZE e)).
  rewrite align4_div in *. split; [|word_lia]. apply zlen_mread; [lia| |lia]. word_lia.
Qed.

(** The next byte of a frame that is not out yet. *)
Lemma drop_step (l : list Z) ptr : 0 <= ptr < zlen l ->
  drop (Z.to_nat ptr) l = get8 l ptr :: drop (Z.to_nat (ptr + 1)) l.
Proof.
  intros. unfold get8, zlen in *.
  destruct (l !! Z.to_nat ptr) as [b|] eqn:E; [|apply lookup_ge_None in E; lia].
  rewrite (drop_S _ _ _ E). simpl. do 2 f_equal. lia.
Qed.

(** The inner loop moves escaped bytes of the frame to [dst]; it returns early
    only when [dst] is full. *)
Lemma frame_loop_spec f l : forall fuel dst ptr,
  (forall i, 0 <= i < zlen l -> get8 f i = get8 l i) -> zlen l < 256 -> 0 <= ptr <= zlen l -> zlen dst <= 64 ->
  zlen l - ptr < Z.of_nat fuel ->
  exists ret dst' ptr',
    frame_loop fuel f (zlen l) dst ptr = Ret (ret, dst', ptr') /\
    dst' ++ flat_map escape (drop (Z.to_nat ptr') l) = dst ++ flat_map escape (drop (Z.to_nat ptr) l) /\
    ptr <= ptr' <= zlen l /\ zlen dst + (ptr' - ptr) <= zlen dst' <= 64 /\
    (ret = true -> zlen dst' = 64 /\ ptr' < zlen l) /\
    (ret = false -> ptr' = zlen l \/ 63 <= zlen dst') /\
    (ptr < zlen l -> zlen dst <= 62 -> ptr < ptr').
Proof.
  induction fuel as [|fuel IH]; intros dst ptr Hf Hl Hp Hd Hfuel; [lia|]. cbn [frame_loop].
  destruct (Z.ltb_spec ptr (zlen l)) as [Hlt|];
    [|exists false, dst, ptr; split_and!; try done; try lia].
  rewrite Hf by lia. cbv zeta. rewrite (drop_step l ptr) by lia. cbn [flat_map].
  assert (exists b, b = escape (get8 l ptr)) as [eb Heb] by eauto. rewrite <- Heb. unfold SPACE.
  rewrite u8_small by lia. unfold escape in Heb.
  destruct (Z.eqb_spec (get8 l ptr) JD_USB_BRIDGE_QBYTE_MAGIC) as [Hm|Hm]; subst eb.
  - case_cmp.
    + exists false, dst, ptr. rewrite (drop_step l ptr) by lia. cbn [flat_map].
      replace (escape (get8 l ptr)) with [JD_USB_BRIDGE_QBYTE_MAGIC; JD_USB_BRIDGE_QBYTE_LITERAL_MAGIC]
        by (unfold escape; by rewrite Hm, Z.eqb_refl). split_and!; try done; try lia.
    + edestruct (IH (dst ++ [JD_USB_BRIDGE_QBYTE_MAGIC; JD_USB_BRIDGE_QBYTE_LITERAL_MAGIC]) (ptr + 1))
        as (ret & dst' & ptr' & -> & E & ? & ? & ? & ? & ?); try done; try lia;
        [rewrite zlen_app; unfold zlen in *; simpl in *; lia|].
      rewrite zlen_app in *. change (zlen [_; _]) with 2 in *.
      exists ret, dst', ptr'. rewrite E, <- app_assoc. split_and!; try done; lia.
  - case_cmp.
    + exists true, dst, ptr. rewrite (drop_step l ptr) by lia. cbn [flat_map].
      replace (escape (get8 l ptr)) with [get8 l ptr]
        by (unfold escape; by rewrite (proj2 (Z.eqb_neq _ _) Hm)). split_and!; try done; try lia.
    + edestruct (IH (dst ++ [get8 l ptr]) (ptr + 1))
        as (ret & dst' & ptr' & -> & E & ? & ? & ? & ? & ?); try done; try lia;
        [rewrite zlen_app; unfold zlen in *; simpl in *; lia|].
      rewrite zlen_app in *. change (zlen [_]) with 1 in *.
      exists ret, dst', ptr'. rewrite E, <- app_assoc. split_and!; try done; lia.
Qed.

Lemma front_wire q off e :
  q_frame_at q off = e -> entry_ok e ->
  JD_FRAME_SIZE (drop (Z.to_nat off) (q_data q)) = zlen (wire_bytes e) /\
  forall i, 0 <= i < zlen (wire_bytes e) ->
    get8 (drop (Z.to_nat off) (q_data q)) i = get8 (wire_bytes e) i.
Proof.
  intros He Hok. destruct (zlen_wire_bytes e Hok) as [Hw Hw12]. destruct Hok as [Hl Hs].
  set (g := drop (Z.to_nat off) (q_data q)) in *.
  assert (e = mread g 0 (FRM_SIZE g)) as Heq by (rewrite <- He; reflexivity).
  pose proof (length_mread_le g 0 (FRM_SIZE g)) as Hlen. rewrite <- Heq in Hlen.
  assert (16 <= FRM_SIZE g) as Hg by (unfold zlen in *; lia).
  assert (forall i, 0 <= i < FRM_SIZE g -> get8 e i = get8 g i) as Hget.
  { intros i Hi. rewrite Heq. by rewrite get8_mread by lia. }
  assert (JD_FRAME_SIZE g = JD_FRAME_SIZE e) as Hsz by (unfold JD_FRAME_SIZE, f_size; rewrite Hget by lia; done).
  split; [lia|]. intros i Hi. unfold wire_bytes. rewrite get8_mread, Z.add_0_l by lia. symmetry. apply Hget.
  unfold FRM_SIZE. pose proof (align4_bounds (JD_FRAME_SIZE g)). lia.
Qed.

Lemma put_gap_spec q o es dst dst1 o1 :
  out_repr o q es -> zlen dst <= 64 -> put_gap o dst = (dst1, o1) ->
  dst1 ++ pending (usb_frame_gap o1) (usb_frame_ptr o1) es = dst ++ pending (usb_frame_gap o) (usb_frame_ptr o) es /\
  zlen dst <= zlen dst1 <= 64 /\ usb_frame_ptr o1 = usb_frame_ptr o /\
  (usb_frame_gap o1 = 1 -> usb_frame_ptr o1 = 0 -> 63 <= zlen dst1) /\
  (usb_frame_gap o = 1 -> usb_frame_ptr o = 0 -> zlen dst <= 62 -> zlen dst < zlen dst1) /\
  usb_queue o1 = usb_queue o /\ usb_panic_mode o1 = usb_panic_mode o /\ dmesg_timer o1 = dmesg_timer o.
Proof.
  intros _ Hd. unfold put_gap, SPACE. rewrite Z.geb_leb.
  destruct (Z.eqb_spec (usb_frame_gap o) 1) as [Hg|]; cbn [andb];
    [|intros [= <- <-]; split_and!; try done; lia].
  destruct (Z.eqb_spec (usb_frame_ptr o) 0) as [Hp|]; cbn [andb];
    [|intros [= <- <-]; split_and!; try done; lia].
  destruct (Z.leb_spec 2 (64 - zlen dst)); intros [= <- <-]; [|split_and!; try done; lia].
  cbn [usb_frame_gap usb_frame_ptr set_frame_gap usb_queue usb_panic_mode dmesg_timer].
  rewrite zlen_app. change (zlen [_; _]) with 2. unfold pending. rewrite Hp, Hg. cbn [Z.eqb gap_mark Pos.eqb app].
  rewrite <- app_assoc. split_and!; try done; lia.
Qed.

Lemma pending_frame gap e es : pending gap 0 (e :: es) = gap_mark gap ++ start_mark ++
  flat_map escape (wire_bytes e) ++ end_mark ++ flat_map enc_frame es.
Proof. unfold pending, enc_frame, enc_bytes. cbn [flat_map Z.eqb]. by rewrite <- !app_assoc. Qed.

(** The stream from inside a frame. *)
Definition open_frame (gap ptr : Z) (e : list Z) (es : list (list Z)) : list Z :=
  enc_bytes (drop (Z.to_nat ptr) (wire_bytes e)) ++ gap_mark gap ++ flat_map enc_frame es.

Lemma pending_open gap ptr e es : ptr <> 0 -> pending gap ptr (e :: es) = open_frame gap ptr e es.
Proof. intros H0. unfold pending. by rewrite (proj2 (Z.eqb_neq _ _) H0). Qed.

Lemma queue_loop_spec fuel : forall q o es dst,
  out_repr o q es -> usb_queue o = Some q -> zlen dst <= 64 -> 64 - zlen dst < 2 * Z.of_nat fuel ->
  exists ret dst' o' q' es',
    queue_loop fuel q o dst = Ret (ret, dst', o') /\
    dst' ++ pending (usb_frame_gap o') (usb_frame_ptr o') es' =
      dst ++ pending (usb_frame_gap o) (usb_frame_ptr o) es /\
    zlen dst <= zlen dst' <= 64 /\ out_repr o' q' es' /\ usb_queue o' = Some q' /\
    usb_panic_mode o' = usb_panic_mode o /\ dmesg_timer o' = dmesg_timer o /\
    (zlen dst <= 60 -> pending (usb_frame_gap o) (usb_frame_ptr o) es <> [] -> zlen dst < zlen dst').
Proof.
  induction fuel as [|fuel IH]; intros q o es dst Ho Hq Hd Hfuel; [lia|]. cbn [queue_loop].
  destruct (put_gap o dst) as [dst1 o1] eqn:Hgap.
  destruct (put_gap_spec q o es dst dst1 o1 Ho Hd Hgap) as (E1 & L1 & P1 & G1 & G2 & Hq1 & Hp1 & Ht1).
  assert (out_repr o1 q es) as Ho1 by (destruct Ho; constructor; rewrite ?P1; done).
  destruct es as [|e es].
  { destruct Ho as [Hqr _ Hin _]. rewrite q_front_none by done.
    exists false, dst1, o1, q, []. split_and!; try done; try lia; try congruence.
    intros. apply G2; try lia.
    - unfold pending in *. destruct (usb_frame_ptr o =? 0); [|done]. cbn [flat_map] in *. rewrite app_nil_r in *.
      unfold gap_mark in *. by destruct (Z.eqb_spec (usb_frame_gap o) 1).
    - destruct (decide (usb_frame_ptr o = 0)) as [|Hne]; [done|]. by destruct (Hin Hne) as (? & ? & ? & _). }
  pose proof (or_entries _ _ _ Ho) as Hent.
  apply Forall_cons in Hent as [[Heok Hesz] Hent].
  destruct (q_front_shift q e es (or_queue _ _ _ Ho)) as (off & q1 & Hfr & Hat & Hsh & Hq1r & _).
  rewrite Hfr. destruct (front_wire q off e Hat Heok) as [Hfs Hfg]. destruct (zlen_wire_bytes e Heok) as [Hw Hw12].
  unfold sizeof_frame in *. cbv zeta. rewrite Hfs. unfold SPACE at 1.
  destruct ((usb_frame_ptr o1 =? 0) && (64 - zlen dst1 <? 4)) eqn:Hfull.
  { bool_to_prop. exists false, dst1, o1, q, (e :: es). split_and!; try done; try congruence; try lia. }
  set (dst2 := if usb_frame_ptr o1 =? 0 then _ else dst1).
  assert (zlen dst1 <= zlen dst2 <= 64 /\ (usb_frame_ptr o1 = 0 -> zlen dst2 = zlen dst1 + 2 /\ zlen dst2 <= 62) /\
    dst2 ++ open_frame (usb_frame_gap o1) (usb_frame_ptr o1) e es =
    dst1 ++ pending (usb_frame_gap o1) (usb_frame_ptr o1) (e :: es)) as (L2 & S2 & E2).
  { unfold dst2. apply andb_false_iff in Hfull. destruct (Z.eqb_spec (usb_frame_ptr o1) 0) as [Hz|Hz].
    - destruct Hfull as [Hfull|Hfull]; [done|]. bool_to_prop. rewrite zlen_app. change (zlen [_; _]) with 2.
      split_and!; try done; try lia. rewrite Hz, pending_frame. unfold open_frame, enc_bytes, gap_mark.
      destruct (Z.eqb_spec (usb_frame_gap o1) 1); [specialize (G1 e0 Hz); lia|].
      rewrite <- !app_assoc. simpl. by rewrite drop_0.
    - split_and!; try done; try lia. unfold pending. rewrite (proj2 (Z.eqb_neq _ _) Hz). done. }
  assert (0 <= usb_frame_ptr o1 <= zlen (wire_bytes e)) as Hptr.
  { pose proof (or_ptr _ _ _ Ho1). destruct (decide (usb_frame_ptr o1 = 0)) as [|Hne]; [lia|].
    destruct (or_inside _ _ _ Ho1 Hne) as (? & ? & [= <- <-] & ?). lia. }
  destruct (frame_loop_spec (drop (Z.to_nat off) (q_data q)) (wire_bytes e) 300 dst2 (usb_frame_ptr o1))
    as (ret & dst3 & ptr & -> & E3 & Hpr & L3 & Hret & Hnret & Hprog); try done; try lia.
  assert (0 < ptr) as Hpos by (destruct (decide (usb_frame_ptr o1 = 0)); [destruct S2; lia|lia]).
  assert (dst3 ++ pending (usb_frame_gap o1) ptr (e :: es) = dst ++ pending (usb_frame_gap o) (usb_frame_ptr o) (e :: es)) as E4.
  { rewrite <- E1, <- E2. rewrite pending_open by lia. unfold open_frame, enc_bytes.
    rewrite <- !(app_assoc (flat_map _ _)), (app_assoc dst3), E3, <- app_assoc. done. }
  assert (out_repr (set_frame_ptr o1 ptr) q (e :: es)) as Ho3.
  { destruct Ho1. constructor; cbn; try done; try lia. intros _. exists e, es. split; [done|lia]. }
  obind. unfold SPACE. destruct ret.
  { destruct Hret; [done|]. exists true, dst3, (set_frame_ptr o1 ptr), q, (e :: es).
    cbn [usb_frame_gap usb_frame_ptr set_frame_ptr usb_queue usb_panic_mode dmesg_timer].
    split_and!; try done; try congruence; lia. }
  destruct (Z.ltb_spec (64 - zlen dst3) 2).
  { exists false, dst3, (set_frame_ptr o1 ptr), q, (e :: es).
    cbn [usb_frame_gap usb_frame_ptr set_frame_ptr usb_queue usb_panic_mode dmesg_timer].
    split_and!; try done; try congruence; lia. }
  destruct Hnret as [Hend|]; [done| |lia]. rewrite Hsh. obind.
  set (o4 := set_queue _ _). fold end_mark. assert (zlen end_mark = 2) as Hem by done.
  destruct (IH q1 o4 es (dst3 ++ end_mark)) as (ret & dst' & o' & q' & es' & -> & E5 & L5 & Ho5 & Hq5 & Hp5 & Ht5 & _);
    rewrite ?zlen_app; try done; try lia.
  rewrite zlen_app in L5.
  exists ret, dst', o', q', es'. split_and!; try done; try lia; try (cbn in *; congruence).
  rewrite E5, <- E4, pending_open, <- app_assoc by lia. f_equal. unfold open_frame, enc_bytes.
  rewrite Hend, drop_ge by (unfold zlen; lia). done.
Qed.

(** The host reads [n] times. *)
Fixpoint pulls (n : nat) (d : dmesg) (o : usb_out) : outcome (list (list Z) * usb_out) :=
  match n with
  | O => Ret ([], o)
  | S n => '(c, o) ← jd_usb_pull d o; '(cs, o) ← pulls n d o; Ret (c :: cs, o)
  end.

Lemma pending_nil gap ptr q o es :
  out_repr o q es -> usb_frame_ptr o = ptr -> pending gap ptr es = [] -> es = [] /\ ptr = 0.
Proof.
  intros Ho Hp Hnil. destruct es as [|e es].
  - split; [done|]. destruct (decide (ptr = 0)) as [|Hne]; [done|]. rewrite <- Hp in Hne.
    by destruct (or_inside _ _ _ Ho Hne) as (? & ? & ? & _).
  - exfalso. unfold pending in Hnil. destruct (ptr =? 0).
    + apply app_eq_nil in Hnil as [_ Hnil]. done.
    + unfold enc_bytes in Hnil. apply app_eq_nil in Hnil as [Hnil _]. by apply app_eq_nil in Hnil as [_ Hnil].
Qed.

Lemma pulls_stream d n : forall o q es,
  out_repr o q es -> usb_queue o = Some q -> usb_panic_mode o = 0 -> dmesg_timer o <> 1 ->
  zlen (pending (usb_frame_gap o) (usb_frame_ptr o) es) <= Z.of_nat n ->
  exists cs o' q',
    pulls n d o = Ret (cs, o') /\ concat cs = pending (usb_frame_gap o) (usb_frame_ptr o) es /\
    Forall (fun c => zlen c <= 64) cs /\ usb_queue o' = Some q' /\ q_repr q' [].
Proof.
  induction n as [|n IH]; intros o q es Ho Hq Hpm Hdt Hn.
  - destruct (pending _ _ es) eqn:Hnil; [|unfold zlen in Hn; simpl in Hn; lia].
    destruct (pending_nil _ _ q o es Ho eq_refl Hnil) as [-> Hz].
    exists [], o, q. split_and!; try done. apply (or_queue _ _ _ Ho).
  - cbn [pulls]. unfold jd_usb_pull. rewrite Hpm, Hq. cbn [negb Z.eqb].
    destruct (queue_loop_spec 40 q o es [] Ho Hq) as (ret & dst & o' & q' & es' & -> & E & L & Ho' & Hq' & Hp' & Ht' & Hprog);
      [done..|]. change (zlen []) with 0 in *. obind. rewrite Ht', (proj2 (Z.eqb_neq _ _) Hdt).
    replace (if ret then Ret (dst, o') else Ret (dst, o')) with (Ret (dst, o')) by by destruct ret. obind.
    cbn [app] in E. destruct (IH o' q' es') as (cs & o'' & q'' & -> & E'' & Hall & Hq'' & Hr''); try done; try congruence.
    + assert (zlen dst + zlen (pending (usb_frame_gap o') (usb_frame_ptr o') es') =
        zlen (pending (usb_frame_gap o) (usb_frame_ptr o) es)) as Hlen by by rewrite <- zlen_app, E.
      destruct (pending (usb_frame_gap o) (usb_frame_ptr o) es) eqn:Hnil.
      * change (zlen []) with 0 in Hlen. lia.
      * specialize (Hprog ltac:(lia) ltac:(done)). lia.
    + obind. exists (dst :: cs), o'', q''. split_and!; try done; [by rewrite <- E, <- E''|].
      constructor; [lia|done].
Qed.

(** ** The receiver of that stream *)

Definition rx_at (u : usb) (ptr state : Z) (magic : bool) (buf : list Z) : usb :=
  set_in u {| usb_rx_ptr := ptr; usb_rx_state := state; usb_rx_was_magic := magic; usb_rx_buf := buf |}.

Lemma usb_push_app u a b : jd_usb_push u (a ++ b) = (u ← jd_usb_push u a; jd_usb_push u b).
Proof.
  revert u; induction a as [|c a IH]; intros u; cbn [app jd_usb_push]; [done|].
  destruct (jd_usb_push_byte u c); obind; [apply IH|done|done].
Qed.

(** The quoting bytes are told apart. *)
Lemma qbytes_ne :
  JD_USB_BRIDGE_QBYTE_MAGIC <> JD_USB_BRIDGE_QBYTE_LITERAL_MAGIC /\
  JD_USB_BRIDGE_QBYTE_MAGIC <> JD_USB_BRIDGE_QBYTE_FRAME_START /\
  JD_USB_BRIDGE_QBYTE_MAGIC <> JD_USB_BRIDGE_QBYTE_FRAME_END /\
  JD_USB_BRIDGE_QBYTE_MAGIC <> JD_USB_BRIDGE_QBYTE_FRAME_GAP /\
  JD_USB_BRIDGE_QBYTE_LITERAL_MAGIC <> JD_USB_BRIDGE_QBYTE_FRAME_START /\
  JD_USB_BRIDGE_QBYTE_LITERAL_MAGIC <> JD_USB_BRIDGE_QBYTE_FRAME_END /\
  JD_USB_BRIDGE_QBYTE_LITERAL_MAGIC <> JD_USB_BRIDGE_QBYTE_FRAME_GAP /\
  JD_USB_BRIDGE_QBYTE_FRAME_START <> JD_USB_BRIDGE_QBYTE_FRAME_END /\
  JD_USB_BRIDGE_QBYTE_FRAME_START <> JD_USB_BRIDGE_QBYTE_FRAME_GAP /\
  JD_USB_BRIDGE_QBYTE_FRAME_END <> JD_USB_BRIDGE_QBYTE_FRAME_GAP.
Proof.
  pose proof qbytes_distinct as Hnd. repeat (apply NoDup_cons in Hnd as [?Hn Hnd]).
  rewrite !not_elem_of_cons in *. intuition.
Qed.

(** Comparisons of the marks compute. *)
Ltac qbytes :=
  destruct qbytes_ne as (? & ? & ? & ? & ? & ? & ? & ? & ? & ?); pose proof qbytes_nonzero;
  repeat first [ rewrite Z.eqb_refl | rewrite (proj2 (Z.eqb_neq _ _)) by congruence ]; cbn [negb orb].

Lemma push_data u ptr buf c :
  ptr <= 251 -> 0 <= ptr -> is_byte c ->
  jd_usb_push (rx_at u ptr JD_USB_BRIDGE_QBYTE_FRAME_START false buf) (escape c) =
  Ret (rx_at u (ptr + 1) JD_USB_BRIDGE_QBYTE_FRAME_START false (put8 buf ptr c)).
Proof.
  intros Hp Hp0 Hc. unfold escape, rx_at. destruct (Z.eqb_spec c JD_USB_BRIDGE_QBYTE_MAGIC) as [->|Hne].
  - cbn [jd_usb_push]. unfold jd_usb_push_byte at 1. cbn [us_in usb_rx_was_magic set_in]. qbytes. obind.
    unfold jd_usb_push_byte. cbn [us_in usb_rx_was_magic set_in set_rx]. qbytes. obind. unfold rx_data.
    cbn [us_in usb_rx_state usb_rx_ptr usb_rx_buf set_in set_rx set_rx_buf usb_rx_was_magic]. qbytes.
    unfold sizeof_frame. rewrite Z.geb_leb, (proj2 (Z.leb_gt _ _)), u8_small by lia. done.
  - cbn [jd_usb_push]. unfold jd_usb_push_byte. cbn [us_in usb_rx_was_magic set_in]. qbytes. obind. unfold rx_data.
    cbn [us_in usb_rx_state usb_rx_ptr usb_rx_buf set_in set_rx set_rx_buf usb_rx_was_magic]. qbytes.
    unfold sizeof_frame. rewrite Z.geb_leb, (proj2 (Z.leb_gt _ _)), u8_small by lia. done.
Qed.

Lemma mwrite_cons buf p b l : 0 <= p -> p + 1 + zlen l <= zlen buf ->
  mwrite (mwrite buf p [b]) (p + 1) l = mwrite buf p (b :: l).
Proof. intros Hp Hl. apply (mwrite_app buf p [b] l); [done|]. change (zlen [b]) with 1. lia. Qed.

Lemma push_body l : forall u ptr buf,
  Forall is_byte l -> 0 <= ptr -> ptr + zlen l <= 252 -> zlen buf = 252 ->
  jd_usb_push (rx_at u ptr JD_USB_BRIDGE_QBYTE_FRAME_START false buf) (flat_map escape l) =
  Ret (rx_at u (ptr + zlen l) JD_USB_BRIDGE_QBYTE_FRAME_START false (mwrite buf ptr l)).
Proof.
  induction l as [|b l IH]; intros u ptr buf Hb Hp Hl Hbuf; cbn [flat_map].
  - cbn [jd_usb_push]. unfold mwrite. simpl. by rewrite Z.add_0_r, Nat.add_0_r, take_drop.
  - apply Forall_cons in Hb as [Hb Hbs]. change (zlen (b :: l)) with (Z.of_nat (S (length l))) in *.
    rewrite usb_push_app, push_data by (done || lia). obind.
    rewrite IH by (rewrite ?zlen_put8; unfold zlen; done || lia).
    rewrite put8_mwrite, u8_small, mwrite_cons by (unfold zlen in *; done || lia).
    do 2 f_equal. unfold zlen. lia.
Qed.

(** A packet for the bridge itself. *)
Definition for_bridge (f : list Z) : bool :=
  has_flag (f_flags f) JD_FRAME_FLAG_BROADCAST && has_flag (f_flags f) JD_FRAME_FLAG_COMMAND
  && (u32 (f_device_identifier f) =? JD_SERVICE_CLASS_USB_BRIDGE).

(** What a frame that arrives whole is for the receiver: an error when its CRC
    is wrong, a request to the bridge, or a frame to send on the bus. *)
Definition deliver (u : usb) (e : list Z) : outcome usb :=
  let frame := mwrite (usb_rx_buf (us_in u)) 0 (wire_bytes e) in
  let u := rx_at u (JD_FRAME_SIZE e) 0 false frame in
  u ← (if negb (jd_frame_crc_ok e) then Ret (usb_emit u UsbError)
       else if for_bridge e then jd_usb_handle_processing_packet u frame
       else '(_, frame, tx) ← jd_send_frame_raw self (us_tx u) frame;
            Ret (rx_at (set_ustx (usb_emit u UsbNetDisable) tx) (JD_FRAME_SIZE e) 0 false frame));
  Ret (rx_at u 0 0 false (usb_rx_buf (us_in u))).

Fixpoint deliver_all (u : usb) (es : list (list Z)) : outcome usb :=
  match es with
  | [] => Ret u
  | e :: es => u ← deliver u e; deliver_all u es
  end.

Lemma wire_prefix buf e off n :
  entry_ok e -> zlen buf = 252 -> JD_FRAME_SIZE e <= 252 -> 0 <= off -> 0 <= n -> off + n <= JD_FRAME_SIZE e ->
  mread (mwrite buf 0 (wire_bytes e)) off n = mread e off n.
Proof.
  intros Hok Hb Hs Ho Hn Hlt. destruct (zlen_wire_bytes e Hok) as [Hw _].
  transitivity (mread (wire_bytes e) off n); [|unfold wire_bytes; rewrite mread_mread by lia; f_equal; lia].
  apply list_eq. intros i. rewrite !lookup_mread. case_decide; [|done].
  rewrite lookup_mwrite by (unfold zlen in *; lia). rewrite decide_True by (unfold zlen in *; lia). f_equal. lia.
Qed.

Lemma wire_head buf e :
  entry_ok e -> zlen buf = 252 -> JD_FRAME_SIZE e <= 252 ->
  let frame := mwrite buf 0 (wire_bytes e) in
  JD_FRAME_SIZE frame = JD_FRAME_SIZE e /\ f_crc frame = f_crc e /\ for_bridge frame = for_bridge e /\
  zlen frame = 252.
Proof.
  intros Hok Hb Hs frame. destruct (zlen_wire_bytes e Hok) as [Hw Hw12].
  assert (forall i, 0 <= i < 12 -> get8 frame i = get8 e i) as Hget.
  { intros i Hi. rewrite <- (Z.add_0_r i), <- !(get8_mread _ i 1 0) by lia. f_equal. apply wire_prefix; done || lia. }
  split_and!.
  - unfold JD_FRAME_SIZE, f_size. by rewrite Hget by lia.
  - unfold f_crc, get16. f_equal. apply wire_prefix; done || lia.
  - unfold for_bridge, f_flags, f_device_identifier, get64. rewrite Hget by lia.
    assert (mread frame 4 8 = mread e 4 8) as -> by (apply wire_prefix; done || lia). done.
  - unfold frame. rewrite zlen_mwrite; lia.
Qed.

Lemma send_frame_raw_len st f r f' st' :
  jd_send_frame_raw self st f = Ret (r, f', st') -> zlen f' = zlen f.
Proof.
  unfold jd_send_frame_raw, jd_rx_frame_received_loopback, jd_rx_frame_received_core.
  destruct (if jd_need_to_send self f then _ else _) as [[r1 st1]| |]; obind; [|done..].
  destruct (jd_services_needs_frame self f); cbn [negb].
  - destruct (jd_queue_push _ _) as [[r2 q]| |]; obind; [|done..].
    intros [= <- <- <-]. unfold set_f_flags. apply zlen_put8.
  - obind. by intros [= <- <- <-].
Qed.

Lemma push_frame_in u f r u' : push_frame u f = Ret (r, u') -> us_in u' = us_in u.
Proof.
  unfold push_frame. destruct (usb_queue (us_out u)); [|done].
  destruct (jd_queue_push _ _) as [[? ?]| |]; obind; [|done..]. by intros [= _ <-].
Qed.

Lemma processing_packet_in u pkt u' : jd_usb_handle_processing_packet u pkt = Ret u' -> us_in u' = us_in u.
Proof.
  assert (forall u0 cmd r u1, jd_usb_respond_to_processing_packet u0 cmd = Ret (r, u1) -> us_in u1 = us_in u0) as Hr.
  { intros u0 cmd r u1. unfold jd_usb_respond_to_processing_packet.
    destruct (push_frame _ _) as [[r1 u2]| |] eqn:E; obind; [|done..]. intros [= _ <-].
    apply push_frame_in in E. done. }
  unfold jd_usb_handle_processing_packet. cbv zeta.
  repeat case_match; intros Hh;
    match goal with Hh : mbind _ (jd_usb_respond_to_processing_packet ?v ?c) = _ |- _ =>
      destruct (jd_usb_respond_to_processing_packet v c) as [[? ?]| |] eqn:E; cbn [mbind outcome_bind] in Hh; try done;
      injection Hh as <-; apply Hr in E; done end.
Qed.

Lemma handle_frame_delivers u e :
  entry_ok e -> JD_FRAME_SIZE e <= 252 -> zlen (usb_rx_buf (us_in u)) = 252 ->
  (u ← jd_usb_handle_frame
        (rx_at u (JD_FRAME_SIZE e) 0 false (mwrite (usb_rx_buf (us_in u)) 0 (wire_bytes e)));
   Ret (set_in u (set_rx (us_in u) 0 (usb_rx_state (us_in u)) (usb_rx_was_magic (us_in u))))) = deliver u e.
Proof.
  intros Hok Hs Hb. destruct (wire_head _ e Hok Hb Hs) as (Hfs & Hcrc & Hbr & Hlen).
  destruct (zlen_wire_bytes e Hok) as [_ Hw12].
  unfold jd_usb_handle_frame, deliver. cbn [rx_at us_in set_in usb_rx_buf usb_rx_ptr]. rewrite Hfs, Z.ltb_irrefl, Hcrc.
  rewrite wire_prefix by (done || lia). fold (frame_crc e). fold (jd_frame_crc_ok e).
  destruct (negb (jd_frame_crc_ok e)); [done|]. fold (for_bridge (mwrite (usb_rx_buf (us_in u)) 0 (wire_bytes e))).
  rewrite Hbr. destruct (for_bridge e).
  - destruct (jd_usb_handle_processing_packet _ _) as [u'| |] eqn:Hpp; obind; [|done..].
    apply processing_packet_in in Hpp. cbn [rx_at us_in set_in] in Hpp. unfold rx_at. by rewrite Hpp.
  - cbn [us_tx usb_emit rx_at set_in]. destruct (jd_send_frame_raw _ _ _) as [[[? frame'] tx]| |]; obind; done.
Qed.

Lemma deliver_idle u e u' :
  entry_ok e -> JD_FRAME_SIZE e <= 252 -> zlen (usb_rx_buf (us_in u)) = 252 -> deliver u e = Ret u' ->
  zlen (usb_rx_buf (us_in u')) = 252 /\ u' = rx_at u' 0 0 false (usb_rx_buf (us_in u')).
Proof.
  intros Hok Hs Hb. destruct (wire_head _ e Hok Hb Hs) as (_ & _ & _ & Hlen). unfold deliver. cbv zeta.
  match goal with |- mbind _ ?x = _ -> _ => destruct x as [u1| |] eqn:E end; obind; [|done..]. intros [= <-].
  cbn [us_in rx_at set_in usb_rx_buf]. split; [|done]. revert E. destruct (negb _); [by intros [= <-]|].
  destruct (for_bridge e); [intros Hpp%processing_packet_in; by rewrite Hpp|].
  destruct (jd_send_frame_raw _ _ _) as [[[? frame'] tx]| |] eqn:Hsr; obind; [|done..]. intros [= <-].
  apply send_frame_raw_len in Hsr. cbn [us_in rx_at set_in usb_rx_buf]. by rewrite Hsr.
Qed.

Lemma push_gap u gap buf :
  jd_usb_push (rx_at u 0 0 false buf) (gap_mark gap) = Ret (rx_at u 0 0 false buf).
Proof.
  unfold gap_mark. destruct (gap =? 1); [|done]. cbn [jd_usb_push]. unfold jd_usb_push_byte at 1.
  cbn [us_in usb_rx_was_magic rx_at set_in]. qbytes. obind. unfold jd_usb_push_byte.
  cbn [us_in usb_rx_was_magic set_in set_rx rx_at]. qbytes.
  rewrite orb_true_r. done.
Qed.

Lemma push_start u buf :
  jd_usb_push (rx_at u 0 0 false buf) start_mark = Ret (rx_at u 0 JD_USB_BRIDGE_QBYTE_FRAME_START false buf).
Proof.
  unfold start_mark. cbn [jd_usb_push]. unfold jd_usb_push_byte at 1.
  cbn [us_in usb_rx_was_magic rx_at set_in]. qbytes. obind. unfold jd_usb_push_byte.
  cbn [us_in usb_rx_was_magic set_in set_rx rx_at usb_rx_ptr]. qbytes. done.
Qed.

Lemma push_end u ptr buf :
  jd_usb_push (rx_at u ptr JD_USB_BRIDGE_QBYTE_FRAME_START false buf) end_mark =
  (u ← jd_usb_handle_frame (rx_at u ptr 0 false buf);
   Ret (set_in u (set_rx (us_in u) 0 (usb_rx_state (us_in u)) (usb_rx_was_magic (us_in u))))).
Proof.
  unfold end_mark. cbn [jd_usb_push]. unfold jd_usb_push_byte at 1.
  cbn [us_in usb_rx_was_magic rx_at set_in]. qbytes. obind. unfold jd_usb_push_byte.
  cbn [us_in usb_rx_was_magic set_in set_rx rx_at usb_rx_ptr usb_rx_state]. qbytes.
  cbn [mbind outcome_bind us_in usb_rx_was_magic set_in set_rx usb_rx_state usb_rx_ptr usb_rx_buf]. qbytes.
  unfold rx_at, set_in. cbn [us_out us_in usb_fwd_en usb_serial_en us_tx us_trace].
  destruct (jd_usb_handle_frame _); obind; done.
Qed.

Lemma push_stream es : forall u buf,
  Forall (fun e => entry_ok e /\ JD_FRAME_SIZE e <= sizeof_frame) es -> Forall (Forall is_byte) es ->
  zlen buf = 252 ->
  jd_usb_push (rx_at u 0 0 false buf) (flat_map enc_frame es) = deliver_all (rx_at u 0 0 false buf) es.
Proof.
  induction es as [|e es IH]; intros u buf Hes Hb Hbuf; [done|]. cbn [flat_map deliver_all].
  apply Forall_cons in Hes as [[Hok Hs] Hes]. apply Forall_cons in Hb as [Hbe Hb]. unfold sizeof_frame in Hs.
  destruct (zlen_wire_bytes e Hok) as [Hw Hw12].
  change (enc_frame e) with (start_mark ++ flat_map escape (wire_bytes e) ++ end_mark).
  rewrite !usb_push_app, push_start. obind.
  assert (Forall is_byte (wire_bytes e)) by (unfold wire_bytes; auto with jd).
  rewrite usb_push_app, push_body by (done || lia). obind.
  rewrite push_end, Hw, Z.add_0_l.
  pose proof (handle_frame_delivers (rx_at u 0 0 false buf) e Hok Hs Hbuf) as Hd.
  change (rx_at (rx_at u 0 0 false buf) (JD_FRAME_SIZE e) 0 false _)
    with (rx_at u (JD_FRAME_SIZE e) 0 false (mwrite buf 0 (wire_bytes e))) in Hd. rewrite Hd.
  destruct (deliver (rx_at u 0 0 false buf) e) as [u1| |] eqn:E; obind; [|done..].
  destruct (deliver_idle (rx_at u 0 0 false buf) e u1 Hok Hs Hbuf E) as [Hl ->]. by apply IH.
Qed.

(** C20. Frames cross the USB link whole. When the bridge has the frames [es]
    queued (and perhaps a note that others were lost) and no log to send, a
    host that keeps reading gets, in packets of at most 64 bytes and within one
    read per byte of the stream, a stream that empties the queue; and a
    [jd_usb_push] of that stream, however the bytes to quote fall, hands the
    frames to the receiver in order, each once and byte for byte: an error when
    its CRC is wrong, a request to the bridge, or a frame sent on the bus. *)
Theorem usb_stream_roundtrip d o q es n (u : usb) :
  usb_queue o = Some q -> q_repr q es -> usb_frame_ptr o = 0 -> usb_panic_mode o = 0 -> dmesg_timer o <> 1 ->
  Forall (fun e => JD_FRAME_SIZE e <= sizeof_frame /\ entry_ok e /\ Forall is_byte e) es ->
  us_in u = {| usb_rx_ptr := 0; usb_rx_state := 0; usb_rx_was_magic := false; usb_rx_buf := usb_rx_buf (us_in u) |} ->
  zlen (usb_rx_buf (us_in u)) = sizeof_frame ->
  2 + zlen (flat_map enc_frame es) <= Z.of_nat n ->
  exists cs o' q',
    pulls n d o = Ret (cs, o') /\ Forall (fun c => zlen c <= 64) cs /\
    usb_queue o' = Some q' /\ q_repr q' [] /\
    jd_usb_push u (concat cs) = deliver_all u es.
Proof.
  intros Hq Hr Hptr Hpm Hdt Hes Hin Hbuf Hn. unfold sizeof_frame in *.
  assert (out_repr o q es) as Ho.
  { constructor; [done|lia|by rewrite Hptr|]. eapply Forall_impl; [exact Hes|]. simpl. tauto. }
  assert (pending (usb_frame_gap o) (usb_frame_ptr o) es = gap_mark (usb_frame_gap o) ++ flat_map enc_frame es) as Hpend
    by by rewrite Hptr.
  assert (zlen (gap_mark (usb_frame_gap o)) <= 2) by (unfold gap_mark; by destruct (_ =? 1)).
  destruct (pulls_stream d n o q es Ho Hq Hpm Hdt) as (cs & o' & q' & E & Ec & Hcs & Hq' & Hr');
    [rewrite Hpend, zlen_app; lia|].
  exists cs, o', q'. split_and!; try done. rewrite Ec, Hpend, usb_push_app.
  replace u with (rx_at u 0 0 false (usb_rx_buf (us_in u))) by (unfold rx_at; rewrite <- Hin; by destruct u).
  rewrite push_gap. obind. apply push_stream; [..|done]; eapply Forall_impl; try exact Hes; simpl; tauto.
Qed.
End Usb.

(** *** A concrete bridge *)

#[export] Instance demo_usb_spec : UsbSpec.
Proof.
  refine {| JD_USB_BRIDGE_QBYTE_MAGIC := 0xfe; JD_USB_BRIDGE_QBYTE_LITERAL_MAGIC := 0xf8;
    JD_USB_BRIDGE_QBYTE_RESERVED := 0xf9; JD_USB_BRIDGE_QBYTE_SERIAL_GAP := 0xfa;
    JD_USB_BRIDGE_QBYTE_FRAME_GAP := 0xfb; JD_USB_BRIDGE_QBYTE_FRAME_START := 0xfc;
    JD_USB_BRIDGE_QBYTE_FRAME_END := 0xfd; JD_USB_BRIDGE_CMD_ENABLE_PACKETS := 0x81;
    JD_USB_BRIDGE_CMD_DISABLE_PACKETS := 0x80; JD_USB_BRIDGE_CMD_ENABLE_LOG := 0x83;
    JD_USB_BRIDGE_CMD_DISABLE_LOG := 0x82; JD_SERVICE_CLASS_USB_BRIDGE := 0x18f61a4a |}.
  - by apply (bool_decide_unpack _); vm_compute.
  - done.
Defined.

Definition usb_out0 : usb_out :=
  {| usb_queue := None; usb_frame_ptr := 0; usb_frame_gap := 0; usb_panic_mode := 0; serial_buf_ptr := 0;
     serial_buf_len := 0; serial_buf := replicate 64 0; dmesg_timer := 0; dmesg_ptr := 0 |}.
Definition usb0 : usb :=
  {| us_out := usb_out0;
     us_in := {| usb_rx_ptr := 0; usb_rx_state := 0; usb_rx_was_magic := false; usb_rx_buf := replicate 252 0 |};
     usb_fwd_en := false; usb_serial_en := false; us_tx := txrx0; us_trace := [] |}.
Definition demo_queue : queue :=
  match jd_queue_push (jd_queue_alloc JD_USB_QUEUE_SIZE) (jd_compute_crc sample_frame) with
  | Ret (_, q) => q | _ => jd_queue_alloc 0 end.

Lemma usb_stream_roundtrip_witness :
  exists cs o' q',
    pulls 40 dmesg0 (set_frame_gap (set_queue usb_out0 (Some demo_queue)) 1) = Ret (cs, o') /\
    Forall (fun c => zlen c <= 64) cs /\ usb_queue o' = Some q' /\ q_repr q' [] /\
    jd_usb_push 77 usb0 (concat cs) = deliver_all 77 usb0 [q_entry (jd_compute_crc sample_frame)].
Proof.
  apply (usb_stream_roundtrip 77 dmesg0 (set_frame_gap (set_queue usb_out0 (Some demo_queue)) 1) demo_queue);
    try (vm_compute; done).
  - split; [constructor; vm_compute; done|]. apply q_linear; try (vm_compute; done).
  - repeat constructor; vm_compute; done.
Defined.
