(* ===== verification/Dcfg.v ===== *)
(** * Device configuration ([source/jd_dcfg.c], [inc/jd_dcfg.h])

    A configuration image in flash: a header, a table of entries sorted by the
    hash of their keys with a jump table over it, and the strings the entries
    point to. An image is the memory from its header on, with its address; a
    [const dcfg_entry_t *] is an address. [configs] holds the user's image and
    the manufacturer's, both checked by [dcfg_validate] before they are used.
    [None] is NULL. *)
From stdpp Require Import sets.
From S2P Require Import Prelude Util.

Record config := { cf_addr : Z; cf_img : list Z }.

(** No pin ([services/interfaces/jd_pins.h]). *)
Definition NO_PIN : Z := 0xff.

Definition DCFG_MAGIC0 : Z := 0x47464344.
Definition DCFG_MAGIC1 : Z := 0xcab49b0a.
Definition DCFG_KEYSIZE : Z := 15.
Definition DCFG_TYPE_BITS : Z := 2.
Definition DCFG_TYPE_MASK : Z := 3.
Definition DCFG_HASH_JUMP_ENTRIES : Z := 32.
Definition DCFG_HASH_SHIFT : Z := 11.
Definition DCFG_TYPE_U32 : Z := 0.
Definition DCFG_TYPE_I32 : Z := 1.
Definition DCFG_TYPE_STRING : Z := 2.
Definition DCFG_TYPE_BLOB : Z := 3.
Definition DCFG_TYPE_INVALID : Z := 0xff.
Definition DCFG_HEADER_SIZE : Z := 88.
Definition DCFG_ENTRY_SIZE : Z := 24.

(** ** The structs *)

Definition hd_magic0 (m : list Z) : Z := get32 m 0.
Definition hd_magic1 (m : list Z) : Z := get32 m 4.
Definition hd_total_bytes (m : list Z) : Z := get32 m 8.
Definition hd_num_entries (m : list Z) : Z := get16 m 12.
Definition hash_jump (m : list Z) (i : Z) : Z := get16 m (24 + 2 * i).

(** The offset of [entries[i]] and its fields. *)
Definition ent_off (i : Z) : Z := DCFG_HEADER_SIZE + DCFG_ENTRY_SIZE * i.
Definition ent_key_mem (m : list Z) (i : Z) : list Z := drop (Z.to_nat (ent_off i)) m.
Definition ent_hash (m : list Z) (i : Z) : Z := get16 m (ent_off i + 16).
Definition ent_type_size (m : list Z) (i : Z) : Z := get16 m (ent_off i + 18).
Definition ent_value (m : list Z) (i : Z) : Z := get32 m (ent_off i + 20).

(** The type of an entry; that of NULL is invalid. *)
Definition dcfg_entry_type (e : option (list Z * Z)) : Z :=
  match e with
  | Some (m, i) => Z.land (ent_type_size m i) DCFG_TYPE_MASK
  | None => DCFG_TYPE_INVALID
  end.
Definition dcfg_entry_size (m : list Z) (i : Z) : Z := Z.shiftr (ent_type_size m i) DCFG_TYPE_BITS.

Definition keyhash (key : list Z) : Z :=
  let h := jd_hash_fnv1a key in u16 (Z.lxor h (Z.shiftr h 16)).

(** ** Validation *)

(** [CHECK(code, cond)]. *)
Notation "'CHECK' code , c ;; k" := (if c then k else code)
  (at level 10, code at level 9, c at level 99, k at level 200, only parsing) : jd_scope.

(** [for (i = ...; ...; ++i)] over a body that returns 0 or an error code. *)
Fixpoint for_check (n : nat) (i : Z) (body : Z -> Z) : Z :=
  match n with
  | O => 0
  | S n => let r := body i in if r =? 0 then for_check n (i + 1) body else r
  end.

Definition check_jump (m : list Z) (num i : Z) : Z :=
  let idx := hash_jump m i in
  CHECK 2017, idx <=? num ;;
  CHECK 2018, Z.shiftr (ent_hash m idx) DCFG_HASH_SHIFT >=? i ;;
  CHECK 2019, (idx =? 0) || (Z.shiftr (ent_hash m (idx - 1)) DCFG_HASH_SHIFT <? i) ;;
  0.

Definition check_entry (m : list Z) (data_start total_bytes i : Z) : Z :=
  let key := cstring (ent_key_mem m i) in
  CHECK 2006, zlen key <=? DCFG_KEYSIZE ;;
  CHECK 2007, keyhash key =? ent_hash m i ;;
  CHECK 2008, (i =? 0) || (ent_hash m (i - 1) <=? ent_hash m i) ;;
  let size := dcfg_entry_size m i in
  let ty := dcfg_entry_type (Some (m, i)) in
  if (ty =? DCFG_TYPE_U32) || (ty =? DCFG_TYPE_I32) then
    CHECK 2009, size =? 0 ;; 0
  else if (ty =? DCFG_TYPE_STRING) || (ty =? DCFG_TYPE_BLOB) then
    CHECK 2010, ent_value m i >=? data_start ;;
    CHECK 2011, ent_value m i <? total_bytes ;;
    CHECK 2012, u32 (ent_value m i + size) <? total_bytes ;;
    CHECK 2013, get8 m (u32 (ent_value m i + size)) =? 0 ;;
    0
  else 0.

Definition dcfg_validate (hd : option config) : Z :=
  match hd with
  | None => 2000
  | Some c =>
      let m := cf_img c in
      CHECK 2001, Z.land (cf_addr c) 3 =? 0 ;;
      CHECK 2002, hd_magic0 m =? DCFG_MAGIC0 ;;
      CHECK 2003, hd_magic1 m =? DCFG_MAGIC1 ;;
      let num := hd_num_entries m in
      let data_start := DCFG_HEADER_SIZE + DCFG_ENTRY_SIZE * (num + 1) in
      let total_bytes := hd_total_bytes m in
      CHECK 2004, total_bytes <? 128 * 1024 ;;
      CHECK 2014, data_start <=? total_bytes ;;
      CHECK 2015, ent_hash m num =? 0xffff ;;
      CHECK 2016, ent_type_size m num =? 0xffff ;;
      let r := for_check (Z.to_nat DCFG_HASH_JUMP_ENTRIES) 0 (check_jump m num) in
      if negb (r =? 0) then r
      else if num =? 0 then 0
      else for_check (Z.to_nat num) 0 (check_entry m data_start total_bytes)
  end.

(** ** Lookup *)

(** [while (idx < num && entries[idx].hash <= hash)]; [n] is [num - idx]. The
    index of the entry. *)
Fixpoint get_loop (n : nat) (m : list Z) (key : list Z) (hash num idx : Z) : option Z :=
  match n with
  | O => None
  | S n =>
      if (idx <? num) && (ent_hash m idx <=? hash) then
        if (ent_hash m idx =? hash) && bool_decide (mread (ent_key_mem m idx) 0 (zlen key) = key)
        then Some idx
        else get_loop n m key hash num (idx + 1)
      else None
  end.

Definition get_entry (hd : option config) (key : option (list Z)) : option Z :=
  match key, hd with
  | Some key, Some c =>
      let m := cf_img c in
      if zlen key >? DCFG_KEYSIZE then None
      else
        let hash := keyhash key in
        let hidx := Z.shiftr hash DCFG_HASH_SHIFT in
        let idx := hash_jump m hidx in
        let num := hd_num_entries m in
        get_loop (Z.to_nat (num - idx)) m key hash num idx
  | _, _ => None
  end.

(** [dcfg_inited] and [configs]. *)
Record dcfg := {
  dcfg_inited : bool;
  user_config : option config;
  mfr_config : option config;
}.
Definition dcfg0 : dcfg := {| dcfg_inited := false; user_config := None; mfr_config := None |}.
Definition configs (d : dcfg) : list (option config) := [user_config d; mfr_config d].

Section Dcfg.
(** The image at [JD_DCFG_BASE_ADDR], and [target_in_irq()]. *)
Context (base : config) (in_irq : bool).

Definition dcfg_init (d : dcfg) : outcome dcfg :=
  if dcfg_inited d then Ret d
  else if in_irq then Panic
  else
    Ret {| dcfg_inited := true; user_config := user_config d;
           mfr_config := if dcfg_validate (Some base) =? 0 then Some base else mfr_config d |}.

Definition dcfg_set_user_config (d : dcfg) (hd : option config) : outcome (Z * dcfg) :=
  d ← dcfg_init d;
  let err := dcfg_validate hd in
  Ret (err, {| dcfg_inited := dcfg_inited d; user_config := if err =? 0 then hd else None;
               mfr_config := mfr_config d |}).

(** The first configuration with the key: the image and the index. *)
Fixpoint find_config (cs : list (option config)) (key : option (list Z)) : option (config * Z) :=
  match cs with
  | [] => None
  | c :: cs =>
      match c, get_entry c key with
      | Some c, Some i => Some (c, i)
      | _, _ => find_config cs key
      end
  end.

Definition ent_addr (c : config) (i : Z) : Z := cf_addr c + ent_off i.

Definition dcfg_get_entry (d : dcfg) (key : option (list Z)) : outcome (option (config * Z) * dcfg) :=
  d ← dcfg_init d;
  Ret (find_config (configs d) key, d).

(** [e - hd->entries]: the difference of a pointer into another image is not
    an index of this table. *)
Definition entry_idx (hd : option config) (e : Z) : Z :=
  match hd with
  | None => -1
  | Some c =>
      let idx := (e - ent_addr c 0) / DCFG_ENTRY_SIZE in
      if (0 <=? idx) && (idx <? hd_num_entries (cf_img c)) then idx else -1
  end.

(** [while (idx < hd->num_entries)]; [n] is [num_entries - idx]. *)
Fixpoint next_loop (n : nat) (c : config) (prefix : list Z) (idx : Z) : option Z :=
  match n with
  | O => None
  | S n =>
      if idx <? hd_num_entries (cf_img c) then
        if bool_decide (mread (ent_key_mem (cf_img c) idx) 0 (zlen prefix) = prefix) then Some (ent_addr c idx)
        else next_loop n c prefix (idx + 1)
      else None
  end.

Fixpoint next_entry (cs : list (option config)) (prefix : list Z) (previous : option Z) : option Z :=
  match cs with
  | [] => None
  | None :: cs => next_entry cs prefix previous
  | Some c :: cs =>
      let idx := match previous with Some e => entry_idx (Some c) e | None => -1 end in
      match previous with
      | Some _ =>
          if idx <? 0 then next_entry cs prefix previous
          else match next_loop (Z.to_nat (hd_num_entries (cf_img c) - (idx + 1))) c prefix (idx + 1) with
               | Some e => Some e
               | None => next_entry cs prefix None
               end
      | None =>
          match next_loop (Z.to_nat (hd_num_entries (cf_img c))) c prefix 0 with
          | Some e => Some e
          | None => next_entry cs prefix None
          end
      end
  end.

Definition dcfg_get_next_entry (d : dcfg) (prefix : list Z) (previous : option Z) : outcome (option Z * dcfg) :=
  d ← dcfg_init d;
  Ret (next_entry (configs d) prefix previous, d).

Definition entry_of (e : option (config * Z)) : option (list Z * Z) :=
  match e with Some (c, i) => Some (cf_img c, i) | None => None end.
Definition entry_value (e : option (config * Z)) : Z :=
  match e with Some (c, i) => ent_value (cf_img c) i | None => 0 end.

Definition dcfg_get_i32 (d : dcfg) (key : option (list Z)) (defl : Z) : outcome (Z * dcfg) :=
  '(e, d) ← dcfg_get_entry d key;
  let ty := dcfg_entry_type (entry_of e) in
  Ret (if ty =? DCFG_TYPE_U32 then (if entry_value e >? 0x7fffffff then defl else entry_value e)
       else if ty =? DCFG_TYPE_I32 then s32 (entry_value e)
       else defl, d).

Definition dcfg_get_u32 (d : dcfg) (key : option (list Z)) (defl : Z) : outcome (Z * dcfg) :=
  '(e, d) ← dcfg_get_entry d key;
  let ty := dcfg_entry_type (entry_of e) in
  Ret (if ty =? DCFG_TYPE_I32 then (if s32 (entry_value e) <? 0 then defl else entry_value e)
       else if ty =? DCFG_TYPE_U32 then entry_value e
       else defl, d).

Definition dcfg_get_bool (d : dcfg) (key : option (list Z)) : outcome (bool * dcfg) :=
  '(v, d) ← dcfg_get_i32 d key 0; Ret (negb (v =? 0), d).

(** The string as image and offset, and [*sizep]. *)
Definition dcfg_get_string (d : dcfg) (key : option (list Z)) : outcome (option (config * Z) * Z * dcfg) :=
  d ← dcfg_init d;
  let e := find_config (configs d) key in
  let ty := dcfg_entry_type (entry_of e) in
  match e with
  | Some (c, i) =>
      if (ty =? DCFG_TYPE_BLOB) || (ty =? DCFG_TYPE_STRING)
      then Ret (Some (c, ent_value (cf_img c) i), dcfg_entry_size (cf_img c) i, d)
      else Ret (None, 0, d)
  | None => Ret (None, 0, d)
  end.

(** The C string at an offset of an image. *)
Definition string_at (s : config * Z) : list Z := cstring (drop (Z.to_nat (snd s)) (cf_img (fst s))).

(** The static [keybuf]; the result is NULL or [keybuf]. *)
Definition dcfg_idx_key (keybuf : list Z) (prefix : option (list Z)) (idx : Z) (suffix : option (list Z))
    : bool * list Z :=
  let len := zlen (default [] prefix) in
  if (match prefix with Some _ => len >? DCFG_KEYSIZE - 1 | None => false end) then (false, keybuf)
  else
    let keybuf := mwrite keybuf 0 (default [] prefix) in
    let ptr := len in
    if negb (idx =? 0xffff) && (idx >? 100) then (false, keybuf)
    else
      let '(keybuf, ptr) := if negb (idx =? 0xffff) then (put8 keybuf ptr (0x80 + idx), ptr + 1) else (keybuf, ptr) in
      let slen := zlen (default [] suffix) in
      if (match suffix with Some _ => ptr + slen >? DCFG_KEYSIZE | None => false end) then (false, keybuf)
      else
        let keybuf := mwrite keybuf ptr (default [] suffix) in
        (true, put8 keybuf (ptr + slen) 0).

Definition key_of (r : bool * list Z) : option (list Z) :=
  if fst r then Some (cstring (snd r)) else None.

(** ["pins."] *)
Definition PINS : list Z := [112; 105; 110; 115; 46].

Definition dcfg_get_pin (d : dcfg) (keybuf : list Z) (key : option (list Z)) : outcome (Z * list Z * dcfg) :=
  '(lbl, _, d) ← dcfg_get_string d key;
  let '(key, keybuf) :=
    match lbl with
    | Some s => let r := dcfg_idx_key keybuf (Some PINS) 0xffff (Some (string_at s)) in (key_of r, snd r)
    | None => (key, keybuf)
    end in
  '(v, d) ← dcfg_get_i32 d key (-1);
  Ret (u8 v, keybuf, d).
End Dcfg.

(** ** What a validated image guarantees *)

Record entry_valid (m : list Z) (data_start total i : Z) : Prop := {
  ev_key : zlen (cstring (ent_key_mem m i)) <= DCFG_KEYSIZE;
  ev_hash : keyhash (cstring (ent_key_mem m i)) = ent_hash m i;
  ev_sorted : i <> 0 -> ent_hash m (i - 1) <= ent_hash m i;
  ev_string : dcfg_entry_type (Some (m, i)) = DCFG_TYPE_STRING \/ dcfg_entry_type (Some (m, i)) = DCFG_TYPE_BLOB ->
    data_start <= ent_value m i < total /\ u32 (ent_value m i + dcfg_entry_size m i) < total /\
    get8 m (u32 (ent_value m i + dcfg_entry_size m i)) = 0;
}.

Record image_valid (c : config) : Prop := {
  iv_total : hd_total_bytes (cf_img c) < 131072;
  iv_data : ent_off (hd_num_entries (cf_img c) + 1) <= hd_total_bytes (cf_img c);
  iv_jump : forall i, 0 <= i < 32 ->
    hash_jump (cf_img c) i <= hd_num_entries (cf_img c) /\
    (hash_jump (cf_img c) i <> 0 -> Z.shiftr (ent_hash (cf_img c) (hash_jump (cf_img c) i - 1)) 11 < i);
  iv_entry : forall i, 0 <= i < hd_num_entries (cf_img c) ->
    entry_valid (cf_img c) (ent_off (hd_num_entries (cf_img c) + 1)) (hd_total_bytes (cf_img c)) i;
}.

(** Peel the first [CHECK] off a body that returned 0. *)
Ltac check_step H :=
  match type of H with
  | (if ?c then _ else _) = 0 => let E := fresh "Hc" in destruct c eqn:E; [|discriminate H]
  end.

Lemma for_check_0 n body : forall i, for_check n i body = 0 -> forall j, i <= j < i + Z.of_nat n -> body j = 0.
Proof.
  induction n as [|n IH]; intros i Hc j Hj; [lia|]. cbn [for_check] in Hc.
  destruct (Z.eqb_spec (body i) 0) as [E|E]; [|done].
  destruct (decide (j = i)) as [->|]; [done|]. apply (IH (i + 1)); [done|lia].
Qed.

Lemma check_entry_valid m ds total i : check_entry m ds total i = 0 -> entry_valid m ds total i.
Proof.
  unfold check_entry. cbv zeta. intros H. do 3 check_step H. bool_to_prop.
  constructor; [done|done| |].
  - intros Hi. apply orb_true_iff in Hc1 as [Hc1|Hc1]; bool_to_prop; lia.
  - intros Hty.
    destruct ((dcfg_entry_type (Some (m, i)) =? DCFG_TYPE_U32) || (dcfg_entry_type (Some (m, i)) =? DCFG_TYPE_I32)) eqn:E1.
    { apply orb_true_iff in E1. unfold DCFG_TYPE_STRING, DCFG_TYPE_BLOB, DCFG_TYPE_U32, DCFG_TYPE_I32 in *.
      destruct E1; bool_to_prop; lia. }
    rewrite orb_comm in H. rewrite (proj2 (orb_true_iff _ _)) in H by (rewrite !Z.eqb_eq; tauto).
    do 4 check_step H. bool_to_prop. rewrite Z.geb_leb in *. bool_to_prop. done.
Qed.

Lemma validate_image c : dcfg_validate (Some c) = 0 -> image_valid c.
Proof.
  unfold dcfg_validate. cbv zeta. intros H. do 7 check_step H. bool_to_prop.
  set (jumps := for_check _ 0 (check_jump _ _)) in H.
  destruct (Z.eqb_spec jumps 0) as [Hj|Hj]; cbn [negb] in H; [|done].
  constructor; [done|exact Hc3| |].
  - intros i Hi. pose proof (for_check_0 _ _ _ Hj i ltac:(unfold DCFG_HASH_JUMP_ENTRIES; lia)) as Hk.
    unfold check_jump in Hk. cbv zeta in Hk. do 3 check_step Hk. bool_to_prop. split; [done|].
    intros Hne. apply orb_true_iff in Hc8 as [Hc8|Hc8]; bool_to_prop; [done|exact Hc8].
  - intros i Hi. destruct (Z.eqb_spec (hd_num_entries (cf_img c)) 0); [lia|].
    apply check_entry_valid. by apply (for_check_0 _ _ _ H); lia.
Qed.

Lemma ent_hash_mono c i j : image_valid c -> 0 <= i <= j -> j < hd_num_entries (cf_img c) ->
  ent_hash (cf_img c) i <= ent_hash (cf_img c) j.
Proof.
  intros Hv Hij Hj. replace j with (i + Z.of_nat (Z.to_nat (j - i))) in * by lia.
  induction (Z.to_nat (j - i)) as [|n IH]; [rewrite Z.add_0_r; lia|].
  pose proof (ev_sorted _ _ _ _ (iv_entry _ Hv (i + Z.of_nat (S n)) ltac:(lia)) ltac:(lia)).
  replace (i + Z.of_nat (S n) - 1) with (i + Z.of_nat n) in * by lia. lia.
Qed.

(** ** Lookup is a search of the whole table *)

Definition matches (m key : list Z) (i : Z) : bool :=
  (ent_hash m i =? keyhash key) && bool_decide (mread (ent_key_mem m i) 0 (zlen key) = key).

(** The first of the [n] entries from [i] on that matches. *)
Fixpoint first_match (m key : list Z) (n : nat) (i : Z) : option Z :=
  match n with
  | O => None
  | S n => if matches m key i then Some i else first_match m key n (i + 1)
  end.

Lemma first_match_None m key n : forall i,
  (forall j, i <= j < i + Z.of_nat n -> ent_hash m j <> keyhash key) -> first_match m key n i = None.
Proof.
  induction n as [|n IH]; intros i Hne; [done|]. cbn [first_match]. unfold matches.
  rewrite (proj2 (Z.eqb_neq _ _)) by (apply Hne; lia). cbn [andb]. apply IH. intros j Hj. apply Hne. lia.
Qed.

Lemma first_match_skip m key a b : forall i,
  (forall j, i <= j < i + Z.of_nat a -> ent_hash m j <> keyhash key) ->
  first_match m key (a + b) i = first_match m key b (i + Z.of_nat a).
Proof.
  induction a as [|a IH]; intros i Hne; [by rewrite Z.add_0_r|]. cbn [first_match Nat.add]. unfold matches.
  rewrite (proj2 (Z.eqb_neq _ _)) by (apply Hne; lia). cbn [andb]. rewrite IH by (intros j Hj; apply Hne; lia).
  f_equal. lia.
Qed.

Lemma first_match_Some m key n : forall i k, first_match m key n i = Some k ->
  i <= k < i + Z.of_nat n /\ matches m key k = true /\ forall j, i <= j < k -> matches m key j = false.
Proof.
  induction n as [|n IH]; intros i k; [done|]. cbn [first_match]. destruct (matches m key i) eqn:E.
  - intros [= <-]. split_and!; [lia..|done|lia].
  - intros (? & ? & Hb)%IH. split_and!; [lia..|done|]. intros j Hj.
    destruct (decide (j = i)) as [->|]; [done|]. apply Hb. lia.
Qed.

Lemma get_loop_search c key n : forall idx,
  image_valid c -> 0 <= idx -> idx + Z.of_nat n = hd_num_entries (cf_img c) ->
  get_loop n (cf_img c) key (keyhash key) (hd_num_entries (cf_img c)) idx = first_match (cf_img c) key n idx.
Proof.
  induction n as [|n IH]; intros idx Hv Hi Hn; [done|]. cbn [get_loop].
  rewrite (proj2 (Z.ltb_lt _ _)) by lia. cbn [andb]. case_cmp.
  - cbn [first_match]. fold (matches (cf_img c) key idx). destruct (matches _ _ _); [done|]. apply IH; lia || done.
  - symmetry. apply first_match_None. intros j Hj. pose proof (ent_hash_mono c idx j Hv ltac:(lia) ltac:(lia)). lia.
Qed.

Lemma keyhash_range key : 0 <= keyhash key < 65536.
Proof. apply u16_range. Qed.

Lemma get_entry_search c key :
  image_valid c -> Forall is_byte (cf_img c) -> zlen key <= DCFG_KEYSIZE ->
  get_entry (Some c) (Some key) = first_match (cf_img c) key (Z.to_nat (hd_num_entries (cf_img c))) 0.
Proof.
  intros Hv Hb Hk. unfold get_entry. cbv zeta. rewrite Z.gtb_ltb, (proj2 (Z.ltb_ge _ _)) by lia.
  pose proof (keyhash_range key) as Hr. unfold DCFG_HASH_SHIFT.
  assert (0 <= Z.shiftr (keyhash key) 11 < 32) as Hh.
  { rewrite Z.shiftr_div_pow2 by lia. change (2 ^ 11) with 2048. word_lia. }
  set (idx := hash_jump (cf_img c) _). destruct (iv_jump c Hv _ Hh) as [Hle Hbefore]. fold idx in Hle, Hbefore.
  assert (0 <= idx) as Hi by (unfold idx, hash_jump, get16; apply le_val_range; auto with jd).
  rewrite get_loop_search by (done || lia).
  replace (Z.to_nat (hd_num_entries (cf_img c))) with (Z.to_nat idx + Z.to_nat (hd_num_entries (cf_img c) - idx))%nat by lia.
  rewrite first_match_skip; [f_equal; lia|].
  intros j Hj. specialize (Hbefore ltac:(lia)).
  pose proof (ent_hash_mono c j (idx - 1) Hv ltac:(lia) ltac:(lia)).
  rewrite !Z.shiftr_div_pow2 in Hbefore by lia. change (2 ^ 11) with 2048 in Hbefore. word_lia.
Qed.

(** ** The configurations in use *)

(** [configs] never holds an image that was not validated. *)
Definition dcfg_ok (d : dcfg) : Prop :=
  (forall c, user_config d = Some c -> dcfg_validate (Some c) = 0) /\
  (forall c, mfr_config d = Some c -> dcfg_validate (Some c) = 0).

Lemma dcfg0_ok : dcfg_ok dcfg0.
Proof. by split. Qed.

Lemma dcfg_init_ok base in_irq d d' : dcfg_ok d -> dcfg_init base in_irq d = Ret d' ->
  dcfg_ok d' /\ user_config d' = user_config d /\ dcfg_inited d' = true.
Proof.
  intros [Hu Hm]. unfold dcfg_init. destruct (dcfg_inited d) eqn:E; [by intros [= <-]|].
  destruct in_irq; [done|]. destruct (Z.eqb_spec (dcfg_validate (Some base)) 0) as [Ez|Ez]; intros [= <-].
  - split; [|done]. split; [exact Hu|]. by intros c [= <-].
  - split; [|done]. split; [exact Hu|exact Hm].
Qed.

Lemma dcfg_set_user_config_ok base in_irq d hd r d' : dcfg_ok d ->
  dcfg_set_user_config base in_irq d hd = Ret (r, d') -> dcfg_ok d' /\ (r = 0 -> user_config d' = hd).
Proof.
  intros Hok. unfold dcfg_set_user_config. destruct (dcfg_init base in_irq d) as [d1| |] eqn:E; obind; [|done..].
  destruct (dcfg_init_ok base in_irq d d1 Hok E) as ([Hu Hm] & _ & _).
  destruct (Z.eqb_spec (dcfg_validate hd) 0) as [Ez|Ez]; intros [= <- <-].
  - split; [split; cbn [user_config mfr_config]; [intros c <-; done|exact Hm]|done].
  - split; [split; cbn [user_config mfr_config]; [done|exact Hm]|lia].
Qed.

Lemma find_config_valid cs key c i :
  (forall c, Some c ∈ cs -> dcfg_validate (Some c) = 0) -> find_config cs key = Some (c, i) ->
  Some c ∈ cs /\ dcfg_validate (Some c) = 0 /\ get_entry (Some c) key = Some i.
Proof.
  induction cs as [|o cs IH]; intros Hcs; [done|]. cbn [find_config].
  assert (find_config cs key = Some (c, i) ->
    Some c ∈ o :: cs /\ dcfg_validate (Some c) = 0 /\ get_entry (Some c) key = Some i) as Hrest.
  { intros Hf. destruct IH as (? & ? & ?); [intros ? ?; apply Hcs; by right|done|]. split_and!; [by right|done|done]. }
  destruct o as [c0|]; [|done]. destruct (get_entry (Some c0) key) eqn:E; [|done].
  intros [= <- <-]. split_and!; [by left|apply Hcs; by left|done].
Qed.

(** ** Enumeration *)

Lemma ent_addr_idx c i : 0 <= i < hd_num_entries (cf_img c) -> entry_idx (Some c) (ent_addr c i) = i.
Proof.
  intros Hi. unfold entry_idx, ent_addr, ent_off, DCFG_ENTRY_SIZE.
  replace ((cf_addr c + (DCFG_HEADER_SIZE + 24 * i) - (cf_addr c + (DCFG_HEADER_SIZE + 24 * 0))) / 24) with i by word_lia.
  rewrite (proj2 (Z.leb_le _ _)), (proj2 (Z.ltb_lt _ _)) by lia. done.
Qed.

(** The addresses of the entries from [i] on, [n] of them, whose key has the
    prefix. *)
Definition has_prefix (m prefix : list Z) (i : Z) : bool :=
  bool_decide (mread (ent_key_mem m i) 0 (zlen prefix) = prefix).
Fixpoint entries_from (n : nat) (c : config) (prefix : list Z) (i : Z) : list Z :=
  match n with
  | O => []
  | S n => (if has_prefix (cf_img c) prefix i then [ent_addr c i] else []) ++ entries_from n c prefix (i + 1)
  end.
Definition prefix_entries (c : config) (prefix : list Z) : list Z :=
  entries_from (Z.to_nat (hd_num_entries (cf_img c))) c prefix 0.
Definition all_prefix_entries (cs : list (option config)) (prefix : list Z) : list Z :=
  flat_map (fun o => match o with Some c => prefix_entries c prefix | None => [] end) cs.

Lemma next_loop_head c prefix n : forall i, i + Z.of_nat n = hd_num_entries (cf_img c) ->
  next_loop n c prefix i = head (entries_from n c prefix i).
Proof.
  induction n as [|n IH]; intros i Hn; [done|]. cbn [next_loop entries_from].
  rewrite (proj2 (Z.ltb_lt _ _)) by lia. fold (has_prefix (cf_img c) prefix i).
  destruct (has_prefix _ _ _); [done|]. apply IH. lia.
Qed.

Lemma entries_from_in c prefix n : forall i e, e ∈ entries_from n c prefix i ->
  exists k, i <= k < i + Z.of_nat n /\ e = ent_addr c k.
Proof.
  induction n as [|n IH]; intros i e; cbn [entries_from]; [set_solver|].
  rewrite elem_of_app. intros [He|(k & ? & ->)%IH].
  - destruct (has_prefix _ _ _); [|set_solver]. exists i. split; [lia|set_solver].
  - exists k. split; [lia|done].
Qed.

(** From an entry on, the rest of the list are the matches behind it. *)
Lemma entries_from_split c prefix n : forall i l1 e l2, entries_from n c prefix i = l1 ++ e :: l2 ->
  exists k, i <= k < i + Z.of_nat n /\ e = ent_addr c k /\
    l2 = entries_from (Z.to_nat (i + Z.of_nat n - (k + 1))) c prefix (k + 1).
Proof.
  induction n as [|n IH]; intros i l1 e l2; cbn [entries_from]; [by destruct l1|].
  destruct (has_prefix _ _ _); cbn [app].
  - destruct l1 as [|e1 l1]; cbn [app]; intros [= <- Hr].
    + exists i. split_and!; [lia..|done|]. rewrite <- Hr. f_equal. lia.
    + destruct (IH _ _ _ _ Hr) as (k & ? & -> & ->). exists k. split_and!; [lia..|done|]. f_equal. lia.
  - intros Hr. destruct (IH _ _ _ _ Hr) as (k & ? & -> & ->). exists k. split_and!; [lia..|done|]. f_equal. lia.
Qed.

(** The tables of the images do not overlap: no entry of a later image is one
    of an earlier image. *)
Fixpoint tables_apart (cs : list (option config)) : Prop :=
  match cs with
  | [] => True
  | None :: cs => tables_apart cs
  | Some c :: cs =>
      (forall c2 i, Some c2 ∈ cs -> 0 <= i < hd_num_entries (cf_img c2) -> entry_idx (Some c) (ent_addr c2 i) = -1) /\
      tables_apart cs
  end.

Definition counts_ok (cs : list (option config)) : Prop :=
  forall c, Some c ∈ cs -> 0 <= hd_num_entries (cf_img c).

Lemma next_entry_first cs prefix : counts_ok cs -> next_entry cs prefix None = head (all_prefix_entries cs prefix).
Proof.
  induction cs as [|[c|] cs IH]; intros Hn; [done| |apply IH; intros ? ?; apply Hn; set_solver].
  cbn [next_entry all_prefix_entries flat_map]. specialize (Hn c ltac:(set_solver)) as Hc.
  rewrite next_loop_head by lia. unfold prefix_entries.
  destruct (entries_from _ c prefix 0); [|done]. apply IH. intros ? ?. apply Hn. set_solver.
Qed.

Lemma all_prefix_entries_in cs prefix e : counts_ok cs -> e ∈ all_prefix_entries cs prefix ->
  exists c i, Some c ∈ cs /\ 0 <= i < hd_num_entries (cf_img c) /\ e = ent_addr c i.
Proof.
  intros Hn Hin. unfold all_prefix_entries in Hin. apply list_elem_of_In, in_flat_map in Hin as ([c|] & Hc & Hin); [|done].
  apply list_elem_of_In in Hc. apply list_elem_of_In, entries_from_in in Hin as (k & Hk & ->).
  exists c, k. specialize (Hn c Hc). split_and!; [done|lia..|done].
Qed.

Lemma next_entry_after cs prefix : counts_ok cs -> tables_apart cs -> forall l1 e l2,
  all_prefix_entries cs prefix = l1 ++ e :: l2 -> next_entry cs prefix (Some e) = head l2.
Proof.
  induction cs as [|[c|] cs IH]; intros Hn Ha l1 e l2; [by destruct l1| |].
  2: { apply IH; [|done]. intros ? ?. apply Hn. set_solver. }
  assert (counts_ok cs) as Hn' by (intros ? ?; apply Hn; set_solver).
  specialize (Hn c ltac:(set_solver)) as Hc. destruct Ha as [Hap Ha].
  assert (forall l, all_prefix_entries cs prefix = l ++ e :: l2 ->
    next_entry (Some c :: cs) prefix (Some e) = head l2) as Hlater.
  { intros l E. destruct (all_prefix_entries_in cs prefix e Hn') as (c2 & k & Hin & Hk & ->); [rewrite E; set_solver|].
    cbn [next_entry]. rewrite (Hap c2 k Hin Hk). cbn [Z.ltb Z.compare]. by apply (IH Hn' Ha l). }
  cbn [all_prefix_entries flat_map]. fold (all_prefix_entries cs prefix). unfold prefix_entries at 1. intros Hr.
  apply app_eq_app in Hr as (l & [[E1 E2]|[E1 E2]]).
  - destruct l as [|e0 l]; cbn [app] in E2; [by apply (Hlater []); rewrite <- E2|].
    injection E2 as <- ->. destruct (entries_from_split _ _ _ _ _ _ _ E1) as (k & Hk & -> & ->).
    cbn [next_entry]. rewrite ent_addr_idx, (proj2 (Z.ltb_ge _ _)) by lia. rewrite next_loop_head by lia.
    replace (0 + Z.of_nat (Z.to_nat (hd_num_entries (cf_img c))) - (k + 1)) with (hd_num_entries (cf_img c) - (k + 1)) by lia.
    generalize (entries_from (Z.to_nat (hd_num_entries (cf_img c) - (k + 1))) c prefix (k + 1)). clear - Hn'.
    intros [|? ?]; [by apply next_entry_first|reflexivity].
  - by apply (Hlater l).
Qed.

(** The use of the cursor: [for (e = NULL; (e = next(prefix, e)); )]. *)
Fixpoint enumerate (base : config) (in_irq : bool) (n : nat) (d : dcfg) (prefix : list Z) (prev : option Z)
    : outcome (list Z) :=
  match n with
  | O => OutOfFuel
  | S n =>
      '(e, d) ← dcfg_get_next_entry base in_irq d prefix prev;
      match e with
      | None => Ret []
      | Some e => es ← enumerate base in_irq n d prefix (Some e); Ret (e :: es)
      end
  end.

Lemma enumerate_rest base in_irq d prefix :
  dcfg_inited d = true -> counts_ok (configs d) -> tables_apart (configs d) -> forall l2 l1 e n,
  all_prefix_entries (configs d) prefix = l1 ++ e :: l2 -> (length l2 < n)%nat ->
  enumerate base in_irq n d prefix (Some e) = Ret l2.
Proof.
  intros Hi Hn Ha. induction l2 as [|e2 l2 IH]; intros l1 e n E Hlen; (destruct n as [|n]; [simpl in Hlen; lia|]);
    cbn [enumerate]; unfold dcfg_get_next_entry, dcfg_init; rewrite Hi; obind;
    rewrite (next_entry_after _ _ Hn Ha l1 e _ E); cbn [head]; [done|].
  rewrite (IH (l1 ++ [e]) e2 n); [done|by rewrite <- app_assoc|simpl in Hlen; lia].
Qed.

Lemma first_match_complete m key i n : forall i0, i0 <= i < i0 + Z.of_nat n -> matches m key i = true ->
  exists j, first_match m key n i0 = Some j /\ j <= i /\ matches m key j = true.
Proof.
  induction n as [|n IH]; intros i0 Hi Hm; [lia|]. cbn [first_match]. destruct (matches m key i0) eqn:E.
  - exists i0. split_and!; [done|lia|done].
  - apply IH; [|done]. destruct (decide (i = i0)) as [->|]; [congruence|lia].
Qed.

Lemma mread_cstring m : mread m 0 (zlen (cstring m)) = cstring m.
Proof.
  unfold mread, zlen. rewrite Nat2Z.id. change (Z.to_nat 0) with 0%nat. rewrite drop_0.
  induction m as [|b m IH]; [done|]. cbn [cstring]. destruct (b =? 0); [done|]. simpl. by rewrite IH.
Qed.

(** A sequence of settings of the user configuration. *)
Fixpoint dcfg_sets (base : config) (in_irq : bool) (d : dcfg) (hds : list (option config)) : outcome dcfg :=
  match hds with
  | [] => Ret d
  | hd :: hds => '(_, d) ← dcfg_set_user_config base in_irq d hd; dcfg_sets base in_irq d hds
  end.

Lemma dcfg_init_in_use base in_irq d d' : dcfg_ok d -> (mfr_config d = None \/ mfr_config d = Some base) ->
  dcfg_init base in_irq d = Ret d' ->
  dcfg_ok d' /\ (mfr_config d' = None \/ mfr_config d' = Some base) /\ user_config d' = user_config d.
Proof.
  intros Hok Hm E. destruct (dcfg_init_ok base in_irq d d' Hok E) as (? & ? & _). split_and!; [done| |done].
  revert E. unfold dcfg_init. destruct (dcfg_inited d); [by intros [= <-]|]. destruct in_irq; [done|].
  intros [= <-]. cbn [mfr_config]. destruct (_ =? 0); tauto.
Qed.

(** What the configurations in use are after that: each validated, the
    manufacturer's the one in flash, the user's the last one set. *)
Lemma dcfg_sets_ok base in_irq hds : forall d d',
  dcfg_ok d -> dcfg_sets base in_irq d hds = Ret d' ->
  (mfr_config d = None \/ mfr_config d = Some base) ->
  dcfg_ok d' /\ (mfr_config d' = None \/ mfr_config d' = Some base) /\
  (user_config d' = None \/ last hds = Some (user_config d') \/ hds = [] /\ user_config d' = user_config d).
Proof.
  induction hds as [|hd hds IH]; intros d d' Hok; cbn [dcfg_sets].
  { intros [= <-]. tauto. }
  destruct (dcfg_set_user_config base in_irq d hd) as [[r d1]| |] eqn:E; obind; [|done..]. intros Hs Hm.
  destruct (dcfg_set_user_config_ok base in_irq d hd r d1 Hok E) as [Hok1 Hr].
  assert ((mfr_config d1 = None \/ mfr_config d1 = Some base) /\ (user_config d1 = None \/ user_config d1 = hd)) as [Hm1 Hu1].
  { unfold dcfg_set_user_config in E. destruct (dcfg_init base in_irq d) as [d2| |] eqn:E2; cbn [mbind outcome_bind] in E; [|done..].
    injection E as <- <-. cbn [mfr_config user_config]. split; [|destruct (_ =? 0); tauto].
    by destruct (dcfg_init_in_use base in_irq d d2 Hok Hm E2) as (_ & ? & _). }
  destruct (IH d1 d' Hok1 Hs Hm1) as (Hok' & Hm' & Hu'). split_and!; [done|done|].
  destruct Hu' as [|[Hl|[-> Hu']]]; [tauto| |].
  - right; left. destruct hds; [done|]. exact Hl.
  - destruct Hu1 as [Hu1|Hu1]; [left; congruence|]. right; left. cbn. congruence.
Qed.

Lemma entry_string_in_bounds c i key :
  dcfg_validate (Some c) = 0 -> Forall is_byte (cf_img c) -> get_entry (Some c) key = Some i ->
  dcfg_entry_type (Some (cf_img c, i)) = DCFG_TYPE_STRING \/ dcfg_entry_type (Some (cf_img c, i)) = DCFG_TYPE_BLOB ->
  ent_off (hd_num_entries (cf_img c) + 1) <= ent_value (cf_img c) i /\ 0 <= dcfg_entry_size (cf_img c) i /\
  ent_value (cf_img c) i + dcfg_entry_size (cf_img c) i < hd_total_bytes (cf_img c) < 131072 /\
  get8 (cf_img c) (ent_value (cf_img c) i + dcfg_entry_size (cf_img c) i) = 0.
Proof.
  intros Hval Hb Hge Hty. pose proof (validate_image c Hval) as Hv.
  assert (0 <= i < hd_num_entries (cf_img c)) as Hi.
  { destruct key as [key|]; [|done]. destruct (decide (zlen key <= DCFG_KEYSIZE)) as [Hk|Hk].
    - rewrite get_entry_search in Hge by done. apply first_match_Some in Hge. lia.
    - unfold get_entry in Hge. rewrite Z.gtb_ltb, (proj2 (Z.ltb_lt _ _)) in Hge by lia. done. }
  destruct (iv_entry c Hv i Hi) as [_ _ _ Hstr]. specialize (Hstr Hty) as ([H1 H2] & H3 & H4).
  pose proof (iv_total c Hv). unfold dcfg_entry_size in *.
  assert (0 <= ent_type_size (cf_img c) i < 65536) as Hts.
  { unfold ent_type_size, get16. pose proof (le_val_range (mread (cf_img c) (ent_off i + 18) 2)) as Hr.
    pose proof (length_mread_le (cf_img c) (ent_off i + 18) 2) as Hl. specialize (Hr ltac:(auto with jd)).
    assert (256 ^ zlen (mread (cf_img c) (ent_off i + 18) 2) <= 256 ^ 2)
      by (apply Z.pow_le_mono_r; unfold zlen; lia). change (256 ^ 2) with 65536 in *. lia. }
  rewrite Z.shiftr_div_pow2 in * by (unfold DCFG_TYPE_BITS; lia). change (2 ^ DCFG_TYPE_BITS) with 4 in *.
  assert (0 <= hd_num_entries (cf_img c)) by lia.
  unfold ent_off, DCFG_HEADER_SIZE, DCFG_ENTRY_SIZE in *. rewrite u32_small in * by word_lia.
  split_and!; try done; word_lia.
Qed.

(** ** Properties *)

(** C23. The jump table and the sorted order only make lookup faster: in an
    image that [dcfg_validate] accepts, [get_entry] finds the entry that a
    search of the whole table from its start finds, the first one whose stored
    hash is the key's and whose key starts with the key asked for; a key that
    is in the table is found. *)
Theorem dcfg_lookup_is_linear c key :
  dcfg_validate (Some c) = 0 -> Forall is_byte (cf_img c) -> zlen key <= DCFG_KEYSIZE ->
  get_entry (Some c) (Some key) = first_match (cf_img c) key (Z.to_nat (hd_num_entries (cf_img c))) 0 /\
  forall i, 0 <= i < hd_num_entries (cf_img c) -> cstring (ent_key_mem (cf_img c) i) = key ->
    exists j, get_entry (Some c) (Some key) = Some j /\ j <= i /\ matches (cf_img c) key j = true.
Proof.
  intros Hval Hb Hk. pose proof (validate_image c Hval) as Hv. rewrite get_entry_search by done. split; [done|].
  intros i Hi Hkey. apply first_match_complete; [lia|]. unfold matches.
  rewrite <- (ev_hash _ _ _ _ (iv_entry _ Hv i Hi)), Hkey, Z.eqb_refl. apply bool_decide_eq_true.
  rewrite <- Hkey. apply mread_cstring.
Qed.

(** An image with the string ["name"] and the number ["x"]. *)
Definition demo_entry (key : list Z) (ty size value : Z) : list Z :=
  mwrite (replicate 16 0) 0 key ++ le_bytes 2 (keyhash key) ++ le_bytes 2 (4 * size + ty) ++ le_bytes 4 value.
Definition NAME : list Z := [110; 97; 109; 101].
Definition demo_image : list Z :=
  le_bytes 4 DCFG_MAGIC0 ++ le_bytes 4 DCFG_MAGIC1 ++ le_bytes 4 163 ++ le_bytes 2 2 ++ le_bytes 2 0 ++ le_bytes 8 0 ++
  flat_map (fun i => le_bytes 2 (if Z.of_nat i <=? Z.shiftr (keyhash NAME) 11 then 0
                                 else if Z.of_nat i <=? Z.shiftr (keyhash [120]) 11 then 1 else 2)) (seq 0 32) ++
  demo_entry NAME DCFG_TYPE_STRING 2 160 ++ demo_entry [120] DCFG_TYPE_U32 0 5 ++
  replicate 16 0 ++ [255; 255; 255; 255; 0; 0; 0; 0] ++ [104; 105; 0].
Definition demo_config : config := {| cf_addr := 0x8000; cf_img := demo_image |}.

Lemma dcfg_lookup_is_linear_witness :
  get_entry (Some demo_config) (Some NAME) = Some 0 /\
  get_entry (Some demo_config) (Some NAME) = first_match demo_image NAME 2 0 /\
  forall i, 0 <= i < 2 -> cstring (ent_key_mem demo_image i) = NAME ->
    exists j, get_entry (Some demo_config) (Some NAME) = Some j /\ j <= i /\ matches demo_image NAME j = true.
Proof.
  split; [vm_compute; done|]. apply (dcfg_lookup_is_linear demo_config NAME); [vm_compute; done| |vm_compute; done].
  apply (bool_decide_unpack _). vm_compute. done.
Defined.

(** What a configuration string points to can be read: whatever images the
    user configuration was set to before, a string or blob that
    [dcfg_get_string] returns comes from an image that was validated, lies
    behind the entry table and inside [total_bytes], and is followed by a NUL
    that is inside the image too. Setting an image that is not valid leaves no
    user configuration and returns the error. *)
Lemma dcfg_strings_in_bounds base in_irq hds d key s size d' :
  dcfg_sets base in_irq dcfg0 hds = Ret d -> Forall is_byte (cf_img base) ->
  (forall c, Some c ∈ hds -> Forall is_byte (cf_img c)) ->
  dcfg_get_string base in_irq d key = Ret (Some s, size, d') ->
  dcfg_validate (Some (fst s)) = 0 /\ (fst s = base \/ last hds = Some (Some (fst s))) /\
  ent_off (hd_num_entries (cf_img (fst s)) + 1) <= snd s /\ 0 <= size /\
  snd s + size < hd_total_bytes (cf_img (fst s)) < 131072 /\ get8 (cf_img (fst s)) (snd s + size) = 0.
Proof.
  intros Hsets Hbb Hhb Hget.
  destruct (dcfg_sets_ok base in_irq hds dcfg0 d dcfg0_ok Hsets (or_introl eq_refl)) as (Hok & Hm & Hu).
  unfold dcfg_get_string in Hget. destruct (dcfg_init base in_irq d) as [d1| |] eqn:Einit; [|done..].
  destruct (dcfg_init_in_use base in_irq d d1 Hok Hm Einit) as (Hok1 & Hm1 & Hu1).
  cbn [mbind outcome_bind] in Hget. destruct (find_config (configs d1) key) as [[c i]|] eqn:Ef; [|done].
  destruct (find_config_valid (configs d1) key c i) as (Hin & Hval & Hge); [|done|].
  { intros c0 Hc0. destruct Hok1 as [Hou Hom]. unfold configs in Hc0. rewrite !elem_of_cons, elem_of_nil in Hc0.
    destruct Hc0 as [Hc0|[Hc0|[]]]; [by apply Hou|by apply Hom]. }
  destruct ((dcfg_entry_type (entry_of (Some (c, i))) =? DCFG_TYPE_BLOB) || _) eqn:Ety; [|done].
  injection Hget as <- <- <-. cbn [fst snd].
  assert (c = base \/ last hds = Some (Some c)) as Hfrom.
  { unfold configs in Hin. rewrite !elem_of_cons, elem_of_nil in Hin.
    destruct Hin as [Hin|[Hin|[]]]; [right|left; destruct Hm1; congruence].
    rewrite Hu1 in Hin. destruct Hu as [Hu|[Hu|[-> Hu]]]; [congruence|congruence|rewrite Hu in Hin; done]. }
  assert (Forall is_byte (cf_img c)) as Hb.
  { destruct Hfrom as [->|Hl]; [done|]. apply Hhb. by apply last_Some_elem_of. }
  destruct (entry_string_in_bounds c i key) as (? & ? & ? & ?); try done.
  apply orb_true_iff in Ety as [Ety|Ety]; apply Z.eqb_eq in Ety; [right|left]; exact Ety.
Qed.

(** The cursor over the entries with a prefix, restarted from the entry it
    returned last, visits each of them once, in table order, those of the
    user's image before those of the manufacturer's, and then ends. *)
Lemma dcfg_cursor_enumerates base in_irq d prefix n :
  dcfg_inited d = true -> counts_ok (configs d) -> tables_apart (configs d) ->
  (length (all_prefix_entries (configs d) prefix) < n)%nat ->
  enumerate base in_irq n d prefix None = Ret (all_prefix_entries (configs d) prefix).
Proof.
  intros Hi Hn Ha Hlen. destruct n as [|n]; [lia|]. cbn [enumerate]. unfold dcfg_get_next_entry, dcfg_init.
  rewrite Hi. obind. rewrite next_entry_first by done.
  destruct (all_prefix_entries (configs d) prefix) as [|e es] eqn:E; [done|]. cbn [head].
  rewrite (enumerate_rest base in_irq d prefix Hi Hn Ha es [] e n E); [done|simpl in Hlen; lia].
Qed.

Definition demo_user_config : config := {| cf_addr := 0x20000; cf_img := demo_image |}.
Definition demo_dcfg : dcfg :=
  {| dcfg_inited := true; user_config := Some demo_user_config; mfr_config := Some demo_config |}.

(** [get_entry] compares only as many characters as the key asked for has: the
    key ["led"] finds the entry ["ledaubz"], whose 16-bit hash is the same, in
    an image that validates and has no entry ["led"]. *)
Definition LED : list Z := [108; 101; 100].
Definition LEDAUBZ : list Z := LED ++ [97; 117; 98; 122].
Definition collision_image : list Z :=
  le_bytes 4 DCFG_MAGIC0 ++ le_bytes 4 DCFG_MAGIC1 ++ le_bytes 4 136 ++ le_bytes 2 1 ++ le_bytes 2 0 ++ le_bytes 8 0 ++
  flat_map (fun i => le_bytes 2 (if Z.of_nat i <=? Z.shiftr (keyhash LED) 11 then 0 else 1)) (seq 0 32) ++
  demo_entry LEDAUBZ DCFG_TYPE_U32 0 7 ++ replicate 16 0 ++ [255; 255; 255; 255; 0; 0; 0; 0].

Lemma get_entry_prefix_collision :
  let c := {| cf_addr := 0x8000; cf_img := collision_image |} in
  dcfg_validate (Some c) = 0 /\ cstring (ent_key_mem collision_image 0) = LEDAUBZ /\ get_entry (Some c) (Some LED) = Some 0.
Proof. vm_compute. done. Qed.
