(* ===== verification/Srvcfg.v ===== *)
(** * Services from the configuration ([source/jd_srvcfg.c])

    [jd_srvcfg_run] reads the services of a device from its configuration: the
    keys of service [idx] start with the byte [0x80 + idx], and its [service]
    string names the constructor to call. The constructors are functions of
    other files and a parameter of the model, [cfgfn]; they read further keys
    while [jd_srvcfg_idx] stands at their service. *)
From S2P Require Import Prelude Util Dcfg.

(** The static variables, [keybuf] and [configs] of [jd_dcfg.c], and the state
    [A] of the rest of the program. *)
Record srvcfg (A : Type) := {
  jd_srvcfg_idx : Z;             (* uint8_t *)
  jd_srvcfg_idx_map : list Z;    (* uint8_t [JD_MAX_SERVICES] *)
  sc_keybuf : list Z;
  sc_dcfg : dcfg;
  sc_app : A;
}.
Arguments Build_srvcfg {A}.
Arguments jd_srvcfg_idx {A}.
Arguments jd_srvcfg_idx_map {A}.
Arguments sc_keybuf {A}.
Arguments sc_dcfg {A}.
Arguments sc_app {A}.

Definition SC_MAX_SERVICES : Z := 32.

(** ["service"], ["name"] and ["variant"]. *)
Definition K_SERVICE : list Z := [115; 101; 114; 118; 105; 99; 101].
Definition K_NAME : list Z := [110; 97; 109; 101].
Definition K_VARIANT : list Z := [118; 97; 114; 105; 97; 110; 116].

(** The names of [jd_srvcfg_entries], with [JD_ANALOG] and [JD_HID]. *)
Definition jd_srvcfg_entries : list (list Z) := [
  [114; 111; 116; 97; 114; 121; 69; 110; 99; 111; 100; 101; 114];     (* rotaryEncoder *)
  [98; 117; 116; 116; 111; 110];                                       (* button *)
  [115; 119; 105; 116; 99; 104];                                       (* switch *)
  [114; 101; 108; 97; 121];                                            (* relay *)
  [102; 108; 101; 120];                                                (* flex *)
  [97; 110; 97; 108; 111; 103];                                        (* analog *)
  [103; 97; 109; 101; 112; 97; 100];                                   (* gamepad *)
  [97; 99; 99; 101; 108; 101; 114; 111; 109; 101; 116; 101; 114];      (* accelerometer *)
  [112; 111; 119; 101; 114];                                           (* power *)
  [108; 105; 103; 104; 116; 66; 117; 108; 98];                         (* lightBulb *)
  [98; 117; 122; 122; 101; 114];                                       (* buzzer *)
  [115; 101; 114; 118; 111];                                           (* servo *)
  [109; 111; 116; 105; 111; 110];                                      (* motion *)
  [109; 111; 116; 111; 114];                                           (* motor *)
  [104; 105; 100; 77; 111; 117; 115; 101];                             (* hidMouse *)
  [104; 105; 100; 75; 101; 121; 98; 111; 97; 114; 100];                (* hidKeyboard *)
  [104; 105; 100; 74; 111; 121; 115; 116; 105; 99; 107]                (* hidJoystick *)
].

Section Srvcfg.
Context {A : Type} (base : config) (in_irq : bool).

Definition set_sc_idx (st : srvcfg A) (v : Z) : srvcfg A :=
  Build_srvcfg v (jd_srvcfg_idx_map st) (sc_keybuf st) (sc_dcfg st) (sc_app st).
Definition set_sc_map (st : srvcfg A) (m : list Z) : srvcfg A :=
  Build_srvcfg (jd_srvcfg_idx st) m (sc_keybuf st) (sc_dcfg st) (sc_app st).
Definition set_sc_keybuf (st : srvcfg A) (b : list Z) : srvcfg A :=
  Build_srvcfg (jd_srvcfg_idx st) (jd_srvcfg_idx_map st) b (sc_dcfg st) (sc_app st).
Definition set_sc_dcfg (st : srvcfg A) (d : dcfg) : srvcfg A :=
  Build_srvcfg (jd_srvcfg_idx st) (jd_srvcfg_idx_map st) (sc_keybuf st) d (sc_app st).

Definition mk_key (st : srvcfg A) (idx : Z) (key : list Z) : option (list Z) * srvcfg A :=
  if idx =? 0xff then (None, st)
  else
    let r := dcfg_idx_key (sc_keybuf st) (Some []) idx (Some key) in
    (key_of r, set_sc_keybuf st (snd r)).

Definition jd_srvcfg_key (st : srvcfg A) (key : list Z) : option (list Z) * srvcfg A :=
  mk_key st (jd_srvcfg_idx st) key.

Definition jd_srvcfg_pin (st : srvcfg A) (key : list Z) : outcome (Z * srvcfg A) :=
  let '(key, st) := jd_srvcfg_key st key in
  '(v, keybuf, d) ← dcfg_get_pin base in_irq (sc_dcfg st) (sc_keybuf st) key;
  Ret (v, set_sc_dcfg (set_sc_keybuf st keybuf) d).

Definition jd_srvcfg_i32 (st : srvcfg A) (key : list Z) (defl : Z) : outcome (Z * srvcfg A) :=
  let '(key, st) := jd_srvcfg_key st key in
  '(v, d) ← dcfg_get_i32 base in_irq (sc_dcfg st) key defl;
  Ret (v, set_sc_dcfg st d).

(** [defl] and the result are [int32_t], [dcfg_get_u32] is unsigned. *)
Definition jd_srvcfg_u32 (st : srvcfg A) (key : list Z) (defl : Z) : outcome (Z * srvcfg A) :=
  let '(key, st) := jd_srvcfg_key st key in
  '(v, d) ← dcfg_get_u32 base in_irq (sc_dcfg st) key (u32 defl);
  Ret (s32 v, set_sc_dcfg st d).

Definition jd_srvcfg_has_flag (st : srvcfg A) (key : list Z) : outcome (bool * srvcfg A) :=
  '(v, st) ← jd_srvcfg_i32 st key 0; Ret (negb (v =? 0), st).

(** The characters before the first colon, or all. *)
Fixpoint before_colon (s : list Z) : list Z :=
  match s with
  | [] => []
  | c :: s => if c =? 58 then [] else c :: before_colon s
  end.

(** [_jd_services_curr_idx()], and the constructors by their names. *)
Context (curr_idx : A -> Z) (cfgfn : list Z -> srvcfg A -> outcome (srvcfg A)).

Definition srvcfg_entry (srv : list Z) : option (list Z) :=
  List.find (fun name => bool_decide (before_colon srv = name)) jd_srvcfg_entries.

(** One turn of [jd_srvcfg_run] with the service string at hand. The index of
    the next service is not compared with the size of the map: a write behind it
    is undefined, here [Panic]. *)
Definition configure (st : srvcfg A) (srv : list Z) : outcome (srvcfg A) :=
  st ← match srvcfg_entry srv with
       | Some name =>
           if curr_idx (sc_app st) <? SC_MAX_SERVICES
           then cfgfn name (set_sc_map st (put8 (jd_srvcfg_idx_map st) (curr_idx (sc_app st)) (jd_srvcfg_idx st)))
           else Panic
       | None => Ret st
       end;
  Ret (set_sc_idx st (u8 (jd_srvcfg_idx st + 1))).

Definition service_string (st : srvcfg A) : outcome (option (list Z) * srvcfg A) :=
  let '(key, st) := jd_srvcfg_key st K_SERVICE in
  '(srv, _, d) ← dcfg_get_string base in_irq (sc_dcfg st) key;
  Ret (option_map string_at srv, set_sc_dcfg st d).

Fixpoint srvcfg_loop (fuel : nat) (st : srvcfg A) : outcome (srvcfg A) :=
  match fuel with
  | O => OutOfFuel
  | S fuel =>
      '(srv, st) ← service_string st;
      match srv with
      | None => if jd_srvcfg_idx st <? 0x40 then srvcfg_loop fuel (set_sc_idx st 0x40) else Ret st
      | Some srv => st ← configure st srv; srvcfg_loop fuel st
      end
  end.

(** Each index up to 100 has at most one turn, the indices [0x40] and 101 may
    have another without a service. *)
Definition SRVCFG_FUEL : nat := 104.

Definition jd_srvcfg_run (st : srvcfg A) : outcome (srvcfg A) :=
  JD_ASSERT jd_srvcfg_idx st =? 0 ;;
  (st ← srvcfg_loop SRVCFG_FUEL (set_sc_map st (replicate (Z.to_nat SC_MAX_SERVICES) 0xff));
   Ret (set_sc_idx st 0xff)).

(** [srv->service_index] is the argument. *)
Definition jd_srvcfg_instance_name (st : srvcfg A) (service_index : Z) : outcome (option (list Z) * srvcfg A) :=
  let '(key, st) := mk_key st (get8 (jd_srvcfg_idx_map st) service_index) K_NAME in
  '(s, _, d) ← dcfg_get_string base in_irq (sc_dcfg st) key;
  Ret (option_map string_at s, set_sc_dcfg st d).

Definition jd_srvcfg_variant (st : srvcfg A) (service_index : Z) : outcome (Z * srvcfg A) :=
  let '(key, st) := mk_key st (get8 (jd_srvcfg_idx_map st) service_index) K_VARIANT in
  '(v, d) ← dcfg_get_i32 base in_irq (sc_dcfg st) key (-1);
  Ret (v, set_sc_dcfg st d).
End Srvcfg.

(** ** Keys *)

Lemma idx_key_text buf idx key :
  zlen buf = 16 -> 0 <= idx <= 100 -> zlen key <= 14 -> Forall (fun b => b <> 0) key ->
  let r := dcfg_idx_key buf (Some []) idx (Some key) in
  key_of r = Some (0x80 + idx :: key) /\ zlen (snd r) = 16.
Proof.
  unfold zlen. intros Hl Hi Hk Hnz. unfold dcfg_idx_key. cbn [from_option id]. change (zlen []) with 0.
  unfold DCFG_KEYSIZE. change (0 >? 15 - 1) with false. cbv zeta iota.
  rewrite (proj2 (Z.eqb_neq idx 0xffff)) by lia. cbn [negb andb]. rewrite Z.gtb_ltb, (proj2 (Z.ltb_ge _ _)) by lia.
  rewrite Z.add_0_l, Z.gtb_ltb, (proj2 (Z.ltb_ge _ _)) by (unfold zlen; lia).
  assert (exists b buf', buf = b :: buf') as (b & buf' & ->) by (destruct buf; [simpl in Hl; lia|eauto]).
  change (mwrite (b :: buf') 0 []) with (b :: buf'). unfold put8 at 2 4. cbn [Z.to_nat list_insert].
  rewrite u8_small by lia. unfold key_of. cbn [fst snd].
  set (c := 0x80 + idx). simpl in Hl.
  change (mwrite (<[Z.to_nat 0:=c]> (b :: buf')) 1 key) with (c :: key ++ drop (length key) buf').
  assert (exists x rest, drop (length key) buf' = x :: rest) as (x & rest & Hd).
  { destruct (drop (length key) buf') as [|x rest] eqn:E; [|eauto].
    apply (f_equal length) in E. rewrite length_drop in E. simpl in E. lia. }
  rewrite Hd. unfold put8. replace (Z.to_nat (1 + zlen key)) with (S (length key + 0)) by (unfold zlen; lia).
  change (<[S (length key + 0):=u8 0]> (c :: key ++ x :: rest)) with (c :: <[(length key + 0)%nat:=u8 0]> (key ++ x :: rest)).
  rewrite insert_app_r. split.
  - f_equal. apply (cstring_text (c :: key)). constructor; [lia|done].
  - apply (f_equal length) in Hd. rewrite length_drop in Hd. simpl in *. rewrite length_app. simpl. lia.
Qed.

Lemma idx_key_high buf idx key :
  100 < idx < 0xff -> dcfg_idx_key buf (Some []) idx (Some key) = (false, mwrite buf 0 []).
Proof.
  intros Hi. unfold dcfg_idx_key. cbn [from_option id]. change (zlen []) with 0. unfold DCFG_KEYSIZE.
  change (0 >? 15 - 1) with false. cbv iota. rewrite (proj2 (Z.eqb_neq idx 0xffff)) by lia. cbn [negb andb].
  by rewrite Z.gtb_ltb, (proj2 (Z.ltb_lt _ _)) by lia.
Qed.

(** ** The services a configuration names *)

(** The string [dcfg_get_string] returns in initialised configurations. *)
Definition dcfg_string (d : dcfg) (key : list Z) : option (list Z) :=
  match find_config (configs d) (Some key) with
  | Some (c, i) =>
      let ty := dcfg_entry_type (Some (cf_img c, i)) in
      if (ty =? DCFG_TYPE_BLOB) || (ty =? DCFG_TYPE_STRING)
      then Some (string_at (c, ent_value (cf_img c) i)) else None
  | None => None
  end.

Definition service_of (d : dcfg) (idx : Z) : option (list Z) :=
  if idx <=? 100 then dcfg_string d (0x80 + idx :: K_SERVICE) else None.

(** The indices from [k] on that have a service, up to the first that has none. *)
Fixpoint run_from (n : nat) (d : dcfg) (k : Z) : list Z :=
  match n with
  | O => []
  | S n => match service_of d k with Some _ => k :: run_from n d (k + 1) | None => [] end
  end.

Lemma length_run_from d n : forall k, (length (run_from n d k) <= n)%nat.
Proof. induction n as [|n IH]; intros k; cbn [run_from]; [done|]. destruct (service_of d k); simpl; [|lia]. specialize (IH (k + 1)). lia. Qed.

(** Those from 0, and, unless they reach it, those from [0x40]. *)
Definition service_indices (d : dcfg) : list Z :=
  let own := run_from 101 d 0 in
  own ++ (if zlen own <? 0x40 then run_from 37 d 0x40 else []).

(** The constructor called at an index. *)
Definition constructor_at (d : dcfg) (idx : Z) : list (Z * list Z) :=
  match service_of d idx with
  | Some srv => match srvcfg_entry srv with Some name => [(idx, name)] | None => [] end
  | None => []
  end.

(** What a service constructor may do: read the configuration, with
    [jd_srvcfg_idx] at its service, and register services, or panic, as
    [jd_allocate_service] does when there are [JD_MAX_SERVICES] and [jd_alloc]
    when there is no memory; [calls] is the list of the constructors that were
    called and returned, with their indices. *)
Record constructor_laws {A} (cfgfn : list Z -> srvcfg A -> outcome (srvcfg A)) (calls : A -> list (Z * list Z)) : Prop := {
  cl_call : forall name st, zlen (sc_keybuf st) = 16 ->
    match cfgfn name st with
    | Ret st' => jd_srvcfg_idx st' = jd_srvcfg_idx st /\ sc_dcfg st' = sc_dcfg st /\ zlen (sc_keybuf st') = 16 /\
                 calls (sc_app st') = calls (sc_app st) ++ [(jd_srvcfg_idx st, name)]
    | Panic => True
    | OutOfFuel => False
    end;
}.

Section Run.
Context {A : Type} (base : config) (in_irq : bool) (curr_idx : A -> Z).
Context (cfgfn : list Z -> srvcfg A -> outcome (srvcfg A)) (calls : A -> list (Z * list Z)).

(** The constructors register one service each, and have the memory for it. *)
Definition one_service_each : Prop :=
  forall name st, zlen (sc_keybuf st) = 16 -> curr_idx (sc_app st) < SC_MAX_SERVICES ->
  exists st', cfgfn name st = Ret st' /\ curr_idx (sc_app st') = curr_idx (sc_app st) + 1.

(** A run that should make the calls [cs] from [a] stopped before the end: the
    calls before one of them were made, and for this one there was no entry left
    in the index map, or the constructor panicked. *)
Definition stopped (a : A) (cs : list (Z * list Z)) : Prop :=
  exists made idx name rest st', cs = made ++ (idx, name) :: rest /\ calls (sc_app st') = calls a ++ made /\
    jd_srvcfg_idx st' = idx /\ zlen (sc_keybuf st') = 16 /\ (one_service_each -> curr_idx (sc_app st') = curr_idx a + zlen made) /\
    (SC_MAX_SERVICES <= curr_idx (sc_app st') \/ cfgfn name st' = Panic).

Context (Hlaws : constructor_laws cfgfn calls).

(** The state of a run at index [k] over the configurations [d]. *)
Record run_inv (d : dcfg) (k : Z) (st : srvcfg A) : Prop := {
  ri_idx : jd_srvcfg_idx st = k;
  ri_dcfg : sc_dcfg st = d;
  ri_keybuf : zlen (sc_keybuf st) = 16;
}.

Lemma service_string_spec d k st :
  dcfg_inited d = true -> 0 <= k < 0xff -> run_inv d k st ->
  exists st', service_string base in_irq st = Ret (service_of d k, st') /\ run_inv d k st' /\ sc_app st' = sc_app st.
Proof.
  intros Hin Hk [Hidx Hd Hkb]. unfold service_string, jd_srvcfg_key, mk_key. rewrite Hidx.
  rewrite (proj2 (Z.eqb_neq k 0xff)) by lia. unfold service_of.
  set (r := dcfg_idx_key (sc_keybuf st) (Some []) k (Some K_SERVICE)).
  assert (zlen (snd r) = 16 /\ key_of r = if k <=? 100 then Some (0x80 + k :: K_SERVICE) else None) as [Hl Hkey].
  { unfold r. destruct (Z.leb_spec k 100).
    - destruct (idx_key_text (sc_keybuf st) k K_SERVICE) as [-> Hl]; [done|lia|by vm_compute|repeat constructor; done|done].
    - rewrite idx_key_high by lia. split; [|done]. exact Hkb. }
  rewrite Hkey. cbn [sc_dcfg set_sc_keybuf]. unfold dcfg_get_string, dcfg_init. rewrite Hd, Hin. obind.
  exists (set_sc_dcfg (set_sc_keybuf st (snd r)) d).
  assert (run_inv d k (set_sc_dcfg (set_sc_keybuf st (snd r)) d)) by (constructor; done).
  unfold dcfg_string. destruct (k <=? 100).
  - destruct (find_config (configs d) _) as [[c i]|]; [|by split].
    cbn [entry_of]. destruct (_ || _); obind; by split.
  - assert (find_config (configs d) None = None) as -> by by destruct d as [? [|] [|]]. by split.
Qed.

(** A piece of a run over [d] that should make the calls [cs] and end at [k]. *)
Definition progress (d : dcfg) (k : Z) (a : A) (cs : list (Z * list Z)) (r : outcome (srvcfg A)) : Prop :=
  match r with
  | Ret st' => run_inv d k st' /\ calls (sc_app st') = calls a ++ cs /\ (one_service_each -> curr_idx (sc_app st') = curr_idx a + zlen cs)
  | Panic => stopped a cs
  | OutOfFuel => False
  end.

Lemma progress_nil d k st : run_inv d k st -> progress d k (sc_app st) [] (Ret st).
Proof. intros Hi. cbn [progress]. rewrite app_nil_r. split; [done|]. split; [done|]. intros _. change (zlen []) with 0. lia. Qed.

Lemma progress_bind d k1 k2 a cs1 cs2 r (f : srvcfg A -> outcome (srvcfg A)) : progress d k1 a cs1 r ->
  (forall st1, r = Ret st1 -> run_inv d k1 st1 -> progress d k2 (sc_app st1) cs2 (f st1)) -> progress d k2 a (cs1 ++ cs2) (st1 ← r; f st1).
Proof.
  intros Hr Hf. destruct r as [st1| |]; cbn [progress] in Hr; [| |done].
  - obind. destruct Hr as (Hi & Hc & Hn). specialize (Hf st1 eq_refl Hi). destruct (f st1) as [st2| |]; cbn [progress] in *; [| |done].
    + destruct Hf as (Hi2 & Hc2 & Hn2). split; [done|]. rewrite Hc2, Hc, app_assoc. split; [done|]. intros H1. rewrite (Hn2 H1), (Hn H1), zlen_app. lia.
    + destruct Hf as (made & idx & name & rest & st2 & -> & Hc2 & Hi2 & Hk2 & Hn2 & Hwhy). exists (cs1 ++ made), idx, name, rest, st2.
      rewrite <- app_assoc, Hc2, Hc. split; [done|]. split; [by rewrite <- app_assoc|]. split_and!; try done.
      intros H1. rewrite (Hn2 H1), (Hn H1), zlen_app. lia.
  - obind. destruct Hr as (made & idx & name & rest & st2 & -> & Hrest). exists made, idx, name, (rest ++ cs2), st2. rewrite <- app_assoc. by split.
Qed.

Lemma configure_spec d k st srv :
  run_inv d k st -> 0 <= k < 0xff -> service_of d k = Some srv ->
  progress d (k + 1) (sc_app st) (constructor_at d k) (configure curr_idx cfgfn st srv).
Proof.
  intros [Hidx Hd Hkb] Hk Hs. unfold configure, constructor_at. rewrite Hs. destruct (srvcfg_entry srv) as [name|].
  - destruct (Z.ltb_spec (curr_idx (sc_app st)) SC_MAX_SERVICES) as [Hroom|Hfull].
    + set (st1 := set_sc_map st _). pose proof (cl_call _ _ Hlaws name st1 Hkb) as Hc. pose proof (fun H1 : one_service_each => H1 name st1 Hkb Hroom) as Hone.
      destruct (cfgfn name st1) as [st2| |] eqn:E; [| |done].
      * obind. destruct Hc as (Hi & Hd' & Hk' & Hc). cbn [progress]. split; [|split].
        -- constructor; cbn; [rewrite Hi; cbn; rewrite Hidx; apply u8_small; lia|rewrite Hd'; exact Hd|done].
        -- cbn [sc_app set_sc_idx]. rewrite Hc. cbn. by rewrite Hidx.
        -- intros H1. destruct (Hone H1) as (st3 & [= <-] & Hn). cbn [sc_app set_sc_idx]. rewrite Hn. done.
      * obind. exists [], k, name, [], st1. rewrite app_nil_r. split_and!; try done; [|by right]. intros _. cbn. change (zlen []) with 0. lia.
    + obind. exists [], k, name, [], st. rewrite app_nil_r. split_and!; try done; [|by left]. intros _. change (zlen []) with 0. lia.
  - obind. apply (progress_nil d (k + 1) (set_sc_idx st _)). constructor; cbn; [rewrite Hidx; apply u8_small; lia|done|done].
Qed.

Lemma srvcfg_loop_run d n m : forall k st,
  dcfg_inited d = true -> run_inv d k st -> 0 <= k -> k + Z.of_nat n = 101 ->
  exists r, progress d (k + zlen (run_from n d k)) (sc_app st) (flat_map (constructor_at d) (run_from n d k)) r /\
    srvcfg_loop base in_irq curr_idx cfgfn (length (run_from n d k) + S m) st =
      (st' ← r; if k + zlen (run_from n d k) <? 0x40
                then srvcfg_loop base in_irq curr_idx cfgfn m (set_sc_idx st' 0x40) else Ret st').
Proof.
  assert (forall k st, dcfg_inited d = true -> run_inv d k st -> 0 <= k <= 101 -> service_of d k = None -> exists r, progress d (k + zlen ([] : list Z)) (sc_app st) [] r /\
    srvcfg_loop base in_irq curr_idx cfgfn (S m) st =
      (st' ← r; if k + zlen ([] : list Z) <? 0x40 then srvcfg_loop base in_irq curr_idx cfgfn m (set_sc_idx st' 0x40) else Ret st')) as Hend.
  { intros k st Hin Hinv Hk Hs. destruct (service_string_spec d k st Hin ltac:(lia) Hinv) as (st' & E & Hinv' & Happ). exists (Ret st').
    change (zlen ([] : list Z)) with 0. rewrite Z.add_0_r, <- Happ. split; [by apply progress_nil|]. cbn [srvcfg_loop]. rewrite E, Hs. obind. by rewrite (ri_idx _ _ _ Hinv'). }
  induction n as [|n IH]; intros k st Hin Hinv Hk Hn; cbn [run_from].
  - apply Hend; [done|done|lia|]. unfold service_of. by rewrite (proj2 (Z.leb_gt _ _)) by lia.
  - destruct (service_of d k) as [srv|] eqn:Es; [|apply Hend; done || lia].
    destruct (service_string_spec d k st Hin ltac:(lia) Hinv) as (st1 & E & Hinv1 & Happ1).
    assert (zlen (k :: run_from n d (k + 1)) = 1 + zlen (run_from n d (k + 1))) as -> by (unfold zlen; simpl; lia). rewrite Z.add_assoc.
    pose proof (configure_spec d k st1 srv Hinv1 ltac:(lia) Es) as Hconf. rewrite Happ1 in Hconf. cbn [flat_map length Nat.add srvcfg_loop]. rewrite E, Es. obind.
    destruct (configure curr_idx cfgfn st1 srv) as [st2| |] eqn:Ec; [| |done].
    + destruct (IH (k + 1) st2 Hin (proj1 Hconf) ltac:(lia) ltac:(lia)) as (r & Hr & Hrun). exists r. split; [|exact Hrun].
      exact (progress_bind d (k + 1) _ _ _ _ (Ret st2) (fun _ => r) Hconf (fun st3 E3 _ => ltac:(injection E3 as <-; exact Hr))).
    + exists Panic. split; [|done].
      exact (progress_bind d (k + 1) _ _ _ _ Panic (fun st => Ret st) Hconf (fun st3 E3 _ => ltac:(discriminate E3))).
Qed.

(** The whole loop: the services from 0, then those from [0x40]. *)
Lemma srvcfg_loop_all d st : dcfg_inited d = true -> run_inv d 0 st ->
  exists k r, progress d k (sc_app st) (flat_map (constructor_at d) (service_indices d)) r /\ srvcfg_loop base in_irq curr_idx cfgfn SRVCFG_FUEL st = r.
Proof.
  intros Hin Hinv. pose proof (length_run_from d 101 0) as Hlen. set (n := length (run_from 101 d 0)) in *.
  destruct (srvcfg_loop_run d 101 (103 - n) 0 st Hin Hinv ltac:(lia) ltac:(lia)) as (r & Hr & Hrun). fold n in Hrun.
  replace (n + S (103 - n))%nat with SRVCFG_FUEL in Hrun by (unfold SRVCFG_FUEL; lia).
  rewrite Hrun, Z.add_0_l in *. unfold service_indices. rewrite flat_map_app.
  destruct (Z.ltb_spec (zlen (run_from 101 d 0)) 0x40) as [Hlow|Hhigh].
  - pose proof (length_run_from d 37 0x40) as Hlen2. set (n2 := length (run_from 37 d 0x40)) in *. unfold zlen in Hlow. fold n in Hlow.
    eexists _, _. split; [|reflexivity]. eapply (progress_bind d _ (0x40 + zlen (run_from 37 d 0x40))); [exact Hr|]. intros st1 _ Hinv1.
    assert (run_inv d 0x40 (set_sc_idx st1 0x40)) as Hinv1' by (destruct Hinv1; constructor; done).
    destruct (srvcfg_loop_run d 37 (103 - n - n2 - 1) 0x40 _ Hin Hinv1' ltac:(lia) ltac:(lia)) as (r2 & Hr2 & Hrun2). fold n2 in Hrun2.
    replace (n2 + S (103 - n - n2 - 1))%nat with (103 - n)%nat in Hrun2 by lia.
    rewrite Hrun2, (proj2 (Z.ltb_ge _ _)) by (unfold zlen; lia). rewrite <- (app_nil_r (flat_map _ _)).
    eapply progress_bind; [exact Hr2|]. intros st2 _ Hinv2. by apply progress_nil.
  - cbn [flat_map]. eexists _, _. split; [|reflexivity]. eapply progress_bind; [exact Hr|]. intros st1 _ Hinv1. by apply progress_nil.
Qed.

(** A run that was stopped had no room, if each constructor registers one service. *)
Lemma stopped_full a cs : one_service_each -> stopped a cs -> SC_MAX_SERVICES < curr_idx a + zlen cs.
Proof.
  intros H1 (made & idx & name & rest & st & -> & _ & _ & Hk & Hn & Hwhy). specialize (Hn H1). rewrite zlen_app.
  assert (1 <= zlen ((idx, name) :: rest)) by (unfold zlen; simpl; lia).
  destruct (Z.lt_ge_cases (curr_idx (sc_app st)) SC_MAX_SERVICES) as [Hlt|Hge]; [|lia].
  destruct Hwhy as [Hge|Hp]; [lia|]. destruct (H1 name st Hk Hlt) as (st' & E & _). congruence.
Qed.

(** C36. [jd_srvcfg_run] ends and configures what the configuration names.
    Whatever the images hold, it should call the constructor that the [service]
    string names for each index from 0 up to the first without a service and
    then, when that one is below [0x40], for each index from [0x40] up to the
    next without one, in this order and once each, with [jd_srvcfg_idx] at that
    index; an unknown name is skipped. Either it has made these calls and leaves
    its loop, or it stopped at one of them, having made those before it, because
    there was no entry left in the index map or the constructor panicked. It
    always leaves its loop when each constructor registers one service and there
    is room for all of them. *)
Theorem jd_srvcfg_run_configures st :
  jd_srvcfg_idx st = 0 -> zlen (sc_keybuf st) = 16 -> dcfg_inited (sc_dcfg st) = true ->
  let cs := flat_map (constructor_at (sc_dcfg st)) (service_indices (sc_dcfg st)) in
  match jd_srvcfg_run base in_irq curr_idx cfgfn st with
  | Ret st' => jd_srvcfg_idx st' = 0xff /\ calls (sc_app st') = calls (sc_app st) ++ cs
  | Panic => stopped (sc_app st) cs /\ (one_service_each -> SC_MAX_SERVICES < curr_idx (sc_app st) + zlen cs)
  | OutOfFuel => False
  end.
Proof.
  intros Hidx Hkb Hin cs. set (d := sc_dcfg st) in *. unfold jd_srvcfg_run. rewrite Hidx. cbn [Z.eqb].
  set (st0 := set_sc_map st _). assert (run_inv d 0 st0) as Hinv by (constructor; done).
  assert (exists k r, progress d k (sc_app st) cs r /\ srvcfg_loop base in_irq curr_idx cfgfn SRVCFG_FUEL st0 = r) as (k & r & Hr & ->).
  { exact (srvcfg_loop_all d st0 Hin Hinv). }
  destruct r as [st'| |]; cbn [progress] in Hr; [| |done]; obind; [by split; [|apply Hr]|]. split; [done|]. intros H1. by apply stopped_full.
Qed.
End Run.

(** *** A device with two services *)

(** [button:1] at 0 and [relay] at [0x40]. *)
Definition SVC0 : list Z := 0x80 :: K_SERVICE.
Definition SVC64 : list Z := 0xc0 :: K_SERVICE.
Definition two_services : list Z :=
  le_bytes 4 DCFG_MAGIC0 ++ le_bytes 4 DCFG_MAGIC1 ++ le_bytes 4 175 ++ le_bytes 2 2 ++ le_bytes 2 0 ++ le_bytes 8 0 ++
  flat_map (fun i => le_bytes 2 (if Z.of_nat i <=? Z.shiftr (keyhash SVC64) 11 then 0
                                 else if Z.of_nat i <=? Z.shiftr (keyhash SVC0) 11 then 1 else 2)) (seq 0 32) ++
  demo_entry SVC64 DCFG_TYPE_STRING 5 169 ++ demo_entry SVC0 DCFG_TYPE_STRING 8 160 ++
  replicate 16 0 ++ [255; 255; 255; 255; 0; 0; 0; 0] ++
  [98; 117; 116; 116; 111; 110; 58; 49; 0; 114; 101; 108; 97; 121; 0].
Definition two_services_config : config := {| cf_addr := 0x8000; cf_img := two_services |}.
Definition two_services_dcfg : dcfg :=
  {| dcfg_inited := true; user_config := None; mfr_config := Some two_services_config |}.

(** A constructor that registers one service, of which there may be [limit], and
    logs its call. *)
Definition log_constructor (limit : Z) (name : list Z) (st : srvcfg (list (Z * list Z))) : outcome (srvcfg (list (Z * list Z))) :=
  if zlen (sc_app st) <? limit
  then Ret (Build_srvcfg (jd_srvcfg_idx st) (jd_srvcfg_idx_map st) (sc_keybuf st) (sc_dcfg st) (sc_app st ++ [(jd_srvcfg_idx st, name)]))
  else Panic.

Lemma log_constructor_laws limit : constructor_laws (log_constructor limit) (fun l => l).
Proof. constructor. intros name st Hk. unfold log_constructor. destruct (_ <? _); [by split_and!|done]. Qed.

(** The control service has the first place. *)
Definition demo_idx (l : list (Z * list Z)) : Z := 1 + zlen l.
Lemma log_constructor_one : one_service_each demo_idx (log_constructor 31).
Proof.
  intros name st Hk Hroom. unfold log_constructor, demo_idx in *. unfold SC_MAX_SERVICES in Hroom. rewrite (proj2 (Z.ltb_lt _ _)) by lia.
  eexists. split; [reflexivity|]. cbn [sc_app]. rewrite zlen_app. change (zlen [_]) with 1. lia.
Qed.

Definition demo_run_state (idx : Z) : srvcfg (list (Z * list Z)) := Build_srvcfg 0 [] (replicate 16 0) two_services_dcfg (replicate (Z.to_nat idx) (0, [])).

Lemma jd_srvcfg_run_configures_witness :
  dcfg_validate (Some two_services_config) = 0 /\
  (exists st', jd_srvcfg_run two_services_config false demo_idx (log_constructor 31) (demo_run_state 0) = Ret st' /\ jd_srvcfg_idx st' = 0xff /\
    sc_app st' = [(0, [98; 117; 116; 116; 111; 110]); (0x40, [114; 101; 108; 97; 121])]).
Proof.
  split; [vm_compute; done|].
  pose proof (jd_srvcfg_run_configures two_services_config false demo_idx (log_constructor 31) (fun l => l) (log_constructor_laws 31)
    (demo_run_state 0) eq_refl eq_refl eq_refl) as Hrun. cbv zeta in Hrun.
  destruct (jd_srvcfg_run _ _ _ _ _) as [st'| |]; [|exfalso|done].
  - exists st'. split; [done|]. destruct Hrun as [H1 H2]. split; [exact H1|]. rewrite H2. vm_compute. reflexivity.
  - destruct Hrun as [_ Hfull]. specialize (Hfull log_constructor_one). vm_compute in Hfull. discriminate.
Defined.

(** *** More services than there is room for *)

(** With 32 services registered the index of the next one is written behind the
    map, before its constructor can panic: here no constructor does, and the run
    ends when an index is 31. *)
Lemma idx_map_written_past_end :
  jd_srvcfg_run two_services_config false demo_idx (log_constructor 40) (demo_run_state 31) = Panic /\
  match jd_srvcfg_run two_services_config false (fun _ => 31) (log_constructor 40) (demo_run_state 31) with Ret _ => True | _ => False end.
Proof. vm_compute. by split. Qed.
