(* ===== verification/Fstor.v ===== *)
(** * Settings in flash ([source/jd_fstor.c])

    A persistent table of keys and values in two flash areas. In the area in
    use, entries grow up behind a header and values grow down from the end; a
    new value of a key is a new entry, and when the two meet the live entries
    are copied to the other area, whose header is written last, with a higher
    generation. Large values have pages of their own behind the two areas.

    Addresses are offsets from [fstor_base]. The port's flash is the class
    [Flash]: its geometry, [flash_program] and [flash_erase], with what flash
    memory is documented to do. *)
From stdpp Require Import gmap.
From S2P Require Import Prelude.

Class Flash := {
  JD_FLASH_PAGE_SIZE : Z;
  JD_FSTOR_TOTAL_SIZE : Z;
  JD_FSTOR_HEADER_PAGES : Z;
  JD_FSTOR_MAX_DATA_PAGES : Z;
  flash_program : list Z -> Z -> list Z -> list Z;
  flash_erase : list Z -> Z -> list Z;
}.

(** Documented: erasing sets a page to [0xff]; programming erased bytes stores
    them. What programming does to other bytes is left open. *)
Class FlashLaws `{Flash} := {
  flash_program_erased : forall m off src, Forall is_byte src -> 0 <= off -> off + zlen src <= zlen m ->
    mread m off (zlen src) = replicate (length src) 0xff -> flash_program m off src = mwrite m off src;
  flash_erase_page : forall m off, 0 <= off -> off mod JD_FLASH_PAGE_SIZE = 0 ->
    off + JD_FLASH_PAGE_SIZE <= zlen m ->
    flash_erase m off = mwrite m off (replicate (Z.to_nat JD_FLASH_PAGE_SIZE) 0xff);
}.

Section Fstor.
Context `{Flash}.

Definition FSTOR_PAGES : Z := JD_FSTOR_TOTAL_SIZE / JD_FLASH_PAGE_SIZE.
Definition FSTOR_MAGIC0 : Z := 0x52545346.
Definition FSTOR_MAGIC1 : Z := 0x6becea0a.
Definition FSTOR_KEYSIZE : Z := 15.
Definition sizeof_entry : Z := 24.
Definition sizeof_header : Z := 24.

(** The static variables, and the contents of the flash. *)
Record fstor := {
  fs_mem : list Z;
  settings : option Z;
  last_entry : Z;
  data_start : Z;
  used_data_pages : list Z;   (* uint32_t [] *)
  header_pages : Z;           (* uint8_t *)
}.

Definition fs_set_mem (st : fstor) (m : list Z) : fstor :=
  {| fs_mem := m; settings := settings st; last_entry := last_entry st; data_start := data_start st;
     used_data_pages := used_data_pages st; header_pages := header_pages st |}.
Definition fs_set_settings (st : fstor) (s : option Z) : fstor :=
  {| fs_mem := fs_mem st; settings := s; last_entry := last_entry st; data_start := data_start st;
     used_data_pages := used_data_pages st; header_pages := header_pages st |}.
Definition fs_set_ends (st : fstor) (last ds : Z) : fstor :=
  {| fs_mem := fs_mem st; settings := settings st; last_entry := last; data_start := ds;
     used_data_pages := used_data_pages st; header_pages := header_pages st |}.
Definition fs_set_used (st : fstor) (u : list Z) : fstor :=
  {| fs_mem := fs_mem st; settings := settings st; last_entry := last_entry st; data_start := data_start st;
     used_data_pages := u; header_pages := header_pages st |}.
Definition fs_set_header_pages (st : fstor) (n : Z) : fstor :=
  {| fs_mem := fs_mem st; settings := settings st; last_entry := last_entry st; data_start := data_start st;
     used_data_pages := used_data_pages st; header_pages := n |}.

Definition FSTOR_HEADER_SIZE (st : fstor) : Z := header_pages st * JD_FLASH_PAGE_SIZE.
Definition FSTOR_DATA_PAGE_OFF (st : fstor) : Z := header_pages st * 2.
Definition FSTOR_DATA_PAGES (st : fstor) : Z := FSTOR_PAGES - FSTOR_DATA_PAGE_OFF st.

(** The key of the entry at [e] as [strcmp] sees it, and its fields. *)
Definition e_key (m : list Z) (e : Z) : list Z := cstring (drop (Z.to_nat e) m).
Definition e_offset (m : list Z) (e : Z) : Z := get32 m (e + 16).
Definition e_size (m : list Z) (e : Z) : Z := get32 m (e + 20).

(** [jd_fstor_entry_t tmp = {.size = size, .offset = offset}] with its key
    copied in; the key's other bytes are 0. *)
Definition entry_bytes (key : list Z) (offset size : Z) : list Z :=
  mwrite (replicate 16 0) 0 key ++ le_bytes 4 offset ++ le_bytes 4 size.

Definition erase_pages (m : list Z) (base num : Z) : list Z :=
  fold_left (fun m i => flash_erase m (base + Z.of_nat i * JD_FLASH_PAGE_SIZE)) (seq 0 (Z.to_nat num)) m.

Definition align_core (size sz : Z) : Z :=
  if size =? 0 then sz else u32 (Z.land (size + sz - 1) (Z.lnot (sz - 1))).
Definition align (size : Z) : Z := align_core size 8.

Definition is_valid (m : list Z) (e : Z) : bool := negb (u32 (Z.lnot (e_offset m e)) =? 0).
Definition is_large (m : list Z) (e : Z) : bool := get8 m e =? 42.

Definition starts_star (key : list Z) : bool := match key with c :: _ => c =? 42 | [] => false end.
Definition key_ok (key : option (list Z)) : bool :=
  match key with Some k => negb ((zlen k >? FSTOR_KEYSIZE) || starts_star k) | None => false end.
Definition lkey_ok (key : option (list Z)) : bool :=
  match key with Some k => negb (negb (starts_star k) || (zlen k >? FSTOR_KEYSIZE)) | None => false end.

(** ** Data pages *)

Definition data_page_used (st : fstor) (off : Z) : outcome bool :=
  JD_ASSERT off <? u32 (FSTOR_DATA_PAGES st) ;;
  Ret (Z.testbit (default 0 (used_data_pages st !! Z.to_nat (off / 32))) (off mod 32)).

Definition mark_data_page (st : fstor) (off : Z) (used : bool) : outcome fstor :=
  b ← data_page_used st off;
  if negb (Bool.eqb b used) then
    let i := Z.to_nat (off / 32) in
    Ret (fs_set_used st (<[i := Z.lxor (default 0 (used_data_pages st !! i)) (Z.shiftl 1 (off mod 32))]> (used_data_pages st)))
  else Ret st.

Definition num_data_pages (size : Z) : Z := align_core size JD_FLASH_PAGE_SIZE / JD_FLASH_PAGE_SIZE.

Fixpoint mark_pages (n : nat) (st : fstor) (off : Z) (used : bool) : outcome fstor :=
  match n with
  | O => Ret st
  | S n => st ← mark_data_page st (u32 off) used; mark_pages n st (off + 1) used
  end.

(** The entry [*e] as its first byte, offset and size. *)
Definition mark_large (st : fstor) (key0 offset size : Z) (used : bool) : outcome fstor :=
  JD_ASSERT key0 =? 42 ;;
  mark_pages (Z.to_nat (num_data_pages size)) st (u32 (offset / JD_FLASH_PAGE_SIZE - FSTOR_DATA_PAGE_OFF st)) used.

Definition mark_entry (st : fstor) (e : Z) (used : bool) : outcome fstor :=
  mark_large st (get8 (fs_mem st) e) (e_offset (fs_mem st) e) (e_size (fs_mem st) e) used.

(** ** The area in use *)

Definition free_space (st : fstor) : Z :=
  let sz := data_start st - last_entry st - sizeof_entry * 2 in
  if sz <? 0 then 0 else sz.

(** [for (q = e + 1; q <= last_entry; ++q)]; [n] is the number of entries left. *)
Fixpoint later_loop (n : nat) (m : list Z) (key : list Z) (q : Z) : bool :=
  match n with
  | O => false
  | S n => bool_decide (e_key m q = key) || later_loop n m key (q + sizeof_entry)
  end.
Definition entries_from (st : fstor) (e : Z) : nat := Z.to_nat ((last_entry st - e) / sizeof_entry + 1).
Definition has_later_copy (st : fstor) (e : Z) : bool :=
  later_loop (entries_from st (e + sizeof_entry)) (fs_mem st) (e_key (fs_mem st) e) (e + sizeof_entry).

Definition oops (st : fstor) : fstor := fs_set_settings st None.

(** [while (is_valid(e))]: where it ends, with [minoff]; [None] is the [oops]
    in it. Every turn moves [e] towards [minoff]. *)
Fixpoint valid_loop (fuel : nat) (m : list Z) (e minoff : Z) : outcome (option (Z * Z)) :=
  match fuel with
  | O => OutOfFuel
  | S fuel =>
      if is_valid m e then
        let minoff := if e_offset m e <? minoff then e_offset m e else minoff in
        let e := e + sizeof_entry in
        if e >? minoff then Ret None else valid_loop fuel m e minoff
      else Ret (Some (e, minoff))
  end.

(** [while (p < data_start)] *)
Definition all_ff (m : list Z) (p stop : Z) : bool := forallb (fun b => b =? 0xff) (mread m p (stop - p)).

Fixpoint mark_loop (n : nat) (st : fstor) (e : Z) : outcome fstor :=
  match n with
  | O => Ret st
  | S n =>
      st ← (if is_large (fs_mem st) e && negb (has_later_copy st e) then mark_entry st e true else Ret st);
      mark_loop n st (e + sizeof_entry)
  end.

Definition recompute_cache (st : fstor) : outcome fstor :=
  match settings st with
  | None => Panic (* a NULL pointer is used *)
  | Some s =>
      let minoff := s + FSTOR_HEADER_SIZE st in
      let entries := s + sizeof_header in
      r ← valid_loop (Z.to_nat (FSTOR_HEADER_SIZE st)) (fs_mem st) entries minoff;
      match r with
      | None => Ret (oops st)
      | Some (e, minoff) =>
          let st := fs_set_ends st (e - sizeof_entry) minoff in
          if negb (all_ff (fs_mem st) e minoff) then Ret (oops st)
          else
            JD_ASSERT FSTOR_DATA_PAGES st <=? JD_FSTOR_MAX_DATA_PAGES ;;
            (let st := fs_set_used st (replicate (Z.to_nat ((JD_FSTOR_MAX_DATA_PAGES + 31) / 32)) 0) in
             mark_loop (entries_from st entries) st entries)
      end
  end.

Definition header_bytes (st : fstor) (gen : Z) : list Z :=
  le_bytes 4 FSTOR_MAGIC0 ++ le_bytes 4 FSTOR_MAGIC1 ++ le_bytes 4 gen ++ le_bytes 4 JD_FLASH_PAGE_SIZE ++
  le_bytes 2 FSTOR_PAGES ++ le_bytes 2 (header_pages st) ++ le_bytes 4 0.
Definition write_header (st : fstor) (gen : Z) : fstor :=
  match settings st with
  | None => st
  | Some s => fs_set_mem st (flash_program (fs_mem st) s (header_bytes st gen))
  end.

Definition is_valid_header (st : fstor) (s : Z) : bool :=
  let m := fs_mem st in
  (get32 m s =? FSTOR_MAGIC0) && (get32 m (s + 4) =? FSTOR_MAGIC1) &&
  (get32 m (s + 12) =? JD_FLASH_PAGE_SIZE) && (get16 m (s + 16) =? FSTOR_PAGES) &&
  (get16 m (s + 18) =? header_pages st).
Definition generation (m : list Z) (s : Z) : Z := get32 m (s + 8).

Definition compute_header_pages : Z :=
  let pages := JD_FSTOR_TOTAL_SIZE / JD_FLASH_PAGE_SIZE / 16 in
  let pages := if pages <? JD_FSTOR_HEADER_PAGES then JD_FSTOR_HEADER_PAGES else pages in
  u8 (if pages >? 0xf0 then 0xf0 else pages).

(** [settings] as [jd_fstor_init] picks it from the two headers. *)
Definition pick_area (st : fstor) : option Z :=
  let s1 := FSTOR_HEADER_SIZE st in
  match is_valid_header st 0, is_valid_header st s1 with
  | true, true => Some (if generation (fs_mem st) 0 >? generation (fs_mem st) s1 then 0 else s1)
  | true, false => Some 0
  | false, true => Some s1
  | false, false => None
  end.

Definition jd_fstor_init (st : fstor) : outcome fstor :=
  match settings st with
  | Some _ => Ret st
  | None =>
      let st := fs_set_header_pages st compute_header_pages in
      let st := fs_set_settings st (pick_area st) in
      st ← (match settings st with Some _ => recompute_cache st | None => Ret st end);
      match settings st with
      | Some _ => Ret st
      | None =>
          let st := fs_set_settings st (Some 0) in
          let st := fs_set_mem st (erase_pages (fs_mem st) 0 (header_pages st)) in
          let st := write_header st 1 in
          st ← recompute_cache st;
          JD_ASSERT (match settings st with Some _ => true | None => false end) ;;
          Ret st
      end
  end.

(** ** Garbage collection *)

(** The loop over the entries: the memory, [dst_e] and [dst_data]. The cache
    of [st] still describes the old area. *)
Fixpoint gc_loop (n : nat) (st : fstor) (e dst_e dst_data : Z) : fstor :=
  match n with
  | O => st
  | S n =>
      if has_later_copy st e then gc_loop n st (e + sizeof_entry) dst_e dst_data
      else
        let m := fs_mem st in
        let tmp := mread m e sizeof_entry in
        let size := e_size m e in
        let '(m, tmp, dst_data) :=
          if negb (is_large m e) then
            let dst_data := dst_data - align size in
            (flash_program m dst_data (mread m (e_offset m e) size),
             mwrite tmp 16 (le_bytes 4 dst_data), dst_data)
          else (m, tmp, dst_data) in
        gc_loop n (fs_set_mem st (flash_program m dst_e tmp)) (e + sizeof_entry) (dst_e + sizeof_entry) dst_data
  end.

Definition jd_fstor_gc (st : fstor) : outcome fstor :=
  match settings st with
  | None => Panic
  | Some s =>
      let alt := if 0 =? s then FSTOR_HEADER_SIZE st else 0 in
      let st := fs_set_mem st (erase_pages (fs_mem st) alt (header_pages st)) in
      let entries := s + sizeof_header in
      let st := gc_loop (entries_from st entries) st entries (alt + sizeof_header) (alt + FSTOR_HEADER_SIZE st) in
      let newgen := u32 (generation (fs_mem st) s + 1) in
      let st := write_header (fs_set_settings st (Some alt)) newgen in
      st ← recompute_cache st;
      JD_ASSERT (match settings st with Some _ => true | None => false end) ;;
      Ret st
  end.

(** ** Settings *)

(** [for (e = last_entry; e >= settings->entries; e--)]; [n] entries are left. *)
Fixpoint find_loop (n : nat) (m : list Z) (key : list Z) (e : Z) : option Z :=
  match n with
  | O => None
  | S n => if bool_decide (e_key m e = key) then Some e else find_loop n m key (e - sizeof_entry)
  end.
Definition find_entry (st : fstor) (key : list Z) : outcome (option Z * fstor) :=
  st ← jd_fstor_init st;
  match settings st with
  | None => Panic
  | Some s => Ret (find_loop (entries_from st (s + sizeof_header)) (fs_mem st) key (last_entry st), st)
  end.

(** [dst] is the caller's buffer. *)
Definition jd_settings_get_bin (st : fstor) (key : option (list Z)) (dst : list Z) (space : Z)
    : outcome (Z * list Z * fstor) :=
  if negb (key_ok key) then Ret (-1, dst, st)
  else
    '(e, st) ← find_entry st (default [] key);
    match e with
    | None => Ret (-2, dst, st)
    | Some e =>
        let size := e_size (fs_mem st) e in
        Ret (size, if space >=? size then mwrite dst 0 (mread (fs_mem st) (e_offset (fs_mem st) e) space) else dst, st)
    end.

Definition jd_settings_set_bin (st : fstor) (key : option (list Z)) (val : list Z) : outcome (Z * fstor) :=
  let size := zlen val in
  if negb (key_ok key) then Ret (-1, st)
  else if size >? u32 (FSTOR_HEADER_SIZE st - 200) then Ret (-2, st)
  else
    '(e, st) ← find_entry st (default [] key);
    if (match e with
        | Some e => (e_size (fs_mem st) e =? size) && bool_decide (mread (fs_mem st) (e_offset (fs_mem st) e) size = val)
        | None => false
        end)
    then Ret (0, st)
    else
      let sizeoff := align size in
      '(ok, st) ← (if free_space st <? sizeoff + sizeof_entry then
                     st ← jd_fstor_gc st; Ret (negb (free_space st <? sizeoff + sizeof_entry), st)
                   else Ret (true, st));
      if negb ok then Ret (-3, st)
      else
        let ds := data_start st - sizeoff in
        let m := flash_program (fs_mem st) ds val in
        let last := last_entry st + sizeof_entry in
        let m := flash_program m last (entry_bytes (default [] key) ds size) in
        JD_ASSERT last + sizeof_entry <=? ds ;;
        Ret (0, fs_set_ends (fs_set_mem st m) last ds).

(** ** Large settings *)

(** The address of the value and its size. *)
Definition jd_settings_get_large (st : fstor) (key : option (list Z)) : outcome (option (Z * Z) * fstor) :=
  if negb (lkey_ok key) then Ret (None, st)
  else
    '(e, st) ← find_entry st (default [] key);
    Ret (match e with Some e => Some (e_offset (fs_mem st) e, e_size (fs_mem st) e) | None => None end, st).

(** [for (i = 0; i < pages; ++i)]: the used page that was hit, if one was. *)
Fixpoint run_loop (n : nat) (st : fstor) (off i : Z) : outcome (option Z) :=
  match n with
  | O => Ret None
  | S n => b ← data_page_used st (off + i); if b : bool then Ret (Some i) else run_loop n st off (i + 1)
  end.
Fixpoint free_loop (fuel : nat) (st : fstor) (pages off : Z) : outcome Z :=
  match fuel with
  | O => OutOfFuel
  | S fuel =>
      if off <? u32 (FSTOR_DATA_PAGES st - pages) then
        r ← run_loop (Z.to_nat pages) st off 0;
        match r with
        | Some i => free_loop fuel st pages (off + (i + 1))
        | None => Ret ((FSTOR_DATA_PAGE_OFF st + off) * JD_FLASH_PAGE_SIZE)
        end
      else Ret 0
  end.
Definition find_free_data (st : fstor) (size : Z) : outcome Z :=
  free_loop (S (Z.to_nat FSTOR_PAGES)) st (num_data_pages size) 0.

Definition jd_settings_prep_large (st : fstor) (key : option (list Z)) (size : Z) : outcome (option Z * fstor) :=
  if negb (lkey_ok key) then Ret (None, st)
  else
    '(e, st) ← find_entry st (default [] key);
    st ← (match e with Some e => mark_entry st e false | None => Ret st end);
    offset ← find_free_data st size;
    if offset =? 0 then
      st ← (match e with Some e => mark_entry st e true | None => Ret st end);
      Ret (None, st)
    else
      '(ok, st) ← (if free_space st <? sizeof_entry then
                     st ← jd_fstor_gc st; Ret (negb (free_space st <? sizeof_entry), st)
                   else Ret (true, st));
      if negb ok then Ret (None, st)
      else
        let last := last_entry st + sizeof_entry in
        let m := erase_pages (fs_mem st) offset (num_data_pages size) in
        let m := flash_program m last (entry_bytes (default [] key) offset size) in
        let st := fs_set_ends (fs_set_mem st m) last (data_start st) in
        st ← mark_large st (hd 0 (default [] key)) offset size true;
        Ret (Some offset, st).

Definition jd_settings_write_large (st : fstor) (dst : Z) (src : list Z) : Z * fstor :=
  (0, fs_set_mem st (flash_program (fs_mem st) dst src)).
End Fstor.

Section FstorProofs.
Context `{FlashLaws}.

(** ** Memory facts *)

(** The two memories agree from [lo] to [hi]. *)
Definition same_on (m m' : list Z) (lo hi : Z) : Prop :=
  forall off n, lo <= off -> 0 <= n -> off + n <= hi -> mread m' off n = mread m off n.

Lemma same_on_refl m lo hi : same_on m m lo hi.
Proof. by intros ????. Qed.

Lemma same_on_trans m1 m2 m3 lo hi : same_on m1 m2 lo hi -> same_on m2 m3 lo hi -> same_on m1 m3 lo hi.
Proof. intros H1 H2 off n ???. by rewrite H2, H1. Qed.

Lemma same_on_sub m m' lo hi lo' hi' : same_on m m' lo hi -> lo <= lo' -> hi' <= hi -> same_on m m' lo' hi'.
Proof. intros Hs ?? off n ???. apply Hs; lia. Qed.

Lemma same_on_mwrite m off src lo hi :
  0 <= off -> off + zlen src <= zlen m -> 0 <= lo -> hi <= off \/ off + zlen src <= lo ->
  same_on m (mwrite m off src) lo hi.
Proof. intros ???? o n ???. apply mread_mwrite_out; lia. Qed.

(** A part of a run of erased bytes is erased. *)
Lemma mread_sub_ff m off n off' n' :
  0 <= off -> off <= off' -> 0 <= n' -> off' + n' <= off + n ->
  mread m off n = replicate (Z.to_nat n) 0xff -> mread m off' n' = replicate (Z.to_nat n') 0xff.
Proof.
  intros Ho Ho' Hn Hle Hff. replace off' with (off + (off' - off)) by lia.
  rewrite <- (mread_mread m off n (off' - off) n') by lia. rewrite Hff. unfold mread.
  rewrite drop_replicate, take_replicate. f_equal. lia.
Qed.

Lemma mread_mwrite_n m off src n : n = zlen src -> (Z.to_nat off + length src <= length m)%nat ->
  mread (mwrite m off src) off n = src.
Proof. intros ->. apply mread_mwrite_eq. Qed.

Lemma all_ff_spec m p stop : 0 <= p -> stop <= zlen m ->
  mread m p (stop - p) = replicate (Z.to_nat (stop - p)) 0xff -> all_ff m p stop = true.
Proof. intros ?? E. unfold all_ff. rewrite E. apply forallb_forall. intros x Hx.
  by apply list_elem_of_In, elem_of_replicate in Hx as [-> _]. Qed.

Lemma align8 x : 0 <= x < 2 ^ 31 -> x <= align x <= x + 8 /\ 8 <= align x.
Proof.
  intros Hx. unfold align, align_core. destruct (Z.eqb_spec x 0); [lia|].
  change (8 - 1) with (Z.ones 3). rewrite <- Z.ldiff_land, Z.ldiff_ones_r by lia.
  rewrite Z.shiftr_div_pow2, Z.shiftl_mul_pow2 by lia. change (2 ^ 3) with 8.
  rewrite u32_small by word_lia. word_lia.
Qed.

(** ** The log of settings in an area *)

Implicit Types (L : list (list Z * list Z)).

Definition hsize : Z := compute_header_pages * JD_FLASH_PAGE_SIZE.

Record fstor_geometry : Prop := {
  g_page : 0 < JD_FLASH_PAGE_SIZE;
  g_hp : 0 < compute_header_pages < 256;
  g_size : 256 <= hsize;
  g_total : 2 * hsize <= JD_FSTOR_TOTAL_SIZE < 2 ^ 31;
  g_pages : 2 * compute_header_pages <= FSTOR_PAGES < 65536;
  g_max : FSTOR_PAGES - compute_header_pages * 2 <= JD_FSTOR_MAX_DATA_PAGES;
}.

(** Keys and values that the settings calls take. *)
Definition kv_ok (x : list Z * list Z) : Prop :=
  zlen x.1 <= FSTOR_KEYSIZE /\ (Forall (fun b => 0 < b < 256) x.1 /\ Forall is_byte x.2) /\ starts_star x.1 = false /\ zlen x.2 < 2 ^ 31.

Fixpoint vals_size L : Z :=
  match L with
  | [] => 0
  | x :: L => align (zlen x.2) + vals_size L
  end.

(** Where the [i]-th entry is, and where the values start. *)
Definition ent (s : Z) (i : Z) : Z := s + sizeof_header + sizeof_entry * i.
Definition ds (s : Z) L : Z := s + hsize - vals_size L.

Record area (m : list Z) (s : Z) L : Prop := {
  ar_kv : Forall kv_ok L;
  ar_entry : forall i k v, L !! i = Some (k, v) ->
    mread m (ent s (Z.of_nat i)) sizeof_entry = entry_bytes k (ds s (take (S i) L)) (zlen v);
  ar_value : forall i k v, L !! i = Some (k, v) -> mread m (ds s (take (S i) L)) (zlen v) = v;
  ar_free : mread m (ent s (zlen L)) (ds s L - ent s (zlen L)) = replicate (Z.to_nat (ds s L - ent s (zlen L))) 0xff;
  ar_room : ent s (zlen L) + sizeof_entry <= ds s L;
}.

Lemma vals_size_app L1 L2 : vals_size (L1 ++ L2) = vals_size L1 + vals_size L2.
Proof. induction L1 as [|x L1 IH]; cbn [app vals_size]; lia. Qed.

Lemma vals_size_nonneg L : Forall kv_ok L -> 0 <= vals_size L.
Proof.
  induction 1 as [|x L Hx _ IH]; cbn [vals_size]; [lia|]. destruct Hx as (_ & _ & _ & Hv).
  pose proof (zlen_nonneg x.2). pose proof (align8 (zlen x.2)). lia.
Qed.

Lemma vals_size_take i L : Forall kv_ok L -> vals_size (take i L) <= vals_size L.
Proof.
  intros Hk. rewrite <- (take_drop i L) at 2. rewrite vals_size_app.
  pose proof (vals_size_nonneg (drop i L) (Forall_drop _ _ _ Hk)). lia.
Qed.

(** A value lies between the free space and the end of its area. *)
Lemma value_range s L i k v : Forall kv_ok L -> L !! i = Some (k, v) ->
  ds s L <= ds s (take (S i) L) /\ ds s (take (S i) L) + zlen v <= s + hsize.
Proof.
  intros Hk Hi. pose proof (vals_size_take (S i) L Hk). unfold ds. split; [lia|].
  rewrite (take_S_r _ _ _ Hi), vals_size_app. cbn [vals_size snd].
  destruct (Forall_lookup_1 _ _ _ _ Hk Hi) as (_ & _ & _ & Hv). cbn [snd] in Hv. pose proof (zlen_nonneg v).
  pose proof (align8 (zlen v)). pose proof (vals_size_nonneg (take i L) (Forall_take _ _ _ Hk)). lia.
Qed.

Lemma lookup_zlen {A} (l : list A) i x : l !! i = Some x -> Z.of_nat i < zlen l.
Proof. intros Hi%lookup_lt_Some. unfold zlen. lia. Qed.

Lemma area_frame m m' s L : area m s L -> same_on m m' (s + sizeof_header) (s + hsize) -> area m' s L.
Proof.
  intros [Hk He Hv Hf Hr] Hs. pose proof (vals_size_nonneg L Hk) as Hn.
  assert (ds s L <= s + hsize) by (unfold ds; lia). unfold ent, sizeof_header, sizeof_entry in *.
  pose proof (zlen_nonneg L).
  constructor; unfold ent, sizeof_header, sizeof_entry; [done| | | |done].
  - intros i k v Hi. pose proof (lookup_zlen _ _ _ Hi). rewrite Hs by lia. by eapply He.
  - intros i k v Hi. destruct (value_range s L i k v Hk Hi). pose proof (zlen_nonneg v).
    rewrite Hs by lia. by eapply Hv.
  - rewrite Hs by lia. done.
Qed.

Lemma zlen_entry_bytes k off size : zlen k <= 15 -> zlen (entry_bytes k off size) = 24.
Proof.
  intros Hk. pose proof (zlen_nonneg k). unfold entry_bytes.
  rewrite !zlen_app, zlen_mwrite by (unfold zlen in *; rewrite ?length_replicate; lia).
  unfold zlen. rewrite length_replicate, !length_le_bytes. lia.
Qed.

Lemma entry_bytes_bytes k off size : Forall (fun b => 0 < b < 256) k -> Forall is_byte (entry_bytes k off size).
Proof.
  intros Hk. unfold entry_bytes. rewrite !Forall_app. split_and!; auto with jd.
  apply Forall_mwrite; [by apply Forall_replicate|]. eapply Forall_impl; [exact Hk|]. unfold is_byte. simpl. lia.
Qed.

(** Writing a value and then its entry extends the log. *)
Lemma area_append m s L k v :
  0 <= s -> s + hsize <= zlen m -> area m s L -> kv_ok (k, v) ->
  ent s (zlen L) + 2 * sizeof_entry <= ds s (L ++ [(k, v)]) ->
  let d := ds s (L ++ [(k, v)]) in
  let m1 := flash_program m d v in
  let m2 := flash_program m1 (ent s (zlen L)) (entry_bytes k d (zlen v)) in
  area m2 s (L ++ [(k, v)]) /\ zlen m2 = zlen m /\
  same_on m m1 0 (s + sizeof_header) /\ same_on m m1 (s + hsize) (zlen m) /\
  same_on m m2 0 (s + sizeof_header) /\ same_on m m2 (s + hsize) (zlen m).
Proof.
  intros Hs Hlen Ha Hkv Hroom d m1 m2. fold d in Hroom. pose proof Ha as [Hk He Hv Hf Hr].
  pose proof Hkv as (Hk1 & [Hk2 Hk2'] & Hk3 & Hk4). cbn [fst snd] in *. pose proof (zlen_nonneg v) as Hvn. pose proof (zlen_nonneg L) as HLn.
  pose proof (align8 (zlen v) ltac:(lia)) as [Hal Hal8]. unfold FSTOR_KEYSIZE in Hk1.
  pose proof (zlen_entry_bytes k d (zlen v) Hk1) as Hel.
  assert (length (entry_bytes k d (zlen v)) = 24%nat) as Hel' by (apply Nat2Z.inj; exact Hel). pose proof (vals_size_nonneg L Hk) as Hsz.
  assert (d = ds s L - align (zlen v)) as Hd by (unfold d, ds; rewrite vals_size_app; cbn [vals_size snd]; lia).
  assert (ds s L <= s + hsize) as Hds by (unfold ds; lia).
  unfold ent, sizeof_header, sizeof_entry in *.
  assert (forall off n, s + 24 + 24 * zlen L <= off -> 0 <= n -> off + n <= ds s L ->
    mread m off n = replicate (Z.to_nat n) 0xff) as Hff.
  { intros off n ???. eapply mread_sub_ff, Hf; lia. }
  assert (m1 = mwrite m d v) as Hm1.
  { apply flash_program_erased; [done|lia|lia|]. rewrite Hff by lia. unfold zlen. by rewrite Nat2Z.id. }
  assert (zlen m1 = zlen m) as Hl1 by (rewrite Hm1; apply zlen_mwrite; lia).
  assert (m2 = mwrite m1 (s + 24 + 24 * zlen L) (entry_bytes k d (zlen v))) as Hm2.
  { apply flash_program_erased; [by apply entry_bytes_bytes|lia|lia|]. rewrite Hel, Hm1, mread_mwrite_out, Hff by lia.
    by rewrite Hel'. }
  assert (forall lo hi, 0 <= lo -> hi <= s + 24 + 24 * zlen L \/ d + zlen v <= lo -> same_on m m2 lo hi) as Hsame.
  { intros lo hi ? Hout. apply (same_on_trans m m1); [rewrite Hm1|rewrite Hm2]; apply same_on_mwrite; lia. }
  assert (forall off n, 0 <= off -> 0 <= n -> off + n <= s + 24 + 24 * zlen L \/ d + zlen v <= off ->
    mread m2 off n = mread m off n) as Hread.
  { intros off n ?? Hout. apply (Hsame off (off + n)); lia. }
  split_and!; [|rewrite Hm2, zlen_mwrite; lia|rewrite Hm1; apply same_on_mwrite; lia|rewrite Hm1; apply same_on_mwrite; lia
    |apply Hsame; lia|apply Hsame; lia].
  assert (zlen (L ++ [(k, v)]) = zlen L + 1) as HL1 by (rewrite zlen_app; done).
  constructor; unfold ent, sizeof_header, sizeof_entry; rewrite ?HL1; fold d; [by apply Forall_app_2; [|constructor]| | | |lia].
  - intros i k' v' Hi. rewrite lookup_app_case in Hi. case_decide as Hlt.
    + pose proof (lookup_zlen _ _ _ Hi). rewrite take_app_le by lia. rewrite Hread by lia. by apply He.
    + assert (i = length L) as -> by (apply list_lookup_singleton_Some in Hi as [? _]; lia).
      rewrite Nat.sub_diag in Hi. injection Hi as <- <-. rewrite take_ge by (rewrite length_app; simpl; lia).
      fold d. fold (zlen L). rewrite Hm2. apply mread_mwrite_n; [done|]. rewrite Hel'. unfold zlen in *. lia.
  - intros i k' v' Hi. rewrite lookup_app_case in Hi. case_decide as Hlt.
    + destruct (value_range s L i k' v' Hk Hi). pose proof (zlen_nonneg v').
      rewrite take_app_le by lia. rewrite Hread by lia. by eapply Hv.
    + assert (i = length L) as -> by (apply list_lookup_singleton_Some in Hi as [? _]; lia).
      rewrite Nat.sub_diag in Hi. injection Hi as <- <-. rewrite take_ge by (rewrite length_app; simpl; lia).
      fold d. rewrite Hm2, mread_mwrite_out, Hm1 by lia. apply mread_mwrite_eq. unfold zlen in *. lia.
  - rewrite Hm2, mread_mwrite_out, Hm1, mread_mwrite_out, Hff by lia. done.
Qed.

(** The fields of an entry that was written. *)
Lemma entry_fields m e k off size :
  0 <= e -> mread m e sizeof_entry = entry_bytes k off size -> zlen k <= 15 -> Forall (fun b => 0 < b < 256) k ->
  0 <= off < 2 ^ 32 -> 0 <= size < 2 ^ 32 ->
  e_key m e = k /\ e_offset m e = off /\ e_size m e = size /\ mread m e 16 = mwrite (replicate 16 0) 0 k /\
  get8 m e = hd 0 k.
Proof.
  intros He Hm Hk Hnz Hoff Hsize. unfold sizeof_entry in Hm. pose proof (zlen_nonneg k).
  assert (zlen (mwrite (replicate 16 0) 0 k) = 16) as Hp
    by (rewrite zlen_mwrite; unfold zlen in *; rewrite ?length_replicate; lia).
  assert (forall o n, 0 <= o -> 0 <= n -> o + n <= 24 -> mread m (e + o) n = mread (entry_bytes k off size) o n) as Hr.
  { intros o n ???. rewrite <- Hm. rewrite mread_mread by lia. done. }
  assert (mread m e 16 = mwrite (replicate 16 0) 0 k) as Hkey.
  { replace e with (e + 0) by lia. rewrite Hr by lia. unfold entry_bytes, mread. change (Z.to_nat 0) with 0%nat.
    rewrite drop_0. apply take_app_length'. unfold zlen in Hp. lia. }
  assert (exists r, drop (Z.to_nat e) m = k ++ 0 :: r) as [r Hd].
  { rewrite <- (take_drop 16 (drop (Z.to_nat e) m)). change (take 16 (drop (Z.to_nat e) m)) with (mread m e 16).
    rewrite Hkey. unfold mwrite. change (Z.to_nat 0) with 0%nat. rewrite take_0, Nat.add_0_l, drop_replicate.
    cbn [app]. unfold zlen in Hk. replace (16 - length k)%nat with (S (15 - length k)) by lia. cbn [replicate].
    rewrite <- app_assoc. cbn [app]. eauto. }
  split_and!; [| | |done|].
  - unfold e_key. rewrite Hd. apply cstring_text. eapply Forall_impl; [exact Hnz|]. simpl. lia.
  - unfold e_offset, get32. rewrite Hr by lia. unfold entry_bytes, mread.
    rewrite drop_app_length', take_app_length' by (rewrite ?length_le_bytes; unfold zlen in Hp; lia).
    rewrite le_val_le_bytes. apply Z.mod_small. exact Hoff.
  - unfold e_size, get32. rewrite Hr by lia. unfold entry_bytes, mread. rewrite app_assoc.
    rewrite drop_app_length', take_ge by (rewrite ?length_app, ?length_le_bytes; unfold zlen in Hp; lia).
    rewrite le_val_le_bytes. apply Z.mod_small. exact Hsize.
  - unfold get8. rewrite <- (Nat.add_0_r (Z.to_nat e)), <- lookup_drop, Hd. by destruct k.
Qed.

Lemma area_fields m s L i k v :
  0 <= s -> s + hsize < 2 ^ 31 -> area m s L -> L !! i = Some (k, v) ->
  e_key m (ent s (Z.of_nat i)) = k /\ e_offset m (ent s (Z.of_nat i)) = ds s (take (S i) L) /\
  e_size m (ent s (Z.of_nat i)) = zlen v /\ is_valid m (ent s (Z.of_nat i)) = true /\
  is_large m (ent s (Z.of_nat i)) = false.
Proof.
  intros Hs Hsz [Hk He Hv Hf Hr] Hi. destruct (value_range s L i k v Hk Hi) as [Hlo Hhi].
  destruct (Forall_lookup_1 _ _ _ _ Hk Hi) as (Hk1 & [Hk2 _] & Hk3 & Hk4). cbn [fst snd] in *.
  pose proof (zlen_nonneg v). pose proof (zlen_nonneg L). unfold ent, sizeof_header, sizeof_entry, FSTOR_KEYSIZE in *.
  destruct (entry_fields m (s + 24 + 24 * Z.of_nat i) k (ds s (take (S i) L)) (zlen v)) as (E1 & E2 & E3 & _ & E5);
    try done; try lia; [by apply He|].
  split_and!; try done.
  - unfold is_valid. rewrite E2. apply negb_true_iff, Z.eqb_neq. unfold u32, Z.lnot.
    rewrite <- (Z_mod_plus_full _ 1), Z.mod_small; lia.
  - unfold is_large. rewrite E5. unfold starts_star in Hk3. by destruct k.
Qed.

(** Behind the last entry the flash is erased. *)
Lemma area_end m s L : 0 <= s -> area m s L -> is_valid m (ent s (zlen L)) = false.
Proof.
  intros Hs [Hk He Hv Hf Hr]. pose proof (zlen_nonneg L). unfold is_valid, e_offset, get32, ent, sizeof_header, sizeof_entry in *.
  erewrite (mread_sub_ff m _ _ (s + 24 + 24 * zlen L + 16) 4); [done|..|exact Hf]; lia.
Qed.

(** ** Mounting *)

(** The cache describes the area at [s], which holds the log [L]. *)
Record mounted (st : fstor) (s : Z) L : Prop := {
  mo_settings : settings st = Some s;
  mo_pages : header_pages st = compute_header_pages;
  mo_area : area (fs_mem st) s L;
  mo_last : last_entry st = ent s (zlen L) - sizeof_entry;
  mo_start : data_start st = ds s L;
}.

Lemma valid_loop_area m s L : 0 <= s -> s + hsize < 2 ^ 31 -> area m s L -> forall n j fuel,
  (j + n = length L)%nat -> (n < fuel)%nat ->
  valid_loop fuel m (ent s (Z.of_nat j)) (ds s (take j L)) = Ret (Some (ent s (zlen L), ds s L)).
Proof.
  intros Hs Hsz Ha. pose proof Ha as [Hk _ _ _ Hroom].
  induction n as [|n IH]; intros j fuel Hj Hfuel; (destruct fuel as [|fuel]; [lia|]); cbn [valid_loop].
  - replace j with (length L) by lia. fold (zlen L). by rewrite (area_end m s L Hs Ha), take_ge by lia.
  - destruct (L !! j) as [[k v]|] eqn:Hi; [|apply lookup_ge_None in Hi; lia].
    destruct (area_fields m s L j k v Hs Hsz Ha Hi) as (_ & E2 & _ & E4 & _). rewrite E4, E2. cbv zeta.
    destruct (value_range s L j k v Hk Hi) as [Hlo _].
    assert (ds s (take (S j) L) < ds s (take j L)) as Hlt.
    { unfold ds. rewrite (take_S_r _ _ _ Hi), vals_size_app. cbn [vals_size snd].
      destruct (Forall_lookup_1 _ _ _ _ Hk Hi) as (_ & _ & _ & Hv). cbn [snd] in Hv.
      pose proof (align8 (zlen v) ltac:(pose proof (zlen_nonneg v); lia)). lia. }
    rewrite (proj2 (Z.ltb_lt _ _)) by lia. pose proof (lookup_zlen _ _ _ Hi).
    unfold ent, sizeof_entry, sizeof_header in *. rewrite Z.gtb_ltb, (proj2 (Z.ltb_ge _ _)) by lia.
    replace (s + 24 + 24 * Z.of_nat j + 24) with (s + 24 + 24 * Z.of_nat (S j)) by lia. apply IH; lia.
Qed.

Lemma entries_from_all st s L : last_entry st = ent s (zlen L) - sizeof_entry ->
  entries_from st (s + sizeof_header) = length L.
Proof.
  intros E. unfold entries_from. rewrite E. unfold ent, sizeof_entry.
  replace ((s + sizeof_header + 24 * zlen L - 24 - (s + sizeof_header)) / 24) with (zlen L - 1) by word_lia.
  unfold zlen. lia.
Qed.

Lemma mark_loop_small st s L : 0 <= s -> s + hsize < 2 ^ 31 -> area (fs_mem st) s L -> forall n j,
  (j + n = length L)%nat -> mark_loop n st (ent s (Z.of_nat j)) = Ret st.
Proof.
  intros Hs Hsz Ha. induction n as [|n IH]; intros j Hj; cbn [mark_loop]; [done|].
  destruct (L !! j) as [[k v]|] eqn:Hi; [|apply lookup_ge_None in Hi; lia].
  destruct (area_fields _ s L j k v Hs Hsz Ha Hi) as (_ & _ & _ & _ & ->). cbn [andb]. obind.
  replace (ent s (Z.of_nat j) + sizeof_entry) with (ent s (Z.of_nat (S j))) by (unfold ent, sizeof_entry; lia).
  apply IH. lia.
Qed.

Lemma recompute_mounted st s L :
  fstor_geometry -> 0 <= s -> s + hsize < 2 ^ 31 -> s + hsize <= zlen (fs_mem st) ->
  settings st = Some s -> header_pages st = compute_header_pages -> area (fs_mem st) s L ->
  exists st', recompute_cache st = Ret st' /\ mounted st' s L /\ fs_mem st' = fs_mem st.
Proof.
  intros Hg Hs Hsz Hlen Hset Hpg Ha. pose proof Ha as [Hk _ _ Hff Hroom]. unfold recompute_cache. rewrite Hset.
  assert (FSTOR_HEADER_SIZE st = hsize) as HHS by (unfold FSTOR_HEADER_SIZE, hsize; by rewrite Hpg).
  pose proof (vals_size_nonneg L Hk). pose proof (zlen_nonneg L).
  pose proof (valid_loop_area _ s L Hs Hsz Ha (length L) 0 (Z.to_nat hsize)) as Hvl.
  rewrite take_0 in Hvl. unfold ds at 1 in Hvl. cbn [vals_size] in Hvl. rewrite Z.sub_0_r in Hvl.
  replace (ent s (Z.of_nat 0)) with (s + sizeof_header) in Hvl by (unfold ent; lia).
  rewrite HHS, Hvl; [|lia|unfold ent, ds, sizeof_header, sizeof_entry, zlen in *; lia]. obind.
  rewrite all_ff_spec; cbn [fs_mem fs_set_ends negb];
    [|unfold ent, sizeof_header, sizeof_entry; lia|unfold ds; lia|exact Hff].
  assert (FSTOR_DATA_PAGES (fs_set_ends st (ent s (zlen L) - sizeof_entry) (ds s L)) <= JD_FSTOR_MAX_DATA_PAGES) as Hmax.
  { unfold FSTOR_DATA_PAGES, FSTOR_DATA_PAGE_OFF. cbn [header_pages fs_set_ends]. rewrite Hpg. apply (g_max Hg). }
  rewrite (proj2 (Z.leb_le _ _) Hmax). set (st1 := fs_set_used _ _).
  rewrite (entries_from_all st1 s L) by done.
  pose proof (mark_loop_small st1 s L Hs Hsz Ha (length L) 0 ltac:(lia)) as Hml.
  replace (ent s (Z.of_nat 0)) with (s + sizeof_header) in Hml by (unfold ent; lia). rewrite Hml.
  exists st1. split; [done|]. split; [by constructor|done].
Qed.

(** ** Headers *)

Lemma erase_pages_ff m base num : fstor_geometry -> 0 <= base -> base mod JD_FLASH_PAGE_SIZE = 0 -> 0 <= num ->
  base + num * JD_FLASH_PAGE_SIZE <= zlen m ->
  erase_pages m base num = mwrite m base (replicate (Z.to_nat (num * JD_FLASH_PAGE_SIZE)) 0xff).
Proof.
  intros Hg Hb Hmod Hn Hl. pose proof (g_page Hg) as HP. unfold erase_pages.
  replace num with (Z.of_nat (Z.to_nat num)) in * by lia. rewrite Nat2Z.id. generalize dependent (Z.to_nat num).
  intros n Hn Hl. clear Hn. induction n as [|n IH].
  - unfold mwrite. simpl. rewrite Nat.add_0_r. by rewrite take_drop.
  - rewrite seq_S, fold_left_app, IH by lia. cbn [fold_left Nat.add]. rewrite Nat2Z.inj_succ in Hl.
    assert (zlen (replicate (Z.to_nat (Z.of_nat n * JD_FLASH_PAGE_SIZE)) 0xff) = Z.of_nat n * JD_FLASH_PAGE_SIZE) as Hrl
      by (unfold zlen; rewrite length_replicate; lia).
    rewrite flash_erase_page; [| |rewrite Z.mod_add by lia; done|rewrite zlen_mwrite; lia]; [|lia].
    rewrite <- Hrl at 2. rewrite mwrite_app; [|lia|].
    + f_equal. rewrite <- replicate_add. f_equal. lia.
    + rewrite Hrl. unfold zlen at 1. rewrite length_replicate. lia.
Qed.

Definition valid_hdr (m : list Z) (s : Z) : bool :=
  (get32 m s =? FSTOR_MAGIC0) && (get32 m (s + 4) =? FSTOR_MAGIC1) &&
  (get32 m (s + 12) =? JD_FLASH_PAGE_SIZE) && (get16 m (s + 16) =? FSTOR_PAGES) &&
  (get16 m (s + 18) =? compute_header_pages).

Lemma valid_hdr_is st s : header_pages st = compute_header_pages -> is_valid_header st s = valid_hdr (fs_mem st) s.
Proof. intros E. unfold is_valid_header. by rewrite E. Qed.

Definition hdr_bytes (gen : Z) : list Z :=
  le_bytes 4 FSTOR_MAGIC0 ++ le_bytes 4 FSTOR_MAGIC1 ++ le_bytes 4 gen ++ le_bytes 4 JD_FLASH_PAGE_SIZE ++
  le_bytes 2 FSTOR_PAGES ++ le_bytes 2 compute_header_pages ++ le_bytes 4 0.

Lemma zlen_hdr_bytes gen : zlen (hdr_bytes gen) = 24.
Proof. done. Qed.

Lemma hdr_bytes_bytes gen : Forall is_byte (hdr_bytes gen).
Proof. unfold hdr_bytes. rewrite !Forall_app. split_and!; auto with jd. Qed.

Lemma hdr_valid m s gen : fstor_geometry -> 0 <= s -> 0 <= gen < 2 ^ 32 -> mread m s 24 = hdr_bytes gen ->
  valid_hdr m s = true /\ generation m s = gen.
Proof.
  intros Hg Hs Hgen E. pose proof (g_page Hg). pose proof (g_pages Hg). pose proof (g_total Hg). pose proof (g_hp Hg).
  assert (forall o n, 0 <= o -> 0 <= n -> o + n <= 24 -> mread m (s + o) n = mread (hdr_bytes gen) o n) as Hr.
  { intros o n ???. rewrite <- E, mread_mread by lia. done. }
  unfold valid_hdr, generation, get32, get16. rewrite <- (Z.add_0_r s) at 1. rewrite !Hr by lia.
  change (mread (hdr_bytes gen) 0 4) with (le_bytes 4 FSTOR_MAGIC0).
  change (mread (hdr_bytes gen) 4 4) with (le_bytes 4 FSTOR_MAGIC1).
  change (mread (hdr_bytes gen) 8 4) with (le_bytes 4 gen).
  change (mread (hdr_bytes gen) 12 4) with (le_bytes 4 JD_FLASH_PAGE_SIZE).
  change (mread (hdr_bytes gen) 16 2) with (le_bytes 2 FSTOR_PAGES).
  change (mread (hdr_bytes gen) 18 2) with (le_bytes 2 compute_header_pages).
  rewrite !le_val_le_bytes. change (256 ^ Z.of_nat 4) with (2 ^ 32). change (256 ^ Z.of_nat 2) with 65536.
  assert (JD_FLASH_PAGE_SIZE < 2 ^ 31) by (unfold hsize in *; nia).
  rewrite !(Z.mod_small JD_FLASH_PAGE_SIZE), !(Z.mod_small FSTOR_PAGES), !(Z.mod_small compute_header_pages),
    !(Z.mod_small gen) by lia. rewrite !Z.eqb_refl. done.
Qed.

Lemma valid_hdr_same m m' s : 0 <= s -> same_on m m' s (s + 24) ->
  valid_hdr m' s = valid_hdr m s /\ generation m' s = generation m s.
Proof. intros Hs Hsame. unfold valid_hdr, generation, get32, get16. by rewrite !Hsame by lia. Qed.

(** The flash holds the log [L] in the area at [s], of generation [g]; the
    other area, if it has a header, is older. *)
Record stored (m : list Z) (s g : Z) L : Prop := {
  sd_len : zlen m = JD_FSTOR_TOTAL_SIZE;
  sd_where : s = 0 \/ s = hsize;
  sd_gen : 0 <= g < 2 ^ 32;
  sd_header : mread m s 24 = hdr_bytes g;
  sd_older : valid_hdr m (hsize - s) = true -> generation m (hsize - s) < g;
  sd_area : area m s L;
}.

Lemma stored_bounds m s g L : fstor_geometry -> stored m s g L ->
  0 <= s /\ s + hsize < 2 ^ 31 /\ s + hsize <= zlen m /\ 256 <= hsize.
Proof. intros [] [? [-> | ->] _ _ _ _]; lia. Qed.

(** Mounting finds what is stored. *)
Lemma init_stored st s g L :
  fstor_geometry -> stored (fs_mem st) s g L -> settings st = None ->
  exists st', jd_fstor_init st = Ret st' /\ mounted st' s L /\ fs_mem st' = fs_mem st.
Proof.
  intros Hg Hsd Hset. destruct (stored_bounds _ _ _ _ Hg Hsd) as (B1 & B2 & B3 & B4). pose proof Hsd as [Hl Hw Hge Hh Hold Ha].
  unfold jd_fstor_init. rewrite Hset. set (st1 := fs_set_header_pages st compute_header_pages).
  assert (pick_area st1 = Some s) as ->.
  { unfold pick_area. rewrite !(valid_hdr_is st1) by done. cbn [fs_mem st1 fs_set_header_pages].
    assert (FSTOR_HEADER_SIZE st1 = hsize) as -> by done.
    destruct (hdr_valid _ s g Hg B1 Hge Hh) as [Hv Hgn]. destruct Hw as [-> | ->].
    - rewrite Hv. rewrite Z.sub_0_r in Hold. destruct (valid_hdr _ hsize); [|done].
      rewrite Hgn, Z.gtb_ltb, (proj2 (Z.ltb_lt _ _)); [done|by apply Hold].
    - rewrite Hv, Hgn. rewrite Z.sub_diag in Hold. destruct (valid_hdr _ 0); [|done].
      rewrite Z.gtb_ltb, (proj2 (Z.ltb_ge _ _)); [done|]. specialize (Hold eq_refl). lia. }
  cbn [settings fs_set_settings].
  destruct (recompute_mounted (fs_set_settings st1 (Some s)) s L Hg B1 B2 B3 eq_refl eq_refl Ha) as (st' & -> & Hm & Hmem).
  obind. rewrite (mo_settings _ _ _ Hm). by exists st'.
Qed.

(** An erased area holds the empty log. *)
Lemma area_erased m alt : 256 <= hsize -> 0 <= alt -> mread m alt hsize = replicate (Z.to_nat hsize) 0xff -> area m alt [].
Proof.
  intros Hs Ha Hff. constructor; [done|by intros ? ? ? ?|by intros ? ? ? ?| |];
    unfold ent, ds, sizeof_header, sizeof_entry, zlen; cbn [length vals_size]; [|lia].
  eapply mread_sub_ff, Hff; lia.
Qed.

(** Flash without a header is formatted. *)
Lemma init_format st :
  fstor_geometry -> zlen (fs_mem st) = JD_FSTOR_TOTAL_SIZE -> settings st = None ->
  valid_hdr (fs_mem st) 0 = false -> valid_hdr (fs_mem st) hsize = false ->
  exists st', jd_fstor_init st = Ret st' /\ mounted st' 0 [] /\ stored (fs_mem st') 0 1 [].
Proof.
  intros Hg Hl Hset Hv0 Hv1. pose proof (g_total Hg) as Ht. pose proof (g_size Hg) as Hs256. pose proof (g_hp Hg). pose proof (g_page Hg).
  unfold jd_fstor_init. rewrite Hset. set (st1 := fs_set_header_pages st compute_header_pages).
  assert (pick_area st1 = None) as ->.
  { unfold pick_area. rewrite !(valid_hdr_is st1) by done. cbn [fs_mem st1 fs_set_header_pages].
    assert (FSTOR_HEADER_SIZE st1 = hsize) as -> by done. by rewrite Hv0, Hv1. }
  cbn [settings fs_set_settings]. obind.
  set (m1 := erase_pages _ 0 _).
  assert (m1 = mwrite (fs_mem st) 0 (replicate (Z.to_nat hsize) 0xff)) as Hm1.
  { unfold m1. cbn [fs_mem header_pages fs_set_settings st1 fs_set_header_pages].
    apply erase_pages_ff; try done; fold hsize; lia. }
  set (st2 := write_header _ 1).
  assert (zlen (replicate (Z.to_nat hsize) 0xff) = hsize) as Hrl by (unfold zlen; rewrite length_replicate; lia).
  assert (zlen m1 = zlen (fs_mem st)) as Hlm by (rewrite Hm1, zlen_mwrite; lia).
  assert (mread m1 0 hsize = replicate (Z.to_nat hsize) 0xff) as Hff.
  { rewrite Hm1. apply mread_mwrite_n; [by rewrite Hrl|]. unfold zlen in *. lia. }
  assert (fs_mem st2 = mwrite m1 0 (hdr_bytes 1)) as Hm2.
  { unfold st2, write_header. cbn [settings fs_set_mem fs_set_settings fs_mem].
    change (header_bytes _ 1) with (hdr_bytes 1). apply flash_program_erased; rewrite ?zlen_hdr_bytes; [apply hdr_bytes_bytes|lia|lia|].
    rewrite (mread_sub_ff m1 0 hsize 0 24) by (done || lia). done. }
  assert (same_on m1 (fs_mem st2) 24 (zlen m1)) as Hsame.
  { rewrite Hm2. apply same_on_mwrite; rewrite ?zlen_hdr_bytes; lia. }
  assert (area (fs_mem st2) 0 []) as Ha.
  { eapply area_frame; [apply (area_erased m1 0); [lia|lia|exact Hff]|].
    eapply same_on_sub; [exact Hsame|unfold sizeof_header; lia|lia]. }
  destruct (recompute_mounted st2 0 []) as (st' & -> & Hm & Hmem); try done; try lia.
  { rewrite Hm2, zlen_mwrite by (rewrite ?zlen_hdr_bytes; lia). lia. }
  obind. rewrite (mo_settings _ _ _ Hm). exists st'. split; [done|]. split; [done|].
  rewrite Hmem. constructor; [rewrite Hm2, zlen_mwrite by (rewrite ?zlen_hdr_bytes; lia); lia|by left|lia| | |done].
  - rewrite Hm2. apply mread_mwrite_n; [done|]. unfold zlen in *. simpl. lia.
  - rewrite Z.sub_0_r. destruct (valid_hdr_same (fs_mem st) (fs_mem st2) hsize) as [-> _]; [lia| |by rewrite Hv1].
    apply (same_on_trans _ m1); [rewrite Hm1; apply same_on_mwrite; lia|]. eapply same_on_sub; [exact Hsame|lia|lia].
Qed.

(** ** Garbage collection keeps the live entries *)

(** The entries without a later one of the same key. *)
Fixpoint live L : list (list Z * list Z) :=
  match L with
  | [] => []
  | x :: L => if decide (x.1 ∈ L.*1) then live L else x :: live L
  end.

Lemma live_bounds L : Forall kv_ok L ->
  Forall kv_ok (live L) /\ zlen (live L) <= zlen L /\ vals_size (live L) <= vals_size L.
Proof.
  induction 1 as [|x L Hx _ (IH1 & IH2 & IH3)]; [done|]. cbn [live vals_size].
  assert (zlen (x :: L) = 1 + zlen L) as -> by (unfold zlen; simpl; lia).
  destruct Hx as (? & ? & ? & Hv). pose proof (align8 (zlen x.2) ltac:(pose proof (zlen_nonneg x.2); lia)).
  case_decide; [split_and!; [done|lia|lia]|]. cbn [vals_size].
  assert (zlen (x :: live L) = 1 + zlen (live L)) as -> by (unfold zlen; simpl; lia).
  split_and!; [by constructor|lia|lia].
Qed.

Lemma later_loop_area m s L key : 0 <= s -> s + hsize < 2 ^ 31 -> area m s L -> forall n j,
  (j + n = length L)%nat -> later_loop n m key (ent s (Z.of_nat j)) = bool_decide (key ∈ (drop j L).*1).
Proof.
  intros Hs Hsz Ha. induction n as [|n IH]; intros j Hj; cbn [later_loop].
  - rewrite drop_ge by lia. cbn [fmap list_fmap]. symmetry. apply bool_decide_eq_false, not_elem_of_nil.
  - destruct (L !! j) as [[k v]|] eqn:Hi; [|apply lookup_ge_None in Hi; lia].
    destruct (area_fields m s L j k v Hs Hsz Ha Hi) as (-> & _).
    replace (ent s (Z.of_nat j) + sizeof_entry) with (ent s (Z.of_nat (S j))) by (unfold ent, sizeof_entry; lia).
    rewrite IH, (drop_S _ _ _ Hi) by lia. cbn [fmap list_fmap fst].
    destruct (bool_decide_reflect (k = key)) as [->|Hne]; cbn [orb].
    + symmetry. apply bool_decide_eq_true. by left.
    + apply bool_decide_ext. rewrite elem_of_cons. naive_solver.
Qed.

Lemma has_later_area st s L i k v : 0 <= s -> s + hsize < 2 ^ 31 -> area (fs_mem st) s L ->
  last_entry st = ent s (zlen L) - sizeof_entry -> L !! i = Some (k, v) ->
  has_later_copy st (ent s (Z.of_nat i)) = bool_decide (k ∈ (drop (S i) L).*1).
Proof.
  intros Hs Hsz Ha Hlast Hi. unfold has_later_copy. destruct (area_fields _ s L i k v Hs Hsz Ha Hi) as (-> & _).
  pose proof (lookup_lt_Some _ _ _ Hi).
  replace (ent s (Z.of_nat i) + sizeof_entry) with (ent s (Z.of_nat (S i))) by (unfold ent, sizeof_entry; lia).
  assert (entries_from st (ent s (Z.of_nat (S i))) = (length L - S i)%nat) as ->.
  { unfold entries_from. rewrite Hlast. unfold ent, sizeof_entry.
    replace ((s + sizeof_header + 24 * zlen L - 24 - (s + sizeof_header + 24 * Z.of_nat (S i))) / 24)
      with (zlen L - 1 - Z.of_nat (S i)) by word_lia. unfold zlen. lia. }
  apply later_loop_area; done || lia.
Qed.

Lemma entry_bytes_moved k off size off' : zlen k <= 15 ->
  mwrite (entry_bytes k off size) 16 (le_bytes 4 off') = entry_bytes k off' size.
Proof.
  intros Hk. assert (length (mwrite (replicate 16 0) 0 k) = 16%nat) as Hp
    by (rewrite length_mwrite; unfold zlen in *; rewrite ?length_replicate; lia).
  unfold entry_bytes. unfold mwrite at 1. rewrite take_app_length' by (rewrite Hp; done).
  f_equal. f_equal. rewrite length_le_bytes, app_assoc, drop_app_length'; [done|].
  rewrite length_app, length_le_bytes, Hp. done.
Qed.

Lemma gc_loop_area s alt L : fstor_geometry -> (s = 0 /\ alt = hsize \/ s = hsize /\ alt = 0) -> forall n j st K,
  (j + n = length L)%nat -> zlen (fs_mem st) = JD_FSTOR_TOTAL_SIZE ->
  area (fs_mem st) s L -> area (fs_mem st) alt K -> last_entry st = ent s (zlen L) - sizeof_entry ->
  24 * zlen K + vals_size K <= 24 * Z.of_nat j + vals_size (take j L) ->
  let st' := gc_loop n st (ent s (Z.of_nat j)) (ent alt (zlen K)) (ds alt K) in
  area (fs_mem st') alt (K ++ live (drop j L)) /\ same_on (fs_mem st) (fs_mem st') s (s + hsize) /\
  same_on (fs_mem st) (fs_mem st') alt (alt + sizeof_header) /\ zlen (fs_mem st') = zlen (fs_mem st) /\
  st' = fs_set_mem st (fs_mem st').
Proof.
  intros Hg Hsa. pose proof (g_total Hg) as Ht. pose proof (g_size Hg).
  assert (0 <= s /\ s + hsize < 2 ^ 31 /\ 0 <= alt /\ alt + hsize <= JD_FSTOR_TOTAL_SIZE) as (B1 & B2 & B3 & B4) by lia.
  induction n as [|n IH]; intros j st K Hj Hlen Ha HaK Hlast Hroom; cbn [gc_loop].
  { rewrite drop_ge, app_nil_r by lia. split_and!; try done. by destruct st. }
  destruct (L !! j) as [[k v]|] eqn:Hi; [|apply lookup_ge_None in Hi; lia].
  pose proof Ha as [Hk He Hv _ Hr]. rewrite (has_later_area st s L j k v) by done.
  replace (ent s (Z.of_nat j) + sizeof_entry) with (ent s (Z.of_nat (S j))) by (unfold ent, sizeof_entry; lia).
  assert (vals_size (take (S j) L) = vals_size (take j L) + align (zlen v)) as Hvs
    by (rewrite (take_S_r _ _ _ Hi), vals_size_app; cbn [vals_size snd]; lia).
  pose proof (Forall_lookup_1 _ _ _ _ Hk Hi) as Hkv. pose proof Hkv as (Hk1 & _ & _ & Hv1). cbn [fst snd] in Hk1, Hv1.
  pose proof (align8 (zlen v) ltac:(pose proof (zlen_nonneg v); lia)) as [Hal Hal8].
  rewrite (drop_S _ _ _ Hi). cbn [live fst]. case_bool_decide as Hlater.
  { rewrite decide_True by done. apply IH; try done; lia. }
  rewrite decide_False by done.
  destruct (area_fields _ s L j k v B1 B2 Ha Hi) as (_ & E2 & E3 & _ & E5). rewrite E5, E2, E3. cbn [negb]. cbv zeta.
  unfold FSTOR_KEYSIZE in Hk1. rewrite (He j k v Hi), (Hv j k v Hi), entry_bytes_moved by done.
  assert (ds alt K - align (zlen v) = ds alt (K ++ [(k, v)])) as ->
    by (unfold ds; rewrite vals_size_app; cbn [vals_size snd]; lia).
  pose proof (vals_size_take (S j) L Hk). pose proof (lookup_zlen _ _ _ Hi).
  destruct (area_append (fs_mem st) alt K k v) as (Ha2 & Hl2 & _ & _ & S1 & S2); try done; try lia.
  { unfold ent, ds, sizeof_header, sizeof_entry in *. rewrite vals_size_app. cbn [vals_size snd]. lia. }
  set (m2 := flash_program (flash_program _ _ v) _ _) in *.
  assert (same_on (fs_mem st) m2 s (s + hsize)) as Hsame.
  { destruct Hsa as [[-> ->]|[-> ->]]; [eapply same_on_sub; [exact S1|..]|eapply same_on_sub; [exact S2|..]];
      unfold sizeof_header in *; lia. }
  replace (ent alt (zlen K) + sizeof_entry) with (ent alt (zlen (K ++ [(k, v)])))
    by (rewrite zlen_app; unfold ent, sizeof_entry; change (zlen [_]) with 1; lia).
  destruct (IH (S j) (fs_set_mem st m2) (K ++ [(k, v)])) as (R1 & R2 & R3 & R4 & R5); cbn [fs_mem fs_set_mem]; try done; try lia.
  { eapply area_frame; [exact Ha|]. eapply same_on_sub; [exact Hsame|unfold sizeof_header; lia|lia]. }
  { rewrite zlen_app, vals_size_app, Hvs. cbn [vals_size snd]. change (zlen [_]) with 1. lia. }
  cbn [fs_mem fs_set_mem] in *. rewrite <- app_assoc in R1. split_and!.
  - exact R1.
  - by apply (same_on_trans _ m2).
  - apply (same_on_trans _ m2); [|done]. eapply same_on_sub; [exact S1|lia|lia].
  - lia.
  - rewrite R5 at 1. done.
Qed.

Lemma erased_area m alt : fstor_geometry -> alt = 0 \/ alt = hsize -> zlen m = JD_FSTOR_TOTAL_SIZE ->
  let m1 := erase_pages m alt compute_header_pages in
  zlen m1 = zlen m /\ mread m1 alt hsize = replicate (Z.to_nat hsize) 0xff /\
  same_on m m1 (hsize - alt) (hsize - alt + hsize).
Proof.
  intros Hg Halt Hl m1. pose proof (g_total Hg) as Ht. pose proof (g_hp Hg). pose proof (g_page Hg). pose proof (g_size Hg).
  assert (zlen (replicate (Z.to_nat hsize) 0xff) = hsize) as Hrl by (unfold zlen; rewrite length_replicate; lia).
  assert (m1 = mwrite m alt (replicate (Z.to_nat hsize) 0xff)) as ->.
  { apply erase_pages_ff; try done; fold hsize; try lia.
    destruct Halt as [-> | ->]; [done|]. unfold hsize. by rewrite Z.mod_mul by lia. }
  split_and!; [rewrite zlen_mwrite; lia|apply mread_mwrite_n; [by rewrite Hrl|unfold zlen in *; lia]|].
  apply same_on_mwrite; lia.
Qed.

Lemma gc_spec st s g L :
  fstor_geometry -> mounted st s L -> stored (fs_mem st) s g L -> g + 1 < 2 ^ 32 ->
  exists st', jd_fstor_gc st = Ret st' /\ mounted st' (hsize - s) (live L) /\
    stored (fs_mem st') (hsize - s) (g + 1) (live L).
Proof.
  intros Hg [Mset Mpg Ma Mlast Mstart] Hsd Hg1. destruct (stored_bounds _ _ _ _ Hg Hsd) as (B1 & B2 & B3 & B4).
  destruct Hsd as [Hl Hw Hge Hh _ _]. pose proof (g_total Hg) as Ht. unfold jd_fstor_gc. rewrite Mset.
  assert (FSTOR_HEADER_SIZE st = hsize) as HHS by (unfold FSTOR_HEADER_SIZE, hsize; by rewrite Mpg).
  set (alt := if 0 =? s then FSTOR_HEADER_SIZE st else 0).
  assert (alt = hsize - s) as Halt.
  { unfold alt. rewrite HHS. destruct Hw as [-> | ->]; [cbn; lia|]. rewrite (proj2 (Z.eqb_neq _ _)) by lia. lia. }
  rewrite Mpg, Halt.
  assert (hsize - s = 0 \/ hsize - s = hsize) as Hac by lia.
  destruct (erased_area (fs_mem st) (hsize - s) Hg Hac Hl) as (L1 & Hff & S1).
  replace (hsize - (hsize - s)) with s in S1 by lia.
  set (st1 := fs_set_mem st (erase_pages _ _ _)). assert (FSTOR_HEADER_SIZE st1 = hsize) as -> by exact HHS.
  rewrite (entries_from_all st1 s L) by done.
  assert (area (fs_mem st1) s L) as Ha1
    by (eapply area_frame; [exact Ma|eapply same_on_sub; [exact S1|unfold sizeof_header; lia|lia]]).
  destruct (gc_loop_area s (hsize - s) L Hg ltac:(lia) (length L) 0 st1 []) as (R1 & R2 & R3 & R4 & R5); try done; try lia.
  { cbn [fs_mem st1 fs_set_mem]. lia. }
  { apply area_erased; [lia|lia|exact Hff]. }
  rewrite drop_0 in R1. cbn [app] in R1.
  replace (ent s (Z.of_nat 0)) with (s + sizeof_header) in * by (unfold ent; lia).
  replace (ent (hsize - s) (zlen [])) with (hsize - s + sizeof_header) in * by (unfold ent; change (zlen []) with 0; lia).
  replace (ds (hsize - s) []) with (hsize - s + hsize) in * by (unfold ds; cbn [vals_size]; lia).
  set (st2 := gc_loop _ st1 _ _ _) in *. clearbody st2. cbn [fs_mem st1 fs_set_mem] in R2, R3, R4, Ha1.
  assert (mread (fs_mem st2) s 24 = hdr_bytes g) as Hh2 by (rewrite R2, S1 by lia; done).
  assert (generation (fs_mem st2) s = g) as -> by (by apply (hdr_valid _ s g)). rewrite u32_small by lia.
  set (st3 := write_header (fs_set_settings st2 (Some (hsize - s))) (g + 1)).
  assert (fs_mem st3 = mwrite (fs_mem st2) (hsize - s) (hdr_bytes (g + 1))) as Hm3.
  { unfold st3, write_header. cbn [settings fs_set_settings fs_mem fs_set_mem].
    replace (header_bytes _ (g + 1)) with (hdr_bytes (g + 1)) by (unfold header_bytes; rewrite R5; cbn; by rewrite Mpg).
    apply flash_program_erased; rewrite ?zlen_hdr_bytes; [apply hdr_bytes_bytes|lia|lia|].
    unfold sizeof_header in R3. rewrite R3 by lia. rewrite (mread_sub_ff _ (hsize - s) hsize (hsize - s) 24); [done|lia..|exact Hff]. }
  assert (zlen (fs_mem st3) = JD_FSTOR_TOTAL_SIZE) as L3 by (rewrite Hm3, zlen_mwrite by (rewrite ?zlen_hdr_bytes; lia); lia).
  assert (area (fs_mem st3) (hsize - s) (live L)) as Ha3.
  { eapply area_frame; [exact R1|]. rewrite Hm3. apply same_on_mwrite; rewrite ?zlen_hdr_bytes; unfold sizeof_header; lia. }
  destruct (recompute_mounted st3 (hsize - s) (live L)) as (st' & -> & Hm & Hmem); try done; try lia.
  { unfold st3, write_header. cbn. rewrite R5. cbn. exact Mpg. }
  obind. rewrite (mo_settings _ _ _ Hm). exists st'. split; [done|]. split; [done|]. rewrite Hmem.
  constructor; [done|lia|lia| | |done].
  - rewrite Hm3. apply mread_mwrite_n; [done|]. rewrite (zlen_hdr_bytes (g + 1)) || idtac. unfold zlen in *. simpl. lia.
  - replace (hsize - (hsize - s)) with s by lia. intros _.
    destruct (valid_hdr_same (fs_mem st2) (fs_mem st3) s) as [_ ->]; [lia| |].
    + rewrite Hm3. apply same_on_mwrite; rewrite ?zlen_hdr_bytes; lia.
    + destruct (hdr_valid _ s g Hg B1 Hge Hh2) as [_ ->]. lia.
Qed.

(** ** The map of settings *)

(** The last entry of a key counts. *)
Definition amap L : gmap (list Z) (list Z) := list_to_map (reverse L).

Lemma amap_snoc L k v : amap (L ++ [(k, v)]) = <[k := v]> (amap L).
Proof. unfold amap. by rewrite reverse_snoc. Qed.

Lemma amap_cons x L : amap (x :: L) = amap L ∪ {[x.1 := x.2]}.
Proof. unfold amap. rewrite reverse_cons, list_to_map_app. by destruct x. Qed.

Lemma amap_None L k : amap L !! k = None <-> k ∉ L.*1.
Proof.
  unfold amap. rewrite <- not_elem_of_list_to_map, fmap_reverse. by rewrite elem_of_reverse.
Qed.

Lemma amap_live L : amap (live L) = amap L.
Proof.
  induction L as [|x L IH]; [done|]. cbn [live]. case_decide as Hin.
  - rewrite IH, amap_cons. destruct (amap L !! x.1) as [v|] eqn:E; [|by apply amap_None in E].
    by rewrite (union_singleton_r _ _ v).
  - by rewrite !amap_cons, IH.
Qed.

(** The space that the settings of a map take in an area. *)
Definition map_space (M : gmap (list Z) (list Z)) : Z := map_fold (fun _ v n => 24 + align (zlen v) + n) 0 M.
Definition log_space L : Z := 24 * zlen L + vals_size L.

Lemma live_NoDup L : NoDup (live L).*1 /\ forall k, k ∈ (live L).*1 <-> k ∈ L.*1.
Proof.
  induction L as [|x L [IH1 IH2]]; [by split; [constructor|]|]. cbn [live]. case_decide as Hin.
  - split; [done|]. intros k. rewrite IH2. cbn. rewrite elem_of_cons. naive_solver.
  - cbn. split; [constructor; [by rewrite IH2|done]|]. intros k. rewrite !elem_of_cons, IH2. done.
Qed.

Lemma map_space_amap L : NoDup L.*1 -> map_space (amap L) = log_space L.
Proof.
  induction L as [|x L IH]; [done|]. rewrite fmap_cons, NoDup_cons. intros [Hni Hnd].
  apply amap_None in Hni as E. rewrite amap_cons, <- insert_union_singleton_r by done.
  unfold map_space. rewrite map_fold_insert_L; [|intros; lia|done].
  fold (map_space (amap L)). rewrite IH by done. unfold log_space. cbn [vals_size].
  assert (zlen (x :: L) = 1 + zlen L) as -> by (unfold zlen; simpl; lia). lia.
Qed.

(** ** The calls *)

Lemma find_loop_area m s L key : 0 <= s -> s + hsize < 2 ^ 31 -> area m s L -> forall n, (n <= length L)%nat ->
  match find_loop n m key (ent s (Z.of_nat n) - sizeof_entry) with
  | None => amap (take n L) !! key = None
  | Some e => exists i v, L !! i = Some (key, v) /\ e = ent s (Z.of_nat i) /\ amap (take n L) !! key = Some v
  end.
Proof.
  intros Hs Hsz Ha. induction n as [|n IH]; intros Hn; cbn [find_loop]; [done|].
  destruct (L !! n) as [[k v]|] eqn:Hi; [|apply lookup_ge_None in Hi; lia].
  replace (ent s (Z.of_nat (S n)) - sizeof_entry) with (ent s (Z.of_nat n)) by (unfold ent, sizeof_entry; lia).
  destruct (area_fields m s L n k v Hs Hsz Ha Hi) as (-> & _).
  rewrite (take_S_r _ _ _ Hi), amap_snoc. case_bool_decide as Hk.
  - subst. exists n, v. split_and!; [done|done|]. by rewrite lookup_insert_eq.
  - specialize (IH ltac:(lia)). rewrite lookup_insert_ne by done. exact IH.
Qed.

(** The store holds the map [M] and has had at most [n] calls. *)
Definition fs_inv (n : Z) (st : fstor) (M : gmap (list Z) (list Z)) : Prop :=
  (header_pages st = 0 \/ header_pages st = compute_header_pages) /\
  ((exists s g L, stored (fs_mem st) s g L /\ g <= n + 1 /\ M = amap L /\ (settings st = None \/ mounted st s L)) \/
  (M = ∅ /\ zlen (fs_mem st) = JD_FSTOR_TOTAL_SIZE /\ settings st = None /\
   valid_hdr (fs_mem st) 0 = false /\ valid_hdr (fs_mem st) hsize = false)).

Lemma fs_inv_mono n n' st M : fs_inv n st M -> n <= n' -> fs_inv n' st M.
Proof.
  intros [Hp [(s & g & L & ? & ? & ? & ?)|?]] Hn; (split; [done|]); [left|by right].
  exists s, g, L. split_and!; try done; lia.
Qed.

Definition in_use (n : Z) (st : fstor) (s g : Z) L : Prop :=
  mounted st s L /\ stored (fs_mem st) s g L /\ g <= n + 1.

Lemma init_in_use n st M : fstor_geometry -> 0 <= n -> fs_inv n st M ->
  exists st' s g L, jd_fstor_init st = Ret st' /\ in_use n st' s g L /\ M = amap L.
Proof.
  intros Hg Hn [_ [(s & g & L & Hsd & Hgn & -> & [Hset|Hm])|(-> & Hl & Hset & Hv0 & Hv1)]].
  - destruct (init_stored st s g L Hg Hsd Hset) as (st' & E & Hm & Hmem).
    exists st', s, g, L. split; [done|]. split; [|done]. unfold in_use. by rewrite Hmem.
  - exists st, s, g, L. unfold jd_fstor_init. rewrite (mo_settings _ _ _ Hm). split; [done|]. split; [by split|done].
  - destruct (init_format st Hg Hl Hset Hv0 Hv1) as (st' & E & Hm & Hsd).
    exists st', 0, 1, []. split; [done|]. split; [|done]. split; [done|]. split; [done|lia].
Qed.

(** [find_entry] looks the key up. *)
Lemma find_entry_spec n st M key : fstor_geometry -> 0 <= n -> fs_inv n st M ->
  exists e st' s g L, find_entry st key = Ret (e, st') /\ in_use n st' s g L /\ M = amap L /\
    match e with
    | None => M !! key = None
    | Some e => exists v, M !! key = Some v /\ e_size (fs_mem st') e = zlen v /\
        mread (fs_mem st') (e_offset (fs_mem st') e) (zlen v) = v
    end.
Proof.
  intros Hg Hn Hi. destruct (init_in_use n st M Hg Hn Hi) as (st' & s & g & L & E & Hu & ->).
  pose proof Hu as [Hm [Hsd _]]. destruct (stored_bounds _ _ _ _ Hg Hsd) as (B1 & B2 & _).
  pose proof (mo_area _ _ _ Hm) as Ha. unfold find_entry. rewrite E. obind. rewrite (mo_settings _ _ _ Hm).
  rewrite (entries_from_all st' s L (mo_last _ _ _ Hm)), (mo_last _ _ _ Hm).
  eexists _, st', s, g, L. split; [done|]. split; [done|]. split; [done|].
  pose proof (find_loop_area _ s L key B1 B2 Ha (length L) (le_n _)) as Hf. rewrite take_ge in Hf by lia.
  fold (zlen L) in Hf. destruct (find_loop _ _ _ _) as [e|]; [|done].
  destruct Hf as (i & v & Hl & -> & Hv). exists v. split; [done|].
  destruct (area_fields _ s L i key v B1 B2 Ha Hl) as (_ & -> & -> & _). split; [done|]. by apply (ar_value _ _ _ Ha _ _ _ Hl).
Qed.

(** Appending an entry to a store with room. *)
Lemma append_in_use n st s g L k v : fstor_geometry -> in_use n st s g L -> kv_ok (k, v) ->
  align (zlen v) + sizeof_entry <= free_space st ->
  let d := data_start st - align (zlen v) in
  let last := last_entry st + sizeof_entry in
  let m := flash_program (flash_program (fs_mem st) d v) last (entry_bytes k d (zlen v)) in
  last + sizeof_entry <= d /\ in_use n (fs_set_ends (fs_set_mem st m) last d) s g (L ++ [(k, v)]).
Proof.
  intros Hg (Hm & Hsd & Hgn) Hkv Hfree d last m. pose proof Hm as [M1 M2 M3 M4 M5].
  destruct (stored_bounds _ _ _ _ Hg Hsd) as (B1 & B2 & B3 & B4). pose proof (g_total Hg).
  assert (d = ds s (L ++ [(k, v)])) as Hd by (unfold d, ds; rewrite M5, vals_size_app; unfold ds; cbn [vals_size snd]; lia).
  assert (last = ent s (zlen L)) as Hlast by (unfold last; rewrite M4; lia).
  pose proof (align8 (zlen v)) as Hal. destruct Hkv as (K1 & K2 & K3 & K4) eqn:Hkv0. clear Hkv0. cbn [fst snd] in K4.
  specialize (Hal ltac:(pose proof (zlen_nonneg v); lia)).
  assert (ent s (zlen L) + 2 * sizeof_entry <= ds s (L ++ [(k, v)])) as Hroom.
  { unfold free_space in Hfree. rewrite M4 in Hfree. fold d in Hd. unfold sizeof_entry in *.
    destruct (Z.ltb_spec (data_start st - (ent s (zlen L) - 24) - 24 * 2) 0); unfold d in Hd; lia. }
  destruct (area_append (fs_mem st) s L k v B1 B3 M3 ltac:(done) Hroom) as (A1 & A2 & _ & _ & A3 & A4).
  rewrite <- Hd, <- Hlast in A1, A2, A3, A4. fold m in A1, A2, A3, A4.
  split; [unfold sizeof_entry in *; lia|]. split; [|split; [|done]].
  - constructor; try done. cbn [last_entry fs_set_ends]. rewrite Hlast, zlen_app. unfold ent, sizeof_entry. change (zlen [_]) with 1. lia.
  - destruct Hsd as [S1 S2 S3 S4 S5 S6]. constructor; cbn [fs_mem fs_set_ends fs_set_mem]; try done; [lia| |].
    + rewrite A3 by (unfold sizeof_header; lia). done.
    + destruct (valid_hdr_same (fs_mem st) m (hsize - s)) as [-> ->]; [lia| |done].
      destruct S2 as [-> | ->]; [eapply same_on_sub; [exact A4|..]|eapply same_on_sub; [exact A3|..]]; unfold sizeof_header; lia.
Qed.

Lemma in_use_inv n n' st s g L : in_use n st s g L -> n <= n' -> fs_inv n' st (amap L).
Proof.
  intros (Hm & Hsd & Hgn) Hn. split; [right; apply Hm|]. left. exists s, g, L. split_and!; [done|lia|done|by right].
Qed.

(** What [jd_settings_set_bin] may do to the map. *)
Inductive set_result (M : gmap (list Z) (list Z)) : option (list Z) -> list Z -> Z -> gmap (list Z) (list Z) -> Prop :=
  | SetDone k v : key_ok (Some k) = true -> set_result M (Some k) v 0 (<[k := v]> M)
  | SetBadKey key v : key_ok key = false -> set_result M key v (-1) M
  | SetTooLong key v : hsize - 200 < zlen v -> set_result M key v (-2) M
  | SetFull key v : hsize < 72 + map_space M + align (zlen v) -> set_result M key v (-3) M.

Lemma key_ok_kv k v : key_ok (Some k) = true -> Forall (fun b => 0 < b < 256) k -> zlen v < 2 ^ 31 ->
  Forall is_byte v -> kv_ok (k, v).
Proof.
  intros Hk Hb Hv Hvb. unfold key_ok in Hk. rewrite Z.gtb_ltb in Hk. bool_to_prop. by split_and!.
Qed.

(** What is free in a store that holds [L]. *)
Lemma free_space_log n st s g L x : fstor_geometry -> in_use n st s g L -> 0 < x -> free_space st < x -> hsize < 48 + log_space L + x.
Proof.
  intros Hg ([_ _ _ M4 M5] & _ & _) Hx Hf. unfold free_space in Hf. rewrite M4, M5 in Hf. unfold ent, ds, log_space, sizeof_entry, sizeof_header in *.
  destruct (_ <? 0) eqn:E; bool_to_prop; lia.
Qed.

Lemma set_bin_spec n st M key val :
  fstor_geometry -> 0 <= n -> n + 2 < 2 ^ 32 -> fs_inv n st M -> zlen val < 2 ^ 31 ->
  Forall (fun b => 0 < b < 256) (default [] key) -> Forall is_byte val ->
  exists r st' M', jd_settings_set_bin st key val = Ret (r, st') /\ fs_inv (n + 1) st' M' /\ set_result M key val r M'.
Proof.
  intros Hg Hn Hn2 Hi Hval Hkb Hvb. unfold jd_settings_set_bin. cbv zeta.
  destruct (key_ok key) eqn:Hk; cbn [negb].
  2: { exists (-1), st, M. split; [done|]. split; [eapply fs_inv_mono; [done|lia]|by constructor]. }
  destruct key as [k|]; [|done]. cbn [default from_option id] in *.
  destruct (Z.gtb_spec (zlen val) (u32 (FSTOR_HEADER_SIZE st - 200))) as [Hlong|_].
  { exists (-2), st, M. split; [done|]. split; [eapply fs_inv_mono; [done|lia]|].
    apply SetTooLong. pose proof (g_size Hg). pose proof (g_total Hg). unfold FSTOR_HEADER_SIZE in Hlong.
      destruct Hi as [[Hp|Hp] _]; rewrite Hp in Hlong; [|fold hsize in Hlong; rewrite u32_small in Hlong by lia; lia].
      change (u32 (0 * JD_FLASH_PAGE_SIZE - 200)) with (2 ^ 32 - 200) in Hlong. lia. }
  destruct (find_entry_spec n st M k Hg Hn Hi) as (e & st1 & s & g & L & -> & Hu & -> & He). obind.
  pose proof (key_ok_kv k val Hk Hkb Hval Hvb) as Hkv.
  pose proof (align8 (zlen val) ltac:(pose proof (zlen_nonneg val); lia)) as [_ Hal8].
  destruct (match e with Some e => _ | None => false end) eqn:Hsame.
  { exists 0, st1, (<[k := val]> (amap L)). split; [done|]. split; [|by constructor].
    destruct e as [e|]; [|done]. destruct He as (v & Hv & Esz & Erd). apply andb_true_iff in Hsame as [Hs1 Hs2].
    apply Z.eqb_eq in Hs1. apply bool_decide_eq_true in Hs2. rewrite Esz in Hs1. rewrite <- Hs1, Erd in Hs2. subst v.
    rewrite insert_id by done. eapply in_use_inv; [done|lia]. }
  destruct (Z.ltb_spec (free_space st1) (align (zlen val) + sizeof_entry)) as [Hfull|Hroom].
  - pose proof Hu as (Hm & Hsd & Hgn). destruct (gc_spec st1 s g L Hg Hm Hsd ltac:(lia)) as (st2 & -> & Hm2 & Hsd2).
    obind. assert (in_use (n + 1) st2 (hsize - s) (g + 1) (live L)) as Hu2 by (split_and!; [done|done|lia]).
    destruct (Z.ltb_spec (free_space st2) (align (zlen val) + sizeof_entry)) as [Hfull2|Hroom2]; cbn [negb].
    + exists (-3), st2, (amap L). split; [done|]. split; [rewrite <- amap_live; eapply in_use_inv; [done|lia]|].
      apply SetFull. rewrite <- amap_live, map_space_amap by apply live_NoDup.
      pose proof (free_space_log _ _ _ _ _ (align (zlen val) + sizeof_entry) Hg Hu2 ltac:(unfold sizeof_entry; lia) Hfull2).
      unfold sizeof_entry in *. lia.
    + destruct (append_in_use _ _ _ _ _ k val Hg Hu2 Hkv Hroom2) as [Hle Hu3].
      rewrite (proj2 (Z.leb_le _ _) Hle). eexists 0, _, (<[k := val]> (amap L)). split; [done|]. split; [|by constructor].
      rewrite <- amap_live, <- amap_snoc. eapply in_use_inv; [exact Hu3|lia].
  - obind. cbn [negb]. destruct (append_in_use _ _ _ _ _ k val Hg Hu Hkv Hroom) as [Hle Hu3].
    rewrite (proj2 (Z.leb_le _ _) Hle). eexists 0, _, (<[k := val]> (amap L)). split; [done|]. split; [|by constructor].
    rewrite <- amap_snoc. eapply in_use_inv; [exact Hu3|lia].
Qed.

(** What [jd_settings_get_bin] answers from the map: for a key that is not
    there, a negative number ([missing_is_minus_two] has which one). *)
Inductive get_result (M : gmap (list Z) (list Z)) : option (list Z) -> list Z -> Z -> Z -> list Z -> Prop :=
  | GetBadKey key dst space : key_ok key = false -> get_result M key dst space (-1) dst
  | GetMissing k dst space r : key_ok (Some k) = true -> M !! k = None -> r < 0 -> get_result M (Some k) dst space r dst
  | GetSize k v dst space : M !! k = Some v -> space < zlen v -> get_result M (Some k) dst space (zlen v) dst
  | GetValue k v dst space dst' : M !! k = Some v -> zlen v <= space -> mread dst' 0 (zlen v) = v ->
      get_result M (Some k) dst space (zlen v) dst'.

Lemma get_bin_spec n st M key dst space :
  fstor_geometry -> 0 <= n -> fs_inv n st M -> space <= zlen dst ->
  exists r dst' st', jd_settings_get_bin st key dst space = Ret (r, dst', st') /\ fs_inv (n + 1) st' M /\
    get_result M key dst space r dst'.
Proof.
  intros Hg Hn Hi Hsp. unfold jd_settings_get_bin. destruct (key_ok key) eqn:Hk; cbn [negb].
  2: { exists (-1), dst, st. split; [done|]. split; [eapply fs_inv_mono; [done|lia]|by constructor]. }
  destruct key as [k|]; [|done]. cbn [default from_option id].
  destruct (find_entry_spec n st M k Hg Hn Hi) as (e & st1 & s & g & L & -> & Hu & -> & He). obind.
  assert (fs_inv (n + 1) st1 (amap L)) as Hinv by (eapply in_use_inv; [done|lia]).
  destruct e as [e|]; [|exists (-2), dst, st1; split_and!; try done; constructor; [done..|lia]].
  destruct He as (v & Hv & -> & Hrd). eexists (zlen v), _, st1. split; [done|]. split; [done|].
  rewrite Z.geb_leb. destruct (Z.leb_spec (zlen v) space) as [Hle|Hlt]; [|by eapply GetSize].
  apply GetValue; [done|done|]. set (src := mread (fs_mem st1) (e_offset (fs_mem st1) e) space).
  assert (zlen v <= zlen src /\ mread src 0 (zlen v) = v) as [Hls Hsrc].
  { assert (mread src 0 (zlen v) = v) as Hs.
    { rewrite <- Hrd at 2. unfold src, mread. rewrite drop_0, take_take. f_equal. unfold zlen in *. lia. }
    split; [|done]. unfold mread in Hs. apply (f_equal length) in Hs. rewrite length_take, length_drop in Hs.
    unfold zlen in *. lia. }
  rewrite <- Hsrc at 2. unfold mwrite. change (Z.to_nat 0) with 0%nat. rewrite take_0. cbn [app Nat.add].
  unfold mread. rewrite !drop_0, take_app_le; [done|]. unfold zlen in *. lia.
Qed.

(** Calls, and a loss of power between two of them. *)
Inductive fs_op := FsSet (key : option (list Z)) (val : list Z) | FsGet (key : option (list Z)) (dst : list Z) (space : Z) | FsRestart.
Inductive fs_reply := FsCode (r : Z) | FsBuffer (r : Z) (dst : list Z) | FsNone.

Definition fs_restart (st : fstor) : fstor :=
  {| fs_mem := fs_mem st; settings := None; last_entry := 0; data_start := 0; used_data_pages := []; header_pages := 0 |}.

Definition fs_step (st : fstor) (o : fs_op) : outcome (fs_reply * fstor) :=
  match o with
  | FsSet key val => '(r, st) ← jd_settings_set_bin st key val; Ret (FsCode r, st)
  | FsGet key dst space => '(r, dst, st) ← jd_settings_get_bin st key dst space; Ret (FsBuffer r dst, st)
  | FsRestart => Ret (FsNone, fs_restart st)
  end.
Fixpoint fs_run (st : fstor) (ops : list fs_op) : outcome (list fs_reply * fstor) :=
  match ops with
  | [] => Ret ([], st)
  | o :: ops => '(r, st) ← fs_step st o; '(rs, st) ← fs_run st ops; Ret (r :: rs, st)
  end.

Inductive map_step (M : gmap (list Z) (list Z)) : fs_op -> fs_reply -> gmap (list Z) (list Z) -> Prop :=
  | MapSet key val r M' : set_result M key val r M' -> map_step M (FsSet key val) (FsCode r) M'
  | MapGet key dst space r dst' : get_result M key dst space r dst' -> map_step M (FsGet key dst space) (FsBuffer r dst') M
  | MapRestart : map_step M FsRestart FsNone M.
Inductive map_run : gmap (list Z) (list Z) -> list fs_op -> list fs_reply -> Prop :=
  | MapNil M : map_run M [] []
  | MapCons M o r M' ops rs : map_step M o r M' -> map_run M' ops rs -> map_run M (o :: ops) (r :: rs).

(** C strings and buffers as callers have them. *)
Definition fs_op_ok (o : fs_op) : Prop :=
  match o with
  | FsSet key val => Forall (fun b => 0 < b < 256) (default [] key) /\ Forall is_byte val /\ zlen val < 2 ^ 31
  | FsGet key dst space => space <= zlen dst
  | FsRestart => True
  end.

Lemma fs_run_simulates ops : fstor_geometry -> forall n st M,
  0 <= n -> n + zlen ops + 1 < 2 ^ 32 -> fs_inv n st M -> Forall fs_op_ok ops ->
  exists rs st', fs_run st ops = Ret (rs, st') /\ map_run M ops rs.
Proof.
  intros Hg. induction ops as [|o ops IH]; intros n st M Hn Hlen Hi Hok; cbn [fs_run].
  { exists [], st. split; [done|constructor]. }
  apply Forall_cons in Hok as [Ho Hok]. assert (zlen (o :: ops) = 1 + zlen ops) as Hz by (unfold zlen; simpl; lia).
  pose proof (zlen_nonneg ops).
  assert (exists r st1 M1, fs_step st o = Ret (r, st1) /\ fs_inv (n + 1) st1 M1 /\ map_step M o r M1)
    as (r & st1 & M1 & -> & Hi1 & Hst).
  { destruct o as [key val|key dst space|]; cbn [fs_step].
    - destruct Ho as (Ho1 & Ho2 & Ho3). destruct (set_bin_spec n st M key val) as (r & st' & M' & -> & Hi' & Hr); try done; try lia.
      obind. eexists _, _, M'. split; [done|]. split; [done|]. by constructor.
    - destruct (get_bin_spec n st M key dst space) as (r & dst' & st' & -> & Hi' & Hr); try done.
      obind. eexists _, _, M. split; [done|]. split; [done|]. by constructor.
    - eexists _, _, M. split; [done|]. split; [|constructor].
      destruct Hi as [_ [(s & g & L & ? & ? & ? & _)|(? & ? & _ & ? & ?)]]; (split; [by left|]).
      + left. exists s, g, L. split_and!; try done; [lia|by left].
      + right. by split_and!. }
  obind. destruct (IH (n + 1) st1 M1) as (rs & st' & -> & Hrun); try done; try lia.
  obind. eexists _, st'. split; [done|]. by econstructor.
Qed.

(** C4. The settings store is a map that survives restarts: on flash that has
    no store yet, any sequence of sets, gets and restarts ends without a failed
    assertion, and every reply is that of a map from keys to values: a get
    gives the size of the value set last, and its bytes when the buffer is big
    enough, also after garbage collection has moved it and after a restart; for
    a key that is not there it is a negative number and the buffer is left alone;
    a set either takes effect and returns 0, or changes nothing, and does so only
    for a bad key, a value longer than an area minus 200 bytes, or when the
    settings that are live leave no room for it. *)
Theorem fstor_refines_map st ops :
  fstor_geometry -> zlen (fs_mem st) = JD_FSTOR_TOTAL_SIZE ->
  valid_hdr (fs_mem st) 0 = false -> valid_hdr (fs_mem st) hsize = false ->
  Forall fs_op_ok ops -> zlen ops < 2 ^ 32 - 2 ->
  exists rs st', fs_run (fs_restart st) ops = Ret (rs, st') /\ map_run ∅ ops rs.
Proof.
  intros Hg Hl Hv0 Hv1 Hok Hlen. apply (fs_run_simulates ops Hg 0); try done; try lia.
  split; [by left|]. right. by split_and!.
Qed.
End FstorProofs.

(** *** NOR flash *)

(** Programming clears bits; a page is 64 bytes, the two areas 256 each. *)
Definition nor_program (m : list Z) (off : Z) (src : list Z) : list Z :=
  mwrite m off (zip_with Z.land (mread m off (zlen src)) src).
Definition nor_erase (m : list Z) (off : Z) : list Z := mwrite m off (replicate 64 0xff).
#[export] Instance nor_flash : Flash := {|
  JD_FLASH_PAGE_SIZE := 64; JD_FSTOR_TOTAL_SIZE := 512; JD_FSTOR_HEADER_PAGES := 4; JD_FSTOR_MAX_DATA_PAGES := 32;
  flash_program := nor_program; flash_erase := nor_erase |}.

#[export] Instance nor_flash_laws : FlashLaws.
Proof.
  constructor; [|done]. intros m off src Hb Ho Hl Hff. cbn [flash_program nor_flash]. unfold nor_program. rewrite Hff.
  f_equal. clear -Hb. induction Hb as [|b src Hb _ IH]; [done|]. cbn [length replicate zip_with]. rewrite IH. f_equal.
  rewrite Z.land_comm. change 0xff with (Z.ones 8). rewrite Z.land_ones by lia. apply Z.mod_small. exact Hb.
Qed.

Lemma nor_geometry : fstor_geometry.
Proof. constructor; vm_compute; done. Qed.

(** Two settings, the second overwritten until the area is collected, and a
    restart. *)
Definition blank_store : fstor :=
  {| fs_mem := replicate 512 0xff; settings := None; last_entry := 0; data_start := 0; used_data_pages := []; header_pages := 0 |}.
Definition demo_settings : list fs_op :=
  [FsSet (Some [97]) [1; 2; 3]; FsSet (Some [98]) [4]; FsSet (Some [98]) [5]; FsSet (Some [98]) [6]; FsSet (Some [98]) [7];
   FsSet (Some [98]) [8]; FsSet (Some [98]) [9]; FsRestart; FsGet (Some [97]) [0; 0; 0; 0] 4; FsGet (Some [98]) [0] 1].

Lemma fstor_refines_map_witness :
  (exists rs st', fs_run (fs_restart blank_store) demo_settings = Ret (rs, st') /\ map_run ∅ demo_settings rs) /\
  match fs_run (fs_restart blank_store) demo_settings with
  | Ret (rs, st') => drop 8 rs = [FsBuffer 3 [1; 2; 3; 255]; FsBuffer 1 [9]] /\ settings st' = Some 256
  | _ => False
  end.
Proof.
  split; [|vm_compute; done].
  apply (fstor_refines_map blank_store demo_settings nor_geometry); [vm_compute; done..| |vm_compute; done].
  repeat constructor; vm_compute; done.
Defined.

(** *** What else the code does *)

(** [jd_settings_get_bin] copies as many bytes as the buffer has room for, not
    as the value has: the fourth byte above is not part of the value. *)
Lemma get_bin_copies_past_value :
  match fs_run (fs_restart blank_store) [FsSet (Some [97]) [1; 2; 3]; FsGet (Some [97]) [0; 0; 0; 0] 4] with
  | Ret (rs, _) => rs = [FsCode 0; FsBuffer 3 [1; 2; 3; 255]]
  | _ => False
  end.
Proof. vm_compute. done. Qed.

(** The number for a key that is not there is -2; interfaces/jd_flash.h
    promises -1. *)
Lemma missing_is_minus_two :
  match fs_run (fs_restart blank_store) [FsSet (Some [97]) [1]; FsGet (Some [98]) [0] 1] with
  | Ret (rs, _) => rs = [FsCode 0; FsBuffer (-2) [0]]
  | _ => False
  end.
Proof. vm_compute. done. Qed.

(** A loss of power in [jd_settings_set_bin] between programming the value and
    programming its entry loses every setting: at the next start the bytes of
    the value are not erased flash, the mount fails, and the store is
    formatted. *)
Definition torn_store : fstor :=
  match fs_run (fs_restart blank_store) [FsSet (Some [97]) [1; 2; 3]] with
  | Ret (_, st) => fs_set_mem st (flash_program (fs_mem st) (data_start st - align 1) [4])
  | _ => blank_store
  end.
Lemma torn_write_loses_settings :
  match fs_run (fs_restart torn_store) [FsGet (Some [97]) [0; 0; 0] 3] with
  | Ret (rs, st) => rs = [FsBuffer (-2) [0; 0; 0]] /\ generation (fs_mem st) 0 = 1
  | _ => False
  end.
Proof. vm_compute. done. Qed.

(** Formatting erases the first area only: when the second has a header of a
    higher generation and cannot be mounted, every start formats again and
    loses what was stored since the last one. *)
Definition bad_second_area : fstor :=
  {| fs_mem := mwrite (mwrite (replicate 512 0xff) 256 (hdr_bytes 5)) 500 [0]; settings := None; last_entry := 0;
     data_start := 0; used_data_pages := []; header_pages := 0 |}.
Lemma format_forgets_second_area :
  match fs_run (fs_restart bad_second_area)
    [FsSet (Some [97]) [1]; FsGet (Some [97]) [0] 1; FsRestart; FsGet (Some [97]) [0] 1] with
  | Ret (rs, _) => rs = [FsCode 0; FsBuffer 1 [1]; FsNone; FsBuffer (-2) [0]]
  | _ => False
  end.
Proof. vm_compute. done. Qed.

(** The last run of free data pages is not found: with 8 data pages, a value of
    8 pages is refused although all of them are free, one of 7 is not; and one
    of 9 makes the search run out of the table. *)
Definition large_flash : Flash := {|
  JD_FLASH_PAGE_SIZE := 64; JD_FSTOR_TOTAL_SIZE := 1024; JD_FSTOR_HEADER_PAGES := 4; JD_FSTOR_MAX_DATA_PAGES := 32;
  flash_program := nor_program; flash_erase := nor_erase |}.
Definition large_store : fstor :=
  {| fs_mem := replicate 1024 0xff; settings := None; last_entry := 0; data_start := 0; used_data_pages := []; header_pages := 0 |}.
Definition prep (size : Z) : outcome (option Z) :=
  '(r, _) ← @jd_settings_prep_large large_flash large_store (Some [42; 97]) size; Ret r.
Lemma find_free_data_limits :
  prep (7 * 64) = Ret (Some 512) /\ prep (8 * 64) = Ret None /\ prep (9 * 64) = Panic.
Proof. vm_compute. done. Qed.
