(* ===== verification/Client.v ===== *)
(** * The state of the client side ([inc/jd_client.h], [client/client_internal.h])

    A client keeps the devices it has heard of, in a linked list, with their
    services and the registers it has asked for, and the roles that the role
    manager binds to services. This file has the data, the events given to the
    subscribed handlers (collected in a trace) and the accessors;
    [Rolemgr.v] and [Routing.v] have the operations.

    Devices and roles are allocated objects that other objects point to: each
    record carries its address, the linked lists are lists of records, and a
    pointer to a service is the address of its device with the index of the
    service ([jd_service_parent] is [fst]). Handlers of events are taken not to
    change the lists. *)
From S2P Require Import Prelude Frame Util Iface Registers.

Definition JD_DEVICE_SERVICE_FLAG_ROLE_ASSIGNED : Z := 0x01.
Definition JD_REGISTER_QUERY_MAX_INLINE : Z := 4.
Definition JD_ROLE_HINT_NONE : Z := 0.
Definition JD_ROLE_HINT_INT : Z := 1.
Definition JD_ROLE_HINT_APP : Z := 2.

(** [jd_alloc]: an address for a new zeroed block, given those in use. *)
Class Heap := {
  jd_alloc : list Z -> Z;
  (** Documented: it never returns [NULL]; a block in use is not given out. *)
  jd_alloc_fresh : forall live, jd_alloc live ∉ live;
  jd_alloc_nonnull : forall live, jd_alloc live <> 0;
}.

(** ** Data *)

(** [jd_device_service_t] *)
Record service := { service_class : Z; service_index : Z; sv_flags : Z }.

(** [jd_register_query_t]; [q_data] is what [jd_register_data] points to. *)
Record query := {
  reg_code : Z;          (* uint16_t *)
  q_service_index : Z;   (* uint8_t *)
  resp_size : Z;         (* uint8_t *)
  last_query_ms : Z;     (* uint32_t *)
  q_data : list Z;
}.

(** [jd_device_t] *)
Record device := {
  d_ptr : Z;
  device_identifier : Z;
  num_services : Z;      (* uint8_t *)
  event_counter : Z;     (* uint8_t *)
  dev_announce_flags : Z; (* uint16_t *)
  short_id : list Z;
  expires : Z;           (* uint32_t *)
  services : list service;
  queries : list query;
}.

(** A pointer to a service. *)
Definition sptr : Type := Z * Z.

(** [jd_role_t]; a name is its characters. *)
Record role := {
  r_ptr : Z;
  r_name : list Z;
  r_class : Z;
  hidden : bool;
  hint_dev : Z;
  hint_srvo : Z;         (* uint8_t *)
  r_service : option sptr;
}.

(** The state of the role manager ([client/rolemgr.c]); [rm_state] is false
    while [_state] is [NULL]. *)
Record rolemgr := {
  rm_state : bool;
  rm_common : list Z;    (* SRV_COMMON: table, service_index, srv_flags *)
  auto_bind_enabled : Z; (* uint8_t *)
  all_roles_allocated : Z;
  changed : bool;
  locked : bool;
  force_hints : bool;
  roles : list role;
  next_autobind : Z;
  changed_timeout : Z;
  list_pipe : Z;         (* its address *)
  list_ptr : option Z;
  app_device_id : Z;
}.

Inductive client_event :=
  | EvDeviceCreated (dev : Z) (pkt : list Z)
  | EvDeviceDestroyed (dev : Z)
  | EvDeviceReset (dev : Z) (pkt : list Z)
  | EvServicePacket (serv : sptr) (pkt : list Z)
  | EvNonServicePacket (dev : option Z) (pkt : list Z)
  | EvBroadcastPacket (pkt : list Z)
  | EvRepeatedEventPacket (serv : sptr) (pkt : list Z)
  | EvServiceRegisterChanged (serv : sptr) (q : query)
  | EvServiceRegisterNotImplemented (serv : sptr) (q : query)
  | EvProcess
  | EvRoleChanged (serv : option sptr) (role : Z).

(** The static variables of [client/routing.c] and [client/rolemgr.c].
    [reg_buffers] counts the buffers allocated for values of registers. *)
Record client := {
  jd_devices : list device;
  next_gc : Z;
  event_scope : Z;
  reg_buffers : Z;
  rm : rolemgr;
  cl_trace : list client_event;
}.

(** ** Setters *)

Definition set_devices (c : client) (v : list device) : client :=
  {| jd_devices := v; next_gc := next_gc c; event_scope := event_scope c; reg_buffers := reg_buffers c;
     rm := rm c; cl_trace := cl_trace c |}.
Definition set_next_gc (c : client) (v : Z) : client :=
  {| jd_devices := jd_devices c; next_gc := v; event_scope := event_scope c; reg_buffers := reg_buffers c;
     rm := rm c; cl_trace := cl_trace c |}.
Definition set_scope (c : client) (v : Z) : client :=
  {| jd_devices := jd_devices c; next_gc := next_gc c; event_scope := v; reg_buffers := reg_buffers c;
     rm := rm c; cl_trace := cl_trace c |}.
Definition set_buffers (c : client) (v : Z) : client :=
  {| jd_devices := jd_devices c; next_gc := next_gc c; event_scope := event_scope c; reg_buffers := v;
     rm := rm c; cl_trace := cl_trace c |}.
Definition set_rm (c : client) (v : rolemgr) : client :=
  {| jd_devices := jd_devices c; next_gc := next_gc c; event_scope := event_scope c; reg_buffers := reg_buffers c;
     rm := v; cl_trace := cl_trace c |}.
Definition cl_log (c : client) (e : client_event) : client :=
  {| jd_devices := jd_devices c; next_gc := next_gc c; event_scope := event_scope c; reg_buffers := reg_buffers c;
     rm := rm c; cl_trace := cl_trace c ++ [e] |}.

Definition set_sv_flags (s : service) (v : Z) : service :=
  {| service_class := service_class s; service_index := service_index s; sv_flags := v |}.
Definition set_services (d : device) (v : list service) : device :=
  {| d_ptr := d_ptr d; device_identifier := device_identifier d; num_services := num_services d;
     event_counter := event_counter d; dev_announce_flags := dev_announce_flags d; short_id := short_id d;
     expires := expires d; services := v; queries := queries d |}.
Definition set_queries (d : device) (v : list query) : device :=
  {| d_ptr := d_ptr d; device_identifier := device_identifier d; num_services := num_services d;
     event_counter := event_counter d; dev_announce_flags := dev_announce_flags d; short_id := short_id d;
     expires := expires d; services := services d; queries := v |}.
Definition set_event_counter (d : device) (v : Z) : device :=
  {| d_ptr := d_ptr d; device_identifier := device_identifier d; num_services := num_services d;
     event_counter := v; dev_announce_flags := dev_announce_flags d; short_id := short_id d;
     expires := expires d; services := services d; queries := queries d |}.
Definition set_dev_flags (d : device) (v : Z) : device :=
  {| d_ptr := d_ptr d; device_identifier := device_identifier d; num_services := num_services d;
     event_counter := event_counter d; dev_announce_flags := v; short_id := short_id d;
     expires := expires d; services := services d; queries := queries d |}.
Definition set_expires (d : device) (v : Z) : device :=
  {| d_ptr := d_ptr d; device_identifier := device_identifier d; num_services := num_services d;
     event_counter := event_counter d; dev_announce_flags := dev_announce_flags d; short_id := short_id d;
     expires := v; services := services d; queries := queries d |}.
Definition set_r_service (r : role) (v : option sptr) : role :=
  {| r_ptr := r_ptr r; r_name := r_name r; r_class := r_class r; hidden := hidden r; hint_dev := hint_dev r;
     hint_srvo := hint_srvo r; r_service := v |}.

Definition set_roles (m : rolemgr) (v : list role) : rolemgr :=
  {| rm_state := rm_state m; rm_common := rm_common m; auto_bind_enabled := auto_bind_enabled m;
     all_roles_allocated := all_roles_allocated m; changed := changed m; locked := locked m;
     force_hints := force_hints m; roles := v; next_autobind := next_autobind m;
     changed_timeout := changed_timeout m; list_pipe := list_pipe m; list_ptr := list_ptr m;
     app_device_id := app_device_id m |}.
Definition set_changed (m : rolemgr) (v : bool) : rolemgr :=
  {| rm_state := rm_state m; rm_common := rm_common m; auto_bind_enabled := auto_bind_enabled m;
     all_roles_allocated := all_roles_allocated m; changed := v; locked := locked m;
     force_hints := force_hints m; roles := roles m; next_autobind := next_autobind m;
     changed_timeout := changed_timeout m; list_pipe := list_pipe m; list_ptr := list_ptr m;
     app_device_id := app_device_id m |}.
Definition set_locked (m : rolemgr) (v : bool) : rolemgr :=
  {| rm_state := rm_state m; rm_common := rm_common m; auto_bind_enabled := auto_bind_enabled m;
     all_roles_allocated := all_roles_allocated m; changed := changed m; locked := v;
     force_hints := force_hints m; roles := roles m; next_autobind := next_autobind m;
     changed_timeout := changed_timeout m; list_pipe := list_pipe m; list_ptr := list_ptr m;
     app_device_id := app_device_id m |}.
Definition set_list_ptr (m : rolemgr) (v : option Z) : rolemgr :=
  {| rm_state := rm_state m; rm_common := rm_common m; auto_bind_enabled := auto_bind_enabled m;
     all_roles_allocated := all_roles_allocated m; changed := changed m; locked := locked m;
     force_hints := force_hints m; roles := roles m; next_autobind := next_autobind m;
     changed_timeout := changed_timeout m; list_pipe := list_pipe m; list_ptr := v;
     app_device_id := app_device_id m |}.
Definition set_timers (m : rolemgr) (autobind timeout : Z) : rolemgr :=
  {| rm_state := rm_state m; rm_common := rm_common m; auto_bind_enabled := auto_bind_enabled m;
     all_roles_allocated := all_roles_allocated m; changed := changed m; locked := locked m;
     force_hints := force_hints m; roles := roles m; next_autobind := autobind;
     changed_timeout := timeout; list_pipe := list_pipe m; list_ptr := list_ptr m;
     app_device_id := app_device_id m |}.
(** The fields that registers read and write. *)
Definition set_regs (m : rolemgr) (common : list Z) (auto all : Z) : rolemgr :=
  {| rm_state := rm_state m; rm_common := common; auto_bind_enabled := auto;
     all_roles_allocated := all; changed := changed m; locked := locked m;
     force_hints := force_hints m; roles := roles m; next_autobind := next_autobind m;
     changed_timeout := changed_timeout m; list_pipe := list_pipe m; list_ptr := list_ptr m;
     app_device_id := app_device_id m |}.
Definition set_hints (m : rolemgr) (force : bool) (app : Z) : rolemgr :=
  {| rm_state := rm_state m; rm_common := rm_common m; auto_bind_enabled := auto_bind_enabled m;
     all_roles_allocated := all_roles_allocated m; changed := changed m; locked := locked m;
     force_hints := force; roles := roles m; next_autobind := next_autobind m;
     changed_timeout := changed_timeout m; list_pipe := list_pipe m; list_ptr := list_ptr m;
     app_device_id := app |}.

(** ** Pointers *)

Definition device_at (c : client) (p : Z) : option device :=
  snd <$> list_find (fun d => d_ptr d = p) (jd_devices c).
Definition upd_device (c : client) (p : Z) (f : device -> device) : client :=
  set_devices c (map (fun d => if d_ptr d =? p then f d else d) (jd_devices c)).

Definition role_at (c : client) (p : Z) : option role :=
  snd <$> list_find (fun r => r_ptr r = p) (roles (rm c)).
Definition upd_role (c : client) (p : Z) (f : role -> role) : client :=
  set_rm c (set_roles (rm c) (map (fun r => if r_ptr r =? p then f r else r) (roles (rm c)))).

Definition live_blocks (c : client) : list Z := map d_ptr (jd_devices c) ++ map r_ptr (roles (rm c)).

(** [serv->flags |= f] and [serv->flags &= ~f]. *)
Definition upd_service (c : client) (s : sptr) (f : service -> service) : client :=
  upd_device c (fst s) (fun d => set_services d (alter f (Z.to_nat (snd s)) (services d))).
Definition assign_flag (c : client) (s : sptr) : client :=
  upd_service c s (fun v => set_sv_flags v (Z.lor (sv_flags v) JD_DEVICE_SERVICE_FLAG_ROLE_ASSIGNED)).
Definition unassign_flag (c : client) (s : sptr) : client :=
  upd_service c s (fun v => set_sv_flags v (Z.ldiff (sv_flags v) JD_DEVICE_SERVICE_FLAG_ROLE_ASSIGNED)).

Definition jd_service_parent (s : sptr) : Z := fst s.

Definition jd_device_lookup (c : client) (id : Z) : option device :=
  snd <$> list_find (fun d => device_identifier d = id) (jd_devices c).

Definition jd_device_get_service (d : option device) (idx : Z) : option sptr :=
  match d with
  | Some d => if idx <? num_services d then Some (d_ptr d, idx) else None
  | None => None
  end.

Definition jd_device_lookup_service (d : device) (cls : Z) : option sptr :=
  (fun '(i, _) => (d_ptr d, Z.of_nat i)) <$>
    list_find (fun s => service_class s = cls) (take (Z.to_nat (num_services d)) (services d)).

Definition jd_register_not_implemented (q : query) : bool := has_flag (q_service_index q) 0x80.

(** ** Events ([client/routing.c])

    [EVENT_CHECKING] is on: an event is given to the handlers outside of the
    scope that [EVENT_ENTER] opens. *)

Definition EVENT_ENTER (c : client) : outcome client :=
  JD_ASSERT event_scope c =? 0 ;; Ret (set_scope c 1).
Definition EVENT_LEAVE (c : client) : outcome client :=
  JD_ASSERT event_scope c =? 1 ;; Ret (set_scope c 0).

Definition jd_client_emit_event (c : client) (e : client_event) : outcome client :=
  JD_ASSERT event_scope c =? 1 ;;
  c ← EVENT_LEAVE c;
  EVENT_ENTER (cl_log c e).

Definition rolemgr_role_changed (c : client) (serv : option sptr) (role : Z) : outcome client :=
  c ← EVENT_ENTER c;
  c ← jd_client_emit_event c (EvRoleChanged serv role);
  EVENT_LEAVE c.

(** ** Facts *)

Lemma find_ptr {A} (f : A -> Z) (l : list A) p :
  match list_find (fun x => f x = p) l with
  | Some (_, x) => x ∈ l /\ f x = p
  | None => p ∉ map f l
  end.
Proof.
  destruct (list_find _ l) as [[i x]|] eqn:E.
  - apply list_find_Some in E as (Hl & Hp & _). split; [by eapply list_elem_of_lookup_2|done].
  - apply list_find_None in E. intros (y & Hy & Hin)%list_elem_of_fmap.
    rewrite Forall_forall in E. by apply (E y Hin).
Qed.

Lemma find_ptr_in {A} (f : A -> Z) (l : list A) x : NoDup (map f l) -> x ∈ l ->
  snd <$> list_find (fun y => f y = f x) l = Some x.
Proof.
  induction l as [|y l IH]; intros Hnd Hx; [by apply elem_of_nil in Hx|].
  cbn [map] in Hnd. apply NoDup_cons in Hnd as [Hni Hnd]. cbn [list_find].
  apply elem_of_cons in Hx as [->|Hx].
  - by rewrite decide_True.
  - rewrite decide_False.
    + specialize (IH Hnd Hx). destruct (list_find _ l) as [[i z]|]; [|done]. cbn in *. done.
    + intros Hf. apply Hni. rewrite Hf. by apply list_elem_of_fmap_2.
Qed.

Lemma role_at_spec c p r : role_at c p = Some r -> r ∈ roles (rm c) /\ r_ptr r = p.
Proof.
  unfold role_at. pose proof (find_ptr r_ptr (roles (rm c)) p) as Hf.
  destruct (list_find _ _) as [[i x]|]; [|done]. by intros [= <-].
Qed.

Lemma role_at_in c p : p ∈ map r_ptr (roles (rm c)) -> exists r, role_at c p = Some r.
Proof.
  unfold role_at. pose proof (find_ptr r_ptr (roles (rm c)) p) as Hf.
  destruct (list_find _ _) as [[i x]|]; [by exists x|done].
Qed.

Lemma role_at_of c r : NoDup (map r_ptr (roles (rm c))) -> r ∈ roles (rm c) -> role_at c (r_ptr r) = Some r.
Proof. apply find_ptr_in. Qed.

Lemma device_at_spec c p d : device_at c p = Some d -> d ∈ jd_devices c /\ d_ptr d = p.
Proof.
  unfold device_at. pose proof (find_ptr d_ptr (jd_devices c) p) as Hf.
  destruct (list_find _ _) as [[i x]|]; [|done]. by intros [= <-].
Qed.

Lemma device_at_of c d : NoDup (map d_ptr (jd_devices c)) -> d ∈ jd_devices c -> device_at c (d_ptr d) = Some d.
Proof. apply find_ptr_in. Qed.

Lemma device_lookup_spec c id d : jd_device_lookup c id = Some d -> d ∈ jd_devices c /\ device_identifier d = id.
Proof.
  unfold jd_device_lookup. pose proof (find_ptr device_identifier (jd_devices c) id) as Hf.
  destruct (list_find _ _) as [[i x]|]; [|done]. by intros [= <-].
Qed.

Lemma device_lookup_none c id : jd_device_lookup c id = None -> id ∉ map device_identifier (jd_devices c).
Proof.
  unfold jd_device_lookup. pose proof (find_ptr device_identifier (jd_devices c) id) as Hf.
  destruct (list_find _ _) as [[i x]|]; done.
Qed.

(** An emitted event leaves the state but for the trace. *)
Lemma emit_spec c e : event_scope c = 1 -> jd_client_emit_event c e = Ret (cl_log c e).
Proof.
  intros Hs. unfold jd_client_emit_event, EVENT_LEAVE, EVENT_ENTER. rewrite Hs. cbn.
  destruct c; cbn in *. by subst.
Qed.

Lemma role_changed_spec c s p : event_scope c = 0 -> rolemgr_role_changed c s p = Ret (cl_log c (EvRoleChanged s p)).
Proof.
  intros Hs. unfold rolemgr_role_changed. unfold EVENT_ENTER at 1. rewrite Hs. obind. cbn [Z.eqb].
  obind. rewrite emit_spec by done. obind. unfold EVENT_LEAVE. destruct c; cbn in *. by subst.
Qed.

(** ** A concrete client *)

Definition max_addr (live : list Z) : Z := fold_right Z.max 0 live.

Lemma max_addr_ge live p : p ∈ live -> p <= max_addr live.
Proof. induction live as [|x live IH]; [by intros ?%elem_of_nil|]. change (max_addr (x :: live)) with (Z.max x (max_addr live)).
  intros [->|Hp]%elem_of_cons; [lia|]. specialize (IH Hp). lia. Qed.

Lemma max_addr_nonneg live : 0 <= max_addr live.
Proof. induction live as [|x live IH]; [done|]. change (max_addr (x :: live)) with (Z.max x (max_addr live)). lia. Qed.

Lemma bump_fresh live : 1 + max_addr live ∉ live.
Proof. intros H%max_addr_ge. lia. Qed.
Lemma bump_nonnull live : 1 + max_addr live <> 0.
Proof. pose proof (max_addr_nonneg live). lia. Qed.

(** The address after those in use. *)
Definition bump_heap : Heap :=
  {| jd_alloc := fun live => 1 + max_addr live; jd_alloc_fresh := bump_fresh; jd_alloc_nonnull := bump_nonnull |}.

(** A role manager that has just started, and no devices. *)
Definition demo_rolemgr : rolemgr :=
  {| rm_state := true; rm_common := [0; 0; 0; 0; 1; 0]; auto_bind_enabled := 1; all_roles_allocated := 0; changed := false;
     locked := false; force_hints := false; roles := []; next_autobind := 0; changed_timeout := 0; list_pipe := 100;
     list_ptr := None; app_device_id := 0 |}.
Definition demo_client : client :=
  {| jd_devices := []; next_gc := 0; event_scope := 0; reg_buffers := 0; rm := demo_rolemgr; cl_trace := [] |}.

(** A device with services of the given classes, no role bound; a role. *)
Definition demo_device (p id : Z) (classes : list Z) : device :=
  {| d_ptr := p; device_identifier := id; num_services := zlen classes; event_counter := 0xff; dev_announce_flags := 1;
     short_id := []; expires := 2000000; services := imap (fun i cls => {| service_class := cls; service_index := Z.of_nat i; sv_flags := 0 |}) classes;
     queries := [] |}.
Definition demo_role (p cls : Z) : role :=
  {| r_ptr := p; r_name := [p]; r_class := cls; hidden := false; hint_dev := 0; hint_srvo := 0; r_service := None |}.

(** The bytes of a report. *)
Definition demo_report (id idx cmd : Z) (data : list Z) : list Z :=
  [0; 0; 0; 0] ++ le_bytes 8 id ++ [zlen data; idx] ++ le_bytes 2 cmd ++ data.
