(* ===== verification/Rolemgr.v ===== *)
(** * The role manager ([client/rolemgr.c])

    A role is a name for a service of some class that the program needs. The
    manager binds roles to services of the devices in sight, by itself or on
    command, lists them over a pipe, and unbinds those of a device that goes. *)
From S2P Require Import Prelude Frame Util Iface Registers Opipe EventQueue TxRx Services Client.

Definition AUTOBIND_MS : Z := 980.

(** The generated role-manager header. *)
Class RoleManagerSpec := {
  JD_ROLE_MANAGER_REG_AUTO_BIND : Z;
  JD_ROLE_MANAGER_REG_ALL_ROLES_ALLOCATED : Z;
  JD_ROLE_MANAGER_CMD_SET_ROLE : Z;
  JD_ROLE_MANAGER_CMD_CLEAR_ALL_ROLES : Z;
  JD_ROLE_MANAGER_CMD_LIST_ROLES : Z;
  JD_EV_CHANGE : Z;
  (** [jd_role_manager_set_role_t]: fields, and the offset of [role]. *)
  sizeof_set_role : Z;
  set_role_device_id : list Z -> Z;
  set_role_service_idx : list Z -> Z;   (* uint8_t *)
  set_role_service_idx_range : forall b, 0 <= set_role_service_idx b < 256;
  (** [jd_role_manager_roles_t]: the bytes before [role]. *)
  roles_header : Z -> Z -> Z -> list Z;
}.

(** ** Locking and binding *)

Definition LOCK (c : client) : outcome client :=
  if negb (rm_state (rm c)) then Panic (* a NULL pointer *)
  else JD_ASSERT negb (locked (rm c)) ;; Ret (set_rm c (set_locked (rm c) true)).
Definition UNLOCK (c : client) : outcome client :=
  JD_ASSERT locked (rm c) ;; Ret (set_rm c (set_locked (rm c) false)).

Definition rolemgr_update_allocated (c : client) : client :=
  set_rm c (set_regs (rm c) (rm_common (rm c)) (auto_bind_enabled (rm c))
              (zbool (forallb (fun r => bool_decide (is_Some (r_service r))) (roles (rm c))))).

(** [role] is an address; the flags of a service that is gone are not written. *)
Definition rolemgr_set (c : client) (role : Z) (serv : option sptr) : outcome client :=
  match role_at c role with
  | None => Panic
  | Some r =>
      if decide (r_service r = serv) then Ret c
      else
        let c := match r_service r with Some s => unassign_flag c s | None => c end in
        let c := match serv with Some s => assign_flag c s | None => c end in
        let c := upd_role c role (fun r => set_r_service r serv) in
        let c := set_rm c (set_changed (rm c) true) in
        rolemgr_role_changed c serv role
  end.

(** [for (r = state->roles; r; r = r->_next) f(r)] *)
Fixpoint for_roles (ps : list Z) (f : role -> client -> outcome client) (c : client) : outcome client :=
  match ps with
  | [] => Ret c
  | p :: ps =>
      c ← match role_at c p with Some r => f r c | None => Panic end;
      for_roles ps f c
  end.

Definition role_ptrs (c : client) : list Z := map r_ptr (roles (rm c)).

(** The service of class [cls] with [off] others before it. *)
Fixpoint hint_loop (svs : list service) (cls off i : Z) : option (Z * service) :=
  match svs with
  | [] => None
  | s :: svs =>
      if negb (service_class s =? cls) then hint_loop svs cls off (i + 1)
      else if off =? 0 then Some (i, s) else hint_loop svs cls (off - 1) (i + 1)
  end.

Definition is_assigned (s : service) : bool := has_flag (sv_flags s) JD_DEVICE_SERVICE_FLAG_ROLE_ASSIGNED.

Section Rolemgr.
(** [jd_device_id()] *)
Context (self : Z).

Definition rolemgr_use_hint (r : role) (c : client) : outcome client :=
  if bool_decide (is_Some (r_service r)) || (hint_dev r =? 0) then Ret c
  else
    let dev := if hint_dev r =? JD_ROLE_HINT_APP then app_device_id (rm c)
               else if hint_dev r =? JD_ROLE_HINT_INT then self else 0 in
    if dev =? 0 then Ret c
    else match jd_device_lookup c dev with
    | None => Ret c
    | Some d =>
        match hint_loop (take (Z.to_nat (num_services d)) (services d)) (r_class r) (hint_srvo r) 0 with
        | Some (i, s) => if negb (is_assigned s) then rolemgr_set c (r_ptr r) (Some (d_ptr d, i)) else Ret c
        | None => Ret c
        end
    end.

(** The first service of class [cls], from number 1 of each device, that no
    role has. *)
Definition free_in (cls : Z) (d : device) : option sptr :=
  (fun '(i, _) => (d_ptr d, Z.of_nat i + 1)) <$>
    list_find (fun s => service_class s = cls /\ is_assigned s = false)
      (drop 1 (take (Z.to_nat (num_services d)) (services d))).
Fixpoint free_service (ds : list device) (cls : Z) : option sptr :=
  match ds with
  | [] => None
  | d :: ds => match free_in cls d with Some s => Some s | None => free_service ds cls end
  end.

Definition bind_role (r : role) (c : client) : outcome client :=
  if bool_decide (is_Some (r_service r)) || (negb (hint_dev r =? 0) && force_hints (rm c)) then Ret c
  else match free_service (jd_devices c) (r_class r) with
  | Some s => rolemgr_set c (r_ptr r) (Some s)
  | None => Ret c
  end.

Definition rolemgr_autobind (c : client) : outcome client :=
  if auto_bind_enabled (rm c) =? 0 then Ret c
  else
    c ← LOCK c;
    c ← for_roles (role_ptrs c) rolemgr_use_hint c;
    c ← for_roles (role_ptrs c) bind_role c;
    UNLOCK c.

Definition clear_role (r : role) (c : client) : outcome client := rolemgr_set c (r_ptr r) None.

(** [memcmp(r->name, name, name_len) == 0 && r->name[name_len] == 0]; bytes
    past the end of a name match nothing, a negative length neither. *)
Definition name_matches (name : list Z) (name_len : Z) (r : role) : bool :=
  (0 <=? name_len) && bool_decide (r_name r = take (Z.to_nat name_len) name)
  && (zlen (r_name r) =? name_len).
Definition rolemgr_lookup (c : client) (name : list Z) (name_len : Z) : option role :=
  snd <$> list_find (fun r => name_matches name name_len r = true) (roles (rm c)).

Definition rolemgr_device_destroyed (c : client) (dev : Z) : outcome client :=
  c ← LOCK c;
  c ← for_roles (role_ptrs c) (fun r c =>
        match r_service r with
        | Some s => if jd_service_parent s =? dev then rolemgr_set c (r_ptr r) None else Ret c
        | None => Ret c
        end) c;
  UNLOCK c.

Definition jd_role_set_hints (c : client) (force : bool) (app : Z) : outcome client :=
  if negb (rm_state (rm c)) then Panic else Ret (set_rm c (set_hints (rm c) force app)).

Definition jd_role_force_autobind (c : client) : outcome client :=
  if negb (rm_state (rm c)) then Panic else rolemgr_autobind c.

Definition jd_role_by_service (c : client) (s : sptr) : option role :=
  snd <$> list_find (fun r => r_service r = Some s) (roles (rm c)).

(** [strcmp(a, b) < 0] *)
Fixpoint strcmp_lt (a b : list Z) : bool :=
  match a, b with
  | _, [] => false
  | [], _ :: _ => true
  | x :: a, y :: b => (x <? y) || ((x =? y) && strcmp_lt a b)
  end.

Fixpoint insert_role (r : role) (rs : list role) : list role :=
  match rs with
  | [] => [r]
  | x :: rs => if strcmp_lt (r_name r) (r_name x) then r :: x :: rs else x :: insert_role r rs
  end.

(** The text after the first ['[']. *)
Fixpoint after_bracket (name : list Z) : option (list Z) :=
  match name with
  | [] => None
  | x :: name => if x =? 91 then Some name else after_bracket name
  end.

(** ["app:"] and ["int:"] *)
Definition str_app : list Z := [97; 112; 112; 58].
Definition str_int : list Z := [105; 110; 116; 58].

Definition role_hint (name : list Z) : Z * Z :=
  match after_bracket name with
  | None => (JD_ROLE_HINT_NONE, 0)
  | Some q =>
      if jd_starts_with (Some q) (Some str_app) then (JD_ROLE_HINT_APP, u8 (jd_atoi (drop 4 q)))
      else if jd_starts_with (Some q) (Some str_int) then (JD_ROLE_HINT_INT, u8 (jd_atoi (drop 4 q)))
      else (JD_ROLE_HINT_NONE, 0)
  end.
End Rolemgr.

(** ** The service

    These work on the whole state of a device whose services' state is the
    client: they use its pipes, events and packets. *)
Section Service.
Context `{JdSpec} `{RoleManagerSpec} `{Heap}.
Context (self : Z).

Definition on_client (f : client -> outcome client) (st : sys client) : outcome (sys client) :=
  c ← f (sy_app st); Ret (set_app st c).

#[local] Instance sys_client_sender : Sender (sys client) := sys_sender self.

Definition close_list_pipe (st : sys client) : outcome (sys client) :=
  '(_, op) ← jd_opipe_close (now (sy_clock st)) (sy_op st) (list_pipe (rm (sy_app st)));
  Ret (set_op st op).

Definition set_list (st : sys client) (p : option Z) : sys client :=
  set_app st (set_rm (sy_app st) (set_list_ptr (rm (sy_app st)) p)).

Definition stop_list (st : sys client) : outcome (sys client) :=
  if negb (rm_state (rm (sy_app st))) then Panic (* a NULL pointer *)
  else
    JD_ASSERT negb (locked (rm (sy_app st))) ;;
    match list_ptr (rm (sy_app st)) with
    | Some _ => close_list_pipe (set_list st None)
    | None => Ret st
    end.

Definition jd_role_manager_init (common : list Z) (pipe : Z) (st : sys client) : sys client :=
  set_app st (set_rm (sy_app st)
    {| rm_state := true; rm_common := common; auto_bind_enabled := 1; all_roles_allocated := 0;
       changed := false; locked := false; force_hints := false; roles := [];
       next_autobind := u32 (now (sy_clock st) + AUTOBIND_MS * 1000); changed_timeout := 0;
       list_pipe := pipe; list_ptr := None; app_device_id := 0 |}).

(** The parts of these functions after [stop_list]. *)
Definition add_role (name : list Z) (service_class : Z) (c : client) : Z * client :=
  let p := jd_alloc (live_blocks c) in
  let '(hint, off) := role_hint name in
  let r := {| r_ptr := p; r_name := name; r_class := service_class; hidden := false;
              hint_dev := hint; hint_srvo := off; r_service := None |} in
  let m := set_roles (rm c) (insert_role r (roles (rm c))) in
  (p, set_rm c (set_changed m true)).

Definition remove_role (role : Z) (c : client) : outcome client :=
  c ← LOCK c;
  c ← rolemgr_set c role None;
  c ← UNLOCK c;
  if decide (role ∈ role_ptrs c)
  then Ret (set_rm c (set_roles (rm c) (filter (fun r => r_ptr r <> role) (roles (rm c)))))
  else Panic.

Definition remove_all_roles (c : client) : outcome client :=
  c ← LOCK c;
  c ← for_roles (role_ptrs c) clear_role c;
  c ← UNLOCK c;
  let c := fold_left (fun c r => match r_service r with Some s => unassign_flag c s | None => c end)
             (roles (rm c)) c in
  Ret (set_rm c (set_changed (set_roles (rm c) []) true)).

Definition jd_role_alloc (name : list Z) (service_class : Z) (st : sys client) : outcome (Z * sys client) :=
  if negb (rm_state (rm (sy_app st))) then Panic
  else match rolemgr_lookup (sy_app st) name (zlen name) with
  | Some _ => Panic
  | None =>
      st ← stop_list st;
      let '(p, c) := add_role name service_class (sy_app st) in
      Ret (p, set_app st c)
  end.

(** [role] is not [NULL]. *)
Definition jd_role_free (role : Z) (st : sys client) : outcome (sys client) :=
  st ← stop_list st; on_client (remove_role role) st.

Definition jd_role_free_all (st : sys client) : outcome (sys client) :=
  st ← stop_list st; on_client remove_all_roles st.

Definition rolemgr_serialized_role_size (r : role) : Z := zlen (roles_header 0 0 0) + zlen (r_name r).

(** An unbound role has device 0. *)
Definition rolemgr_serialize_role (c : client) (r : role) : list Z :=
  match r_service r with
  | Some s =>
      let id := match device_at c (jd_service_parent s) with Some d => device_identifier d | None => 0 end in
      roles_header id (snd s) (r_class r) ++ r_name r
  | None => roles_header 0 0 (r_class r) ++ r_name r
  end.

(** The first role of a list that is not hidden. *)
Definition next_visible (rs : list role) : option Z :=
  (fun '(_, r) => r_ptr r) <$> list_find (fun r => hidden r = false) rs.

(** [r->_next] and what follows it. *)
Fixpoint roles_after (p : Z) (rs : list role) : list role :=
  match rs with
  | [] => []
  | r :: rs => if r_ptr r =? p then rs else roles_after p rs
  end.

Fixpoint list_loop (fuel : nat) (st : sys client) : outcome (sys client) :=
  match fuel with
  | O => OutOfFuel
  | S fuel =>
      let c := sy_app st in
      let t := now (sy_clock st) in
      let pipe := list_pipe (rm c) in
      match list_ptr (rm c) with
      | None => Ret st
      | Some p =>
          match role_at c p with
          | None => Panic
          | Some r =>
              let sz := rolemgr_serialized_role_size r in
              '(err, d) ← jd_opipe_check_space t (opd (sy_op st) pipe) sz;
              let st := set_op st (set_opd (sy_op st) pipe d) in
              if err =? JD_PIPE_TRY_AGAIN then Ret st
              else if negb (err =? 0) then close_list_pipe (set_list st None)
              else
                '(err, d) ← jd_opipe_write t d (rolemgr_serialize_role c r) sz;
                JD_ASSERT err =? 0 ;;
                let st := set_op st (set_opd (sy_op st) pipe d) in
                let st := set_list st (next_visible (roles_after p (roles (rm c)))) in
                st ← (if decide (list_ptr (rm (sy_app st)) = None) then close_list_pipe st else Ret st);
                list_loop fuel st
          end
      end
  end.

(** Each turn of the loop but the last moves [list_ptr] on. *)
Definition rolemgr_process (st : sys client) : outcome (sys client) :=
  st ← list_loop (S (S (length (roles (rm (sy_app st)))))) st;
  let t := now (sy_clock st) in
  let m := rm (sy_app st) in
  let '(due, na) := jd_should_sample t (next_autobind m) (AUTOBIND_MS * 1000) in
  let st := set_app st (set_rm (sy_app st) (set_timers m na (changed_timeout m))) in
  st ← (if due then on_client (rolemgr_autobind self) st else Ret st);
  let m := rm (sy_app st) in
  let '(due, ct) := jd_should_sample t (changed_timeout m) (50 * 1000) in
  let st := set_app st (set_rm (sy_app st) (set_timers m (next_autobind m) ct)) in
  if due && changed m then
    let st := set_app st (set_rm (sy_app st) (set_changed (rm (sy_app st)) false)) in
    '(ev, tx) ← jd_send_event_ext (H := txrx_sender self) t false (sy_ev st) (sy_tx st)
                  (get8 (rm_common m) 4) JD_EV_CHANGE [] 0;
    Ret (set_tx (set_ev st ev) tx)
  else Ret st.

Definition rolemgr_set_role (pkt : list Z) (c : client) : outcome client :=
  let cmd := drop 16 pkt in
  let name_len := p_service_size pkt - sizeof_set_role in
  match rolemgr_lookup c (drop (Z.to_nat sizeof_set_role) cmd) name_len with
  | None => Ret c
  | Some r =>
      if set_role_device_id cmd =? 0 then rolemgr_set c (r_ptr r) None
      else match jd_device_get_service (jd_device_lookup c (set_role_device_id cmd)) (set_role_service_idx cmd) with
      | Some s => rolemgr_set c (r_ptr r) (Some s)
      | None => Ret c
      end
  end.

Definition rolemgr_regs : list Z :=
  [JD_REG_ JD_REG_BYTES JD_REG_PADDING; JD_PTRSIZE + 2; JD_REG_ 1 JD_ROLE_MANAGER_REG_AUTO_BIND;
   JD_REG_ 1 JD_ROLE_MANAGER_REG_ALL_ROLES_ALLOCATED; JD_REG_END].

Definition rolemgr_handle_packet (pkt : list Z) (st : sys client) : outcome (sys client) :=
  JD_ASSERT negb (locked (rm (sy_app st))) ;;
  let cmd := p_service_command pkt in
  if cmd =? JD_ROLE_MANAGER_CMD_CLEAR_ALL_ROLES then
    on_client (fun c => for_roles (role_ptrs c) clear_role c) st
  else if cmd =? JD_ROLE_MANAGER_CMD_SET_ROLE then on_client (rolemgr_set_role pkt) st
  else if cmd =? JD_ROLE_MANAGER_CMD_LIST_ROLES then
    '(r, op) ← jd_opipe_open_cmd false (sy_op st) (list_pipe (rm (sy_app st))) pkt;
    let st := set_op st op in
    if r =? 0 then
      let st := set_list st (next_visible (roles (rm (sy_app st)))) in
      if decide (list_ptr (rm (sy_app st)) = None) then close_list_pipe st else Ret st
    else Ret st
  else
    let st := set_app st (rolemgr_update_allocated (sy_app st)) in
    let m := rm (sy_app st) in
    '(_, bytes, st) ← service_handle_register_final
        (rm_common m ++ [auto_bind_enabled m; all_roles_allocated m]) pkt rolemgr_regs st;
    Ret (set_app st (set_rm (sy_app st)
           (set_regs (rm (sy_app st)) (take 6 bytes) (get8 bytes 6) (get8 bytes 7)))).

Definition rolemgr_srv (cls : Z) : srv client :=
  {| srv_class := cls; srv_handle := rolemgr_handle_packet; srv_process := rolemgr_process |}.
End Service.

(** ** What binding changes

    Services' flags and roles' services, and nothing else of the lists. *)

Definition dev_core (d : device) : device := set_services d (map (fun s => set_sv_flags s 0) (services d)).
Definition role_core (r : role) : role := set_r_service r None.

Record rm_frame (c c' : client) : Prop := {
  rf_dev : map dev_core (jd_devices c') = map dev_core (jd_devices c);
  rf_roles : map role_core (roles (rm c')) = map role_core (roles (rm c));
  rf_scope : event_scope c' = event_scope c;
  rf_locked : locked (rm c') = locked (rm c);
  rf_state : rm_state (rm c') = rm_state (rm c);
  rf_hints : force_hints (rm c') = force_hints (rm c);
}.

Lemma rm_frame_refl c : rm_frame c c.
Proof. done. Qed.

Lemma rm_frame_trans c1 c2 c3 : rm_frame c1 c2 -> rm_frame c2 c3 -> rm_frame c1 c3.
Proof. intros [] []. constructor; congruence. Qed.

(** A property of devices that ignores flags. *)
Lemma frame_devices c c' d : map dev_core (jd_devices c') = map dev_core (jd_devices c) -> d ∈ jd_devices c ->
  exists d', d' ∈ jd_devices c' /\ dev_core d' = dev_core d.
Proof.
  intros Heq Hd. assert (dev_core d ∈ map dev_core (jd_devices c')) as (d' & ? & ?)%list_elem_of_fmap.
  { rewrite Heq. by apply list_elem_of_fmap_2. }
  by exists d'.
Qed.

Lemma core_fields d d' : dev_core d' = dev_core d ->
  d_ptr d' = d_ptr d /\ device_identifier d' = device_identifier d /\ num_services d' = num_services d /\
  length (services d') = length (services d) /\ expires d' = expires d.
Proof.
  intros Hc. split_and!.
  - exact (f_equal d_ptr Hc).
  - exact (f_equal device_identifier Hc).
  - exact (f_equal num_services Hc).
  - apply (f_equal (length ∘ services)) in Hc. cbn in Hc. by rewrite !length_map in Hc.
  - exact (f_equal expires Hc).
Qed.

Lemma map_core {A B} (f : A -> B) (g : A -> A) (l l' : list A) : (forall x, f (g x) = f x) ->
  map g l' = map g l -> map f l' = map f l.
Proof.
  intros Hf Hg. apply (f_equal (map f)) in Hg. rewrite !map_map in Hg.
  etrans; [|etrans; [exact Hg|]]; [symmetry|]; by apply map_ext.
Qed.

Lemma frame_ptrs c c' : rm_frame c c' -> role_ptrs c' = role_ptrs c.
Proof. intros Hf. eapply (map_core r_ptr role_core); [done|apply Hf]. Qed.

Lemma upd_service_core c s f : (forall v, set_sv_flags (f v) 0 = set_sv_flags v 0) ->
  map dev_core (jd_devices (upd_service c s f)) = map dev_core (jd_devices c).
Proof.
  intros Hf. unfold upd_service, upd_device. cbn. rewrite map_map. apply map_ext. intros d.
  case_match; [|done]. unfold dev_core, set_services. cbn. f_equal. apply list_eq. intros i. change (map ?g ?l) with (g <$> l). rewrite !list_lookup_fmap.
  destruct (decide (i = Z.to_nat (snd s))) as [->|].
  - rewrite list_lookup_alter_eq. destruct (services d !! _); cbn; [by rewrite Hf|done].
  - by rewrite list_lookup_alter_ne.
Qed.

Lemma unassign_frame c s : rm_frame c (unassign_flag c s).
Proof. constructor; try done. by apply upd_service_core. Qed.

Lemma assign_frame c s : rm_frame c (assign_flag c s).
Proof. constructor; try done. by apply upd_service_core. Qed.

Definition bind_in (p : Z) (s : option sptr) (rs : list role) : list role :=
  map (fun r => if r_ptr r =? p then set_r_service r s else r) rs.

Lemma bind_in_same p rs r : NoDup (map r_ptr rs) -> r ∈ rs -> r_ptr r = p -> bind_in p (r_service r) rs = rs.
Proof.
  intros Hnd Hr Hp. unfold bind_in. rewrite <- (map_id rs) at 2. apply map_ext_in. intros x Hx%list_elem_of_In.
  case_cmp; [|done]. assert (x = r) as ->.
  { pose proof (find_ptr_in r_ptr rs x Hnd Hx) as E1. pose proof (find_ptr_in r_ptr rs r Hnd Hr) as E2.
    rewrite <- Hp in e. rewrite e in E1. congruence. }
  by destruct r.
Qed.

(** The state after a role is bound, or unbound, but for the trace. *)
Definition bound_state (c : client) (r : role) (s : option sptr) : client :=
  let c := match r_service r with Some s => unassign_flag c s | None => c end in
  match s with Some s => assign_flag c s | None => c end.

Lemma rolemgr_set_spec c p s : event_scope c = 0 -> NoDup (role_ptrs c) -> p ∈ role_ptrs c ->
  exists c', rolemgr_set c p s = Ret c' /\ rm_frame c c' /\ roles (rm c') = bind_in p s (roles (rm c)) /\
    exists r, role_at c p = Some r /\ (r_service r = s /\ c' = c \/
      r_service r <> s /\ jd_devices c' = jd_devices (bound_state c r s)).
Proof.
  intros Hs Hnd Hp. destruct (role_at_in _ _ Hp) as [r Hr]. pose proof (role_at_spec _ _ _ Hr) as [Hin Hptr].
  unfold rolemgr_set. rewrite Hr. case_decide as Hd.
  - subst s. exists c. split_and!; [done|apply rm_frame_refl| |].
    + symmetry. by apply bind_in_same.
    + eauto.
  - change (let c := match r_service r with Some s0 => unassign_flag c s0 | None => c end in
            match s with Some s => assign_flag c s | None => c end) with (bound_state c r s).
    assert (rm_frame c (bound_state c r s) /\ rm (bound_state c r s) = rm c) as [Hf Hrm].
    { unfold bound_state. split; [|by destruct (r_service r), s].
      eapply rm_frame_trans; [|destruct s; [apply assign_frame|apply rm_frame_refl]].
      destruct (r_service r); [apply unassign_frame|apply rm_frame_refl]. }
    cbv zeta. fold (bound_state c r s). eexists. split; [apply role_changed_spec; cbn; by rewrite (rf_scope _ _ Hf)|].
    split_and!.
    + destruct Hf. constructor; cbn; try done; rewrite ?Hrm; try done.
      change (map role_core (bind_in p s (roles (rm c))) = map role_core (roles (rm c))).
      unfold bind_in. rewrite map_map. apply map_ext. intros x. by case_match.
    + cbn. by rewrite Hrm.
    + exists r. split; [done|]. right. by split.
Qed.

(** A pass over the roles: [P] holds of the roles passed so far. *)
Lemma for_roles_ind (P : list Z -> client -> Prop) f ps : forall done c,
  (forall done p rest c, done ++ p :: rest = ps -> P done c -> exists r c',
     role_at c p = Some r /\ f r c = Ret c' /\ P (done ++ [p]) c') ->
  forall rest, done ++ rest = ps -> P done c -> exists c', for_roles rest f c = Ret c' /\ P ps c'.
Proof.
  intros done c Hstep rest. revert done c.
  induction rest as [|p rest IH]; intros done c <- HP; cbn [for_roles].
  - exists c. rewrite app_nil_r in *. done.
  - destruct (Hstep done p rest c eq_refl HP) as (r & c1 & -> & E & HP1). obind. rewrite E. obind.
    apply (IH (done ++ [p])); [by rewrite <- app_assoc|done].
Qed.

(** ** No role is left with a service that is gone *)

(** A pointer to a service of a device in the list. *)
Definition valid_sptr (c : client) (s : sptr) : Prop :=
  exists d, d ∈ jd_devices c /\ d_ptr d = fst s /\ 0 <= snd s < num_services d.

Definition bound_ok (P : sptr -> Prop) (c : client) : Prop :=
  forall r s, r ∈ roles (rm c) -> r_service r = Some s -> P s.

Lemma valid_frame c c' s : map dev_core (jd_devices c') = map dev_core (jd_devices c) ->
  valid_sptr c s -> valid_sptr c' s.
Proof.
  intros Hf (d & Hd & Hp & Hi). destruct (frame_devices c c' d Hf Hd) as (d' & Hd' & Hc).
  apply core_fields in Hc as (Ep & _ & En & _). exists d'. by rewrite Ep, En.
Qed.

(** Between the operations, and with the lock held or not. *)
Record rm_ready (c : client) : Prop := {
  rr_scope : event_scope c = 0;
  rr_state : rm_state (rm c) = true;
  rr_ptrs : NoDup (role_ptrs c);
}.

Lemma ready_frame c c' : rm_frame c c' -> rm_ready c -> rm_ready c'.
Proof.
  intros Hf []. constructor; [by rewrite (rf_scope _ _ Hf)|by rewrite (rf_state _ _ Hf)|].
  by rewrite (frame_ptrs _ _ Hf).
Qed.

Lemma set_bound (P : sptr -> Prop) c p s : rm_ready c -> p ∈ role_ptrs c -> bound_ok P c ->
  (forall s', s = Some s' -> P s') ->
  exists c', rolemgr_set c p s = Ret c' /\ rm_frame c c' /\ bound_ok P c'.
Proof.
  intros Hr Hp Hb Hs. destruct (rolemgr_set_spec c p s) as (c' & E & Hf & Hro & _); [apply Hr|apply Hr|done|].
  exists c'. split_and!; [done..|]. intros r s' Hin Hsv. rewrite Hro in Hin.
  apply list_elem_of_fmap in Hin as (x & -> & Hx). case_match; cbn in Hsv; eauto.
Qed.

(** One turn of a loop over the roles that keeps [P]. *)
Definition turn_ok (P : sptr -> Prop) (c0 : client) (f : role -> client -> outcome client) : Prop :=
  forall r c, rm_frame c0 c -> bound_ok P c -> r ∈ roles (rm c) ->
    exists c', f r c = Ret c' /\ rm_frame c c' /\ bound_ok P c'.

Lemma for_roles_ok P c0 c f : rm_frame c0 c -> rm_ready c -> bound_ok P c -> turn_ok P c0 f ->
  exists c', for_roles (role_ptrs c) f c = Ret c' /\ rm_frame c c' /\ bound_ok P c'.
Proof.
  intros Hf0 Hr Hb Ht.
  destruct (for_roles_ind (fun _ c' => rm_frame c c' /\ bound_ok P c') f (role_ptrs c) [] c) with (rest := role_ptrs c)
    as (c' & E & ? & ?); [|done|by split|by exists c'].
  intros done p rest c1 Hps [Hf Hb1].
  destruct (role_at_in c1 p) as [r Hat].
  { fold (role_ptrs c1). rewrite (frame_ptrs _ _ Hf), <- Hps. apply elem_of_app. right. by left. }
  pose proof (role_at_spec _ _ _ Hat) as [Hin Hptr].
  destruct (Ht r c1) as (c2 & E & Hf2 & Hb2); [by eapply rm_frame_trans|done|done|].
  exists r, c2. split_and!; [done..|by eapply rm_frame_trans|done].
Qed.

Lemma in_ptrs c r : r ∈ roles (rm c) -> r_ptr r ∈ role_ptrs c.
Proof. intros. by apply list_elem_of_fmap_2. Qed.

Lemma turn_set P c0 r c s : rm_ready c0 -> rm_frame c0 c -> bound_ok P c -> r ∈ roles (rm c) ->
  (forall s', s = Some s' -> P s') ->
  exists c', rolemgr_set c (r_ptr r) s = Ret c' /\ rm_frame c c' /\ bound_ok P c'.
Proof. intros Hr Hf Hb Hin Hs. apply set_bound; eauto using ready_frame, in_ptrs. Qed.

Lemma clear_role_ok P c0 : rm_ready c0 -> turn_ok P c0 clear_role.
Proof. intros Hr r c Hf Hb Hin. by apply (turn_set P c0). Qed.

Lemma hint_loop_spec svs cls off : forall i j s, hint_loop svs cls off i = Some (j, s) ->
  i <= j < i + zlen svs /\ svs !! Z.to_nat (j - i) = Some s /\ service_class s = cls.
Proof.
  revert off. unfold zlen. induction svs as [|x svs IH]; intros off i j s; cbn [hint_loop length]; [done|].
  destruct (Z.eqb_spec (service_class x) cls); cbn [negb].
  - destruct (off =? 0).
    + intros [= <- <-]. split_and!; try lia. by rewrite Z.sub_diag.
    + intros (? & Hl & ?)%IH. split_and!; try lia.
      replace (Z.to_nat (j - i)) with (S (Z.to_nat (j - (i + 1)))) by lia. done.
  - intros (? & Hl & ?)%IH. split_and!; try lia.
    replace (Z.to_nat (j - i)) with (S (Z.to_nat (j - (i + 1)))) by lia. done.
Qed.

Lemma zlen_take_le {A} (l : list A) n : zlen (take (Z.to_nat n) l) <= Z.max 0 n.
Proof. unfold zlen. rewrite length_take. lia. Qed.

(** What a hint finds: a service of the role's class that no role has. *)
Lemma use_hint_set self r c : exists o, rolemgr_use_hint self r c = match o with Some s => rolemgr_set c (r_ptr r) (Some s) | None => Ret c end /\
  forall s, o = Some s -> r_service r = None /\ exists d sv, d ∈ jd_devices c /\ s.1 = d_ptr d /\ 0 <= s.2 < num_services d /\
    services d !! Z.to_nat s.2 = Some sv /\ service_class sv = r_class r /\ is_assigned sv = false.
Proof.
  unfold rolemgr_use_hint. destruct (r_service r) eqn:Hr; [by exists None|].
  rewrite bool_decide_false by (by intros []). cbn [orb].
  destruct (_ =? 0); [by exists None|]. cbv zeta.
  destruct (_ =? 0); [by exists None|].
  destruct (jd_device_lookup _ _) as [d|] eqn:Hd; [|by exists None].
  destruct (hint_loop _ _ _ _) as [[i s]|] eqn:Hh; [|by exists None].
  destruct (is_assigned s) eqn:Ha; cbn [negb]; [by exists None|].
  exists (Some (d_ptr d, i)). split; [done|]. intros ? [= <-]. split; [done|]. cbn.
  apply device_lookup_spec in Hd as [Hin _]. apply hint_loop_spec in Hh as (Hi & Hl & Hc).
  pose proof (zlen_take_le (services d) (num_services d)). apply lookup_take_Some in Hl as [Hl ?].
  exists d, s. rewrite Z.sub_0_r in Hl. split_and!; try done; lia.
Qed.

Lemma free_service_spec ds cls s : free_service ds cls = Some s -> exists d sv, d ∈ ds /\ s.1 = d_ptr d /\
  1 <= s.2 < num_services d /\ services d !! Z.to_nat s.2 = Some sv /\ service_class sv = cls /\ is_assigned sv = false.
Proof.
  induction ds as [|d ds IH]; cbn [free_service]; [done|].
  destruct (free_in cls d) as [s'|] eqn:Hf.
  - intros [= <-]. unfold free_in in Hf. destruct (list_find _ _) as [[i sv]|] eqn:E; [|done]. injection Hf as <-.
    apply list_find_Some in E as (Hl & (Hc & Ha) & _). rewrite lookup_drop in Hl. apply lookup_take_Some in Hl as [Hl Hi].
    exists d, sv. cbn. split_and!; try done; try lia; [by left|]. rewrite <- Hl. f_equal. lia.
  - intros (d' & sv & ? & ?)%IH. exists d', sv. split; [by right|done].
Qed.

Lemma bind_role_set r c : exists o, bind_role r c = match o with Some s => rolemgr_set c (r_ptr r) (Some s) | None => Ret c end /\
  (forall s, o = Some s -> r_service r = None /\ free_service (jd_devices c) (r_class r) = Some s) /\
  (o = None -> is_Some (r_service r) \/ hint_dev r <> 0 /\ force_hints (rm c) = true \/ free_service (jd_devices c) (r_class r) = None).
Proof.
  unfold bind_role. destruct (r_service r) eqn:Hr.
  { exists None. split_and!; [done|done|eauto]. }
  rewrite bool_decide_false by (by intros []). cbn [orb].
  destruct (negb _ && _) eqn:Hh.
  { exists None. split_and!; [done|done|]. bool_to_prop. eauto. }
  destruct (free_service _ _) as [s|] eqn:Hf; [exists (Some s)|exists None]; (split_and!; [done| |]);
    [by intros ? [= <-]|done|done|eauto].
Qed.

Definition with_lock (b : bool) (c : client) : client := set_rm c (set_locked (rm c) b).

Lemma locked_section c (f : client -> outcome client) c2 :
  rm_state (rm c) = true -> locked (rm c) = false ->
  f (with_lock true c) = Ret c2 -> rm_frame (with_lock true c) c2 ->
  (c ← LOCK c; c ← f c; UNLOCK c) = Ret (with_lock false c2) /\ rm_frame c (with_lock false c2).
Proof.
  intros Hs Hl E Hf. unfold LOCK, UNLOCK. rewrite Hs, Hl. cbn [negb]. obind.
  fold (with_lock true c). rewrite E. obind. rewrite (rf_locked _ _ Hf). split; [done|].
  destruct Hf; constructor; cbn in *; try done.
Qed.

Lemma lock_ready b c : rm_ready c -> rm_ready (with_lock b c).
Proof. intros []. by constructor. Qed.

Lemma autobind_turns self P c c1 : rm_frame c c1 -> rm_ready c1 ->
  (forall s, valid_sptr c s -> P s) -> turn_ok P c1 (rolemgr_use_hint self) /\ turn_ok P c1 bind_role.
Proof.
  intros Hf0 Hr0 HP.
  assert (forall c', rm_frame c1 c' -> forall d s, d ∈ jd_devices c' -> s.1 = d_ptr d -> 0 <= s.2 < num_services d -> P s) as HP'.
  { intros c' Hf d s Hd Hp Hi. apply HP. eapply valid_frame; [|by exists d].
    symmetry. apply (rm_frame_trans _ _ _ Hf0 Hf). }
  split; intros r c' Hf Hb Hin.
  - destruct (use_hint_set self r c') as (o & -> & Ho).
    destruct o as [s|]; [|by exists c'; split_and!; [..|apply rm_frame_refl|]].
    apply (turn_set P c1); try done. intros s' [= <-].
    destruct (Ho s eq_refl) as (_ & d & sv & ? & ? & ? & _). eauto.
  - destruct (bind_role_set r c') as (o & -> & Ho & _).
    destruct o as [s|]; [|by exists c'; split_and!; [..|apply rm_frame_refl|]].
    apply (turn_set P c1); try done. intros s' [= <-].
    destruct (Ho s eq_refl) as (_ & Hfree). apply free_service_spec in Hfree as (d & sv & ? & ? & ? & _).
    eapply HP'; eauto. lia.
Qed.

Lemma autobind_ok self P c : rm_ready c -> locked (rm c) = false -> bound_ok P c ->
  (forall s, valid_sptr c s -> P s) ->
  exists c', rolemgr_autobind self c = Ret c' /\ rm_frame c c' /\ bound_ok P c'.
Proof.
  intros Hr Hl Hb HP. unfold rolemgr_autobind.
  destruct (_ =? 0); [by exists c; split_and!; [|apply rm_frame_refl|]|].
  set (c1 := with_lock true c). assert (rm_ready c1) as Hr1 by by apply lock_ready.
  destruct (autobind_turns self P c1 c1 (rm_frame_refl _) Hr1) as [Ht1 _]; [done|].
  destruct (for_roles_ok P c1 c1 _ (rm_frame_refl _) Hr1 Hb Ht1) as (c2 & E2 & Hf2 & Hb2).
  destruct (autobind_turns self P c1 c2 Hf2 (ready_frame _ _ Hf2 Hr1)) as [_ Ht2]; [done|].
  destruct (for_roles_ok P c2 c2 _ (rm_frame_refl _) (ready_frame _ _ Hf2 Hr1) Hb2 Ht2) as (c3 & E3 & Hf3 & Hb3).
  assert (rm_frame c1 c3) as Hf by by eapply rm_frame_trans.
  destruct (locked_section c (fun _ => Ret c3) c3) as [E Hf']; [apply Hr|done..|].
  exists (with_lock false c3). split_and!; [|done|done].
  unfold LOCK in *. rewrite (rr_state _ Hr), Hl in *. cbn [negb] in *. obind. fold (with_lock true c) c1.
  rewrite E2. obind. rewrite E3. exact E.
Qed.

(** All roles bound to device [dev] are unbound. *)
Lemma device_destroyed_ok P c dev : rm_ready c -> locked (rm c) = false -> bound_ok P c ->
  exists c', rolemgr_device_destroyed c dev = Ret c' /\ rm_frame c c' /\
    bound_ok (fun s => P s /\ fst s <> dev) c'.
Proof.
  intros Hr Hl Hb. unfold rolemgr_device_destroyed.
  set (f := fun r c => _). set (c1 := with_lock true c).
  assert (rm_ready c1) as Hr1 by by apply lock_ready.
  destruct (for_roles_ind (fun done c' => rm_frame c1 c' /\
      forall r s, r ∈ roles (rm c') -> r_service r = Some s -> P s /\ (r_ptr r ∈ done -> fst s <> dev)) f (role_ptrs c1) [] c1)
    with (rest := role_ptrs c1) as (c2 & E2 & Hf2 & Hb2); [|done| |].
  - intros done p rest c' Hps [Hf Hb'].
    destruct (role_at_in c' p) as [r Hat].
    { fold (role_ptrs c'). rewrite (frame_ptrs _ _ Hf), <- Hps. apply elem_of_app. right. by left. }
    pose proof (role_at_spec _ _ _ Hat) as [Hin Hptr]. pose proof (ready_frame _ _ Hf Hr1) as Hr'.
    destruct (decide (fst <$> r_service r = Some dev)) as [(s & Hs & Hd)%fmap_Some|Hno].
    + destruct (rolemgr_set_spec c' p None) as (c2 & E & Hf2 & Hro & _); [apply Hr'|apply Hr'|subst p; by apply in_ptrs|].
      exists r, c2. split_and!; [done| |by eapply rm_frame_trans|].
      * unfold f. rewrite Hs. unfold jd_service_parent. rewrite (proj2 (Z.eqb_eq _ _)), Hptr by done. done.
      * intros r' s' Hin' Hs'. rewrite Hro in Hin'. apply list_elem_of_fmap in Hin' as (x & -> & Hx).
        destruct (Z.eqb_spec (r_ptr x) p) as [Hxp|Hne]; cbn in Hs'; [done|].
        destruct (Hb' _ _ Hx Hs') as [HP Hdn]. split; [done|]. intros [?|[?|[]%elem_of_nil]%elem_of_cons]%elem_of_app; auto.
    + exists r, c'. split_and!; [done| |done|].
      * unfold f. destruct (r_service r) as [s|] eqn:Hs; [|done]. unfold jd_service_parent.
        rewrite (proj2 (Z.eqb_neq _ _)); [done|]. intros ?. apply Hno. cbn. by f_equal.
      * intros r' s' Hin' Hs'. destruct (Hb' _ _ Hin' Hs') as [HP Hdn]. split; [done|].
        intros [?|[Heq|[]%elem_of_nil]%elem_of_cons]%elem_of_app; auto.
        assert (r' = r) as <-; [|intros ?; apply Hno; rewrite Hs'; cbn; by f_equal].
        pose proof (role_at_of c' r' (rr_ptrs _ Hr') Hin') as E. rewrite Heq in E. congruence.
  - split; [apply rm_frame_refl|]. intros r s Hin Hs. split; [by eapply Hb|by intros ?%elem_of_nil].
  - destruct (locked_section c (fun c => for_roles (role_ptrs c) f c) c2) as [E Hf]; [apply Hr|done|done|done|].
    exists (with_lock false c2). split_and!; [done|done|]. intros r s Hin Hs.
    destruct (Hb2 r s Hin Hs) as [HP Hdn]. split; [done|]. apply Hdn.
    rewrite <- (frame_ptrs _ _ Hf2). by apply in_ptrs.
Qed.

(** ** Automatic binding is exclusive and leaves no role out *)

Definition taken (c : client) (s : sptr) : Prop := exists r, r ∈ roles (rm c) /\ r_service r = Some s.

(** The flags say which services a role has; no two roles have the same one. *)
Record consistent (c : client) : Prop := {
  cs_devs : NoDup (map d_ptr (jd_devices c));
  cs_flag : forall d i sv, d ∈ jd_devices c -> services d !! i = Some sv ->
    is_assigned sv = true <-> taken c (d_ptr d, Z.of_nat i);
  cs_inj : forall r1 r2 s, r1 ∈ roles (rm c) -> r2 ∈ roles (rm c) ->
    r_service r1 = Some s -> r_service r2 = Some s -> r1 = r2;
}.

Definition keeps (c c' : client) : Prop := forall r s, r ∈ roles (rm c) -> r_service r = Some s ->
  exists r', r' ∈ roles (rm c') /\ r_ptr r' = r_ptr r /\ r_service r' = Some s.

(** All services of class [cls] from number 1 have a role. *)
Definition no_free (c : client) (cls : Z) : Prop := forall d i sv, d ∈ jd_devices c -> services d !! i = Some sv ->
  1 <= Z.of_nat i < num_services d -> service_class sv = cls -> is_assigned sv = true.

Lemma lor_assigned v : is_assigned (set_sv_flags v (Z.lor (sv_flags v) JD_DEVICE_SERVICE_FLAG_ROLE_ASSIGNED)) = true.
Proof.
  unfold is_assigned, has_flag, JD_DEVICE_SERVICE_FLAG_ROLE_ASSIGNED. cbn [sv_flags set_sv_flags].
  apply negb_true_iff, Z.eqb_neq. intros E. apply (f_equal (fun x => Z.testbit x 0)) in E.
  rewrite Z.land_spec, Z.lor_spec in E. cbn in E. by rewrite orb_true_r in E.
Qed.

Lemma assign_lookup c s d' i sv' : d' ∈ jd_devices (assign_flag c s) -> services d' !! i = Some sv' ->
  exists d sv, d ∈ jd_devices c /\ d_ptr d = d_ptr d' /\ services d !! i = Some sv /\
    if decide (s.1 = d_ptr d /\ Z.to_nat s.2 = i) then is_assigned sv' = true else sv' = sv.
Proof.
  unfold assign_flag, upd_service, upd_device. cbn. intros (d & -> & Hd)%list_elem_of_fmap Hl.
  exists d. destruct (Z.eqb_spec (d_ptr d) (fst s)) as [Heq|Hne]; cbn in Hl.
  - destruct (decide (i = Z.to_nat (snd s))) as [->|Hi].
    + rewrite list_lookup_alter_eq in Hl. apply fmap_Some in Hl as (sv & Hs & ->). exists sv.
      split_and!; try done. rewrite decide_True by done. apply lor_assigned.
    + rewrite list_lookup_alter_ne in Hl by done. exists sv'. split_and!; try done. rewrite decide_False; [done|naive_solver].
  - exists sv'. split_and!; try done. rewrite decide_False; [done|naive_solver].
Qed.

Lemma bind_free_step c p r s d sv : rm_ready c -> consistent c -> role_at c p = Some r -> r_service r = None ->
  d ∈ jd_devices c -> s.1 = d_ptr d -> 0 <= s.2 -> services d !! Z.to_nat s.2 = Some sv -> is_assigned sv = false ->
  exists c', rolemgr_set c p (Some s) = Ret c' /\ rm_frame c c' /\ consistent c' /\ keeps c c' /\
    roles (rm c') = bind_in p (Some s) (roles (rm c)).
Proof.
  intros Hr [Hnd Hfl Hinj] Hat Hn Hd Hs1 Hs2 Hl Ha.
  pose proof (role_at_spec _ _ _ Hat) as [Hin Hptr].
  destruct (rolemgr_set_spec c p (Some s)) as (c' & E & Hf & Hro & r0 & Hat0 & Hcase);
    [apply Hr|apply Hr|subst p; by apply in_ptrs|].
  rewrite Hat in Hat0. injection Hat0 as <-. destruct Hcase as [[? _]|[_ Hdev]]; [congruence|].
  unfold bound_state in Hdev. rewrite Hn in Hdev.
  assert (~ taken c s) as Hfree.
  { intros Ht. destruct s as [s1 s2]. cbn in Hs1, Hs2, Hl. subst s1.
    rewrite <- (Z2Nat.id s2) in Ht by lia. apply (Hfl d _ sv) in Ht; [congruence|done..]. }
  assert (forall x, x ∈ roles (rm c) -> r_ptr x = p -> x = r) as Huniq.
  { intros x Hx <-. pose proof (role_at_of c x (rr_ptrs _ Hr) Hx). congruence. }
  assert (forall s', taken c' s' <-> s' = s \/ taken c s') as Ht.
  { intros s'. unfold taken. rewrite Hro. split.
    - intros (x' & (x & -> & Hx)%list_elem_of_fmap & Hs'). case_match; cbn in Hs'; [left; congruence|right; by exists x].
    - intros [->|(x & Hx & Hs')].
      + exists (set_r_service r (Some s)). split; [|done]. apply list_elem_of_fmap. exists r. split; [|done].
        by rewrite (proj2 (Z.eqb_eq _ _)).
      + exists x. split; [|done]. apply list_elem_of_fmap. exists x. split; [|done].
        destruct (Z.eqb_spec (r_ptr x) p) as [Hp|]; [|done]. apply Huniq in Hp; [|done]. congruence. }
  exists c'. split_and!; [done|done| | |done].
  - constructor.
    + rewrite (map_core d_ptr dev_core (jd_devices c)); [done|done|apply Hf].
    + intros d' i sv' Hd' Hl'. rewrite Ht. rewrite Hdev in Hd'.
      destruct (assign_lookup _ _ _ _ _ Hd' Hl') as (d0 & sv0 & Hd0 & Hp0 & Hl0 & Hc). case_decide as Hdc.
      * destruct Hdc as [H1 H2]. split; [intros _; left|done]. rewrite <- Hp0, <- H1, <- H2, Z2Nat.id by done. by destruct s.
      * subst sv'. rewrite <- Hp0, (Hfl d0 i sv0) by done. split; [by right|]. intros [<-|?]; [|done].
        destruct Hdc. cbn. split; [done|lia].
    + rewrite Hro. intros x1 x2 s' (y1 & -> & Hy1)%list_elem_of_fmap (y2 & -> & Hy2)%list_elem_of_fmap.
      destruct (Z.eqb_spec (r_ptr y1) p) as [H1|H1], (Z.eqb_spec (r_ptr y2) p) as [H2|H2]; cbn.
      * apply Huniq in H1, H2; [|done..]. by subst.
      * intros [= <-] ?. destruct Hfree. by exists y2.
      * intros ? [= <-]. destruct Hfree. by exists y1.
      * eauto.
  - intros x s' Hx Hs'. exists x. split_and!; [|done|done]. rewrite Hro. apply list_elem_of_fmap. exists x. split; [|done].
    destruct (Z.eqb_spec (r_ptr x) p) as [Hp|]; [|done]. apply Huniq in Hp; [|done]. congruence.
Qed.

Lemma core_service d d' i sv' : dev_core d = dev_core d' -> services d' !! i = Some sv' ->
  exists sv, services d !! i = Some sv /\ service_class sv = service_class sv'.
Proof.
  intros Hc Hl. apply (f_equal services) in Hc. cbn in Hc. apply (f_equal (fun l => l !! i)) in Hc.
  change (map ?g ?l) with (g <$> l) in Hc. rewrite !list_lookup_fmap, Hl in Hc.
  destruct (services d !! i) as [sv|]; [|done]. exists sv. split; [done|]. cbn in Hc. injection Hc. done.
Qed.

Lemma keeps_taken c c' s : keeps c c' -> taken c s -> taken c' s.
Proof. intros Hk (r & Hr & Hs). destruct (Hk r s Hr Hs) as (r' & ? & _ & ?). by exists r'. Qed.

Lemma keeps_refl c : keeps c c.
Proof. intros r s ? ?. by exists r. Qed.

Lemma keeps_trans c1 c2 c3 : keeps c1 c2 -> keeps c2 c3 -> keeps c1 c3.
Proof.
  intros H1 H2 r s Hr Hs. destruct (H1 r s Hr Hs) as (r1 & Hr1 & Hp1 & Hs1).
  destruct (H2 r1 s Hr1 Hs1) as (r2 & ? & ? & ?). exists r2. split_and!; [done|congruence|done].
Qed.

Lemma no_free_mono c c' cls : rm_frame c c' -> consistent c -> consistent c' -> keeps c c' ->
  no_free c cls -> no_free c' cls.
Proof.
  intros Hf Hc Hc' Hk Hn d' i sv' Hd' Hl' Hi Hcls.
  destruct (frame_devices c' c d') as (d & Hd & Hcore); [symmetry; apply Hf|done|].
  destruct (core_service d d' i sv' Hcore Hl') as (sv & Hl & Hcl).
  apply core_fields in Hcore as (Ep & _ & En & _).
  apply (cs_flag _ Hc' d' i sv'); [done..|]. rewrite <- Ep. eapply keeps_taken; [done|].
  apply (cs_flag _ Hc d i sv); [done..|]. apply (Hn d i); [done..|lia|congruence].
Qed.

Lemma free_service_none ds cls : free_service ds cls = None -> forall d i sv, d ∈ ds -> services d !! i = Some sv ->
  1 <= Z.of_nat i < num_services d -> service_class sv = cls -> is_assigned sv = true.
Proof.
  induction ds as [|d0 ds IH]; cbn [free_service]; intros Hf d i sv Hd Hl Hi Hc; [by apply elem_of_nil in Hd|].
  destruct (free_in cls d0) eqn:E; [done|]. apply elem_of_cons in Hd as [->|Hd]; [|by eapply IH].
  unfold free_in in E. destruct (list_find _ _) as [[]|] eqn:El; [done|]. apply list_find_None in El.
  rewrite Forall_forall in El. apply not_false_iff_true. intros Ha. apply (El sv); [|done].
  apply list_elem_of_lookup. exists (i - 1)%nat. rewrite lookup_drop. replace (1 + (i - 1))%nat with i by lia.
  rewrite lookup_take_lt by lia. done.
Qed.

(** A service of class [cls]. *)
Definition class_at (c : client) (s : sptr) (cls : Z) : Prop := exists d sv, d ∈ jd_devices c /\ fst s = d_ptr d /\
  services d !! Z.to_nat (snd s) = Some sv /\ service_class sv = cls.

Lemma class_frame c c' s cls : rm_frame c c' -> class_at c s cls -> class_at c' s cls.
Proof.
  intros Hf (d & sv & Hd & Hp & Hl & Hc). destruct (frame_devices c c' d) as (d' & Hd' & Hcore); [apply Hf|done|].
  destruct (core_service d' d _ _ Hcore Hl) as (sv' & Hl' & Hc'). apply core_fields in Hcore as (Ep & _).
  exists d', sv'. rewrite Ep, Hc'. done.
Qed.

(** What automatic binding does to the bindings. *)
Record autobound (c c' : client) : Prop := {
  ab_frame : rm_frame c c';
  ab_consistent : consistent c';
  ab_keeps : keeps c c';
  ab_class : forall r s, r ∈ roles (rm c') -> r_service r = Some s ->
    (exists r0, r0 ∈ roles (rm c) /\ r_ptr r0 = r_ptr r /\ r_service r0 = Some s) \/ class_at c' s (r_class r);
}.

Lemma autobound_refl c : consistent c -> autobound c c.
Proof. intros. constructor; [apply rm_frame_refl|done|apply keeps_refl|]. intros r s ? ?. left. by exists r. Qed.

(** Binding one more role. *)
Lemma autobound_step c c1 r s d sv : rm_ready c -> autobound c c1 -> r ∈ roles (rm c1) -> r_service r = None ->
  d ∈ jd_devices c1 -> s.1 = d_ptr d -> 0 <= s.2 -> services d !! Z.to_nat s.2 = Some sv ->
  service_class sv = r_class r -> is_assigned sv = false ->
  exists c2, rolemgr_set c1 (r_ptr r) (Some s) = Ret c2 /\ autobound c c2 /\ keeps c1 c2 /\ rm_frame c1 c2 /\
    forall r', r' ∈ roles (rm c2) -> r_ptr r' = r_ptr r -> is_Some (r_service r').
Proof.
  intros Hr [Hf Hc Hk Hcl] Hin Hn Hd H1 H2 Hl Hcls Ha. pose proof (ready_frame _ _ Hf Hr) as Hr1.
  pose proof (role_at_of c1 r (rr_ptrs _ Hr1) Hin) as Hat.
  destruct (bind_free_step c1 (r_ptr r) r s d sv) as (c2 & E & Hf2 & Hc2 & Hk2 & Hro); [done..|].
  exists c2. split_and!; [done| |done|done|].
  - constructor; [by eapply rm_frame_trans|done|by eapply keeps_trans|].
    intros r' s' Hr' Hs'. rewrite Hro in Hr'. apply list_elem_of_fmap in Hr' as (x & -> & Hx).
    destruct (Z.eqb_spec (r_ptr x) (r_ptr r)) as [Hp|Hne]; cbn in *.
    + injection Hs' as <-. right. apply (class_frame c1 c2); [done|]. exists d, sv. split_and!; [done..|].
      rewrite Hcls. f_equal. pose proof (role_at_of c1 x (rr_ptrs _ Hr1) Hx). congruence.
    + destruct (Hcl x s' Hx Hs') as [?|?]; [by left|right]. by apply (class_frame c1 c2).
  - intros r' Hr' Hp. rewrite Hro in Hr'. apply list_elem_of_fmap in Hr' as (x & -> & Hx).
    destruct (Z.eqb_spec (r_ptr x) (r_ptr r)) as [|Hne]; [done|congruence].
Qed.

(** The role waits for its hinted device, or every service it could have is
    taken. *)
Definition left_out (c : client) (r : role) : Prop :=
  hint_dev r <> 0 /\ force_hints (rm c) = true \/ no_free c (r_class r).

Lemma left_out_mono c c' (done : list Z) : rm_ready c -> rm_frame c c' -> consistent c -> consistent c' -> keeps c c' ->
  (forall r, r ∈ roles (rm c) -> r_ptr r ∈ done -> r_service r = None -> left_out c r) ->
  forall r, r ∈ roles (rm c') -> r_ptr r ∈ done -> r_service r = None -> left_out c' r.
Proof.
  intros Hr Hf Hc Hc' Hk Hl r Hin Hd Hn.
  assert (role_core r ∈ map role_core (roles (rm c))) as (r0 & Hcore & Hin0)%list_elem_of_fmap.
  { rewrite <- (rf_roles _ _ Hf). by apply list_elem_of_fmap_2. }
  pose proof (f_equal r_ptr Hcore) as Ep. pose proof (f_equal hint_dev Hcore) as Eh.
  pose proof (f_equal r_class Hcore) as Ec. cbn in Ep, Eh, Ec.
  destruct (r_service r0) as [s|] eqn:E0.
  - destruct (Hk r0 s Hin0 E0) as (r' & Hin' & Hp' & Hs').
    pose proof (ready_frame _ _ Hf Hr) as Hr'. pose proof (role_at_of _ _ (rr_ptrs _ Hr') Hin) as A1.
    pose proof (role_at_of _ _ (rr_ptrs _ Hr') Hin') as A2. rewrite Hp', <- Ep in A2. congruence.
  - destruct (Hl r0 Hin0) as [[Hh Hfh]|Hno]; [by rewrite <- Ep|done| |].
    + left. rewrite (rf_hints _ _ Hf), Eh. done.
    + right. rewrite Ec. by eapply no_free_mono.
Qed.

Lemma hint_turn self c r c1 : rm_ready c -> autobound c c1 -> r ∈ roles (rm c1) ->
  exists c2, rolemgr_use_hint self r c1 = Ret c2 /\ autobound c c2.
Proof.
  intros Hr Ha Hin. destruct (use_hint_set self r c1) as ([s|] & -> & Ho); [|by exists c1].
  destruct (Ho s eq_refl) as (Hn & d & sv & Hd & H1 & H2 & Hl & Hc & Has).
  destruct (autobound_step c c1 r s d sv) as (c2 & E & Ha2 & _); try done; try lia. by exists c2.
Qed.

Lemma bind_turn c r c1 (done : list Z) : rm_ready c -> autobound c c1 -> r ∈ roles (rm c1) ->
  (forall r, r ∈ roles (rm c1) -> r_ptr r ∈ done -> r_service r = None -> left_out c1 r) ->
  exists c2, bind_role r c1 = Ret c2 /\ autobound c c2 /\
    forall r', r' ∈ roles (rm c2) -> r_ptr r' ∈ done ++ [r_ptr r] -> r_service r' = None -> left_out c2 r'.
Proof.
  intros Hr Ha Hin Hl. pose proof (ready_frame _ _ (ab_frame _ _ Ha) Hr) as Hr1.
  destruct (bind_role_set r c1) as ([s|] & -> & Ho & Hno).
  - destruct (Ho s eq_refl) as (Hn & Hfree). apply free_service_spec in Hfree as (d & sv & Hd & H1 & H2 & Hs & Hc & Has).
    destruct (autobound_step c c1 r s d sv) as (c2 & E & Ha2 & Hk & Hf & Hb); try done; try lia.
    exists c2. split_and!; [done|done|]. intros r' Hr' [Hd'|[Hp|[]%elem_of_nil]%elem_of_cons]%elem_of_app Hn'.
    + revert r' Hr' Hd' Hn'. apply (left_out_mono c1 c2); [done..|apply Ha|apply Ha2|done|done].
    + destruct (Hb r' Hr' Hp) as [? ?]. congruence.
  - exists c1. split_and!; [done|done|]. intros r' Hr' [Hd'|[Hp|[]%elem_of_nil]%elem_of_cons]%elem_of_app Hn'; [by apply Hl|].
    assert (r' = r) as ->.
    { pose proof (role_at_of _ _ (rr_ptrs _ Hr1) Hr') as A1. pose proof (role_at_of _ _ (rr_ptrs _ Hr1) Hin) as A2.
      rewrite Hp in A1. congruence. }
    destruct (Hno eq_refl) as [[? ?]|[?|Hf]]; [congruence|by left|right].
    intros d i sv ???. by apply (free_service_none _ _ Hf d i).
Qed.

Lemma consistent_lock b c : consistent c -> consistent (with_lock b c).
Proof. intros []. by constructor. Qed.

(** C22. Automatic binding, started in a state where the flags of the services
    agree with the roles, runs to its end; it keeps every binding there was, it
    binds a role only to a service of the role's class, no service gets two
    roles, and a role stays unbound only if it insists on its hinted device or
    no service of its class in sight is free. *)
Theorem rolemgr_autobind_complete self c :
  rm_ready c -> locked (rm c) = false -> auto_bind_enabled (rm c) <> 0 -> consistent c ->
  exists c', rolemgr_autobind self c = Ret c' /\ autobound c c' /\
    forall r, r ∈ roles (rm c') -> r_service r = None -> left_out c' r.
Proof.
  intros Hr Hl Hen Hc. set (c1 := with_lock true c).
  assert (rm_ready c1) as Hr1 by by apply lock_ready.
  assert (forall c2 p done rest, autobound c1 c2 -> done ++ p :: rest = role_ptrs c1 ->
    exists r, role_at c2 p = Some r /\ r ∈ roles (rm c2) /\ r_ptr r = p) as Hat.
  { intros c2 p done rest Ha Hps. destruct (role_at_in c2 p) as [r Hr2].
    - fold (role_ptrs c2). rewrite (frame_ptrs _ _ (ab_frame _ _ Ha)), <- Hps. apply elem_of_app. right. by left.
    - exists r. split; [done|]. by apply role_at_spec. }
  destruct (for_roles_ind (fun _ c' => autobound c1 c') (rolemgr_use_hint self) (role_ptrs c1) [] c1)
    with (rest := role_ptrs c1) as (c2 & E2 & Ha2); [|done|by apply autobound_refl, consistent_lock|].
  { intros done p rest c2 Hps Ha. destruct (Hat c2 p done rest Ha Hps) as (r & Hr2 & Hin & Hp).
    destruct (hint_turn self c1 r c2) as (c3 & E & ?); [done..|]. by exists r, c3. }
  pose proof (frame_ptrs _ _ (ab_frame _ _ Ha2)) as Hps2.
  destruct (for_roles_ind (fun done c' => autobound c1 c' /\
      forall r, r ∈ roles (rm c') -> r_ptr r ∈ done -> r_service r = None -> left_out c' r) bind_role (role_ptrs c2) [] c2)
    with (rest := role_ptrs c2) as (c3 & E3 & Ha3 & Hl3); [|done|split; [done|by intros ?? ?%elem_of_nil]|].
  { intros done p rest c3 Hps [Ha Hlo]. rewrite Hps2 in Hps. destruct (Hat c3 p done rest Ha Hps) as (r & Hr2 & Hin & Hp).
    destruct (bind_turn c1 r c3 done) as (c4 & E & ? & Hlo'); [done..|]. rewrite Hp in Hlo'. by exists r, c4. }
  destruct Ha3 as [Hf3 Hc3 Hk3 Hcl3].
  destruct (locked_section c (fun _ => Ret c3) c3) as [E Hf']; [apply Hr|done..|].
  exists (with_lock false c3). split_and!.
  - unfold rolemgr_autobind, LOCK in *. rewrite (proj2 (Z.eqb_neq _ _)) by done. rewrite (rr_state _ Hr), Hl in *.
    cbn [negb] in *. obind. fold (with_lock true c) c1. rewrite E2. obind. rewrite E3. exact E.
  - constructor; [done|by apply consistent_lock|done|done].
  - intros r Hin Hn. apply (Hl3 r); [done| |done].
    rewrite Hps2, <- (frame_ptrs _ _ Hf3). by apply in_ptrs.
Qed.

(** Two roles for a class of which two services are in sight, one for a class
    of which there is none. *)
Definition demo_bind : client :=
  set_rm (set_devices demo_client [demo_device 1 70 [0; 16; 32]; demo_device 2 71 [0; 16]])
    (set_roles demo_rolemgr [demo_role 5 16; demo_role 6 16; demo_role 7 99]).

Lemma demo_bind_consistent : consistent demo_bind.
Proof.
  constructor.
  - cbn. repeat constructor; rewrite ?elem_of_cons, ?elem_of_nil; lia.
  - intros d i sv Hd Hl. split.
    + apply elem_of_cons in Hd as [->|[->|[]%elem_of_nil]%elem_of_cons]; cbn in Hl;
        do 3 (destruct i as [|i]; [first [discriminate Hl|injection Hl as <-; discriminate]|]); discriminate Hl.
    + intros (r & Hr & Hs). cbn in Hr. repeat (apply elem_of_cons in Hr as [->|Hr]; [done|]). by apply elem_of_nil in Hr.
  - intros r1 r2 s Hr _ Hs. cbn in Hr. repeat (apply elem_of_cons in Hr as [->|Hr]; [done|]). by apply elem_of_nil in Hr.
Qed.

Lemma rolemgr_autobind_complete_witness :
  exists c', rolemgr_autobind 70 demo_bind = Ret c' /\ autobound demo_bind c' /\
    forall r, r ∈ roles (rm c') -> r_service r = None -> left_out c' r.
Proof.
  apply (rolemgr_autobind_complete 70 demo_bind).
  - constructor; [done|done|]. unfold role_ptrs. cbn. repeat constructor; rewrite ?elem_of_cons, ?elem_of_nil; lia.
  - reflexivity.
  - discriminate.
  - apply demo_bind_consistent.
Defined.

(** *** A service for two roles

    The command that sets a role does not look at the flag: a service that has
    a role can be given to another one, and unbinding the second marks the
    service free although the first role still has it; automatic binding then
    gives it to a third. *)
Definition demo_manager : RoleManagerSpec :=
  {| JD_ROLE_MANAGER_REG_AUTO_BIND := 0x80; JD_ROLE_MANAGER_REG_ALL_ROLES_ALLOCATED := 0x181;
     JD_ROLE_MANAGER_CMD_SET_ROLE := 0x81; JD_ROLE_MANAGER_CMD_CLEAR_ALL_ROLES := 0x84;
     JD_ROLE_MANAGER_CMD_LIST_ROLES := 0x83; JD_EV_CHANGE := 3; sizeof_set_role := 9;
     set_role_device_id := fun b => get64 b 0; set_role_service_idx := fun b => u8 (get8 b 8);
     set_role_service_idx_range := fun b => u8_range (get8 b 8);
     roles_header := fun id idx cls => le_bytes 8 id ++ le_bytes 4 cls ++ [idx] |}.

Definition set_role_cmd (id idx : Z) (name : list Z) : list Z :=
  demo_report 0 0 0x81 (le_bytes 8 id ++ [idx] ++ name).

Lemma set_role_shares_service :
  let m := demo_manager in
  (c ← rolemgr_set_role (set_role_cmd 70 1 [5]) demo_bind;
   c ← rolemgr_set_role (set_role_cmd 70 1 [6]) c;
   c ← rolemgr_set_role (set_role_cmd 0 0 [6]) c;
   c ← rolemgr_autobind 70 c;
   Ret (map r_service (roles (rm c)))) = Ret [Some (1, 1); Some (1, 1); None].
Proof. vm_compute. reflexivity. Qed.
