(* ===== verification/Routing.v ===== *)
(** * Devices and packets of the client ([client/routing.c])

    Announcements create the devices in sight and keep them alive, devices not
    heard of for two seconds are removed, reports update the cached registers
    and become events of the subscribed handlers. An event packet is sent
    several times: the counter in its command tells the first copy. *)
From stdpp Require Import sets.
From S2P Require Import Prelude Frame Util Iface Registers Opipe TxRx Services Client Rolemgr.

Definition EXPIRES_USEC : Z := 2000 * 1000.

(** [memcmp] of two identifiers is negative. *)
Definition id_lt (a b : Z) : bool := strcmp_lt (le_bytes 8 a) (le_bytes 8 b).

Section Routing.
Context `{JdSpec} `{AnnounceSpec} `{Heap}.
(** [jd_device_id()] *)
Context (self : Z).

(** ** Devices *)

(** The own device first, the others in the order of [memcmp]. *)
Definition fits_at (existing : option device) (fresh : device) : bool :=
  match existing with
  | None => true
  | Some e => (device_identifier fresh =? self)
              || (negb (device_identifier e =? self) && id_lt (device_identifier fresh) (device_identifier e))
  end.

Fixpoint insert_device (d : device) (ds : list device) : list device :=
  match ds with
  | [] => [d]
  | x :: ds => if fits_at (Some x) d then d :: x :: ds else x :: insert_device d ds
  end.

(** The services that an announcement of [n] words lists, from number [i]. *)
Fixpoint announced (n : nat) (data : list Z) (i : Z) : list service :=
  match n with
  | O => []
  | S n => {| service_class := if i =? 0 then 0 else get32 data (4 * i); service_index := u8 i; sv_flags := 0 |}
           :: announced n data (i + 1)
  end.

Definition new_device (now p : Z) (announce : list Z) : device :=
  let data := drop 16 announce in
  let n := Z.shiftr (p_service_size announce) 2 in
  {| d_ptr := p; device_identifier := f_device_identifier announce; num_services := u8 n;
     event_counter := 0xff; dev_announce_flags := Z.land (get32 data 0) 0xffff;
     short_id := jd_device_short_id (f_device_identifier announce); expires := u32 (now + EXPIRES_USEC);
     services := announced (Z.to_nat n) data 0; queries := [] |}.

(** The result is the address of the device. *)
Definition jd_device_alloc (now : Z) (announce : list Z) (c : client) : outcome (Z * client) :=
  let p := jd_alloc (live_blocks c) in
  let c := set_devices c (insert_device (new_device now p announce) (jd_devices c)) in
  c ← jd_client_emit_event c (EvDeviceCreated p announce);
  Ret (p, c).

(** Values of more than four bytes have a buffer. *)
Definition q_has_buffer (q : query) : bool := resp_size q >? JD_REGISTER_QUERY_MAX_INLINE.

(** The queries that stay, and how many buffers are freed. *)
Definition jd_device_clear_queries (qs : list query) (service_idx : Z) : list query * Z :=
  let goes (q : query) := (service_idx =? 0xff) || (q_service_index q =? service_idx) in
  (filter (fun q => goes q = false) qs, zlen (filter (fun q => goes q && q_has_buffer q = true) qs)).

(** [d] is no longer in the list. *)
Definition jd_device_free (d : device) (c : client) : outcome client :=
  c ← EVENT_LEAVE c;
  c ← rolemgr_device_destroyed c (d_ptr d);
  c ← EVENT_ENTER c;
  c ← jd_client_emit_event c (EvDeviceDestroyed (d_ptr d));
  Ret (set_buffers c (reg_buffers c - snd (jd_device_clear_queries (queries d) 0xff))).

Fixpoint jd_device_unlink (p : Z) (ds : list device) : list device :=
  match ds with
  | [] => []
  | d :: ds => if d_ptr d =? p then ds else d :: jd_device_unlink p ds
  end.

(** [while (jd_devices && in_past(jd_devices->_expires))] *)
Fixpoint gc_head (fuel : nat) (now : Z) (c : client) : outcome client :=
  match fuel with
  | O => OutOfFuel
  | S fuel =>
      match jd_devices c with
      | d :: ds =>
          if in_past now (expires d) then
            c ← jd_device_free d (set_devices c ds);
            gc_head fuel now c
          else Ret c
      | [] => Ret c
      end
  end.

(** [for (p = jd_devices; p && p->next; p = p->next)]; [p] is the device
    number [i] of the list. *)
Fixpoint gc_tail (fuel : nat) (now : Z) (i : nat) (c : client) : outcome client :=
  match fuel with
  | O => OutOfFuel
  | S fuel =>
      match jd_devices c !! S i with
      | Some q =>
          c ← (if in_past now (expires q)
               then jd_device_free q (set_devices c (delete (S i) (jd_devices c))) else Ret c);
          gc_tail fuel now (S i) c
      | None => Ret c
      end
  end.

Definition jd_device_gc (now : Z) (c : client) : outcome client :=
  c ← gc_head (S (length (jd_devices c))) now c;
  gc_tail (S (length (jd_devices c))) now 0 c.

Definition jd_client_process (now : Z) (c : client) : outcome client :=
  c ← EVENT_ENTER c;
  let '(due, ng) := jd_should_sample now (next_gc c) (300 * 1000) in
  let c := set_next_gc c ng in
  c ← (if due then jd_device_gc now c else Ret c);
  c ← jd_client_emit_event c EvProcess;
  EVENT_LEAVE c.

(** ** Registers *)

Definition q_matches (idx code : Z) (q : query) : Prop :=
  reg_code q = code /\ Z.land (q_service_index q) JD_SERVICE_INDEX_MASK = idx.
#[export] Instance q_matches_dec idx code q : Decision (q_matches idx code q).
Proof. unfold q_matches. apply _. Defined.

(** The number of the query in its device's list. *)
Definition jd_service_query_lookup (c : client) (s : sptr) (code : Z) : option (nat * query) :=
  match device_at c (jd_service_parent s) with
  | Some d => list_find (q_matches (snd s) code) (queries d)
  | None => None
  end.

Definition upd_query (c : client) (s : sptr) (i : nat) (f : query -> query) : client :=
  upd_device c (jd_service_parent s) (fun d => set_queries d (alter f i (queries d))).

Definition q_not_implemented (q : query) : query :=
  {| reg_code := reg_code q; q_service_index := Z.lor (q_service_index q) 0x80; resp_size := resp_size q;
     last_query_ms := last_query_ms q; q_data := q_data q |}.
Definition q_set_value (size : Z) (data : list Z) (q : query) : query :=
  {| reg_code := reg_code q; q_service_index := q_service_index q; resp_size := size;
     last_query_ms := last_query_ms q; q_data := data |}.
Definition q_set_last (ms : Z) (q : query) : query :=
  {| reg_code := reg_code q; q_service_index := q_service_index q; resp_size := resp_size q;
     last_query_ms := ms; q_data := q_data q |}.

Definition handle_not_implemented (s : sptr) (pkt : list Z) (c : client) : outcome client :=
  let cmd := get16 (drop 16 pkt) 0 in
  if JD_IS_GET cmd then
    match jd_service_query_lookup c s (JD_REG_CODE cmd) with
    | Some (i, q) =>
        if negb (jd_register_not_implemented q) then
          let c := upd_query c s i q_not_implemented in
          jd_client_emit_event c (EvServiceRegisterNotImplemented s (q_not_implemented q))
        else Ret c
    | None => Ret c
    end
  else Ret c.

(** A new value: the buffer of the old one is freed only when the new one
    needs a buffer of another size. *)
Definition handle_value (s : sptr) (pkt : list Z) (c : client) : outcome client :=
  match jd_service_query_lookup c s (JD_REG_CODE (p_service_command pkt)) with
  | Some (i, q) =>
      let size := p_service_size pkt in
      let data := mread pkt 16 size in
      let chg := negb (resp_size q =? size) || negb (bool_decide (mread pkt 16 (resp_size q) = q_data q)) in
      let c := if (size >? JD_REGISTER_QUERY_MAX_INLINE) && negb (resp_size q =? size)
               then set_buffers c (reg_buffers c - zbool (q_has_buffer q) + 1) else c in
      let c := upd_query c s i (q_set_value size data) in
      if chg then jd_client_emit_event c (EvServiceRegisterChanged s (q_set_value size data q)) else Ret c
  | None => Ret c
  end.

Definition handle_register (s : sptr) (pkt : list Z) (c : client) : outcome client :=
  if (p_service_size pkt >=? 4) && (p_service_command pkt =? JD_CMD_COMMAND_NOT_IMPLEMENTED)
  then handle_not_implemented s pkt c
  else if JD_IS_GET (p_service_command pkt) then handle_value s pkt c
  else Ret c.

(** ** Packets *)

(** Whether an event with counter [pec] is a copy or ahead of a missed one, and
    the new value of [_event_counter]. *)
Definition event_filter (ctr pec : Z) : bool * Z :=
  let ec := if ctr =? 0xff then pec - 1 else ctr in
  let ec := ec + 1 in
  let ahead := Z.land (pec - ec) JD_CMD_EVENT_COUNTER_MASK in
  let behind := Z.land (ec - pec) JD_CMD_EVENT_COUNTER_MASK in
  if (ahead >? 0) && ((behind <? 60) || (ahead <? 5)) then (true, ctr) else (false, u8 pec).

Definition packet_event_counter (pkt : list Z) : Z :=
  Z.land (Z.shiftr (p_service_command pkt) JD_CMD_EVENT_COUNTER_SHIFT) JD_CMD_EVENT_COUNTER_MASK.

(** The announcement of device [dev], which is not [NULL]; the result is the
    device, which a reset replaces. *)
Definition handle_announce (now : Z) (pkt : list Z) (dev : Z) (c : client) : outcome (Z * client) :=
  match device_at c dev with
  | None => Panic
  | Some d =>
      let new_flags := get16 (drop 16 pkt) 0 in
      let steady := JD_CONTROL_ANNOUNCE_FLAGS_RESTART_COUNTER_STEADY in
      '(dev, c) ←
        (if negb (dev_announce_flags d =? new_flags) then
           if Z.land (dev_announce_flags d) steady >? Z.land new_flags steady then
             c ← jd_client_emit_event c (EvDeviceReset dev pkt);
             let c := set_devices c (jd_device_unlink dev (jd_devices c)) in
             c ← jd_device_free d c;
             jd_device_alloc now pkt c
           else Ret (dev, upd_device c dev (fun d => set_dev_flags d new_flags))
         else Ret (dev, c));
      Ret (dev, upd_device c dev (fun d => set_expires d (u32 (now + EXPIRES_USEC))))
  end.

(** A report of a service in sight: [true] for a repeated event. *)
Definition handle_report (dev : Z) (s : sptr) (pkt : list Z) (c : client) : outcome (bool * client) :=
  match device_at c dev with
  | None => Panic
  | Some d =>
      let '(repeated, ctr) :=
        if jd_is_event pkt then event_filter (event_counter d) (packet_event_counter pkt)
        else (false, event_counter d) in
      let c := upd_device c dev (fun d => set_event_counter d ctr) in
      c ← handle_register s pkt c;
      Ret (repeated, c)
  end.

Definition jd_client_handle_packet (now : Z) (pkt : list Z) (c : client) : outcome client :=
  c ← EVENT_ENTER c;
  if has_flag (f_flags pkt) JD_FRAME_FLAG_IDENTIFIER_IS_SERVICE_CLASS then
    c ← jd_client_emit_event c (EvBroadcastPacket pkt);
    EVENT_LEAVE c
  else
    let d := jd_device_lookup c (f_device_identifier pkt) in
    let serv := jd_device_get_service d (Z.land (p_service_index pkt) JD_SERVICE_INDEX_MASK) in
    let dev := d_ptr <$> d in
    '(dev, serv, repeated, c) ←
      (if has_flag (f_flags pkt) JD_FRAME_FLAG_COMMAND then Ret (dev, serv, false, c)
       else
         '(dev, serv, c) ←
           (if (p_service_index pkt =? 0) && (p_service_command pkt =? 0) then
              '(p, c) ← match dev with Some p => Ret (p, c) | None => jd_device_alloc now pkt c end;
              '(p, c) ← handle_announce now pkt p c;
              Ret (Some p, Some (p, 0), c)
            else Ret (dev, serv, c));
         match dev, serv with
         | Some p, Some s => '(repeated, c) ← handle_report p s pkt c; Ret (dev, serv, repeated, c)
         | _, _ => Ret (dev, serv, false, c)
         end);
    c ← match serv with
        | Some s => jd_client_emit_event c (if repeated : bool then EvRepeatedEventPacket s pkt else EvServicePacket s pkt)
        | None => jd_client_emit_event c (EvNonServicePacket dev pkt)
        end;
    EVENT_LEAVE c.

(** ** Commands *)

(** A packet is allocated as header and data. *)
Definition command_packet (id idx cmd : Z) (data : list Z) : list Z :=
  let p := replicate (16 + length data) 0 in
  let p := set_f_flags p JD_FRAME_FLAG_COMMAND in
  let p := set_f_device_identifier p id in
  let p := put8 p 13 idx in
  let p := put16 p 14 cmd in
  let p := put8 p 12 (zlen data) in
  mwrite p 16 data.

Definition jd_service_send_cmd `{FrameSender T} (c : client) (s : sptr) (cmd : Z) (data : list Z) (tx : T)
    : outcome (Z * T) :=
  let id := match device_at c (jd_service_parent s) with Some d => device_identifier d | None => 0 end in
  '(r, _, tx) ← jd_send_pkt tx (command_packet id (snd s) cmd data);
  Ret (r, tx).

(** The query for a register, made when there is none; the register is asked
    for again when [refresh_ms] have passed. [in_past_ms] compares 32-bit
    times. *)
Definition jd_service_query `{FrameSender T} (now_ms : Z) (s : sptr) (code refresh_ms : Z) (c : client) (tx : T)
    : outcome (option query * client * T) :=
  let c := match jd_service_query_lookup c s code with
           | Some _ => c
           | None => upd_device c (jd_service_parent s) (fun d => set_queries d
               ({| reg_code := u16 code; q_service_index := u8 (snd s); resp_size := 0; last_query_ms := 0;
                   q_data := [] |} :: queries d))
           end in
  match jd_service_query_lookup c s code with
  | None => Ret (None, c, tx)
  | Some (i, q) =>
      if negb (jd_register_not_implemented q)
         && ((last_query_ms q =? 0)
             || (negb (refresh_ms =? 0) && in_past now_ms (u32 (last_query_ms q + refresh_ms)))) then
        '(_, tx) ← jd_service_send_cmd c s (JD_GET code) [] tx;
        Ret (Some (q_set_last now_ms q), upd_query c s i (q_set_last now_ms), tx)
      else Ret (Some q, c, tx)
  end.

(** [memset(dst, 0, sizeof(jd_packet_t))]: the header. *)
Definition jd_pkt_setup_broadcast (service_class service_command : Z) : list Z :=
  let p := replicate 16 0 in
  let p := set_f_flags p (Z.lor JD_FRAME_FLAG_BROADCAST JD_FRAME_FLAG_COMMAND) in
  let p := set_f_device_identifier p (Z.lor JD_DEVICE_IDENTIFIER_BROADCAST_MARK service_class) in
  let p := put16 p 14 service_command in
  put8 p 13 JD_SERVICE_INDEX_BROADCAST.
End Routing.

(** ** The invariant of the client *)

(** [sc] is the event scope: 1 while the client handles a packet or a tick. *)
Record client_shape (sc : Z) (c : client) : Prop := {
  ci_scope : event_scope c = sc;
  ci_state : rm_state (rm c) = true;
  ci_locked : locked (rm c) = false;
  ci_roles : NoDup (role_ptrs c);
  ci_ptrs : NoDup (map d_ptr (jd_devices c));
  ci_ids : NoDup (map device_identifier (jd_devices c));
  ci_len : Forall (fun d => num_services d = zlen (services d)) (jd_devices c);
}.

(** And no role has a service that is gone. *)
Record client_inv (sc : Z) (c : client) : Prop := {
  ci_shape : client_shape sc c;
  ci_bound : bound_ok (valid_sptr c) c;
}.

Lemma inv_scope sc sc' c : client_inv sc c -> client_inv sc' (set_scope c sc').
Proof. intros [[] ?]. constructor; [by constructor|done]. Qed.

Lemma inv_log sc c e : client_inv sc c -> client_inv sc (cl_log c e).
Proof. intros [[] ?]. constructor; [by constructor|done]. Qed.

Lemma inv_buffers sc c v : client_inv sc c -> client_inv sc (set_buffers c v).
Proof. intros [[] ?]. constructor; [by constructor|done]. Qed.

Lemma inv_next_gc sc c v : client_inv sc c -> client_inv sc (set_next_gc c v).
Proof. intros [[] ?]. constructor; [by constructor|done]. Qed.

Lemma emit_ok c e : client_inv 1 c -> jd_client_emit_event c e = Ret (cl_log c e) /\ client_inv 1 (cl_log c e).
Proof. intros Hi. split; [apply emit_spec, (ci_scope _ _ (ci_shape _ _ Hi))|by apply inv_log]. Qed.

Lemma enter_ok c : client_inv 0 c -> EVENT_ENTER c = Ret (set_scope c 1) /\ client_inv 1 (set_scope c 1).
Proof. intros Hi. unfold EVENT_ENTER. rewrite (ci_scope _ _ (ci_shape _ _ Hi)). split; [done|by eapply inv_scope]. Qed.

Lemma leave_ok c : client_inv 1 c -> EVENT_LEAVE c = Ret (set_scope c 0) /\ client_inv 0 (set_scope c 0).
Proof. intros Hi. unfold EVENT_LEAVE. rewrite (ci_scope _ _ (ci_shape _ _ Hi)). split; [done|by eapply inv_scope]. Qed.

Lemma shape_ready c : client_shape 0 c -> rm_ready c.
Proof. intros []. by constructor. Qed.

(** Binding roles to services in sight keeps the invariant. *)
Lemma inv_frame sc c c' : client_shape sc c -> rm_frame c c' -> bound_ok (valid_sptr c) c' -> client_inv sc c'.
Proof.
  intros [] Hf Hb. pose proof (rf_dev _ _ Hf) as Hd. constructor.
  2: { intros r s Hr Hs. eapply valid_frame; [done|]. by eapply Hb. }
  constructor.
  - by rewrite (rf_scope _ _ Hf).
  - by rewrite (rf_state _ _ Hf).
  - by rewrite (rf_locked _ _ Hf).
  - by rewrite (frame_ptrs _ _ Hf).
  - by rewrite (map_core d_ptr dev_core (jd_devices c)).
  - by rewrite (map_core device_identifier dev_core (jd_devices c)).
  - apply Forall_forall. intros d' Hd'. destruct (frame_devices c' c d') as (d & Hin & Hcore); [done..|].
    apply core_fields in Hcore as (_ & _ & En & El & _). rewrite Forall_forall in ci_len0.
    rewrite <- En, (ci_len0 d Hin). unfold zlen. by rewrite El.
Qed.

(** Changes of a device outside of its services. *)
Definition keeps_services (f : device -> device) : Prop := forall d, d_ptr (f d) = d_ptr d /\
  device_identifier (f d) = device_identifier d /\ num_services (f d) = num_services d /\ services (f d) = services d.

Lemma map_upd {B} (g : device -> B) p f c : (forall d, g (f d) = g d) ->
  map g (jd_devices (upd_device c p f)) = map g (jd_devices c).
Proof. intros Hg. cbn. rewrite map_map. apply map_ext. intros d. case_match; auto. Qed.

Lemma valid_upd c p f s : keeps_services f -> valid_sptr c s -> valid_sptr (upd_device c p f) s.
Proof.
  intros Hk (d & Hd & Hp & Hi). exists (if d_ptr d =? p then f d else d). destruct (Hk d) as (E1 & _ & E3 & _).
  split; [|case_match; by rewrite ?E1, ?E3]. cbn. apply list_elem_of_fmap. by exists d.
Qed.

Lemma inv_upd sc c p f : keeps_services f -> client_inv sc c -> client_inv sc (upd_device c p f).
Proof.
  intros Hk [[] Hb]. constructor.
  2: { intros r s Hr Hs. apply valid_upd; [done|]. by eapply Hb. }
  constructor; try done.
  - rewrite map_upd; [done|]. intros d. apply Hk.
  - rewrite map_upd; [done|]. intros d. apply Hk.
  - cbn. apply Forall_map, (Forall_impl _ _ _ ci_len0). intros d Hd. destruct (Hk d) as (_ & _ & E3 & E4).
    case_match; by rewrite ?E3, ?E4.
Qed.

(** *** Removing a device *)

Lemma shape_scope sc sc' c : client_shape sc c -> client_shape sc' (set_scope c sc').
Proof. intros []. by constructor. Qed.

Lemma remove_shape sc c l1 d l2 : client_shape sc c -> jd_devices c = l1 ++ d :: l2 ->
  client_shape sc (set_devices c (l1 ++ l2)).
Proof.
  intros [] Hds. rewrite Hds in *. rewrite map_app in *. cbn [map] in *.
  apply NoDup_app in ci_ptrs0 as (? & ? & [? ?]%NoDup_cons). apply NoDup_app in ci_ids0 as (? & ? & [? ?]%NoDup_cons).
  apply Forall_app in ci_len0 as [? [? ?]%Forall_cons].
  constructor; cbn; rewrite ?map_app; try done; [apply NoDup_app|apply NoDup_app|by apply Forall_app];
    (split_and!; [done| |done]); set_solver.
Qed.

Lemma free_ok c d l1 l2 : client_inv 1 c -> jd_devices c = l1 ++ d :: l2 ->
  exists c', jd_device_free d (set_devices c (l1 ++ l2)) = Ret c' /\ client_inv 1 c' /\
    map dev_core (jd_devices c') = map dev_core (l1 ++ l2).
Proof.
  intros [Hsh Hb] Hds. unfold jd_device_free. set (c0 := set_devices c (l1 ++ l2)).
  assert (client_shape 1 c0) as Hsh0 by by eapply remove_shape.
  assert (client_shape 0 (set_scope c0 0)) as Hsh1 by by eapply shape_scope.
  set (P := fun s => valid_sptr c0 s \/ fst s = d_ptr d).
  assert (bound_ok P (set_scope c0 0)) as HbP.
  { intros r s Hin Hsv. destruct (Hb r s Hin Hsv) as (x & Hx & Hxp & Hi). rewrite Hds in Hx.
    apply elem_of_app in Hx as [Hx|[->|Hx]%elem_of_cons]; [left|by right|left]; exists x; (split; [|done]);
      apply elem_of_app; auto. }
  unfold EVENT_LEAVE at 1. rewrite (ci_scope _ _ Hsh0). cbn [Z.eqb Pos.eqb]. obind.
  destruct (device_destroyed_ok P (set_scope c0 0) (d_ptr d) (shape_ready _ Hsh1) (ci_locked _ _ Hsh1) HbP)
    as (c1 & E & Hf & Hb1).
  rewrite E. obind.
  assert (client_inv 0 c1) as Hi1.
  { eapply inv_frame; [done|done|]. intros r s Hin Hsv. destruct (Hb1 r s Hin Hsv) as [[?|?] ?]; done. }
  destruct (enter_ok c1 Hi1) as [-> Hi2]. obind. destruct (emit_ok _ (EvDeviceDestroyed (d_ptr d)) Hi2) as [-> Hi3]. obind.
  eexists. split; [done|]. split; [by apply inv_buffers|]. exact (rf_dev _ _ Hf).
Qed.

(** *** Adding a device *)

Lemma insert_device_perm self d ds : insert_device self d ds ≡ₚ d :: ds.
Proof.
  induction ds as [|x ds IH]; cbn [insert_device]; [done|]. case_match; [done|].
  rewrite IH. by apply Permutation_swap.
Qed.

Lemma length_announced n data : forall i, length (announced n data i) = n.
Proof. induction n; intros i; cbn; [done|by rewrite IHn]. Qed.

Lemma shift2_range x : 0 <= x < 256 -> 0 <= Z.shiftr x 2 < 64.
Proof. intros. rewrite Z.shiftr_div_pow2 by lia. change (2 ^ 2) with 4. word_lia. Qed.

Lemma p_service_size_range pkt : Forall is_byte pkt -> 0 <= p_service_size pkt < 256.
Proof. intros. by apply get8_is_byte. Qed.

Lemma new_device_len now p pkt : Forall is_byte pkt ->
  num_services (new_device now p pkt) = zlen (services (new_device now p pkt)).
Proof.
  intros Hb. cbn. unfold zlen. rewrite length_announced.
  pose proof (shift2_range _ (p_service_size_range pkt Hb)). rewrite u8_small; lia.
Qed.

Lemma alloc_ok `{Heap} self now pkt c : client_inv 1 c -> Forall is_byte pkt ->
  f_device_identifier pkt ∉ map device_identifier (jd_devices c) ->
  exists p c', jd_device_alloc self now pkt c = Ret (p, c') /\ client_inv 1 c' /\
    new_device now p pkt ∈ jd_devices c'.
Proof.
  intros [[] Hbo] Hb Hni. unfold jd_device_alloc. set (p := jd_alloc _).
  assert (p ∉ map d_ptr (jd_devices c)) as Hp.
  { pose proof (jd_alloc_fresh (live_blocks c)) as Hf. intros Hin. apply Hf. unfold live_blocks. apply elem_of_app. by left. }
  set (c1 := set_devices _ _).
  assert (jd_devices c1 ≡ₚ new_device now p pkt :: jd_devices c) as Hperm by apply insert_device_perm.
  assert (client_inv 1 c1) as Hi1.
  { constructor.
    - constructor; try done.
      + rewrite (fmap_Permutation d_ptr _ _ Hperm). cbn. by apply NoDup_cons.
      + rewrite (fmap_Permutation device_identifier _ _ Hperm). cbn. by apply NoDup_cons.
      + rewrite Hperm. apply Forall_cons. split; [by apply new_device_len|done].
    - intros r s Hr Hs. destruct (Hbo r s Hr Hs) as (d & Hd & ? & ?). exists d. split; [|done].
      rewrite Hperm. by right. }
  destruct (emit_ok _ (EvDeviceCreated p pkt) Hi1) as [E Hi2]. fold c1. rewrite E. obind.
  exists p, (cl_log c1 (EvDeviceCreated p pkt)). split_and!; [done|done|]. cbn. rewrite insert_device_perm. by left.
Qed.

(** *** Collecting expired devices *)

Lemma gc_head_ok fuel : forall now c, client_inv 1 c -> (length (jd_devices c) < fuel)%nat ->
  exists c', gc_head fuel now c = Ret c' /\ client_inv 1 c'.
Proof.
  induction fuel as [|fuel IH]; intros now c Hi Hf; [lia|]. cbn [gc_head].
  destruct (jd_devices c) as [|d ds] eqn:Hds; [by exists c|]. destruct (in_past _ _); [|by exists c].
  destruct (free_ok c d [] ds Hi Hds) as (c1 & E & Hi1 & Hc). cbn [app] in *. rewrite E. obind. apply IH; [done|].
  apply (f_equal length) in Hc. rewrite !length_map in Hc. cbn in Hf. lia.
Qed.

Lemma gc_tail_ok fuel : forall now i c, client_inv 1 c -> (length (jd_devices c) <= i + fuel)%nat -> (0 < fuel)%nat ->
  exists c', gc_tail fuel now i c = Ret c' /\ client_inv 1 c'.
Proof.
  induction fuel as [|fuel IH]; intros now i c Hi Hf H0; [lia|]. cbn [gc_tail].
  destruct (jd_devices c !! S i) as [d|] eqn:Hd; [|by exists c].
  pose proof (lookup_lt_Some _ _ _ Hd).
  destruct (in_past _ _).
  - pose proof (take_drop_middle _ _ _ Hd) as Hmid.
    destruct (free_ok c d (take (S i) (jd_devices c)) (drop (S (S i)) (jd_devices c)) Hi (eq_sym Hmid)) as (c1 & E & Hi1 & Hc).
    rewrite delete_take_drop, E. obind. apply IH; [done| |lia].
    apply (f_equal length) in Hc. rewrite !length_map, length_app, length_take, length_drop in Hc. lia.
  - obind. apply IH; [done|lia|lia].
Qed.

Lemma gc_ok now c : client_inv 1 c -> exists c', jd_device_gc now c = Ret c' /\ client_inv 1 c'.
Proof.
  intros Hi. unfold jd_device_gc. destruct (gc_head_ok (S (length (jd_devices c))) now c Hi) as (c1 & -> & Hi1); [lia|].
  obind. apply gc_tail_ok; [done|lia|lia].
Qed.

Lemma client_process_ok now c : client_inv 0 c -> exists c', jd_client_process now c = Ret c' /\ client_inv 0 c'.
Proof.
  intros Hi. unfold jd_client_process. destruct (enter_ok c Hi) as [-> Hi1]. obind.
  destruct (jd_should_sample _ _ _) as [due ng]. pose proof (inv_next_gc _ _ ng Hi1) as Hi2.
  set (c2 := set_next_gc _ _) in *.
  assert (exists c3, (if due then jd_device_gc now c2 else Ret c2) = Ret c3 /\ client_inv 1 c3) as (c3 & -> & Hi3).
  { destruct due; [by apply gc_ok|by exists c2]. }
  obind. destruct (emit_ok c3 EvProcess Hi3) as [-> Hi4]. obind.
  destruct (leave_ok _ Hi4) as [-> Hi5]. by eexists.
Qed.

(** *** Packets *)

Lemma upd_queries_ok sc c p g : client_inv sc c -> client_inv sc (upd_device c p (fun d => set_queries d (g d))).
Proof. by apply inv_upd. Qed.

Section Packets.
Context `{JdSpec} `{AnnounceSpec} `{Heap}.

Lemma handle_register_ok s pkt c : client_inv 1 c -> exists c', handle_register s pkt c = Ret c' /\ client_inv 1 c'.
Proof.
  intros Hi. unfold handle_register. destruct (_ && _).
  - unfold handle_not_implemented. destruct (JD_IS_GET _); [|by exists c].
    destruct (jd_service_query_lookup _ _ _) as [[i q]|]; [|by exists c].
    destruct (negb _); [|by exists c]. eexists. apply emit_ok. by apply upd_queries_ok.
  - destruct (JD_IS_GET _); [|by exists c]. unfold handle_value.
    destruct (jd_service_query_lookup _ _ _) as [[i q]|]; [|by exists c].
    set (c1 := if _ && _ then _ else _). assert (client_inv 1 c1) as Hi1.
    { unfold c1. destruct (_ && _); [by apply inv_buffers|done]. }
    set (c2 := upd_query _ _ _ _). assert (client_inv 1 c2) as Hi2 by by apply upd_queries_ok.
    destruct (_ || _); [|by exists c2]. eexists. by apply emit_ok.
Qed.

(** A device that is in the list. *)
Definition in_list (c : client) (p : Z) : Prop := p ∈ map d_ptr (jd_devices c).

Lemma in_list_at sc c p : client_inv sc c -> in_list c p -> exists d, device_at c p = Some d /\ d ∈ jd_devices c /\ d_ptr d = p.
Proof.
  intros Hi (d & -> & Hd)%list_elem_of_fmap. exists d. split; [|done]. apply device_at_of; [apply Hi|done].
Qed.

Lemma in_list_upd c p q f : keeps_services f -> in_list c p -> in_list (upd_device c q f) p.
Proof. intros Hk. unfold in_list. rewrite map_upd; [done|]. intros d. apply Hk. Qed.

Lemma handle_report_ok p s pkt c : client_inv 1 c -> in_list c p ->
  exists b c', handle_report p s pkt c = Ret (b, c') /\ client_inv 1 c'.
Proof.
  intros Hi Hp. unfold handle_report. destruct (in_list_at _ _ _ Hi Hp) as (d & -> & _).
  destruct (if jd_is_event pkt then _ else _) as [rep ctr].
  destruct (handle_register_ok s pkt (upd_device c p (fun d => set_event_counter d ctr))) as (c1 & -> & Hi1);
    [by apply inv_upd|]. obind. by exists rep, c1.
Qed.

Lemma unlink_split p c d : device_at c p = Some d ->
  exists l1 l2, jd_devices c = l1 ++ d :: l2 /\ jd_device_unlink p (jd_devices c) = l1 ++ l2.
Proof.
  unfold device_at. induction (jd_devices c) as [|x ds IH]; cbn [list_find jd_device_unlink]; [done|].
  case_decide as Hx.
  - intros [= <-]. exists [], ds. rewrite (proj2 (Z.eqb_eq _ _)) by done. done.
  - destruct (list_find _ ds) as [[i y]|]; [|done]. cbn in *. intros [= ->].
    destruct (IH eq_refl) as (l1 & l2 & -> & Hu). exists (x :: l1), l2.
    rewrite (proj2 (Z.eqb_neq _ _)) by done. by rewrite Hu.
Qed.

Lemma handle_announce_ok self now pkt p d c : client_inv 1 c -> Forall is_byte pkt ->
  device_at c p = Some d -> device_identifier d = f_device_identifier pkt ->
  exists p' c', handle_announce self now pkt p c = Ret (p', c') /\ client_inv 1 c' /\ in_list c' p'.
Proof.
  intros Hi Hb Hd Hid. unfold handle_announce. rewrite Hd. cbv zeta.
  pose proof (device_at_spec _ _ _ Hd) as [Hin Hp].
  assert (in_list c p) as Hl by (rewrite <- Hp; by apply list_elem_of_fmap_2).
  match goal with |- context [?m ≫= _] =>
    assert (exists p' c', m = Ret (p', c') /\ client_inv 1 c' /\ in_list c' p') as (p' & c' & -> & Hi' & Hin')
  end.
  2: { obind. eexists _, _. split; [done|]. split; [by apply inv_upd|by apply in_list_upd]. }
  destruct (negb _); [|by exists p, c].
  destruct (_ >? _).
  - destruct (emit_ok c (EvDeviceReset p pkt) Hi) as [-> Hi1]. obind.
    destruct (unlink_split p (cl_log c (EvDeviceReset p pkt)) d Hd) as (l1 & l2 & Hds & ->).
    destruct (free_ok _ d l1 l2 Hi1 Hds) as (c2 & -> & Hi2 & Hc2). obind.
    destruct (alloc_ok self now pkt c2 Hi2 Hb) as (p' & c3 & -> & Hi3 & Hn).
    { rewrite <- Hid, (map_core device_identifier dev_core (l1 ++ l2)) by done.
      pose proof (ci_ids _ _ (ci_shape _ _ Hi1)) as Hnd. rewrite Hds, map_app in Hnd. cbn in Hnd.
      apply NoDup_app in Hnd as (_ & Hx & [Hy _]%NoDup_cons). rewrite map_app. set_solver. }
    exists p', c3. split_and!; [done|done|]. unfold in_list. change p' with (d_ptr (new_device now p' pkt)).
    by apply list_elem_of_fmap_2.
  - eexists _, _. split; [done|]. split; [by apply inv_upd|by apply in_list_upd].
Qed.

Lemma lookup_at sc c id d : client_inv sc c -> jd_device_lookup c id = Some d ->
  device_at c (d_ptr d) = Some d /\ device_identifier d = id /\ in_list c (d_ptr d).
Proof.
  intros Hi [Hd Hid]%device_lookup_spec. split_and!; [|done|by apply list_elem_of_fmap_2].
  apply device_at_of; [apply Hi|done].
Qed.

(** The first part of a report that announces the device. *)
Lemma announce_ok self now pkt c : client_inv 1 c -> Forall is_byte pkt ->
  exists p c', ('(p, c) ← match d_ptr <$> jd_device_lookup c (f_device_identifier pkt) with
                         | Some p => Ret (p, c) | None => jd_device_alloc self now pkt c end;
                handle_announce self now pkt p c) = Ret (p, c') /\ client_inv 1 c' /\ in_list c' p.
Proof.
  intros Hi Hb. destruct (jd_device_lookup c _) as [d|] eqn:Hd; cbn.
  - destruct (lookup_at _ _ _ _ Hi Hd) as (Hat & Hid & _). by apply (handle_announce_ok _ _ _ _ d).
  - apply device_lookup_none in Hd. destruct (alloc_ok self now pkt c Hi Hb Hd) as (p & c1 & -> & Hi1 & Hn). obind.
    eapply handle_announce_ok; [done|done| |].
    + change p with (d_ptr (new_device now p pkt)) at 1. apply device_at_of; [apply Hi1|done].
    + done.
Qed.

Lemma handle_packet_ok self now pkt c : client_inv 0 c -> Forall is_byte pkt ->
  exists c', jd_client_handle_packet self now pkt c = Ret c' /\ client_inv 0 c'.
Proof.
  intros Hi0 Hb. unfold jd_client_handle_packet. destruct (enter_ok c Hi0) as [-> Hi]. obind. set (c1 := set_scope c 1) in *.
  assert (forall c e, client_inv 1 c -> exists c', (c ← jd_client_emit_event c e; EVENT_LEAVE c) = Ret c' /\ client_inv 0 c') as Hend.
  { intros c2 e Hi2. destruct (emit_ok c2 e Hi2) as [-> Hi3]. obind. eexists. by apply leave_ok. }
  destruct (has_flag _ JD_FRAME_FLAG_IDENTIFIER_IS_SERVICE_CLASS); [by apply Hend|]. cbv zeta.
  assert (forall (r : outcome (option Z * option sptr * bool * client)) dev serv b c2, r = Ret (dev, serv, b, c2) -> client_inv 1 c2 ->
    exists c', ('(dev, serv, repeated, c) ← r;
      c ← match serv with
        | Some s => jd_client_emit_event c (if repeated : bool then EvRepeatedEventPacket s pkt else EvServicePacket s pkt)
        | None => jd_client_emit_event c (EvNonServicePacket dev pkt)
        end; EVENT_LEAVE c) = Ret c' /\ client_inv 0 c') as Hfin.
  { intros r dev serv b c2 -> Hi2. obind. destruct serv; by apply Hend. }
  destruct (has_flag _ JD_FRAME_FLAG_COMMAND); [by eapply Hfin|].
  assert (forall p s c2, client_inv 1 c2 -> in_list c2 p -> exists b c3,
    ('(repeated, c) ← handle_report p s pkt c2; Ret (Some p, Some s, repeated, c)) = Ret (Some p, Some s, b, c3) /\ client_inv 1 c3) as Hrep.
  { intros p s c2 Hi2 Hp. destruct (handle_report_ok p s pkt c2 Hi2 Hp) as (b & c3 & -> & ?). by exists b, c3. }
  destruct ((_ =? 0) && _).
  - destruct (announce_ok self now pkt c1 Hi Hb) as (p & c2 & E & Hi2 & Hp).
    destruct (Hrep p (p, 0) c2 Hi2 Hp) as (b & c3 & E3 & Hi3). eapply Hfin; [|exact Hi3]. rewrite <- E3. revert E.
    destruct (match d_ptr <$> _ with Some p => _ | None => _ end) as [[p1 c4]| |]; obind; [|done..]. by intros ->.
  - obind. destruct (jd_device_lookup c1 _) as [d|] eqn:Hd; cbn [fmap option_fmap option_map jd_device_get_service]; [|by eapply Hfin].
    destruct (_ <? _); [|by eapply Hfin].
    destruct (lookup_at _ _ _ _ Hi Hd) as (_ & _ & Hp). destruct (Hrep _ (d_ptr d, Z.land (p_service_index pkt) JD_SERVICE_INDEX_MASK) c1 Hi Hp) as (b & c3 & E3 & Hi3).
    by eapply Hfin.
Qed.
End Packets.

(** *** Roles *)

Lemma roles_change sc c c' : client_inv sc c -> rm_frame c c' -> bound_ok (valid_sptr c) c' -> client_inv sc c'.
Proof. intros Hi. by apply inv_frame, Hi. Qed.

Lemma set_role_ok `{RoleManagerSpec} pkt c : client_inv 0 c ->
  exists c', rolemgr_set_role pkt c = Ret c' /\ client_inv 0 c'.
Proof.
  intros Hi. pose proof (shape_ready _ (ci_shape _ _ Hi)) as Hr. unfold rolemgr_set_role. cbv zeta.
  destruct (rolemgr_lookup _ _ _) as [r|] eqn:El; [|by exists c].
  assert (r ∈ roles (rm c)) as Hin.
  { unfold rolemgr_lookup in El. destruct (list_find _ _) as [[i x]|] eqn:E; [|done]. injection El as ->.
    apply list_find_Some in E as (E & _). by eapply list_elem_of_lookup_2. }
  assert (forall s, (forall s', s = Some s' -> valid_sptr c s') ->
    exists c', rolemgr_set c (r_ptr r) s = Ret c' /\ client_inv 0 c') as Hset.
  { intros s Hs. destruct (set_bound (valid_sptr c) c (r_ptr r) s Hr) as (c' & E & Hf & Hb); [by apply in_ptrs|apply Hi|done|].
    exists c'. split; [done|]. by eapply roles_change. }
  destruct (_ =? 0); [by apply Hset|].
  destruct (jd_device_get_service _ _) as [s|] eqn:Eg; [|by exists c]. apply Hset. intros ? [= <-].
  destruct (jd_device_lookup _ _) as [d|] eqn:Ed; [|done]. cbn in Eg. destruct (Z.ltb_spec (set_role_service_idx (drop 16 pkt)) (num_services d)); [|done].
  injection Eg as <-. apply device_lookup_spec in Ed as [? _]. exists d. cbn.
  pose proof (set_role_service_idx_range (drop 16 pkt)). split_and!; [done|done|lia|lia].
Qed.

Lemma clear_roles_ok sc c : client_inv 0 c -> rm_ready c ->
  exists c', for_roles (role_ptrs c) clear_role c = Ret c' /\ rm_frame c c' /\ client_inv sc (set_scope c' sc).
Proof.
  intros Hi Hr. destruct (for_roles_ok (valid_sptr c) c c clear_role) as (c' & E & Hf & Hb);
    [apply rm_frame_refl|done|apply Hi|by apply clear_role_ok|].
  exists c'. split_and!; [done|done|]. eapply inv_scope. by eapply roles_change.
Qed.

Lemma insert_role_perm r rs : insert_role r rs ≡ₚ r :: rs.
Proof.
  induction rs as [|x rs IH]; cbn [insert_role]; [done|]. case_match; [done|]. rewrite IH. by apply Permutation_swap.
Qed.

Lemma add_role_ok `{Heap} name cls c : client_inv 0 c -> client_inv 0 (snd (add_role name cls c)).
Proof.
  intros [[] Hb]. unfold add_role. destruct (role_hint name) as [hint off]. cbn [snd]. set (p := jd_alloc _).
  assert (p ∉ role_ptrs c) as Hp.
  { pose proof (jd_alloc_fresh (live_blocks c)) as Hf. intros Hin. apply Hf. unfold live_blocks. apply elem_of_app. by right. }
  constructor; [constructor; try done|].
  - unfold role_ptrs. cbn. rewrite (fmap_Permutation r_ptr _ _ (insert_role_perm _ _)). cbn. by apply NoDup_cons.
  - intros r s Hr Hs. cbn in Hr. rewrite insert_role_perm in Hr. apply elem_of_cons in Hr as [->|Hr]; [done|].
    by apply (Hb r).
Qed.

Lemma sublist_map {A B} (f : A -> B) l1 l2 : l1 `sublist_of` l2 -> map f l1 `sublist_of` map f l2.
Proof. induction 1; cbn; by constructor. Qed.

Lemma inv_roles sc c rs ch : client_inv sc c -> rs `sublist_of` roles (rm c) ->
  client_inv sc (set_rm c (set_changed (set_roles (rm c) rs) ch)).
Proof.
  intros [[] Hb] Hs. constructor; [constructor; try done|].
  - unfold role_ptrs. cbn. eapply sublist_NoDup; [exact ci_roles0|]. by apply sublist_map.
  - intros r s Hr Hsv. apply (Hb r); [|done]. by eapply elem_of_sublist.
Qed.

Lemma remove_role_ok p c : client_inv 0 c -> p ∈ role_ptrs c ->
  exists c', remove_role p c = Ret c' /\ client_inv 0 c'.
Proof.
  intros Hi Hp. pose proof (shape_ready _ (ci_shape _ _ Hi)) as Hr.
  destruct (set_bound (valid_sptr c) (with_lock true c) p None) as (c2 & E2 & Hf2 & Hb2); [by apply lock_ready|done|apply Hi|done|].
  destruct (locked_section c (fun _ => Ret c2) c2) as [E Hf]; [apply Hr|apply Hi|done|done|].
  unfold remove_role, LOCK in *. rewrite (rr_state _ Hr), (ci_locked _ _ (ci_shape _ _ Hi)) in *. cbn [negb mbind outcome_bind] in *.
  fold (with_lock true c). rewrite E2. obind. rewrite E. obind. rewrite decide_True by by rewrite (frame_ptrs _ _ Hf).
  eexists. split; [done|]. assert (client_inv 0 (with_lock false c2)) as Hi2 by by eapply roles_change.
  pose proof (inv_roles _ _ (filter (fun r => r_ptr r <> p) (roles (rm c2))) (changed (rm c2)) Hi2) as Hfin.
  destruct Hfin as [[] ?]; [apply sublist_filter|]. constructor; [by constructor|done].
Qed.

Lemma unassign_all_ok c rs : client_inv 0 c -> client_inv 0
  (fold_left (fun c r => match r_service r with Some s => unassign_flag c s | None => c end) rs c).
Proof.
  revert c. induction rs as [|r rs IH]; intros c Hi; cbn; [done|]. apply IH.
  destruct (r_service r) as [s|]; [|done]. eapply inv_frame; [apply Hi|apply unassign_frame|apply Hi].
Qed.

Lemma remove_all_ok c : client_inv 0 c -> exists c', remove_all_roles c = Ret c' /\ client_inv 0 c'.
Proof.
  intros Hi. pose proof (shape_ready _ (ci_shape _ _ Hi)) as Hr.
  destruct (for_roles_ok (valid_sptr c) (with_lock true c) (with_lock true c) clear_role) as (c2 & E2 & Hf2 & Hb2);
    [apply rm_frame_refl|by apply lock_ready|apply Hi|by apply clear_role_ok, lock_ready|].
  destruct (locked_section c (fun _ => Ret c2) c2) as [E Hf]; [apply Hr|apply Hi|done|done|].
  unfold remove_all_roles, LOCK in *. rewrite (rr_state _ Hr), (ci_locked _ _ (ci_shape _ _ Hi)) in *. cbn [negb mbind outcome_bind] in *.
  fold (with_lock true c). rewrite E2. obind. rewrite E. obind. eexists. split; [done|].
  apply inv_roles; [|apply sublist_nil_l]. apply unassign_all_ok. by eapply roles_change.
Qed.

(** ** Histories *)

Section Histories.
Context `{JdSpec} `{AnnounceSpec} `{RoleManagerSpec} `{Heap}.
Context (self : Z).

(** What can happen to a client: packets, ticks, and what the program and the
    role manager's commands do with roles and registers. *)
Inductive client_op :=
  | OpPacket (now : Z) (pkt : list Z)
  | OpTick (now : Z)
  | OpAutobind
  | OpSetRole (pkt : list Z)
  | OpClearRoles
  | OpRoleAlloc (name : list Z) (cls : Z)
  | OpRoleFree (p : Z)
  | OpRoleFreeAll
  | OpSetHints (force : bool) (app : Z)
  | OpQuery (now_ms : Z) (s : sptr) (code refresh_ms : Z).

Definition client_step (op : client_op) (c : client) : outcome client :=
  match op with
  | OpPacket now pkt => jd_client_handle_packet self now pkt c
  | OpTick now => jd_client_process now c
  | OpAutobind => jd_role_force_autobind self c
  | OpSetRole pkt => rolemgr_set_role pkt c
  | OpClearRoles => for_roles (role_ptrs c) clear_role c
  | OpRoleAlloc name cls => Ret (snd (add_role name cls c))
  | OpRoleFree p => remove_role p c
  | OpRoleFreeAll => remove_all_roles c
  | OpSetHints force app => jd_role_set_hints c force app
  | OpQuery now_ms s code refresh_ms =>
      '(_, c, _) ← jd_service_query now_ms s code refresh_ms c ([] : list (list Z)); Ret c
  end.

(** A freed role is one of the manager's. *)
Definition op_pre (op : client_op) (c : client) : Prop :=
  match op with
  | OpPacket _ pkt => Forall is_byte pkt
  | OpRoleFree p => p ∈ role_ptrs c
  | _ => True
  end.

Inductive client_reach : client -> Prop :=
  | reach_init c : jd_devices c = [] -> event_scope c = 0 -> rm_state (rm c) = true -> locked (rm c) = false ->
      roles (rm c) = [] -> client_reach c
  | reach_step op c c' : client_reach c -> op_pre op c -> client_step op c = Ret c' -> client_reach c'.

Lemma query_ok now_ms s code refresh_ms c : client_inv 0 c ->
  exists c', client_step (OpQuery now_ms s code refresh_ms) c = Ret c' /\ client_inv 0 c'.
Proof.
  intros Hi. cbn [client_step]. unfold jd_service_query. set (c1 := match _ with Some _ => c | None => _ end).
  assert (client_inv 0 c1) as Hi1.
  { unfold c1. destruct (jd_service_query_lookup _ _ _); [done|]. by apply upd_queries_ok. }
  destruct (jd_service_query_lookup c1 _ _) as [[i q]|]; [|by exists c1].
  destruct (_ && _); [|by exists c1]. cbn. eexists. split; [done|]. by apply upd_queries_ok.
Qed.

Lemma client_step_ok op c : client_inv 0 c -> op_pre op c ->
  exists c', client_step op c = Ret c' /\ client_inv 0 c'.
Proof.
  intros Hi Hp. pose proof (shape_ready _ (ci_shape _ _ Hi)) as Hr. destruct op; cbn [client_step op_pre] in *.
  - by apply handle_packet_ok.
  - by apply client_process_ok.
  - unfold jd_role_force_autobind. rewrite (rr_state _ Hr). cbn [negb].
    destruct (autobind_ok self (valid_sptr c) c) as (c' & E & Hf & Hb); [done|apply Hi|apply Hi|done|].
    exists c'. split; [done|]. by eapply roles_change.
  - by apply set_role_ok.
  - destruct (clear_roles_ok 0 c Hi Hr) as (c' & E & Hf & Hi'). exists c'. split; [done|].
    replace c' with (set_scope c' 0); [done|]. pose proof (rf_scope _ _ Hf) as Hs. rewrite (rr_scope _ Hr) in Hs.
    destruct c'; cbn in *. by subst.
  - eexists. split; [done|]. by apply add_role_ok.
  - by apply remove_role_ok.
  - by apply remove_all_ok.
  - unfold jd_role_set_hints. rewrite (rr_state _ Hr). cbn [negb]. eexists. split; [done|].
    destruct Hi as [[] ?]. constructor; [by constructor|done].
  - by apply query_ok.
Qed.

Lemma client_reach_inv c : client_reach c -> client_inv 0 c.
Proof.
  induction 1 as [c Hd Hs Hst Hl Hro|op c c' _ IH Hp E].
  - constructor; [constructor; try done; rewrite ?Hd; try by constructor|].
    + unfold role_ptrs. rewrite Hro. constructor.
    + intros r s Hr. rewrite Hro in Hr. by apply elem_of_nil in Hr.
  - destruct (client_step_ok op c IH Hp) as (c2 & E2 & Hi). congruence.
Qed.

(** C6. No role is ever left with a service that is gone. In every state that
    packets, ticks, bindings, commands and queries can lead to, each bound role
    points to a service of a device in the list, no two devices have the same
    identifier; and from such a state every operation runs to its end: the
    checks of the event scope and of the lock never fail. *)
Theorem roles_never_dangle c op :
  client_reach c -> op_pre op c ->
  (forall r s, r ∈ roles (rm c) -> r_service r = Some s ->
     exists d, d ∈ jd_devices c /\ d_ptr d = jd_service_parent s /\ 0 <= snd s < zlen (services d)) /\
  NoDup (map device_identifier (jd_devices c)) /\
  exists c', client_step op c = Ret c'.
Proof.
  intros Hr Hp. pose proof (client_reach_inv c Hr) as Hi. split_and!.
  - intros r s Hin Hs. destruct (ci_bound _ _ Hi r s Hin Hs) as (d & Hd & Hpt & Hx). 
    pose proof (ci_len _ _ (ci_shape _ _ Hi)) as Hl. rewrite Forall_forall in Hl. specialize (Hl d Hd).
    exists d. unfold jd_service_parent. split_and!; [done|done|lia|lia].
  - apply Hi.
  - destruct (client_step_ok op c Hi Hp) as (c' & ? & _). by exists c'.
Qed.
End Histories.

(** ** Events are delivered once *)

Section Events.
Context `{JdSpec} `{AnnounceSpec} `{RoleManagerSpec} `{Heap}.
Context (self : Z).

(** The events that report packets of services. *)
Definition is_packet_event (e : client_event) : bool :=
  match e with EvServicePacket _ _ | EvRepeatedEventPacket _ _ => true | _ => false end.
Definition packet_events (tr : list client_event) : list client_event :=
  filter (fun e => is_packet_event e = true) tr.

(** [pkt] is the event number [n] (modulo 128) of a service. *)
Record event_from (id idx n : Z) (pkt : list Z) : Prop := {
  ef_bytes : Forall is_byte pkt;
  ef_id : f_device_identifier pkt = id;
  ef_idx : p_service_index pkt = idx;
  ef_event : jd_is_event pkt = true;
  ef_flags : has_flag (f_flags pkt) JD_FRAME_FLAG_IDENTIFIER_IS_SERVICE_CLASS = false;
  ef_counter : packet_event_counter pkt = n mod 128;
}.

(** The numbers received, when [e] is the next one to deliver: at most 59 old,
    at most four ahead. *)
Fixpoint in_window (e : Z) (ns : list Z) : Prop :=
  match ns with
  | [] => True
  | n :: ns => e - 59 <= n <= e + 4 /\ in_window (if n =? e then e + 1 else e) ns
  end.
Fixpoint first_copies (e : Z) (ns : list Z) : list bool :=
  match ns with
  | [] => []
  | n :: ns => (n =? e) :: first_copies (if n =? e then e + 1 else e) ns
  end.
(** The numbers delivered. *)
Definition delivered_numbers (e : Z) (ns : list Z) : list Z :=
  map fst (filter (fun x : Z * bool => snd x = true) (zip ns (first_copies e ns))).

Lemma delivered_cons e n ns : delivered_numbers e (n :: ns) =
  if n =? e then n :: delivered_numbers (e + 1) ns else delivered_numbers e ns.
Proof. unfold delivered_numbers. cbn [first_copies zip_with]. rewrite filter_cons. cbn [snd]. by destruct (n =? e). Qed.

Lemma delivered_consecutive ns : forall e, delivered_numbers e ns = seqZ e (zlen (delivered_numbers e ns)).
Proof.
  induction ns as [|n ns IH]; intros e; [done|]. rewrite delivered_cons.
  case_cmp; [|apply IH]. subst n. unfold zlen. cbn [length]. rewrite seqZ_cons by lia.
  f_equal. rewrite IH at 1. unfold zlen. f_equal; lia.
Qed.

Lemma land127 x : Z.land x JD_CMD_EVENT_COUNTER_MASK = x mod 128.
Proof. change JD_CMD_EVENT_COUNTER_MASK with (Z.ones 7). by rewrite Z.land_ones by lia. Qed.

Lemma event_filter_first n : event_filter 0xff (n mod 128) = (false, n mod 128).
Proof.
  unfold event_filter. cbn [Z.eqb Pos.eqb]. rewrite !land127.
  replace (n mod 128 - (n mod 128 - 1 + 1)) with 0 by lia. cbn.
  rewrite u8_small; [done|]. pose proof (Z.mod_pos_bound n 128). lia.
Qed.

Lemma event_filter_spec e n : e - 59 <= n <= e + 4 ->
  event_filter ((e - 1) mod 128) (n mod 128) =
    if n =? e then (false, n mod 128) else (true, (e - 1) mod 128).
Proof.
  intros Hw. unfold event_filter. pose proof (Z.mod_pos_bound (e - 1) 128 ltac:(lia)) as Hb.
  pose proof (Z.mod_pos_bound n 128 ltac:(lia)) as Hbn.
  rewrite (proj2 (Z.eqb_neq _ _)) by lia. rewrite !land127.
  assert ((n mod 128 - ((e - 1) mod 128 + 1)) mod 128 = (n - e) mod 128) as ->.
  { rewrite <- (Zminus_mod_idemp_l n), <- (Zminus_mod_idemp_r _ e). 
    replace e with (e - 1 + 1) at 2 by lia. rewrite <- (Zplus_mod_idemp_l (e - 1)).
    by rewrite Zminus_mod_idemp_r. }
  assert (((e - 1) mod 128 + 1 - n mod 128) mod 128 = (e - n) mod 128) as ->.
  { rewrite Zminus_mod_idemp_r, <- Zminus_mod_idemp_l, Zplus_mod_idemp_l, Zminus_mod_idemp_l. f_equal. lia. }
  destruct (Z.eqb_spec n e) as [->|Hne].
  - rewrite Z.sub_diag. cbn. by rewrite u8_small by lia.
  - destruct (Z.ltb_spec e n) as [Hlt|Hge].
    + rewrite (Z.mod_small (n - e)) by lia.
      rewrite Z.gtb_ltb, (proj2 (Z.ltb_lt 0 _)), (proj2 (Z.ltb_lt (n - e) 5)), orb_true_r by lia. done.
    + rewrite (Z.mod_small (e - n)) by lia. rewrite (proj2 (Z.ltb_lt (e - n) 60)) by lia.
      rewrite Z.gtb_ltb, (proj2 (Z.ltb_lt 0 _)); [done|]. 
      replace (n - e) with (128 - (e - n) + -1 * 128) by lia. rewrite Z.mod_add, Z.mod_small by lia. lia.
Qed.

(** What the handling of a register leaves of a device. *)
Definition dkey (d : device) : Z * Z * Z * Z := (d_ptr d, device_identifier d, num_services d, event_counter d).

Definition same_keys (c c' : client) : Prop := map dkey (jd_devices c') = map dkey (jd_devices c).

Lemma packet_events_snoc tr e : packet_events (tr ++ [e]) = packet_events tr ++ (if is_packet_event e then [e] else []).
Proof. unfold packet_events. rewrite filter_app. f_equal. cbn. by case_decide; destruct (is_packet_event e). Qed.

Lemma handle_register_events s pkt c : client_inv 1 c -> exists c', handle_register s pkt c = Ret c' /\ client_inv 1 c' /\
  same_keys c c' /\ packet_events (cl_trace c') = packet_events (cl_trace c).
Proof.
  intros Hi. destruct (handle_register_ok s pkt c Hi) as (c' & E & Hi'). exists c'. split_and!; [done|done| |]; clear Hi'; revert E.
  all: unfold handle_register, handle_not_implemented, handle_value.
  all: repeat case_match; try (intros [= <-]; try done).
  all: try (rewrite emit_spec; [|exact (ci_scope _ _ (ci_shape _ _ Hi))]; intros [= <-]).
  all: cbn [cl_trace cl_log upd_query upd_device set_devices set_buffers]; rewrite ?packet_events_snoc, ?app_nil_r; try done.
  all: etrans; [by apply map_upd|done].
Qed.

Lemma lookup_key sc c d0 : client_inv sc c -> dkey d0 ∈ map dkey (jd_devices c) ->
  exists d, jd_device_lookup c (device_identifier d0) = Some d /\ dkey d = dkey d0.
Proof.
  intros Hi (d & Hk & Hd)%list_elem_of_fmap. exists d. split; [|done].
  assert (device_identifier d0 = device_identifier d) as -> by (unfold dkey in Hk; congruence).
  unfold jd_device_lookup. apply find_ptr_in; [apply Hi|done].
Qed.

Lemma event_command pkt : jd_is_event pkt = true -> has_flag (f_flags pkt) JD_FRAME_FLAG_COMMAND = false /\
  p_service_index pkt <= JD_SERVICE_INDEX_MAX_NORMAL /\ p_service_command pkt <> 0.
Proof.
  unfold jd_is_event, jd_is_report, jd_is_command. intros [[Hc Hi]%andb_true_iff Hm]%andb_true_iff. bool_to_prop.
  split_and!; [done|done|]. intros E. rewrite E in Hm. done.
Qed.

Lemma event_step now c id idx n pkt d : client_inv 0 c -> jd_device_lookup c id = Some d ->
  idx < num_services d -> event_from id idx n pkt ->
  let '(rep, ctr) := event_filter (event_counter d) (n mod 128) in
  exists c', jd_client_handle_packet self now pkt c = Ret c' /\ client_inv 0 c' /\
    packet_events (cl_trace c') = packet_events (cl_trace c) ++
      [if rep : bool then EvRepeatedEventPacket (d_ptr d, idx) pkt else EvServicePacket (d_ptr d, idx) pkt] /\
    exists d', jd_device_lookup c' id = Some d' /\ dkey d' = dkey (set_event_counter d ctr).
Proof.
  intros Hi0 Hd Hidx [Hb Hid Hix Hev Hfl Hct].
  destruct (event_command pkt Hev) as (Hcmd & Hmax & Hnz).
  destruct (event_filter _ _) as [rep ctr] eqn:Ef.
  unfold jd_client_handle_packet. destruct (enter_ok c Hi0) as [-> Hi]. obind. set (c1 := set_scope c 1) in *.
  rewrite Hfl, Hcmd, Hid. cbv zeta. change (jd_device_lookup c1 id) with (jd_device_lookup c id). rewrite Hd.
  assert (Z.land (p_service_index pkt) JD_SERVICE_INDEX_MASK = idx) as ->.
  { rewrite Hix. change JD_SERVICE_INDEX_MASK with (Z.ones 6). rewrite Z.land_ones by lia.
    pose proof (get8_is_byte pkt 13 Hb) as Hr. fold (p_service_index pkt) in Hr. unfold is_byte in Hr.
    unfold JD_SERVICE_INDEX_MAX_NORMAL in Hmax. apply Z.mod_small. lia. }
  cbn [fmap option_fmap option_map jd_device_get_service]. rewrite (proj2 (Z.ltb_lt _ _)) by done.
  rewrite (proj2 (Z.eqb_neq (p_service_command pkt) 0)), andb_false_r by done. obind.
  destruct (lookup_at _ _ _ _ Hi Hd) as (Hat & Hdi & Hin).
  unfold handle_report. rewrite Hat, Hev, Hct, Ef.
  set (c2 := upd_device c1 (d_ptr d) _).
  assert (client_inv 1 c2) as Hi2 by by apply inv_upd.
  destruct (handle_register_events (d_ptr d, idx) pkt c2 Hi2) as (c3 & -> & Hi3 & Hk3 & Ht3). obind.
  destruct (emit_ok c3 (if rep then EvRepeatedEventPacket (d_ptr d, idx) pkt else EvServicePacket (d_ptr d, idx) pkt) Hi3) as [-> Hi4].
  obind. destruct (leave_ok _ Hi4) as [-> Hi5]. eexists. split_and!; [done|done| |].
  - cbn. rewrite packet_events_snoc, Ht3. f_equal. by destruct rep.
  - rewrite <- Hdi. apply (lookup_key 0 _ (set_event_counter d ctr)); [done|]. cbn. rewrite Hk3. apply list_elem_of_fmap.
    exists (set_event_counter d ctr). split; [done|]. apply list_elem_of_fmap. exists d.
    apply device_lookup_spec in Hd as [Hd _]. split; [|done]. by rewrite (proj2 (Z.eqb_eq _ _)).
Qed.

(** Packets arriving, with their times. *)
Fixpoint receive_packets (ps : list (Z * list Z)) (c : client) : outcome client :=
  match ps with
  | [] => Ret c
  | (t, pkt) :: ps => c ← jd_client_handle_packet self t pkt c; receive_packets ps c
  end.

(** The device expects the event number [e]; a new one takes any number first. *)
Definition expects (d : device) (e : Z) (ns : list Z) : Prop :=
  event_counter d = (e - 1) mod 128 \/ event_counter d = 0xff /\ head ns = Some e.

Lemma receive_events ps : forall c id idx d e ns, client_inv 0 c -> jd_device_lookup c id = Some d ->
  idx < num_services d -> Forall2 (event_from id idx) ns (map snd ps) -> in_window e ns -> expects d e ns ->
  exists c', receive_packets ps c = Ret c' /\
    packet_events (cl_trace c') = packet_events (cl_trace c) ++
      zip_with (fun (first : bool) pkt => if first then EvServicePacket (d_ptr d, idx) pkt
                               else EvRepeatedEventPacket (d_ptr d, idx) pkt) (first_copies e ns) (map snd ps).
Proof.
  induction ps as [|[t pkt] ps IH]; intros c id idx d e ns Hi Hd Hidx Hev Hw Hex; cbn [map snd receive_packets] in *.
  - apply Forall2_nil_inv_r in Hev as ->. exists c. by rewrite app_nil_r.
  - apply Forall2_cons_inv_r in Hev as (n & ns' & Hn & Hev & ->). cbn [in_window first_copies zip_with] in *.
    destruct Hw as [Hw1 Hw]. pose proof (event_step t c id idx n pkt d Hi Hd Hidx Hn) as Hst.
    set (e' := if n =? e then e + 1 else e) in *.
    assert (exists ctr, event_filter (event_counter d) (n mod 128) = (negb (n =? e), ctr) /\
      (ctr = (e' - 1) mod 128)) as (ctr & Ef & Hc).
    { unfold e'. destruct Hex as [->|[-> Hh]].
      - rewrite event_filter_spec by done. destruct (Z.eqb_spec n e) as [->|]; eexists; (split; [done|]); [f_equal; lia|done].
      - cbn in Hh. injection Hh as ->. rewrite event_filter_first, Z.eqb_refl. eexists. split; [done|]. f_equal. lia. }
    rewrite Ef in Hst. destruct Hst as (c1 & -> & Hi1 & Ht1 & d' & Hd' & Hk). obind.
    unfold dkey in Hk. cbn in Hk. injection Hk as Hp _ Hns Hctr.
    destruct (IH c1 id idx d' e' ns' Hi1 Hd') as (c' & -> & Ht); [lia|done|done|left; congruence|].
    exists c'. split; [done|]. rewrite Ht, Ht1, Hp, <- app_assoc. do 2 f_equal. by destruct (n =? e).
Qed.

(** C7. An event of a service reaches the program once, and events in order.
    However many copies of the events of a device arrive, in whatever order and
    with whatever losses (while none is more than 59 behind or 4 ahead of the
    next one due), the handlers get each packet in turn, as a regular packet
    exactly when it is the next event due and as a repeated one otherwise; so
    the numbers delivered are consecutive. *)
Theorem client_events_once c id idx d e ns ps :
  client_reach self c -> jd_device_lookup c id = Some d -> idx < num_services d ->
  Forall2 (event_from id idx) ns (map snd ps) -> in_window e ns -> expects d e ns ->
  (exists c', receive_packets ps c = Ret c' /\
    packet_events (cl_trace c') = packet_events (cl_trace c) ++
      zip_with (fun (first : bool) pkt => if first then EvServicePacket (d_ptr d, idx) pkt
                               else EvRepeatedEventPacket (d_ptr d, idx) pkt) (first_copies e ns) (map snd ps)) /\
  delivered_numbers e ns = seqZ e (zlen (delivered_numbers e ns)).
Proof.
  intros Hr%client_reach_inv Hd Hi Hev Hw Hex. split; [|apply delivered_consecutive].
  by eapply receive_events.
Qed.
End Events.

(** ** Concrete histories *)

Fixpoint client_run `{JdSpec} `{AnnounceSpec} `{RoleManagerSpec} `{Heap} (self : Z) (ops : list client_op) (c : client)
    : outcome client :=
  match ops with
  | [] => Ret c
  | op :: ops => c ← client_step self op c; client_run self ops c
  end.

Lemma client_run_reach `{JdSpec} `{AnnounceSpec} `{RoleManagerSpec} `{Heap} self ops : forall c c',
  client_reach self c -> Forall (fun op => forall c, op_pre op c) ops -> client_run self ops c = Ret c' -> client_reach self c'.
Proof.
  induction ops as [|op ops IH]; intros c c' Hr Hp; cbn [client_run]; [by intros [= <-]|].
  apply Forall_cons in Hp as [Hp Hps]. destruct (client_step self op c) as [c1| |] eqn:E; obind; [|done..].
  apply IH; [|done]. by eapply reach_step.
Qed.

(** Device 70, with services of classes 16 and 32, is announced, a role of
    class 16 allocated and bound. *)
Definition demo_announcement : list Z := demo_report 70 0 0 (le_bytes 4 1 ++ le_bytes 4 16 ++ le_bytes 4 32).
Definition demo_ops : list client_op :=
  [OpPacket 1000 demo_announcement; OpRoleAlloc [97] 16; OpAutobind].
Definition demo_state : outcome client :=
  client_run (H := demo_spec) (H0 := demo_announce) (H1 := demo_manager) (H2 := bump_heap) 9 demo_ops demo_client.
Definition the {A} (d : A) (m : outcome A) : A := match m with Ret a => a | _ => d end.

Lemma demo_reach : client_reach (H := demo_spec) (H0 := demo_announce) (H1 := demo_manager) (H2 := bump_heap) 9 (the demo_client demo_state).
Proof.
  eapply (client_run_reach 9 demo_ops demo_client); [by apply reach_init| |vm_compute; reflexivity].
  apply Forall_cons; split; [|repeat (apply Forall_cons; split; [intros c; exact I|]); by apply Forall_nil].
  intros c. change (Forall is_byte demo_announcement). by apply bytes_by_test.
Qed.

(** The device has not been heard of for more than two seconds. *)
Lemma roles_never_dangle_witness :
  let c := the demo_client demo_state in
  map r_service (roles (rm c)) = [Some (1, 1)] /\
  exists c', client_step (H := demo_spec) (H0 := demo_announce) (H1 := demo_manager) (H2 := bump_heap) 9 (OpTick 3000000) c = Ret c'.
Proof.
  cbv zeta. split; [vm_compute; reflexivity|].
  apply (roles_never_dangle (H := demo_spec) (H0 := demo_announce) (H1 := demo_manager) (H2 := bump_heap) 9
    (the demo_client demo_state) (OpTick 3000000) demo_reach I).
Defined.

(** Event number [n] of service 1 of device 70. *)
Definition demo_event (n : Z) : list Z := demo_report 70 1 (JD_CMD_EVENT_MK n 1) [].

(** Copies of four events, across the wrap of the counter; one event is lost
    at first and overtaken. *)
Definition demo_numbers : list Z := [126; 126; 127; 129; 128; 127; 129].

Lemma client_events_once_witness :
  let c := the demo_client demo_state in
  delivered_numbers 126 demo_numbers = [126; 127; 128; 129] /\
  exists c', receive_packets (H := demo_spec) (H0 := demo_announce) (H2 := bump_heap) 9 (map (fun n => (5000, demo_event n)) demo_numbers) c = Ret c'.
Proof.
  cbv zeta.
  destruct (client_events_once (H := demo_spec) (H0 := demo_announce) (H1 := demo_manager) (H2 := bump_heap) 9
    (the demo_client demo_state) 70 1 (the (demo_device 0 0 []) (match jd_device_lookup (the demo_client demo_state) 70 with Some d => Ret d | None => Panic end))
    126 demo_numbers (map (fun n => (5000, demo_event n)) demo_numbers) demo_reach) as [(c' & E & _) _].
  - vm_compute. reflexivity.
  - vm_compute. reflexivity.
  - repeat (apply Forall2_cons; split; [constructor; try (vm_compute; reflexivity); by apply bytes_by_test|]). by apply Forall2_nil.
  - vm_compute. repeat split; discriminate.
  - right. split; reflexivity.
  - split; [vm_compute; reflexivity|]. by exists c'.
Defined.

(** *** Defects *)

Definition with_devices (ds : list device) : client := set_devices demo_client ds.

(** Of two neighbouring expired devices after the first one, a collection
    removes only one: the pointer moves past the device after a removed one. *)
Lemma jd_device_gc_skips :
  (c ← jd_device_gc 3000000 (set_scope (with_devices
         [set_expires (demo_device 1 70 [0]) 4000000; demo_device 2 71 [0]; demo_device 3 72 [0]]) 1);
   Ret (map d_ptr (jd_devices c))) = Ret [1; 3].
Proof. vm_compute. reflexivity. Qed.

(** Without a role manager, removing a device follows the pointer [NULL]. *)
Lemma jd_device_gc_needs_manager :
  jd_device_gc 3000000 (set_scope (set_rm (with_devices [demo_device 1 70 [0]])
    {| rm_state := false; rm_common := []; auto_bind_enabled := 0; all_roles_allocated := 0; changed := false;
       locked := false; force_hints := false; roles := []; next_autobind := 0; changed_timeout := 0; list_pipe := 0;
       list_ptr := None; app_device_id := 0 |}) 1) = Panic.
Proof. vm_compute. reflexivity. Qed.

(** An announcement without a word makes a device without services, whose
    service 0 is then used all the same. *)
Lemma empty_announcement_uses_service_0 :
  (c ← jd_client_handle_packet (H := demo_spec) (H0 := demo_announce) (H1 := bump_heap) 9 1000 (demo_report 70 0 0 []) demo_client;
   Ret (map (length ∘ services) (jd_devices c), packet_events (cl_trace c))) =
  Ret ([0%nat], [EvServicePacket (1, 0) (demo_report 70 0 0 [])]).
Proof. vm_compute. reflexivity. Qed.

(** A register whose value shrinks from eight bytes to two leaves a buffer that
    nothing points to. *)
Lemma register_shrink_leaks :
  let ops := [OpPacket 1000 demo_announcement; OpQuery 1 (1, 1) 0x101 0;
              OpPacket 1001 (demo_report 70 1 0x1101 [1; 2; 3; 4; 5; 6; 7; 8]);
              OpPacket 1002 (demo_report 70 1 0x1101 [1; 2]); OpTick 3000000] in
  (c ← client_run (H := demo_spec) (H0 := demo_announce) (H1 := demo_manager) (H2 := bump_heap) 9 ops demo_client;
   Ret (length (jd_devices c), reg_buffers c)) = Ret (0%nat, 1).
Proof. vm_compute. reflexivity. Qed.

(** A register found not to be implemented has its index marked: clearing the
    queries of its service does not find it. *)
Lemma clear_queries_misses_not_implemented :
  let q := {| reg_code := 0x101; q_service_index := 1; resp_size := 0; last_query_ms := 5; q_data := [] |} in
  jd_device_clear_queries [q_not_implemented q; q] 1 = ([q_not_implemented q], 0).
Proof. vm_compute. reflexivity. Qed.
