(* ===== verification/Ledstrip.v ===== *)
(** * The LED strip service ([services/ledstrip.c], [services/led_internal.h])

    A host sends small programs that paint the pixels of a strip; the service
    runs them step by step, keeps the current below a limit and hands the
    pixels to the driver. The program is bytes from the network: what matters
    is that it can only touch the pixels, and that it ends.

    An access outside of the pixel buffer is [Panic] here, as is a division by
    zero that traps. The driver and the power switch are events of a trace. *)
From S2P Require Import Prelude Frame Util Iface Registers.

Definition DEFAULT_INTENSITY : Z := 15.
Definition PX_WORDS (num_pixels : Z) : Z := (num_pixels * 3 + 3) / 4.

Definition LIGHT_PROG_SET_ALL : Z := 0xD0.
Definition LIGHT_PROG_FADE : Z := 0xD1.
Definition LIGHT_PROG_FADE_HSV : Z := 0xD2.
Definition LIGHT_PROG_ROTATE_FWD : Z := 0xD3.
Definition LIGHT_PROG_ROTATE_BACK : Z := 0xD4.
Definition LIGHT_PROG_SHOW : Z := 0xD5.
Definition LIGHT_PROG_RANGE : Z := 0xD6.
Definition LIGHT_PROG_MODE : Z := 0xD7.
Definition LIGHT_PROG_MODE1 : Z := 0xD8.
Definition LIGHT_MODE_REPLACE : Z := 0x00.
Definition LIGHT_MODE_ADD_RGB : Z := 0x01.
Definition LIGHT_MODE_SUBTRACT_RGB : Z := 0x02.
Definition LIGHT_MODE_MULTIPLY_RGB : Z := 0x03.
Definition LIGHT_MODE_LAST : Z := 0x03.
Definition LIGHT_PROG_COLN : Z := 0xC0.
Definition LIGHT_PROG_COL1 : Z := 0xC1.
Definition LIGHT_PROG_COL2 : Z := 0xC2.
Definition LIGHT_PROG_COL3 : Z := 0xC3.
Definition LIGHT_PROG_COL1_SET : Z := 0xCF.
Definition PROG_EOF : Z := 0.
Definition PROG_CMD : Z := 1.
Definition PROG_NUMBER : Z := 3.
Definition PROG_COLOR_BLOCK : Z := 4.

(** Division of the target machine; C leaves a division by zero open: it may
    give any number, or trap. *)
Class Division := {
  udiv : Z -> Z -> outcome Z;
  udiv_spec : forall a b, 0 < b -> udiv a b = Ret (a / b);
  udiv_ends : forall a b, udiv a b <> OutOfFuel;
  sdiv : Z -> Z -> outcome Z;
  sdiv_spec : forall a b, b <> 0 -> sdiv a b = Ret (Z.quot a b);
  sdiv_ends : forall a b, sdiv a b <> OutOfFuel;
}.
(** A machine on which some division by zero traps. *)
Definition division_traps `{Division} : Prop := exists a, udiv a 0 = Panic \/ sdiv a 0 = Panic.

(** ** State *)

Record RGB := { c_r : Z; c_g : Z; c_b : Z }.

(** The fields that registers show. *)
Record led_regs := {
  requested_intensity : Z;  (* uint8_t *)
  intensity : Z;            (* uint8_t *)
  ledstrip_type : Z;        (* uint8_t *)
  variant : Z;              (* uint8_t *)
  numpixels : Z;            (* uint16_t *)
  maxpower : Z;             (* uint16_t *)
  maxpixels : Z;            (* uint16_t *)
  num_repeats : Z;          (* uint16_t *)
}.

(** The range that a program works on, in pixels. *)
Record led_range := {
  range_start : Z;          (* uint16_t *)
  range_end : Z;            (* uint16_t *)
  range_len : Z;            (* uint16_t *)
  range_ptr : Z;            (* uint16_t *)
}.

Record led_prog := {
  prog_mode : Z;            (* uint8_t *)
  prog_tmpmode : Z;         (* uint8_t *)
  prog_ptr : Z;             (* uint8_t *)
  prog_size : Z;            (* uint8_t *)
  prog_next_step : Z;       (* uint32_t *)
  prog_data : list Z;       (* 237 bytes *)
}.

Inductive led_event :=
  | LedTx (data : list Z) (intensity : Z)   (* px_tx *)
  | LedPower (on : bool)                    (* jd_power_enable *)
  | LedInit (type : Z)                      (* px_init *)
  | LedEnterPll                             (* pwr_enter_pll *)
  | LedLeavePll.

Record ledstrip := {
  l_common : list Z;        (* SRV_COMMON *)
  l_regs : led_regs;
  l_range : led_range;
  l_prog : led_prog;
  pxbuffer : list Z;
  in_tx : bool;
  dirty : bool;
  inited : bool;
  auto_refresh : Z;         (* uint32_t *)
  l_trace : list led_event;
}.

Definition set_regs (s : ledstrip) (v : led_regs) : ledstrip :=
  {| l_common := l_common s; l_regs := v; l_range := l_range s; l_prog := l_prog s; pxbuffer := pxbuffer s;
     in_tx := in_tx s; dirty := dirty s; inited := inited s; auto_refresh := auto_refresh s; l_trace := l_trace s |}.
Definition set_run (s : ledstrip) (rg : led_range) (p : led_prog) (px : list Z) : ledstrip :=
  {| l_common := l_common s; l_regs := l_regs s; l_range := rg; l_prog := p; pxbuffer := px;
     in_tx := in_tx s; dirty := dirty s; inited := inited s; auto_refresh := auto_refresh s; l_trace := l_trace s |}.
Definition set_status (s : ledstrip) (tx dirt ini : bool) (refresh : Z) : ledstrip :=
  {| l_common := l_common s; l_regs := l_regs s; l_range := l_range s; l_prog := l_prog s; pxbuffer := pxbuffer s;
     in_tx := tx; dirty := dirt; inited := ini; auto_refresh := refresh; l_trace := l_trace s |}.
Definition l_emit (s : ledstrip) (e : led_event) : ledstrip :=
  {| l_common := l_common s; l_regs := l_regs s; l_range := l_range s; l_prog := l_prog s; pxbuffer := pxbuffer s;
     in_tx := in_tx s; dirty := dirty s; inited := inited s; auto_refresh := auto_refresh s; l_trace := l_trace s ++ [e] |}.

Definition set_ptr (p : led_prog) (v : Z) : led_prog :=
  {| prog_mode := prog_mode p; prog_tmpmode := prog_tmpmode p; prog_ptr := v; prog_size := prog_size p;
     prog_next_step := prog_next_step p; prog_data := prog_data p |}.
Definition set_modes (p : led_prog) (mode tmp : Z) : led_prog :=
  {| prog_mode := mode; prog_tmpmode := tmp; prog_ptr := prog_ptr p; prog_size := prog_size p;
     prog_next_step := prog_next_step p; prog_data := prog_data p |}.
Definition set_next_step (p : led_prog) (v : Z) : led_prog :=
  {| prog_mode := prog_mode p; prog_tmpmode := prog_tmpmode p; prog_ptr := prog_ptr p; prog_size := prog_size p;
     prog_next_step := v; prog_data := prog_data p |}.
Definition set_range_ptr (r : led_range) (v : Z) : led_range :=
  {| range_start := range_start r; range_end := range_end r; range_len := range_len r; range_ptr := v |}.
Definition set_intensity (r : led_regs) (v : Z) : led_regs :=
  {| requested_intensity := requested_intensity r; intensity := v; ledstrip_type := ledstrip_type r; variant := variant r;
     numpixels := numpixels r; maxpower := maxpower r; maxpixels := maxpixels r; num_repeats := num_repeats r |}.
Definition set_numpixels (r : led_regs) (v : Z) : led_regs :=
  {| requested_intensity := requested_intensity r; intensity := intensity r; ledstrip_type := ledstrip_type r; variant := variant r;
     numpixels := v; maxpower := maxpower r; maxpixels := maxpixels r; num_repeats := num_repeats r |}.
Definition set_maxpixels (r : led_regs) (v : Z) : led_regs :=
  {| requested_intensity := requested_intensity r; intensity := intensity r; ledstrip_type := ledstrip_type r; variant := variant r;
     numpixels := numpixels r; maxpower := maxpower r; maxpixels := v; num_repeats := num_repeats r |}.
Definition set_num_repeats (r : led_regs) (v : Z) : led_regs :=
  {| requested_intensity := requested_intensity r; intensity := intensity r; ledstrip_type := ledstrip_type r; variant := variant r;
     numpixels := numpixels r; maxpower := maxpower r; maxpixels := maxpixels r; num_repeats := v |}.

(** ** Colours *)

Definition rgb (r g b : Z) : RGB := {| c_r := u8 r; c_g := u8 g; c_b := u8 b |}.

Definition hsv (hue sat val : Z) : RGB :=
  let hue := u8 (Z.shiftr (hue * 192) 8) in
  let invsat := 255 - sat in
  let brightness_floor := Z.shiftr (val * invsat) 8 in
  let color_amplitude := val - brightness_floor in
  let section := hue / 0x40 in
  let offset := hue mod 0x40 in
  let rampup := offset in
  let rampdown := (0x40 - 1) - offset in
  let rampup_amp_adj := (rampup * color_amplitude) / (256 / 4) in
  let rampdown_amp_adj := (rampdown * color_amplitude) / (256 / 4) in
  let rampup_adj_with_floor := rampup_amp_adj + brightness_floor in
  let rampdown_adj_with_floor := rampdown_amp_adj + brightness_floor in
  if negb (section =? 0) then
    if section =? 1 then rgb brightness_floor rampdown_adj_with_floor rampup_adj_with_floor
    else rgb rampup_adj_with_floor brightness_floor rampdown_adj_with_floor
  else rgb rampdown_adj_with_floor rampup_adj_with_floor brightness_floor.

Definition reset_range (r : led_range) : led_range := set_range_ptr r (range_start r).

Definition mulcol (c m : Z) : Z :=
  let c2 := Z.shiftr (c * m) 7 in
  if (m <? 128) && (c =? c2) then c2 - 1
  else if (m >? 128) && (c =? c2) then c2 + 1
  else c2.

Definition clamp (c : Z) : Z := if c <? 0 then 0 else if c >? 255 then 255 else c.

(** The new value of one byte of a pixel. *)
Definition combine (mode old new : Z) : Z :=
  if mode =? LIGHT_MODE_REPLACE then new
  else clamp (if mode =? LIGHT_MODE_ADD_RGB then old + new
              else if mode =? LIGHT_MODE_SUBTRACT_RGB then old - new
              else if mode =? LIGHT_MODE_MULTIPLY_RGB then mulcol old new
              else old).

Definition set_next (mode : Z) (r : led_range) (px : list Z) (c : RGB) : outcome (bool * led_range * list Z) :=
  if range_ptr r >=? range_end r then Ret (false, r, px)
  else
    let o := range_ptr r * 3 in
    if (o + 3 <=? zlen px) then
      Ret (true, set_range_ptr r (u16 (range_ptr r + 1)),
           mwrite px o [combine mode (get8 px o) (c_r c); combine mode (get8 px (o + 1)) (c_g c);
                        combine mode (get8 px (o + 2)) (c_b c)])
    else Panic.

(** ** Reading the program *)

Definition prog_fetch_color (p : led_prog) : RGB * led_prog :=
  let ptr := prog_ptr p in
  if ptr + 3 >? prog_size p then (rgb 0 0 0, p)
  else
    let d := prog_data p in
    (rgb (get8 d ptr) (get8 d (ptr + 1)) (get8 d (ptr + 2)), set_ptr p (u8 (ptr + 3))).

(** The kind of the token and its value. *)
Definition prog_fetch (p : led_prog) : Z * Z * led_prog :=
  if prog_ptr p >=? prog_size p then (PROG_EOF, 0, p)
  else
    let d := prog_data p in
    let c := get8 d (prog_ptr p) in
    let p := set_ptr p (u8 (prog_ptr p + 1)) in
    if Z.land c 0x80 =? 0 then (PROG_NUMBER, c, p)
    else if Z.land c 0xc0 =? 0x80 then
      (PROG_NUMBER, Z.lor (Z.shiftl (Z.land c 0x3f) 8) (get8 d (prog_ptr p)), set_ptr p (u8 (prog_ptr p + 1)))
    else if c =? LIGHT_PROG_COL1 then (PROG_COLOR_BLOCK, 1, p)
    else if c =? LIGHT_PROG_COL2 then (PROG_COLOR_BLOCK, 2, p)
    else if c =? LIGHT_PROG_COL3 then (PROG_COLOR_BLOCK, 3, p)
    else if c =? LIGHT_PROG_COLN then (PROG_COLOR_BLOCK, get8 d (prog_ptr p), set_ptr p (u8 (prog_ptr p + 1)))
    else (PROG_CMD, c, p).

Definition prog_fetch_num (p : led_prog) (defl : Z) : Z * led_prog :=
  let prev := prog_ptr p in
  let '(r, res, p) := prog_fetch p in
  if r =? PROG_NUMBER then (res, p) else (defl, set_ptr p prev).

(** [while (cmd--) prog_fetch_color(state)] *)
Fixpoint skip_colors (n : nat) (p : led_prog) : led_prog :=
  match n with O => p | S n => skip_colors n (snd (prog_fetch_color p)) end.

Fixpoint prog_fetch_cmd (fuel : nat) (p : led_prog) : outcome (Z * led_prog) :=
  match fuel with
  | O => OutOfFuel
  | S fuel =>
      let '(r, cmd, p) := prog_fetch p in
      if r =? PROG_CMD then Ret (cmd, p)
      else if r =? PROG_COLOR_BLOCK then prog_fetch_cmd fuel (skip_colors (Z.to_nat cmd) p)
      else if r =? PROG_EOF then Ret (0, p)
      else prog_fetch_cmd fuel p
  end.

Section Ledstrip.
Context `{Division}.

(** ** Painting *)

(** [for (i = 0; i < len; ++i) ok = set_next(state, prog_fetch_color(state))] *)
Fixpoint set_colors (n : nat) (ok : bool) (rg : led_range) (p : led_prog) (px : list Z)
    : outcome (bool * led_range * led_prog * list Z) :=
  match n with
  | O => Ret (ok, rg, p, px)
  | S n =>
      let '(c, p) := prog_fetch_color p in
      '(ok, rg, px) ← set_next (prog_tmpmode p) rg px c;
      set_colors n ok rg p px
  end.

Fixpoint set_loop (fuel : nat) (len start : Z) (rg : led_range) (p : led_prog) (px : list Z)
    : outcome (led_range * led_prog * list Z) :=
  match fuel with
  | O => OutOfFuel
  | S fuel =>
      '(ok, rg, p, px) ← set_colors (Z.to_nat len) false rg (set_ptr p start) px;
      if ok : bool then set_loop fuel len start rg p px else Ret (rg, p, px)
  end.

(** Each turn but the last sets a pixel of the range. *)
Definition range_fuel (rg : led_range) : nat := S (S (Z.to_nat (range_end rg - range_ptr rg))).

Definition prog_set (len : Z) (rg : led_range) (p : led_prog) (px : list Z) : outcome (led_range * led_prog * list Z) :=
  let rg := reset_range rg in
  set_loop (range_fuel rg) len (prog_ptr p) rg p px.

(** [while (colidx < (colpos >> 16))], [n] turns. *)
Fixpoint fade_fetch (n : nat) (col0 col1 : RGB) (p : led_prog) : RGB * RGB * led_prog :=
  match n with
  | O => (col0, col1, p)
  | S n => let '(c, p) := prog_fetch_color p in fade_fetch n col1 c p
  end.

Definition MIX (f0 f1 fade0 fade1 : Z) : Z := Z.shiftr (f0 * fade0 + f1 * fade1 + 0x8000) 16.

Fixpoint fade_loop (fuel : nat) (usehsv : bool) (colstep colidx colpos : Z) (col0 col1 : RGB)
    (rg : led_range) (p : led_prog) (px : list Z) : outcome (led_range * led_prog * list Z) :=
  match fuel with
  | O => OutOfFuel
  | S fuel =>
      let target := Z.shiftr colpos 16 in
      let '(col0, col1, p) := fade_fetch (Z.to_nat (target - colidx)) col0 col1 p in
      let colidx := Z.max colidx target in
      let fade1 := Z.land colpos 0xffff in
      let fade0 := 0xffff - fade1 in
      let col := rgb (MIX (c_r col0) (c_r col1) fade0 fade1) (MIX (c_g col0) (c_g col1) fade0 fade1)
                     (MIX (c_b col0) (c_b col1) fade0 fade1) in
      let col := if usehsv then hsv (c_r col) (c_g col) (c_b col) else col in
      '(ok, rg, px) ← set_next (prog_tmpmode p) rg px col;
      if ok : bool then fade_loop fuel usehsv colstep colidx (u32 (colpos + colstep)) col0 col1 rg p px
      else Ret (rg, p, px)
  end.

Definition prog_fade (len : Z) (usehsv : bool) (rg : led_range) (p : led_prog) (px : list Z)
    : outcome (led_range * led_prog * list Z) :=
  if len <? 2 then prog_set len rg p px
  else
    let endp := u8 (prog_ptr p + 3 * len) in
    let '(col0, p) := prog_fetch_color p in
    let '(col1, p) := prog_fetch_color p in
    colstep ← udiv (u32 (Z.shiftl (len - 1) 16)) (range_len rg);
    let rg := reset_range rg in
    '(rg, p, px) ← fade_loop (range_fuel rg) usehsv colstep 0 0 col0 col1 rg p px;
    Ret (rg, set_ptr p endp, px).

(** Positions of bytes; both are inside of the buffer. *)
Fixpoint rot_loop (fuel : nat) (first middle last next : Z) (px : list Z) : outcome (list Z) :=
  match fuel with
  | O => OutOfFuel
  | S fuel =>
      if first =? next then Ret px
      else if (first <? zlen px) && (next <? zlen px) then
        let tmp := get8 px first in
        let px := put8 px first (get8 px next) in
        let first := first + 1 in
        let px := put8 px next tmp in
        let next := next + 1 in
        if next =? last then rot_loop fuel first middle last middle px
        else if first =? middle then rot_loop fuel first next last next px
        else rot_loop fuel first middle last next px
      else Panic
  end.

Definition AT (idx : Z) : Z := idx * 3.

Definition prog_rot (shift : Z) (rg : led_range) (px : list Z) : outcome (list Z) :=
  if (shift =? 0) || (shift >=? range_len rg) then Ret px
  else
    let first := AT (range_start rg) in
    let middle := AT (range_start rg + shift) in
    let last := AT (range_end rg) in
    rot_loop (S (Z.to_nat (last - first))) first middle last middle px.

(** ** The program *)

Definition fetch_mode (p : led_prog) : Z * led_prog :=
  let '(m, p) := prog_fetch_num p 0 in
  (if m >? LIGHT_MODE_LAST then 0 else m, p).

Definition reset_prog (now : Z) (s : ledstrip) : ledstrip :=
  let n := numpixels (l_regs s) in
  let rg := l_range s in
  let p := l_prog s in
  set_run s {| range_start := 0; range_end := n; range_len := n; range_ptr := range_ptr rg |}
    {| prog_mode := 0; prog_tmpmode := 0; prog_ptr := 0; prog_size := prog_size p; prog_next_step := now;
       prog_data := prog_data p |} (pxbuffer s).

(** [while (k >= len) k -= len], for [len > 0]. *)
Definition wrap_shift (k len : Z) : Z := k mod len.

Definition run_range (rg : led_range) (numpix : Z) (p : led_prog) : led_range * led_prog :=
  let '(start, p) := prog_fetch_num p 0 in
  let '(len, p) := prog_fetch_num p numpix in
  let start := if start >? numpix then numpix else start in
  let end_ := start + len in
  let end_ := if end_ >? numpix then numpix else end_ in
  ({| range_start := u16 start; range_end := u16 end_; range_len := u16 (end_ - start); range_ptr := range_ptr rg |}, p).

(** What a command other than [SHOW] does; [None] is [continue], which skips
    the end of the turn. *)
Definition run_cmd (numpix cmd : Z) (rg : led_range) (p : led_prog) (px : list Z)
    : outcome (option (led_range * led_prog * list Z) * led_prog) :=
  let some '(rg, p, px) := Ret (Some (rg, p, px), p) in
  if cmd =? LIGHT_PROG_COL1_SET then
    let '(k, p) := prog_fetch_num p 0 in
    let rg := set_range_ptr rg (u16 (range_start rg + k)) in
    let '(c, p) := prog_fetch_color p in
    '(_, rg, px) ← set_next (prog_tmpmode p) rg px c;
    some (rg, p, px)
  else if (cmd =? LIGHT_PROG_FADE) || (cmd =? LIGHT_PROG_FADE_HSV) || (cmd =? LIGHT_PROG_SET_ALL) then
    let '(r, len, p) := prog_fetch p in
    if negb (r =? PROG_COLOR_BLOCK) || (len =? 0) then Ret (None, p)
    else
      r ← (if cmd =? LIGHT_PROG_SET_ALL then prog_set len rg p px
           else prog_fade len (cmd =? LIGHT_PROG_FADE_HSV) rg p px);
      some r
  else if (cmd =? LIGHT_PROG_ROTATE_BACK) || (cmd =? LIGHT_PROG_ROTATE_FWD) then
    let '(k, p) := prog_fetch_num p 1 in
    let len := range_len rg in
    if len =? 0 then Ret (None, p)
    else
      let k := wrap_shift k len in
      let k := if (cmd =? LIGHT_PROG_ROTATE_FWD) && negb (k =? 0) then len - k else k in
      px ← prog_rot k rg px;
      some (rg, p, px)
  else if cmd =? LIGHT_PROG_MODE1 then
    let '(m, p) := fetch_mode p in some (rg, set_modes p (prog_mode p) m, px)
  else if cmd =? LIGHT_PROG_MODE then
    let '(m, p) := fetch_mode p in some (rg, set_modes p m (prog_tmpmode p), px)
  else if cmd =? LIGHT_PROG_RANGE then
    let '(rg, p) := run_range rg numpix p in some (rg, p, px)
  else some (rg, p, px).

(** The tokens of a program have one byte at least. *)
Definition cmd_fuel (p : led_prog) : nat := S (Z.to_nat (prog_size p)).

(** The loop of [prog_process]; the result says whether [SHOW] ended it. *)
Fixpoint run_loop (fuel : nat) (numpix : Z) (rg : led_range) (p : led_prog) (px : list Z)
    : outcome (bool * led_range * led_prog * list Z) :=
  match fuel with
  | O => OutOfFuel
  | S fuel =>
      '(cmd, p) ← prog_fetch_cmd (cmd_fuel p) p;
      if cmd =? 0 then Ret (false, rg, p, px)
      else if cmd =? LIGHT_PROG_SHOW then
        let '(k, p) := prog_fetch_num p 50 in
        Ret (true, rg, set_next_step p (u32 (prog_next_step p + k * 1000)), px)
      else
        '(r, p) ← run_cmd numpix cmd rg p px;
        match r with
        | None => run_loop fuel numpix rg p px
        | Some (rg, p, px) =>
            let p := if cmd =? LIGHT_PROG_MODE1 then p else set_modes p (prog_mode p) (prog_mode p) in
            run_loop fuel numpix rg p px
        end
  end.

(** At most one turn for each byte of the program, unless it jumps back. *)
Definition PROG_FUEL : nat := 300.

(** The part of [prog_process] from [pwr_enter_pll] on. *)
Definition run_program (fuel : nat) (s : ledstrip) : outcome ledstrip :=
  let s := l_emit s LedEnterPll in
  '(show, rg, p, px) ← run_loop fuel (numpixels (l_regs s)) (l_range s) (l_prog s) (pxbuffer s);
  let s := set_run s rg p px in
  let s := if show : bool then set_status s (in_tx s) true (inited s) (auto_refresh s) else s in
  Ret (l_emit s LedLeavePll).

Definition prog_process (fuel : nat) (now : Z) (s : ledstrip) : outcome ledstrip :=
  if in_tx s || in_future now (prog_next_step (l_prog s)) then Ret s
  else if prog_ptr (l_prog s) >=? prog_size (l_prog s) then
    if negb (num_repeats (l_regs s) =? 1) then
      let s := if negb (num_repeats (l_regs s) =? 0)
               then set_regs s (set_num_repeats (l_regs s) (num_repeats (l_regs s) - 1)) else s in
      run_program fuel (reset_prog now s)
    else Ret s
  else run_program fuel s.

(** ** Current limit ([services/led_internal.h]) *)

Definition SCALE0 (c i : Z) : Z := Z.shiftr (Z.land c 0xff * (1 + Z.land i 0xff)) 8.

(** [current], [current_prev] and [current_full]; for the 4096 pixels a strip
    has at most they fit into an [int]. *)
Definition current_at (px : list Z) (inten : Z) : Z := fold_left (fun acc v => acc + SCALE0 v inten) px 0.
Definition current_sum (px : list Z) : Z := fold_left (fun acc v => acc + v) px 0.

Definition current_limit (r : led_regs) : Z := maxpower r * 1000 - (14000 + 930 * numpixels r).

Definition limit_intensity (s : ledstrip) : outcome ledstrip :=
  let r := l_regs s in
  let d := mread (pxbuffer s) 0 (numpixels r * 3) in
  let prev_intensity := intensity r in
  let inten := intensity r in
  let inten := inten + 1 + Z.shiftr inten 5 in
  let inten := if inten >? requested_intensity r then requested_intensity r else inten in
  let current := current_at d inten * 46 in
  let current_prev := current_at d prev_intensity * 46 in
  let current_full := current_sum d * 46 in
  let limit := current_limit r in
  if current <=? limit then Ret (set_regs s (set_intensity r (u8 inten)))
  else if current_prev <=? limit then Ret s
  else
    q ← sdiv limit (Z.shiftr current_full 8);
    let inten := q - 1 in
    let inten := if inten <? 0 then 0 else inten in
    Ret (set_regs s (set_intensity r (u8 inten))).

(** ** The service *)

(** Compiled with a pin that switches the power of the strip, or not. *)
Context (pin_pwr : bool).

Definition is_empty (data : list Z) (words : Z) : bool := forallb (fun b => b =? 0) (mread data 0 (4 * words)).
Definition is_enabled (s : ledstrip) : bool := (numpixels (l_regs s) >? 0) && (requested_intensity (l_regs s) >? 0).

Definition tx_done (s : ledstrip) : ledstrip :=
  l_emit (set_status s false (dirty s) (inited s) (auto_refresh s)) LedLeavePll.

(** [available] is [jd_available_memory()]; [jd_alloc] takes bytes. *)
Definition alloc (available : Z) (s : ledstrip) : ledstrip :=
  if negb (maxpixels (l_regs s) =? 0) then s
  else
    let maxpix := s32 (u32 (available / 3 - 1)) in
    let maxpix := if maxpix >? 4096 then 4096 else maxpix in
    let s := set_regs s (set_maxpixels (l_regs s) (u16 maxpix)) in
    set_run s (l_range s) (l_prog s) (replicate (Z.to_nat (PX_WORDS (u16 maxpix))) 0).

Definition ledstrip_process (fuel : nat) (now available : Z) (s : ledstrip) : outcome ledstrip :=
  let s := alloc available s in
  s ← prog_process fuel now s;
  let s := if in_past now (auto_refresh s) && inited s
           then set_status s (in_tx s) true (inited s) (auto_refresh s) else s in
  if negb (is_enabled s) then Ret s
  else if dirty s && negb (in_tx s) then
    let s := set_status s (in_tx s) false (inited s) (u32 (now + Z.shiftl 64 10)) in
    if pin_pwr && is_empty (pxbuffer s) (PX_WORDS (numpixels (l_regs s))) then Ret (l_emit s (LedPower false))
    else
      let s := if pin_pwr then l_emit s (LedPower true) else s in
      let s := set_status s true (dirty s) (inited s) (auto_refresh s) in
      let s := l_emit s LedEnterPll in
      s ← limit_intensity s;
      Ret (l_emit s (LedTx (mread (pxbuffer s) 0 (numpixels (l_regs s) * 3)) (intensity (l_regs s))))
  else Ret s.

Definition sync_config (s : ledstrip) : ledstrip :=
  if negb (is_enabled s) then l_emit s (LedPower false)
  else
    let s := if negb (inited s)
             then l_emit (set_status s (in_tx s) (dirty s) true (auto_refresh s)) (LedInit (ledstrip_type (l_regs s)))
             else s in
    l_emit s (LedPower true).

(** The packet's payload is at most the 236 bytes of a frame, [prog_data] has
    one more. *)
Definition handle_run_cmd (now : Z) (pkt : list Z) (s : ledstrip) : ledstrip :=
  let p := l_prog s in
  let size := p_service_size pkt in
  let p := {| prog_mode := prog_mode p; prog_tmpmode := prog_tmpmode p; prog_ptr := prog_ptr p; prog_size := size;
              prog_next_step := prog_next_step p; prog_data := mwrite (prog_data p) 0 (mread pkt 16 size) |} in
  sync_config (reset_prog now (set_run s (l_range s) p (pxbuffer s))).

(** Codes of the generated header: those of registers that can be written and
    those of registers that only tell. *)
Class LedStripSpec := {
  JD_LED_STRIP_CMD_RUN : Z;
  JD_LED_STRIP_REG_BRIGHTNESS : Z;
  JD_LED_STRIP_REG_ACTUAL_BRIGHTNESS : Z;
  JD_LED_STRIP_REG_LIGHT_TYPE : Z;
  JD_LED_STRIP_REG_VARIANT : Z;
  JD_LED_STRIP_REG_NUM_PIXELS : Z;
  JD_LED_STRIP_REG_MAX_POWER : Z;
  JD_LED_STRIP_REG_MAX_PIXELS : Z;
  JD_LED_STRIP_REG_NUM_REPEATS : Z;
  led_rw_codes : Forall (fun r => 0 < r < 0x100)
    [JD_LED_STRIP_REG_BRIGHTNESS; JD_LED_STRIP_REG_LIGHT_TYPE; JD_LED_STRIP_REG_NUM_PIXELS; JD_LED_STRIP_REG_MAX_POWER; JD_LED_STRIP_REG_NUM_REPEATS];
  led_ro_codes : Forall (fun r => 0x100 <= r < 0x200) [JD_LED_STRIP_REG_ACTUAL_BRIGHTNESS; JD_LED_STRIP_REG_VARIANT; JD_LED_STRIP_REG_MAX_PIXELS];
}.

Definition ledstrip_regs `{LedStripSpec} : list Z :=
  REG_SRV_COMMON ++ [JD_REG_ 1 JD_LED_STRIP_REG_BRIGHTNESS;
   JD_REG_ 1 JD_LED_STRIP_REG_ACTUAL_BRIGHTNESS; JD_REG_ 1 JD_LED_STRIP_REG_LIGHT_TYPE;
   JD_REG_ 1 JD_LED_STRIP_REG_VARIANT; JD_REG_ 3 JD_LED_STRIP_REG_NUM_PIXELS;
   JD_REG_ 3 JD_LED_STRIP_REG_MAX_POWER; JD_REG_ 3 JD_LED_STRIP_REG_MAX_PIXELS;
   JD_REG_ 3 JD_LED_STRIP_REG_NUM_REPEATS; JD_REG_END].

(** The struct as the register engine sees it, and back. *)
Definition led_encode (s : ledstrip) : list Z :=
  let r := l_regs s in
  l_common s ++ [requested_intensity r; intensity r; ledstrip_type r; variant r]
  ++ le_bytes 2 (numpixels r) ++ le_bytes 2 (maxpower r) ++ le_bytes 2 (maxpixels r) ++ le_bytes 2 (num_repeats r).
Definition led_decode (b : list Z) : led_regs :=
  {| requested_intensity := get8 b 6; intensity := get8 b 7; ledstrip_type := get8 b 8; variant := get8 b 9;
     numpixels := get16 b 10; maxpower := get16 b 12; maxpixels := get16 b 14; num_repeats := get16 b 16 |}.

Definition ledstrip_handle_packet `{JdSpec} `{LedStripSpec} `{Sender T} (now : Z) (pkt : list Z) (s : ledstrip) (tx : T)
    : outcome (ledstrip * T) :=
  if p_service_command pkt =? JD_LED_STRIP_CMD_RUN then Ret (handle_run_cmd now pkt s, tx)
  else
    '(r, b, tx) ← service_handle_register_final (led_encode s) pkt ledstrip_regs tx;
    let regs := led_decode b in
    let regs := if r =? JD_LED_STRIP_REG_BRIGHTNESS then set_intensity regs (requested_intensity regs)
                else if r =? JD_LED_STRIP_REG_NUM_PIXELS then
                  if numpixels regs >? maxpixels regs then set_numpixels regs (maxpixels regs) else regs
                else regs in
    Ret (set_regs s regs, tx).

Definition ledstrip_init (common : list Z) (default_type default_pixels default_power var : Z) : ledstrip :=
  {| l_common := common;
     l_regs := {| requested_intensity := DEFAULT_INTENSITY; intensity := DEFAULT_INTENSITY;
                  ledstrip_type := u8 default_type; variant := u8 var; numpixels := u16 default_pixels;
                  maxpower := u16 default_power; maxpixels := 0; num_repeats := 1 |};
     l_range := {| range_start := 0; range_end := 0; range_len := 0; range_ptr := 0 |};
     l_prog := {| prog_mode := 0; prog_tmpmode := 0; prog_ptr := 0; prog_size := 0; prog_next_step := 0;
                  prog_data := replicate 237 0 |};
     pxbuffer := []; in_tx := false; dirty := false; inited := false; auto_refresh := 0; l_trace := [] |}.
End Ledstrip.

(** ** Rotation *)

Lemma get8_mid pre x post : get8 (pre ++ x :: post) (zlen pre) = x.
Proof. unfold get8, zlen. rewrite Nat2Z.id, list_lookup_middle by done. done. Qed.

Lemma put8_mid pre x post v : is_byte v -> put8 (pre ++ x :: post) (zlen pre) v = pre ++ v :: post.
Proof.
  intros Hv. unfold put8, zlen. rewrite Nat2Z.id, u8_small by (unfold is_byte in Hv; lia).
  rewrite insert_app_r_alt by lia. by rewrite Nat.sub_diag.
Qed.

(** The bytes still to be placed are [A], [B] and [C]: [middle] is between [A]
    and [B], [next] between [B] and [C], and they end up as [C], [B], [A]. *)
Lemma rot_loop_spec fuel : forall pre A B C post first middle next last,
  Forall is_byte (A ++ C) ->
  first = zlen pre -> middle = first + zlen A -> next = middle + zlen B -> last = next + zlen C ->
  C <> [] -> (A = [] -> B = []) -> (length (A ++ B ++ C) < fuel)%nat ->
  Forall is_byte B ->
  rot_loop fuel first middle last next (pre ++ A ++ B ++ C ++ post) = Ret (pre ++ C ++ B ++ A ++ post).
Proof.
  induction fuel as [|fuel IH]; intros pre A B C post first middle next last Hb -> -> -> -> HC HAB Hf HbB; [simpl in Hf; lia|].
  cbn [rot_loop]. destruct (Z.eqb_spec (zlen pre) (zlen pre + zlen A + zlen B)) as [He|Hne].
  { unfold zlen in He. assert (A = [] /\ B = []) as [-> ->]; [|done].
    split; apply nil_length_inv; lia. }
  destruct C as [|c C]; [done|]. destruct A as [|a A].
  { rewrite (HAB eq_refl) in Hne. unfold zlen in Hne. cbn in Hne. lia. }
  apply Forall_app in Hb as [[Ha HbA]%Forall_cons [Hc HbC]%Forall_cons].
  assert (zlen (pre ++ (a :: A) ++ B ++ (c :: C) ++ post) = zlen pre + zlen (a :: A) + zlen B + zlen (c :: C) + zlen post) as Hlen.
  { rewrite !zlen_app. lia. }
  assert (zlen (a :: A) = zlen A + 1 /\ zlen (c :: C) = zlen C + 1) as [HzA HzC] by (unfold zlen; cbn; lia).
  pose proof (zlen_nonneg A). pose proof (zlen_nonneg B). pose proof (zlen_nonneg C). pose proof (zlen_nonneg post). pose proof (zlen_nonneg pre).
  rewrite (proj2 (Z.ltb_lt (zlen pre) _)), (proj2 (Z.ltb_lt _ (zlen (pre ++ _)))) by lia. cbn [andb].
  cbn [app]. rewrite get8_mid.
  set (nx := zlen pre + zlen (a :: A) + zlen B).
  assert (forall x, pre ++ x :: A ++ B ++ c :: C ++ post = (pre ++ x :: A ++ B) ++ c :: C ++ post) as Hsp.
  { intros x. rewrite <- !app_assoc. cbn. by rewrite <- ?app_assoc. }
  assert (forall x, nx = zlen (pre ++ x :: A ++ B)) as Hnx.
  { intros x. unfold nx. rewrite zlen_app. unfold zlen in *. cbn [length]. rewrite length_app. lia. }
  rewrite Hsp, (Hnx a), get8_mid, <- Hsp, put8_mid by done. rewrite <- (Hnx a).
  rewrite Hsp, (Hnx c), put8_mid by done. rewrite <- (Hnx c).
  assert ((pre ++ c :: A ++ B) ++ a :: C ++ post = (pre ++ [c]) ++ A ++ (B ++ [a]) ++ C ++ post) as ->.
  { rewrite <- !app_assoc. cbn. by rewrite <- ?app_assoc. }
  assert (pre ++ c :: C ++ B ++ a :: A ++ post = (pre ++ [c]) ++ C ++ (B ++ [a]) ++ A ++ post) as ->.
  { rewrite <- !app_assoc. cbn. by rewrite <- ?app_assoc. }
  assert (zlen (pre ++ [c]) = zlen pre + 1 /\ zlen (B ++ [a]) = zlen B + 1) as [Hp1 HB1] by (rewrite !zlen_app; done).
  assert (Forall is_byte (B ++ [a])) as HbB' by (apply Forall_app; split; [done|by apply Forall_singleton]).
  assert (length (A ++ (B ++ [a]) ++ C) < fuel)%nat as Hf' by (rewrite !length_app in *; cbn in *; lia).
  assert (B ++ [a] <> []) as HBne by by destruct B.
  destruct (Z.eqb_spec (nx + 1) (nx + zlen (c :: C))) as [Hlast|Hlast].
  - assert (C = []) as -> by (apply nil_length_inv; unfold zlen in *; lia). cbn [app].
    apply (IH (pre ++ [c]) A [] (B ++ [a]) post); cbn [app]; try done; unfold nx; try lia.
    + by apply Forall_app.
    + rewrite app_nil_r in Hf'. done.
  - assert (C <> []) as HCne by (intros ->; apply Hlast; done).
    destruct (Z.eqb_spec (zlen pre + 1) (zlen pre + zlen (a :: A))) as [Hm|Hm].
    + assert (A = []) as -> by (apply nil_length_inv; unfold zlen in *; lia). cbn [app].
      apply (IH (pre ++ [c]) (B ++ [a]) [] C post); cbn [app]; try done; unfold nx in *; try lia.
      * by apply Forall_app.
    + apply (IH (pre ++ [c]) A (B ++ [a]) C post); try done; unfold nx in *; try lia.
      * by apply Forall_app.
      * intros ->. exfalso. apply Hm. done.
Qed.

(** The bytes of a buffer around [n] bytes at [off]. *)
Lemma split_at (px : list Z) off n : 0 <= off -> 0 <= n -> off + n <= zlen px ->
  px = take (Z.to_nat off) px ++ mread px off n ++ drop (Z.to_nat (off + n)) px.
Proof.
  intros. unfold mread. rewrite <- (take_drop (Z.to_nat off) px) at 1. f_equal.
  rewrite <- (take_drop (Z.to_nat n) (drop (Z.to_nat off) px)) at 1. f_equal. rewrite drop_drop. f_equal. lia.
Qed.

Lemma mwrite_split (px : list Z) off src : 0 <= off ->
  mwrite px off src = take (Z.to_nat off) px ++ src ++ drop (Z.to_nat (off + zlen src)) px.
Proof. intros. unfold mwrite, zlen. do 3 f_equal. lia. Qed.

Lemma zlen_take (px : list Z) off : 0 <= off <= zlen px -> zlen (take (Z.to_nat off) px) = off.
Proof. unfold zlen. intros. rewrite length_take. lia. Qed.

Lemma mwrite_mread (px : list Z) off n : 0 <= off -> 0 <= n -> off + n <= zlen px -> mwrite px off (mread px off n) = px.
Proof.
  intros. rewrite mwrite_split by done. 
  assert (zlen (mread px off n) = n) as -> by (rewrite zlen_mread; lia). symmetry. by apply split_at.
Qed.

(** Rotating by [shift] pixels moves every pixel of the range [shift]
    positions towards its start, those that fall off come back at its end, and
    nothing else in the buffer changes: the in-place exchange of bytes is the
    rotation of the list. *)
Lemma prog_rot_rotates shift rg px :
  Forall is_byte px -> 0 <= range_start rg -> range_len rg = range_end rg - range_start rg ->
  3 * range_end rg <= zlen px -> 0 <= shift < range_len rg ->
  prog_rot shift rg px =
    Ret (mwrite px (3 * range_start rg)
           (rotate (Z.to_nat (3 * shift)) (mread px (3 * range_start rg) (3 * range_len rg)))).
Proof.
  intros Hb Hs Hlen Hend Hsh. unfold prog_rot.
  set (st := range_start rg) in *. set (len := range_len rg) in *. set (seg := mread px (3 * st) (3 * len)).
  assert (zlen seg = 3 * len) as Hseg by (unfold seg; rewrite zlen_mread; lia).
  destruct (Z.eqb_spec shift 0) as [->|Hnz]; cbn [orb].
  - f_equal. change (Z.to_nat (3 * 0)) with 0%nat. unfold rotate.
    rewrite Nat.Div0.mod_0_l, drop_0, take_0, app_nil_r. symmetry. apply mwrite_mread; lia.
  - rewrite Z.geb_leb, (proj2 (Z.leb_gt _ _)) by lia.
    set (n := Z.to_nat (3 * shift)).
    assert (n < length seg)%nat as Hn by (unfold zlen in Hseg; lia).
    assert (rotate n seg = drop n seg ++ take n seg) as ->.
    { unfold rotate. by rewrite Nat.mod_small. }
    assert (px = take (Z.to_nat (3 * st)) px ++ take n seg ++ [] ++ drop n seg ++ drop (Z.to_nat (3 * st + 3 * len)) px) as Hpx.
    { cbn [app]. rewrite (app_assoc (take n seg)), take_drop. apply split_at; lia. }
    rewrite mwrite_split by lia.
    assert (zlen (drop n seg ++ take n seg) = 3 * len) as ->.
    { rewrite zlen_app. unfold zlen in *. rewrite length_drop, length_take. lia. }
    rewrite <- app_assoc. rewrite Hpx at 1. unfold AT.
    assert (Forall is_byte seg) as HbS by by apply Forall_mread.
    apply rot_loop_spec; try by apply Forall_nil.
    + apply Forall_app; split; [by apply Forall_take|by apply Forall_drop].
    + rewrite zlen_take by lia. lia.
    + unfold zlen. rewrite length_take. lia.
    + unfold zlen. cbn. lia.
    + unfold zlen in *. rewrite length_drop. lia.
    + intros E. apply (f_equal length) in E. rewrite length_drop in E. cbn in E. lia.
    + done.
    + cbn [app]. rewrite length_app, length_take, length_drop. unfold zlen in *. lia.
Qed.

(** ** Programs end and stay inside of the pixels *)

(** A change of the buffer below byte [n]. *)
Record px_step (n : Z) (px px' : list Z) : Prop := {
  ps_len : zlen px' = zlen px;
  ps_bytes : Forall is_byte px -> Forall is_byte px';
  ps_rest : drop (Z.to_nat n) px' = drop (Z.to_nat n) px;
}.

Lemma px_step_refl n px : px_step n px px.
Proof. by constructor. Qed.

Lemma px_step_trans n px1 px2 px3 : px_step n px1 px2 -> px_step n px2 px3 -> px_step n px1 px3.
Proof. intros [] []. constructor; [congruence|auto|congruence]. Qed.

Lemma px_step_mwrite n px off src : 0 <= off -> off + zlen src <= n -> n <= zlen px -> Forall is_byte src ->
  px_step n px (mwrite px off src).
Proof.
  intros Ho Hn Hl Hb. constructor.
  - rewrite zlen_mwrite; lia.
  - intros. by apply Forall_mwrite.
  - rewrite mwrite_split by done. unfold zlen in *.
    rewrite !drop_app. rewrite (drop_ge (take _ _)), (drop_ge src) by (rewrite ?length_take; lia). cbn [app].
    rewrite drop_drop. f_equal. rewrite length_take. lia.
Qed.

(** The limit [L] on the range, in pixels. *)
Record range_ok (L : Z) (rg : led_range) : Prop := {
  ro_start : 0 <= range_start rg <= range_end rg;
  ro_end : range_end rg <= L;
  ro_len : range_len rg = range_end rg - range_start rg;
  ro_ptr : 0 <= range_ptr rg;
}.

Record prog_ok (p : led_prog) : Prop := {
  po_data : Forall is_byte (prog_data p);
  po_size : 0 <= prog_size p <= 236;
  po_ptr : 0 <= prog_ptr p <= 255;
}.

Definition same_code (p p' : led_prog) : Prop := prog_data p' = prog_data p /\ prog_size p' = prog_size p.

Lemma same_code_ok p p' : prog_ok p -> same_code p p' -> 0 <= prog_ptr p' <= 255 -> prog_ok p'.
Proof. intros [] [Hd Hs] Hp. constructor; [by rewrite Hd|by rewrite Hs|done]. Qed.

Definition rgb_ok (c : RGB) : Prop := is_byte (c_r c) /\ is_byte (c_g c) /\ is_byte (c_b c).

Lemma rgb_rgb_ok r g b : rgb_ok (rgb r g b).
Proof. unfold rgb, rgb_ok, is_byte. cbn. pose proof (u8_range r). pose proof (u8_range g). pose proof (u8_range b). lia. Qed.

Lemma hsv_ok h s v : rgb_ok (hsv h s v).
Proof. unfold hsv. repeat case_match; apply rgb_rgb_ok. Qed.

Lemma clamp_byte c : is_byte (clamp c).
Proof. unfold clamp, is_byte. repeat case_cmp; lia. Qed.

Lemma combine_byte mode old new : is_byte new -> is_byte (combine mode old new).
Proof. intros. unfold combine. case_match; [done|apply clamp_byte]. Qed.

(** The buffer holds the pixels below [L]. *)
Lemma set_next_ok L mode rg px c : 0 <= L <= 65535 -> range_ok L rg -> 3 * L <= zlen px -> rgb_ok c ->
  exists ok rg' px', set_next mode rg px c = Ret (ok, rg', px') /\ range_ok L rg' /\ px_step (3 * L) px px' /\
    range_start rg' = range_start rg /\ range_end rg' = range_end rg /\
    range_ptr rg' = (if ok then range_ptr rg + 1 else range_ptr rg) /\
    (ok = true -> range_ptr rg < range_end rg).
Proof.
  intros HL [] Hpx (Hr & Hg & Hb). unfold set_next. rewrite Z.geb_leb. destruct (Z.leb_spec (range_end rg) (range_ptr rg)).
  - exists false, rg, px. by split_and!.
  - rewrite (proj2 (Z.leb_le _ _)) by lia. eexists true, _, _. split; [done|].
    cbn [range_start range_end range_ptr set_range_ptr]. rewrite u16_small by lia. split_and!; try done.
    + constructor; cbn; lia.
    + apply px_step_mwrite; [lia|unfold zlen; cbn; lia|lia|]. repeat constructor; by apply combine_byte.
Qed.

Lemma fetch_color_ok p : prog_ok p -> let '(c, p') := prog_fetch_color p in
  rgb_ok c /\ prog_ok p' /\ same_code p p' /\ prog_ptr p <= prog_ptr p' <= prog_ptr p + 3.
Proof.
  intros Hp. unfold prog_fetch_color. destruct (_ >? _) eqn:E.
  - split_and!; [apply rgb_rgb_ok|done|done|lia|lia].
  - rewrite Z.gtb_ltb in E. bool_to_prop. destruct Hp as [Hd Hs Hpt].
    split; [apply rgb_rgb_ok|]. cbn. rewrite u8_small by lia. split_and!; try done; try lia.
    constructor; cbn; try done. lia.
Qed.

Lemma prog_fetch_ok p : prog_ok p -> let '(r, v, p') := prog_fetch p in
  prog_ok p' /\ same_code p p' /\ 0 <= v /\
  (if r =? PROG_EOF then p' = p /\ prog_size p <= prog_ptr p
   else prog_ptr p < prog_size p /\ prog_ptr p < prog_ptr p' <= prog_ptr p + 2).
Proof.
  intros Hp. pose proof Hp as [Hd Hs Hpt]. unfold prog_fetch.
  pose proof (fun i => get8_is_byte _ i Hd) as Hby. unfold is_byte in Hby.
  rewrite Z.geb_leb. destruct (Z.leb_spec (prog_size p) (prog_ptr p)); [done|].
  cbn [prog_ptr set_ptr]. rewrite !u8_small by (rewrite ?u8_small by lia; lia).
  pose proof (Hby (prog_ptr p)). pose proof (Hby (prog_ptr p + 1)).
  assert (0 <= Z.lor (Z.shiftl (Z.land (get8 (prog_data p) (prog_ptr p)) 0x3f) 8) (get8 (prog_data p) (prog_ptr p + 1))).
  { apply Z.lor_nonneg. split; [|lia]. apply Z.shiftl_nonneg, Z.land_nonneg. lia. }
  repeat match goal with |- context [if ?x =? ?y then (_, _, _) else _] => destruct (x =? y) end;
    cbn; split_and!; try done; try lia; constructor; cbn; try done; lia.
Qed.

Lemma fetch_num_ok p defl : prog_ok p -> 0 <= defl -> let '(v, p') := prog_fetch_num p defl in
  prog_ok p' /\ same_code p p' /\ 0 <= v /\ prog_ptr p <= prog_ptr p'.
Proof.
  intros Hp Hd. unfold prog_fetch_num. pose proof (prog_fetch_ok p Hp) as Hf.
  destruct (prog_fetch p) as [[r v] p']. destruct Hf as (Hp' & Hc & Hv & Hr).
  destruct (Z.eqb_spec r PROG_NUMBER) as [->|].
  - cbn in Hr. split_and!; try done. lia.
  - split_and!; try done. apply (same_code_ok p); [done|done|apply Hp].
Qed.

Lemma skip_colors_ok n : forall p, prog_ok p -> prog_ok (skip_colors n p) /\ same_code p (skip_colors n p) /\
  prog_ptr p <= prog_ptr (skip_colors n p).
Proof.
  induction n as [|n IH]; intros p Hp; cbn [skip_colors]; [done|].
  pose proof (fetch_color_ok p Hp) as Hf. destruct (prog_fetch_color p) as [c p1]. cbn [snd].
  destruct Hf as (_ & Hp1 & [Hd1 Hs1] & ?). destruct (IH p1 Hp1) as (? & [Hd2 Hs2] & ?).
  split_and!; [done|split; congruence|lia].
Qed.

Lemma fetch_cmd_byte p v p1 : prog_fetch p = (PROG_CMD, v, p1) ->
  v = get8 (prog_data p) (prog_ptr p) /\ prog_ptr p1 = u8 (prog_ptr p + 1).
Proof. unfold prog_fetch. repeat case_match; intros [= ]; subst; done. Qed.

(** A command is at least one byte of the program. *)
Lemma fetch_cmd_ok fuel : forall p, prog_ok p -> prog_size p - prog_ptr p < Z.of_nat fuel -> (0 < fuel)%nat ->
  exists cmd p', prog_fetch_cmd fuel p = Ret (cmd, p') /\ prog_ok p' /\ same_code p p' /\
    (cmd <> 0 -> prog_ptr p < prog_ptr p' /\ prog_ptr p' - 1 < prog_size p /\ get8 (prog_data p) (prog_ptr p' - 1) = cmd).
Proof.
  induction fuel as [|fuel IH]; intros p Hp Hf H0; [lia|]. cbn [prog_fetch_cmd].
  pose proof (prog_fetch_ok p Hp) as Hk. destruct (prog_fetch p) as [[r v] p1] eqn:E.
  destruct Hk as (Hp1 & Hc1 & Hv & Hr).
  destruct (Z.eqb_spec r PROG_CMD) as [->|Hncmd].
  - cbn in Hr. exists v, p1. split_and!; try done. intros _. destruct (fetch_cmd_byte p v p1 E) as [-> E1].
    rewrite u8_small in E1 by (destruct Hp; lia). split_and!; [lia|lia|]. f_equal. lia.
  - assert (forall p2, prog_ok p2 -> same_code p p2 -> prog_ptr p < prog_size p -> prog_ptr p < prog_ptr p2 ->
      exists cmd p', prog_fetch_cmd fuel p2 = Ret (cmd, p') /\ prog_ok p' /\ same_code p p' /\
        (cmd <> 0 -> prog_ptr p < prog_ptr p' /\ prog_ptr p' - 1 < prog_size p /\ get8 (prog_data p) (prog_ptr p' - 1) = cmd)) as Hnext.
    { intros p2 Hp2 [Ed Es] Hlt0 Hlt. destruct (IH p2 Hp2) as (cmd & p' & -> & Hp' & [Ed' Es'] & Hc); [lia|lia|].
      exists cmd, p'. rewrite Ed, Es in Hc. split_and!; [done|done|split; congruence|]. intros Hne. specialize (Hc Hne). lia. }
    destruct (Z.eqb_spec r PROG_COLOR_BLOCK) as [->|_].
    + cbn in Hr. destruct (skip_colors_ok (Z.to_nat v) p1 Hp1) as (Hp2 & [Ed2 Es2] & ?). destruct Hc1 as [Ed1 Es1].
      apply Hnext; [done|split; congruence|lia|lia].
    + destruct (Z.eqb_spec r PROG_EOF) as [->|Hne].
      * exists 0, p1. split_and!; try done.
      * apply Hnext; [done|done|lia|lia].
Qed.

(** A run of pixels keeps the range but for its pointer. *)
Definition same_range (rg rg' : led_range) : Prop := range_start rg' = range_start rg /\ range_end rg' = range_end rg.

(** The state of a program: [L] bounds the range, [3 * L] the bytes touched. *)
Record run_ok (L : Z) (rg : led_range) (p : led_prog) (px : list Z) : Prop := {
  ru_range : range_ok L rg;
  ru_prog : prog_ok p;
  ru_px : 3 * L <= zlen px;
}.

(** No fade of [n] colours at byte [i] makes the 8-bit pointer wrap around. *)
Definition fade_at (d : list Z) (i : Z) : bool :=
  ((get8 d i =? LIGHT_PROG_FADE) || (get8 d i =? LIGHT_PROG_FADE_HSV)) && (get8 d (i + 1) =? LIGHT_PROG_COLN).
Definition fades_ok (d : list Z) : Prop :=
  forall i, 0 <= i < 236 -> fade_at d i = true -> i + 3 + 3 * get8 d (i + 2) <= 255.

(** One state of a run reaches another: same program text, pixels changed below
    [L] only, and the pointer not moved back, if no fade makes it wrap around. *)
Record run_step (L : Z) (p : led_prog) (px : list Z) (rg' : led_range) (p' : led_prog) (px' : list Z) : Prop := {
  rs_ok : run_ok L rg' p' px';
  rs_code : same_code p p';
  rs_ptr : fades_ok (prog_data p) -> prog_ptr p <= prog_ptr p';
  rs_px : px_step (3 * L) px px';
}.

Lemma reset_range_ok L rg : range_ok L rg -> range_ok L (reset_range rg).
Proof. intros []. constructor; cbn; lia. Qed.

Section Run.
Context `{Division} (L : Z) (HL : 0 <= L <= 65535).

Lemma set_colors_ok n : forall ok rg p px, run_ok L rg p px ->
  exists ok' rg' p' px', set_colors n ok rg p px = Ret (ok', rg', p', px') /\ run_step L p px rg' p' px' /\
    same_range rg rg' /\ range_ptr rg <= range_ptr rg' /\
    ((0 < n)%nat -> ok' = true -> range_ptr rg < range_ptr rg' /\ range_ptr rg < range_end rg).
Proof.
  induction n as [|n IH]; intros ok rg p px [Hr Hp Hx]; cbn [set_colors].
  - exists ok, rg, p, px. split; [done|]. split; [constructor; try done; apply px_step_refl|]. split; [done|]. split; lia.
  - pose proof (fetch_color_ok p Hp) as Hf. destruct (prog_fetch_color p) as [c p1].
    destruct Hf as (Hc & Hp1 & [Hd1 Hs1] & Hpt1).
    destruct (set_next_ok L (prog_tmpmode p1) rg px c HL Hr Hx Hc) as (ok1 & rg1 & px1 & -> & Hr1 & Hst & Hrs & Hre & Hrp & Hlt).
    obind. destruct (IH ok1 rg1 p1 px1) as (ok' & rg' & p' & px' & E & [Hok [Hd Hs] Hpt Hpx] & [Hs' He'] & Hle & Hadv).
    { constructor; [done|done|]. by rewrite (ps_len _ _ _ Hst). }
    exists ok', rg', p', px'. split_and!; [done| |split; congruence| |].
    + constructor; [done|split; congruence| |by eapply px_step_trans]. rewrite Hd1 in Hpt. intros Hfd. specialize (Hpt Hfd). lia.
    + destruct ok1; lia.
    + intros _ Hok'. destruct n as [|n].
      * cbn in E. injection E as -> -> _ _. specialize (Hlt Hok'). rewrite Hok' in Hrp. lia.
      * destruct (Hadv ltac:(lia) Hok'). destruct ok1; [specialize (Hlt eq_refl)|]; lia.
Qed.

Lemma set_loop_ok fuel len : forall rg p0 p px, 0 < len -> run_ok L rg p px -> prog_ok p0 -> same_code p0 p ->
  range_end rg - range_ptr rg < Z.of_nat fuel - 1 -> (2 <= fuel)%nat ->
  exists rg' p' px', set_loop fuel len (prog_ptr p0) rg p px = Ret (rg', p', px') /\ run_step L p0 px rg' p' px' /\ same_range rg rg'.
Proof.
  induction fuel as [|fuel IH]; intros rg p0 p px Hlen [Hr Hp Hx] Hp0 [Hd0 Hs0] Hf H2; [lia|]. cbn [set_loop].
  set (p1 := set_ptr p (prog_ptr p0)).
  assert (prog_ok p1) as Hp1 by (apply (same_code_ok p); [done|done|apply Hp0]).
  destruct (set_colors_ok (Z.to_nat len) false rg p1 px) as (ok & rg' & p' & px' & -> & [Hok [Hd Hs] Hpt Hpx] & [Hs' He'] & Hle & Hadv); [done|].
  obind. destruct ok.
  - destruct (Hadv ltac:(lia) eq_refl) as [Hlt Hlt2].
    destruct fuel as [|[|fuel']]; [lia|lia|]. set (fuel := S (S fuel')) in *.
    destruct (IH rg' p0 p' px') as (rg2 & p2 & px2 & -> & [Hok2 Hc2 Hpt2 Hpx2] & [Hs2 He2]); try done.
    { split; [change (prog_data p' = prog_data p0); rewrite Hd; done|change (prog_size p' = prog_size p0); rewrite Hs; done]. }
    { lia. } { lia. }
    exists rg2, p2, px2. split_and!; [done| |split; congruence]. constructor; try done. by eapply px_step_trans.
  - exists rg', p', px'. split_and!; [done| |done]. constructor; [done|split; [by rewrite Hd|by rewrite Hs]| |done].
    change (prog_data p1) with (prog_data p) in Hpt. by rewrite Hd0 in Hpt.
Qed.

Lemma prog_set_ok len rg p px : 0 < len -> run_ok L rg p px ->
  exists rg' p' px', prog_set len rg p px = Ret (rg', p', px') /\ run_step L p px rg' p' px'.
Proof.
  intros Hlen [Hr Hp Hx]. unfold prog_set.
  destruct (set_loop_ok (range_fuel (reset_range rg)) len (reset_range rg) p p px) as (rg' & p' & px' & -> & Hst & _); try done.
  - constructor; [by apply reset_range_ok|done|done].
  - unfold range_fuel. lia.
  - unfold range_fuel. lia.
  - by exists rg', p', px'.
Qed.

Lemma fade_fetch_ok n : forall c0 c1 p, prog_ok p -> rgb_ok c0 -> rgb_ok c1 ->
  let '(c0', c1', p') := fade_fetch n c0 c1 p in prog_ok p' /\ same_code p p' /\ rgb_ok c0' /\ rgb_ok c1'.
Proof.
  induction n as [|n IH]; intros c0 c1 p Hp H0 H1; cbn [fade_fetch]; [done|].
  pose proof (fetch_color_ok p Hp) as Hf. destruct (prog_fetch_color p) as [c p1]. destruct Hf as (Hc & Hp1 & [Hd1 Hs1] & _).
  specialize (IH c1 c p1 Hp1 H1 Hc). destruct (fade_fetch n c1 c p1) as [[c0' c1'] p']. destruct IH as (? & [? ?] & ?).
  split_and!; [done|split; congruence|naive_solver..].
Qed.

Lemma fade_loop_ok fuel hs step : forall idx pos c0 c1 rg p px, run_ok L rg p px -> rgb_ok c0 -> rgb_ok c1 ->
  range_end rg - range_ptr rg < Z.of_nat fuel - 1 -> (1 <= fuel)%nat ->
  exists rg' p' px', fade_loop fuel hs step idx pos c0 c1 rg p px = Ret (rg', p', px') /\ run_ok L rg' p' px' /\
    same_code p p' /\ px_step (3 * L) px px'.
Proof.
  induction fuel as [|fuel IH]; intros idx pos c0 c1 rg p px [Hr Hp Hx] H0 H1 Hf Hn; [lia|]. cbn [fade_loop].
  pose proof (fade_fetch_ok (Z.to_nat (Z.shiftr pos 16 - idx)) c0 c1 p Hp H0 H1) as Hff.
  destruct (fade_fetch _ _ _ _) as [[c0' c1'] p1]. destruct Hff as (Hp1 & [Hd1 Hs1] & H0' & H1').
  set (col := rgb _ _ _). set (col' := if hs then _ else _).
  assert (rgb_ok col') as Hc by (unfold col'; destruct hs; [apply hsv_ok|apply rgb_rgb_ok]).
  destruct (set_next_ok L (prog_tmpmode p1) rg px col' HL Hr Hx Hc) as (ok & rg1 & px1 & -> & Hr1 & Hst & Hrs & Hre & Hrp & Hlt).
  obind. assert (run_ok L rg1 p1 px1) as Hok1 by (constructor; [done|done|by rewrite (ps_len _ _ _ Hst)]).
  destruct ok.
  - specialize (Hlt eq_refl). destruct (IH (Z.max idx (Z.shiftr pos 16)) (u32 (pos + step)) c0' c1' rg1 p1 px1 Hok1 H0' H1') as
      (rg2 & p2 & px2 & -> & Hok2 & [Hd2 Hs2] & Hst2); [lia|lia|].
    exists rg2, p2, px2. split_and!; [done|done|split; congruence|by eapply px_step_trans].
  - exists rg1, p1, px1. by split_and!.
Qed.

Lemma fetch_block p len p1 : prog_ok p -> prog_fetch p = (PROG_COLOR_BLOCK, len, p1) ->
  prog_ptr p < prog_size p /\ (len <= 3 /\ prog_ptr p1 = prog_ptr p + 1 \/
    get8 (prog_data p) (prog_ptr p) = LIGHT_PROG_COLN /\ len = get8 (prog_data p) (prog_ptr p + 1) /\ prog_ptr p1 = prog_ptr p + 2).
Proof.
  intros [Hd Hs Hp]. unfold prog_fetch. rewrite Z.geb_leb. destruct (Z.leb_spec (prog_size p) (prog_ptr p)); [done|].
  cbn [prog_ptr set_ptr]. rewrite !u8_small by (rewrite ?u8_small by lia; lia).
  repeat match goal with |- context [if ?x =? ?y then (_, _, _) else _] => destruct (Z.eqb_spec x y) end;
    intros [= <- <-]; cbn; (split; [lia|]); first [left; lia|right; split_and!; [done|done|lia]].
Qed.

(** A piece of a run returns, or its division by zero trapped. *)
Definition or_trap {B} (P : B -> Prop) (m : outcome B) : Prop :=
  match m with Ret x => P x | Panic => division_traps | OutOfFuel => False end.

Definition paints (p : led_prog) (px : list Z) : led_range * led_prog * list Z -> Prop :=
  fun '(rg', p', px') => run_step L p px rg' p' px'.

Lemma prog_fade_ok len hs rg p px : 0 < len -> run_ok L rg p px -> (fades_ok (prog_data p) -> prog_ptr p + 3 * len <= 255) ->
  or_trap (paints p px) (prog_fade len hs rg p px).
Proof.
  intros Hlen [Hr Hp Hx] Hend. unfold prog_fade. destruct (Z.ltb_spec len 2).
  { destruct (prog_set_ok len rg p px) as (rg' & p' & px' & -> & Hst); done. }
  pose proof (fetch_color_ok p Hp) as Hf. destruct (prog_fetch_color p) as [c0 p1]. destruct Hf as (Hc0 & Hp1 & [Hd1 Hs1] & _).
  pose proof (fetch_color_ok p1 Hp1) as Hf. destruct (prog_fetch_color p1) as [c1 p2]. destruct Hf as (Hc1 & Hp2 & [Hd2 Hs2] & _).
  destruct (udiv (u32 (Z.shiftl (len - 1) 16)) (range_len rg)) as [v| |] eqn:Ed; [| |by apply udiv_ends in Ed].
  2: { obind. exists (u32 (Z.shiftl (len - 1) 16)). left. destruct Hr as [? _ Hrl _]. destruct (decide (range_len rg = 0)) as [E0|]; [by rewrite E0 in Ed|].
       rewrite udiv_spec in Ed by lia. done. }
  obind. destruct (fade_loop_ok (range_fuel (reset_range rg)) hs v 0 0 c0 c1 (reset_range rg) p2 px) as
    (rg' & p' & px' & -> & Hok & [Hd Hs] & Hst).
  { constructor; [by apply reset_range_ok|done|done]. } { done. } { done. }
  { unfold range_fuel. lia. } { unfold range_fuel. lia. }
  obind. pose proof (po_ptr _ Hp). constructor; [|split; cbn; congruence| |done].
  - destruct Hok as [Hr' Hp' Hx']. constructor; [done| |done]. apply (same_code_ok p'); [done|done|cbn; word_lia].
  - intros Hfd. specialize (Hend Hfd). cbn. rewrite u8_small by lia. lia.
Qed.

Lemma run_range_ok rg numpix p : range_ok L rg -> prog_ok p -> 0 <= numpix <= L ->
  let '(rg', p') := run_range rg numpix p in range_ok L rg' /\ prog_ok p' /\ same_code p p' /\ prog_ptr p <= prog_ptr p'.
Proof.
  intros [] Hp Hn. unfold run_range.
  pose proof (fetch_num_ok p 0 Hp ltac:(lia)) as Hf. destruct (prog_fetch_num p 0) as [st p1]. destruct Hf as (Hp1 & [Hd1 Hs1] & Hst & Hpt1).
  pose proof (fetch_num_ok p1 numpix Hp1 ltac:(lia)) as Hf. destruct (prog_fetch_num p1 numpix) as [len p2]. destruct Hf as (Hp2 & [Hd2 Hs2] & Hl & Hpt2).
  rewrite !Z.gtb_ltb. split_and!; [|done|split; congruence|lia].
  destruct (Z.ltb_spec numpix st); (destruct (Z.ltb_spec numpix (numpix + len)) || idtac);
    match goal with |- context [if ?a <? ?b then _ else _] => destruct (Z.ltb_spec a b) | _ => idtac end;
    constructor; cbn; rewrite ?u16_small by lia; lia.
Qed.

Lemma prog_rot_ok k rg px : range_ok L rg -> 3 * L <= zlen px -> Forall is_byte px -> 0 <= k < range_len rg ->
  exists px', prog_rot k rg px = Ret px' /\ px_step (3 * L) px px'.
Proof.
  intros [] Hx Hb Hk. rewrite prog_rot_rotates by lia || done. eexists. split; [done|].
  set (seg := mread px _ _). assert (zlen seg = 3 * range_len rg) as Hseg by (unfold seg; rewrite zlen_mread; lia).
  assert (Forall is_byte seg) as HbS by by apply Forall_mread.
  apply px_step_mwrite; [lia| |lia|].
  - unfold zlen in *. rewrite length_rotate. lia.
  - unfold rotate. apply Forall_app. split; [by apply Forall_drop|by apply Forall_take].
Qed.

(** What a command leaves: only the program's pointer, or a whole step. *)
Definition cmd_result (p : led_prog) (rg : led_range) (px : list Z) (r : option (led_range * led_prog * list Z)) (p' : led_prog) : Prop :=
  match r with
  | None => prog_ok p' /\ same_code p p' /\ prog_ptr p <= prog_ptr p'
  | Some (rg2, p2, px2) => run_step L p px rg2 p2 px2
  end.

Lemma step_fetch p p1 px rg2 p2 px2 : same_code p p1 -> prog_ptr p <= prog_ptr p1 -> run_step L p1 px rg2 p2 px2 ->
  run_step L p px rg2 p2 px2.
Proof. intros [Hd Hs] ? [? [] Hpt ?]. rewrite Hd in Hpt. constructor; [done|split; congruence|intros Hfd; specialize (Hpt Hfd); lia|done]. Qed.

Lemma step_refl rg p px : run_ok L rg p px -> run_step L p px rg p px.
Proof. intros. constructor; [done|done|lia|apply px_step_refl]. Qed.

Lemma run_paint_ok cmd rg p px : run_ok L rg p px -> 1 <= prog_ptr p -> prog_ptr p - 1 < prog_size p ->
  get8 (prog_data p) (prog_ptr p - 1) = cmd ->
  (cmd =? LIGHT_PROG_FADE) || (cmd =? LIGHT_PROG_FADE_HSV) || (cmd =? LIGHT_PROG_SET_ALL) = true ->
  forall len p1, prog_fetch p = (PROG_COLOR_BLOCK, len, p1) -> len <> 0 ->
  or_trap (paints p px) (if cmd =? LIGHT_PROG_SET_ALL then prog_set len rg p1 px
                         else prog_fade len (cmd =? LIGHT_PROG_FADE_HSV) rg p1 px).
Proof.
  intros [Hr Hp Hx] Hpos Hsz Hcmd Hk len p1 E Hlen. pose proof (prog_fetch_ok p Hp) as Hf. rewrite E in Hf.
  destruct Hf as (Hp1 & Hc1 & Hv & _ & Hpt). pose proof (fetch_block p len p1 Hp E) as (Hlt & Hb).
  pose proof (po_size _ Hp). assert (run_ok L rg p1 px) as Hok1 by by constructor.
  assert (forall m, or_trap (paints p1 px) m -> or_trap (paints p px) m) as Hstep.
  { intros [[[rg2 p2] px2]| |]; cbn [or_trap paints]; [|done..]. intros Hst. eapply step_fetch; [exact Hc1|lia|exact Hst]. }
  destruct (Z.eqb_spec cmd LIGHT_PROG_SET_ALL) as [|Hne]; apply Hstep.
  - destruct (prog_set_ok len rg p1 px) as (rg2 & p2 & px2 & -> & Hst); [lia|done|exact Hst].
  - apply prog_fade_ok; [lia|done|]. destruct Hc1 as [-> _]. intros Hfd. destruct Hb as [[? ->]|(Hcoln & Hl & ->)]; [lia|].
    pose proof (Hfd (prog_ptr p - 1) ltac:(lia)) as Hfade. unfold fade_at in Hfade.
    replace (prog_ptr p - 1 + 1) with (prog_ptr p) in Hfade by lia. replace (prog_ptr p - 1 + 2) with (prog_ptr p + 1) in Hfade by lia.
    rewrite Hcmd, Hcoln, <- Hl in Hfade. rewrite orb_false_r in Hk. rewrite Hk in Hfade. specialize (Hfade eq_refl). lia.
Qed.

Lemma modes_ok p m t : prog_ok p -> prog_ok (set_modes p m t).
Proof. intros []. by constructor. Qed.

Lemma run_cmd_ok numpix cmd rg p px : 0 <= numpix <= L -> run_ok L rg p px -> Forall is_byte px ->
  1 <= prog_ptr p -> prog_ptr p - 1 < prog_size p -> get8 (prog_data p) (prog_ptr p - 1) = cmd ->
  or_trap (fun '(r, p') => cmd_result p rg px r p') (run_cmd numpix cmd rg p px).
Proof.
  intros Hn Hok Hb Hpos Hsz Hcmd. pose proof Hok as [Hr Hp Hx]. unfold run_cmd.
  destruct (cmd =? LIGHT_PROG_COL1_SET).
  { pose proof (fetch_num_ok p 0 Hp ltac:(lia)) as Hf. destruct (prog_fetch_num p 0) as [k p1]. destruct Hf as (Hp1 & Hc1 & Hk & Hpt1).
    pose proof (fetch_color_ok p1 Hp1) as Hf. destruct (prog_fetch_color p1) as [c p2]. destruct Hf as (Hc & Hp2 & [Hd2 Hs2] & Hpt2).
    set (rg1 := set_range_ptr rg _). assert (range_ok L rg1) as Hr1.
    { destruct Hr. constructor; cbn; try done. apply u16_range. }
    destruct (set_next_ok L (prog_tmpmode p2) rg1 px c HL Hr1 Hx Hc) as (ok & rg2 & px2 & -> & Hr2 & Hst & _). obind.
    cbn [or_trap cmd_result]. destruct Hc1. constructor; [|split; congruence|lia|done].
    constructor; [done|done|by rewrite (ps_len _ _ _ Hst)]. }
  destruct (_ || _ || _) eqn:Hk.
  { destruct (prog_fetch p) as [[r len] p1] eqn:E. pose proof (prog_fetch_ok p Hp) as Hf. rewrite E in Hf.
    destruct Hf as (Hp1 & Hc1 & Hv & Hpt).
    destruct (Z.eqb_spec r PROG_COLOR_BLOCK) as [->|]; cbn [negb orb].
    - destruct (Z.eqb_spec len 0) as [|Hl].
      + cbn in *. split_and!; [done|done|lia].
      + pose proof (run_paint_ok cmd rg p px Hok Hpos Hsz Hcmd Hk len p1 E Hl) as Hpaint.
        destruct (if cmd =? LIGHT_PROG_SET_ALL then _ else _) as [[[rg2 p2] px2]| |]; [obind; exact Hpaint|exact Hpaint|done].
    - cbn in *. split_and!; [done|done|]. case_match; [destruct Hpt as [-> _]|]; lia. }
  destruct ((cmd =? LIGHT_PROG_ROTATE_BACK) || _).
  { pose proof (fetch_num_ok p 1 Hp ltac:(lia)) as Hf. destruct (prog_fetch_num p 1) as [k p1]. destruct Hf as (Hp1 & Hc1 & Hkk & Hpt1).
    destruct (Z.eqb_spec (range_len rg) 0) as [|Hl]; [by split_and!|].
    assert (0 < range_len rg) by (destruct Hr; lia). unfold wrap_shift. pose proof (Z.mod_pos_bound k (range_len rg) ltac:(lia)).
    set (k' := if _ && _ then _ else _). assert (0 <= k' < range_len rg) as Hk'.
    { unfold k'. destruct (Z.eqb_spec (k mod range_len rg) 0); cbn [negb]; rewrite ?andb_false_r; [lia|]. case_match; lia. }
    destruct (prog_rot_ok k' rg px Hr Hx Hb Hk') as (px2 & -> & Hst). obind.
    cbn. constructor; [|done|done|done]. constructor; [done|done|by rewrite (ps_len _ _ _ Hst)]. }
  assert (forall (m : Z) p1, prog_ok p1 -> same_code p p1 -> prog_ptr p <= prog_ptr p1 -> forall a b,
    or_trap (fun '(r, p') => cmd_result p rg px r p') (Ret (Some (rg, set_modes p1 a b, px), set_modes p1 a b))) as Hmode.
  { intros _ p1 Hp1 Hc1 Hpt1 a b. cbn. constructor; [|done|done|apply px_step_refl].
    constructor; [done|by apply modes_ok|done]. }
  pose proof (fetch_num_ok p 0 Hp ltac:(lia)) as Hf. unfold fetch_mode.
  destruct (cmd =? LIGHT_PROG_MODE1); [destruct (prog_fetch_num p 0) as [m p1]; destruct Hf as (? & ? & _ & ?); by apply (Hmode m)|].
  destruct (cmd =? LIGHT_PROG_MODE); [destruct (prog_fetch_num p 0) as [m p1]; destruct Hf as (? & ? & _ & ?); by apply (Hmode m)|].
  destruct (cmd =? LIGHT_PROG_RANGE).
  { pose proof (run_range_ok rg numpix p Hr Hp Hn) as Hrr. destruct (run_range rg numpix p) as [rg1 p1].
    destruct Hrr as (Hr1 & Hp1 & Hc1 & Hpt1). cbn. constructor; [by constructor|done|done|apply px_step_refl]. }
  by apply step_refl.
Qed.

(** [run_loop] keeps to the pixels as long as it runs; it ends when no fade
    makes the pointer wrap around. *)
Lemma run_loop_ok fuel numpix : forall rg p px, 0 <= numpix <= L -> run_ok L rg p px -> Forall is_byte px ->
  match run_loop fuel numpix rg p px with
  | Ret (show, rg', p', px') => run_ok L rg' p' px' /\ same_code p p' /\ px_step (3 * L) px px'
  | Panic => division_traps
  | OutOfFuel => fades_ok (prog_data p) -> Z.of_nat fuel <= Z.max 0 (prog_size p - prog_ptr p)
  end.
Proof.
  induction fuel as [|fuel IH]; intros rg p px Hn Hok Hb; cbn [run_loop]; [lia|]. pose proof Hok as [Hr Hp Hx].
  destruct (fetch_cmd_ok (cmd_fuel p) p Hp) as (cmd & p1 & -> & Hp1 & [Hd1 Hs1] & Hcmd);
    [unfold cmd_fuel; pose proof (po_ptr _ Hp); lia|unfold cmd_fuel; lia|]. obind.
  destruct (Z.eqb_spec cmd 0) as [|Hc0]; [split; [by constructor|]; split; [done|apply px_step_refl]|].
  destruct (Hcmd Hc0) as (Hlt & Hsz & Hby).
  destruct (cmd =? LIGHT_PROG_SHOW).
  { pose proof (fetch_num_ok p1 50 Hp1 ltac:(lia)) as Hfn. destruct (prog_fetch_num p1 50) as [k p2]. destruct Hfn as (Hp2 & [Hd2 Hs2] & _ & _).
    split_and!; [|split; cbn; congruence|apply px_step_refl]. constructor; [done| |done]. destruct Hp2. by constructor. }
  pose proof (po_ptr _ Hp) as Hpt0.
  pose proof (run_cmd_ok numpix cmd rg p1 px Hn ltac:(by constructor) Hb ltac:(lia) ltac:(lia) ltac:(by rewrite Hd1)) as Hres.
  destruct (run_cmd numpix cmd rg p1 px) as [[r p2]| |]; cbn [or_trap] in Hres; [|exact Hres|done]. obind.
  assert (forall rg2 p4 px2, run_ok L rg2 p4 px2 -> same_code p1 p4 -> (fades_ok (prog_data p1) -> prog_ptr p1 <= prog_ptr p4) -> px_step (3 * L) px px2 ->
    match run_loop fuel numpix rg2 p4 px2 with
    | Ret (show, rg', p', px') => run_ok L rg' p' px' /\ same_code p p' /\ px_step (3 * L) px px'
    | Panic => division_traps
    | OutOfFuel => fades_ok (prog_data p) -> Z.of_nat (S fuel) <= Z.max 0 (prog_size p - prog_ptr p)
    end) as Hnext.
  { intros rg2 p4 px2 Hok2 [Hd2 Hs2] Hpt2 Hst2. specialize (IH rg2 p4 px2 Hn Hok2 ltac:(by apply (ps_bytes _ _ _ Hst2))).
    destruct (run_loop fuel numpix rg2 p4 px2) as [[[[show rg'] p'] px']| |]; [|exact IH|].
    - destruct IH as (Hok' & [Hd' Hs'] & Hst'). split_and!; [done|split; congruence|by eapply px_step_trans].
    - intros Hfd. rewrite Hd2, Hd1 in IH. rewrite Hd1 in Hpt2. specialize (IH Hfd). specialize (Hpt2 Hfd). rewrite Hs2, Hs1 in IH. lia. }
  destruct r as [[[rg2 p3] px2]|]; cbn [cmd_result] in Hres.
  - destruct Hres as [[Hr3 Hp3 Hx3] [Hd2 Hs2] Hpt2 Hst2].
    destruct (cmd =? LIGHT_PROG_MODE1); apply Hnext; try done; constructor; try done. by apply modes_ok.
  - destruct Hres as (Hp2 & Hc2 & Hpt2). apply Hnext; [by constructor|done|done|apply px_step_refl].
Qed.
End Run.

(** ** The life of a strip *)

Definition led_regs_wf (r : led_regs) : Prop :=
  is_byte (requested_intensity r) /\ is_byte (intensity r) /\ is_byte (ledstrip_type r) /\ is_byte (variant r) /\
  0 <= numpixels r < 2 ^ 16 /\ 0 <= maxpower r < 2 ^ 16 /\ 0 <= maxpixels r < 2 ^ 16 /\ 0 <= num_repeats r < 2 ^ 16.

(** The service's state once it has its buffer: the strip and the range fit into
    it. *)
Record led_ok (L : Z) (s : ledstrip) : Prop := {
  lo_pixels : numpixels (l_regs s) <= L;
  lo_alloc : maxpixels (l_regs s) <> 0;
  lo_regs : led_regs_wf (l_regs s);
  lo_common : zlen (l_common s) = 6 /\ Forall is_byte (l_common s);
  lo_run : run_ok L (l_range s) (l_prog s) (pxbuffer s);
  lo_bytes : Forall is_byte (pxbuffer s);
}.

Lemma led_status_ok L s tx d ini t : led_ok L s -> led_ok L (set_status s tx d ini t).
Proof. intros []. by constructor. Qed.
Lemma led_emit_ok L s e : led_ok L s -> led_ok L (l_emit s e).
Proof. intros []. by constructor. Qed.

Lemma reset_prog_ok L now s : led_ok L s -> led_ok L (reset_prog now s).
Proof.
  intros [Hn Ha (? & ? & ? & ? & ? & ?) Hc [[] [] ?] Hb]. constructor; try done. constructor; [|constructor; cbn; try done; lia|done].
  constructor; cbn; lia.
Qed.

Section Life.
Context `{Division} (L : Z) (HL : 0 <= L <= 65535).

(** How a turn of a program ends: well, by a division by zero, or not at all,
    which takes a fade that makes the pointer wrap around. *)
Definition turn_result (fuel : nat) (s : ledstrip) (m : outcome ledstrip) : Prop :=
  match m with
  | Ret s' => led_ok L s' /\ px_step (3 * L) (pxbuffer s) (pxbuffer s')
  | Panic => division_traps
  | OutOfFuel => (fuel < PROG_FUEL)%nat \/ ~ fades_ok (prog_data (l_prog s))
  end.

Lemma run_program_ok fuel s : led_ok L s -> turn_result fuel s (run_program fuel s).
Proof.
  intros [Hn Ha Hw Hc Hr Hb]. pose proof (po_size _ (ru_prog _ _ _ _ Hr)). pose proof (po_ptr _ (ru_prog _ _ _ _ Hr)).
  assert (0 <= numpixels (l_regs s) <= L) as Hnp by (unfold led_regs_wf in Hw; lia).
  pose proof (run_loop_ok L HL fuel (numpixels (l_regs s)) (l_range s) (l_prog s) (pxbuffer s) Hnp Hr Hb) as Hl.
  unfold run_program. cbn [l_emit l_regs l_range l_prog pxbuffer]. destruct (run_loop _ _ _ _ _) as [[[[show rg] p] px]| |].
  - obind. destruct Hl as (Hr' & _ & Hst). split; [|by destruct show]. apply led_emit_ok.
    assert (led_ok L (set_run (l_emit s LedEnterPll) rg p px)) by (constructor; try done; by apply (ps_bytes _ _ _ Hst)).
    destruct show; [by apply led_status_ok|done].
  - exact Hl.
  - destruct (Nat.lt_ge_cases fuel PROG_FUEL) as [|Hge]; [by left|right]. intros Hfd. specialize (Hl Hfd). unfold PROG_FUEL in Hge. lia.
Qed.

Lemma prog_process_ok fuel now s : led_ok L s -> turn_result fuel s (prog_process fuel now s).
Proof.
  intros Hok. unfold prog_process. destruct (_ || _); [split; [done|apply px_step_refl]|].
  destruct (_ >=? _); [|by apply run_program_ok]. destruct (negb _); [|split; [done|apply px_step_refl]].
  set (s1 := if negb _ then _ else s). assert (led_ok L s1 /\ pxbuffer s1 = pxbuffer s /\ l_prog s1 = l_prog s) as (Hok1 & E1 & E2).
  { unfold s1. destruct (Z.eqb_spec (num_repeats (l_regs s)) 0); cbn [negb]; [done|]. destruct Hok as [Hn Ha (? & ? & ? & ? & ? & ? & ? & ?) Hc Hr Hb].
    split; [|done]. constructor; try done. unfold led_regs_wf. cbn. split_and!; done || lia. }
  pose proof (run_program_ok fuel (reset_prog now s1) (reset_prog_ok L now s1 Hok1)) as Hres. unfold turn_result in *.
  change (pxbuffer (reset_prog now s1)) with (pxbuffer s1) in Hres. change (prog_data (l_prog (reset_prog now s1))) with (prog_data (l_prog s1)) in Hres.
  by rewrite E1, E2 in Hres.
Qed.

Lemma limit_intensity_ok s : led_ok L s -> or_trap (fun s' => led_ok L s' /\ pxbuffer s' = pxbuffer s) (limit_intensity s).
Proof.
  intros Hok. assert (forall v, led_ok L (set_regs s (set_intensity (l_regs s) (u8 v)))) as Hset.
  { destruct Hok as [Hn Ha (? & ? & ? & ? & ? & ? & ? & ?) Hc Hr Hb]. intros v. constructor; try done. unfold led_regs_wf. cbn. split_and!; first [done|apply u8_range|lia]. }
  unfold limit_intensity. destruct (_ <=? _); [by split|]. destruct (_ <=? _); [by split|].
  set (x := Z.shiftr _ 8). destruct (sdiv (current_limit (l_regs s)) x) as [q| |] eqn:E; [obind; by split| |by apply sdiv_ends in E].
  obind. exists (current_limit (l_regs s)). right. destruct (decide (x = 0)) as [->|]; [done|]. rewrite sdiv_spec in E by done. done.
Qed.

Context (pin_pwr : bool).

Lemma ledstrip_process_ok fuel now available s : led_ok L s -> turn_result fuel s (ledstrip_process pin_pwr fuel now available s).
Proof.
  intros Hok. unfold ledstrip_process, alloc. rewrite (proj2 (Z.eqb_neq _ _) (lo_alloc _ _ Hok)). cbn [negb].
  pose proof (prog_process_ok fuel now s Hok) as Hp. destruct (prog_process fuel now s) as [s1| |]; [|exact Hp|exact Hp]. obind. destruct Hp as [Hok1 Hst].
  set (s2 := if in_past _ _ && _ then _ else s1). assert (led_ok L s2 /\ pxbuffer s2 = pxbuffer s1) as [Hok2 E2] by (unfold s2; case_match; [split; [by apply led_status_ok|done]|done]).
  clearbody s2. rewrite <- E2 in Hst. clear E2 Hok1 s1. destruct (negb (is_enabled s2)); [by split|]. destruct (dirty s2 && _); [|by split].
  destruct (_ && is_empty _ _); [split; [by apply led_emit_ok, led_status_ok|done]|].
  set (s3 := l_emit (set_status (if pin_pwr then _ else _) _ _ _ _) _). assert (led_ok L s3 /\ pxbuffer s3 = pxbuffer s2) as [Hok3 E3].
  { unfold s3. split; [|by destruct pin_pwr]. apply led_emit_ok, led_status_ok. destruct pin_pwr; [apply led_emit_ok|]; by apply led_status_ok. }
  clearbody s3. pose proof (limit_intensity_ok s3 Hok3) as Hl. destruct (limit_intensity s3) as [s4| |]; cbn [or_trap] in Hl; [|exact Hl|done]. obind.
  destruct Hl as [Hok4 E4]. split; [by apply led_emit_ok|]. cbn [pxbuffer l_emit]. by rewrite E4, E3.
Qed.

(** *** Packets *)

Context `{JdSpec} `{LedStripSpec}.

(** A packet of a frame, in a buffer that holds it. *)
Definition led_packet_ok (pkt : list Z) : Prop :=
  Forall is_byte pkt /\ 0 <= p_service_size pkt <= 236 /\ p_service_size pkt <= zlen (drop 16 pkt).

Lemma sync_config_ok s : led_ok L s -> led_ok L (sync_config s) /\ pxbuffer (sync_config s) = pxbuffer s.
Proof.
  intros Hok. unfold sync_config. destruct (negb (is_enabled s)); [split; [by apply led_emit_ok|done]|].
  destruct (negb (inited s)); (split; [|done]); repeat apply led_emit_ok; [by apply led_status_ok|done].
Qed.

Lemma run_cmd_packet_ok now pkt s : led_packet_ok pkt -> led_ok L s ->
  led_ok L (handle_run_cmd now pkt s) /\ pxbuffer (handle_run_cmd now pkt s) = pxbuffer s.
Proof.
  intros (Hb & Hsz & _) [Hn Ha Hw Hc [Hr [Hd _ Hp] Hx] Hpx]. unfold handle_run_cmd.
  set (s1 := reset_prog now (set_run s _ _ _)). assert (led_ok L s1) as Hok; [|by apply (sync_config_ok s1)].
  apply reset_prog_ok. constructor; try done. constructor; [done| |done]. constructor; cbn; [|done|done].
  apply Forall_mwrite; [done|by apply Forall_mread].
Qed.

Definition led_layout : list reg_entry :=
  let e r tp off sz := {| re_reg := r; re_tp := tp; re_off := off; re_bit := 0; re_size := sz |} in
  [e JD_REG_PADDING JD_REG_BYTES 0 6; e JD_LED_STRIP_REG_BRIGHTNESS 1 6 1; e JD_LED_STRIP_REG_ACTUAL_BRIGHTNESS 1 7 1; e JD_LED_STRIP_REG_LIGHT_TYPE 1 8 1;
   e JD_LED_STRIP_REG_VARIANT 1 9 1; e JD_LED_STRIP_REG_NUM_PIXELS 3 10 2; e JD_LED_STRIP_REG_MAX_POWER 3 12 2; e JD_LED_STRIP_REG_MAX_PIXELS 3 14 2;
   e JD_LED_STRIP_REG_NUM_REPEATS 3 16 2].
Lemma led_layout_ok : layout ledstrip_regs 0 0 = Some led_layout.
Proof.
  pose proof led_rw_codes as Hrw. pose proof led_ro_codes as Hro. rewrite !Forall_cons in Hrw. rewrite !Forall_cons in Hro. destruct Hrw as (R1 & R2 & R3 & R4 & R5 & _), Hro as (O1 & O2 & O3 & _).
  unfold ledstrip_regs, REG_SRV_COMMON. cbn [app].
  transitivity (es ← layout (tl (tl ledstrip_regs)) 6 0; Some (hd {| re_reg := 0; re_tp := 0; re_off := 0; re_bit := 0; re_size := 0 |} led_layout :: es)); [reflexivity|].
  unfold ledstrip_regs, REG_SRV_COMMON. cbn [app tl].
  rewrite (layout_plain 1 _ _ 6 0 6 1), (layout_plain 1 _ _ 7 0 7 1), (layout_plain 1 _ _ 8 0 8 1), (layout_plain 1 _ _ 9 0 9 1) by (reflexivity || lia).
  rewrite (layout_plain 3 _ _ 10 0 10 2), (layout_plain 3 _ _ 12 0 12 2), (layout_plain 3 _ _ 14 0 14 2), (layout_plain 3 _ _ 16 0 16 2) by (reflexivity || lia).
  reflexivity.
Qed.

Lemma led_decode_wf b : Forall is_byte b -> led_regs_wf (led_decode b).
Proof.
  intros Hb. unfold led_regs_wf, led_decode. cbn. split_and!; try exact (get8_is_byte _ _ Hb).
  all: unfold get16; match goal with |- context [mread ?l ?i ?n] => pose proof (le_val_mread l i n Hb) end; lia.
Qed.

(** The engine writes registers that can be written, in their width. *)
Lemma led_register s pkt (log : list output) : led_ok L s -> led_packet_ok pkt -> exists r b log',
  service_handle_register_final (led_encode s) pkt ledstrip_regs log = Ret (r, b, log') /\ led_regs_wf (led_decode b) /\
  maxpixels (led_decode b) = maxpixels (l_regs s).
Proof.
  intros [_ _ (W1 & W2 & W3 & W4 & W5 & W6 & W7 & W8) [Hc Hcb] _ _] (Hb & Hsz & Hsz2).
  assert (Forall is_byte (led_encode s)) as He by (unfold led_encode; rewrite !Forall_app; split_and!; auto using le_bytes_is_byte).
  assert (Forall (fun e => re_end e <= zlen (led_encode s)) led_layout) as Hend.
  { unfold led_encode, zlen, led_layout, re_end in *. rewrite !length_app, !length_le_bytes. cbn [length]. repeat constructor; cbn [re_off re_size]; lia. }
  destruct (register_final_spec (led_encode s) pkt ledstrip_regs _ log led_layout_ok Hend ltac:(lia) He Hb) as (r & b & log' & E & Hbb & Hcase).
  exists r, b, log'. split; [done|]. split; [by apply led_decode_wf|]. cbn [led_decode maxpixels].
  transitivity (get16 (led_encode s) 14).
  - destruct Hcase as [->|(_ & _ & Hw & _ & Hsame)]; [done|]. unfold get16. f_equal.
    refine (Hsame {| re_reg := JD_LED_STRIP_REG_MAX_PIXELS; re_tp := 3; re_off := 14; re_bit := 0; re_size := 2 |} _ _); [cbn; tauto|]. cbn [re_reg].
    pose proof led_ro_codes as Hro. rewrite !Forall_cons in Hro. destruct Hro as (_ & _ & O3 & _). intros <-. unfold reg_writable in Hw. rewrite reg_group in Hw by lia.
    replace (JD_LED_STRIP_REG_MAX_PIXELS / 256) with 1 in Hw by (Z.to_euclidean_division_equations; lia). by rewrite andb_false_r in Hw.
  - unfold led_encode. destruct (l_common s) as [|c0 [|c1 [|c2 [|c3 [|c4 [|c5 [|]]]]]]]; try (exfalso; unfold zlen in Hc; simpl in Hc; lia).
    change (get16 _ 14) with (le_val (le_bytes 2 (maxpixels (l_regs s)))). rewrite le_val_le_bytes. apply Z.mod_small. lia.
Qed.

Lemma led_handle_ok now pkt s s' (log log' : list output) : led_ok L s -> led_packet_ok pkt ->
  ledstrip_handle_packet now pkt s log = Ret (s', log') -> numpixels (l_regs s') <= L ->
  led_ok L s' /\ pxbuffer s' = pxbuffer s.
Proof.
  intros Hok Hpkt E Hn. unfold ledstrip_handle_packet in E. destruct (_ =? JD_LED_STRIP_CMD_RUN).
  { injection E as <- _. by apply run_cmd_packet_ok. }
  destruct (led_register s pkt log Hok Hpkt) as (r & b & log1 & E1 & (W1 & W2 & W3 & W4 & W5 & W6 & W7 & W8) & Hm). rewrite E1 in E. clear E1. cbn [mbind outcome_bind] in E. set (d := led_decode b) in *. clearbody d. rewrite Hm in W7.
  injection E as <- _. split; [|done]. destruct Hok as [_ Ha _ Hc Hr Hb].
  constructor; try done; cbn [set_regs l_regs]; destruct (r =? JD_LED_STRIP_REG_BRIGHTNESS);
    try (destruct (r =? JD_LED_STRIP_REG_NUM_PIXELS); [destruct (_ >? _)|]); unfold led_regs_wf; cbn; rewrite ?Hm; first [done|split_and!; done || lia].
Qed.

(** *** All histories *)

(** The states of a strip: turns, packets that do not ask for more than [L]
    pixels, and the ends of transfers. *)
Inductive led_reach (s0 : ledstrip) : ledstrip -> Prop :=
  | LedStart : led_reach s0 s0
  | LedTurn s s' fuel now available :
      led_reach s0 s -> ledstrip_process pin_pwr fuel now available s = Ret s' -> led_reach s0 s'
  | LedPacket s s' now pkt (log log' : list output) :
      led_reach s0 s -> led_packet_ok pkt -> ledstrip_handle_packet now pkt s log = Ret (s', log') -> numpixels (l_regs s') <= L -> led_reach s0 s'
  | LedSent s : led_reach s0 s -> led_reach s0 (tx_done s).

Lemma led_reach_ok s0 s : led_ok L s0 -> led_reach s0 s -> led_ok L s /\ px_step (3 * L) (pxbuffer s0) (pxbuffer s).
Proof.
  intros Hs0. induction 1 as [|s s' fuel now available _ [Hok Hst] E|s s' now pkt log log' _ [Hok Hst] Hpkt E Hn|s _ [Hok Hst]].
  - split; [done|apply px_step_refl].
  - pose proof (ledstrip_process_ok fuel now available s Hok) as Hres. rewrite E in Hres. destruct Hres as [Hok' Hst']. split; [done|by eapply px_step_trans].
  - destruct (led_handle_ok now pkt s s' log log' Hok Hpkt E Hn) as [Hok' ->]. by split.
  - split; [by apply led_emit_ok, led_status_ok|done].
Qed.

(** The strip when it has its buffer. *)
Lemma led_alloc_ok common type n power var available :
  zlen common = 6 -> Forall is_byte common -> 0 <= n <= L -> 6 <= available < 2 ^ 32 ->
  let s0 := alloc available (ledstrip_init common type n power var) in
  3 * L <= zlen (pxbuffer s0) -> led_ok L s0.
Proof.
  intros Hc Hcb Hn Hav s0 Hbuf. unfold s0, alloc in *. change (maxpixels (l_regs (ledstrip_init common type n power var))) with 0 in *. change (negb (0 =? 0)) with false in *.
  cbv iota zeta in *. set (m := if s32 (u32 (available / 3 - 1)) >? 4096 then 4096 else s32 (u32 (available / 3 - 1))) in *.
  assert (1 <= available / 3 - 1 < 2 ^ 31) as Hq by (Z.to_euclidean_division_equations; lia).
  assert (1 <= m <= 4096) as Hm by (unfold m; rewrite u32_small, s32_small by lia; rewrite Z.gtb_ltb; destruct (Z.ltb_spec 4096 (available / 3 - 1)); lia).
  clearbody m. constructor; cbn in *; rewrite ?(u16_small m), ?(u16_small n) in * by lia; try done; try lia.
  - unfold led_regs_wf. cbn. rewrite ?(u16_small m), ?(u16_small n) by lia. pose proof (u8_range type). pose proof (u8_range var). pose proof (u16_range power).
    unfold is_byte, DEFAULT_INTENSITY. lia.
  - constructor; [constructor; cbn; lia|constructor; cbn; [by apply bytes_by_test|lia|lia]|done].
  - by apply Forall_replicate.
Qed.

(** C8. No host program gets out of the pixels. The service starts with [n]
    pixels and allocates its buffer, packets (programs, registers, anything
    else) and turns follow in any order; [L] is a number of pixels that fit into
    the buffer and that no packet goes beyond (the service itself lets packets
    go beyond the buffer, [alloc_too_small]). Then a turn ends in one of three
    ways. It returns, the buffer is as long as it was, and its bytes from
    [3 * L] on are those of the start. Or it divided by zero on a machine that
    traps; an access outside of the buffer is a [Panic] on every machine, also on
    one that does not trap, so there is none. Or it is still running after
    [fuel] commands, although these are [PROG_FUEL] at least, which takes a fade
    of so many colours that the 8-bit program pointer wraps around
    ([fade_bomb_loops]). *)
Theorem led_program_safe common type n power var available s fuel now later :
  zlen common = 6 -> Forall is_byte common -> 0 <= n <= L -> 6 <= available < 2 ^ 32 ->
  let s0 := alloc available (ledstrip_init common type n power var) in
  3 * L <= zlen (pxbuffer s0) -> led_reach s0 s ->
  match ledstrip_process pin_pwr fuel now later s with
  | Ret s' => numpixels (l_regs s') <= L /\ zlen (pxbuffer s') = zlen (pxbuffer s0) /\
              drop (Z.to_nat (3 * L)) (pxbuffer s') = drop (Z.to_nat (3 * L)) (pxbuffer s0)
  | Panic => division_traps
  | OutOfFuel => (fuel < PROG_FUEL)%nat \/ ~ fades_ok (prog_data (l_prog s))
  end.
Proof.
  intros Hc Hcb Hn Hav s0 Hbuf Hreach. pose proof (led_alloc_ok common type n power var available Hc Hcb Hn Hav Hbuf) as Hs0. fold s0 in Hs0.
  destruct (led_reach_ok s0 s Hs0 Hreach) as [Hok Hst]. pose proof (ledstrip_process_ok fuel now later s Hok) as Hres.
  destruct (ledstrip_process pin_pwr fuel now later s) as [s'| |]; [|exact Hres|exact Hres]. destruct Hres as [Hok' Hst'].
  destruct (px_step_trans _ _ _ _ Hst Hst') as [Hlen _ Htail]. split; [apply (lo_pixels _ _ Hok')|]. by split.
Qed.
End Life.

(** ** The current stays below the limit *)

Lemma scale0_spec v i : is_byte v -> is_byte i -> SCALE0 v i = v * (1 + i) / 256.
Proof.
  unfold is_byte, SCALE0. intros Hv Hi. change 0xff with (Z.ones 8). rewrite !Z.land_ones, !Z.mod_small by lia.
  by rewrite Z.shiftr_div_pow2 by lia.
Qed.

Lemma fold_bound (f : Z -> Z) k l : (forall v, v ∈ l -> 0 <= f v /\ 256 * f v <= k * v) -> forall a b,
  a <= fold_left (fun acc v => acc + f v) l a /\
  256 * (fold_left (fun acc v => acc + f v) l a - a) <= k * (fold_left (fun acc v => acc + v) l b - b).
Proof.
  induction l as [|v l IH]; intros Hf a b; cbn [fold_left]; [lia|].
  destruct (Hf v) as [H1 H2]; [by left|]. destruct (IH (fun v Hv => Hf v (list_elem_of_further _ _ _ Hv)) (a + f v) (b + v)). nia.
Qed.

Lemma current_bound d i : Forall is_byte d -> is_byte i ->
  0 <= current_at d i /\ 256 * current_at d i <= (1 + i) * current_sum d.
Proof.
  intros Hd Hi. unfold current_at, current_sum.
  destruct (fold_bound (fun v => SCALE0 v i) (1 + i) d) with (a := 0) (b := 0) as [? Hb]; [|split; lia].
  intros v Hv. rewrite Forall_forall in Hd. specialize (Hd v Hv). rewrite scale0_spec by done.
  unfold is_byte in *. Z.to_euclidean_division_equations. nia.
Qed.

Lemma current_at_0 d : Forall is_byte d -> current_at d 0 = 0.
Proof.
  intros Hd. destruct (fold_bound (fun v => SCALE0 v 0) 0 d) with (a := 0) (b := 0) as [? ?]; [|unfold current_at; lia].
  intros v Hv. rewrite Forall_forall in Hd. specialize (Hd v Hv). rewrite scale0_spec by done.
  unfold is_byte in *. rewrite Z.div_small; lia.
Qed.

(** The intensity chosen for the next frame keeps the estimated current
    of the pixels within 256 uA of the limit (while the limit leaves 66 mA for
    the pixels), and never goes above what it was and what was asked for. *)
Lemma limit_intensity_limits `{Division} s :
  Forall is_byte (pxbuffer s) -> is_byte (intensity (l_regs s)) -> is_byte (requested_intensity (l_regs s)) ->
  65536 <= current_limit (l_regs s) ->
  exists s', limit_intensity s = Ret s' /\
    let i := intensity (l_regs s') in
    let d := mread (pxbuffer s) 0 (numpixels (l_regs s) * 3) in
    current_at d i * 46 <= current_limit (l_regs s) + 256 /\
    0 <= i <= Z.max (intensity (l_regs s)) (requested_intensity (l_regs s)) /\
    l_regs s' = set_intensity (l_regs s) i /\ pxbuffer s' = pxbuffer s.
Proof.
  intros Hb Hi Hr Hlim. unfold limit_intensity. cbv zeta.
  set (d := mread _ _ _). assert (Forall is_byte d) as Hd by by apply Forall_mread.
  set (lim := current_limit _) in *. set (full := current_sum d).
  set (up := if _ >? _ then _ else _).
  assert (0 <= up <= Z.min 255 (requested_intensity (l_regs s))) as Hup.
  { unfold up, is_byte in *. rewrite Z.gtb_ltb. pose proof (Z.shiftr_nonneg (intensity (l_regs s)) 5). case_cmp; lia. }
  unfold is_byte in Hi, Hr.
  destruct (current_bound d up Hd) as [Hc0 Hc]; [unfold is_byte; lia|]. fold full in Hc.
  destruct (Z.leb_spec (current_at d up * 46) lim) as [Hle|Hgt].
  { eexists. split; [done|]. cbn. rewrite u8_small by lia. split_and!; try done; lia. }
  destruct (Z.leb_spec (current_at d (intensity (l_regs s)) * 46) lim) as [Hle|Hgt2].
  { exists s. split_and!; try done; try lia. by destruct (l_regs s). }
  rewrite Z.shiftr_div_pow2 by lia. change (2 ^ 8) with 256. set (k := full * 46 / 256).
  assert (256 <= k /\ 256 * k <= full * 46 < 256 * k + 256) as [Hk Hkf].
  { unfold k. Z.to_euclidean_division_equations. nia. }
  rewrite sdiv_spec by lia. obind. rewrite Z.quot_div_nonneg by lia. set (q := lim / k).
  assert (k * q <= lim < k * q + k) as Hq by (unfold q; Z.to_euclidean_division_equations; nia).
  assert (0 <= q) by nia.
  assert (q <= 1 + up) as Hqu.
  { destruct (Z.le_gt_cases q (1 + up)); [done|exfalso].
    assert (k * (2 + up) <= k * q) by (apply Z.mul_le_mono_nonneg_l; lia).
    assert ((1 + up) * (full * 46) <= (1 + up) * (256 * k + 255)) by (apply Z.mul_le_mono_nonneg_l; lia). lia. }
  set (j := if q - 1 <? 0 then 0 else q - 1). assert (0 <= j <= up) as Hj by (unfold j; case_cmp; lia).
  eexists. split; [done|]. cbn. rewrite u8_small by lia. split_and!; try done; try lia.
  destruct (current_bound d j Hd) as [_ Hcj]; [unfold is_byte; lia|]. fold full in Hcj.
  unfold j in *. destruct (Z.ltb_spec (q - 1) 0); [rewrite current_at_0 by done; lia|].
  assert (q * (full * 46) <= q * (256 * k + 255)) by (apply Z.mul_le_mono_nonneg_l; lia).
  replace (1 + (q - 1)) with q in Hcj by lia. lia.
Qed.

(** ** Concrete machines and programs *)

Lemma m0_udiv a b : 0 < b -> Ret (a / b) = Ret (a / b).
Proof. done. Qed.
Lemma m0_sdiv a b : b <> 0 -> Ret (Z.quot a b) = Ret (Z.quot a b).
Proof. done. Qed.
Lemma m0_ends (f : Z -> Z -> Z) a b : Ret (f a b) <> OutOfFuel.
Proof. done. Qed.
(** A machine that gives 0 for a division by zero, as a Cortex-M does. *)
Definition quiet_division : Division :=
  {| udiv := fun a b => Ret (a / b); udiv_spec := m0_udiv; udiv_ends := m0_ends Z.div;
     sdiv := fun a b => Ret (Z.quot a b); sdiv_spec := m0_sdiv; sdiv_ends := m0_ends Z.quot |}.

Lemma trap_udiv a b : 0 < b -> (if b =? 0 then Panic else Ret (a / b)) = Ret (a / b).
Proof. intros. by rewrite (proj2 (Z.eqb_neq _ _)) by lia. Qed.
Lemma trap_sdiv a b : b <> 0 -> (if b =? 0 then Panic else Ret (Z.quot a b)) = Ret (Z.quot a b).
Proof. intros. by rewrite (proj2 (Z.eqb_neq _ _)). Qed.
Lemma trap_ends (f : Z -> Z -> Z) a b : (if b =? 0 then Panic else Ret (f a b)) <> OutOfFuel.
Proof. by destruct (b =? 0). Qed.
(** A machine that traps. *)
Definition trapping_division : Division :=
  {| udiv := fun a b => if b =? 0 then Panic else Ret (a / b); udiv_spec := trap_udiv; udiv_ends := trap_ends Z.div;
     sdiv := fun a b => if b =? 0 then Panic else Ret (Z.quot a b); sdiv_spec := trap_sdiv; sdiv_ends := trap_ends Z.quot |}.

(** A strip of [n] pixels with a buffer of [bytes] and a program. *)
Definition demo_strip (n bytes : Z) (prog : list Z) : ledstrip :=
  let s := ledstrip_init [0; 0; 0; 0; 1; 0] 0 n 500 0 in
  let s := set_regs s (set_num_repeats (set_maxpixels (l_regs s) n) 0) in
  reset_prog 0 (set_run s (l_range s)
    {| prog_mode := 0; prog_tmpmode := 0; prog_ptr := 0; prog_size := zlen prog; prog_next_step := 0;
       prog_data := prog ++ replicate (237 - length prog) 0 |} (replicate (Z.to_nat bytes) 0)).

(** Two pixels red and two blue, faded and rotated. *)
Definition demo_prog : list Z :=
  [0xD0; 0xC2; 255; 0; 0; 0; 0; 255; 0xD1; 0xC2; 1; 2; 3; 9; 8; 7; 0xD3; 1; 0xD5].

#[local] Existing Instances demo_spec quiet_division.
Definition demo_led_codes : LedStripSpec.
Proof.
  refine {| JD_LED_STRIP_CMD_RUN := 0x81; JD_LED_STRIP_REG_BRIGHTNESS := 0x1; JD_LED_STRIP_REG_ACTUAL_BRIGHTNESS := 0x180;
            JD_LED_STRIP_REG_LIGHT_TYPE := 0x80; JD_LED_STRIP_REG_VARIANT := 0x107; JD_LED_STRIP_REG_NUM_PIXELS := 0x81; JD_LED_STRIP_REG_MAX_POWER := 0x7;
            JD_LED_STRIP_REG_MAX_PIXELS := 0x181; JD_LED_STRIP_REG_NUM_REPEATS := 0x82 |}; repeat constructor; discriminate.
Defined.
#[local] Existing Instance demo_led_codes.

(** Four pixels in a buffer of 76 bytes, the program above as a packet, a turn,
    and the end of the transfer. *)
Definition demo_led0 : ledstrip := alloc 306 (ledstrip_init [0; 0; 0; 0; 1; 0] 0 4 500 0).
Definition demo_led1 : ledstrip := handle_run_cmd 100 (demo_pkt 0x81 demo_prog) demo_led0.
Definition demo_led2 : ledstrip := match ledstrip_process false PROG_FUEL 200 0 demo_led1 with Ret s => s | _ => demo_led0 end.

Lemma demo_led_reach : led_reach 4 false demo_led0 (tx_done demo_led2).
Proof.
  assert (led_reach 4 false demo_led0 demo_led1) as H1.
  { apply (LedPacket 4 false demo_led0 demo_led0 demo_led1 100 (demo_pkt 0x81 demo_prog) [] []); [constructor| |vm_compute; reflexivity|vm_compute; discriminate].
    split; [by apply bytes_by_test|vm_compute; repeat split; discriminate]. }
  apply LedSent, (LedTurn 4 false demo_led0 demo_led1 demo_led2 PROG_FUEL 200 0 H1). vm_compute. reflexivity.
Qed.

Lemma led_program_safe_witness :
  zlen (pxbuffer demo_led0) = 76 /\
  match ledstrip_process false PROG_FUEL 60000 0 (tx_done demo_led2) with
  | Ret s' => numpixels (l_regs s') <= 4 /\ zlen (pxbuffer s') = 76 /\ drop 12 (pxbuffer s') = replicate 64 0 /\ mread (pxbuffer s') 0 12 <> replicate 12 0
  | _ => False
  end.
Proof.
  split; [vm_compute; reflexivity|].
  pose proof (led_program_safe 4 ltac:(lia) false [0; 0; 0; 0; 1; 0] 0 4 500 0 306 (tx_done demo_led2) PROG_FUEL 60000 0 eq_refl ltac:(by apply bytes_by_test) ltac:(lia) ltac:(lia)
    ltac:(vm_compute; discriminate) demo_led_reach) as Hres.
  destruct (ledstrip_process false PROG_FUEL 60000 0 (tx_done demo_led2)) as [s'| |] eqn:E; [|exfalso; vm_compute in E; discriminate|exfalso; vm_compute in E; discriminate].
  destruct Hres as (Hn & Hlen & Htail). split; [exact Hn|]. split; [rewrite Hlen; vm_compute; reflexivity|]. split; [exact (eq_trans Htail ltac:(vm_compute; reflexivity))|].
  vm_compute in E. injection E as <-. vm_compute. discriminate.
Defined.

(** *** Defects *)

(** A fade of 255 colours adds 765 to the 8-bit program pointer and comes back
    to the command itself: the loop never ends. *)
Definition fade_bomb : list Z := [0xD1; 0xC0; 255].
Definition bomb_range : led_range := {| range_start := 0; range_end := 1; range_len := 1; range_ptr := 1 |}.

Lemma fade_bomb_loops fuel :
  let p := l_prog (demo_strip 1 3 fade_bomb) in
  run_loop (H := quiet_division) fuel 1 bomb_range p [0; 0; 0] = OutOfFuel.
Proof.
  cbv zeta. set (p := l_prog (demo_strip 1 3 fade_bomb)). induction fuel as [|fuel IH]; [done|]. cbn [run_loop].
  assert (prog_fetch_cmd (cmd_fuel p) p = Ret (0xD1, set_ptr p 1)) as -> by (vm_compute; reflexivity). obind.
  cbn [Z.eqb Pos.eqb LIGHT_PROG_SHOW].
  assert (run_cmd (H := quiet_division) 1 0xD1 bomb_range (set_ptr p 1) [0; 0; 0] = Ret (Some (bomb_range, p, [0; 0; 0]), p)) as ->
    by (vm_compute; reflexivity). obind. cbn [Z.eqb Pos.eqb LIGHT_PROG_MODE1]. exact IH.
Qed.

(** [jd_alloc] gets the number of words as a number of bytes: the buffer of a
    strip is a quarter of what its pixels need. *)
Lemma alloc_too_small :
  let s := alloc 4000 (ledstrip_init [0; 0; 0; 0; 1; 0] 0 1000 500 0) in
  maxpixels (l_regs s) = 1332 /\ zlen (pxbuffer s) = 999 /\
  run_program (H := quiet_division) PROG_FUEL (reset_prog 0 (set_run s (l_range s)
    {| prog_mode := 0; prog_tmpmode := 0; prog_ptr := 0; prog_size := 5; prog_next_step := 0;
       prog_data := [0xD0; 0xC1; 1; 2; 3] ++ replicate 232 0 |} (pxbuffer s))) = Panic.
Proof. vm_compute. repeat split. Qed.

(** A fade over an empty range divides by its length. *)
Lemma fade_divides_by_zero :
  run_program (H := trapping_division) PROG_FUEL (demo_strip 4 12 [0xD6; 0; 0; 0xD1; 0xC2; 1; 2; 3; 4; 5; 6]) = Panic.
Proof. vm_compute. reflexivity. Qed.

(** With a limit below the idle current, a dark strip divides by its current. *)
Lemma limit_divides_by_zero :
  let s := demo_strip 4 12 [] in
  limit_intensity (H := trapping_division) (set_regs s
    {| requested_intensity := 15; intensity := 15; ledstrip_type := 0; variant := 0; numpixels := 4; maxpower := 10;
       maxpixels := 4; num_repeats := 1 |}) = Panic.
Proof. vm_compute. reflexivity. Qed.
