(* ===== verification/Lstore.v ===== *)
(** * The log on an SD card ([storage/lstore.c], [inc/jd_storage.h])

    A log file is a header block and a ring of blocks of 512 to 4096 bytes.
    Entries are appended to a block in memory; when it is full, or after some
    seconds, it is swapped with a second block, which the main loop checksums
    and writes, while interrupts go on appending to the first. At start-up the
    end of the log is found by binary search, by the generation and the time in
    the blocks. In the panic handler the card is driven bit by bit.

    Compiled with [JD_SD_PANIC], and without [JD_LSTORE_FF] (the port's
    [jd_f_create] gives the file). The card's driver and the SPI lines are the
    class [Card]; the delays of the panic handler have no effect in the model.
    A [NULL] buffer is the empty list. *)
From S2P Require Import Prelude Util Crc32.

Class Card (D : Type) := {
  (** Result (0 on success), data: [ff_disk_read(pdrv, dst, sector, count)]. *)
  ff_disk_read : D -> Z -> Z -> Z * list Z * D;
  ff_disk_write : D -> list Z -> Z -> Z -> Z * D;
  (** Result, actual size, first sector: [jd_f_create(name, &size, &sector_off)]. *)
  jd_f_create : D -> list Z -> Z -> Z * Z * Z * D;
  spi_bb_init : D -> D;
  spi_bb_rx : D -> Z -> list Z * D;
  spi_bb_tx : D -> list Z -> D;
  spi_bb_set_cs : D -> Z -> D;
  spi_bb_get_miso : D -> Z * D;
}.

(** Documented: the driver reads what it wrote last, sector by sector; [image]
    is the contents of the card. *)
Class CardLaws (D : Type) `{Card D} := {
  image : D -> list Z;
  disk_read_image : forall c s n, 0 <= s -> 0 <= n -> 512 * (s + n) <= zlen (image c) ->
    exists c', ff_disk_read c s n = (0, mread (image c) (512 * s) (512 * n), c') /\ image c' = image c;
  disk_write_image : forall c src s n, 0 <= s -> 0 <= n -> zlen src = 512 * n -> 512 * (s + n) <= zlen (image c) ->
    exists c', ff_disk_write c src s n = (0, c') /\ image c' = mwrite (image c) (512 * s) src;
}.

Definition JD_LSTORE_FLUSH_SECONDS : Z := 10.
Definition JD_LSTORE_FILE_SIZE : Z := 65 * 1024 * 1024.
Definition JD_LSTORE_NUM_FILES : Z := 2.
Definition JD_LSTORE_TYPE_DEVINFO : Z := 0x01.
Definition JD_LSTORE_TYPE_PANIC_LOG : Z := 0x05.
Definition JD_LSTORE_MAGIC0 : Z := 0x0a4c444a.
Definition JD_LSTORE_MAGIC1 : Z := 0xb5d1841e.
Definition JD_LSTORE_VERSION : Z := 5.
Definition JD_LSTORE_ENTRY_HEADER_SIZE : Z := 4.
Definition sizeof_block_header : Z := 16.
Definition sizeof_block_footer : Z := 8.
Definition JD_LSTORE_BLOCK_OVERHEAD : Z := sizeof_block_header + sizeof_block_footer.
Definition SECTOR_SHIFT : Z := 9.
Definition SECTOR_SIZE : Z := 512.

(** [jd_lstore_file_t]; the parent's card and panic mode are arguments. *)
Record lfile := {
  lf_block : list Z;
  lf_block_alt : list Z;
  lf_sector_off : Z;
  lf_size : Z;
  lf_header_blocks : Z;
  lf_data_blocks : Z;
  lf_block_shift : Z;        (* uint8_t *)
  lf_needs_flushing : Z;     (* uint8_t: 1 wanted, 2 being written *)
  lf_block_magic0 : Z;
  lf_block_magic1 : Z;
  lf_block_generation : Z;
  lf_block_ptr : Z;
  lf_data_ptr : Z;
}.

Definition lf0 : lfile := {|
  lf_block := []; lf_block_alt := []; lf_sector_off := 0; lf_size := 0; lf_header_blocks := 0; lf_data_blocks := 0;
  lf_block_shift := 0; lf_needs_flushing := 0; lf_block_magic0 := 0; lf_block_magic1 := 0;
  lf_block_generation := 0; lf_block_ptr := 0; lf_data_ptr := 0 |}.

(** [jd_lstore_ctx_t] with the card. *)
Record lstore (D : Type) := {
  ls_card : D;
  ls_flush_timer : Z;
  ls_panic_mode : Z;          (* 0; 1 writing by SPI; 2 starting or failed to; 3 failed later *)
  ls_panic_char_ptr : Z;
  ls_panic_max_char_ptr : Z;
  ls_logs : list lfile;
}.
Arguments ls_card {D} _.
Arguments ls_flush_timer {D} _.
Arguments ls_panic_mode {D} _.
Arguments ls_panic_char_ptr {D} _.
Arguments ls_panic_max_char_ptr {D} _.
Arguments ls_logs {D} _.

Definition lf_set_size (f : lfile) (size off : Z) : lfile := {|
  lf_block := lf_block f; lf_block_alt := lf_block_alt f; lf_sector_off := off; lf_size := size;
  lf_header_blocks := lf_header_blocks f; lf_data_blocks := lf_data_blocks f; lf_block_shift := lf_block_shift f;
  lf_needs_flushing := lf_needs_flushing f; lf_block_magic0 := lf_block_magic0 f; lf_block_magic1 := lf_block_magic1 f;
  lf_block_generation := lf_block_generation f; lf_block_ptr := lf_block_ptr f; lf_data_ptr := lf_data_ptr f |}.
Definition lf_set_shift (f : lfile) (v : Z) : lfile := {|
  lf_block := lf_block f; lf_block_alt := lf_block_alt f; lf_sector_off := lf_sector_off f; lf_size := lf_size f;
  lf_header_blocks := lf_header_blocks f; lf_data_blocks := lf_data_blocks f; lf_block_shift := v;
  lf_needs_flushing := lf_needs_flushing f; lf_block_magic0 := lf_block_magic0 f; lf_block_magic1 := lf_block_magic1 f;
  lf_block_generation := lf_block_generation f; lf_block_ptr := lf_block_ptr f; lf_data_ptr := lf_data_ptr f |}.
Definition lf_set_geometry (f : lfile) (hb db m0 m1 : Z) : lfile := {|
  lf_block := lf_block f; lf_block_alt := lf_block_alt f; lf_sector_off := lf_sector_off f; lf_size := lf_size f;
  lf_header_blocks := hb; lf_data_blocks := db; lf_block_shift := lf_block_shift f;
  lf_needs_flushing := lf_needs_flushing f; lf_block_magic0 := m0; lf_block_magic1 := m1;
  lf_block_generation := lf_block_generation f; lf_block_ptr := lf_block_ptr f; lf_data_ptr := lf_data_ptr f |}.
Definition lf_set_blocks (f : lfile) (b alt : list Z) : lfile := {|
  lf_block := b; lf_block_alt := alt; lf_sector_off := lf_sector_off f; lf_size := lf_size f;
  lf_header_blocks := lf_header_blocks f; lf_data_blocks := lf_data_blocks f; lf_block_shift := lf_block_shift f;
  lf_needs_flushing := lf_needs_flushing f; lf_block_magic0 := lf_block_magic0 f; lf_block_magic1 := lf_block_magic1 f;
  lf_block_generation := lf_block_generation f; lf_block_ptr := lf_block_ptr f; lf_data_ptr := lf_data_ptr f |}.
Definition lf_set_position (f : lfile) (gen ptr : Z) : lfile := {|
  lf_block := lf_block f; lf_block_alt := lf_block_alt f; lf_sector_off := lf_sector_off f; lf_size := lf_size f;
  lf_header_blocks := lf_header_blocks f; lf_data_blocks := lf_data_blocks f; lf_block_shift := lf_block_shift f;
  lf_needs_flushing := lf_needs_flushing f; lf_block_magic0 := lf_block_magic0 f; lf_block_magic1 := lf_block_magic1 f;
  lf_block_generation := gen; lf_block_ptr := ptr; lf_data_ptr := lf_data_ptr f |}.
Definition lf_set_flush (f : lfile) (needs data_ptr : Z) : lfile := {|
  lf_block := lf_block f; lf_block_alt := lf_block_alt f; lf_sector_off := lf_sector_off f; lf_size := lf_size f;
  lf_header_blocks := lf_header_blocks f; lf_data_blocks := lf_data_blocks f; lf_block_shift := lf_block_shift f;
  lf_needs_flushing := needs; lf_block_magic0 := lf_block_magic0 f; lf_block_magic1 := lf_block_magic1 f;
  lf_block_generation := lf_block_generation f; lf_block_ptr := lf_block_ptr f; lf_data_ptr := data_ptr |}.

(** Conversion to [int64_t]. *)
Definition s64 (x : Z) : Z := (x + 2 ^ 63) mod 2 ^ 64 - 2 ^ 63.

Section Lstore.
Context {D : Type} `{Card D}.

(** ** The card in the panic handler *)

(** [spi_bb_byte] of [inc/interfaces/jd_hw.h]. *)
Definition spi_bb_byte (c : D) : Z * D := let '(b, c) := spi_bb_rx c 1 in (get8 b 0, c).

Fixpoint resp_loop (max : nat) (c : D) : Z * D :=
  match max with
  | O => (-1, c)
  | S max => let '(r, c) := spi_bb_byte c in if negb (r =? 0xff) then (r, c) else resp_loop max c
  end.
Definition sd_get_resp (c : D) : Z * D := resp_loop 32 c.

Definition sd_send_cmd (c : D) (cmdid arg : Z) : Z * D :=
  let cmd := [u8 (0x40 + cmdid); u8 (Z.shiftr arg 24); u8 (Z.shiftr arg 16); u8 (Z.shiftr arg 8); u8 arg] in
  sd_get_resp (spi_bb_tx c (cmd ++ [jd_sd_crc7 cmd])).

Fixpoint data_loop (max : nat) (c : D) (size : Z) : Z * list Z * D :=
  match max with
  | O => (-1, [], c)
  | S max =>
      let '(b, c) := spi_bb_byte c in
      if b =? 0xfe then
        let '(dst, c) := spi_bb_rx c size in
        let '(crc, c) := spi_bb_rx c 2 in
        (if get16 crc 0 =? jd_sd_crc16 dst then 0 else -2, dst, c)
      else data_loop max c size
  end.
Definition sd_read_data (c : D) (size : Z) : Z * list Z * D := data_loop 128 c size.

Definition sd_write_data (c : D) (data : list Z) : Z * D :=
  let c := spi_bb_tx c [0xff; 0xff; 0xff; 0xff; 0xfe] in
  let c := spi_bb_tx c data in
  let c := spi_bb_tx c (le_bytes 2 (jd_sd_crc16 data)) in
  sd_get_resp c.

Definition cs_low (c : D) : D := spi_bb_set_cs c 0.
Definition cs_high (c : D) : D := spi_bb_set_cs c 1.

Definition sd_check (c : D) : Z * D :=
  let c := cs_low c in
  let '(r, c) := sd_send_cmd c 9 0 in
  let '(err, c) := (if r =? 0 then let '(r, _, c) := sd_read_data c 16 in (if r =? 0 then 0 else -1, c) else (-1, c)) in
  (err, cs_high c).

Fixpoint busy_loop (max : nat) (c : D) : Z * D :=
  match max with
  | O => (-1001, c)
  | S max => let '(b, c) := spi_bb_byte c in if b =? 0xff then (0, c) else busy_loop max c
  end.
Definition sd_wait_busy (c : D) : Z * D := busy_loop (Z.to_nat 10000) c.

Definition sd_write_sector (c : D) (addr : Z) (blk : list Z) : Z * D :=
  let c := cs_low c in
  let '(r, c) := sd_send_cmd c 24 addr in
  let '(err, c) :=
    (if r =? 0 then
       let '(r, c) := sd_write_data c (take 512 blk) in
       if negb (r =? 0xe5) then (- r, c) else sd_wait_busy c
     else (-1000, c)) in
  (err, cs_high c).

(** ** Sectors and blocks *)

Definition read_sectors (c : D) (mode : Z) (f : lfile) (sector_addr num_sectors : Z) : outcome (list Z * D) :=
  JD_ASSERT mode =? 0 ;;
  let '(r, dst, c) := ff_disk_read c (u32 (lf_sector_off f + sector_addr)) num_sectors in
  JD_ASSERT r =? 0 ;;
  Ret (dst, c).

(** The loop in panic mode 1; the result has the new mode. *)
Fixpoint sd_write_loop (n : nat) (c : D) (mode : Z) (f : lfile) (sector_addr : Z) (src : list Z) : Z * D :=
  match n with
  | O => (mode, c)
  | S n =>
      let '(r, c) := sd_write_sector c (u32 (lf_sector_off f + sector_addr)) src in
      if negb (r =? 0) then (3, c) else sd_write_loop n c mode f (sector_addr + 1) (drop 512 src)
  end.

Definition write_sectors (c : D) (mode : Z) (f : lfile) (sector_addr : Z) (src : list Z) (num_sectors : Z)
    : outcome (Z * D) :=
  if mode =? 1 then Ret (sd_write_loop (Z.to_nat num_sectors) c mode f sector_addr src)
  else if negb (mode =? 0) then Ret (mode, c)
  else
    let '(r, c) := ff_disk_write c src (u32 (lf_sector_off f + sector_addr)) num_sectors in
    JD_ASSERT r =? 0 ;;
    Ret (mode, c).

(** The main header: offsets of its fields. *)
Definition mh_magic0 (hd : list Z) : Z := get32 hd 0.
Definition mh_magic1 (hd : list Z) : Z := get32 hd 4.
Definition mh_version (hd : list Z) : Z := get32 hd 8.
Definition mh_sector_size (hd : list Z) : Z := get32 hd 12.
Definition mh_sectors_per_block (hd : list Z) : Z := get32 hd 16.
Definition mh_header_blocks (hd : list Z) : Z := get32 hd 20.
Definition mh_num_blocks (hd : list Z) : Z := get32 hd 24.
Definition mh_num_rewrites (hd : list Z) : Z := get32 hd 28.
Definition mh_block_magic0 (hd : list Z) : Z := get32 hd 32.
Definition mh_block_magic1 (hd : list Z) : Z := get32 hd 36.

(** [while ((1U << sh) < hd->sectors_per_block) sh++;] - above [2 ^ 31] no
    32-bit power of two is big enough. *)
Fixpoint shift_loop (fuel : nat) (sh spb : Z) : outcome Z :=
  match fuel with
  | O => OutOfFuel
  | S fuel => if u32 (Z.shiftl 1 sh) <? spb then shift_loop fuel (sh + 1) spb else Ret sh
  end.

(** [None] for a header that is not valid. *)
Definition validate_header (f : lfile) (hd : list Z) : outcome (option lfile) :=
  if (mh_magic0 hd =? JD_LSTORE_MAGIC0) && (mh_magic1 hd =? JD_LSTORE_MAGIC1) then
    if negb (mh_version hd =? JD_LSTORE_VERSION) then Ret None
    else if negb (mh_sector_size hd =? SECTOR_SIZE) then Ret None
    else if u32 (mh_sectors_per_block hd * mh_num_blocks hd) >? lf_size f / SECTOR_SIZE then Ret None
    else
      sh ← shift_loop 40 0 (mh_sectors_per_block hd);
      if (mh_sectors_per_block hd >? 8) || negb (u32 (Z.shiftl 1 sh) =? mh_sectors_per_block hd) then Ret None
      else Ret (Some (lf_set_shift f (u8 (sh + SECTOR_SHIFT))))
  else Ret None.

Definition block_size (f : lfile) : Z := Z.shiftl 1 (lf_block_shift f).
Definition block_data_size (f : lfile) : Z := block_size f - JD_LSTORE_BLOCK_OVERHEAD.

(** Fields of a block and its footer. *)
Definition bl_magic0 (b : list Z) : Z := get32 b 0.
Definition bl_generation (b : list Z) : Z := get32 b 4.
Definition bl_timestamp (b : list Z) : Z := get64 b 8.
Definition ft_magic1 (f : lfile) (b : list Z) : Z := get32 b (block_size f - sizeof_block_footer).
Definition ft_crc32 (f : lfile) (b : list Z) : Z := get32 b (block_size f - 4).

Definition block_valid (f : lfile) (b : list Z) : bool :=
  if (bl_magic0 b =? lf_block_magic0 f) && (ft_magic1 f b =? lf_block_magic1 f)
  then jd_crc32 (mread b 0 (block_size f - 4)) =? ft_crc32 f b
  else false.

(** The result is 0 or -1; the block is in [f->block]. *)
Definition read_block (c : D) (mode : Z) (f : lfile) (idx : Z) : outcome (Z * lfile * D) :=
  let sh := lf_block_shift f - SECTOR_SHIFT in
  JD_ASSERT idx <? lf_data_blocks f ;;
  '(b, c) ← read_sectors c mode f (u32 (Z.shiftl (lf_header_blocks f + idx) sh)) (Z.shiftl 1 sh);
  if negb (block_valid f b)
  then Ret (-1, lf_set_blocks f (put64 (put32 (put32 b 0 0) 4 0) 8 0) (lf_block_alt f), c)
  else Ret (0, lf_set_blocks f b (lf_block_alt f), c).

Definition write_block (c : D) (mode : Z) (f : lfile) (idx : Z) : outcome (Z * D) :=
  let sh := lf_block_shift f - SECTOR_SHIFT in
  JD_ASSERT idx <? lf_data_blocks f ;;
  write_sectors c mode f (u32 (Z.shiftl (lf_header_blocks f + idx) sh)) (lf_block_alt f) (Z.shiftl 1 sh).

Definition block_lt (a b : list Z) : bool :=
  (bl_generation a <? bl_generation b) ||
  ((bl_generation a =? bl_generation b) && (bl_timestamp a <? bl_timestamp b)).

(** [while (l < r) { ... }] *)
Fixpoint boundry_loop (fuel : nat) (c : D) (mode : Z) (f : lfile) (start_hd : list Z) (l r : Z) : outcome (Z * lfile * D) :=
  match fuel with
  | O => OutOfFuel
  | S fuel =>
      if l <? r then
        let m := (l + r) / 2 + 1 in
        '(_, f, c) ← read_block c mode f m;
        if block_lt start_hd (lf_block f) then boundry_loop fuel c mode f start_hd m r
        else boundry_loop fuel c mode f start_hd l (m - 1)
      else Ret (l, f, c)
  end.

Definition find_boundry (c : D) (mode : Z) (f : lfile) : outcome (lfile * D) :=
  let r := s32 (lf_data_blocks f - 1) in
  '(_, f, c) ← read_block c mode f 0;
  let start_hd := lf_block f in
  if bl_magic0 start_hd =? 0 then Ret (lf_set_position f 1 0, c)
  else
    '(l, f, c) ← boundry_loop 33 c mode f start_hd 0 r;
    '(_, f, c) ← read_block c mode f l;
    let gen := u32 (bl_generation (lf_block f) + 1) in
    JD_ASSERT gen <? 0xffffffff ;;
    Ret (lf_set_position f gen (if l + 1 =? s32 (lf_block_ptr f) then 0 else l + 1), c).

(** ** Mounting *)

(** [jd_random()] until the value is neither 0 nor [0xffffffff]; the value is
    the new seed. *)
Fixpoint random_magic (fuel : nat) (seed : Z) : outcome Z :=
  match fuel with
  | O => OutOfFuel
  | S fuel =>
      let r := jd_random seed in
      if negb (r =? 0) && negb (u32 (r + 1) =? 0) then Ret r else random_magic fuel r
  end.

(** [dst] is the buffer, [src] the characters of the string. *)
Definition strcpy_n (dst src : list Z) : list Z :=
  let sz := zlen dst in
  if zlen src >=? sz - 1 then mwrite dst 0 (take (Z.to_nat (sz - 1)) src) else mwrite dst 0 (src ++ [0]).

(** [jd_lstore_device_info_t] *)
Definition sizeof_device_info : Z := 136.
Definition fill_devinfo (device_id : Z) (class_name fw_version : list Z) : list Z :=
  le_bytes 8 device_id ++ strcpy_n (replicate 64 0) class_name ++ strcpy_n (replicate 32 0) fw_version ++ replicate 32 0.

(** The header of a new file; [purpose] is at 200. *)
Definition new_header (f : lfile) (bl_shift m0 m1 : Z) (devinfo name : list Z) : list Z :=
  let words := [JD_LSTORE_MAGIC0; JD_LSTORE_MAGIC1; JD_LSTORE_VERSION; SECTOR_SIZE; Z.shiftl 1 bl_shift; 1;
                Z.shiftr (lf_size f) (bl_shift + SECTOR_SHIFT); 0; m0; m1] in
  let hd := flat_map (le_bytes 4) words ++ replicate 24 0 ++ devinfo ++ strcpy_n (replicate 32 0) name in
  hd ++ replicate (Z.to_nat (SECTOR_SIZE - zlen hd)) 0.

(** The header of the file, written when it is not valid. *)
Definition mount_header (c : D) (mode seed : Z) (f : lfile) (devinfo name : list Z) (bl_shift : Z)
    : outcome (list Z * lfile * D * Z) :=
  '(hd, c) ← read_sectors c mode f 0 1;
  v ← validate_header f hd;
  match v with
  | Some f => Ret (hd, f, c, seed)
  | None =>
      let f := lf_set_shift f (bl_shift + SECTOR_SHIFT) in
      m0 ← random_magic 3 seed;
      m1 ← random_magic 3 m0;
      let hd := new_header f bl_shift m0 m1 devinfo name in
      '(_, c) ← write_sectors c mode f 0 hd 1;
      v ← validate_header f hd;
      match v with
      | Some f => Ret (hd, f, c, m1)
      | None => Panic
      end
  end.

(** A block ready for writing: the magic numbers, and no data. *)
Definition empty_block (f : lfile) : list Z :=
  put32 (put32 (replicate (Z.to_nat (block_size f)) 0) 0 (lf_block_magic0 f))
    (block_size f - sizeof_block_footer) (lf_block_magic1 f).

(** The file, the card and the seed. *)
Definition mount_log (c : D) (mode seed : Z) (f : lfile) (devinfo name : list Z) (bl_shift : Z)
    : outcome (lfile * D * Z) :=
  '(hd, f, c, seed) ← mount_header c mode seed f devinfo name bl_shift;
  let f := lf_set_geometry f (mh_header_blocks hd) (u32 (mh_num_blocks hd - mh_header_blocks hd))
             (mh_block_magic0 hd) (mh_block_magic1 hd) in
  let f := lf_set_blocks f (replicate (Z.to_nat (block_size f)) 0) (lf_block_alt f) in
  '(f, c) ← find_boundry c mode f;
  Ret (lf_set_blocks f (empty_block f) (empty_block f), c, seed).

(** ** Flushing *)

Definition request_flush (f : lfile) : outcome (Z * lfile) :=
  JD_ASSERT negb (lf_data_ptr f =? 0) ;;
  if negb (lf_needs_flushing f =? 0) then Ret (-1, f)
  else Ret (0, lf_set_flush (lf_set_blocks f (lf_block_alt f) (lf_block f)) 1 0).

(** [hd->num_rewrites++] in the header on the card. *)
Definition bump_rewrites (c : D) (mode : Z) (f : lfile) : outcome (Z * D) :=
  '(hd, c) ← read_sectors c mode f 0 1;
  write_sectors c mode f 0 (put32 hd 28 (u32 (mh_num_rewrites hd + 1))) 1.

Definition flush_to_disk_core (c : D) (mode : Z) (f : lfile) : outcome (lfile * Z * D) :=
  let alt := put32 (lf_block_alt f) (block_size f - 4) (jd_crc32 (mread (lf_block_alt f) 0 (block_size f - 4))) in
  let f := lf_set_blocks f (lf_block f) alt in
  '(mode, c) ← write_block c mode f (lf_block_ptr f);
  let ptr := u32 (lf_block_ptr f + 1) in
  let alt := mwrite alt sizeof_block_header (replicate (Z.to_nat (block_data_size f)) 0) in
  let f := lf_set_position (lf_set_blocks f (lf_block f) alt) (lf_block_generation f) ptr in
  '(f, mode, c) ←
    (if ptr >=? lf_data_blocks f then
       '(mode, c) ← (if mode =? 0 then bump_rewrites c mode f else Ret (mode, c));
       Ret (lf_set_position f (lf_block_generation f) 0, mode, c)
     else Ret (f, mode, c));
  Ret (lf_set_flush f 0 (lf_data_ptr f), mode, c).

(** The part of [flush_to_disk] with interrupts off: whether the block is to
    be written now. *)
Definition flush_begin (f : lfile) : outcome (bool * lfile) :=
  f ← (if negb (lf_data_ptr f =? 0) && (lf_needs_flushing f =? 0) then '(_, f) ← request_flush f; Ret f else Ret f);
  if negb (lf_needs_flushing f =? 0) then
    JD_ASSERT lf_needs_flushing f =? 1 ;;
    Ret (true, lf_set_flush f 2 (lf_data_ptr f))
  else Ret (false, f).

(** [irq] is [target_in_irq()]. *)
Definition flush_to_disk (irq : bool) (c : D) (mode : Z) (f : lfile) : outcome (lfile * Z * D) :=
  JD_ASSERT negb irq ;;
  '(needs, f) ← flush_begin f;
  if negb needs then Ret (f, mode, c) else flush_to_disk_core c mode f.

Definition set_log (st : lstore D) (i : nat) (f : lfile) (mode : Z) (c : D) : lstore D := {|
  ls_card := c; ls_flush_timer := ls_flush_timer st; ls_panic_mode := mode; ls_panic_char_ptr := ls_panic_char_ptr st;
  ls_panic_max_char_ptr := ls_panic_max_char_ptr st; ls_logs := <[i := f]> (ls_logs st) |}.
Definition set_flush_timer (st : lstore D) (v : Z) : lstore D := {|
  ls_card := ls_card st; ls_flush_timer := v; ls_panic_mode := ls_panic_mode st; ls_panic_char_ptr := ls_panic_char_ptr st;
  ls_panic_max_char_ptr := ls_panic_max_char_ptr st; ls_logs := ls_logs st |}.
Definition set_panic (st : lstore D) (mode char_ptr max : Z) (c : D) : lstore D := {|
  ls_card := c; ls_flush_timer := ls_flush_timer st; ls_panic_mode := mode; ls_panic_char_ptr := char_ptr;
  ls_panic_max_char_ptr := max; ls_logs := ls_logs st |}.

Definition flush_log (irq : bool) (st : lstore D) (i : nat) : outcome (lstore D) :=
  match ls_logs st !! i with
  | None => Ret st
  | Some f =>
      '(f, mode, c) ← flush_to_disk irq (ls_card st) (ls_panic_mode st) f;
      Ret (set_log st i f mode c)
  end.

(** [!ctx->logs[0].block] *)
Definition has_log (st : lstore D) : bool :=
  match ls_logs st with f :: _ => match lf_block f with [] => false | _ => true end | [] => false end.

(** The loop over the files from [i]. *)
Fixpoint flush_logs_loop (n : nat) (i : nat) (irq force : bool) (st : lstore D) : outcome (lstore D) :=
  match n with
  | O => Ret st
  | S n =>
      st ← (if match ls_logs st !! i with Some f => negb (lf_needs_flushing f =? 0) | None => false end || force
            then flush_log irq st i else Ret st);
      flush_logs_loop n (S i) irq force st
  end.

Definition jd_lstore_process (now_ms : Z) (irq : bool) (ctx : option (lstore D)) : outcome (option (lstore D)) :=
  match ctx with
  | None => Ret None
  | Some st =>
      if negb (has_log st) then Ret (Some st)
      else
        let '(force, timer) := jd_should_sample_ms now_ms (ls_flush_timer st) (JD_LSTORE_FLUSH_SECONDS * 1000) in
        st ← flush_logs_loop (Z.to_nat JD_LSTORE_NUM_FILES) 0 irq force (set_flush_timer st timer);
        Ret (Some st)
  end.

Definition jd_lstore_force_flush (irq : bool) (ctx : option (lstore D)) : outcome (option (lstore D)) :=
  match ctx with
  | None => Ret None
  | Some st =>
      if negb (has_log st) then Ret (Some st)
      else
        st ← flush_logs_loop (Z.to_nat JD_LSTORE_NUM_FILES) 0 irq true st;
        st ← flush_logs_loop (Z.to_nat JD_LSTORE_NUM_FILES) 0 irq true st;
        Ret (Some st)
  end.

(** ** Appending *)

(** The offset in the block of the next entry: [block_curr_ptr]. *)
Definition block_curr_ptr (f : lfile) : Z := sizeof_block_header + lf_data_ptr f.

(** The header of an entry. *)
Definition entry_header (type size tdelta : Z) : list Z := [u8 type; u8 size] ++ le_bytes 2 tdelta.

(** The loop of [jd_lstore_append]; the second turn has an empty block. *)
Fixpoint append_loop (fuel : nat) (now_ms_long : Z) (f : lfile) (type : Z) (data : list Z) : outcome (Z * lfile) :=
  match fuel with
  | O => OutOfFuel
  | S fuel =>
      let f := if lf_data_ptr f =? 0 then
                 lf_set_blocks f (put32 (put64 (lf_block f) 8 now_ms_long) 4 (lf_block_generation f)) (lf_block_alt f)
               else f in
      let delta := s64 (now_ms_long - bl_timestamp (lf_block f)) in
      let flush (f : lfile) :=
        '(res, f) ← request_flush f;
        if negb (res =? 0) then Ret (res, f) else append_loop fuel now_ms_long f type data in
      if delta <? 0 then flush (lf_set_position f (u32 (lf_block_generation f + 1)) (lf_block_ptr f))
      else
        let new_data_ptr := u32 (lf_data_ptr f + JD_LSTORE_ENTRY_HEADER_SIZE + zlen data) in
        if (delta >? 0xffff) || (new_data_ptr >? block_data_size f) then flush f
        else
          let b := mwrite (lf_block f) (block_curr_ptr f) (entry_header type (zlen data) delta) in
          let b := mwrite b (block_curr_ptr f + JD_LSTORE_ENTRY_HEADER_SIZE) data in
          Ret (0, lf_set_flush (lf_set_blocks f b (lf_block_alt f)) (lf_needs_flushing f) new_data_ptr)
  end.

(** The checks on [ent] and the loop. *)
Definition append_entry (now_ms_long : Z) (f : lfile) (type : Z) (data : list Z) : outcome (Z * lfile) :=
  JD_ASSERT u8 type =? type ;;
  JD_ASSERT u8 (zlen data) =? zlen data ;;
  append_loop 2 now_ms_long f type data.

Definition jd_lstore_append (now_ms_long : Z) (ctx : option (lstore D)) (logidx type : Z) (data : list Z)
    : outcome (Z * option (lstore D)) :=
  JD_ASSERT logidx <? JD_LSTORE_NUM_FILES ;;
  match ctx with
  | None => Ret (-10, None)
  | Some st =>
      match ls_logs st !! Z.to_nat logidx with
      | None => Ret (-10, Some st)
      | Some f =>
          if (match lf_block f with [] => true | _ => false end) then Ret (-10, Some st)
          else
            '(res, f) ← append_entry now_ms_long f type data;
            Ret (res, Some (set_log st (Z.to_nat logidx) f (ls_panic_mode st) (ls_card st)))
      end
  end.

(** [while (datasize > 0xff) { ... }] and the rest; [n] bounds the pieces. *)
Fixpoint frag_loop (n : nat) (now_ms_long : Z) (ctx : option (lstore D)) (logidx type : Z) (data : list Z)
    : outcome (Z * option (lstore D)) :=
  match n with
  | O => OutOfFuel
  | S n =>
      if zlen data >? 0xff then
        '(r, ctx) ← jd_lstore_append now_ms_long ctx logidx type (take 255 data);
        if negb (r =? 0) then Ret (r, ctx) else frag_loop n now_ms_long ctx logidx type (drop 255 data)
      else jd_lstore_append now_ms_long ctx logidx type data
  end.
Definition jd_lstore_append_frag (now_ms_long : Z) (ctx : option (lstore D)) (logidx type : Z) (data : list Z)
    : outcome (Z * option (lstore D)) :=
  frag_loop (S (length data)) now_ms_long ctx logidx type data.

Definition jd_lstore_is_enabled (ctx : option (lstore D)) : bool :=
  match ctx with Some st => has_log st | None => false end.

(** ** Start-up *)

(** ["log_%d.jdl"] *)
Definition log_name (i : Z) : list Z := [108; 111; 103; 95; 48 + i; 46; 106; 100; 108].

Fixpoint create_loop (n : nat) (i : Z) (c : D) : outcome (list lfile * D) :=
  match n with
  | O => Ret ([], c)
  | S n =>
      let '(r, size, off, c) := jd_f_create c (log_name i) JD_LSTORE_FILE_SIZE in
      JD_ASSERT r =? 0 ;;
      '(fs, c) ← create_loop n (i + 1) c;
      Ret (lf_set_size lf0 size off :: fs, c)
  end.

(** ["packets and serial"] and ["data log"] *)
Definition purpose0 : list Z := [112; 97; 99; 107; 101; 116; 115; 32; 97; 110; 100; 32; 115; 101; 114; 105; 97; 108].
Definition purpose1 : list Z := [100; 97; 116; 97; 32; 108; 111; 103].

(** The results of the last appends are ignored. *)
Definition jd_lstore_init (now_ms_long seed : Z) (devinfo : list Z) (c : D) : outcome (option (lstore D) * Z) :=
  '(fs, c) ← create_loop (Z.to_nat JD_LSTORE_NUM_FILES) 0 c;
  '(f0, c, seed) ← mount_log c 0 seed (default lf0 (fs !! 0%nat)) devinfo purpose0 3;
  '(f1, c, seed) ← mount_log c 0 seed (default lf0 (fs !! 1%nat)) devinfo purpose1 0;
  let ctx := Some {| ls_card := c; ls_flush_timer := 0; ls_panic_mode := 0; ls_panic_char_ptr := 0;
                     ls_panic_max_char_ptr := 0; ls_logs := [f0; f1] |} in
  '(_, ctx) ← jd_lstore_append now_ms_long ctx 0 JD_LSTORE_TYPE_DEVINFO devinfo;
  '(_, ctx) ← jd_lstore_append now_ms_long ctx 1 JD_LSTORE_TYPE_DEVINFO devinfo;
  Ret (ctx, seed).

(** ** The panic handler *)

(** The flushes of [flush_to_disk_in_panic]: both blocks. *)
Definition flush_blocks_in_panic (c : D) (mode : Z) (f : lfile) : outcome (lfile * Z * D) :=
  '(f, mode, c) ← (if negb (lf_needs_flushing f =? 0) then flush_to_disk_core c mode f else Ret (f, mode, c));
  '(_, f) ← (if negb (lf_data_ptr f =? 0) && (lf_needs_flushing f =? 0) then request_flush f else Ret (0, f));
  if negb (lf_needs_flushing f =? 0) then flush_to_disk_core c mode f else Ret (f, mode, c).

(** [i] is the file; its new block gets the time and the generation. *)
Definition flush_to_disk_in_panic (now_ms_long : Z) (st : lstore D) (i : nat) : outcome (lstore D) :=
  match ls_logs st !! i with
  | None => Ret st
  | Some f =>
      '(f, mode, c) ← flush_blocks_in_panic (ls_card st) (ls_panic_mode st) f;
      let b := put32 (put64 (lf_block f) 8 now_ms_long) 4 (lf_block_generation f) in
      Ret (set_panic (set_log st i (lf_set_blocks f b (lf_block_alt f)) mode c) mode 0 0 c)
  end.

(** The end of the entry that is being written to. *)
Definition close_panic_entry (st : lstore D) (f : lfile) : lfile :=
  let b := mwrite (lf_block f) (block_curr_ptr f) (entry_header JD_LSTORE_TYPE_PANIC_LOG (ls_panic_char_ptr st) 0) in
  lf_set_flush (lf_set_blocks f b (lf_block_alt f)) (lf_needs_flushing f)
    (u32 (lf_data_ptr f + JD_LSTORE_ENTRY_HEADER_SIZE + ls_panic_char_ptr st)).

(** The part of [jd_lstore_panic_print_char] in panic mode 1. *)
Definition panic_put_char (now_ms_long : Z) (st : lstore D) (ch : Z) : outcome (lstore D) :=
  match ls_logs st !! 0%nat with
  | None => Ret st
  | Some f =>
      let is_endline := (ch =? 10) && (ls_panic_char_ptr st >? 0) in
      let needs_flush := ls_panic_char_ptr st >=? ls_panic_max_char_ptr st in
      st ←
        (if needs_flush || is_endline then
           let f := if ls_panic_max_char_ptr st >? 0 then close_panic_entry st f else f in
           let st := set_log st 0 f (ls_panic_mode st) (ls_card st) in
           let left := s32 (u32 (block_data_size f - lf_data_ptr f - JD_LSTORE_ENTRY_HEADER_SIZE - 8)) in
           let min_data_len := Z.shiftr (block_size f) 5 in
           '(left, st) ← (if left <? min_data_len then st ← flush_to_disk_in_panic now_ms_long st 0; Ret (0xff, st)
                          else Ret (left, st));
           Ret (set_panic st (ls_panic_mode st) 0 (if left >? 0xf0 then 0xf0 else u8 left) (ls_card st))
         else Ret st);
      match ls_logs st !! 0%nat with
      | None => Ret st
      | Some f =>
          if negb is_endline then
            let b := mwrite (lf_block f) (block_curr_ptr f + JD_LSTORE_ENTRY_HEADER_SIZE + ls_panic_char_ptr st) [u8 ch] in
            let st := set_log st 0 (lf_set_blocks f b (lf_block_alt f)) (ls_panic_mode st) (ls_card st) in
            Ret (set_panic st (ls_panic_mode st) (u8 (ls_panic_char_ptr st + 1)) (ls_panic_max_char_ptr st) (ls_card st))
          else Ret st
      end
  end.

(** The loop over the files; the call of [jd_lstore_panic_print_char] is in
    panic mode 1. *)
Definition panic_flush (now_ms_long : Z) (st : lstore D) : outcome (lstore D) :=
  if negb (ls_panic_mode st =? 1) then Ret st
  else
    st ← (if ls_panic_max_char_ptr st >? 0 then panic_put_char now_ms_long st 10 else Ret st);
    st ← flush_to_disk_in_panic now_ms_long st 0;
    flush_to_disk_in_panic now_ms_long st 1.

Definition jd_lstore_panic_flush (now_ms_long : Z) (ctx : option (lstore D)) : outcome (option (lstore D)) :=
  match ctx with
  | None => Ret None
  | Some st => st ← panic_flush now_ms_long st; Ret (Some st)
  end.

(** [while (busy_cycles-- > 0 && spi_bb_get_miso() == 0) { ... }]: whether the
    card became ready. *)
Fixpoint ready_loop (n : nat) (c : D) : bool * D :=
  match n with
  | O => (false, c)
  | S n =>
      let '(miso, c) := spi_bb_get_miso c in
      if miso =? 0 then let '(_, c) := spi_bb_byte c in ready_loop n c else (true, c)
  end.

(** The switch to the panic mode: 1 when the card answers, 2 otherwise. *)
Definition panic_init (now_ms_long : Z) (st : lstore D) : outcome (lstore D) :=
  let fail (c : D) := Ret (set_panic st 2 (ls_panic_char_ptr st) (ls_panic_max_char_ptr st) c) in
  if negb (has_log st) then fail (ls_card st)
  else
    let c := cs_low (cs_high (spi_bb_init (ls_card st))) in
    let '(ready, c) := ready_loop 100 c in
    let c := cs_high c in
    if negb ready then fail c
    else
      let '(r, c) := sd_check c in
      if negb (r =? 0) then fail c
      else panic_flush now_ms_long (set_panic st 1 (ls_panic_char_ptr st) (ls_panic_max_char_ptr st) c).

Definition jd_lstore_panic_print_char (now_ms_long : Z) (ctx : option (lstore D)) (ch : Z) : outcome (option (lstore D)) :=
  match ctx with
  | None => Ret None
  | Some st =>
      if (ls_panic_mode st >? 1) || (ch =? 13) then Ret (Some st)
      else
        st ← (if ls_panic_mode st =? 0 then panic_init now_ms_long st else Ret st);
        if negb (ls_panic_mode st =? 1) then Ret (Some st)
        else st ← panic_put_char now_ms_long st ch; Ret (Some st)
  end.

(** [s]: the characters of the string. *)
Fixpoint jd_lstore_panic_print_str (now_ms_long : Z) (ctx : option (lstore D)) (s : list Z) : outcome (option (lstore D)) :=
  match s with
  | [] => Ret ctx
  | ch :: s => ctx ← jd_lstore_panic_print_char now_ms_long ctx ch; jd_lstore_panic_print_str now_ms_long ctx s
  end.
End Lstore.
