(* ===== verification/LstoreLog.v ===== *)
(** * The log on the card is the log of the appends ([storage/lstore.c])

    Proofs about [Lstore.v]: what a block holds, that a log file keeps every
    entry that was taken, in order, that its end is found again at start-up,
    and that the panic handler does not fail itself. *)
From Stdlib Require Import Sorted.
From S2P Require Import Prelude Util Crc32 Lstore.

(** ** Blocks and their entries *)

(** An entry: the time it was appended at, its type and its data. *)
Definition log_entry : Type := Z * Z * list Z.
Definition enc_entry (ts : Z) (e : log_entry) : list Z :=
  let '(t, type, data) := e in entry_header type (zlen data) (t - ts) ++ data.
Definition enc (ts : Z) (es : list log_entry) : list Z := flat_map (enc_entry ts) es.
Definition log_entry_ok (ts : Z) (e : log_entry) : Prop :=
  let '(t, type, data) := e in 0 <= t - ts < 65536 /\ 0 < type < 256 /\ zlen data < 256 /\ Forall is_byte data.

(** What a reader of a block finds in its data: entries up to a type 0. *)
Fixpoint entries (n : nat) (ts : Z) (d : list Z) : list log_entry :=
  match n with
  | O => []
  | S n =>
      match d with
      | type :: size :: lo :: hi :: d =>
          if type =? 0 then []
          else (ts + (lo + 256 * hi), type, take (Z.to_nat size) d) :: entries n ts (drop (Z.to_nat size) d)
      | _ => []
      end
  end.
Definition block_entries (bs : Z) (b : list Z) : list log_entry :=
  let d := mread b sizeof_block_header (bs - JD_LSTORE_BLOCK_OVERHEAD) in entries (length d) (bl_timestamp b) d.

(** A block of [bs] bytes with the entries [es]. *)
Definition blk (bs m0 m1 gen ts : Z) (es : list log_entry) (crc : Z) : list Z :=
  le_bytes 4 m0 ++ le_bytes 4 gen ++ le_bytes 8 ts ++
  (enc ts es ++ replicate (Z.to_nat (bs - JD_LSTORE_BLOCK_OVERHEAD - zlen (enc ts es))) 0) ++
  le_bytes 4 m1 ++ le_bytes 4 crc.

Lemma enc_app ts es1 es2 : enc ts (es1 ++ es2) = enc ts es1 ++ enc ts es2.
Proof. apply flat_map_app. Qed.

Lemma zlen_enc_entry ts e : zlen (enc_entry ts e) = 4 + zlen e.2.
Proof. destruct e as [[t ty] d]. cbn [enc_entry snd]. unfold entry_header. rewrite !zlen_app, zlen_le_bytes. change (zlen [_; _]) with 2. lia. Qed.

Lemma enc_entry_bytes ts e : log_entry_ok ts e -> Forall is_byte (enc_entry ts e).
Proof.
  destruct e as [[t ty] d]. intros (_ & _ & _ & Hd). apply Forall_app. split; [|done]. unfold entry_header.
  apply Forall_app. split; [|apply le_bytes_is_byte]. repeat constructor; apply u8_range.
Qed.

Lemma enc_bytes ts es : Forall (log_entry_ok ts) es -> Forall is_byte (enc ts es).
Proof. induction 1 as [|e es He _ IH]; [constructor|]. apply Forall_app. split; [by apply enc_entry_bytes|done]. Qed.

Lemma entries_enc ts es k : Forall (log_entry_ok ts) es -> forall n, (length (enc ts es) <= n)%nat ->
  entries n ts (enc ts es ++ replicate k 0) = es.
Proof.
  induction 1 as [|e es He _ IH]; intros n Hn.
  - cbn [enc flat_map app]. destruct n; [done|]. destruct k as [|[|[|[|k]]]]; done.
  - pose proof (zlen_enc_entry ts e) as Hz. change (enc ts (e :: es)) with (enc_entry ts e ++ enc ts es) in *.
    rewrite length_app in Hn. destruct e as [[t ty] d]. destruct He as (Ht & Hty & Hd & _). unfold zlen in Hz. cbn [snd] in Hz.
    destruct n as [|n]; [lia|]. cbn [enc_entry]. unfold entry_header. cbn [le_bytes app entries].
    unfold zlen in Hd. rewrite (u8_small ty), (u8_small (zlen d)) by (unfold zlen; lia).
    rewrite (proj2 (Z.eqb_neq ty 0)) by lia. f_equal.
    + f_equal; [f_equal; word_lia|]. unfold zlen. rewrite Nat2Z.id, <- !app_assoc. by apply take_app_length.
    + unfold zlen. rewrite Nat2Z.id, <- !app_assoc, drop_app_length. apply IH. lia.
Qed.

Lemma mread_head (b c : list Z) n : n = zlen b -> mread (b ++ c) 0 n = b.
Proof. intros ->. by apply (mread_mid [] b c). Qed.
Lemma mwrite_head (b c b' : list Z) : zlen b = zlen b' -> mwrite (b ++ c) 0 b' = b' ++ c.
Proof. intros Hl. by apply (mwrite_mid [] b c b'). Qed.

Section Blk.
Context (bs m0 m1 : Z) (gen ts : Z) (es : list log_entry) (crc : Z).
Hypothesis (Hfit : zlen (enc ts es) <= bs - JD_LSTORE_BLOCK_OVERHEAD).
Abbreviation B := (blk bs m0 m1 gen ts es crc).

Lemma zlen_blk : zlen B = bs.
Proof.
  unfold blk. rewrite !zlen_app, !zlen_le_bytes, zlen_replicate.
  unfold JD_LSTORE_BLOCK_OVERHEAD, sizeof_block_header, sizeof_block_footer in *. pose proof (zlen_nonneg (enc ts es)). lia.
Qed.
Lemma blk_bytes : Forall (log_entry_ok ts) es -> Forall is_byte B.
Proof.
  intros He. unfold blk. repeat (apply Forall_app; split); try apply le_bytes_is_byte; [by apply enc_bytes|].
  apply Forall_replicate. unfold is_byte. lia.
Qed.
Lemma blk_magic0 : 0 <= m0 < 2 ^ 32 -> bl_magic0 B = m0.
Proof.
  intros Hm. unfold bl_magic0, get32, blk. rewrite mread_head by done. rewrite le_val_le_bytes. by apply Z.mod_small.
Qed.
Lemma blk_generation : 0 <= gen < 2 ^ 32 -> bl_generation B = gen.
Proof.
  intros Hm. unfold bl_generation, get32, blk. rewrite (mread_mid (le_bytes 4 m0) _ _) by done. rewrite le_val_le_bytes. by apply Z.mod_small.
Qed.
Lemma blk_timestamp : 0 <= ts < 2 ^ 64 -> bl_timestamp B = ts.
Proof.
  intros Hm. unfold bl_timestamp, get64, blk. rewrite (app_assoc (le_bytes 4 m0)), (mread_mid _ _ _) by done.
  rewrite le_val_le_bytes. by apply Z.mod_small.
Qed.
Lemma blk_magic1 : 0 <= m1 < 2 ^ 32 -> get32 B (bs - 8) = m1.
Proof.
  intros Hm. unfold get32, blk.
  set (d := enc ts es ++ _). rewrite !app_assoc. rewrite <- (app_assoc _ (le_bytes 4 m1)).
  rewrite (mread_mid _ _ _); [rewrite le_val_le_bytes; by apply Z.mod_small| |done].
  rewrite !zlen_app, !zlen_le_bytes. unfold d. rewrite zlen_app, zlen_replicate.
  unfold JD_LSTORE_BLOCK_OVERHEAD, sizeof_block_header, sizeof_block_footer in *. pose proof (zlen_nonneg (enc ts es)). lia.
Qed.
Lemma blk_entries : 0 <= ts < 2 ^ 64 -> Forall (log_entry_ok ts) es -> block_entries bs B = es.
Proof.
  intros Ht He. unfold block_entries. rewrite blk_timestamp by done. unfold blk at 1 2.
  rewrite !(app_assoc (le_bytes 4 m0)), !(app_assoc (_ ++ le_bytes 4 gen)).
  rewrite (mread_mid _ _ _) by (rewrite ?zlen_app, ?zlen_le_bytes, ?zlen_replicate;
    unfold JD_LSTORE_BLOCK_OVERHEAD, sizeof_block_header, sizeof_block_footer in *; pose proof (zlen_nonneg (enc ts es)); lia).
  apply entries_enc; [done|]. rewrite length_app. lia.
Qed.
(** The bytes under the checksum do not depend on it. *)
Lemma blk_checked crc' : mread B 0 (bs - 4) = mread (blk bs m0 m1 gen ts es crc') 0 (bs - 4).
Proof.
  assert (forall x, mread (blk bs m0 m1 gen ts es x) 0 (bs - 4) =
    le_bytes 4 m0 ++ le_bytes 4 gen ++ le_bytes 8 ts ++ (enc ts es ++ replicate (Z.to_nat (bs - JD_LSTORE_BLOCK_OVERHEAD - zlen (enc ts es))) 0) ++ le_bytes 4 m1)
    as E; [|by rewrite !E].
  intros x. unfold blk. set (d := enc ts es ++ _). rewrite !app_assoc.
  apply mread_head.
  rewrite !zlen_app, !zlen_le_bytes. unfold d. rewrite zlen_app, zlen_replicate.
  unfold JD_LSTORE_BLOCK_OVERHEAD, sizeof_block_header, sizeof_block_footer in *. pose proof (zlen_nonneg (enc ts es)). lia.
Qed.
Lemma blk_put_crc v : put32 B (bs - 4) v = blk bs m0 m1 gen ts es v.
Proof.
  unfold put32, blk. set (d := enc ts es ++ _). rewrite !app_assoc.
  match goal with |- mwrite (?a ++ ?b) _ _ = _ => rewrite <- (app_nil_r b); rewrite (mwrite_mid a b []) end;
    [by rewrite app_nil_r| |by rewrite !zlen_le_bytes].
  rewrite !zlen_app, !zlen_le_bytes. unfold d. rewrite zlen_app, zlen_replicate.
  unfold JD_LSTORE_BLOCK_OVERHEAD, sizeof_block_header, sizeof_block_footer in *. pose proof (zlen_nonneg (enc ts es)). lia.
Qed.
Lemma blk_crc : 0 <= crc < 2 ^ 32 -> get32 B (bs - 4) = crc.
Proof.
  intros Hm. unfold get32, blk. set (d := enc ts es ++ _). rewrite !app_assoc.
  match goal with |- le_val (mread (?a ++ ?b) _ _) = _ => rewrite <- (app_nil_r b); rewrite (mread_mid a b []) end;
    [rewrite le_val_le_bytes; by apply Z.mod_small| |done].
  rewrite !zlen_app, !zlen_le_bytes. unfold d. rewrite zlen_app, zlen_replicate.
  unfold JD_LSTORE_BLOCK_OVERHEAD, sizeof_block_header, sizeof_block_footer in *. pose proof (zlen_nonneg (enc ts es)). lia.
Qed.
(** Clearing the data. *)
Lemma blk_clear : mwrite B sizeof_block_header (replicate (Z.to_nat (bs - JD_LSTORE_BLOCK_OVERHEAD)) 0) = blk bs m0 m1 gen ts [] crc.
Proof.
  unfold blk. rewrite !(app_assoc (le_bytes 4 m0)), !(app_assoc (_ ++ le_bytes 4 gen)).
  rewrite (mwrite_mid _ _ _); [by rewrite Z.sub_0_r|done|].
  rewrite zlen_app, !zlen_replicate. pose proof (zlen_nonneg (enc ts es)). lia.
Qed.
(** One more entry. *)
Lemma blk_append e : zlen (enc ts es) + 4 + zlen e.2 <= bs - JD_LSTORE_BLOCK_OVERHEAD ->
  mwrite B (sizeof_block_header + zlen (enc ts es)) (enc_entry ts e) = blk bs m0 m1 gen ts (es ++ [e]) crc.
Proof.
  intros Hr. pose proof (zlen_enc_entry ts e) as Hz. unfold blk. rewrite enc_app. change (enc ts [e]) with (enc_entry ts e ++ []).
  rewrite app_nil_r, (zlen_app (enc ts es)), Hz.
  replace (Z.to_nat (bs - JD_LSTORE_BLOCK_OVERHEAD - zlen (enc ts es))) with
    (Z.to_nat (4 + zlen e.2) + Z.to_nat (bs - JD_LSTORE_BLOCK_OVERHEAD - (zlen (enc ts es) + (4 + zlen e.2))))%nat by (pose proof (zlen_nonneg e.2); lia).
  rewrite replicate_add, <- !app_assoc.
  rewrite !(app_assoc (le_bytes 4 m0)), !(app_assoc (_ ++ le_bytes 4 gen)), !(app_assoc (_ ++ le_bytes 8 ts)).
  apply mwrite_mid; [by rewrite !zlen_app, !zlen_le_bytes|]. rewrite zlen_replicate, Hz. pose proof (zlen_nonneg e.2). lia.
Qed.
End Blk.

(** Starting a block. *)
Lemma blk_start bs m0 m1 gen ts crc gen' ts' :
  put32 (put64 (blk bs m0 m1 gen ts [] crc) 8 ts') 4 gen' = blk bs m0 m1 gen' ts' [] crc.
Proof.
  unfold put32, put64, blk. rewrite (app_assoc (le_bytes 4 m0)), (mwrite_mid (le_bytes 4 m0 ++ le_bytes 4 gen)) by done.
  rewrite <- app_assoc, (mwrite_mid (le_bytes 4 m0)) by done. done.
Qed.

(** ** A log file as a machine on lists of entries *)

(** A block: its generation, its time and its entries. *)
Definition lblock : Type := Z * Z * list log_entry.
Definition lb_gen (b : lblock) : Z := b.1.1.
Definition lb_ts (b : lblock) : Z := b.1.2.
Definition lb_entries (b : lblock) : list log_entry := b.2.
Definition lb_used (b : lblock) : Z := zlen (enc (lb_ts b) (lb_entries b)).

(** The place of a file on the card and what its header says. *)
Record geometry := {
  g_off : Z; g_fsize : Z; g_hb : Z; g_db : Z; g_shift : Z; g_m0 : Z; g_m1 : Z
}.
Definition g_bs (g : geometry) : Z := Z.shiftl 1 (g_shift g).
Definition g_room (g : geometry) : Z := g_bs g - JD_LSTORE_BLOCK_OVERHEAD.
Definition g_spb (g : geometry) : Z := Z.shiftl 1 (g_shift g - SECTOR_SHIFT).

Record geo_ok (g : geometry) : Prop := {
  go_shift : 9 <= g_shift g <= 12;
  go_off : 0 <= g_off g;
  go_hb : 1 <= g_hb g;
  go_db : 1 <= g_db g < 2 ^ 31;
  go_end : g_off g + (g_hb g + g_db g) * g_spb g < 2 ^ 32;
  go_m0 : 0 < g_m0 g < 2 ^ 32;
  go_m1 : 0 <= g_m1 g < 2 ^ 32;
}.

(** The abstract state: the block being filled and the one being written. *)
Record alog := {
  al_gen : Z; al_ptr : Z; al_needs : Z; al_cur : lblock; al_alt : lblock; al_crc : Z; al_acrc : Z
}.

Definition img (g : geometry) (b : lblock) (crc : Z) : list Z :=
  blk (g_bs g) (g_m0 g) (g_m1 g) (lb_gen b) (lb_ts b) (lb_entries b) crc.

(** The file that an abstract state stands for. *)
Definition conc (g : geometry) (a : alog) : lfile := {|
  lf_block := img g (al_cur a) (al_crc a); lf_block_alt := img g (al_alt a) (al_acrc a);
  lf_sector_off := g_off g; lf_size := g_fsize g; lf_header_blocks := g_hb g; lf_data_blocks := g_db g;
  lf_block_shift := g_shift g; lf_needs_flushing := al_needs a; lf_block_magic0 := g_m0 g; lf_block_magic1 := g_m1 g;
  lf_block_generation := al_gen a; lf_block_ptr := al_ptr a; lf_data_ptr := lb_used (al_cur a) |}.

Definition lb_ok (g : geometry) (b : lblock) : Prop :=
  0 <= lb_gen b < 2 ^ 32 /\ 0 <= lb_ts b < 2 ^ 62 /\ Forall (log_entry_ok (lb_ts b)) (lb_entries b) /\ lb_used b <= g_room g.

Record al_ok (g : geometry) (a : alog) : Prop := {
  ao_gen : 0 <= al_gen a < 2 ^ 32;
  ao_ptr : 0 <= al_ptr a < g_db g;
  ao_cur : lb_ok g (al_cur a);
  ao_alt : lb_ok g (al_alt a);
  ao_needs : al_needs a = 0 \/ al_needs a = 1 \/ al_needs a = 2;
  ao_alt_empty : al_needs a = 0 -> lb_entries (al_alt a) = [];
}.

Definition lb_add (b : lblock) (e : log_entry) : lblock := (b.1, b.2 ++ [e]).

(** What an append does: it goes to the block being filled; when the block is
    full or too old it is left for writing and a new one begun, unless another
    one is still waiting. *)
Definition al_append (g : geometry) (t type : Z) (data : list Z) (a : alog) : Z * alog :=
  let cur := match lb_entries (al_cur a) with [] => (al_gen a, t, []) | _ => al_cur a end in
  if (t - lb_ts cur <=? 65535) && (lb_used cur + 4 + zlen data <=? g_room g) then
    (0, {| al_gen := al_gen a; al_ptr := al_ptr a; al_needs := al_needs a; al_cur := lb_add cur (t, type, data);
           al_alt := al_alt a; al_crc := al_crc a; al_acrc := al_acrc a |})
  else if negb (al_needs a =? 0) then (-1, a)
  else (0, {| al_gen := al_gen a; al_ptr := al_ptr a; al_needs := 1; al_cur := (al_gen a, t, [(t, type, data)]);
              al_alt := cur; al_crc := al_acrc a; al_acrc := al_crc a |}).

(** The start of a flush: whether the second block is to be written. *)
Definition al_begin (a : alog) : bool * alog :=
  let swap := match lb_entries (al_cur a) with [] => false | _ => al_needs a =? 0 end in
  let a := if swap then {| al_gen := al_gen a; al_ptr := al_ptr a; al_needs := 1; al_cur := al_alt a; al_alt := al_cur a;
                           al_crc := al_acrc a; al_acrc := al_crc a |} else a in
  if al_needs a =? 0 then (false, a)
  else (true, {| al_gen := al_gen a; al_ptr := al_ptr a; al_needs := 2; al_cur := al_cur a; al_alt := al_alt a;
                 al_crc := al_crc a; al_acrc := al_acrc a |}).

(** The block that is written, and the state after. *)
Definition al_stored (g : geometry) (a : alog) : list Z :=
  img g (al_alt a) (jd_crc32 (mread (img g (al_alt a) 0) 0 (g_bs g - 4))).
Definition al_written (g : geometry) (a : alog) : alog := {|
  al_gen := al_gen a; al_ptr := if al_ptr a + 1 >=? g_db g then 0 else al_ptr a + 1; al_needs := 0; al_cur := al_cur a;
  al_alt := (lb_gen (al_alt a), lb_ts (al_alt a), []);
  al_crc := al_crc a; al_acrc := jd_crc32 (mread (img g (al_alt a) 0) 0 (g_bs g - 4)) |}.

Section Machine.
Context (g : geometry) (Hg : geo_ok g).

Lemma g_shift_cases : g_shift g = 9 \/ g_shift g = 10 \/ g_shift g = 11 \/ g_shift g = 12.
Proof. destruct Hg as [Hs _ _ _ _ _ _]. lia. Qed.

Lemma g_sizes : 512 <= g_bs g <= 4096 /\ g_bs g = 512 * g_spb g /\ 1 <= g_spb g <= 8.
Proof. unfold g_bs, g_spb, SECTOR_SHIFT. destruct g_shift_cases as [->|[->|[->| ->]]]; split_and!; vm_compute; (done || discriminate). Qed.

Lemma zlen_img b crc : lb_used b <= g_room g -> zlen (img g b crc) = g_bs g.
Proof. intros Hu. by apply zlen_blk. Qed.

Lemma img_ts b crc : lb_ok g b -> bl_timestamp (img g b crc) = lb_ts b.
Proof. intros (_ & Ht & _). apply blk_timestamp. lia. Qed.

Lemma used_nil b : lb_ok g b -> lb_used b = 0 <-> lb_entries b = [].
Proof.
  intros _. unfold lb_used. destruct (lb_entries b) as [|e es]; [done|]. split; [|done].
  change (enc (lb_ts b) (e :: es)) with (enc_entry (lb_ts b) e ++ enc (lb_ts b) es). rewrite zlen_app, zlen_enc_entry.
  pose proof (zlen_nonneg e.2). pose proof (zlen_nonneg (enc (lb_ts b) es)). lia.
Qed.

Lemma used_add b e : lb_used (lb_add b e) = lb_used b + 4 + zlen e.2.
Proof.
  destruct b as [gt es]. unfold lb_used, lb_add, lb_ts, lb_entries. cbn [fst snd]. rewrite enc_app, zlen_app.
  change (enc gt.2 [e]) with (enc_entry gt.2 e ++ []). rewrite app_nil_r, zlen_enc_entry. lia.
Qed.

Lemma lb_add_ok b t type data : lb_ok g b -> lb_ts b <= t <= lb_ts b + 65535 -> 0 < type < 256 -> zlen data < 256 ->
  Forall is_byte data -> lb_used b + 4 + zlen data <= g_room g -> lb_ok g (lb_add b (t, type, data)).
Proof.
  intros (H1 & H2 & H3 & H4) Ht Hty Hd Hb Hu. unfold lb_ok. rewrite used_add. destruct b as [gt es].
  unfold lb_add, lb_ts, lb_gen, lb_entries in *. cbn [fst snd] in *. split_and!; try lia.
  apply Forall_app. split; [done|]. constructor; [|constructor]. unfold log_entry_ok. split_and!; try done; lia.
Qed.

(** The write of an entry. *)
Lemma img_append b crc t type data : lb_ok g b -> lb_used b + 4 + zlen data <= g_room g ->
  mwrite (mwrite (img g b crc) (sizeof_block_header + lb_used b) (entry_header type (zlen data) (t - lb_ts b)))
    (sizeof_block_header + lb_used b + JD_LSTORE_ENTRY_HEADER_SIZE) data = img g (lb_add b (t, type, data)) crc.
Proof.
  intros (_ & _ & _ & Hu) Hr. pose proof (zlen_nonneg (enc (lb_ts b) (lb_entries b))). fold (lb_used b) in *.
  assert (zlen (entry_header type (zlen data) (t - lb_ts b)) = JD_LSTORE_ENTRY_HEADER_SIZE) as Hh
    by (unfold entry_header; rewrite zlen_app, zlen_le_bytes; done).
  rewrite <- Hh, mwrite_app.
  - unfold img, lb_used. change (_ ++ data) with (enc_entry (lb_ts b) (t, type, data)).
    rewrite blk_append; [by destruct b as [[??]?]|exact Hr].
  - unfold sizeof_block_header. lia.
  - rewrite Hh, zlen_img by done. pose proof (zlen_nonneg data).
    unfold g_room, JD_LSTORE_BLOCK_OVERHEAD, sizeof_block_header, sizeof_block_footer, JD_LSTORE_ENTRY_HEADER_SIZE in *. lia.
Qed.

Lemma s64_small x : - 2 ^ 63 <= x < 2 ^ 63 -> s64 x = x.
Proof. intros. unfold s64. rewrite Z.mod_small by lia. lia. Qed.

Lemma img_start b crc gen t : lb_entries b = [] -> put32 (put64 (img g b crc) 8 t) 4 gen = img g (gen, t, []) crc.
Proof. intros E. unfold img. rewrite E. unfold lb_gen, lb_ts, lb_entries. cbn [fst snd]. apply blk_start. Qed.

(** One turn of the loop of an append that fits. *)
Lemma append_fits fuel a t type data : al_ok g a -> 0 <= t < 2 ^ 62 ->
  (lb_entries (al_cur a) <> [] -> lb_ts (al_cur a) <= t) -> 0 < type < 256 -> zlen data < 256 -> Forall is_byte data ->
  let cur := match lb_entries (al_cur a) with [] => (al_gen a, t, []) | _ => al_cur a end in
  lb_ok g cur /\
  append_loop (S fuel) t (conc g a) type data =
    if (t - lb_ts cur <=? 65535) && (lb_used cur + 4 + zlen data <=? g_room g) then
      Ret (0, conc g {| al_gen := al_gen a; al_ptr := al_ptr a; al_needs := al_needs a; al_cur := lb_add cur (t, type, data);
                        al_alt := al_alt a; al_crc := al_crc a; al_acrc := al_acrc a |})
    else
      '(res, f) ← request_flush (conc g a);
      if negb (res =? 0) then Ret (res, f) else append_loop fuel t f type data.
Proof.
  intros [A1 A2 A3 A4 A5 A6] Ht Hts Hty Hd Hb cur. pose proof g_sizes as (Hbs & _ & _).
  assert (lb_ok g cur) as Hc.
  { unfold cur. destruct (lb_entries (al_cur a)); [|done]. unfold lb_ok, lb_gen, lb_ts, lb_entries, lb_used. cbn. split_and!; try lia; [constructor|].
    unfold g_room, JD_LSTORE_BLOCK_OVERHEAD, sizeof_block_header, sizeof_block_footer. change (zlen []) with 0. lia. }
  assert (lb_ts cur <= t) as Hle.
  { unfold cur. destruct (lb_entries (al_cur a)); [unfold lb_ts; cbn; lia|]. by apply Hts. }
  split; [done|]. cbn [append_loop].
  set (f := if lf_data_ptr (conc g a) =? 0 then _ else conc g a).
  assert (f = conc g {| al_gen := al_gen a; al_ptr := al_ptr a; al_needs := al_needs a; al_cur := cur;
                        al_alt := al_alt a; al_crc := al_crc a; al_acrc := al_acrc a |}) as ->.
  { unfold f, cur. change (lf_data_ptr (conc g a)) with (lb_used (al_cur a)).
    destruct (Z.eqb_spec (lb_used (al_cur a)) 0) as [E|E].
    - apply (used_nil _ A3) in E. rewrite E. unfold lf_set_blocks, conc. cbn [lf_block lf_block_alt al_cur al_crc al_gen].
      rewrite (img_start _ _ _ _ E). cbn. f_equal. unfold lb_used. by rewrite E.
    - destruct (lb_entries (al_cur a)) eqn:E2; [by apply (used_nil _ A3) in E2|]. by destruct a. }
  cbn [conc lf_block al_cur lf_data_ptr al_crc]. rewrite img_ts by done.
  destruct Hc as (C1 & C2 & C3 & C4). rewrite s64_small by lia.
  rewrite (proj2 (Z.ltb_ge (t - lb_ts cur) 0)) by lia.
  change (block_data_size _) with (g_room g).
  pose proof (zlen_nonneg (enc (lb_ts cur) (lb_entries cur))) as Hn. fold (lb_used cur) in Hn. pose proof (zlen_nonneg data).
  rewrite u32_small by (unfold g_room, JD_LSTORE_ENTRY_HEADER_SIZE, JD_LSTORE_BLOCK_OVERHEAD, sizeof_block_header, sizeof_block_footer in *; lia).
  change JD_LSTORE_ENTRY_HEADER_SIZE with 4 at 1. rewrite !Z.gtb_ltb.
  destruct (Z.leb_spec (t - lb_ts cur) 65535) as [L1|L1]; destruct (Z.leb_spec (lb_used cur + 4 + zlen data) (g_room g)) as [L2|L2]; cbn [andb];
    [rewrite (proj2 (Z.ltb_ge _ _)), (proj2 (Z.ltb_ge _ _)) by lia; cbn [orb]|..].
  1: { unfold block_curr_ptr. cbn [lf_data_ptr].
    rewrite img_append by done. unfold conc, lf_set_flush, lf_set_blocks. cbn. rewrite used_add. done. }
  all: assert (cur = al_cur a) as Ec by (unfold cur in *; destruct (lb_entries (al_cur a)); [|done]; exfalso;
    unfold lb_ts, lb_used, lb_entries, g_room, JD_LSTORE_BLOCK_OVERHEAD, sizeof_block_header, sizeof_block_footer in *;
    cbn [fst snd enc flat_map] in *; change (zlen []) with 0 in *; lia).
  all: assert ((65535 <? t - lb_ts cur) || (g_room g <? lb_used cur + 4 + zlen data) = true) as Ef
    by (apply orb_true_iff; rewrite !Z.ltb_lt; lia).
  all: rewrite Ef; clearbody cur; subst cur; by destruct a.
Qed.

Lemma lb_empty_ok gen t : 0 <= gen < 2 ^ 32 -> 0 <= t < 2 ^ 62 -> lb_ok g (gen, t, []).
Proof.
  intros Hgen Ht. pose proof g_sizes. unfold lb_ok, lb_gen, lb_ts, lb_entries, lb_used. cbn. split_and!; try lia; [constructor|].
  unfold g_room, JD_LSTORE_BLOCK_OVERHEAD, sizeof_block_header, sizeof_block_footer. change (zlen []) with 0. lia.
Qed.

(** The swap of the two blocks. *)
Definition al_swap (a : alog) : alog := {|
  al_gen := al_gen a; al_ptr := al_ptr a; al_needs := 1; al_cur := al_alt a; al_alt := al_cur a;
  al_crc := al_acrc a; al_acrc := al_crc a |}.

Lemma al_swap_ok a : al_ok g a -> al_ok g (al_swap a).
Proof. intros [A1 A2 A3 A4 A5 A6]. constructor; cbn; try done. by right; left. Qed.

Lemma request_flush_spec a : al_ok g a -> lb_entries (al_cur a) <> [] ->
  request_flush (conc g a) = Ret (if al_needs a =? 0 then (0, conc g (al_swap a)) else (-1, conc g a)).
Proof.
  intros [A1 A2 A3 A4 A5 A6] Hne. unfold request_flush. cbn [conc lf_data_ptr lf_needs_flushing].
  rewrite (proj2 (Z.eqb_neq _ 0)) by (rewrite (used_nil _ A3); done). cbn [negb].
  destruct (Z.eqb_spec (al_needs a) 0) as [E|E]; [|done]. cbn [negb]. do 2 f_equal.
  unfold conc, lf_set_flush, lf_set_blocks, al_swap. cbn. f_equal. symmetry. by apply (used_nil _ A4), A6.
Qed.

Lemma append_loop_spec a t type data : al_ok g a -> 0 <= t < 2 ^ 62 ->
  (lb_entries (al_cur a) <> [] -> lb_ts (al_cur a) <= t) -> 0 < type < 256 -> zlen data < 256 -> Forall is_byte data ->
  append_loop 2 t (conc g a) type data = Ret ((al_append g t type data a).1, conc g (al_append g t type data a).2) /\
  al_ok g (al_append g t type data a).2.
Proof.
  intros Ha Ht Hts Hty Hd Hb. destruct (append_fits 1 a t type data Ha Ht Hts Hty Hd Hb) as [Hc ->].
  unfold al_append. set (cur := match lb_entries (al_cur a) with [] => _ | _ => _ end) in *.
  destruct ((t - lb_ts cur <=? 65535) && (lb_used cur + 4 + zlen data <=? g_room g)) eqn:Efit.
  - bool_to_prop. split; [done|]. pose proof Ha as [A1 A2 A3 A4 A5 A6]. constructor; cbn; try done.
    assert (lb_ts cur <= t) by (unfold cur; destruct (lb_entries (al_cur a)); [unfold lb_ts; cbn; lia|by apply Hts]).
    apply lb_add_ok; try done; lia.
  - pose proof g_sizes. assert (lb_entries (al_cur a) <> []) as Hne.
    { intros E. unfold cur in Efit. rewrite E in Efit. unfold lb_ts, lb_used, lb_entries, g_room, JD_LSTORE_BLOCK_OVERHEAD,
        sizeof_block_header, sizeof_block_footer in Efit. cbn [fst snd enc flat_map] in Efit. change (zlen []) with 0 in Efit.
      apply andb_false_iff in Efit as [Ef|Ef]; bool_to_prop; lia. }
    assert (cur = al_cur a) as Ec by (unfold cur; destruct (lb_entries (al_cur a)); done). clearbody cur. subst cur.
    rewrite (request_flush_spec a Ha Hne). obind. destruct (Z.eqb_spec (al_needs a) 0) as [E|E]; cbn [negb]; [|done].
    change (0 =? 0) with true. cbn [negb fst snd]. pose proof Ha as [A1 A2 A3 A4 A5 A6].
    destruct (append_fits 0 (al_swap a) t type data (al_swap_ok a Ha) Ht) as [Hc2 ->]; [|done..|].
    { cbn [al_swap al_cur]. rewrite A6 by done. done. }
    cbn [al_swap al_cur al_gen al_alt al_needs al_ptr al_crc al_acrc] in *. rewrite A6 in * by done.
    assert (lb_used (al_gen a, t, []) = 0) as Hu by done. rewrite Hu. change (lb_ts (al_gen a, t, [])) with t.
    rewrite (proj2 (Z.leb_le (t - t) 65535)), (proj2 (Z.leb_le _ (g_room g))) by
      (unfold g_room, JD_LSTORE_BLOCK_OVERHEAD, sizeof_block_header, sizeof_block_footer; lia).
    cbn [andb]. split; [done|]. constructor; cbn; try done; [|by right; left].
    apply (lb_add_ok (al_gen a, t, [])); try done; [change (lb_ts _) with t; lia|].
    rewrite Hu. unfold g_room, JD_LSTORE_BLOCK_OVERHEAD, sizeof_block_header, sizeof_block_footer. lia.
Qed.

Lemma flush_begin_spec a : al_ok g a -> al_needs a <> 2 ->
  flush_begin (conc g a) = Ret ((al_begin a).1, conc g (al_begin a).2) /\ al_ok g (al_begin a).2.
Proof.
  intros Ha Hn2. unfold flush_begin, al_begin. cbn [conc lf_data_ptr lf_needs_flushing].
  assert (negb (lb_used (al_cur a) =? 0) && (al_needs a =? 0) =
    match lb_entries (al_cur a) with [] => false | _ => al_needs a =? 0 end) as E.
  { pose proof (used_nil (al_cur a) (ao_cur _ _ Ha)) as Hu. destruct (lb_entries (al_cur a)).
    - by rewrite (proj2 Hu).
    - destruct (Z.eqb_spec (lb_used (al_cur a)) 0) as [E|E]; [by apply Hu in E|done]. }
  rewrite E. destruct (match lb_entries (al_cur a) with [] => _ | _ => _ end) eqn:Es.
  - assert (lb_entries (al_cur a) <> [] /\ al_needs a = 0) as [Hne Hn].
    { destruct (lb_entries (al_cur a)); [done|]. bool_to_prop. done. }
    rewrite (request_flush_spec a Ha Hne), Hn. obind. cbn. split; [done|].
    pose proof (al_swap_ok a Ha) as [A1 A2 A3 A4 A5 A6]. constructor; cbn in *; try done. by right; right.
  - obind. pose proof Ha as [A1 A2 A3 A4 A5 A6]. cbn [conc lf_needs_flushing lf_data_ptr]. destruct (Z.eqb_spec (al_needs a) 0) as [E0|E0]; cbn [negb fst snd]; [done|].
    rewrite (proj2 (Z.eqb_eq (al_needs a) 1)) by lia. split; [done|]. constructor; cbn; try done. by right; right.
Qed.
End Machine.

(** ** The card *)

Definition log_entry_fits (type : Z) (data : list Z) : Prop := 0 < type < 256 /\ zlen data < 256 /\ Forall is_byte data.

Inductive log_op :=
  | LogAppend (t type : Z) (data : list Z)   (* jd_lstore_append, possibly from an interrupt *)
  | LogBegin                                 (* the first part of flush_to_disk, with interrupts off *)
  | LogEnd.                                  (* the rest: flush_to_disk_core *)

Section Steps.
Context {D : Type} `{Card D}.

(** The main loop runs both parts of a flush one after the other; appends can
    come in between. The reply is that of an append. *)
Definition log_step (st : lfile * D) (o : log_op) : outcome (Z * (lfile * D)) :=
  let '(f, c) := st in
  match o with
  | LogAppend t type data => '(r, f) ← append_entry t f type data; Ret (r, (f, c))
  | LogBegin => if lf_needs_flushing f =? 2 then Ret (0, st) else '(_, f) ← flush_begin f; Ret (0, (f, c))
  | LogEnd => if lf_needs_flushing f =? 2 then '(f, _, c) ← flush_to_disk_core c 0 f; Ret (0, (f, c)) else Ret (0, st)
  end.

Fixpoint log_run (st : lfile * D) (ops : list log_op) : outcome (list Z * (lfile * D)) :=
  match ops with
  | [] => Ret ([], st)
  | o :: ops => '(r, st) ← log_step st o; '(rs, st) ← log_run st ops; Ret (r :: rs, st)
  end.
End Steps.

(** The same on abstract states, with the block that is written. *)
Definition al_step (g : geometry) (a : alog) (o : log_op) : Z * alog * list lblock :=
  match o with
  | LogAppend t type data => (al_append g t type data a, [])
  | LogBegin => (0, if al_needs a =? 2 then a else (al_begin a).2, [])
  | LogEnd => if al_needs a =? 2 then (0, al_written g a, [al_alt a]) else (0, a, [])
  end.

Fixpoint al_run (g : geometry) (a : alog) (ops : list log_op) : list Z * alog * list lblock :=
  match ops with
  | [] => ([], a, [])
  | o :: ops =>
      let '(r, a, w) := al_step g a o in
      let '(rs, a, ws) := al_run g a ops in
      (r :: rs, a, w ++ ws)
  end.

(** The bytes of a block on the card: with its checksum. *)
Definition stored_img (g : geometry) (b : lblock) : list Z := img g b (jd_crc32 (mread (img g b 0) 0 (g_bs g - 4))).

Section OnCard.
Context {D : Type} `{CardLaws D} (g : geometry) (Hg : geo_ok g).

Definition card_ok (c : D) : Prop := 512 * (g_off g + (g_hb g + g_db g) * g_spb g) <= zlen (image c).
Definition block_pos (i : Z) : Z := 512 * (g_off g + (g_hb g + i) * g_spb g).
Definition block_at (c : D) (i : Z) : list Z := mread (image c) (block_pos i) (g_bs g).
Definition header_at (c : D) : list Z := mread (image c) (512 * g_off g) 512.

(** Headers that differ in [num_rewrites] only. *)
Definition header_like (h h' : list Z) : Prop := mread h' 0 28 = mread h 0 28 /\ mread h' 32 480 = mread h 32 480.

(** What a write to the file leaves alone. *)
Definition outside_same (c c' : D) : Prop :=
  zlen (image c') = zlen (image c) /\
  forall off n, 0 <= off -> 0 <= n -> off + n <= 512 * g_off g \/ 512 * (g_off g + (g_hb g + g_db g) * g_spb g) <= off ->
    mread (image c') off n = mread (image c) off n.

Lemma shiftl_spb i : 0 <= i -> Z.shiftl i (g_shift g - SECTOR_SHIFT) = i * g_spb g.
Proof. intros Hi. unfold g_spb. rewrite !Z.shiftl_mul_pow2; destruct Hg; unfold SECTOR_SHIFT; lia. Qed.

Lemma block_sector i : 0 <= i < g_db g ->
  u32 (Z.shiftl (g_hb g + i) (g_shift g - SECTOR_SHIFT)) = (g_hb g + i) * g_spb g /\
  u32 (g_off g + (g_hb g + i) * g_spb g) = g_off g + (g_hb g + i) * g_spb g /\
  512 * (g_off g + (g_hb g + i) * g_spb g + g_spb g) <= 512 * (g_off g + (g_hb g + g_db g) * g_spb g) /\
  0 <= g_off g + (g_hb g + i) * g_spb g.
Proof.
  intros Hi. destruct (g_sizes g Hg) as (_ & _ & Hs). destruct Hg as [_ Ho Hhb Hdb He _ _].
  rewrite shiftl_spb by lia. assert ((g_hb g + i) * g_spb g + g_spb g <= (g_hb g + g_db g) * g_spb g) by nia.
  assert (0 <= (g_hb g + i) * g_spb g) by nia. rewrite !u32_small by lia. lia.
Qed.

Lemma block_pos_step i : block_pos i + g_bs g = block_pos (i + 1).
Proof. destruct (g_sizes g Hg) as (_ & -> & _). unfold block_pos. lia. Qed.

Lemma block_pos_le i j : i <= j -> block_pos i <= block_pos j.
Proof. intros. destruct (g_sizes g Hg) as (_ & _ & Hs). unfold block_pos. nia. Qed.

Lemma block_pos_ends : 512 * g_off g + 512 <= block_pos 0 /\ block_pos (g_db g) = 512 * (g_off g + (g_hb g + g_db g) * g_spb g).
Proof. destruct (g_sizes g Hg) as (_ & _ & Hs). destruct Hg as [_ _ Hhb _ _ _ _]. unfold block_pos. split; [nia|done]. Qed.

Lemma read_block_spec c f idx : card_ok c -> 0 <= idx < g_db g ->
  lf_sector_off f = g_off g -> lf_header_blocks f = g_hb g -> lf_data_blocks f = g_db g -> lf_block_shift f = g_shift g ->
  exists c', image c' = image c /\
    read_block c 0 f idx =
      let b := block_at c idx in
      if negb (block_valid f b) then Ret (-1, lf_set_blocks f (put64 (put32 (put32 b 0 0) 4 0) 8 0) (lf_block_alt f), c')
      else Ret (0, lf_set_blocks f b (lf_block_alt f), c').
Proof.
  intros Hc Hi E1 E2 E3 E4. destruct (block_sector idx Hi) as (B1 & B2 & B3 & B4). unfold read_block.
  rewrite E2, E3, E4, B1, (proj2 (Z.ltb_lt _ _)) by lia.
  unfold read_sectors. rewrite E1, B2. change (Z.shiftl 1 (g_shift g - SECTOR_SHIFT)) with (g_spb g).
  destruct (g_sizes g Hg) as (_ & Hbs & Hs). unfold card_ok in Hc.
  destruct (disk_read_image c (g_off g + (g_hb g + idx) * g_spb g) (g_spb g)) as (c' & -> & Hi'); [lia..|].
  exists c'. split; [done|]. cbn. unfold block_at, block_pos. rewrite Hbs. by destruct (negb _).
Qed.

Lemma write_block_spec c a : card_ok c -> 0 <= al_ptr a < g_db g -> lb_used (al_alt a) <= g_room g ->
  exists c', write_block c 0 (conc g a) (al_ptr a) = Ret (0, c') /\
    image c' = mwrite (image c) (block_pos (al_ptr a)) (img g (al_alt a) (al_acrc a)).
Proof.
  intros Hc Hp Hu. destruct (block_sector _ Hp) as (B1 & B2 & B3 & B4). unfold write_block, write_sectors.
  cbn [conc lf_block_shift lf_data_blocks lf_header_blocks lf_sector_off lf_block_alt].
  rewrite B1, B2, (proj2 (Z.ltb_lt _ _)) by lia. change (0 =? 1) with false. change (0 =? 0) with true. cbn [negb].
  change (Z.shiftl 1 (g_shift g - SECTOR_SHIFT)) with (g_spb g). destruct (g_sizes g Hg) as (_ & Hbs & Hs). unfold card_ok in Hc.
  destruct (disk_write_image c (img g (al_alt a) (al_acrc a)) (g_off g + (g_hb g + al_ptr a) * g_spb g) (g_spb g))
    as (c' & -> & Hi'); [lia|lia| |lia|].
  - rewrite zlen_img by done. exact Hbs.
  - exists c'. split; [done|]. exact Hi'.
Qed.

(** Writing a block. *)
Lemma block_write c c' i b : card_ok c -> 0 <= i < g_db g -> zlen b = g_bs g -> image c' = mwrite (image c) (block_pos i) b ->
  outside_same c c' /\ header_at c' = header_at c /\
  forall j, 0 <= j < g_db g -> block_at c' j = if decide (j = i) then b else block_at c j.
Proof.
  intros Hc Hi Hb Hw. destruct block_pos_ends as [P1 P2]. pose proof (block_pos_le 0 i ltac:(lia)). pose proof (block_pos_le (i + 1) (g_db g) ltac:(lia)).
  pose proof (block_pos_step i). destruct (g_sizes g Hg) as (Hs1 & _). destruct Hg as [_ Ho _ _ _ _ _]. unfold card_ok in Hc.
  assert (0 <= block_pos i /\ block_pos i + zlen b <= zlen (image c)) by lia. split; [split|split].
  - rewrite Hw. apply zlen_mwrite; lia.
  - intros off n ? ? ?. rewrite Hw. apply mread_mwrite_out; lia.
  - unfold header_at. rewrite Hw. apply mread_mwrite_out; lia.
  - intros j Hj. unfold block_at. rewrite Hw. case_decide as E.
    + subst j. rewrite <- Hb. apply mread_mwrite_eq. unfold zlen in *. lia.
    + pose proof (block_pos_step j). apply mread_mwrite_out; try lia. pose proof (block_pos_le 0 j ltac:(lia)). lia.
      destruct (decide (j < i)); [left; pose proof (block_pos_le (j + 1) i ltac:(lia))|right; pose proof (block_pos_le (i + 1) j ltac:(lia))]; lia.
Qed.

Lemma header_like_refl h : header_like h h.
Proof. done. Qed.
Lemma header_like_trans h1 h2 h3 : header_like h1 h2 -> header_like h2 h3 -> header_like h1 h3.
Proof. intros [A1 A2] [B1 B2]. split; congruence. Qed.
Lemma outside_same_refl c : outside_same c c.
Proof. done. Qed.
Lemma outside_same_trans c1 c2 c3 : outside_same c1 c2 -> outside_same c2 c3 -> outside_same c1 c3.
Proof. intros [A1 A2] [B1 B2]. split; [congruence|]. intros. rewrite B2, A2; done. Qed.

Lemma card_ok_same c c' : outside_same c c' -> card_ok c -> card_ok c'.
Proof. unfold card_ok. by intros [-> _]. Qed.

(** Counting a turn of the ring in the header. *)
Lemma bump_rewrites_spec c f : card_ok c -> lf_sector_off f = g_off g ->
  exists c', bump_rewrites c 0 f = Ret (0, c') /\ outside_same c c' /\ header_like (header_at c) (header_at c') /\
    forall j, 0 <= j < g_db g -> block_at c' j = block_at c j.
Proof.
  intros Hc Ef. unfold bump_rewrites, read_sectors, write_sectors. rewrite Ef, Z.add_0_r.
  destruct block_pos_ends as [P1 P2]. pose proof (go_db g Hg) as Hdb. pose proof (block_pos_le 0 (g_db g) ltac:(lia)).
  pose proof (go_off g Hg) as Ho. pose proof (go_end g Hg) as He. unfold card_ok in Hc.
  assert (g_off g < 2 ^ 32) by (destruct (g_sizes g Hg) as (_ & _ & Hs); destruct Hg as [_ _ Hhb _ _ _ _]; nia).
  rewrite u32_small by lia.
  destruct (disk_read_image c (g_off g) 1) as (c1 & -> & Hi1); [lia..|]. change (0 =? 0) with true. cbv iota. obind.
  change (0 =? 1) with false. cbn [negb]. set (hd := mread (image c) (512 * g_off g) (512 * 1)).
  assert (zlen hd = 512) as Hh by (apply zlen_mread; lia).
  assert (forall v, zlen (put32 hd 28 v) = 512) as Hp
    by (intros v; unfold put32; rewrite zlen_mwrite; rewrite ?zlen_le_bytes; lia).
  destruct (disk_write_image c1 (put32 hd 28 (u32 (mh_num_rewrites hd + 1))) (g_off g) 1) as (c' & -> & Hi'); rewrite ?Hi1; [lia|lia|by rewrite Hp|lia|].
  exists c'. split; [done|]. rewrite Hi1 in Hi'. set (v := u32 (mh_num_rewrites hd + 1)) in *.
  assert (512 * g_off g + zlen (put32 hd 28 v) <= zlen (image c)) by (rewrite Hp; lia). split; [|split].
  - split; [rewrite Hi'; apply zlen_mwrite; lia|]. intros off n ? ? ?. rewrite Hi'. apply mread_mwrite_out; rewrite ?Hp; lia.
  - unfold header_at. rewrite Hi'. pose proof (mread_mwrite_eq (image c) (512 * g_off g) (put32 hd 28 v)) as E. rewrite Hp in E.
    rewrite E by (unfold zlen in *; lia). change (mread (image c) (512 * g_off g) 512) with hd. unfold put32.
    split; apply mread_mwrite_out; rewrite ?zlen_le_bytes; unfold zlen in *; lia.
  - intros j Hj. unfold block_at. rewrite Hi'. pose proof (block_pos_le 0 j ltac:(lia)).
    destruct (g_sizes g Hg) as (Hs1 & _). apply mread_mwrite_out; rewrite ?Hp; lia.
Qed.

Lemma core_spec c a : al_ok g a -> card_ok c -> 
  exists c', flush_to_disk_core c 0 (conc g a) = Ret (conc g (al_written g a), 0, c') /\
    outside_same c c' /\ header_like (header_at c) (header_at c') /\
    forall j, 0 <= j < g_db g -> block_at c' j = if decide (j = al_ptr a) then stored_img g (al_alt a) else block_at c j.
Proof.
  intros Ha Hc. pose proof Ha as [A1 A2 A3 A4 A5 A6]. destruct A4 as (_ & _ & _ & Hu). unfold flush_to_disk_core.
  change (block_size (conc g a)) with (g_bs g). change (block_data_size (conc g a)) with (g_room g).
  cbn [conc lf_block lf_block_alt].
  assert (mread (img g (al_alt a) (al_acrc a)) 0 (g_bs g - 4) = mread (img g (al_alt a) 0) 0 (g_bs g - 4)) as ->
    by (by apply blk_checked).
  set (crc := jd_crc32 _). assert (put32 (img g (al_alt a) (al_acrc a)) (g_bs g - 4) crc = img g (al_alt a) crc) as -> by (by apply blk_put_crc).
  set (a1 := {| al_gen := al_gen a; al_ptr := al_ptr a; al_needs := al_needs a; al_cur := al_cur a; al_alt := al_alt a;
                al_crc := al_crc a; al_acrc := crc |}).
  change (lf_set_blocks (conc g a) (img g (al_cur a) (al_crc a)) (img g (al_alt a) crc)) with (conc g a1).
  destruct (write_block_spec c a1 Hc A2 Hu) as (c1 & E1 & Hw). 
  change (lf_block_ptr (conc g a1)) with (al_ptr a1). rewrite E1. obind.
  destruct (block_write c c1 (al_ptr a1) (img g (al_alt a1) (al_acrc a1)) Hc A2 (zlen_img g _ _ Hu) Hw) as (O1 & H1 & B1).
  change (block_data_size (conc g a1)) with (g_room g).
  assert (mwrite (img g (al_alt a) crc) sizeof_block_header (replicate (Z.to_nat (g_room g)) 0) =
    img g (lb_gen (al_alt a), lb_ts (al_alt a), []) crc) as -> by (by apply blk_clear).
  rewrite u32_small by (destruct Hg; cbn; lia). cbn [lf_data_blocks lf_set_position lf_set_blocks conc a1 al_ptr lf_block_generation al_gen].
  assert (stored_img g (al_alt a) = img g (al_alt a1) (al_acrc a1)) as Est by done.
  unfold al_written. fold crc. destruct (al_ptr a + 1 >=? g_db g) eqn:Ep.
  - match goal with |- context [bump_rewrites c1 0 ?f] => destruct (bump_rewrites_spec c1 f (card_ok_same _ _ O1 Hc) eq_refl) as (c2 & E2 & O2 & H2 & B2) end.
    change (0 =? 0) with true. cbv iota. rewrite E2. obind. exists c2. split; [done|]. split; [by eapply outside_same_trans|].
    split; [by rewrite <- H1|]. intros j Hj. rewrite B2, B1 by done. by rewrite Est.
  - obind. exists c1. split; [done|]. split; [done|]. split; [by rewrite H1|]. intros j Hj. rewrite B1 by done. by rewrite Est.
Qed.

Lemma al_written_ok a : al_ok g a -> al_ok g (al_written g a).
Proof.
  intros [A1 A2 A3 (B1 & B2 & _) A5 A6]. constructor; cbn; try done; [|by apply lb_empty_ok|by left].
  rewrite Z.geb_leb. destruct (Z.leb_spec (g_db g) (al_ptr a + 1)); destruct Hg; lia.
Qed.

Lemma log_entry_args type data : log_entry_fits type data -> u8 type = type /\ u8 (zlen data) = zlen data.
Proof. intros (Ht & Hd & _). pose proof (zlen_nonneg data). by rewrite !u8_small by lia. Qed.

(** The times of the appends go up from [T]. *)
Fixpoint times_from (T : Z) (ops : list log_op) : Prop :=
  match ops with
  | [] => True
  | LogAppend t type data :: ops => T <= t < 2 ^ 62 /\ log_entry_fits type data /\ times_from t ops
  | _ :: ops => times_from T ops
  end.

(** A file up to time [T]: what [al_ok] says, and the blocks are of this
    generation and in order. *)
Record al_inv (T : Z) (a : alog) : Prop := {
  ai_ok : al_ok g a;
  ai_T : 0 <= T;
  ai_cur : lb_entries (al_cur a) <> [] -> lb_gen (al_cur a) = al_gen a /\ lb_ts (al_cur a) <= T;
  ai_alt : al_needs a <> 0 -> lb_entries (al_alt a) <> [] /\ lb_gen (al_alt a) = al_gen a /\ lb_ts (al_alt a) <= T /\
    (lb_entries (al_cur a) <> [] -> lb_ts (al_alt a) <= lb_ts (al_cur a));
}.

Lemma lb_add_nonnil b e : lb_entries (lb_add b e) <> [].
Proof. unfold lb_entries, lb_add. cbn [snd]. by destruct b.2. Qed.

Lemma al_append_inv T a t type data : al_inv T a -> T <= t < 2 ^ 62 -> log_entry_fits type data ->
  al_inv t (al_append g t type data a).2.
Proof.
  intros [Ha HT Hcur Halt] Ht (F1 & F2 & F3).
  destruct (append_loop_spec g Hg a t type data) as [_ Ha']; [done|lia|intros Hne; specialize (Hcur Hne); lia|done..|].
  split; [done|lia|..]; clear Ha'; unfold al_append;
    set (cur := match lb_entries (al_cur a) with [] => _ | _ => _ end);
    assert (lb_gen cur = al_gen a /\ lb_ts cur <= t /\ (lb_entries (al_cur a) <> [] -> cur = al_cur a)) as (C1 & C2 & C3)
      by (unfold cur; destruct (lb_entries (al_cur a)); [split_and!; [done|unfold lb_ts; cbn; lia|done]|
          destruct (Hcur ltac:(done)); split_and!; [done|lia|done]]);
    destruct ((t - lb_ts cur <=? 65535) && (lb_used cur + 4 + zlen data <=? g_room g)) eqn:Ef; cbn [snd al_cur al_alt al_gen al_needs].
  - intros _. unfold lb_add, lb_gen, lb_ts. cbn [fst]. done.
  - destruct (negb (al_needs a =? 0)); cbn [snd al_cur al_gen]; [intros Hne; destruct (Hcur Hne); split; [done|lia]|].
    intros _. unfold lb_gen, lb_ts. cbn. split; [done|lia].
  - intros Hn. destruct (Halt Hn) as (N1 & N2 & N3 & N4). split; [done|]. split; [done|]. split; [lia|]. intros _.
    unfold lb_add, lb_ts at 2. cbn [fst]. change (cur.1.2) with (lb_ts cur).
    destruct (lb_entries (al_cur a)) eqn:El; [unfold cur; unfold lb_ts at 2; cbn; lia|]. rewrite C3 by done. by apply N4.
  - destruct (negb (al_needs a =? 0)) eqn:En; cbn [snd al_cur al_alt al_gen al_needs].
    + intros Hn. destruct (Halt Hn) as (N1 & N2 & N3 & N4). split_and!; [done|done|lia|done].
    + intros _. assert (lb_entries (al_cur a) <> []) as Hne.
      { intros E. unfold cur in Ef. rewrite E in Ef. pose proof (g_sizes g Hg). unfold lb_ts, lb_used, lb_entries, g_room, JD_LSTORE_BLOCK_OVERHEAD,
          sizeof_block_header, sizeof_block_footer in Ef. cbn [fst snd enc flat_map] in Ef. change (zlen []) with 0 in Ef.
        apply andb_false_iff in Ef as [Ef|Ef]; bool_to_prop; lia. }
      rewrite C3 in * by done. split_and!; [done|done|lia|]. intros _. unfold lb_ts at 2. cbn. lia.
Qed.

Lemma al_begin_inv T a : al_inv T a -> al_needs a <> 2 -> al_inv T (al_begin a).2.
Proof.
  intros [Ha HT Hcur Halt] Hn2. destruct (flush_begin_spec g a Ha Hn2) as [_ Ha']. split; [done|done|..]; clear Ha'; unfold al_begin;
    destruct (lb_entries (al_cur a)) eqn:El; destruct (Z.eqb_spec (al_needs a) 0) as [E0|E0];
    cbn [al_needs al_cur al_alt al_gen snd]; rewrite ?(proj2 (Z.eqb_eq _ _) E0), ?(proj2 (Z.eqb_neq _ _) E0); cbn [al_needs al_cur al_alt al_gen snd Z.eqb];
    rewrite ?El; try done.
  all: first
    [ rewrite (ao_alt_empty _ _ Ha) by done; done
    | intros _; by apply Hcur
    | intros _; destruct (Halt E0) as (N1 & N2 & N3 & N4); by split_and!
    | intros _; destruct (Hcur ltac:(done)) as [? ?]; rewrite (ao_alt_empty _ _ Ha) by done; by split_and! ].
Qed.

Lemma step_sim T a c o : al_inv T a -> card_ok c -> times_from T [o] ->
  let '(r, a', ws) := al_step g a o in
  let T' := match o with LogAppend t _ _ => t | _ => T end in
  exists c', log_step (conc g a, c) o = Ret (r, (conc g a', c')) /\ al_inv T' a' /\ card_ok c' /\
    outside_same c c' /\ header_like (header_at c) (header_at c') /\
    match ws with
    | [] => forall j, 0 <= j < g_db g -> block_at c' j = block_at c j
    | b :: _ => forall j, 0 <= j < g_db g -> block_at c' j = if decide (j = al_ptr a) then stored_img g b else block_at c j
    end.
Proof.
  intros Hinv Hc Ho. pose proof Hinv as [Ha HT Hcur Halt]. destruct o as [t type data| |]; cbn [al_step log_step].
  - destruct Ho as (Ht & Hf & _). pose proof (al_append_inv T a t type data Hinv Ht Hf) as Hinv'.
    destruct (log_entry_args _ _ Hf) as [E1 E2]. destruct Hf as (F1 & F2 & F3).
    destruct (append_loop_spec g Hg a t type data) as [E _]; [done|lia|intros Hne; specialize (Hcur Hne); lia|done..|].
    unfold append_entry. rewrite E1, E2, !Z.eqb_refl, E. obind.
    destruct (al_append g t type data a) as [r a']. cbn [fst snd] in *. exists c. by split_and!.
  - cbn [conc lf_needs_flushing]. destruct (Z.eqb_spec (al_needs a) 2) as [E|E]; exists c; [by split_and!|].
    destruct (flush_begin_spec g a Ha E) as [-> _]. pose proof (al_begin_inv T a Hinv E). obind. by split_and!.
  - cbn [conc lf_needs_flushing]. destruct (Z.eqb_spec (al_needs a) 2) as [E|E]; [|exists c; by split_and!].
    destruct (core_spec c a Ha Hc) as (c' & -> & O & Hh & B). obind. exists c'. split; [done|]. split; [|split_and!; try done; by eapply card_ok_same].
    split; [by apply al_written_ok|done|done|done].
Qed.
End OnCard.

(** ** Runs *)

Definition al_out (a : alog) : list log_entry := lb_entries (al_alt a) ++ lb_entries (al_cur a).

(** The entries of the appends that returned 0. *)
Fixpoint accepted (ops : list log_op) (rs : list Z) : list log_entry :=
  match ops, rs with
  | LogAppend t type data :: ops, r :: rs => if r =? 0 then (t, type, data) :: accepted ops rs else accepted ops rs
  | _ :: ops, _ :: rs => accepted ops rs
  | _, _ => []
  end.

Definition op_time (T : Z) (o : log_op) : Z := match o with LogAppend t _ _ => t | _ => T end.

Section Runs.
Context {D : Type} `{CardLaws D} (g : geometry) (Hg : geo_ok g).

Lemma times_from_cons T o ops : times_from T (o :: ops) -> times_from T [o] /\ times_from (op_time T o) ops.
Proof. destruct o; cbn; tauto. Qed.

Lemma al_append_out T a t type data : al_inv g T a ->
  let '(r, a') := al_append g t type data a in
  (r = 0 /\ al_out a' = al_out a ++ [(t, type, data)]) \/ (r = -1 /\ al_needs a <> 0 /\ al_out a' = al_out a).
Proof.
  intros Hi. unfold al_append. set (cur := match lb_entries (al_cur a) with [] => _ | _ => _ end).
  assert (lb_entries cur = lb_entries (al_cur a)) as Ec by (unfold cur; by destruct (lb_entries (al_cur a)) eqn:E).
  destruct (_ && _).
  - left. split; [done|]. unfold al_out. cbn [al_cur al_alt]. rewrite <- app_assoc. f_equal. rewrite <- Ec. by destruct cur.
  - destruct (Z.eqb_spec (al_needs a) 0) as [E|E]; cbn [negb]; [left|right]; [|done]. split; [done|]. unfold al_out. cbn [al_cur al_alt].
    rewrite (ao_alt_empty _ _ (ai_ok _ _ _ Hi)), Ec by done. done.
Qed.

Lemma al_begin_out T a : al_inv g T a -> al_out (al_begin a).2 = al_out a.
Proof.
  intros Hi. unfold al_begin. pose proof (ao_alt_empty _ _ (ai_ok _ _ _ Hi)) as He. unfold al_out.
  destruct (lb_entries (al_cur a)) eqn:El; destruct (Z.eqb_spec (al_needs a) 0) as [E0|E0]; cbn [al_needs al_cur al_alt snd];
    rewrite ?(proj2 (Z.eqb_eq _ _) E0), ?(proj2 (Z.eqb_neq _ _) E0); cbn [al_needs al_cur al_alt snd Z.eqb]; rewrite ?El, ?He by done; try done.
  by rewrite app_nil_r.
Qed.

(** One step: what was out before and is taken now is written or out. *)
Lemma al_step_out T a o : al_inv g T a ->
  let '(r, a', ws) := al_step g a o in
  (r = 0 \/ r = -1 /\ al_needs a <> 0) /\ flat_map lb_entries ws ++ al_out a' = al_out a ++ accepted [o] [r].
Proof.
  intros Hi. destruct o as [t type data| |]; cbn [al_step].
  - pose proof (al_append_out T a t type data Hi) as Ho. destruct (al_append g t type data a) as [r a'].
    cbn [flat_map app accepted]. destruct Ho as [[-> Ho]|(-> & Hn & Ho)]; cbn; rewrite Ho, ?app_nil_r; split; try done; [by left|by right].
  - cbn [flat_map app accepted]. rewrite app_nil_r. split; [by left|]. destruct (al_needs a =? 2); [done|]. by eapply al_begin_out.
  - destruct (al_needs a =? 2); cbn [flat_map app accepted]; rewrite !app_nil_r; split; try done; by left.
Qed.

(** The time up to which the next block to be written is not older. *)
Definition al_low (T : Z) (a : alog) : Z :=
  if al_needs a =? 0 then match lb_entries (al_cur a) with [] => T | _ => lb_ts (al_cur a) end else lb_ts (al_alt a).

Definition written_ok (a : alog) (low : Z) (b : lblock) : Prop :=
  lb_gen b = al_gen a /\ low <= lb_ts b /\ lb_ok g b.

Lemma al_step_low T a o : al_inv g T a -> times_from T [o] ->
  let '(r, a', ws) := al_step g a o in
  al_gen a' = al_gen a /\ al_low T a <= al_low (op_time T o) a' /\
  Forall (fun b => written_ok a (al_low T a) b /\ lb_ts b <= al_low (op_time T o) a') ws.
Proof.
  intros [Ha HT Hcur Halt] Ho. destruct o as [t type data| |]; cbn [al_step op_time].
  - destruct Ho as (Ht & _). unfold al_append. set (cur := match lb_entries (al_cur a) with [] => _ | _ => _ end).
    assert (lb_ts cur = match lb_entries (al_cur a) with [] => t | _ => lb_ts (al_cur a) end) as Ec
      by (unfold cur; by destruct (lb_entries (al_cur a))).
    destruct (_ && _); [|destruct (Z.eqb_spec (al_needs a) 0) as [E|E]; cbn [negb]].
    + split; [done|]. split; [|constructor]. unfold al_low. cbn [al_needs al_cur al_alt]. destruct (al_needs a =? 0); [|done].
      destruct (lb_entries (lb_add cur (t, type, data))) eqn:En; [by apply lb_add_nonnil in En|].
      change (lb_ts (lb_add cur _)) with (lb_ts cur). rewrite Ec. destruct (lb_entries (al_cur a)); lia.
    + split; [done|]. split; [|constructor]. unfold al_low. cbn [al_needs al_cur al_alt Z.eqb]. rewrite E, Ec. cbn [Z.eqb].
      destruct (lb_entries (al_cur a)); lia.
    + split; [done|]. split; [|constructor]. unfold al_low. by rewrite (proj2 (Z.eqb_neq _ _) E).
  - destruct (Z.eqb_spec (al_needs a) 2) as [E2|E2]; [done|]. unfold al_begin, al_low.
    destruct (lb_entries (al_cur a)) eqn:El; destruct (Z.eqb_spec (al_needs a) 0) as [E0|E0]; cbn [al_needs al_cur al_alt al_gen snd];
    rewrite ?(proj2 (Z.eqb_eq _ _) E0), ?(proj2 (Z.eqb_neq _ _) E0); cbn [al_needs al_cur al_alt al_gen snd Z.eqb]; rewrite ?El; done.
  - destruct (Z.eqb_spec (al_needs a) 2) as [E2|E2]; [|done]. destruct Halt as (N1 & N2 & N3 & N4); [lia|].
    unfold al_low. rewrite E2. cbn. assert (lb_ts (al_alt a) <= match lb_entries (al_cur a) with [] => T | _ => lb_ts (al_cur a) end) as Hle
      by (destruct (lb_entries (al_cur a)); [done|by apply N4]).
    split; [done|]. split; [done|]. constructor; [|constructor]. split; [|done]. split_and!; [done|done|by destruct Ha].
Qed.


(** What is known of a run from [(a, c)] to [(a', c')] that wrote [ws]. *)
Record run_rel (T : Z) (a : alog) (c : D) (T' : Z) (a' : alog) (c' : D) (ws : list lblock) : Prop := {
  rr_inv : al_inv g T' a';
  rr_card : card_ok g c';
  rr_header : header_like (header_at g c) (header_at g c');
  rr_gen : al_gen a' = al_gen a;
  rr_low : al_low T a <= al_low T' a';
  rr_written : Forall (fun b => written_ok a (al_low T a) b /\ lb_ts b <= al_low T' a') ws;
  rr_sorted : StronglySorted (fun b b' => lb_ts b <= lb_ts b') ws;
  rr_ptr : al_ptr a' = (al_ptr a + zlen ws) mod g_db g;
  rr_new : forall k b, ws !! k = Some b -> zlen ws <= Z.of_nat k + g_db g ->
    block_at g c' ((al_ptr a + Z.of_nat k) mod g_db g) = stored_img g b;
  rr_old : forall j, 0 <= j < g_db g -> (forall k, 0 <= k < zlen ws -> (al_ptr a + k) mod g_db g <> j) ->
    block_at g c' j = block_at g c j;
}.

Lemma run_rel_nil T a c : al_inv g T a -> card_ok g c -> run_rel T a c T a c [].
Proof.
  intros Hi Hc. split; try done; try constructor.
  change (zlen []) with 0. rewrite Z.add_0_r, Z.mod_small; [done|]. apply (ai_ok _ _ _ Hi).
Qed.

Lemma run_rel_step T a c o : al_inv g T a -> card_ok g c -> times_from T [o] ->
  let '(r, a', ws) := al_step g a o in
  exists c', log_step (conc g a, c) o = Ret (r, (conc g a', c')) /\ run_rel T a c (op_time T o) a' c' ws /\ outside_same g c c'.
Proof.
  intros Hi Hc Ho. pose proof (step_sim g Hg T a c o Hi Hc Ho) as Hs. pose proof (al_step_low T a o Hi Ho) as Hl.
  destruct (al_step g a o) as [[r a'] ws] eqn:Es. destruct Hs as (c' & E & Hi' & Hc' & O & Hh & B). destruct Hl as (L1 & L2 & L3).
  pose proof (ao_ptr _ _ (ai_ok _ _ _ Hi)) as Hp. exists c'. split; [done|]. split; [|done].
  assert (ws = [] /\ al_ptr a' = al_ptr a \/ exists b, ws = [b] /\ al_ptr a' = (al_ptr a + 1) mod g_db g) as [[-> Ep]|(b & -> & Ep)].
  { destruct o as [t type data| |]; cbn [al_step] in Es.
    - left. injection Es as Ea <-. split; [done|]. replace a' with (al_append g t type data a).2 by (by rewrite Ea).
      unfold al_append. destruct (_ && _); [done|]. by destruct (negb _).
    - left. injection Es as <- <- <-. split; [done|]. destruct (al_needs a =? 2); [done|]. unfold al_begin.
      destruct (match lb_entries (al_cur a) with [] => _ | _ => _ end); cbn; [done|]. by destruct (al_needs a =? 0).
    - destruct (al_needs a =? 2); injection Es as <- <- <-; [right|by left]. eexists. split; [done|]. cbn.
      rewrite Z.geb_leb. destruct (Z.leb_spec (g_db g) (al_ptr a + 1)).
      + replace (al_ptr a + 1) with (g_db g) by lia. by rewrite Z_mod_same_full.
      + by rewrite Z.mod_small by lia. }
  - split; try done; [constructor|change (zlen []) with 0; rewrite Z.add_0_r, Z.mod_small by lia; done|].
    intros j Hj _. by apply B.
  - split; try done; [repeat constructor| |].
    + intros k b' Hk _. destruct k as [|k]; [|done]. injection Hk as <-. change (Z.of_nat 0) with 0. rewrite Z.add_0_r, Z.mod_small by lia.
      rewrite B by lia. by rewrite decide_True.
    + intros j Hj Hk. rewrite B by done. rewrite decide_False; [done|]. intros ->. apply (Hk 0); [unfold zlen; cbn; lia|].
      rewrite Z.add_0_r. by apply Z.mod_small.
Qed.

Lemma mod_shift p k n : 0 < n -> ((p + 1) mod n + k) mod n = (p + (k + 1)) mod n.
Proof. intros Hn. rewrite Z.add_mod_idemp_l by lia. f_equal. lia. Qed.

Lemma mod_ne p j k n : 0 < n -> 0 < k - j < n -> (p + j) mod n <> (p + k) mod n.
Proof.
  intros Hn Hk E. assert ((k - j) mod n = 0) as E2.
  { replace (k - j) with (p + k - (p + j)) by lia. rewrite Zminus_mod, E, Z.sub_diag. by apply Z.mod_0_l; lia. }
  rewrite Z.mod_small in E2 by lia. lia.
Qed.

(** A part that wrote at most one block, and the rest; in between others may
    have written elsewhere on the card. *)
Lemma run_rel_app T a c T1 a1 c1 c1' w T2 a2 c2 ws : (length w <= 1)%nat -> 0 <= al_ptr a < g_db g ->
  run_rel T a c T1 a1 c1 w -> (forall j, 0 <= j < g_db g -> block_at g c1' j = block_at g c1 j) -> header_at g c1' = header_at g c1 ->
  run_rel T1 a1 c1' T2 a2 c2 ws -> run_rel T a c T2 a2 c2 (w ++ ws).
Proof.
  intros Hw Hp [A1 A2 A4 A5 A6 A7 A8 A9 A10 A11] Hv Hhv [B1 B2 B4 B5 B6 B7 B8 B9 B10 B11].
  pose proof (go_db g Hg) as Hdb.
  assert (Forall (fun b => written_ok a (al_low T a) b /\ lb_ts b <= al_low T2 a2) ws) as Hws.
  { eapply Forall_impl; [exact B7|]. cbn. intros b ((G & L & O) & U). split; [|done]. split_and!; [congruence|lia|done]. }
  assert (zlen (w ++ ws) = zlen w + zlen ws) as Hz by apply zlen_app.
  split; try done; try congruence; try lia.
  - eapply header_like_trans; [exact A4|by rewrite <- Hhv].
  - apply Forall_app. split; [|done]. eapply Forall_impl; [exact A7|]. cbn. intros b (? & ?). split; [done|lia].
  - destruct w as [|b [|? ?]]; [done| |cbn in Hw; lia]. cbn [app]. constructor; [done|].
    eapply Forall_impl; [exact B7|]. cbn. intros b' ((_ & L & _) & _). inversion A7 as [|?? [_ U] _]; subst. lia.
  - rewrite B9, A9, Hz, Z.add_mod_idemp_l by lia. f_equal. lia.
  - intros k b Hk Hlen. destruct w as [|b0 [|? ?]]; [| |cbn in Hw; lia].
    + change (zlen []) with 0 in *. rewrite Z.add_0_r, Z.mod_small in A9 by done. rewrite <- A9. apply B10; [done|]. rewrite Hz in Hlen. lia.
    + change (zlen [b0]) with 1 in *. rewrite Hz in Hlen. destruct k as [|k].
      * injection Hk as <-. change (Z.of_nat 0) with 0 in *. pose proof (Z.mod_pos_bound (al_ptr a + 0) (g_db g) ltac:(lia)). rewrite <- (A10 0%nat b0) by (done || lia). change (Z.of_nat 0) with 0. rewrite <- Hv by done. apply B11; [done|].
        intros k Hk. rewrite A9, mod_shift by lia. apply not_eq_sym, mod_ne; lia.
      * rewrite Nat2Z.inj_succ, <- Z.add_1_r in *. rewrite <- mod_shift, <- A9 by lia. apply B10; [done|lia].
  - intros j Hj Hk. rewrite B11; [rewrite Hv by done; apply A11; [done|]|done|]; intros k Hkk.
    + apply Hk. rewrite Hz. pose proof (zlen_nonneg ws). lia.
    + rewrite A9, Z.add_mod_idemp_l by lia. rewrite <- Z.add_assoc. apply Hk. rewrite Hz. pose proof (zlen_nonneg w). lia.
Qed.

Lemma al_step_short a o : (length (al_step g a o).2 <= 1)%nat.
Proof. destruct o; cbn; [lia|lia|]. destruct (al_needs a =? 2); cbn; lia. Qed.

Lemma run_sim ops : forall T a c, al_inv g T a -> card_ok g c -> times_from T ops ->
  let '(rs, a', ws) := al_run g a ops in
  exists T' c', log_run (conc g a, c) ops = Ret (rs, (conc g a', c')) /\ run_rel T a c T' a' c' ws /\ outside_same g c c' /\
    flat_map lb_entries ws ++ al_out a' = al_out a ++ accepted ops rs /\ Forall (fun r => r = 0 \/ r = -1) rs.
Proof.
  induction ops as [|o ops IH]; intros T a c Hi Hc Ht; cbn [al_run log_run].
  - exists T, c. split; [done|]. split; [by apply run_rel_nil|]. split; [done|]. split; [|constructor]. cbn. by rewrite app_nil_r.
  - apply times_from_cons in Ht as [Ho Ht]. pose proof (run_rel_step T a c o Hi Hc Ho) as Hs.
    pose proof (al_step_out T a o Hi) as Hout. pose proof (al_step_short a o) as Hsh.
    destruct (al_step g a o) as [[r a1] w]. destruct Hs as (c1 & E1 & R1 & O1). destruct Hout as [Hr Hout]. cbn [snd] in Hsh.
    specialize (IH (op_time T o) a1 c1 (rr_inv _ _ _ _ _ _ _ R1) (rr_card _ _ _ _ _ _ _ R1) Ht).
    destruct (al_run g a1 ops) as [[rs a2] ws]. destruct IH as (T2 & c2 & E2 & R2 & O2 & Hout2 & Hrs).
    exists T2, c2. rewrite E1. obind. rewrite E2. obind. split; [done|].
    split; [eapply run_rel_app; [done|apply (ai_ok _ _ _ Hi)|exact R1|done|done|exact R2]|]. split; [by eapply outside_same_trans|]. split; [|constructor; [tauto|done]].
    rewrite flat_map_app, <- app_assoc, Hout2, app_assoc, Hout, <- app_assoc. f_equal.
    destruct o as [t type data| |]; cbn [accepted]; [destruct (r =? 0)|..]; done.
Qed.
End Runs.

(** ** The log is kept *)

(** A file as [mount_log] leaves it. *)
Definition al_fresh (gen ptr : Z) : alog := {|
  al_gen := gen; al_ptr := ptr; al_needs := 0; al_cur := (0, 0, []); al_alt := (0, 0, []); al_crc := 0; al_acrc := 0 |}.
Definition mounted_file (g : geometry) (gen ptr : Z) : lfile := conc g (al_fresh gen ptr).

Lemma al_fresh_inv g gen ptr : geo_ok g -> 0 <= gen < 2 ^ 32 -> 0 <= ptr < g_db g -> al_inv g 0 (al_fresh gen ptr).
Proof.
  intros Hg Hgen Hp. assert (lb_ok g (0, 0, [])) by (apply lb_empty_ok; done). split; [|done..]. constructor; cbn; try done. by left.
Qed.

Lemma stored_facts g b f : geo_ok g -> lb_ok g b -> lf_block_magic0 f = g_m0 g -> lf_block_magic1 f = g_m1 g -> lf_block_shift f = g_shift g ->
  block_valid f (stored_img g b) = true /\ block_entries (g_bs g) (stored_img g b) = lb_entries b /\
  bl_generation (stored_img g b) = lb_gen b /\ bl_timestamp (stored_img g b) = lb_ts b /\ bl_magic0 (stored_img g b) = g_m0 g.
Proof.
  intros [_ _ _ _ _ Hm0 Hm1] (B1 & B2 & B3 & B4) E0 E1 Es.
  assert (bl_magic0 (stored_img g b) = g_m0 g) as E by (apply blk_magic0; lia).
  split_and!; [|apply blk_entries; [done|lia|done]|by apply blk_generation|apply blk_timestamp; lia|done].
  unfold block_valid. rewrite E, E0, Z.eqb_refl. unfold ft_magic1, ft_crc32.
  change (block_size f) with (Z.shiftl 1 (lf_block_shift f)). rewrite Es. fold (g_bs g). change sizeof_block_footer with 8. cbn [andb].
  assert (get32 (stored_img g b) (g_bs g - 8) = g_m1 g) as -> by (by apply blk_magic1).
  assert (get32 (stored_img g b) (g_bs g - 4) = jd_crc32 (mread (img g b 0) 0 (g_bs g - 4))) as -> by (apply blk_crc; [done|apply u32_range]).
  rewrite E1, Z.eqb_refl. apply Z.eqb_eq. f_equal. by apply blk_checked.
Qed.

Lemma img_entries g b crc : lb_ok g b -> block_entries (g_bs g) (img g b crc) = lb_entries b.
Proof. intros (B1 & B2 & B3 & B4). apply blk_entries; [done|lia|done]. Qed.

Lemma al_run_app g pre : forall a ops, al_run g a (pre ++ ops) =
  let '(rs1, a1, ws1) := al_run g a pre in let '(rs2, a2, ws2) := al_run g a1 ops in (rs1 ++ rs2, a2, ws1 ++ ws2).
Proof.
  induction pre as [|o pre IH]; intros a ops; cbn [al_run app]; [by destruct (al_run g a ops) as [[??]?]|].
  destruct (al_step g a o) as [[r a1] w]. rewrite IH. destruct (al_run g a1 pre) as [[rs1 a2] ws1].
  destruct (al_run g a2 ops) as [[rs2 a3] ws2]. by rewrite app_assoc.
Qed.

Lemma al_run_length g ops : forall a, length (al_run g a ops).1.1 = length ops.
Proof.
  induction ops as [|o ops IH]; intros a; cbn [al_run]; [done|]. destruct (al_step g a o) as [[r a1] w]. specialize (IH a1).
  destruct (al_run g a1 ops) as [[rs a2] ws]. cbn in *. by rewrite IH.
Qed.

Lemma times_from_app T pre ops : times_from T (pre ++ ops) -> times_from T pre.
Proof. revert T. induction pre as [|[] pre IH]; intros T; cbn [app times_from]; [done|..]; [|apply IH..]. intros (? & ? & ?). split; [done|]. split; [done|]. by eapply IH. Qed.

Section Keeps.
Context {D : Type} `{CardLaws D} (g : geometry) (Hg : geo_ok g).

(** An append is refused only while a block waits to be written. *)
Lemma refused_waits a c T pre o post rs a' ws : al_inv g T a -> card_ok g c -> times_from T (pre ++ o :: post) ->
  al_run g a (pre ++ o :: post) = (rs, a', ws) -> rs !! length pre = Some (-1) ->
  exists rs1 f1 c1, log_run (conc g a, c) pre = Ret (rs1, (f1, c1)) /\ lf_needs_flushing f1 <> 0.
Proof.
  intros Hi Hc Ht E Hr. rewrite al_run_app in E. pose proof (run_sim g Hg pre T a c Hi Hc (times_from_app _ _ _ Ht)) as Hs.
  pose proof (al_run_length g pre a) as Hl. destruct (al_run g a pre) as [[rs1 a1] ws1]. destruct Hs as (T1 & c1 & E1 & R1 & _).
  exists rs1, (conc g a1), c1. split; [done|]. cbn [conc lf_needs_flushing al_run] in *.
  pose proof (al_step_out g T1 a1 o (rr_inv _ _ _ _ _ _ _ _ R1)) as Hs. destruct (al_step g a1 o) as [[r a2] w]. destruct Hs as [Hs _].
  destruct (al_run g a2 post) as [[rs2 a3] ws2]. injection E as <- _ _. cbn [fst] in Hl.
  rewrite lookup_app_r, Hl, Nat.sub_diag in Hr by lia. injection Hr as ->. destruct Hs as [?|[_ ?]]; done.
Qed.

Lemma written_entries a0 a' ops rs T' ws : al_out a0 = [] -> al_inv g T' a' -> Forall (lb_ok g) ws ->
  flat_map lb_entries ws ++ al_out a' = al_out a0 ++ accepted ops rs ->
  flat_map (block_entries (g_bs g)) (map (stored_img g) ws ++ [lf_block_alt (conc g a'); lf_block (conc g a')]) = accepted ops rs.
Proof.
  intros Ha0 Hi Hok Hout. pose proof (ai_ok _ _ _ Hi) as [_ _ Hcur Halt _ _]. rewrite Ha0 in Hout. cbn [app] in Hout.
  rewrite flat_map_app. cbn [flat_map conc lf_block lf_block_alt]. rewrite !img_entries, app_nil_r by done.
  change (lb_entries (al_alt a') ++ lb_entries (al_cur a')) with (al_out a'). rewrite <- Hout. f_equal.
  clear -Hok Hg. induction Hok as [|b ws Hb _ IH]; [done|]. cbn [map flat_map]. rewrite IH. f_equal.
  by destruct (stored_facts g b (conc g (al_fresh 0 0)) Hg Hb) as (_ & -> & _).
Qed.

(** C5. A log file on the card keeps what is appended to it: for every
    interleaving of appends with the two halves of the flushes, no assertion
    fails, and the entries of the blocks written, of the block waiting and of
    the block being filled are, one after the other, the appends that returned
    0, in order, with their times, types and data. The last blocks written, as
    many as the file has room for, are on the card, each whole and with a good
    checksum, going round the file from where it was mounted; an append is
    refused only while a block is waiting to be written; and nothing outside
    the file is touched. *)
Theorem lstore_keeps_log gen ptr c ops :
  0 <= gen < 2 ^ 32 -> 0 <= ptr < g_db g -> card_ok g c -> times_from 0 ops ->
  exists rs f c' ws,
    log_run (mounted_file g gen ptr, c) ops = Ret (rs, (f, c')) /\
    flat_map (block_entries (g_bs g)) (ws ++ [lf_block_alt f; lf_block f]) = accepted ops rs /\
    (forall k b, ws !! k = Some b -> zlen ws <= Z.of_nat k + g_db g ->
       block_at g c' ((ptr + Z.of_nat k) mod g_db g) = b /\ block_valid f b = true) /\
    (forall pre o post, ops = pre ++ o :: post -> rs !! length pre = Some (-1) ->
       exists rs1 f1 c1, log_run (mounted_file g gen ptr, c) pre = Ret (rs1, (f1, c1)) /\ lf_needs_flushing f1 <> 0) /\
    outside_same g c c'.
Proof.
  intros Hgen Hp Hc Ht. pose proof (al_fresh_inv g gen ptr Hg Hgen Hp) as Hi.
  pose proof (run_sim g Hg ops 0 _ c Hi Hc Ht) as Hs. destruct (al_run g (al_fresh gen ptr) ops) as [[rs a'] ws] eqn:Er.
  destruct Hs as (T' & c' & E & [R1 R2 R4 R5 R6 R7 R8 R9 R10 R11] & R3 & Hout & Hrs). exists rs, (conc g a'), c', (map (stored_img g) ws).
  assert (Forall (lb_ok g) ws) as Hok by (eapply Forall_impl; [exact R7|]; by intros b ((_ & _ & ?) & _)).
  split; [exact E|]. split; [|split; [|split; [|done]]].
  - by apply (written_entries (al_fresh gen ptr) _ ops rs T').
  - intros k b Hk Hlen. rewrite list_lookup_fmap in Hk. destruct (ws !! k) as [b0|] eqn:Hk0; [|done]. injection Hk as <-.
    unfold zlen in Hlen. rewrite length_map in Hlen. split; [by apply R10|]. apply (stored_facts g b0 (conc g a') Hg); [|done..]. by eapply Forall_lookup_1.
  - intros pre o post -> Hr. by eapply (refused_waits (al_fresh gen ptr) c 0).
Qed.
End Keeps.

(** ** Finding the end of the log at start-up *)

Definition good_block (g : geometry) (b : list Z) : bool := block_valid (mounted_file g 0 0) b.

(** The ring as the blocks written so far leave it: the last one is [l]; up to
    it every block is newer than block 0, and beyond it none is. *)
Record ring_ok {D : Type} `{CardLaws D} (g : geometry) (c : D) (l : Z) : Prop := {
  ro_l : 0 <= l < g_db g;
  ro_first : good_block g (block_at g c 0) = true /\ 0 <= bl_generation (block_at g c 0) /\ 0 <= bl_timestamp (block_at g c 0);
  ro_upto : forall i, 0 < i <= l -> good_block g (block_at g c i) = true /\ block_lt (block_at g c 0) (block_at g c i) = true;
  ro_beyond : forall i, l < i < g_db g -> good_block g (block_at g c i) = true -> block_lt (block_at g c 0) (block_at g c i) = false;
  ro_gen : forall i, 0 <= i < g_db g -> good_block g (block_at g c i) = true ->
    bl_generation (block_at g c i) <= bl_generation (block_at g c l);
}.
Definition ring_blank {D : Type} `{CardLaws D} (g : geometry) (c : D) : Prop :=
  forall i, 0 <= i < g_db g -> good_block g (block_at g c i) = false.

(** What the header of the file says. *)
Record header_says (g : geometry) (hd : list Z) : Prop := {
  hs_magic : mh_magic0 hd = JD_LSTORE_MAGIC0 /\ mh_magic1 hd = JD_LSTORE_MAGIC1 /\ mh_version hd = JD_LSTORE_VERSION /\
    mh_sector_size hd = SECTOR_SIZE;
  hs_blocks : mh_sectors_per_block hd = g_spb g /\ mh_header_blocks hd = g_hb g /\ mh_num_blocks hd = g_hb g + g_db g;
  hs_size : (g_hb g + g_db g) * g_spb g <= g_fsize g / SECTOR_SIZE;
  hs_magics : mh_block_magic0 hd = g_m0 g /\ mh_block_magic1 hd = g_m1 g;
}.

Lemma header_like_field h h' i : header_like h h' -> (0 <= i /\ i + 4 <= 28) \/ (32 <= i /\ i + 4 <= 512) -> get32 h' i = get32 h i.
Proof.
  intros [E1 E2] Hi. unfold get32. f_equal. destruct Hi as [Hi|Hi].
  - replace i with (0 + i) by lia. rewrite <- (mread_mread h' 0 28 i 4), <- (mread_mread h 0 28 i 4), E1 by lia. done.
  - replace i with (32 + (i - 32)) by lia. rewrite <- (mread_mread h' 32 480 (i - 32) 4), <- (mread_mread h 32 480 (i - 32) 4), E2 by lia. done.
Qed.

Lemma header_like_says g h h' : header_like h h' -> header_says g h -> header_says g h'.
Proof.
  intros Hh [(A1 & A2 & A3 & A4) (B1 & B2 & B3) C1 (D1 & D2)].
  unfold mh_magic0, mh_magic1, mh_version, mh_sector_size, mh_sectors_per_block, mh_header_blocks, mh_num_blocks, mh_block_magic0, mh_block_magic1 in *.
  split; unfold mh_magic0, mh_magic1, mh_version, mh_sector_size, mh_sectors_per_block, mh_header_blocks, mh_num_blocks, mh_block_magic0, mh_block_magic1;
    rewrite ?(header_like_field h h') by (done || lia); done.
Qed.

Section Mount.
Context {D : Type} `{CardLaws D} (g : geometry) (Hg : geo_ok g).

(** The file while it is being mounted. *)
Record mounting (f : lfile) : Prop := {
  mt_off : lf_sector_off f = g_off g; mt_hb : lf_header_blocks f = g_hb g; mt_db : lf_data_blocks f = g_db g;
  mt_shift : lf_block_shift f = g_shift g; mt_m0 : lf_block_magic0 f = g_m0 g; mt_m1 : lf_block_magic1 f = g_m1 g;
}.

Lemma mounting_valid f b : mounting f -> block_valid f b = good_block g b.
Proof. intros [_ _ _ Es E0 E1]. unfold good_block, block_valid, ft_magic1, ft_crc32, block_size. cbn. by rewrite Es, E0, E1. Qed.

Lemma mounting_set f b alt : mounting f -> mounting (lf_set_blocks f b alt).
Proof. intros []. by split. Qed.

(** The block in memory after a read: cleared unless it is good. *)
Definition fetched (b : list Z) : list Z := if good_block g b then b else put64 (put32 (put32 b 0 0) 4 0) 8 0.

Lemma read_fetched c f idx : card_ok g c -> 0 <= idx < g_db g -> mounting f ->
  exists r c', image c' = image c /\ read_block c 0 f idx = Ret (r, lf_set_blocks f (fetched (block_at g c idx)) (lf_block_alt f), c').
Proof.
  intros Hc Hi Hf. pose proof Hf as [E1 E2 E3 E4 _ _]. destruct (read_block_spec g Hg c f idx Hc Hi E1 E2 E3 E4) as (c' & Hc' & E).
  cbv zeta in E. rewrite (mounting_valid _ _ Hf) in E. unfold fetched. destruct (good_block g (block_at g c idx)); cbn [negb] in E; by eexists _, c'.
Qed.

Lemma zlen_block_at c i : card_ok g c -> 0 <= i < g_db g -> zlen (block_at g c i) = g_bs g.
Proof.
  intros Hc Hi. pose proof (block_pos_step g Hg i). pose proof (block_pos_le g Hg (i + 1) (g_db g) ltac:(lia)). destruct (block_pos_ends g Hg) as [P1 P2].
  pose proof (block_pos_le g Hg 0 i ltac:(lia)). pose proof (go_off g Hg). pose proof (g_sizes g Hg). unfold card_ok in Hc. apply zlen_mread; lia.
Qed.

Lemma fetched_bad b : 16 <= zlen b -> good_block g b = false ->
  bl_magic0 (fetched b) = 0 /\ bl_generation (fetched b) = 0 /\ bl_timestamp (fetched b) = 0.
Proof.
  intros Hl Hbad. unfold fetched. rewrite Hbad. unfold bl_magic0, bl_generation, bl_timestamp, get32, get64, put32, put64.
  assert (zlen (mwrite b 0 (le_bytes 4 0)) = zlen b) as H1 by (apply zlen_mwrite; rewrite ?zlen_le_bytes; lia).
  assert (zlen (mwrite (mwrite b 0 (le_bytes 4 0)) 4 (le_bytes 4 0)) = zlen b) as H2 by (rewrite <- H1; apply zlen_mwrite; rewrite ?zlen_le_bytes; lia).
  assert (forall m off k, 0 <= off -> off + Z.of_nat k <= zlen m -> mread (mwrite m off (le_bytes k 0)) off (Z.of_nat k) = le_bytes k 0) as Hr.
  { intros m off k ? ?. pose proof (mread_mwrite_eq m off (le_bytes k 0)) as E. rewrite zlen_le_bytes in E. apply E.
    rewrite length_le_bytes. unfold zlen in *. lia. }
  pose proof (Hr b 0 4%nat) as R1. pose proof (Hr (mwrite b 0 (le_bytes 4 0)) 4 4%nat) as R2.
  pose proof (Hr (mwrite (mwrite b 0 (le_bytes 4 0)) 4 (le_bytes 4 0)) 8 8%nat) as R3.
  change (Z.of_nat 4) with 4 in *. change (Z.of_nat 8) with 8 in *. split_and!.
  - rewrite !(mread_mwrite_out _ _ _ 0 4) by (rewrite ?zlen_le_bytes; lia || (rewrite ?zlen_le_bytes, ?H2, ?H1; lia)). by rewrite R1 by lia.
  - rewrite (mread_mwrite_out _ 8) by (rewrite ?zlen_le_bytes; lia). by rewrite R2 by lia.
  - by rewrite R3 by lia.
Qed.

Lemma boundry_loop_spec start L fuel : forall c f l r, card_ok g c -> mounting f -> 0 <= l <= L -> L <= r < g_db g ->
  r - l < 2 ^ (Z.of_nat fuel - 1) ->
  (forall i, 0 < i <= L -> block_lt start (fetched (block_at g c i)) = true) ->
  (forall i, L < i < g_db g -> block_lt start (fetched (block_at g c i)) = false) ->
  exists b c', image c' = image c /\ boundry_loop fuel c 0 f start l r = Ret (L, lf_set_blocks f b (lf_block_alt f), c').
Proof.
  induction fuel as [|fuel IH]; intros c f l r Hc Hf Hl Hr Hd Hup Hbe.
  { change (2 ^ (Z.of_nat 0 - 1)) with 0 in Hd. lia. }
  cbn [boundry_loop]. destruct (Z.ltb_spec l r) as [Hlr|Hlr].
  2: { exists (lf_block f), c. split; [done|]. replace L with l by lia. by destruct f. }
  destruct fuel as [|fuel']; [change (2 ^ (Z.of_nat 1 - 1)) with 1 in Hd; lia|]. set (fuel := S fuel') in *.
  set (m := (l + r) / 2 + 1). assert (l < m <= r) as Hm by (unfold m; Z.to_euclidean_division_equations; lia).
  destruct (read_fetched c f m Hc ltac:(lia) Hf) as (rr & c1 & Hc1 & ->). obind. cbn [lf_block lf_set_blocks].
  assert (card_ok g c1) as Hc1' by (unfold card_ok; by rewrite Hc1).
  assert (2 ^ (Z.of_nat (S fuel) - 1) = 2 * 2 ^ (Z.of_nat fuel - 1)) as Hpow.
  { rewrite <- Z.pow_succ_r by (unfold fuel; lia). f_equal. lia. }
  rewrite Hpow in Hd.
  assert (forall i, block_at g c1 i = block_at g c i) as Hb by (intros i; unfold block_at; by rewrite Hc1).
  set (f1 := lf_set_blocks f (fetched (block_at g c m)) (lf_block_alt f)).
  destruct (block_lt start (fetched (block_at g c m))) eqn:Elt.
  - assert (m <= L) by (destruct (decide (m <= L)); [done|]; rewrite Hbe in Elt by lia; done).
    destruct (IH c1 f1 m r) as (b & c2 & Hc2 & E); try done; try lia; [by apply mounting_set|unfold m; Z.to_euclidean_division_equations; lia|
      intros i Hi; rewrite Hb; by apply Hup|intros i Hi; rewrite Hb; by apply Hbe|].
    exists b, c2. split; [by rewrite Hc2|]. exact E.
  - assert (L < m) by (destruct (decide (L < m)); [done|]; rewrite Hup in Elt by lia; done).
    destruct (IH c1 f1 l (m - 1)) as (b & c2 & Hc2 & E); try done; try lia; [by apply mounting_set|unfold m; Z.to_euclidean_division_equations; lia|
      intros i Hi; rewrite Hb; by apply Hup|intros i Hi; rewrite Hb; by apply Hbe|].
    exists b, c2. split; [by rewrite Hc2|]. exact E.
Qed.

(** The ring gives the position: after the last block, in a new generation. *)
Lemma find_boundry_ring c f l : card_ok g c -> mounting f -> lf_block_ptr f = 0 -> ring_ok g c l ->
  bl_generation (block_at g c l) + 1 < 0xffffffff ->
  exists b c', image c' = image c /\
    find_boundry c 0 f = Ret (lf_set_position (lf_set_blocks f b (lf_block_alt f)) (bl_generation (block_at g c l) + 1) (l + 1), c').
Proof.
  intros Hc Hf Hp0 [R1 (R2 & R2g & R2t) R3 R4 R5] Hgen. pose proof (g_sizes g Hg) as (Hbs & _). pose proof (go_db g Hg) as Hdb.
  unfold find_boundry. destruct (read_fetched c f 0 Hc ltac:(lia) Hf) as (r0 & c1 & Hc1 & ->). obind. cbn [lf_block lf_set_blocks].
  assert (fetched (block_at g c 0) = block_at g c 0) as -> by (unfold fetched; by rewrite R2).
  assert (bl_magic0 (block_at g c 0) = g_m0 g) as Em.
  { unfold good_block, block_valid in R2. destruct (_ && _) eqn:E; [|done]. bool_to_prop. done. }
  rewrite Em, (proj2 (Z.eqb_neq _ _)) by (pose proof (go_m0 g Hg); lia).
  set (f1 := lf_set_blocks f (block_at g c 0) (lf_block_alt f)).
  assert (card_ok g c1) as Hc1' by (unfold card_ok; by rewrite Hc1).
  assert (forall i, block_at g c1 i = block_at g c i) as Hb1 by (intros i; unfold block_at; by rewrite Hc1).
  assert (s32 (lf_data_blocks f1 - 1) = g_db g - 1) as Hs by (cbn; rewrite (mt_db f Hf); word_lia).
  change (lf_data_blocks f) with (lf_data_blocks f1). rewrite Hs.
  destruct (boundry_loop_spec (block_at g c 0) l 33 c1 f1 0 (g_db g - 1)) as (b & c2 & Hc2 & ->); try done; try lia.
  - by apply mounting_set.
  - intros i Hi. rewrite Hb1. destruct (R3 i Hi) as [Hv Hlt]. unfold fetched. by rewrite Hv.
  - intros i Hi. rewrite Hb1. destruct (good_block g (block_at g c i)) eqn:Ev.
    + unfold fetched. rewrite Ev. by apply R4.
    + destruct (fetched_bad (block_at g c i)) as (_ & F2 & F3); [rewrite zlen_block_at by (done || lia); lia|done|].
      unfold block_lt. rewrite F2, F3. rewrite (proj2 (Z.ltb_ge _ _)), (proj2 (Z.ltb_ge (bl_timestamp _) 0)), andb_false_r by lia. done.
  - obind. assert (card_ok g c2) as Hc2' by (unfold card_ok; by rewrite Hc2).
    assert (mounting (lf_set_blocks f1 b (lf_block_alt f1))) as Hf2 by (by apply mounting_set, mounting_set).
    destruct (read_fetched c2 _ l Hc2' R1 Hf2) as (r2 & c3 & Hc3 & ->). obind. cbn [lf_block lf_set_blocks].
    assert (block_at g c2 l = block_at g c l) as -> by (unfold block_at; by rewrite Hc2, Hc1).
    assert (good_block g (block_at g c l) = true) as Hvl by (destruct (decide (l = 0)) as [->|]; [done|apply R3; lia]).
    assert (fetched (block_at g c l) = block_at g c l) as -> by (unfold fetched; by rewrite Hvl).
    pose proof (R5 0 ltac:(lia) R2). rewrite u32_small by lia. rewrite (proj2 (Z.ltb_lt _ _)) by lia.
    eexists _, c3. split; [by rewrite Hc3, Hc2, Hc1|]. cbn. rewrite Hp0. change (s32 0) with 0.
    rewrite (proj2 (Z.eqb_neq (l + 1) 0)) by lia. done.
Qed.

Lemma find_boundry_blank c f : card_ok g c -> mounting f -> ring_blank g c ->
  exists b c', image c' = image c /\ find_boundry c 0 f = Ret (lf_set_position (lf_set_blocks f b (lf_block_alt f)) 1 0, c').
Proof.
  intros Hc Hf Hb. pose proof (go_db g Hg) as Hdb. unfold find_boundry. destruct (read_fetched c f 0 Hc ltac:(lia) Hf) as (r0 & c1 & Hc1 & ->).
  obind. cbn [lf_block lf_set_blocks]. pose proof (g_sizes g Hg).
  destruct (fetched_bad (block_at g c 0)) as (F1 & _); [rewrite zlen_block_at by (done || lia); lia|by apply Hb; lia|].
  rewrite F1. change (0 =? 0) with true. cbv iota. by eexists _, c1.
Qed.
End Mount.

Section Restart.
Context {D : Type} `{CardLaws D} (g : geometry) (Hg : geo_ok g).

Lemma shift_loop_spb : shift_loop 40 0 (g_spb g) = Ret (g_shift g - SECTOR_SHIFT) /\ Z.shiftl 1 (g_shift g - SECTOR_SHIFT) = g_spb g /\
  g_spb g <= 8.
Proof. unfold g_spb, SECTOR_SHIFT. destruct (g_shift_cases g Hg) as [->|[->|[->| ->]]]; split_and!; vm_compute; (done || discriminate). Qed.

Lemma validate_good f hd : lf_size f = g_fsize g -> header_says g hd -> validate_header f hd = Ret (Some (lf_set_shift f (g_shift g))).
Proof.
  intros Ef [(A1 & A2 & A3 & A4) (B1 & B2 & B3) C1 _]. pose proof Hg as [Hs _ Hhb Hdb He _ _]. pose proof (g_sizes g Hg) as (_ & _ & Hspb).
  pose proof (go_off g Hg). unfold validate_header. rewrite A1, A2, A3, A4, !Z.eqb_refl. cbn [andb negb]. rewrite B1, B3, Ef.
  rewrite u32_small, Z.gtb_ltb, (proj2 (Z.ltb_ge _ _)) by nia.
  destruct shift_loop_spb as (-> & E & ?). obind. rewrite E. rewrite u32_small by lia.
  rewrite Z.gtb_ltb, (proj2 (Z.ltb_ge 8 _)), Z.eqb_refl by lia. cbn [orb negb]. rewrite u8_small by (unfold SECTOR_SHIFT; lia).
  by replace (g_shift g - SECTOR_SHIFT + SECTOR_SHIFT) with (g_shift g) by lia.
Qed.

Lemma empty_img f : lf_block_shift f = g_shift g -> lf_block_magic0 f = g_m0 g -> lf_block_magic1 f = g_m1 g ->
  empty_block f = img g (0, 0, []) 0.
Proof.
  intros Es E0 E1. unfold empty_block. change (block_size f) with (Z.shiftl 1 (lf_block_shift f)). rewrite Es, E0, E1. fold (g_bs g).
  pose proof (g_sizes g Hg) as (Hbs & _).
  assert (replicate (Z.to_nat (g_bs g)) 0 = replicate 4 0 ++ replicate (Z.to_nat (g_bs g) - 12) 0 ++ replicate 4 0 ++ replicate 4 0) as ->.
  { rewrite <- !replicate_add. f_equal. lia. }
  unfold put32. rewrite mwrite_head by done.
  rewrite (app_assoc (le_bytes 4 _)), (mwrite_mid _ (replicate 4 0)); [|rewrite zlen_app, zlen_le_bytes, zlen_replicate; unfold sizeof_block_footer; lia|done].
  unfold img, blk, lb_gen, lb_ts, lb_entries. cbn [fst snd enc flat_map app]. rewrite <- app_assoc. change (zlen []) with 0. rewrite Z.sub_0_r.
  assert (le_bytes 4 0 = replicate 4 0 /\ le_bytes 8 0 = replicate 8 0) as [-> ->] by done. f_equal.
  rewrite (app_assoc (replicate 4 0)), (app_assoc (replicate 4 0 ++ replicate 8 0)), <- !replicate_add. do 2 f_equal.
  unfold JD_LSTORE_BLOCK_OVERHEAD, sizeof_block_header, sizeof_block_footer. lia.
Qed.

(** Where the next block goes, and its generation. *)
Definition resumes (c : D) (gen ptr : Z) : Prop :=
  ring_blank g c /\ gen = 1 /\ ptr = 0 \/
  exists l, ring_ok g c l /\ gen = bl_generation (block_at g c l) + 1 /\ ptr = l + 1 /\ gen < 0xffffffff.

Lemma mount_log_spec c seed devinfo name sh gen ptr : card_ok g c -> header_says g (header_at g c) -> resumes c gen ptr ->
  exists c', image c' = image c /\
    mount_log c 0 seed (lf_set_size lf0 (g_fsize g) (g_off g)) devinfo name sh = Ret (mounted_file g gen ptr, c', seed).
Proof.
  intros Hc Hh Hr. unfold mount_log, mount_header, read_sectors. cbn [lf_sector_off lf_set_size]. rewrite Z.add_0_r. change (0 =? 0) with true. cbv iota.
  pose proof (go_off g Hg) as Ho. pose proof (go_end g Hg) as He. pose proof (go_db g Hg). pose proof (go_hb g Hg). pose proof (g_sizes g Hg) as (_ & _ & Hs).
  unfold card_ok in Hc. rewrite u32_small by nia. destruct (disk_read_image c (g_off g) 1) as (c1 & -> & Hc1); [lia|lia|nia|].
  change (0 =? 0) with true. cbv iota. obind. change (512 * 1) with 512. fold (header_at g c).
  rewrite (validate_good (lf_set_size lf0 (g_fsize g) (g_off g)) _ eq_refl Hh). obind. pose proof Hh as [_ (B1 & B2 & B3) _ (D1 & D2)]. rewrite B2, B3, D1, D2.
  replace (g_hb g + g_db g - g_hb g) with (g_db g) by lia. rewrite u32_small by lia.
  set (f := lf_set_geometry _ _ _ _ _). set (f1 := lf_set_blocks f _ _).
  assert (mounting g f1) as Hf by (by split). assert (card_ok g c1) as Hc1' by (unfold card_ok; by rewrite Hc1).
  assert (exists b c2, image c2 = image c1 /\ find_boundry c1 0 f1 = Ret (lf_set_position (lf_set_blocks f1 b (lf_block_alt f1)) gen ptr, c2))
    as (b & c2 & Hc2 & ->).
  { assert (forall i, block_at g c1 i = block_at g c i) as Hb by (intros i; unfold block_at; by rewrite Hc1).
    destruct Hr as [(Hbl & -> & ->)|(l & [R1 R2 R3 R4 R5] & -> & -> & Hgl)].
    - apply (find_boundry_blank g Hg); [done|done|]. intros i Hi. rewrite Hb. by apply Hbl.
    - rewrite <- Hb in Hgl |- *. apply (find_boundry_ring g Hg); [done|done|done| |exact Hgl].
      split; rewrite ?Hb; [done|done|intros i; rewrite Hb; apply R3|intros i; rewrite Hb; apply R4|intros i; rewrite Hb; apply R5]. }
  obind. exists c2. split; [by rewrite Hc2|]. rewrite empty_img by done. done.
Qed.

(** The ring after blocks of a new generation have been written to it. *)
Lemma ring_position c c' ptr l' (ws : list lblock) i : 0 <= ptr ->
  (forall k b, ws !! k = Some b -> zlen ws <= Z.of_nat k + g_db g -> block_at g c' ((ptr + Z.of_nat k) mod g_db g) = stored_img g b) ->
  (forall j, 0 <= j < g_db g -> (forall k, 0 <= k < zlen ws -> (ptr + k) mod g_db g <> j) -> block_at g c' j = block_at g c j) ->
  l' = (ptr + zlen ws - 1) mod g_db g -> 0 <= i < g_db g ->
  let d := (l' - i) mod g_db g in
  (d < zlen ws -> exists b, ws !! Z.to_nat (zlen ws - 1 - d) = Some b /\ block_at g c' i = stored_img g b) /\
  (zlen ws <= d -> block_at g c' i = block_at g c i).
Proof.
  intros Hp Hnew Hold -> Hi d. pose proof (go_db g Hg) as Hdb. pose proof (Z.mod_pos_bound ((ptr + zlen ws - 1) mod g_db g - i) (g_db g) ltac:(lia)) as Hd. fold d in Hd.
  assert ((ptr + (zlen ws - 1 - d)) mod g_db g = i) as Ei.
  { replace (ptr + (zlen ws - 1 - d)) with (ptr + zlen ws - 1 - d) by lia. rewrite <- Zminus_mod_idemp_l. unfold d.
    rewrite Zminus_mod_idemp_r. replace (_ - (_ - i)) with i by lia. by apply Z.mod_small. }
  split; intros Hdl.
  - destruct (lookup_lt_is_Some_2 ws (Z.to_nat (zlen ws - 1 - d))) as [b Hb]; [unfold zlen in *; lia|]. exists b. split; [done|].
    rewrite <- (Hnew _ _ Hb) by (unfold zlen in *; lia). f_equal. rewrite <- Ei. f_equal. unfold zlen in *. lia.
  - apply Hold; [done|]. intros k Hk E. rewrite <- Ei in E. apply (mod_ne ptr (zlen ws - 1 - d) k (g_db g)); [lia|lia|done].
Qed.

Lemma stored_good b : lb_ok g b -> good_block g (stored_img g b) = true /\ bl_generation (stored_img g b) = lb_gen b /\
  bl_timestamp (stored_img g b) = lb_ts b.
Proof. intros Hb. destruct (stored_facts g b (mounted_file g 0 0) Hg Hb) as (? & _ & ? & ? & _); done. Qed.

Lemma block_lt_gen a b : bl_generation a < bl_generation b -> block_lt a b = true.
Proof. intros Hl. unfold block_lt. by rewrite (proj2 (Z.ltb_lt _ _)). Qed.
Lemma block_lt_older a b : bl_generation b < bl_generation a -> block_lt a b = false.
Proof. intros Hl. unfold block_lt. rewrite (proj2 (Z.ltb_ge _ _)), (proj2 (Z.eqb_neq _ _)) by lia. done. Qed.
Lemma block_lt_same a b : bl_generation a = bl_generation b -> block_lt a b = (bl_timestamp a <? bl_timestamp b).
Proof. intros E. unfold block_lt. by rewrite E, Z.ltb_irrefl, Z.eqb_refl. Qed.

Lemma sorted_lookup {A} (R : A -> A -> Prop) (l : list A) : StronglySorted R l -> forall i j x y,
  l !! i = Some x -> l !! j = Some y -> (i < j)%nat -> R x y.
Proof.
  induction 1 as [|z l _ IH Hz]; intros i j x y Hi Hj Hij; [done|]. destruct j as [|j]; [lia|]. destruct i as [|i].
  - injection Hi as <-. by eapply Forall_lookup_1.
  - apply (IH i j); [done|done|lia].
Qed.

Lemma ring_after c c' gen ptr (ws : list lblock) : resumes c gen ptr -> 0 <= ptr < g_db g -> ws <> [] ->
  Forall (fun b => lb_ok g b /\ lb_gen b = gen) ws -> StronglySorted (fun b b' => lb_ts b < lb_ts b') ws ->
  (forall k b, ws !! k = Some b -> zlen ws <= Z.of_nat k + g_db g -> block_at g c' ((ptr + Z.of_nat k) mod g_db g) = stored_img g b) ->
  (forall j, 0 <= j < g_db g -> (forall k, 0 <= k < zlen ws -> (ptr + k) mod g_db g <> j) -> block_at g c' j = block_at g c j) ->
  let l' := (ptr + zlen ws - 1) mod g_db g in ring_ok g c' l' /\ bl_generation (block_at g c' l') = gen.
Proof.
  intros Hr Hp Hne Hok Hs Hnew Hold l'. pose proof (go_db g Hg) as Hdb.
  assert (0 < zlen ws) as Hn by (unfold zlen; destruct ws; [done|cbn; lia]). set (n := zlen ws) in *.
  assert (0 <= l' < g_db g) as Hl' by (apply Z.mod_pos_bound; lia).
  pose proof (fun i => ring_position c c' ptr l' ws i ltac:(lia) Hnew Hold eq_refl) as Hpos. cbv zeta in Hpos. fold n in Hpos.
  (* blocks that were there before are good only with an older generation *)
  assert (forall i, 0 <= i < g_db g -> good_block g (block_at g c i) = true -> bl_generation (block_at g c i) < gen) as Hprev.
  { destruct Hr as [(Hb & _ & _)|(l & [_ _ _ _ R5] & -> & _ & _)]; intros i Hi Hv; [by rewrite Hb in Hv|]. specialize (R5 i Hi Hv). lia. }
  assert (forall k b, ws !! k = Some b -> lb_ok g b /\ lb_gen b = gen) as Hw by (intros k b Hk; by apply (Forall_lookup_1 _ _ _ _ Hok Hk)).
  assert (forall i, 0 <= i < g_db g -> let d := (l' - i) mod g_db g in d < n -> exists b, ws !! Z.to_nat (n - 1 - d) = Some b /\
    good_block g (block_at g c' i) = true /\ bl_generation (block_at g c' i) = gen /\ bl_timestamp (block_at g c' i) = lb_ts b /\ 0 <= lb_ts b /\ 0 <= gen) as Hn1.
  { intros i Hi d Hd. destruct (proj1 (Hpos i Hi) Hd) as (b & Hb & ->). destruct (Hw _ _ Hb) as [Hbo <-].
    destruct (stored_good b Hbo) as (? & ? & ?). exists b. destruct Hbo as (? & ? & _). split_and!; try done; lia. }
  assert (forall i, 0 <= i <= l' -> (l' - i) mod g_db g = l' - i) as Hd1 by (intros i Hi; apply Z.mod_small; lia).
  assert (forall i, l' < i < g_db g -> (l' - i) mod g_db g = l' - i + g_db g) as Hd2.
  { intros i Hi. rewrite <- (Z.mod_add _ 1) by lia. rewrite Z.mul_1_l. apply Z.mod_small. lia. }
  assert (bl_generation (block_at g c' l') = gen) as Hgl.
  { destruct (Hn1 l' Hl') as (b & _ & _ & E & _); [rewrite Hd1 by lia; lia|done]. }
  split; [|done]. pose proof (sorted_lookup _ _ Hs) as Hsl.
  destruct (Z.ltb_spec l' n) as [Hln|Hln].
  - (* block 0 was written: the last turn starts with it *)
    destruct (Hn1 0 ltac:(lia)) as (b0 & B0 & V0 & G0 & T0 & P0 & P1); [rewrite Hd1 by lia; lia|]. rewrite Hd1, Z.sub_0_r in B0 by lia.
    split; [done|split_and!; [done|lia|lia]|..].
    + intros i Hi. destruct (Hn1 i ltac:(lia)) as (b & B & V & G & T & _); [rewrite Hd1 by lia; lia|]. rewrite Hd1 in B by lia. split; [done|].
      rewrite block_lt_same by congruence. rewrite T0, T. apply Z.ltb_lt. apply (Hsl _ _ _ _ B0 B). lia.
    + intros i Hi Hv. destruct (Z.ltb_spec (l' - i + g_db g) n) as [Hd|Hd].
      * destruct (Hn1 i ltac:(lia)) as (b & B & V & G & T & _); [rewrite Hd2 by lia; lia|]. rewrite Hd2 in B by lia.
        rewrite block_lt_same by congruence. rewrite T0, T. apply Z.ltb_ge. apply Z.lt_le_incl, (Hsl _ _ _ _ B B0). lia.
      * assert (block_at g c' i = block_at g c i) as Ei by (apply Hpos; [lia|rewrite Hd2 by lia; lia]). rewrite Ei in *.
        apply block_lt_older. rewrite G0. apply Hprev; [lia|done].
    + intros i Hi Hv. rewrite Hgl. destruct (Z.ltb_spec ((l' - i) mod g_db g) n) as [Hd|Hd].
      * destruct (Hn1 i Hi Hd) as (b & _ & _ & -> & _). lia.
      * rewrite (proj2 (Hpos i Hi) Hd) in *. apply Z.lt_le_incl, Hprev; done.
  - (* the file has not been gone round: the new blocks follow the old ones *)
    assert (l' = ptr + n - 1) as El.
    { unfold l'. apply Z.mod_small. split; [lia|]. destruct (Z.ltb_spec (ptr + n - 1) (g_db g)); [done|]. exfalso.
      assert (l' <= n - 1) as Hle; [|lia]. unfold l'. replace (ptr + n - 1) with (n - 1 - (g_db g - ptr) + 1 * g_db g) by lia. rewrite Z.mod_add by lia.
      etransitivity; [apply Z.mod_le; lia|lia]. }
    destruct Hr as [(_ & _ & ->)|(l & [R1 (R2 & R2g & R2t) R3 R4 R5] & Egen & -> & _)]; [lia|].
    assert (forall i, 0 <= i < g_db g -> i <= l \/ l' < i -> block_at g c' i = block_at g c i) as Hsame.
    { intros i Hi [Hil|Hil]; apply Hpos; [lia|rewrite Hd1 by lia; lia|lia|rewrite Hd2 by lia; lia]. }
    rewrite <- (Hsame 0) in R2, R2g, R2t by lia.
    assert (bl_generation (block_at g c' 0) < gen) as G0 by (rewrite (Hsame 0) in * by lia; apply Hprev; [lia|done]).
    split; [done|done|..].
    + intros i Hi. destruct (Z.leb_spec i l) as [Hil|Hil].
      * rewrite !Hsame by lia. apply R3. lia.
      * destruct (Hn1 i ltac:(lia)) as (b & B & V & G & T & _); [rewrite Hd1 by lia; lia|]. split; [done|]. apply block_lt_gen. by rewrite G.
    + intros i Hi. rewrite !Hsame by lia. apply R4. lia.
    + intros i Hi Hv. rewrite Hgl. destruct (Z.ltb_spec ((l' - i) mod g_db g) n) as [Hd|Hd].
      * destruct (Hn1 i Hi Hd) as (b & _ & _ & -> & _). lia.
      * rewrite (proj2 (Hpos i Hi) Hd) in *. apply Z.lt_le_incl, Hprev; done.
Qed.

(** C11. The log goes on after a restart: when the card holds a log whose last
    block is not the last of the file (or none yet), mounting it does not
    change the card and continues right after the last block, in a generation
    above all that are stored; and after any appends and flushes, with blocks
    begun in different milliseconds, the card holds a log of the same kind, so
    that the next start finds its end again - whatever the moment at which the
    power goes between two steps, and also when the file has been gone round. *)
Theorem lstore_restart_resumes c seed devinfo name sh gen ptr ops :
  card_ok g c -> header_says g (header_at g c) -> resumes c gen ptr -> 0 <= ptr < g_db g -> 0 <= gen -> times_from 0 ops ->
  exists c0 rs f c' ws,
    mount_log c 0 seed (lf_set_size lf0 (g_fsize g) (g_off g)) devinfo name sh = Ret (mounted_file g gen ptr, c0, seed) /\
    image c0 = image c /\
    log_run (mounted_file g gen ptr, c0) ops = Ret (rs, (f, c')) /\
    flat_map (block_entries (g_bs g)) (ws ++ [lf_block_alt f; lf_block f]) = accepted ops rs /\
    (forall k b, ws !! k = Some b -> zlen ws <= Z.of_nat k + g_db g -> block_at g c' ((ptr + Z.of_nat k) mod g_db g) = b) /\
    header_says g (header_at g c') /\
    (StronglySorted (fun b b' => bl_timestamp b < bl_timestamp b') ws -> ws <> [] ->
       let l := (ptr + zlen ws - 1) mod g_db g in
       ring_ok g c' l /\ lf_block_ptr f = (l + 1) mod g_db g /\ bl_generation (block_at g c' l) = gen).
Proof.
  intros Hc Hh Hr Hp Hgen Ht.
  destruct (mount_log_spec c seed devinfo name sh gen ptr Hc Hh Hr) as (c0 & Hc0 & ->).
  assert (0 <= gen < 2 ^ 32) as Hgen' by (destruct Hr as [(_ & -> & _)|(l & _ & _ & _ & ?)]; lia).
  pose proof (al_fresh_inv g gen ptr Hg Hgen' Hp) as Hi. assert (card_ok g c0) as Hc0' by (unfold card_ok; by rewrite Hc0).
  pose proof (run_sim g Hg ops 0 _ c0 Hi Hc0' Ht) as Hs. destruct (al_run g (al_fresh gen ptr) ops) as [[rs a'] ws] eqn:Er.
  destruct Hs as (T' & c' & E & [R1 R2 R4 R5 R6 R7 R8 R9 R10 R11] & R3 & Hout & Hrs). exists c0, rs, (conc g a'), c', (map (stored_img g) ws).
  assert (Forall (fun b => lb_ok g b /\ lb_gen b = gen) ws) as Hok by (eapply Forall_impl; [exact R7|]; by intros b ((? & _ & ?) & _)).
  split; [done|]. split; [done|]. split; [exact E|]. assert (zlen (map (stored_img g) ws) = zlen ws) as Hz by (unfold zlen; by rewrite length_map).
  rewrite Hz. assert (forall i, block_at g c0 i = block_at g c i) as Hb by (intros i; unfold block_at; by rewrite Hc0).
  split; [|split; [|split]].
  - apply (written_entries g Hg (al_fresh gen ptr) _ ops rs T'); [done|done| |done]. eapply Forall_impl; [exact Hok|]. by intros b [? _].
  - intros k b Hk. rewrite list_lookup_fmap in Hk. destruct (ws !! k) as [b0|] eqn:Hk0; [|done]. injection Hk as <-. by apply R10.
  - eapply header_like_says; [exact R4|]. unfold header_at in *. by rewrite Hc0.
  - intros Hst Hne l. assert (ws <> []) as Hne' by (by intros ->). cbn [conc lf_block_ptr].
    destruct (ring_after c c' gen ptr ws Hr Hp Hne' Hok) as [Hring Hg']; [|exact R10|intros j Hj Hk; rewrite <- Hb; by apply R11|].
    + clear -Hst Hok Hg. induction Hok as [|b ws [Hbo _] Hok IH]; [constructor|]. cbn [map] in Hst. inversion Hst as [|?? Hst' Hall]; subst.
      constructor; [by apply IH|]. rewrite Forall_map, Forall_forall in Hall. rewrite Forall_forall in Hok. apply Forall_forall. intros b' Hin.
      destruct (Hok b' Hin) as [Hbo' _]. specialize (Hall b' Hin). change (bl_timestamp (stored_img g b) < bl_timestamp (stored_img g b')) in Hall.
      destruct (stored_good b Hbo) as (_ & _ & ?), (stored_good b' Hbo') as (_ & _ & ?). lia.
    + split; [exact Hring|]. split; [|exact Hg']. rewrite R9. unfold l. cbn [al_fresh al_ptr]. rewrite Z.add_mod_idemp_l by (destruct Hg; lia). f_equal. lia.
Qed.
End Restart.

(** ** The panic handler *)

Section PanicSafe.
Context {D : Type} `{Card D}.

(** A mounted file: its position is in the file, its blocks are whole and
    between their magic numbers. *)
Record file_whole (f : lfile) : Prop := {
  fw_shift : 9 <= lf_block_shift f <= 12;
  fw_ptr : 0 <= lf_block_ptr f < lf_data_blocks f;
  fw_db : lf_data_blocks f < 2 ^ 32;
  fw_block : zlen (lf_block f) = block_size f /\ mread (lf_block f) (block_size f - 8) 4 = le_bytes 4 (lf_block_magic1 f);
  fw_alt : zlen (lf_block_alt f) = block_size f /\ mread (lf_block_alt f) (block_size f - 8) 4 = le_bytes 4 (lf_block_magic1 f);
  fw_data : 0 <= lf_data_ptr f <= block_data_size f;
}.

(** The characters of the open entry are inside the data of the block. *)
Definition panic_ok (st : lstore D) : Prop :=
  exists f0 f1, ls_logs st = [f0; f1] /\ file_whole f0 /\ file_whole f1 /\
    0 <= ls_panic_char_ptr st <= ls_panic_max_char_ptr st /\ ls_panic_max_char_ptr st <= 240 /\
    (0 < ls_panic_max_char_ptr st -> lf_data_ptr f0 + JD_LSTORE_ENTRY_HEADER_SIZE + ls_panic_max_char_ptr st <= block_data_size f0).

Lemma whole_sizes f : file_whole f -> 512 <= block_size f <= 4096 /\ block_data_size f = block_size f - 24.
Proof.
  intros [Hs _ _ _ _ _]. split; [|done]. unfold block_size.
  assert (lf_block_shift f = 9 \/ lf_block_shift f = 10 \/ lf_block_shift f = 11 \/ lf_block_shift f = 12) as [->|[->|[->| ->]]] by lia; vm_compute; split; discriminate.
Qed.

(** Writes in front of the footer keep a block whole. *)
Lemma whole_write (b src : list Z) bs off m : zlen b = bs -> mread b (bs - 8) 4 = m -> 0 <= off -> off + zlen src <= bs - 8 ->
  zlen (mwrite b off src) = bs /\ mread (mwrite b off src) (bs - 8) 4 = m.
Proof.
  intros <- <- Ho Hl. pose proof (zlen_nonneg src). split; [apply zlen_mwrite; lia|]. apply mread_mwrite_out; lia.
Qed.

Lemma whole_crc (b : list Z) bs v m : 8 <= bs -> zlen b = bs -> mread b (bs - 8) 4 = m ->
  zlen (put32 b (bs - 4) v) = bs /\ mread (put32 b (bs - 4) v) (bs - 8) 4 = m.
Proof.
  intros Hbs <- <-. unfold put32. split; [apply zlen_mwrite; rewrite ?zlen_le_bytes; lia|]. apply mread_mwrite_out; rewrite ?zlen_le_bytes; lia.
Qed.

Lemma core_safe c mode f : mode <> 0 -> file_whole f ->
  exists f' mode' c', flush_to_disk_core c mode f = Ret (f', mode', c') /\ mode' <> 0 /\ file_whole f' /\
    lf_data_ptr f' = lf_data_ptr f /\ lf_needs_flushing f' = 0.
Proof.
  intros Hm Hf. destruct (whole_sizes f Hf) as (Hbs & Hds). destruct Hf as [F1 F2 F3 F4 [F5 F5'] F6].
  unfold flush_to_disk_core. set (crc := jd_crc32 _).
  destruct (whole_crc (lf_block_alt f) (block_size f) crc _ ltac:(lia) F5 F5') as [W1 W2].
  set (alt := put32 (lf_block_alt f) (block_size f - 4) crc) in *. set (f1 := lf_set_blocks f (lf_block f) alt).
  assert (exists mode' c', write_block c mode f1 (lf_block_ptr f1) = Ret (mode', c') /\ mode' <> 0) as (mode' & c' & -> & Hm').
  { unfold write_block, write_sectors. cbn [f1 lf_data_blocks lf_set_blocks lf_block_ptr]. rewrite (proj2 (Z.ltb_lt _ _)) by lia.
    destruct (Z.eqb_spec mode 1) as [->|].
    - match goal with |- context [sd_write_loop ?n ?c ?m ?f ?s ?src] => destruct (sd_write_loop n c m f s src) as [m' c'] eqn:E end.
      exists m', c'. split; [done|]. clear -E. revert E.
      match goal with |- sd_write_loop ?n ?c ?m ?f ?s ?src = _ -> _ => generalize n c s src end. intros n. induction n as [|n IH]; intros c0 s src; cbn [sd_write_loop].
      + by injection 1 as <- _.
      + destruct (sd_write_sector _ _ _) as [r c1]. destruct (negb (r =? 0)); [by injection 1 as <- _|]. apply IH.
    - rewrite (proj2 (Z.eqb_neq _ _)) by done. by eexists _, _. }
  obind. change (block_data_size f1) with (block_data_size f). change (lf_block_ptr f1) with (lf_block_ptr f).
  destruct (whole_write alt (replicate (Z.to_nat (block_data_size f)) 0) (block_size f) sizeof_block_header _ W1 W2) as [V1 V2];
    [done|rewrite zlen_replicate; unfold sizeof_block_header; lia|].
  rewrite u32_small by lia. rewrite Z.geb_leb. cbn [lf_data_blocks lf_set_position lf_set_blocks f1].
  destruct (Z.leb_spec (lf_data_blocks f) (lf_block_ptr f + 1)); rewrite ?(proj2 (Z.eqb_neq mode' 0)) by done; obind; eexists _, mode', c';
    (split; [done|]); (split; [done|]); split; try done; split; cbn; try done; lia.
Qed.

Lemma request_safe f : file_whole f -> lf_data_ptr f <> 0 -> lf_needs_flushing f = 0 ->
  exists f', request_flush f = Ret (0, f') /\ file_whole f' /\ lf_data_ptr f' = 0 /\ lf_needs_flushing f' = 1.
Proof.
  intros Hf Hd Hn. destruct (whole_sizes f Hf) as (Hbs & Hds). destruct Hf as [F1 F2 F3 F4 F5 F6]. unfold request_flush.
  rewrite (proj2 (Z.eqb_neq _ 0)), Hn by done. eexists. split; [done|]. split; [|done]. split; cbn; try done.
  unfold block_data_size, block_size in *. cbn. lia.
Qed.

Lemma start_whole f now : file_whole f ->
  file_whole (lf_set_blocks f (put32 (put64 (lf_block f) 8 now) 4 (lf_block_generation f)) (lf_block_alt f)).
Proof.
  intros Hf. destruct (whole_sizes f Hf) as (Hbs & Hds). destruct Hf as [F1 F2 F3 [F4 F4'] F5 F6]. split; cbn; try done.
  unfold put32, put64. destruct (whole_write (lf_block f) (le_bytes 8 now) (block_size f) 8 _ F4 F4') as [W1 W2]; [lia|rewrite zlen_le_bytes; lia|].
  apply (whole_write _ _ _ 4 _ W1 W2); [lia|rewrite zlen_le_bytes; lia].
Qed.

(** Writing out both blocks of a file. *)
Lemma flush_file_safe c mode f : mode <> 0 -> file_whole f ->
  exists f' mode' c',
    flush_blocks_in_panic c mode f = Ret (f', mode', c') /\
    mode' <> 0 /\ file_whole f' /\ lf_data_ptr f' = 0.
Proof.
  intros Hm Hf. unfold flush_blocks_in_panic.
  assert (exists f1 m1 c1, (if negb (lf_needs_flushing f =? 0) then flush_to_disk_core c mode f else Ret (f, mode, c)) = Ret (f1, m1, c1) /\
    m1 <> 0 /\ file_whole f1 /\ lf_needs_flushing f1 = 0) as (f1 & m1 & c1 & -> & Hm1 & Hf1 & Hn1).
  { destruct (Z.eqb_spec (lf_needs_flushing f) 0); cbn [negb]; [by exists f, mode, c|].
    destruct (core_safe c mode f Hm Hf) as (f1 & m1 & c1 & -> & ? & ? & _ & ?). by exists f1, m1, c1. }
  obind. rewrite Hn1. cbn [Z.eqb]. rewrite andb_true_r. destruct (Z.eqb_spec (lf_data_ptr f1) 0) as [Ed|Ed]; cbn [negb].
  - obind. rewrite Hn1. cbn [Z.eqb negb]. by exists f1, m1, c1.
  - destruct (request_safe f1 Hf1 Ed Hn1) as (f2 & -> & Hf2 & Hd2 & Hn2). obind. rewrite Hn2. cbn [Z.eqb negb].
    destruct (core_safe c1 m1 f2 Hm1 Hf2) as (f3 & m3 & c3 & -> & ? & ? & Hd3 & _). exists f3, m3, c3. split_and!; try done. congruence.
Qed.

Lemma panic_flush_safe now st i f0 f1 : ls_panic_mode st <> 0 -> ls_logs st = [f0; f1] -> file_whole f0 -> file_whole f1 -> (i < 2)%nat ->
  exists st' g0 g1, flush_to_disk_in_panic now st i = Ret st' /\ ls_panic_mode st' <> 0 /\ ls_logs st' = [g0; g1] /\ file_whole g0 /\ file_whole g1 /\
    ls_panic_char_ptr st' = 0 /\ ls_panic_max_char_ptr st' = 0 /\ (i = 0%nat -> lf_data_ptr g0 = 0).
Proof.
  intros Hm El H0 H1 Hi. unfold flush_to_disk_in_panic. rewrite El. destruct i as [|[|i]]; [| |lia]; cbn [lookup list_lookup].
  all: match goal with |- context [flush_blocks_in_panic _ _ ?f] => 
    destruct (flush_file_safe (ls_card st) (ls_panic_mode st) f Hm ltac:(done)) as (f' & m' & c' & -> & Hm' & Hf' & Hd) end; obind;
    eexists _, _, _; split; [done|]; split; [done|]; split; [cbn; by rewrite El|];
    split; [first [by apply start_whole|done]|]; split; [first [by apply start_whole|done]|done].
Qed.

(** Putting a character keeps it inside the block. *)
Lemma put_char_safe now st ch : ls_panic_mode st = 1 -> panic_ok st ->
  exists st', panic_put_char now st ch = Ret st' /\ ls_panic_mode st' <> 0 /\ panic_ok st'.
Proof.
  intros Hm (f0 & f1 & El & H0 & H1 & Hc & Hmax & Hroom). unfold panic_put_char. rewrite El. cbn [lookup list_lookup].
  set (is_endline := (ch =? 10) && (ls_panic_char_ptr st >? 0)).
  set (first := if (ls_panic_char_ptr st >=? ls_panic_max_char_ptr st) || is_endline then _ else Ret st).
  assert (exists st1 g0, first = Ret st1 /\ ls_panic_mode st1 <> 0 /\ (exists g1, ls_logs st1 = [g0; g1] /\ file_whole g1) /\ file_whole g0 /\
    0 <= ls_panic_char_ptr st1 < ls_panic_max_char_ptr st1 /\ ls_panic_max_char_ptr st1 <= 240 /\
    lf_data_ptr g0 + JD_LSTORE_ENTRY_HEADER_SIZE + ls_panic_max_char_ptr st1 <= block_data_size g0) as (st1 & g0 & -> & Hm1 & (g1 & El1 & Hg1) & Hg0 & Hc1 & Hmax1 & Hr1).
  { unfold first. destruct ((ls_panic_char_ptr st >=? ls_panic_max_char_ptr st) || is_endline) eqn:Eb.
    2: { apply orb_false_iff in Eb as [Eb _]. rewrite Z.geb_leb in Eb. apply Z.leb_gt in Eb.
         exists st, f0. split; [done|]. split; [by rewrite Hm|]. split; [by exists f1|]. split_and!; try done; lia. }
    set (f := if ls_panic_max_char_ptr st >? 0 then close_panic_entry st f0 else f0).
    assert (file_whole f) as Hf.
    { unfold f. rewrite Z.gtb_ltb. destruct (Z.ltb_spec 0 (ls_panic_max_char_ptr st)) as [Hp|]; [|done]. specialize (Hroom Hp).
      destruct (whole_sizes f0 H0) as (Hbs & Hds). destruct H0 as [F1 F2 F3 [F4 F4'] F5 F6]. unfold JD_LSTORE_ENTRY_HEADER_SIZE in *.
      unfold close_panic_entry. split; cbn [lf_block_shift lf_block_ptr lf_data_blocks lf_block lf_block_alt lf_data_ptr lf_set_flush lf_set_blocks lf_block_magic1]; try done.
      - apply (whole_write (lf_block f0) _ (block_size f0) (block_curr_ptr f0)); [done|done|unfold block_curr_ptr, sizeof_block_header; lia|].
        unfold entry_header. rewrite zlen_app, zlen_le_bytes. change (zlen [_; _]) with 2. unfold block_curr_ptr, sizeof_block_header. lia.
      - unfold JD_LSTORE_ENTRY_HEADER_SIZE. rewrite u32_small by lia. change (block_data_size _) with (block_data_size f0). lia. }
    destruct (whole_sizes f Hf) as (Hbs & Hds). pose proof (fw_data f Hf) as Hfd.
    set (left := s32 (u32 (block_data_size f - lf_data_ptr f - JD_LSTORE_ENTRY_HEADER_SIZE - 8))).
    assert (left = block_data_size f - lf_data_ptr f - 12) as Hleft by (unfold left, JD_LSTORE_ENTRY_HEADER_SIZE; word_lia).
    assert (16 <= Z.shiftr (block_size f) 5) as Hmin by (rewrite Z.shiftr_div_pow2 by lia; change (2 ^ 5) with 32; apply Z.div_le_lower_bound; lia).
    set (st0 := set_log st 0 f (ls_panic_mode st) (ls_card st)). assert (ls_logs st0 = [f; f1]) as El0 by (cbn; by rewrite El).
    destruct (Z.ltb_spec left (Z.shiftr (block_size f) 5)) as [Hlt|Hge].
    - destruct (panic_flush_safe now st0 0 f f1) as (st2 & g0 & g1 & -> & Hm2 & El2 & Hg0 & Hg1 & Hc2 & Hx2 & Hd2); [cbn; by rewrite Hm|done|done|done|lia|].
      obind. eexists _, g0. split; [done|]. split; [done|]. split; [by exists g1|]. split; [done|].
      destruct (whole_sizes g0 Hg0) as (Hbs2 & Hds2). specialize (Hd2 eq_refl). cbn. unfold JD_LSTORE_ENTRY_HEADER_SIZE. lia.
    - obind. eexists _, f. split; [done|]. split; [cbn; by rewrite Hm|]. split; [by exists f1|]. split; [done|].
      cbn [set_panic ls_panic_char_ptr ls_panic_max_char_ptr]. unfold JD_LSTORE_ENTRY_HEADER_SIZE. rewrite Z.gtb_ltb.
      destruct (Z.ltb_spec 240 left); [lia|]. rewrite u8_small by lia. lia. }
  obind. rewrite El1. cbn [lookup list_lookup]. destruct (whole_sizes g0 Hg0) as (Hbs & Hds). unfold JD_LSTORE_ENTRY_HEADER_SIZE in *.
  destruct is_endline; cbn [negb]; (eexists; split; [done|]; split; [done|]).
  - exists g0, g1. split_and!; try done; lia.
  - eexists _, g1. split; [cbn; by rewrite El1|]. split; [|split; [done|]].
    + destruct Hg0 as [F1 F2 F3 [F4 F4'] F5 F6]. split; cbn [lf_block_shift lf_block_ptr lf_data_blocks lf_block lf_block_alt lf_data_ptr lf_set_blocks lf_block_magic1]; try done.
      apply (whole_write (lf_block g0) _ (block_size g0)); [done|done|unfold block_curr_ptr, sizeof_block_header, JD_LSTORE_ENTRY_HEADER_SIZE; lia|].
      change (zlen [_]) with 1. unfold block_curr_ptr, sizeof_block_header, JD_LSTORE_ENTRY_HEADER_SIZE. lia.
    + cbn [set_panic ls_panic_char_ptr ls_panic_max_char_ptr set_log lf_data_ptr lf_set_blocks]. rewrite u8_small by lia.
      change (block_data_size (lf_set_blocks _ _ _)) with (block_data_size g0). unfold JD_LSTORE_ENTRY_HEADER_SIZE. lia.
Qed.

Lemma panic_flush_all_safe now st : ls_panic_mode st = 1 -> panic_ok st ->
  exists st', panic_flush now st = Ret st' /\ ls_panic_mode st' <> 0 /\ panic_ok st'.
Proof.
  intros Hm Hok. unfold panic_flush. rewrite Hm. cbn [Z.eqb Pos.eqb negb].
  assert (exists st1, (if ls_panic_max_char_ptr st >? 0 then panic_put_char now st 10 else Ret st) = Ret st1 /\ ls_panic_mode st1 <> 0 /\ panic_ok st1)
    as (st1 & -> & Hm1 & (f0 & f1 & El & H0 & H1 & _)).
  { destruct (_ >? 0); [by apply put_char_safe|]. exists st. split_and!; try done. by rewrite Hm. }
  obind. destruct (panic_flush_safe now st1 0 f0 f1 Hm1 El H0 H1 ltac:(lia)) as (st2 & g0 & g1 & -> & Hm2 & El2 & G0 & G1 & _). obind.
  destruct (panic_flush_safe now st2 1 g0 g1 Hm2 El2 G0 G1 ltac:(lia)) as (st3 & h0 & h1 & -> & Hm3 & El3 & K0 & K1 & Hc & Hx & _).
  exists st3. split; [done|]. split; [done|]. exists h0, h1. rewrite Hc, Hx. split_and!; try done; lia.
Qed.

Lemma panic_init_safe now st : panic_ok st -> exists st', panic_init now st = Ret st' /\ ls_panic_mode st' <> 0 /\ panic_ok st'.
Proof.
  intros Hok. unfold panic_init.
  assert (forall m c, panic_ok (set_panic st m (ls_panic_char_ptr st) (ls_panic_max_char_ptr st) c)) as Hset by (intros; exact Hok).
  destruct (negb (has_log st)); [eexists; by split_and!|].
  destruct (ready_loop _ _) as [ready c1]. destruct ready; cbn [negb]; [|eexists; by split_and!].
  destruct (sd_check _) as [r c2]. destruct (negb (r =? 0)); [eexists; by split_and!|]. by apply panic_flush_all_safe.
Qed.

Lemma print_char_safe now st ch : panic_ok st ->
  exists st', jd_lstore_panic_print_char now (Some st) ch = Ret (Some st') /\ panic_ok st' /\ (ch <> 13 -> ls_panic_mode st' <> 0).
Proof.
  intros Hok. unfold jd_lstore_panic_print_char. destruct ((ls_panic_mode st >? 1) || (ch =? 13)) eqn:Eb.
  { exists st. split_and!; try done. intros Hch. rewrite (proj2 (Z.eqb_neq ch 13)), orb_false_r in Eb by done. rewrite Z.gtb_ltb in Eb. bool_to_prop. lia. }
  assert (exists st1, (if ls_panic_mode st =? 0 then panic_init now st else Ret st) = Ret st1 /\ ls_panic_mode st1 <> 0 /\ panic_ok st1) as (st1 & -> & Hm1 & Hok1).
  { destruct (Z.eqb_spec (ls_panic_mode st) 0); [by apply panic_init_safe|by exists st]. }
  obind. destruct (Z.eqb_spec (ls_panic_mode st1) 1) as [E|E]; cbn [negb]; [|by exists st1].
  destruct (put_char_safe now st1 ch E Hok1) as (st2 & -> & ? & ?). obind. by exists st2.
Qed.

(** C13. The panic handler does not panic: from any state of two mounted files,
    whatever the card answers on its lines, printing any text into the log ends
    without a failed assertion, and the files stay mounted: the position is in
    the file, the blocks keep their size and the magic number behind the data,
    and the entry being written ends inside the data. Once a character other
    than a carriage return has been printed the store is in a panic mode, in
    which the card's driver is not called. *)
Theorem panic_print_safe now st s :
  panic_ok st -> exists st', jd_lstore_panic_print_str now (Some st) s = Ret (Some st') /\ panic_ok st' /\
    ((exists ch, ch ∈ s /\ ch <> 13) \/ ls_panic_mode st <> 0 -> ls_panic_mode st' <> 0).
Proof.
  revert st. induction s as [|ch s IH]; intros st Hok; cbn [jd_lstore_panic_print_str].
  - exists st. split_and!; try done. intros [(ch & Hch & _)|?]; [by apply not_elem_of_nil in Hch|done].
  - destruct (print_char_safe now st ch Hok) as (st1 & E1 & Hok1 & Hm1).
    assert (ls_panic_mode st <> 0 -> ls_panic_mode st1 <> 0) as Hkeep.
    { intros Hm. destruct (decide (ch = 13)) as [->|]; [|by apply Hm1]. unfold jd_lstore_panic_print_char in E1. rewrite orb_true_r in E1. by injection E1 as <-. }
    rewrite E1. obind. destruct (IH st1 Hok1) as (st2 & -> & Hok2 & Hm2). exists st2. split_and!; try done.
    intros [(x & Hx & Hne)|Hm]; apply Hm2; [|right; by apply Hkeep]. apply elem_of_cons in Hx as [->|Hx]; [right; by apply Hm1|left; by exists x].
Qed.
End PanicSafe.

(** ** Both files: [jd_lstore_force_flush] *)

Definition disjoint_files (g0 g1 : geometry) : Prop :=
  g_off g0 + (g_hb g0 + g_db g0) * g_spb g0 <= g_off g1 \/ g_off g1 + (g_hb g1 + g_db g1) * g_spb g1 <= g_off g0.

Section ForceFlush.
Context {D : Type} `{CardLaws D}.

Lemma foreign_same g0 g1 c c' : geo_ok g0 -> disjoint_files g0 g1 -> card_ok g0 c -> outside_same g1 c c' ->
  card_ok g0 c' /\ header_at g0 c' = header_at g0 c /\ forall j, 0 <= j < g_db g0 -> block_at g0 c' j = block_at g0 c j.
Proof.
  intros Hg0 Hd Hc [Hl Ho]. pose proof (go_off g0 Hg0). pose proof (go_db g0 Hg0). destruct (block_pos_ends g0 Hg0) as [P1 P2].
  pose proof (block_pos_le g0 Hg0 0 (g_db g0) ltac:(lia)). pose proof (g_sizes g0 Hg0) as (Hbs & _).
  split; [unfold card_ok in *; lia|]. split.
  - apply Ho; [lia|lia|]. destruct Hd; lia.
  - intros j Hj. pose proof (block_pos_step g0 Hg0 j). pose proof (block_pos_le g0 Hg0 0 j ltac:(lia)). pose proof (block_pos_le g0 Hg0 (j + 1) (g_db g0) ltac:(lia)).
    apply Ho; [lia|lia|]. destruct Hd; lia.
Qed.

(** A whole flush of a file that no one else is writing. *)
Lemma flush_to_disk_spec g T a c : geo_ok g -> al_inv g T a -> card_ok g c -> al_needs a <> 2 ->
  exists T' a' c' ws, flush_to_disk false c 0 (conc g a) = Ret (conc g a', 0, c') /\ run_rel g T a c T' a' c' ws /\ outside_same g c c' /\
    (length ws <= 1)%nat /\ flat_map lb_entries ws ++ al_out a' = al_out a /\ al_needs a' = 0 /\ (al_needs a = 0 -> al_out a' = []).
Proof.
  intros Hg Hi Hc Hn. pose proof (run_sim g Hg [LogBegin; LogEnd] T a c Hi Hc I) as Hs.
  pose proof (flush_begin_spec g a (ai_ok _ _ _ Hi) Hn) as [Eb Hb]. pose proof (al_begin_inv g T a Hi Hn) as Hib.
  assert ((al_begin a).1 = (al_needs (al_begin a).2 =? 2) /\ (al_needs (al_begin a).2 = 2 \/ al_needs (al_begin a).2 = 0) /\
    (al_needs a = 0 -> lb_entries (al_cur (al_begin a).2) = []) /\ (al_needs (al_begin a).2 = 0 -> al_needs a = 0)) as (B1 & B2 & B3 & B4).
  { unfold al_begin. pose proof (ao_alt_empty _ _ (ai_ok _ _ _ Hi)) as He. destruct (lb_entries (al_cur a)) eqn:El; destruct (Z.eqb_spec (al_needs a) 0) as [E0|E0];
      cbn [al_needs al_cur snd fst]; rewrite ?(proj2 (Z.eqb_eq _ _) E0), ?(proj2 (Z.eqb_neq _ _) E0); cbn; rewrite ?El, ?E0; split_and!; try done; try tauto; try (intros; exfalso; congruence); intros; by apply He. }
  cbn [al_run al_step] in Hs. rewrite (proj2 (Z.eqb_neq (al_needs a) 2)) in Hs by done.
  unfold flush_to_disk. cbn [negb]. rewrite Eb. obind. rewrite B1.
  destruct (Z.eqb_spec (al_needs (al_begin a).2) 2) as [E2|E2]; cbn [negb]; destruct Hs as (T' & c' & E & R & O & Hout & _); cbn [accepted] in Hout; rewrite (app_nil_r (al_out a)) in Hout.
  - cbn [log_run log_step conc lf_needs_flushing] in E. rewrite (proj2 (Z.eqb_neq (al_needs a) 2)) in E by done. rewrite Eb in E.
    obind. cbn [mbind outcome_bind log_step log_run] in E. change (lf_needs_flushing (conc g (al_begin a).2)) with (al_needs (al_begin a).2) in E.
    rewrite E2, Z.eqb_refl in E.
    destruct (core_spec g Hg c (al_begin a).2 Hb Hc) as (c2 & Ec & _). rewrite Ec in E |- *. cbn in E. injection E as <-.
    eexists T', _, c2, _. split; [done|]. split; [exact R|]. split; [done|]. split; [cbn; lia|]. split; [exact Hout|]. split; [done|].
    intros E0. unfold al_out. cbn. by apply B3.
  - exists T', (al_begin a).2, c', []. destruct B2 as [?|B2]; [done|].
    cbn [log_run log_step conc lf_needs_flushing] in E. rewrite (proj2 (Z.eqb_neq (al_needs a) 2)) in E by done. rewrite Eb in E.
    cbn [mbind outcome_bind log_step log_run] in E. change (lf_needs_flushing (conc g (al_begin a).2)) with (al_needs (al_begin a).2) in E. rewrite (proj2 (Z.eqb_neq _ _) E2) in E. cbn in E. injection E as <-.
    split; [done|]. split; [exact R|]. split; [done|]. split; [cbn; lia|]. split; [exact Hout|]. split; [done|].
    intros E0. unfold al_out. rewrite B3 by done. rewrite app_nil_r. apply (ao_alt_empty _ _ Hb), B2.
Qed.

(** Writes elsewhere on the card do not matter to a run. *)
Lemma run_rel_start g T a c c1 T' a' c' ws : header_at g c1 = header_at g c -> (forall j, 0 <= j < g_db g -> block_at g c1 j = block_at g c j) ->
  run_rel g T a c1 T' a' c' ws -> run_rel g T a c T' a' c' ws.
Proof.
  intros Hh Hb [B1 B2 B4 B5 B6 B7 B8 B9 B10 B11]. split; try done; [by rewrite <- Hh|]. intros j Hj Hk. rewrite <- Hb by done. by apply B11.
Qed.
Lemma run_rel_end g T a c T' a' c' c2 ws : geo_ok g -> card_ok g c2 -> header_at g c2 = header_at g c' ->
  (forall j, 0 <= j < g_db g -> block_at g c2 j = block_at g c' j) -> run_rel g T a c T' a' c' ws -> run_rel g T a c T' a' c2 ws.
Proof.
  intros Hg Hc Hh Hb [B1 B2 B4 B5 B6 B7 B8 B9 B10 B11]. split; try done; [by rewrite Hh| |].
  - intros k b Hk Hl. rewrite Hb by (apply Z.mod_pos_bound; destruct Hg; lia). by apply B10.
  - intros j Hj Hk. rewrite Hb by done. by apply B11.
Qed.

Context (g0 g1 : geometry) (Hg0 : geo_ok g0) (Hg1 : geo_ok g1) (Hdis : disjoint_files g0 g1).

(** A store with the two files. *)
Definition two_logs (st : lstore D) (c : D) (a0 a1 : alog) : lstore D := {|
  ls_card := c; ls_flush_timer := ls_flush_timer st; ls_panic_mode := 0; ls_panic_char_ptr := ls_panic_char_ptr st;
  ls_panic_max_char_ptr := ls_panic_max_char_ptr st; ls_logs := [conc g0 a0; conc g1 a1] |}.

Lemma disjoint_sym : disjoint_files g1 g0.
Proof. unfold disjoint_files in *. tauto. Qed.

Lemma flush_pass st T0 T1 c a0 a1 : al_inv g0 T0 a0 -> al_inv g1 T1 a1 -> card_ok g0 c -> card_ok g1 c -> al_needs a0 <> 2 -> al_needs a1 <> 2 ->
  exists T0' T1' c' a0' a1' w0 w1,
    flush_logs_loop 2 0 false true (two_logs st c a0 a1) = Ret (two_logs st c' a0' a1') /\
    run_rel g0 T0 a0 c T0' a0' c' w0 /\ run_rel g1 T1 a1 c T1' a1' c' w1 /\
    (length w0 <= 1)%nat /\ (length w1 <= 1)%nat /\
    flat_map lb_entries w0 ++ al_out a0' = al_out a0 /\ flat_map lb_entries w1 ++ al_out a1' = al_out a1 /\
    al_needs a0' = 0 /\ al_needs a1' = 0 /\ (al_needs a0 = 0 -> al_out a0' = []) /\ (al_needs a1 = 0 -> al_out a1' = []).
Proof.
  intros Hi0 Hi1 Hc0 Hc1 Hn0 Hn1.
  destruct (flush_to_disk_spec g0 T0 a0 c Hg0 Hi0 Hc0 Hn0) as (T0' & a0' & c1 & w0 & E0 & R0 & O0 & L0 & F0 & N0 & Z0).
  destruct (foreign_same g1 g0 c c1 Hg1 disjoint_sym Hc1 O0) as (Hc1' & Hh1 & Hb1).
  destruct (flush_to_disk_spec g1 T1 a1 c1 Hg1 Hi1 Hc1' Hn1) as (T1' & a1' & c2 & w1 & E1 & R1 & O1 & L1 & F1 & N1 & Z1).
  destruct (foreign_same g0 g1 c1 c2 Hg0 Hdis (rr_card _ _ _ _ _ _ _ _ R0) O1) as (Hc0' & Hh0 & Hb0).
  exists T0', T1', c2, a0', a1', w0, w1. split; [|split; [by eapply run_rel_end|split; [by eapply run_rel_start|done]]].
  assert (flush_log false (two_logs st c a0 a1) 0 = Ret (two_logs st c1 a0' a1)) as P0.
  { unfold flush_log. cbn [two_logs ls_logs lookup list_lookup ls_card ls_panic_mode]. by rewrite E0. }
  assert (flush_log false (two_logs st c1 a0' a1) 1 = Ret (two_logs st c2 a0' a1')) as P1.
  { unfold flush_log. cbn [two_logs ls_logs lookup list_lookup ls_card ls_panic_mode]. by rewrite E1. }
  cbn [flush_logs_loop]. rewrite !orb_true_r, P0. obind. by rewrite orb_true_r, P1.
Qed.

(** [jd_lstore_force_flush] leaves nothing in memory: afterwards both
    blocks of both files are empty, and the entries that were waiting have been
    written, in order, to the next blocks of their files on the card. *)
Lemma force_flush_stores st T0 T1 c a0 a1 : al_inv g0 T0 a0 -> al_inv g1 T1 a1 -> card_ok g0 c -> card_ok g1 c -> al_needs a0 <> 2 -> al_needs a1 <> 2 ->
  exists st' f0 f1 ws0 ws1,
    jd_lstore_force_flush false (Some (two_logs st c a0 a1)) = Ret (Some st') /\ ls_logs st' = [f0; f1] /\
    Forall (fun '(g, b) => block_entries (g_bs g) b = [])
      [(g0, lf_block f0); (g0, lf_block_alt f0); (g1, lf_block f1); (g1, lf_block_alt f1)] /\
    Forall (fun '(g, a, f, ws) =>
        flat_map (block_entries (g_bs g)) ws = block_entries (g_bs g) (lf_block_alt (conc g a)) ++ block_entries (g_bs g) (lf_block (conc g a)) /\
        forall k b, ws !! k = Some b -> zlen ws <= Z.of_nat k + g_db g ->
          block_at g (ls_card st') ((al_ptr a + Z.of_nat k) mod g_db g) = b /\ block_valid f b = true)
      [(g0, a0, f0, ws0); (g1, a1, f1, ws1)].
Proof.
  intros Hi0 Hi1 Hc0 Hc1 Hn0 Hn1.
  destruct (flush_pass st T0 T1 c a0 a1 Hi0 Hi1 Hc0 Hc1 Hn0 Hn1) as (U0 & U1 & c1 & b0 & b1 & w0 & w1 & E1 & R0 & R1 & L0 & L1 & F0 & F1 & N0 & N1 & _).
  destruct (flush_pass st U0 U1 c1 b0 b1) as (V0 & V1 & c2 & d0 & d1 & x0 & x1 & E2 & S0 & S1 & _ & _ & G0 & G1 & M0 & M1 & Z0 & Z1);
    [apply R0|apply R1|apply R0|apply R1|by rewrite N0|by rewrite N1|]. specialize (Z0 N0). specialize (Z1 N1).
  pose proof (run_rel_app g0 Hg0 T0 a0 c U0 b0 c1 c1 w0 V0 d0 c2 x0 L0 (ao_ptr _ _ (ai_ok _ _ _ Hi0)) R0 (fun _ _ => eq_refl) eq_refl S0) as Q0.
  pose proof (run_rel_app g1 Hg1 T1 a1 c U1 b1 c1 c1 w1 V1 d1 c2 x1 L1 (ao_ptr _ _ (ai_ok _ _ _ Hi1)) R1 (fun _ _ => eq_refl) eq_refl S1) as Q1.
  assert (forall g a d T0 T1 c ws, geo_ok g -> al_inv g T0 a -> run_rel g T0 a c T1 d c2 ws -> flat_map lb_entries ws ++ al_out d = al_out a -> al_out d = [] ->
    block_entries (g_bs g) (lf_block (conc g d)) = [] /\ block_entries (g_bs g) (lf_block_alt (conc g d)) = [] /\
    flat_map (block_entries (g_bs g)) (map (stored_img g) ws) = block_entries (g_bs g) (lf_block_alt (conc g a)) ++ block_entries (g_bs g) (lf_block (conc g a)) /\
    forall k b, map (stored_img g) ws !! k = Some b -> zlen (map (stored_img g) ws) <= Z.of_nat k + g_db g ->
      block_at g c2 ((al_ptr a + Z.of_nat k) mod g_db g) = b /\ block_valid (conc g d) b = true) as Hfile.
  { clear. intros g a d T0 T1 c ws Hg Hi [R1 R2 R4 R5 R6 R7 R8 R9 R10 R11] Hout Hnil.
    pose proof (ai_ok _ _ _ R1) as [_ _ Hcur Halt _ _]. pose proof (ai_ok _ _ _ Hi) as [_ _ Hcur0 Halt0 _ _].
    assert (Forall (lb_ok g) ws) as Hok by (eapply Forall_impl; [exact R7|]; by intros b ((_ & _ & ?) & _)).
    cbn [conc lf_block lf_block_alt]. rewrite !img_entries by done. apply app_eq_nil in Hnil as Hn2. destruct Hn2 as [-> ->].
    split; [done|]. split; [done|]. rewrite Hnil, app_nil_r in Hout. split.
    - change (lb_entries (al_alt a) ++ _) with (al_out a). rewrite <- Hout. clear -Hok Hg. induction Hok as [|b ws Hb _ IH]; [done|]. cbn [map flat_map]. rewrite IH. f_equal.
      by destruct (stored_facts g b (conc g (al_fresh 0 0)) Hg Hb) as (_ & -> & _).
    - intros k b Hk Hlen. rewrite list_lookup_fmap in Hk. destruct (ws !! k) as [b0|] eqn:Hk0; [|done]. injection Hk as <-.
      unfold zlen in Hlen. rewrite length_map in Hlen. split; [by apply R10|]. apply (stored_facts g b0 (conc g d) Hg); [|done..]. by eapply Forall_lookup_1. }
  destruct (Hfile g0 a0 d0 T0 V0 c (w0 ++ x0) Hg0 Hi0 Q0) as (A1 & A2 & A3 & A4); [by rewrite flat_map_app, <- app_assoc, G0|done|].
  destruct (Hfile g1 a1 d1 T1 V1 c (w1 ++ x1) Hg1 Hi1 Q1) as (B1 & B2 & B3 & B4); [by rewrite flat_map_app, <- app_assoc, G1|done|].
  eexists _, _, _, (map (stored_img g0) (w0 ++ x0)), (map (stored_img g1) (w1 ++ x1)). unfold jd_lstore_force_flush.
  assert (has_log (two_logs st c a0 a1) = true) as ->.
  { unfold has_log. cbn [two_logs ls_logs conc lf_block]. pose proof (zlen_img g0 (al_cur a0) (al_crc a0)) as Hz. pose proof (g_sizes g0 Hg0) as (Hs & _).
    destruct (ai_ok _ _ _ Hi0) as [_ _ (_ & _ & _ & Hu) _ _ _]. specialize (Hz Hu). destruct (img _ _ _); [change (zlen []) with 0 in Hz; lia|done]. }
  cbn [negb]. change (Z.to_nat JD_LSTORE_NUM_FILES) with 2%nat. rewrite E1. obind. rewrite E2. obind.
  split; [done|]. split; [done|]. split.
  - apply Forall_cons; split; [exact A1|]. apply Forall_cons; split; [exact A2|]. apply Forall_cons; split; [exact B1|]. by apply Forall_singleton.
  - apply Forall_cons; split; [by split|]. apply Forall_singleton. by split.
Qed.
End ForceFlush.

(** ** The theorems at concrete inputs *)

(** A card that is the list of its bytes; the SPI lines always read [0xff]. *)
#[export] Instance image_card : Card (list Z) := {|
  ff_disk_read := fun c s n => (0, mread c (512 * s) (512 * n), c);
  ff_disk_write := fun c src s n => (0, mwrite c (512 * s) src);
  jd_f_create := fun c name size => (0, 2048, if get8 name 4 =? 48 then 0 else 4, c);
  spi_bb_init := fun c => c; spi_bb_rx := fun c n => (replicate (Z.to_nat n) 0xff, c); spi_bb_tx := fun c _ => c;
  spi_bb_set_cs := fun c _ => c; spi_bb_get_miso := fun c => (1, c) |}.
#[export] Instance image_card_laws : CardLaws (list Z).
Proof. exists (fun c => c); intros; eexists; split; reflexivity. Defined.

(** Two files of a header and three blocks of 512 bytes. *)
Definition demo_geo (off : Z) : geometry :=
  {| g_off := off; g_fsize := 2048; g_hb := 1; g_db := 3; g_shift := 9; g_m0 := 1; g_m1 := 2 |}.
Definition demo_header : list Z :=
  new_header (lf_set_size lf0 2048 0) 0 1 2 (fill_devinfo 7 [65] [49]) [108; 111; 103].
Definition demo_card : list Z := demo_header ++ replicate 1536 0 ++ demo_header ++ replicate 1536 0.

Lemma demo_geo_ok off : 0 <= off <= 4 -> geo_ok (demo_geo off).
Proof. intros Ho. split; cbn; try lia. change (g_spb (demo_geo off)) with 1. lia. Qed.

Lemma demo_card_ok off : 0 <= off <= 4 -> card_ok (demo_geo off) demo_card.
Proof. intros Ho. unfold card_ok. change (g_spb (demo_geo off)) with 1. change (zlen (image demo_card)) with 4096. cbn. lia. Qed.

Lemma data_fits type data : forallb (fun b => (0 <=? b) && (b <? 256)) data = true -> 0 < type < 256 -> zlen data < 256 -> log_entry_fits type data.
Proof. intros Hb Ht Hd. split_and!; try done; try lia. by apply bytes_by_test. Qed.

(** A block of entries, one that an interrupt appends between the two halves of
    its flush, and a second block. *)
Definition demo_ops : list log_op :=
  [LogAppend 5 3 [1; 2; 3]; LogAppend 9 4 [7]; LogBegin; LogAppend 70000 3 []; LogEnd; LogBegin; LogEnd].

Lemma demo_times : times_from 0 demo_ops.
Proof. unfold demo_ops. cbn [times_from]. repeat (split; [lia|split; [by apply data_fits|]]). done. Qed.

Lemma lstore_keeps_log_witness :
  exists rs f c' ws,
    log_run (mounted_file (demo_geo 0) 1 0, demo_card) demo_ops = Ret (rs, (f, c')) /\
    flat_map (block_entries 512) (ws ++ [lf_block_alt f; lf_block f]) = accepted demo_ops rs /\ rs = [0; 0; 0; 0; 0; 0; 0].
Proof.
  destruct (lstore_keeps_log (demo_geo 0) (demo_geo_ok 0 ltac:(lia)) 1 0 demo_card demo_ops) as (rs & f & c' & ws & E & H1 & _);
    [done|done|by apply demo_card_ok|exact demo_times|].
  exists rs, f, c', ws. split; [exact E|]. split; [exact H1|].
  assert ((match log_run (mounted_file (demo_geo 0) 1 0, demo_card) demo_ops with Ret (rs, _) => rs | _ => [] end) = [0; 0; 0; 0; 0; 0; 0]) as Hr by (vm_compute; reflexivity).
  rewrite E in Hr. exact Hr.
Defined.

Lemma demo_says : header_says (demo_geo 0) (header_at (demo_geo 0) demo_card).
Proof. split; vm_compute; try (repeat split; reflexivity); discriminate. Qed.

Lemma demo_blank : ring_blank (demo_geo 0) demo_card.
Proof.
  intros i Hi. cbn in Hi. assert (i = 0 \/ i = 1 \/ i = 2) as [->|[->| ->]] by lia; vm_compute; reflexivity.
Qed.

Lemma lstore_restart_resumes_witness :
  exists c0 rs f c' ws,
    mount_log demo_card 0 77 (lf_set_size lf0 2048 0) [] [] 0 = Ret (mounted_file (demo_geo 0) 1 0, c0, 77) /\
    log_run (mounted_file (demo_geo 0) 1 0, c0) demo_ops = Ret (rs, (f, c')) /\
    flat_map (block_entries 512) (ws ++ [lf_block_alt f; lf_block f]) = accepted demo_ops rs.
Proof.
  destruct (lstore_restart_resumes (demo_geo 0) (demo_geo_ok 0 ltac:(lia)) demo_card 77 [] [] 0 1 0 demo_ops)
    as (c0 & rs & f & c' & ws & E1 & _ & E2 & E3 & _); [by apply demo_card_ok|exact demo_says|by left; split; [exact demo_blank|]|done|done|exact demo_times|].
  exists c0, rs, f, c', ws. split; [exact E1|]. split; [exact E2|exact E3].
Defined.

Definition demo_waiting : alog :=
  {| al_gen := 1; al_ptr := 2; al_needs := 1; al_cur := (1, 20, [(21, 3, [8])]); al_alt := (1, 5, [(6, 3, [9; 10])]); al_crc := 0; al_acrc := 0 |}.

Lemma demo_waiting_inv off : 0 <= off <= 4 -> al_inv (demo_geo off) 30 demo_waiting.
Proof.
  intros Ho. split; [|lia|..].
  - split; cbn; try lia; try done; try (by right; left); unfold lb_ok; cbn; split_and!; try lia;
      try (constructor; [|constructor]; unfold log_entry_ok; split_and!; try lia; try done; by apply bytes_by_test); vm_compute; discriminate.
  - intros _. cbn. lia.
  - intros _. cbn. split_and!; try done; lia.
Qed.

Lemma mounted_whole off ptr : 0 <= off <= 4 -> 0 <= ptr < 3 -> file_whole (mounted_file (demo_geo off) 1 ptr).
Proof. intros Ho Hp. split; cbn [mounted_file conc lf_block_ptr lf_data_blocks al_fresh al_ptr]; try done; vm_compute; split; done || discriminate. Qed.

(** ["panic!\n"] with a card that does not answer. *)
Definition demo_store : lstore (list Z) := {|
  ls_card := demo_card; ls_flush_timer := 0; ls_panic_mode := 0; ls_panic_char_ptr := 0; ls_panic_max_char_ptr := 0;
  ls_logs := [mounted_file (demo_geo 0) 1 0; mounted_file (demo_geo 4) 1 0] |}.
Lemma panic_print_safe_witness :
  exists st', jd_lstore_panic_print_str 100 (Some demo_store) [112; 97; 110; 105; 99; 33; 10] = Ret (Some st') /\ panic_ok st' /\ ls_panic_mode st' <> 0.
Proof.
  destruct (panic_print_safe 100 demo_store [112; 97; 110; 105; 99; 33; 10]) as (st' & E & Hok & Hm).
  - exists (mounted_file (demo_geo 0) 1 0), (mounted_file (demo_geo 4) 1 0). split; [done|]. split; [by apply mounted_whole|].
    split; [by apply mounted_whole|]. cbn. lia.
  - exists st'. split; [exact E|]. split; [exact Hok|]. apply Hm. left. exists 112. split; [by left|done].
Defined.

(** *** What else the code does *)

(** [find_boundry] compares with the pointer, which is 0 at that time, not with
    the number of blocks: when the last block of the file was the last one
    written, the log is mounted past its end, and the first flush fails an
    assertion - at every start from then on. *)
Definition fill (t : Z) : list log_op := [LogAppend t 3 [1]; LogBegin; LogEnd].
Definition after_run (c : list Z) (gen ptr : Z) (ops : list log_op) : list Z :=
  match log_run (mounted_file (demo_geo 0) gen ptr, c) ops with Ret (_, (_, c')) => c' | _ => [] end.
Lemma mount_past_end :
  let c := after_run demo_card 1 0 (fill 1 ++ fill 2 ++ fill 3) in
  match mount_log c 0 77 (lf_set_size lf0 2048 0) [] [] 0 with
  | Ret (f, c, _) => lf_block_ptr f = 3 /\ lf_data_blocks f = 3 /\ log_run (f, c) (fill 4) = Panic
  | _ => False
  end.
Proof. vm_compute. done. Qed.

(** A first block that is being overwritten when the power goes makes the log
    start again in generation 1 while newer blocks are still there: after one
    more block, and in spite of it, the next start takes the end to be after
    the old blocks. *)
Lemma torn_first_block_restarts :
  let c := after_run demo_card 7 0 (fill 1 ++ fill 2 ++ fill 3) in
  let torn := mwrite c 512 (replicate 100 0) in
  match mount_log torn 0 77 (lf_set_size lf0 2048 0) [] [] 0 with
  | Ret (f, c, _) =>
      lf_block_generation f = 1 /\ lf_block_ptr f = 0 /\
      match mount_log (after_run c 1 0 (fill 9)) 0 77 (lf_set_size lf0 2048 0) [] [] 0 with
      | Ret (f, _, _) => lf_block_ptr f = 3
      | _ => False
      end
  | _ => False
  end.
Proof. vm_compute. done. Qed.

(** [validate_header] looks for a power of two before it checks that there are
    at most eight sectors in a block: with more than [2 ^ 31] of them, and no
    blocks, no shift of the 32-bit 1 is enough, and the search goes on. *)
Lemma header_search_diverges :
  validate_header (lf_set_size lf0 2048 0)
    (flat_map (le_bytes 4) [JD_LSTORE_MAGIC0; JD_LSTORE_MAGIC1; JD_LSTORE_VERSION; 512; 0x80000001; 1; 0]) = OutOfFuel.
Proof. vm_compute. done. Qed.
