(* ===== verification/Settings.v ===== *)
(** * The settings service ([services/settings.c])

    Clients read and write the settings store of a device over the wire: the
    store is that of [Fstor.v], a setting [k] of the service is the key [:k] of
    the store. The service promises a map from names to values; how far the
    store lets it keep that promise is what the theorem says. *)
From stdpp Require Import gmap.
From S2P Require Import Prelude Frame Iface Registers Fstor.

(** Commands of the generated header. Documented: they are different. *)
Class SettingsSpec := {
  JD_SETTINGS_CMD_GET : Z;
  JD_SETTINGS_CMD_SET : Z;
  JD_SETTINGS_CMD_DELETE : Z;
  settings_cmds_differ : NoDup [JD_SETTINGS_CMD_GET; JD_SETTINGS_CMD_SET; JD_SETTINGS_CMD_DELETE];
}.

Definition MAX_KEY_SIZE : Z := 14.
Definition settings_regs : list Z := REG_SRV_COMMON ++ [JD_REG_END].

Section Settings.
Context `{JdSpec} `{SettingsSpec} `{Flash} `{Sender T}.

Definition is_settings_cmd (cmd : Z) : bool :=
  (cmd =? JD_SETTINGS_CMD_DELETE) || (cmd =? JD_SETTINGS_CMD_SET) || (cmd =? JD_SETTINGS_CMD_GET).

(** The case of [JD_SETTINGS_CMD_GET]: [key] is the array, [ksz] the length
    of the name in it. [jd_alloc] gives zeroed memory and never fails. *)
Definition settings_get (pkt key : list Z) (ksz : Z) (fs : fstor) (tx : T) : outcome (fstor * T) :=
  '(size, _, fs) ← jd_settings_get_bin fs (Some (cstring key)) [] 0;
  let size := if size <? 0 then 0 else size in
  let data := replicate (Z.to_nat (ksz + 1 + size)) 0 in
  let data := mwrite data 0 (mread key 1 ksz) in
  '(_, dst, fs) ← jd_settings_get_bin fs (Some (cstring key)) (mread data (ksz + 1) size) size;
  let data := mwrite data (ksz + 1) dst in
  '(_, tx) ← send_packet tx (p_service_index pkt) (p_service_command pkt) (mread data 0 (ksz + 1 + size));
  Ret (fs, tx).

Definition settings_handle_packet (state pkt : list Z) (fs : fstor) (tx : T) : outcome (list Z * fstor * T) :=
  let cmd := p_service_command pkt in
  let data := drop 16 pkt in
  if is_settings_cmd cmd then
    let ksz := p_service_size pkt in
    let ksz := if ksz >=? MAX_KEY_SIZE + 1 then MAX_KEY_SIZE + 1 else ksz in
    let key := 58 :: mread data 0 ksz ++ [0] in
    let ksz := zlen (cstring (drop 1 key)) in
    if ksz >? MAX_KEY_SIZE then Ret (state, fs, tx)
    else if cmd =? JD_SETTINGS_CMD_GET then
      '(fs, tx) ← settings_get pkt key ksz fs tx; Ret (state, fs, tx)
    else if cmd =? JD_SETTINGS_CMD_DELETE then
      '(_, fs) ← jd_settings_set_bin fs (Some (cstring key)) []; Ret (state, fs, tx)
    else
      let size := p_service_size pkt - ksz - 1 in
      let size := if size <? 0 then 0 else size in
      '(_, fs) ← jd_settings_set_bin fs (Some (cstring key)) (mread data (ksz + 1) size); Ret (state, fs, tx)
  else '(_, state, tx) ← service_handle_register_final state pkt settings_regs tx; Ret (state, fs, tx).

(** Packets one after another. *)
Fixpoint settings_run (state : list Z) (pkts : list (list Z)) (fs : fstor) (tx : T) : outcome (list Z * fstor * T) :=
  match pkts with
  | [] => Ret (state, fs, tx)
  | pkt :: pkts => '(state, fs, tx) ← settings_handle_packet state pkt fs tx; settings_run state pkts fs tx
  end.
End Settings.

(** ** What the service promises *)

Section SettingsMap.
Context `{JdSpec} `{SettingsSpec} `{FlashLaws}.

(** What a packet asks: the name it gives, and the value. *)
Definition settings_name (pkt : list Z) : list Z := cstring (take 15 (pkt_payload pkt)).
Definition settings_value (pkt : list Z) : list Z := drop (S (length (settings_name pkt))) (pkt_payload pkt).

Definition store_key (name : list Z) : list Z := 58 :: name.

(** The store may be too full, or the value too long for it. *)
Definition no_room (M : gmap (list Z) (list Z)) (v : list Z) : Prop :=
  hsize - 200 < zlen v \/ hsize < 72 + map_space M + align (zlen v).

(** One packet against a map: what the map becomes, and the replies. *)
Inductive settings_step (M : gmap (list Z) (list Z)) (pkt : list Z) : gmap (list Z) (list Z) -> list sent -> Prop :=
  | SvLong : is_settings_cmd (p_service_command pkt) = true -> MAX_KEY_SIZE < zlen (settings_name pkt) -> settings_step M pkt M []
  | SvGet : p_service_command pkt = JD_SETTINGS_CMD_GET -> zlen (settings_name pkt) <= MAX_KEY_SIZE ->
      settings_step M pkt M
        [{| s_index := p_service_index pkt; s_command := p_service_command pkt;
            s_data := settings_name pkt ++ 0 :: default [] (M !! store_key (settings_name pkt)) |}]
  | SvSet v : p_service_command pkt = JD_SETTINGS_CMD_SET /\ v = settings_value pkt \/
              p_service_command pkt = JD_SETTINGS_CMD_DELETE /\ v = [] ->
      zlen (settings_name pkt) <= MAX_KEY_SIZE ->
      settings_step M pkt (<[store_key (settings_name pkt) := v]> M) []
  | SvLost v : p_service_command pkt = JD_SETTINGS_CMD_SET /\ v = settings_value pkt \/
               p_service_command pkt = JD_SETTINGS_CMD_DELETE /\ v = [] ->
      no_room M v -> settings_step M pkt M []
  | SvOther log : is_settings_cmd (p_service_command pkt) = false ->
      jd_send_not_implemented [] pkt = Ret (0, log) -> settings_step M pkt M log.

Inductive settings_steps (M : gmap (list Z) (list Z)) : list (list Z) -> list sent -> Prop :=
  | SvNil : settings_steps M [] []
  | SvCons pkt pkts M' r rs : settings_step M pkt M' r -> settings_steps M' pkts rs -> settings_steps M (pkt :: pkts) (r ++ rs).

(** A packet as the dispatcher gives it. *)
Definition settings_pkt_ok (pkt : list Z) : Prop := Forall is_byte pkt /\ 16 + p_service_size pkt <= zlen pkt.

Lemma settings_key pkt :
  let ksz := p_service_size pkt in
  let ksz := if ksz >=? MAX_KEY_SIZE + 1 then MAX_KEY_SIZE + 1 else ksz in
  let key := 58 :: mread (drop 16 pkt) 0 ksz ++ [0] in
  cstring key = store_key (settings_name pkt) /\ cstring (drop 1 key) = settings_name pkt.
Proof.
  cbv zeta. assert (forall l, cstring (58 :: l) = 58 :: cstring l) as Hc by done. rewrite Hc. cbn [drop].
  rewrite drop_0, cstring_app_nul. assert (mread (drop 16 pkt) 0 (if p_service_size pkt >=? MAX_KEY_SIZE + 1 then MAX_KEY_SIZE + 1 else p_service_size pkt) = take 15 (pkt_payload pkt)) as ->; [|done].
  unfold mread, pkt_payload. rewrite drop_0, take_take. f_equal. unfold MAX_KEY_SIZE.
  rewrite Z.geb_leb. destruct (Z.leb_spec (14 + 1) (p_service_size pkt)); lia.
Qed.

Lemma settings_name_bytes pkt : Forall is_byte pkt -> Forall (fun b => 0 < b < 256) (store_key (settings_name pkt)).
Proof. intros Hb. constructor; [lia|]. apply cstring_bytes. unfold pkt_payload. by do 2 apply Forall_take; apply Forall_drop. Qed.

Lemma store_key_ok name : zlen name <= MAX_KEY_SIZE -> key_ok (Some (store_key name)) = true.
Proof.
  unfold MAX_KEY_SIZE. intros Hl. cbn [key_ok starts_star store_key]. rewrite Z.gtb_ltb. unfold FSTOR_KEYSIZE.
  change (58 =? 42) with false. rewrite orb_false_r, negb_true_iff. apply Z.ltb_ge. unfold zlen in *. simpl. lia.
Qed.

Lemma set_result_step M pkt v r M' : Forall is_byte pkt -> zlen (settings_name pkt) <= MAX_KEY_SIZE ->
  p_service_command pkt = JD_SETTINGS_CMD_SET /\ v = settings_value pkt \/ p_service_command pkt = JD_SETTINGS_CMD_DELETE /\ v = [] ->
  set_result M (Some (store_key (settings_name pkt))) v r M' -> settings_step M pkt M' [].
Proof.
  intros Hb Hl Hc Hr. inversion Hr; subst; [by apply SvSet| | |].
  - by rewrite store_key_ok in *.
  - eapply SvLost; [done|by left].
  - eapply SvLost; [done|by right].
Qed.

Lemma mread_tail (name l : list Z) n : n = zlen l -> mread (name ++ 0 :: l) (zlen name + 1) n = l.
Proof.
  intros ->. unfold mread, zlen. replace (Z.to_nat (Z.of_nat (length name) + 1)) with (length name + 1)%nat by lia.
  rewrite drop_app_add, Nat2Z.id. cbn. rewrite drop_0. by apply take_ge.
Qed.

Lemma reply_bytes (name v z d : list Z) : mread d 0 (zlen v) = v ->
  mread (mwrite (name ++ 0 :: z) (zlen name + 1) d) 0 (zlen name + 1 + zlen v) = name ++ 0 :: v.
Proof.
  unfold mread, mwrite, zlen. rewrite !drop_0, Nat2Z.id. intros Hd.
  replace (Z.to_nat (Z.of_nat (length name) + 1)) with (length name + 1)%nat by lia.
  replace (Z.to_nat (Z.of_nat (length name) + 1 + Z.of_nat (length v))) with (length name + (1 + length v))%nat by lia.
  rewrite take_app_add. cbn [take]. rewrite <- app_assoc, take_app_add. f_equal. cbn. rewrite take_0. cbn. f_equal.
  assert (length v <= length d)%nat by (rewrite <- Hd, length_take; lia). by rewrite take_app_le by done.
Qed.

Lemma settings_value_read pkt :
  let size := p_service_size pkt - zlen (settings_name pkt) - 1 in
  mread (drop 16 pkt) (zlen (settings_name pkt) + 1) (if size <? 0 then 0 else size) = settings_value pkt.
Proof.
  cbv zeta. unfold mread, settings_value, pkt_payload. pose proof (zlen_nonneg (settings_name pkt)).
  replace (Z.to_nat (zlen (settings_name pkt) + 1)) with (S (length (settings_name pkt))) by (unfold zlen; lia).
  rewrite skipn_firstn_comm. f_equal. unfold zlen in *. destruct (Z.ltb_spec (p_service_size pkt - Z.of_nat (length (settings_name pkt)) - 1) 0); lia.
Qed.

(** Only the common part of the struct is described: no register is served. *)
Lemma settings_other state pkt (log : list sent) :
  is_settings_cmd (p_service_command pkt) = false ->
  exists r, jd_send_not_implemented [] pkt = Ret (0, r) /\
    service_handle_register_final state pkt settings_regs log = Ret (0, state, log ++ r).
Proof.
  intros Hcmd. exists (if has_flag (f_flags pkt) JD_FRAME_FLAG_IDENTIFIER_IS_SERVICE_CLASS then [] else
    [{| s_index := p_service_index pkt; s_command := JD_CMD_COMMAND_NOT_IMPLEMENTED;
        s_data := not_implemented_report (p_service_command pkt) (f_crc pkt) |}]).
  set (L := [{| re_reg := JD_REG_PADDING; re_tp := JD_REG_BYTES; re_off := 0; re_bit := 0; re_size := 6 |}]).
  rewrite (register_rejected settings_regs L); [|done|].
  - unfold jd_send_not_implemented. destruct (has_flag _ _); [|done]. by rewrite app_nil_r.
  - right. right. destruct (Z.leb_spec 0xf00 (JD_REG_CODE (p_service_command pkt))) as [|Hc]; [by left|right].
    unfold L. cbn [List.find re_reg]. destruct (Z.eqb_spec JD_REG_PADDING (JD_REG_CODE (p_service_command pkt))) as [E|]; [|done].
    rewrite <- E in Hc. done.
Qed.

(** Reading: the reply is the name, a NUL and the value, nothing if there is none. *)
Lemma settings_get_spec n fs M pkt key name (log : list sent) :
  fstor_geometry -> 0 <= n -> fs_inv n fs M -> cstring key = store_key name -> mread key 1 (zlen name) = name ->
  zlen name <= MAX_KEY_SIZE ->
  exists fs', settings_get pkt key (zlen name) fs log =
      Ret (fs', log ++ [{| s_index := p_service_index pkt; s_command := p_service_command pkt;
                           s_data := name ++ 0 :: default [] (M !! store_key name) |}]) /\ fs_inv (n + 2) fs' M.
Proof.
  intros Hg Hn Hi Hk Hname Hl. unfold settings_get. rewrite Hk. set (v := default [] (M !! store_key name)).
  pose proof (store_key_ok name Hl) as Hok.
  destruct (get_bin_spec n fs M (Some (store_key name)) [] 0 Hg Hn Hi ltac:(done)) as (r & d0 & fs1 & -> & Hi1 & Hr). obind.
  assert ((if r <? 0 then 0 else r) = zlen v) as ->.
  { pose proof (zlen_nonneg v). subst v. inversion Hr; subst; [congruence|..]; match goal with HM : M !! _ = _ |- _ => rewrite HM in * end;
    cbn [default from_option id] in *; [by rewrite (proj2 (Z.ltb_lt _ _))|..]; (destruct (Z.ltb_spec (zlen v) 0); [lia|done]). }
  set (size := zlen v). pose proof (zlen_nonneg v). pose proof (zlen_nonneg name).
  set (zs := replicate (Z.to_nat (zlen name + 1 + size)) 0).
  assert (zs = replicate (length name) 0 ++ [0] ++ replicate (length v) 0) as Hzs.
  { subst zs size. rewrite <- !replicate_add || idtac. change [0] with (replicate 1 0). rewrite <- !replicate_add. f_equal. unfold zlen. lia. }
  rewrite Hname, Hzs. pose proof (mwrite_mid [] (replicate (length name) 0) ([0] ++ replicate (length v) 0) name 0 eq_refl) as E.
  rewrite zlen_replicate in E. specialize (E eq_refl). cbn [app] in E |- *. rewrite E. clear E. clearbody zs. clear zs Hzs.
  assert (mread (name ++ 0 :: replicate (length v) 0) (zlen name + 1) size = replicate (length v) 0) as ->
    by (apply mread_tail; rewrite zlen_replicate; done).
  destruct (get_bin_spec (n + 1) fs1 M (Some (store_key name)) (replicate (length v) 0) size Hg ltac:(lia) Hi1) as (r2 & d & fs2 & -> & Hi2 & Hr2).
  { rewrite zlen_replicate. done. }
  obind. cbn [send_packet log_sender mbind outcome_bind]. exists fs2. split; [|by replace (n + 2) with (n + 1 + 1) by lia].
  rewrite (reply_bytes name v); [done|]. subst v size.
  inversion Hr2; subst; [congruence|..]; match goal with HM : M !! _ = _ |- _ => rewrite HM in * end; cbn [default from_option id] in *; [done|lia|done].
Qed.

Lemma settings_step_spec n fs M state pkt (log : list sent) :
  fstor_geometry -> 0 <= n -> n + 2 < 2 ^ 32 -> fs_inv n fs M -> settings_pkt_ok pkt ->
  exists fs' M' r, settings_handle_packet state pkt fs log = Ret (state, fs', log ++ r) /\
    fs_inv (n + 2) fs' M' /\ settings_step M pkt M' r.
Proof.
  intros Hg Hn Hn2 Hi [Hb Hlen]. destruct (settings_key pkt) as [Hk1 Hk2]. cbv zeta in Hk1, Hk2.
  unfold settings_handle_packet. cbv zeta. rewrite Hk2. set (key := 58 :: _) in *.
  destruct (is_settings_cmd _) eqn:Hcmd.
  2: { destruct (settings_other state pkt log) as (r & E1 & E2); [done|]. rewrite E2. obind.
       exists fs, M, r. split; [done|]. split; [eapply fs_inv_mono; [done|lia]|]. by constructor. }
  rewrite Z.gtb_ltb. destruct (Z.ltb_spec MAX_KEY_SIZE (zlen (settings_name pkt))) as [Hl|Hl].
  { exists fs, M, []. rewrite app_nil_r. split; [done|]. split; [eapply fs_inv_mono; [done|lia]|]. by constructor. }
  destruct (Z.eqb_spec (p_service_command pkt) JD_SETTINGS_CMD_GET) as [Hget|Hget].
  { destruct (settings_get_spec n fs M pkt key (settings_name pkt) log Hg Hn Hi Hk1) as (fs' & -> & Hi'); [|done|].
    { subst key. rewrite <- Hk2 at 2. cbn [drop]. rewrite drop_0. unfold mread. cbn [Z.to_nat]. change (drop (Pos.to_nat 1) (58 :: ?l)) with l.
      rewrite <- Hk2. cbn [drop]. rewrite drop_0. unfold zlen. rewrite Nat2Z.id. apply take_cstring. }
    obind. eexists fs', M, _. split; [done|]. split; [done|]. by apply SvGet. }
  rewrite Hk1.
  assert (forall v, p_service_command pkt = JD_SETTINGS_CMD_SET /\ v = settings_value pkt \/ p_service_command pkt = JD_SETTINGS_CMD_DELETE /\ v = [] ->
    Forall is_byte v -> zlen v < 2 ^ 31 ->
    exists fs' M' r, ('(_, fs) ← jd_settings_set_bin fs (Some (store_key (settings_name pkt))) v; Ret (state, fs, log)) = Ret (state, fs', log ++ r) /\
      fs_inv (n + 2) fs' M' /\ settings_step M pkt M' r) as Hset.
  { intros v Hv Hvb Hvl.
    destruct (set_bin_spec n fs M (Some (store_key (settings_name pkt))) v Hg Hn Hn2 Hi Hvl (settings_name_bytes pkt Hb) Hvb) as (r & fs' & M' & -> & Hi' & Hr).
    obind. exists fs', M', []. rewrite app_nil_r. split; [done|]. split; [eapply fs_inv_mono; [done|lia]|]. by eapply set_result_step. }
  destruct (Z.eqb_spec (p_service_command pkt) JD_SETTINGS_CMD_DELETE) as [Hdel|Hdel].
  { apply Hset; [by right|constructor|done]. }
  assert (p_service_command pkt = JD_SETTINGS_CMD_SET) as Hs.
  { unfold is_settings_cmd in Hcmd. rewrite !orb_true_iff, !Z.eqb_eq in Hcmd. tauto. }
  rewrite settings_value_read. apply Hset; [by left| |].
  - apply Forall_drop, Forall_take, Forall_drop, Hb.
  - assert (is_byte (p_service_size pkt)) as Hsz by (apply get8_is_byte, Hb). unfold is_byte in Hsz. unfold settings_value, pkt_payload, zlen. rewrite length_drop, length_take, length_drop. lia.
Qed.

Lemma settings_run_steps pkts : fstor_geometry -> Forall settings_pkt_ok pkts -> forall n M state fs (log : list sent),
  0 <= n -> n + 2 * zlen pkts + 2 < 2 ^ 32 -> fs_inv n fs M ->
  exists fs' replies, settings_run state pkts fs log = Ret (state, fs', log ++ replies) /\ settings_steps M pkts replies.
Proof.
  intros Hg. induction 1 as [|pkt pkts Hp _ IH]; intros n M state fs log Hn Hlen Hi; cbn [settings_run].
  { exists fs, []. rewrite app_nil_r. split; [done|constructor]. }
  assert (zlen (pkt :: pkts) = 1 + zlen pkts) as Hz by (unfold zlen; simpl; lia). pose proof (zlen_nonneg pkts).
  destruct (settings_step_spec n fs M state pkt log Hg Hn ltac:(lia) Hi Hp) as (fs1 & M1 & r & -> & Hi1 & Hst). obind.
  destruct (IH (n + 2) M1 state fs1 (log ++ r) ltac:(lia) ltac:(lia) Hi1) as (fs2 & rs & -> & Hrs).
  exists fs2, (r ++ rs). rewrite app_assoc. split; [done|]. by econstructor.
Qed.

(** C12. The settings service is a map of names to values as far as the store
    has room: for every sequence of packets the service ends without a failed
    assertion, a GET is answered with the name and the value set last (nothing
    after a DELETE or when there was none), also after garbage collection; a
    SET or DELETE either takes effect or, only when the value is longer than an
    area minus 200 bytes or the settings leave no room for it, is dropped
    without a reply; names of more than 14 characters are ignored and any other
    command is reported as not implemented. *)
Theorem settings_service_is_map pkts state fs (log : list sent) :
  fstor_geometry -> zlen (fs_mem fs) = JD_FSTOR_TOTAL_SIZE -> settings fs = None -> header_pages fs = 0 ->
  valid_hdr (fs_mem fs) 0 = false -> valid_hdr (fs_mem fs) hsize = false ->
  Forall settings_pkt_ok pkts -> 2 * zlen pkts < 2 ^ 32 - 2 ->
  exists fs' replies, settings_run state pkts fs log = Ret (state, fs', log ++ replies) /\ settings_steps ∅ pkts replies.
Proof.
  intros Hg Hl Hs Hh Hv0 Hv1 Hok Hn. apply (settings_run_steps pkts Hg Hok 0); [lia|lia|].
  split; [by left|]. right. by split_and!.
Qed.
End SettingsMap.

(** ** Examples *)

Lemma demo_settings_differ : NoDup [0x80; 0x81; 0x84].
Proof. by apply (bool_decide_unpack _). Qed.
Definition demo_settings_spec : SettingsSpec :=
  {| JD_SETTINGS_CMD_GET := 0x80; JD_SETTINGS_CMD_SET := 0x81; JD_SETTINGS_CMD_DELETE := 0x84;
     settings_cmds_differ := demo_settings_differ |}.

(** The replies to packets, on the flash of two areas of 256 bytes. *)
Definition settings_demo (pkts : list (list Z)) : option (list (list Z)) :=
  match settings_run (H := demo_spec) (H0 := demo_settings_spec) [] pkts blank_store ([] : list sent) with
  | Ret (_, _, log) => Some (map s_data log)
  | _ => None
  end.
Definition set_pkt (k : list Z) (v : list Z) : list Z := demo_pkt 0x81 (k ++ 0 :: v).
Definition get_pkt (k : list Z) : list Z := demo_pkt 0x80 k.
Definition delete_pkt (k : list Z) : list Z := demo_pkt 0x84 k.

Lemma settings_service_is_map_witness :
  let pkts := [set_pkt [97] [1; 2; 3]; get_pkt [97]; set_pkt [97] [9]; get_pkt [97]; delete_pkt [97]; get_pkt [97]] in
  (exists fs' replies, settings_run (H := demo_spec) (H0 := demo_settings_spec) [] pkts blank_store [] = Ret ([], fs', replies) /\
    settings_steps (H := demo_spec) (H0 := demo_settings_spec) ∅ pkts replies) /\
  settings_demo pkts = Some [[97; 0; 1; 2; 3]; [97; 0; 9]; [97; 0]].
Proof.
  cbv zeta. split; [|vm_compute; reflexivity].
  destruct (settings_service_is_map (H := demo_spec) (H0 := demo_settings_spec)
    [set_pkt [97] [1; 2; 3]; get_pkt [97]; set_pkt [97] [9]; get_pkt [97]; delete_pkt [97]; get_pkt [97]]
    [] blank_store [] nor_geometry) as (fs' & rs & E & Hs); try (vm_compute; reflexivity); [|by exists fs', rs].
  repeat constructor; try (apply bytes_by_test; vm_compute; reflexivity); vm_compute; discriminate.
Defined.

(** A deleted setting keeps its entry for ever, garbage collection copies it
    like any other: after six settings have been set and deleted the store of
    the example is empty for its readers and has no room for a seventh. *)
Lemma deleted_settings_fill_the_store :
  let used := flat_map (fun k => [set_pkt [k] [1]; delete_pkt [k]]) [97; 98; 99; 100; 101; 102] in
  settings_demo (used ++ [set_pkt [110] [1]; get_pkt [110]]) = Some [[110; 0]] /\
  settings_demo [set_pkt [110] [1]; get_pkt [110]] = Some [[110; 0; 1]].
Proof. vm_compute. split; reflexivity. Qed.

(** A DELETE adds an entry: in a full store it can fail, and the setting stays. *)
Lemma delete_fails_in_full_store :
  let full := map (fun k => set_pkt [k] [1]) [97; 98; 99; 100; 101; 102] in
  settings_demo (full ++ [delete_pkt [97]; get_pkt [97]]) = Some [[97; 0; 1]].
Proof. vm_compute. reflexivity. Qed.
