(* ===== verification/Status.v ===== *)
(** * The status light ([services/jd_status_light.c], [inc/jd_io.h])

    Every device shows its state on an RGB (or single) LED: a steady glow per
    channel of the firmware, short blinks that are queued, and colours a host
    sets, faded in. Compiled with [JD_DCFG], so the LED is described by the
    configuration image and driven through [jd_rgb_set]. The pins, the PWM
    channels and the sleep lock are events of a trace. *)
From Stdlib Require Import String.
From S2P Require Import Prelude Frame Util Registers Dcfg.

(** The colours [to_red], [to_green], [to_blue] and the speed in the payload of
    the command, whose struct is generated, and the size of the struct. *)
Class StatusSpec := {
  JD_CONTROL_CMD_SET_STATUS_LIGHT : Z;
  sizeof_set_status_light : Z;
  set_status_light : list Z -> Z * Z * Z * Z;
}.

(** [jd_pwm_init(pin, period, duty, prescaler)]: the channel of a pin. *)
Class Pwm := jd_pwm_init : Z -> Z -> Z -> Z -> Z.

(** ** Encodings *)

Definition JD_BLINK_COLOR (encoded : Z) : Z := Z.land (Z.shiftr encoded 0) 7.
Definition JD_BLINK_REPETITIONS (encoded : Z) : Z := Z.land (Z.shiftr encoded 3) 7.
Definition JD_BLINK_DURATION (encoded : Z) : Z := Z.land (Z.shiftr encoded 6) 3.
Definition JD_BLINK_DURATION_FAINT : Z := 0.
Definition JD_GLOW_CHANNELS : Z := 4.
Definition JD_GLOW_COLOR (g : Z) : Z := Z.land (Z.shiftr g 0) 7.
Definition JD_GLOW_SPEED (g : Z) : Z := Z.land (Z.shiftr g 3) 7.
Definition JD_GLOW_CHANNEL (g : Z) : Z := Z.land (Z.shiftr g 8) (JD_GLOW_CHANNELS - 1).
Definition JD_GLOW (speed channel color : Z) : Z := Z.lor (Z.lor color (Z.shiftl speed 3)) (Z.shiftl channel 8).
Definition JD_GLOW_PROTECT : Z := JD_GLOW 0 0 7.
Definition FRAME_US : Z := 65536.

(** ** State *)

Inductive led_event :=
  | PinSet (pin v : Z)
  | PinOutput (pin : Z)
  | PwmInit (pin period : Z)
  | PwmDuty (id duty : Z)
  | PwmEnable (id : Z) (on : bool)
  | EnterTim
  | LeaveTim
  | RgbExtInit (type pin : Z)
  | RgbExtSet (r g b : Z).

(** [channel_t] *)
Record channel := {
  c_value : Z;    (* uint16_t *)
  c_speed : Z;    (* int16_t *)
  c_target : Z;   (* uint8_t *)
  c_pin : Z;
  c_pwm : Z;
  c_mult : Z;     (* uint8_t *)
  c_prev : Z;     (* uint8_t *)
}.

(** The static variables that describe the LED. *)
Record led_config := {
  led_period : Z;
  led_active_high : bool;
  has_led : bool;
  is_mono : bool;
  is_rgbext : bool;
  apa_type : Z;
  pin_apa_data : Z;
  pin_apa_clk : Z;
}.

(** [status_ctx_t]; the fields of the glow and of the blinks in records of
    their own. *)
Record glow_ctx := { glow : Z; glow_ch : list Z; glow_phase : Z; glow_step : Z }.
Record blink_ctx := { blink_step : Z; blink_rep : Z; queued_blinks : list Z }.
Record status_ctx := {
  step_sample : Z;
  st_glow : glow_ctx;
  st_blink : blink_ctx;
  in_tim : bool;
  color_override : Z;
  channels : list channel;
  st_led : led_config;
  st_trace : list led_event;
}.

Definition set_step_sample (s : status_ctx) (v : Z) : status_ctx :=
  {| step_sample := v; st_glow := st_glow s; st_blink := st_blink s; in_tim := in_tim s;
     color_override := color_override s; channels := channels s; st_led := st_led s; st_trace := st_trace s |}.
Definition set_glow (s : status_ctx) (g : glow_ctx) : status_ctx :=
  {| step_sample := step_sample s; st_glow := g; st_blink := st_blink s; in_tim := in_tim s;
     color_override := color_override s; channels := channels s; st_led := st_led s; st_trace := st_trace s |}.
Definition set_blink (s : status_ctx) (b : blink_ctx) : status_ctx :=
  {| step_sample := step_sample s; st_glow := st_glow s; st_blink := b; in_tim := in_tim s;
     color_override := color_override s; channels := channels s; st_led := st_led s; st_trace := st_trace s |}.
Definition set_in_tim (s : status_ctx) (v : bool) : status_ctx :=
  {| step_sample := step_sample s; st_glow := st_glow s; st_blink := st_blink s; in_tim := v;
     color_override := color_override s; channels := channels s; st_led := st_led s; st_trace := st_trace s |}.
Definition set_override (s : status_ctx) (v : Z) : status_ctx :=
  {| step_sample := step_sample s; st_glow := st_glow s; st_blink := st_blink s; in_tim := in_tim s;
     color_override := v; channels := channels s; st_led := st_led s; st_trace := st_trace s |}.
Definition set_channels (s : status_ctx) (c : list channel) : status_ctx :=
  {| step_sample := step_sample s; st_glow := st_glow s; st_blink := st_blink s; in_tim := in_tim s;
     color_override := color_override s; channels := c; st_led := st_led s; st_trace := st_trace s |}.
Definition set_led (s : status_ctx) (l : led_config) : status_ctx :=
  {| step_sample := step_sample s; st_glow := st_glow s; st_blink := st_blink s; in_tim := in_tim s;
     color_override := color_override s; channels := channels s; st_led := l; st_trace := st_trace s |}.
Definition led_emit (s : status_ctx) (es : list led_event) : status_ctx :=
  {| step_sample := step_sample s; st_glow := st_glow s; st_blink := st_blink s; in_tim := in_tim s;
     color_override := color_override s; channels := channels s; st_led := st_led s; st_trace := st_trace s ++ es |}.

Definition set_fade (c : channel) (value speed target : Z) : channel :=
  {| c_value := value; c_speed := speed; c_target := target; c_pin := c_pin c; c_pwm := c_pwm c;
     c_mult := c_mult c; c_prev := c_prev c |}.
Definition set_prev (c : channel) (v : Z) : channel :=
  {| c_value := c_value c; c_speed := c_speed c; c_target := c_target c; c_pin := c_pin c; c_pwm := c_pwm c;
     c_mult := c_mult c; c_prev := v |}.
Definition set_wiring (c : channel) (pin pwm mult : Z) : channel :=
  {| c_value := c_value c; c_speed := c_speed c; c_target := c_target c; c_pin := pin; c_pwm := pwm;
     c_mult := u8 mult; c_prev := c_prev c |}.

Definition glow_set (g : glow_ctx) (v phase step : Z) : glow_ctx :=
  {| glow := v; glow_ch := glow_ch g; glow_phase := phase; glow_step := step |}.

(** ** Driving the LED *)

(** The bits of a byte on the data pin, each with a pulse of the clock. *)
Definition apa_bit (l : led_config) (v j : Z) : list led_event :=
  [PinSet (pin_apa_data l) (zbool (negb (Z.land v (Z.shiftl 1 j) =? 0))); PinSet (pin_apa_clk l) 1; PinSet (pin_apa_clk l) 0].
Definition apa_buf (r g b : Z) : list Z := [0; 0; 0; 0; 0xff; b; g; r; 0; 0; 0; 0].
Definition apa_set (r g b : Z) (s : status_ctx) : status_ctx :=
  led_emit s (flat_map (fun v => flat_map (apa_bit (st_led s) v) [7; 6; 5; 4; 3; 2; 1; 0]) (apa_buf r g b)).

Definition pwm_duty (l : led_config) (v : Z) : Z :=
  if led_active_high l then (if v >=? led_period l then led_period l - 1 else v)
  else (let c := led_period l - v in if c <? 0 then 0 else c).
Definition pwm_channel (l : led_config) (ch : channel) (v : Z) : list led_event :=
  let c := pwm_duty l v in
  PwmDuty (c_pwm ch) c ::
  (if c =? 0 then [PinSet (c_pin ch) (zbool (negb (led_active_high l))); PwmEnable (c_pwm ch) false]
   else [PwmEnable (c_pwm ch) true]).

Definition jd_rgb_set (r g b : Z) (s : status_ctx) : status_ctx :=
  let l := st_led s in
  if negb (apa_type l =? 0) then apa_set r g b s
  else if is_rgbext l then led_emit s [RgbExtSet r g b]
  else if negb (is_mono l) then
    let s := led_emit s (concat (zip_with (pwm_channel l) (channels s) [r; g; b])) in
    let sum := r + g + b in
    if (sum =? 0) && in_tim s then set_in_tim (led_emit s [LeaveTim]) false
    else if negb (sum =? 0) && negb (in_tim s) then set_in_tim (led_emit s [EnterTim]) true
    else s
  else
    let pin := default 0 (c_pin <$> channels s !! 0%nat) in
    if negb (r + g + b =? 0) then led_emit (set_in_tim s true) [PinSet pin (zbool (led_active_high l))]
    else led_emit (set_in_tim s false) [PinSet pin (zbool (negb (led_active_high l)))].

Definition jd_status_has_color (s : status_ctx) : bool := has_led (st_led s) && negb (is_mono (st_led s)).

(** The level of channel [i] on the LED. *)
Definition led_level (override : Z) (i : nat) (ch : channel) : Z :=
  let c := c_value ch in
  let c := if negb (override =? 0)
           then (if negb (Z.land override (Z.shiftl 1 (Z.of_nat i)) =? 0) then 0xff00 else 0) else c in
  let c := Z.shiftr (c * c_mult ch) 16 in
  if c >? 0xff then 0xff else c.

Definition ch_prev (s : status_ctx) (i : nat) : Z := default 0 (c_prev <$> channels s !! i).

Definition rgbled_show (s : status_ctx) : status_ctx :=
  let levels := imap (led_level (color_override s)) (channels s) in
  let chg := negb (bool_decide (map c_prev (channels s) = levels)) in
  let s := set_channels s (zip_with set_prev (channels s) levels) in
  if chg then jd_rgb_set (ch_prev s 0) (ch_prev s 1) (ch_prev s 2) s else s.

(** ** Fading and glowing *)


Definition fade_to (speed to : Z) (ch : channel) : channel :=
  set_fade ch (c_value ch) (s16 (Z.shiftr ((to - Z.shiftr (c_value ch) 8) * speed) 1)) to.

(** [anim] is the colours and the speed. *)
Definition jd_status_set (s : status_ctx) (anim : Z * Z * Z * Z) : status_ctx :=
  let '(r, g, b, speed) := anim in
  set_channels s (zip_with (fun ch to => fade_to speed to ch) (channels s) [r; g; b]).

(** [for (int i = JD_GLOW_CHANNELS - 1; i >= 0; i--)]: the channel shown. *)
Fixpoint top_glow (i : nat) (chs : list Z) : Z :=
  let v := default 0 (chs !! i) in
  match i with
  | O => v
  | S i => if negb (v =? 0) then v else top_glow i chs
  end.

Definition re_glow (now : Z) (s : status_ctx) : status_ctx :=
  let g := st_glow s in
  if glow g =? JD_GLOW_PROTECT then s
  else
    let v := top_glow (Z.to_nat (JD_GLOW_CHANNELS - 1)) (glow_ch g) in
    let s := if negb (glow g =? v) then set_glow s (glow_set g v 0 now) else s in
    if glow (st_glow s) =? 0 then jd_status_set s (0, 0, 0, 100) else s.

(** [speeds]: speed, time on and time off. *)
Definition speeds : list (Z * Z * Z) :=
  [(1, 1000, 1000000); (50, 1000000, 1000); (100, 1000000, 1000000); (150, 500000, 500000);
   (150, 250000, 250000); (150, 250000, 1750000); (0, 500000, 500000); (0, 250000, 250000)].

Definition set_blink_color (encoded : Z) (s : status_ctx) : status_ctx :=
  rgbled_show (set_override s (Z.land encoded 7)).

Definition blink_upd (s : status_ctx) (step rep : Z) (q : list Z) : status_ctx :=
  set_blink s {| blink_step := step; blink_rep := rep; queued_blinks := q |}.

(** [queued_blinks[i - 1] = queued_blinks[i]] for [i] from 1: the last place
    keeps its value. *)
Definition shift_blinks (q : list Z) : list Z := drop 1 q ++ drop (length q - 1) q.

(** The part of [jd_status_process] that shows the blinks. *)
Definition process_blinks (now : Z) (s : status_ctx) : status_ctx :=
  let encoded := default 0 (queued_blinks (st_blink s) !! 0%nat) in
  if encoded =? 0 then s
  else
    let '(due, step) := jd_should_sample now (blink_step (st_blink s)) (Z.shiftl 128 10) in
    if negb due then s
    else
      let b := st_blink s in
      let s := blink_upd s step (blink_rep b) (queued_blinks b) in
      let s :=
        if JD_BLINK_DURATION encoded =? JD_BLINK_DURATION_FAINT then
          blink_upd s step (u8 (blink_rep b + 2)) (queued_blinks b)
        else if negb (Z.land (blink_rep b) 1 =? 0) then
          blink_upd (set_blink_color 0 s) step (u8 (blink_rep b + 1)) (queued_blinks b)
        else
          blink_upd (set_blink_color encoded s) (u32 (now + JD_BLINK_DURATION encoded * Z.shiftl 8 10))
            (u8 (blink_rep b + 1)) (queued_blinks b) in
      if Z.shiftr (blink_rep (st_blink s)) 1 >=? JD_BLINK_REPETITIONS encoded then
        blink_upd s (u32 (now + Z.shiftl 256 10)) (blink_rep (st_blink s)) (shift_blinks (queued_blinks (st_blink s)))
      else s.

(** The part that starts the phases of the glow. *)
Definition process_glow (now : Z) (s : status_ctx) : status_ctx :=
  let g := st_glow s in
  if negb (glow g =? 0) && in_past now (glow_step g) then
    if glow g =? JD_GLOW_PROTECT then re_glow now (set_glow s (glow_set g 0 (glow_phase g) (glow_step g)))
    else
      let '(speed, time_on, time_off) := default (0, 0, 0) (speeds !! Z.to_nat (JD_GLOW_SPEED (glow g))) in
      let c := if glow_phase g =? 0 then 0 else JD_GLOW_COLOR (glow g) in
      let g := if glow_phase g =? 0 then glow_set g (glow g) 1 (u32 (now + time_off))
               else glow_set g (glow g) 0 (u32 (now + time_on)) in
      let to m := if negb (Z.land c m =? 0) then 8 else 0 in
      jd_status_set (set_glow s g) (to 1, to 2, to 4, speed)
  else s.

(** One frame of the fade of a channel. *)
Definition fade_step (ch : channel) : channel :=
  let v := c_value ch + c_speed ch in
  if (c_speed ch =? 0)
     || ((c_speed ch <? 0) && (Z.shiftr v 8 <? c_target ch))
     || ((c_speed ch >? 0) && (Z.shiftr v 8 >? c_target ch))
  then set_fade ch (u16 (Z.shiftl (c_target ch) 8)) 0 (c_target ch)
  else set_fade ch (u16 v) (c_speed ch) (c_target ch).

Definition jd_status_process (now : Z) (s : status_ctx) : status_ctx :=
  let s := process_blinks now s in
  let '(due, step) := jd_should_sample now (step_sample s) FRAME_US in
  if negb due then s
  else
    let s := process_glow now (set_step_sample s step) in
    let chs := map fade_step (channels s) in
    let chg := negb (bool_decide (map c_value (channels s) = map c_value chs)) in
    let s := set_channels s chs in
    if chg then rgbled_show s else s.

(** ** Requests *)

Definition jd_status_handle_packet `{StatusSpec} (now : Z) (pkt : list Z) (s : status_ctx) : Z * status_ctx :=
  if p_service_command pkt =? JD_CONTROL_CMD_SET_STATUS_LIGHT then
    (1, if p_service_size pkt >=? sizeof_set_status_light then
          let g := st_glow s in
          jd_status_set (set_glow s (glow_set g JD_GLOW_PROTECT (glow_phase g) (u32 (now + Z.shiftl 2 20))))
            (set_status_light (pkt_payload pkt))
        else s)
  else (0, s).

Fixpoint blink_loop (n i : nat) (now encoded : Z) (s : status_ctx) : status_ctx :=
  match n with
  | O => s
  | S n =>
      let b := st_blink s in
      let q := default 0 (queued_blinks b !! i) in
      if q =? encoded then s
      else if q =? 0 then
        if negb (JD_BLINK_DURATION encoded =? JD_BLINK_DURATION_FAINT) || Nat.eqb i 0 then
          let queue := <[i := encoded]> (queued_blinks b) in
          if Nat.eqb i 0 then blink_upd s now 0 queue else blink_upd s (blink_step b) (blink_rep b) queue
        else s
      else blink_loop n (S i) now encoded s
  end.
Definition jd_blink (now encoded : Z) (s : status_ctx) : status_ctx :=
  blink_loop (length (queued_blinks (st_blink s))) 0 now encoded s.

(** [g] is the [uint32_t] argument. *)
Definition jd_glow (now g : Z) (s : status_ctx) : status_ctx :=
  let ch := JD_GLOW_CHANNEL g in
  let v := u8 g in
  let c := st_glow s in
  if default 0 (glow_ch c !! Z.to_nat ch) =? v then s
  else re_glow now (set_glow s {| glow := glow c; glow_ch := <[Z.to_nat ch := v]> (glow_ch c);
                                  glow_phase := glow_phase c; glow_step := glow_step c |}).

(** ** Start *)

Definition channel0 : channel :=
  {| c_value := 0; c_speed := 0; c_target := 0; c_pin := 0; c_pwm := 0; c_mult := 0; c_prev := 0 |}.
Definition led0 : led_config :=
  {| led_period := 0; led_active_high := false; has_led := false; is_mono := false; is_rgbext := false;
     apa_type := 0; pin_apa_data := 0; pin_apa_clk := 0 |}.
Definition status0 : status_ctx :=
  {| step_sample := 0; st_glow := {| glow := 0; glow_ch := [0; 0; 0; 0]; glow_phase := 0; glow_step := 0 |};
     st_blink := {| blink_step := 0; blink_rep := 0; queued_blinks := [0; 0; 0] |};
     in_tim := false; color_override := 0; channels := [channel0; channel0; channel0]; st_led := led0; st_trace := [] |}.

Section RgbInit.
Context `{Pwm} (base : config) (in_irq : bool).

(** [pin] and [pwm] of the channels, for a configuration with three pins. *)
Fixpoint rgb_channels (i : Z) (l : led_config) (chs : list channel) (keybuf : list Z) (d : dcfg)
    : outcome (list channel * list led_event * list Z * dcfg) :=
  match chs with
  | [] => Ret ([], [], keybuf, d)
  | ch :: chs =>
      let r := dcfg_idx_key keybuf (Some (chars "led.rgb")) i (Some (chars "pin")) in
      '(pin, keybuf, d) ← dcfg_get_pin base in_irq d (snd r) (key_of r);
      let pwm := u8 (jd_pwm_init pin (led_period l) 0 1) in
      let r := dcfg_idx_key keybuf (Some (chars "led.rgb")) i (Some (chars "mult")) in
      '(mult, d) ← dcfg_get_i32 base in_irq d (key_of r) 255;
      '(chs, es, keybuf, d) ← rgb_channels (i + 1) l chs (snd r) d;
      Ret (set_wiring ch pin pwm mult :: chs, PwmInit pin (led_period l) :: es, keybuf, d)
  end.

(** [keybuf] is the static buffer of [dcfg_idx_key]. *)
Definition jd_rgb_init (keybuf : list Z) (d : dcfg) (s : status_ctx) : outcome (status_ctx * list Z * dcfg) :=
  '(mono, d) ← dcfg_get_bool base in_irq d (Some (chars "led.isMono"));
  '(pin, keybuf, d) ← dcfg_get_pin base in_irq d keybuf (Some (chars "led.pin"));
  '(led_type, d) ← dcfg_get_i32 base in_irq d (Some (chars "led.type")) 0;
  let l := st_led s in
  if negb (led_type =? 0) then
    let s := set_channels s (map (fun ch => set_wiring ch (c_pin ch) (c_pwm ch) 255) (channels s)) in
    if (led_type =? 2) || (led_type =? 3) then
      '(clk, keybuf, d) ← dcfg_get_pin base in_irq d keybuf (Some (chars "led.pinCLK"));
      let s := set_led s {| led_period := 256; led_active_high := led_active_high l; has_led := true; is_mono := mono;
                            is_rgbext := is_rgbext l; apa_type := led_type; pin_apa_data := pin; pin_apa_clk := clk |} in
      Ret (apa_set 0 0 0 (led_emit s [PinSet pin 0; PinSet clk 0; PinOutput pin; PinOutput clk]), keybuf, d)
    else
      let s := set_led s {| led_period := 256; led_active_high := led_active_high l; has_led := true; is_mono := mono;
                            is_rgbext := true; apa_type := apa_type l; pin_apa_data := pin_apa_data l;
                            pin_apa_clk := pin_apa_clk l |} in
      Ret (jd_rgb_set 0 0 0 (led_emit s [RgbExtInit led_type pin]), keybuf, d)
  else
    let r := dcfg_idx_key keybuf (Some (chars "led.rgb")) 0 (Some (chars "pin")) in
    '(pin_r, keybuf, d) ← dcfg_get_pin base in_irq d (snd r) (key_of r);
    let led := negb ((pin_r =? NO_PIN) && (pin =? NO_PIN)) in
    let mono := (pin_r =? NO_PIN) || mono in
    '(high, d) ← dcfg_get_bool base in_irq d (Some (chars "led.activeHigh"));
    let l := {| led_period := 256; led_active_high := high; has_led := led; is_mono := mono; is_rgbext := is_rgbext l;
                apa_type := apa_type l; pin_apa_data := pin_apa_data l; pin_apa_clk := pin_apa_clk l |} in
    let s := set_led s l in
    if mono then
      let s := set_channels s (map (fun ch => set_wiring ch pin (c_pwm ch) 255) (channels s)) in
      Ret (led_emit s [PinSet pin (zbool (negb high)); PinOutput pin], keybuf, d)
    else
      '(chs, es, keybuf, d) ← rgb_channels 0 l (channels s) keybuf d;
      Ret (led_emit (set_channels s chs) es, keybuf, d).

Definition jd_status_init (keybuf : list Z) (d : dcfg) (s : status_ctx) : outcome (status_ctx * list Z * dcfg) :=
  '(s, keybuf, d) ← jd_rgb_init keybuf d s; Ret (rgbled_show s, keybuf, d).
End RgbInit.

(** ** The LED shows what the state says *)

Definition wiring (s : status_ctx) : led_config * list (Z * Z * Z) :=
  (st_led s, map (fun ch => (c_pin ch, c_pwm ch, c_mult ch)) (channels s)).
Definition levels (s : status_ctx) : list Z := imap (led_level (color_override s)) (channels s).
Definition prevs (s : status_ctx) : list Z := map c_prev (channels s).

(** How often the sleep lock of the timer is held. *)
Definition lock_event (e : led_event) : Z := match e with EnterTim => 1 | LeaveTim => -1 | _ => 0 end.
Definition lock_count (tr : list led_event) : Z := foldr (fun e n => lock_event e + n) 0 tr.

(** The LED is driven through [jd_pwm_set_duty]. *)
Definition by_pwm (l : led_config) : bool := (apa_type l =? 0) && negb (is_rgbext l) && negb (is_mono l).

(** The last thing done to the LED is to show [prev]; [tr0] is the trace when
    nothing was shown yet. *)
Definition shown (tr0 : list led_event) (s : status_ctx) : Prop :=
  prevs s = [0; 0; 0] /\ st_trace s = tr0 \/
  exists s0, wiring s0 = wiring s /\ st_trace s = st_trace (jd_rgb_set (ch_prev s 0) (ch_prev s 1) (ch_prev s 2) s0).

Definition lit (s : status_ctx) : bool := negb (ch_prev s 0 + ch_prev s 1 + ch_prev s 2 =? 0).

Definition driven (tr0 : list led_event) (s : status_ctx) : Prop :=
  length (channels s) = 3%nat /\ shown tr0 s /\
  lock_count (st_trace s) = (if by_pwm (st_led s) then zbool (lit s) else 0) /\
  (by_pwm (st_led s) = true -> in_tim s = lit s).

Lemma lock_count_app a b : lock_count (a ++ b) = lock_count a + lock_count b.
Proof. unfold lock_count. induction a as [|e a IH]; simpl; [done|]. rewrite IH. lia. Qed.

Lemma lock_count_quiet tr : Forall (fun e => lock_event e = 0) tr -> lock_count tr = 0.
Proof. induction 1 as [|e tr He _ IH]; [done|]. unfold lock_count in *. simpl. by rewrite He, IH. Qed.

(** What showing a colour does to the lock. *)
Lemma jd_rgb_set_lock r g b s :
  lock_count (st_trace (jd_rgb_set r g b s)) =
    lock_count (st_trace s) + (if by_pwm (st_led s) then zbool (negb (r + g + b =? 0)) - zbool (in_tim s) else 0) /\
  (by_pwm (st_led s) = true -> in_tim (jd_rgb_set r g b s) = negb (r + g + b =? 0)).
Proof.
  unfold jd_rgb_set, by_pwm. destruct (apa_type (st_led s) =? 0) eqn:E1; cbn [negb andb].
  2: { unfold apa_set, led_emit. cbn [st_trace in_tim]. split; [|done]. rewrite lock_count_app, (lock_count_quiet (flat_map _ _)); [done|].
       apply Forall_forall. intros e He. unfold apa_buf in He. apply list_elem_of_In, in_flat_map in He as (v & _ & He).
       apply in_flat_map in He as (j & _ & He). unfold apa_bit in He. simpl in He. by destruct He as [<-|[<-|[<-|[]]]]. }
  destruct (is_rgbext (st_led s)) eqn:E2; cbn [negb andb].
  { cbn [st_trace led_emit in_tim]. rewrite lock_count_app. split; [done|done]. }
  destruct (is_mono (st_led s)) eqn:E3; cbn [negb andb].
  { split; [|done]. destruct (r + g + b =? 0); cbn [negb led_emit set_in_tim st_trace in_tim]; rewrite lock_count_app; done. }
  set (es := concat _). assert (lock_count es = 0) as He.
  { apply lock_count_quiet, Forall_concat. subst es. generalize (channels s) as chs, [r; g; b] as vs.
    induction chs as [|ch chs IH]; intros [|v vs]; try by constructor. cbn [zip_with]. constructor; [|apply IH].
    unfold pwm_channel. cbv zeta. destruct (pwm_duty _ v =? 0); repeat constructor. }
  cbn [in_tim led_emit]. destruct (r + g + b =? 0) eqn:E4, (in_tim s) eqn:E5; cbn [negb andb led_emit set_in_tim st_trace in_tim];
    (split; [|done || (intros _; done)]); rewrite ?lock_count_app, He; unfold zbool; change (lock_count [LeaveTim]) with (-1); change (lock_count [EnterTim]) with 1; lia.
Qed.

(** [jd_rgb_set] changes the outputs only. *)
Lemma jd_rgb_set_frame r g b s : exists t es, jd_rgb_set r g b s = led_emit (set_in_tim s t) es.
Proof.
  assert (forall es, led_emit s es = led_emit (set_in_tim s (in_tim s)) es) as H1 by (by destruct s).
  assert (forall s es es', led_emit (led_emit s es) es' = led_emit s (es ++ es')) as H2.
  { intros. unfold led_emit. simpl. by rewrite <- app_assoc. }
  unfold jd_rgb_set, apa_set. repeat case_match; rewrite ?H2.
  all: first [eexists _, _; apply H1 | match goal with
    | |- context [set_in_tim (led_emit _ ?x) ?b] => exists b, x; reflexivity
    | |- context [led_emit (set_in_tim _ ?b) ?x] => exists b, x; reflexivity
    end].
Qed.

Lemma show_driven tr0 s : driven tr0 s ->
  driven tr0 (rgbled_show s) /\ prevs (rgbled_show s) = levels (rgbled_show s) /\
  exists t es, rgbled_show s = led_emit (set_in_tim (set_channels s (zip_with set_prev (channels s) (levels s))) t) es.
Proof.
  intros (D1 & D2 & D3 & D4). unfold rgbled_show. fold (levels s). fold (prevs s).
  set (s1 := set_channels s (zip_with set_prev (channels s) (levels s))).
  assert (length (channels s1) = 3%nat /\ wiring s1 = wiring s /\ prevs s1 = levels s /\ levels s1 = levels s) as (L1 & L2 & L3 & L4).
  { unfold s1, wiring, prevs, levels. cbn [channels set_channels color_override st_led]. destruct (channels s) as [|a [|b [|c [|]]]]; try done. }
  destruct (bool_decide_reflect (prevs s = levels s)) as [Heq|Hne]; cbn [negb].
  - assert (s1 = s) as ->.
    { unfold s1. rewrite <- Heq. unfold prevs. destruct s as [a b c d e chs f g]. unfold set_channels; cbn [channels step_sample st_glow st_blink in_tim color_override st_led st_trace] in *. f_equal.
      clear. induction chs as [|[]]; [done|]. cbn. by f_equal. }
    split; [done|]. split; [done|]. exists (in_tim s), []. unfold led_emit; cbn. rewrite app_nil_r. by destruct s.
  - pose proof (jd_rgb_set_lock (ch_prev s1 0) (ch_prev s1 1) (ch_prev s1 2) s1) as [K1 K2].
    destruct (jd_rgb_set_frame (ch_prev s1 0) (ch_prev s1 1) (ch_prev s1 2) s1) as (t & es & Hfr).
    set (s2 := jd_rgb_set _ _ _ s1) in *.
    assert (channels s2 = channels s1 /\ st_led s2 = st_led s1 /\ color_override s2 = color_override s1) as (F1 & F2 & F3) by (rewrite Hfr; done).
    assert (forall i, ch_prev s2 i = ch_prev s1 i) as Hcp by (intros; unfold ch_prev; by rewrite F1).
    assert (lit s2 = negb (ch_prev s1 0 + ch_prev s1 1 + ch_prev s1 2 =? 0)) as Hlit by (unfold lit; by rewrite !Hcp).
    split; [|split].
    + split_and!.
      * by rewrite F1.
      * right. exists s1. split; [unfold wiring; by rewrite F1, F2|]. by rewrite !Hcp.
      * rewrite F2, Hlit, K1. change (st_trace s1) with (st_trace s). change (st_led s1) with (st_led s). change (in_tim s1) with (in_tim s).
        rewrite D3. destruct (by_pwm (st_led s)); [|done]. rewrite D4 by done. lia.
      * rewrite F2, Hlit. exact K2.
    + unfold prevs, levels. rewrite F1, F3. fold (prevs s1) (levels s1). by rewrite L3, L4.
    + by exists t, es.
Qed.

(** *** All histories *)

Inductive status_op := OpBlink (now e : Z) | OpGlow (now g : Z) | OpPacket (now : Z) (pkt : list Z) | OpProcess (now : Z).
Definition status_step `{StatusSpec} (s : status_ctx) (o : status_op) : status_ctx :=
  match o with
  | OpBlink now e => jd_blink now e s
  | OpGlow now g => jd_glow now g s
  | OpPacket now pkt => snd (jd_status_handle_packet now pkt s)
  | OpProcess now => jd_status_process now s
  end.
Definition status_run `{StatusSpec} (s : status_ctx) (ops : list status_op) : status_ctx := fold_left status_step ops s.

(** The glow is that of the highest channel that has one, unless a host has
    set a colour a moment ago. *)
Definition glow_ok (s : status_ctx) : Prop :=
  glow (st_glow s) = JD_GLOW_PROTECT \/ glow (st_glow s) = top_glow 3 (glow_ch (st_glow s)).

Record status_inv (tr0 : list led_event) (s : status_ctx) : Prop := {
  si_driven : driven tr0 s;
  si_levels : prevs s = levels s;
  si_glow : glow_ok s;
}.

(** Channels that differ in the fade only. *)
Definition same_light (chs chs' : list channel) : Prop :=
  map (fun ch => (c_pin ch, c_pwm ch, c_mult ch, c_prev ch)) chs' = map (fun ch => (c_pin ch, c_pwm ch, c_mult ch, c_prev ch)) chs.

Lemma driven_channels tr0 s chs : driven tr0 s -> same_light (channels s) chs -> driven tr0 (set_channels s chs).
Proof.
  intros (D1 & D2 & D3 & D4) Hs. unfold same_light in Hs.
  assert (prevs (set_channels s chs) = prevs s) as Hp.
  { unfold prevs. cbn [channels set_channels]. apply (f_equal (map snd)) in Hs. rewrite !map_map in Hs. exact Hs. }
  assert (wiring (set_channels s chs) = wiring s) as Hw.
  { unfold wiring. cbn [channels set_channels st_led]. f_equal. apply (f_equal (map fst)) in Hs. rewrite !map_map in Hs. exact Hs. }
  assert (forall i, ch_prev (set_channels s chs) i = ch_prev s i) as Hc.
  { intros i. unfold ch_prev. rewrite <- !list_lookup_fmap. change (c_prev <$> channels (set_channels s chs)) with (prevs (set_channels s chs)). by rewrite Hp. }
  assert (lit (set_channels s chs) = lit s) as Hl by (unfold lit; by rewrite !Hc).
  split_and!.
  - cbn [channels set_channels]. rewrite <- D1. rewrite <- (length_map (fun ch => (c_pin ch, c_pwm ch, c_mult ch, c_prev ch)) chs), Hs. apply length_map.
  - unfold shown. rewrite !Hc, Hp, Hw. exact D2.
  - rewrite Hl. exact D3.
  - rewrite Hl. exact D4.
Qed.

Lemma driven_show_inv tr0 s : driven tr0 s -> glow_ok s -> status_inv tr0 (rgbled_show s).
Proof.
  intros Hd Hg. destruct (show_driven tr0 s Hd) as (H1 & H2 & t & es & E). constructor; [done|done|].
  unfold glow_ok. rewrite E. exact Hg.
Qed.

Lemma status_set_driven tr0 s anim : driven tr0 s -> driven tr0 (jd_status_set s anim) /\ levels (jd_status_set s anim) = levels s.
Proof.
  intros Hd. pose proof (proj1 Hd) as Hl. destruct anim as [[[r g] b] sp]. unfold jd_status_set. split.
  - apply driven_channels; [done|]. unfold same_light. destruct (channels s) as [|x [|y [|z [|]]]]; done.
  - unfold levels. cbn [channels set_channels color_override]. destruct (channels s) as [|x [|y [|z [|]]]]; done.
Qed.

Lemma status_set_prevs s anim : length (channels s) = 3%nat -> prevs (jd_status_set s anim) = prevs s.
Proof.
  intros Hl. destruct anim as [[[r g] b] sp]. unfold jd_status_set, prevs. cbn [channels set_channels].
  destruct (channels s) as [|x [|y [|z [|]]]]; done.
Qed.

Lemma status_set_inv tr0 s anim : driven tr0 s -> prevs s = levels s -> glow_ok s -> status_inv tr0 (jd_status_set s anim).
Proof.
  intros Hd Hp Hg. destruct (status_set_driven tr0 s anim Hd) as [H1 H2]. constructor; [done| |].
  - rewrite status_set_prevs by apply (proj1 Hd). by rewrite H2.
  - by destruct anim as [[[]]].
Qed.

Lemma re_glow_inv tr0 now s : driven tr0 s -> prevs s = levels s -> status_inv tr0 (re_glow now s).
Proof.
  intros Hd Hp. unfold re_glow. destruct (Z.eqb_spec (glow (st_glow s)) JD_GLOW_PROTECT) as [E|E]; [by constructor; [| |left]|].
  set (v := top_glow _ _). set (s1 := if negb _ then _ else s).
  assert (driven tr0 s1 /\ prevs s1 = levels s1 /\ glow_ok s1) as (H1 & H2 & H3).
  { unfold s1. destruct (Z.eqb_spec (glow (st_glow s)) v) as [Ev|Ev]; cbn [negb].
    - split; [done|]. split; [done|]. by right.
    - split; [exact Hd|]. split; [exact Hp|]. by right. }
  destruct (_ =? 0); [by apply status_set_inv|by constructor].
Qed.

Lemma blink_color_inv tr0 e s : status_inv tr0 s -> status_inv tr0 (set_blink_color e s).
Proof. intros [H1 H2 H3]. apply driven_show_inv; [exact H1|exact H3]. Qed.

(** The fields of the blinks do not matter. *)
Lemma blink_upd_inv tr0 s step rep q : status_inv tr0 s -> status_inv tr0 (blink_upd s step rep q).
Proof. intros [H1 H2 H3]. constructor; [exact H1|exact H2|exact H3]. Qed.

Lemma process_blinks_inv tr0 now s : status_inv tr0 s -> status_inv tr0 (process_blinks now s).
Proof.
  intros Hi. unfold process_blinks. set (e := default 0 _). destruct (e =? 0); [done|].
  destruct (jd_should_sample _ _ _) as [due step]. destruct due; [|done]. cbn [negb].
  set (s1 := if JD_BLINK_DURATION e =? JD_BLINK_DURATION_FAINT then _ else _). assert (status_inv tr0 s1) as H1.
  { unfold s1. destruct (_ =? JD_BLINK_DURATION_FAINT); [by repeat apply blink_upd_inv|].
    destruct (negb _); by apply blink_upd_inv, blink_color_inv, blink_upd_inv. }
  destruct (_ >=? _); [by apply blink_upd_inv|done].
Qed.

Lemma process_glow_inv tr0 now s : status_inv tr0 s -> status_inv tr0 (process_glow now s).
Proof.
  intros [H1 H2 H3]. unfold process_glow. destruct (negb (glow (st_glow s) =? 0) && _); [|done].
  destruct (Z.eqb_spec (glow (st_glow s)) JD_GLOW_PROTECT); [by apply re_glow_inv|].
  destruct (default _ _) as [[speed ton] toff]. cbv zeta.
  apply status_set_inv; [exact H1|exact H2|]. destruct H3 as [|H3]; [done|].
  destruct (glow_phase (st_glow s) =? 0); right; exact H3.
Qed.

Lemma fade_step_light ch : (c_pin (fade_step ch), c_pwm (fade_step ch), c_mult (fade_step ch), c_prev (fade_step ch)) = (c_pin ch, c_pwm ch, c_mult ch, c_prev ch).
Proof. unfold fade_step. by destruct (_ || _). Qed.

Lemma status_step_inv `{StatusSpec} tr0 s o : status_inv tr0 s -> status_inv tr0 (status_step s o).
Proof.
  intros Hi. destruct o as [now e|now g|now pkt|now]; cbn [status_step].
  - unfold jd_blink. generalize (length (queued_blinks (st_blink s))) as n, 0%nat as i. intros n. induction n as [|n IH]; intros i; cbn [blink_loop]; [done|].
    destruct (_ =? e); [done|]. destruct (_ =? 0); [|apply IH]. destruct (_ || _); [|done]. destruct (Nat.eqb i 0); by apply blink_upd_inv.
  - unfold jd_glow. destruct (_ =? u8 g); [done|]. destruct Hi as [H1 H2 H3]. by apply re_glow_inv.
  - unfold jd_status_handle_packet. destruct (_ =? _); [|done]. cbn [snd]. destruct (_ >=? _); [|done].
    destruct Hi as [H1 H2 H3]. apply status_set_inv; [exact H1|exact H2|by left].
  - unfold jd_status_process. pose proof (process_blinks_inv tr0 now s Hi) as H1. set (s1 := process_blinks now s) in *.
    destruct (jd_should_sample _ _ _) as [due step]. destruct due; [|done]. cbn [negb].
    assert (status_inv tr0 (process_glow now (set_step_sample s1 step))) as Hi2.
    { apply process_glow_inv. destruct H1 as [A B C]. constructor; [exact A|exact B|exact C]. }
    set (s2 := process_glow now (set_step_sample s1 step)) in *.
    assert (driven tr0 (set_channels s2 (map fade_step (channels s2)))) as Hd.
    { apply driven_channels; [apply Hi2|]. unfold same_light. rewrite map_map. apply map_ext. intros ch. apply fade_step_light. }
    destruct (bool_decide_reflect (map c_value (channels s2) = map c_value (map fade_step (channels s2)))) as [Hv|Hv]; cbn [negb].
    + constructor; [exact Hd| |apply Hi2].
      destruct Hi2 as [D L _]. pose proof (proj1 D) as Hl. unfold prevs, levels in *. cbn [channels set_channels color_override].
      destruct (channels s2) as [|x [|y [|z [|]]]]; try done. cbn in Hv, L |- *. injection Hv as Hx Hy Hz.
      pose proof (fade_step_light x) as Ex. pose proof (fade_step_light y) as Ey. pose proof (fade_step_light z) as Ez.
      injection Ex as _ _ Mx Px. injection Ey as _ _ My Py. injection Ez as _ _ Mz Pz.
      unfold led_level in *. by rewrite Px, Py, Pz, <- Hx, <- Hy, <- Hz, Mx, My, Mz.
    + apply driven_show_inv; [exact Hd|apply Hi2].
Qed.

Lemma status_run_inv `{StatusSpec} tr0 ops : forall s, status_inv tr0 s -> status_inv tr0 (status_run s ops).
Proof. unfold status_run. induction ops as [|o ops IH]; intros s Hi; [done|]. apply IH. by apply status_step_inv. Qed.

Section Start.
Context `{Pwm} (base : config).

Lemma dcfg_get_i32_total d key defl : exists v d', dcfg_get_i32 base false d key defl = Ret (v, d').
Proof. unfold dcfg_get_i32, dcfg_get_entry, dcfg_init. destruct (dcfg_inited d); obind; eauto. Qed.
Lemma dcfg_get_bool_total d key : exists v d', dcfg_get_bool base false d key = Ret (v, d').
Proof. unfold dcfg_get_bool. destruct (dcfg_get_i32_total d key 0) as (v & d' & ->). obind. eauto. Qed.
Lemma dcfg_get_pin_total d keybuf key : exists v b d', dcfg_get_pin base false d keybuf key = Ret (v, b, d').
Proof.
  unfold dcfg_get_pin. assert (exists lbl n d', dcfg_get_string base false d key = Ret (lbl, n, d')) as (lbl & n & d1 & ->).
  { unfold dcfg_get_string, dcfg_init. destruct (dcfg_inited d); obind; (destruct (find_config _ _) as [[]|]; [|eauto]); destruct (_ || _); eauto. }
  obind. destruct lbl; edestruct dcfg_get_i32_total as (v & d2 & ->); obind; eauto.
Qed.

(** The channels keep their fade and their level. *)
Definition dark (ch : channel) : Prop := c_value ch = 0 /\ c_prev ch = 0.

Lemma rgb_channels_total l chs : forall i keybuf d, Forall dark chs ->
  exists chs' es b d', rgb_channels base false i l chs keybuf d = Ret (chs', es, b, d') /\
    length chs' = length chs /\ Forall dark chs' /\ lock_count es = 0.
Proof.
  induction chs as [|ch chs IH]; intros i keybuf d Hz; cbn [rgb_channels]; [by repeat econstructor|].
  apply Forall_cons in Hz as [Hc Hz].
  edestruct dcfg_get_pin_total as (pin & b1 & d1 & ->). obind. edestruct dcfg_get_i32_total as (mult & d2 & ->). obind.
  edestruct IH as (chs' & es & b3 & d3 & -> & Hl & Hd & He); [done|]. obind. repeat econstructor; [cbn; by rewrite Hl|apply Hc|apply Hc|done|done].
Qed.

Lemma dark_inv s : in_tim s = false -> color_override s = 0 -> st_glow s = st_glow status0 -> length (channels s) = 3%nat ->
  Forall dark (channels s) -> lock_count (st_trace s) = 0 -> rgbled_show s = s /\ status_inv (st_trace s) s.
Proof.
  intros Ht Ho Hg Hl Hd Hc.
  assert (prevs s = [0; 0; 0] /\ levels s = [0; 0; 0]) as [Hp Hv].
  { unfold prevs, levels. rewrite Ho. destruct (channels s) as [|x [|y [|z [|]]]]; try done.
    apply Forall_cons in Hd as [[X1 X2] Hd]. apply Forall_cons in Hd as [[Y1 Y2] Hd]. apply Forall_cons in Hd as [[Z1 Z2] _].
    cbn. unfold led_level. rewrite X1, X2, Y1, Y2, Z1, Z2. done. }
  assert (forall i, ch_prev s i = 0) as Hcp.
  { intros i. unfold ch_prev. rewrite <- list_lookup_fmap. change (c_prev <$> channels s) with (prevs s). rewrite Hp. by destruct i as [|[|[|]]]. }
  assert (lit s = false) as Hlit by (unfold lit; by rewrite !Hcp).
  assert (driven (st_trace s) s) as Hdr.
  { split; [done|]. split; [by left|]. rewrite Hc, Ht, Hlit. by destruct (by_pwm _). }
  split.
  - unfold rgbled_show. fold (levels s). fold (prevs s). rewrite Hp, Hv. rewrite bool_decide_eq_true_2 by done. cbn [negb].
    destruct s as [a b c d e chs f g]. unfold set_channels; cbn in *. f_equal. unfold prevs in Hp; cbn in Hp.
    destruct chs as [|[] [|[] [|[] [|]]]]; try done. cbn in *. injection Hp as -> -> ->. done.
  - constructor; [done|by rewrite Hp, Hv|right; by rewrite Hg].
Qed.

(** Starting up leaves the LED dark. *)
Lemma jd_status_init_inv keybuf d : exists s b d',
  jd_status_init base false keybuf d status0 = Ret (s, b, d') /\ status_inv (st_trace s) s.
Proof.
  assert (forall s (b : list Z) (d' : dcfg), in_tim s = false -> color_override s = 0 -> st_glow s = st_glow status0 -> length (channels s) = 3%nat ->
    Forall dark (channels s) -> lock_count (st_trace s) = 0 ->
    exists s' b' d'', ('(s, keybuf, d) ← Ret (s, b, d'); Ret (rgbled_show s, keybuf, d)) = Ret (s', b', d'') /\ status_inv (st_trace s') s') as Hend.
  { intros s b d' H1 H2 H3 H4 H5 H6. obind. destruct (dark_inv s) as [-> Hi]; try done. eauto. }
  unfold jd_status_init, jd_rgb_init.
  edestruct dcfg_get_bool_total as (mono & d1 & ->). obind. edestruct dcfg_get_pin_total as (pin & b1 & d2 & ->). obind.
  edestruct dcfg_get_i32_total as (led_type & d3 & ->). obind.
  destruct (negb (led_type =? 0)).
  - destruct ((led_type =? 2) || (led_type =? 3)).
    + edestruct dcfg_get_pin_total as (clk & b2 & d4 & ->). obind. apply Hend; try done. by repeat constructor.
    + apply Hend; try done. by repeat constructor.
  - edestruct dcfg_get_pin_total as (pin_r & b2 & d4 & ->). obind. edestruct dcfg_get_bool_total as (high & d5 & ->). obind.
    destruct (_ || mono).
    + apply Hend; try done. by repeat constructor.
    + set (l := {| led_period := 256 |}). cbn [channels set_led].
      destruct (rgb_channels_total l (channels status0) 0 b2 d5) as (chs & es & b3 & d6 & -> & L1 & L2 & L3); [by repeat constructor|].
      obind. by apply Hend.
Qed.

(** C25. The status light never shows anything stale: started from any
    configuration image (outside of interrupts), after any sequence of blinks,
    glows, colours set by a host and turns of [jd_status_process] at any times,
    the level last given to each channel of the LED is that of its value, or of
    the blink that is on; the sleep lock of the timer is held exactly while a
    PWM-driven LED is lit and never for another one; and the glow is that of
    the highest channel that has one unless a host has set a colour. *)
Theorem status_light_in_sync `{StatusSpec} keybuf d ops : exists s0 b d',
  jd_status_init base false keybuf d status0 = Ret (s0, b, d') /\
  let s := status_run s0 ops in
  prevs s = levels s /\ shown (st_trace s0) s /\ glow_ok s /\
  lock_count (st_trace s) = if by_pwm (st_led s) then zbool (lit s) else 0.
Proof.
  destruct (jd_status_init_inv keybuf d) as (s & b & d' & E & Hi). exists s, b, d'. split; [done|].
  destruct (status_run_inv (st_trace s) ops s Hi) as [(_ & D2 & D3 & _) L G]. by split_and!.
Qed.
End Start.

(** ** Fading *)

Definition fading (ch : channel) (speed to : Z) (m : nat) : channel := Nat.iter m fade_step (fade_to speed to ch).

(** The step of a fade, and whether a value is past the target. *)
Definition fade_speed (v to speed : Z) : Z := Z.shiftr ((to - Z.shiftr v 8) * speed) 1.
Definition past_target (k to v : Z) : Prop := k = 0 \/ k < 0 /\ v < 256 * to \/ 0 < k /\ 256 * to + 256 <= v.

Lemma shiftr_div x n : 0 <= n -> Z.shiftr x n = x / 2 ^ n.
Proof. intros. by apply Z.shiftr_div_pow2. Qed.

Lemma fade_step_moves ch v k to : 0 <= v + k < 65536 -> ~ past_target k to (v + k) -> fade_step (set_fade ch v k to) = set_fade ch (v + k) k to.
Proof.
  intros Hr Hp. unfold fade_step. cbn [set_fade c_value c_speed c_target]. rewrite !shiftr_div by lia. change (2 ^ 8) with 256.
  destruct (_ || _) eqn:E; [|by rewrite u16_small]. exfalso. apply Hp. unfold past_target.
  rewrite !orb_true_iff, !andb_true_iff, Z.gtb_ltb, Z.gtb_ltb, Z.eqb_eq, !Z.ltb_lt in E.
  destruct E as [[E|[E1 E2]]|[E1 E2]]; Z.to_euclidean_division_equations; lia.
Qed.

Lemma fade_step_ends ch v k to : is_byte to -> past_target k to (v + k) -> fade_step (set_fade ch v k to) = set_fade ch (256 * to) 0 to.
Proof.
  intros Hto Hp. unfold is_byte in Hto. unfold fade_step. cbn [set_fade c_value c_speed c_target]. rewrite !shiftr_div by lia. change (2 ^ 8) with 256.
  destruct (_ || _) eqn:E.
  - rewrite Z.shiftl_mul_pow2 by lia. change (2 ^ 8) with 256. rewrite u16_small by lia. unfold set_fade; cbn. f_equal. lia.
  - exfalso. rewrite !orb_false_iff, !andb_false_iff, Z.gtb_ltb, Z.gtb_ltb, Z.eqb_neq, !Z.ltb_ge in E. unfold past_target in Hp.
    Z.to_euclidean_division_equations. lia.
Qed.

Lemma fade_iter_moves ch v k to m : 0 <= v < 65536 ->
  (forall j, (0 < j <= m)%nat -> 0 <= v + Z.of_nat j * k < 65536 /\ ~ past_target k to (v + Z.of_nat j * k)) ->
  Nat.iter m fade_step (set_fade ch v k to) = set_fade ch (v + Z.of_nat m * k) k to.
Proof.
  intros Hv. induction m as [|m IH]; intros Hj; [cbn; by rewrite Z.add_0_r|]. rewrite Nat.iter_succ.
  rewrite IH by (intros j ?; apply Hj; lia). destruct (Hj (S m) ltac:(lia)) as [H1 H2].
  replace (v + Z.of_nat (S m) * k) with (v + Z.of_nat m * k + k) in * by lia. by apply fade_step_moves.
Qed.

Lemma fade_iter_rest ch to n : is_byte to -> Nat.iter n fade_step (set_fade ch (256 * to) 0 to) = set_fade ch (256 * to) 0 to.
Proof. intros Hto. induction n as [|n IH]; [done|]. rewrite Nat.iter_succ, IH. apply fade_step_ends; [done|by left]. Qed.

(** When a fade ends: the first frame past the target, or the first at all. *)
Definition fade_frames (v k to : Z) : Z :=
  if k =? 0 then 1
  else if k <? 0 then (v - 256 * to) / - k + 1
  else (256 * to + 256 - v + k - 1) / k.

Lemma fade_frames_spec v to speed : 0 <= v < 65536 -> is_byte to -> is_byte speed ->
  let k := fade_speed v to speed in let n := fade_frames v k to in
  -32768 <= k < 32768 /\ 1 <= n <= 1024 /\ past_target k to (v + n * k) /\
  forall j, 0 <= j < n -> Z.min (v / 256) to <= (v + j * k) / 256 <= Z.max (v / 256) to /\
    0 <= v + j * k < 65536 /\ (0 < j -> ~ past_target k to (v + j * k)).
Proof.
  intros Hv Hto Hsp k n. unfold is_byte in *. assert (k = (to - v / 256) * speed / 2) as Hkd by (unfold k, fade_speed; rewrite !shiftr_div by lia; done).
  set (h := v / 256) in *. assert (256 * h <= v < 256 * h + 256 /\ 0 <= h < 256) as [Hh1 Hh2] by (subst h; Z.to_euclidean_division_equations; lia).
  assert (2 * k <= (to - h) * speed < 2 * k + 2) as Hk by (rewrite Hkd; Z.to_euclidean_division_equations; lia).
  assert (-32768 <= k < 32768) by nia. clear Hkd. subst n. clearbody k. split; [done|]. unfold fade_frames, past_target.
  destruct (Z.eqb_spec k 0) as [->|Hk0]; [|destruct (Z.ltb_spec k 0) as [Hneg|Hpos]].
  - split; [lia|]. split; [by left|]. intros j Hj. replace j with 0 by lia. rewrite Z.mul_0_l, Z.add_0_r.
    fold h. lia.
  - assert (to < h) as Hlt by nia. assert (1 <= speed) by nia.
    assert (h - to <= -2 * k) as Hd by (pose proof (Z.mul_le_mono_nonneg_l 1 speed (h - to) ltac:(lia) ltac:(lia)); lia).
    set (n := (v - 256 * to) / - k). assert (- k * n <= v - 256 * to < - k * n + - k) as Hn by (subst n; Z.to_euclidean_division_equations; lia).
    assert (0 <= n < 1024) by nia. clearbody n. split; [lia|]. split; [right; left; nia|]. intros j Hj.
    assert (256 * to <= v + j * k <= v) as Hb by nia. split; [|split; [lia|intros; nia]].
    split; [apply Z.div_le_lower_bound; lia|]. rewrite Z.max_l by lia. assert ((v + j * k) / 256 < h + 1); [|lia]. apply Z.div_lt_upper_bound; lia.
  - assert (h < to) as Hlt by nia. assert (1 <= speed) by nia.
    assert (to - h <= 2 * k + 1) as Hd by (pose proof (Z.mul_le_mono_nonneg_l 1 speed (to - h) ltac:(lia) ltac:(lia)); lia).
    set (n := (256 * to + 256 - v + k - 1) / k). assert (k * n <= 256 * to + 256 - v + k - 1 < k * n + k) as Hn by (subst n; Z.to_euclidean_division_equations; lia).
    assert (1 <= n <= 1024) by nia. clearbody n. split; [lia|]. split; [right; right; nia|]. intros j Hj.
    assert (v <= v + j * k < 256 * to + 256) as Hb by nia. split; [|split; [lia|intros; nia]].
    split; [apply Z.div_le_lower_bound; lia|]. rewrite Z.max_r by lia. assert ((v + j * k) / 256 < to + 1); [|lia]. apply Z.div_lt_upper_bound; lia.
Qed.

(** A fade reaches its colour: from any value and for any target and speed,
    after at most 1024 frames the channel is at the target and stays there; on
    the way the value changes by the same step every frame and what the LED
    shows of it never leaves the range between the old colour and the new. *)
Lemma status_fade_converges ch to speed :
  0 <= c_value ch < 65536 -> is_byte to -> is_byte speed ->
  let v := c_value ch in let k := fade_speed v to speed in let n := fade_frames v k to in
  1 <= n <= 1024 /\
  (forall m, n <= Z.of_nat m -> fading ch speed to m = set_fade ch (256 * to) 0 to) /\
  (forall m, Z.of_nat m < n -> c_value (fading ch speed to m) = v + Z.of_nat m * k /\
    Z.min (v / 256) to <= c_value (fading ch speed to m) / 256 <= Z.max (v / 256) to).
Proof.
  intros Hv Hto Hsp v k n. destruct (fade_frames_spec v to speed Hv Hto Hsp) as (Hk & Hn & Hp & Hj). fold k in Hk, Hn, Hp, Hj. fold n in Hn, Hp, Hj.
  assert (fade_to speed to ch = set_fade ch v k to) as Hs.
  { unfold fade_to. fold v. fold (fade_speed v to speed). fold k. f_equal. unfold s16. rewrite Z.mod_small; lia. }
  assert (forall m, Z.of_nat m < n -> fading ch speed to m = set_fade ch (v + Z.of_nat m * k) k to) as Hm.
  { intros m Hm. unfold fading. rewrite Hs. apply fade_iter_moves; [done|]. intros j ?. destruct (Hj (Z.of_nat j) ltac:(lia)) as (_ & ? & ?). split; [done|]. lia || auto with zarith. }
  split; [done|]. split.
  - intros m Hle. replace m with ((m - Z.to_nat n) + S (Z.to_nat n - 1))%nat by lia. unfold fading. rewrite Nat.iter_add, Nat.iter_succ.
    fold (fading ch speed to (Z.to_nat n - 1)). rewrite Hm by lia.
    rewrite fade_step_ends; [|done|by replace (v + Z.of_nat (Z.to_nat n - 1) * k + k) with (v + n * k) by (rewrite Nat2Z.inj_sub, Z2Nat.id by lia; lia)].
    etransitivity; [|apply (fade_iter_rest ch to (m - Z.to_nat n) Hto)]. done.
  - intros m Hlt. rewrite Hm by done. split; [done|]. apply (Hj (Z.of_nat m)). lia.
Qed.

(** ** One blink *)

Lemma rgbled_show_frame s : exists chs t es, rgbled_show s = led_emit (set_in_tim (set_channels s chs) t) es.
Proof.
  unfold rgbled_show. set (chs := zip_with set_prev _ _). destruct (negb _).
  - destruct (jd_rgb_set_frame (ch_prev (set_channels s chs) 0) (ch_prev (set_channels s chs) 1) (ch_prev (set_channels s chs) 2) (set_channels s chs)) as (t & es & ->). eauto.
  - exists chs, (in_tim s), []. unfold led_emit; cbn. by rewrite app_nil_r.
Qed.

(** Calls of [process_blinks] at the times [ts] of an unbounded clock. *)
Definition blink_run (ts : list Z) (s : status_ctx) : status_ctx := fold_left (fun s t => process_blinks (u32 t) s) ts s.

(** After [k] of the phases on, off, on, off, ... of the blink [e] that found
    the colour [o]. *)
Definition blink_at (e o : Z) (k : nat) (s : status_ctx) : Prop :=
  queued_blinks (st_blink s) = (if (k <? 2 * Z.to_nat (JD_BLINK_REPETITIONS e))%nat then [e; 0; 0] else [0; 0; 0]) /\
  blink_rep (st_blink s) = Z.of_nat k /\ 0 <= blink_step (st_blink s) < 2 ^ 32 /\
  color_override s = if Nat.eqb k 0 then o else if Nat.odd k then JD_BLINK_COLOR e else 0.

Lemma reps_range e : 0 <= JD_BLINK_REPETITIONS e < 8.
Proof. unfold JD_BLINK_REPETITIONS. change 7 with (Z.ones 3). rewrite Z.land_ones by lia. apply Z.mod_pos_bound. lia. Qed.
Lemma duration_range e : 0 <= JD_BLINK_DURATION e < 4.
Proof. unfold JD_BLINK_DURATION. change 3 with (Z.ones 2). rewrite Z.land_ones by lia. apply Z.mod_pos_bound. lia. Qed.

Lemma sample_range now sample period : 0 <= sample < 2 ^ 32 -> 0 <= snd (jd_should_sample now sample period) < 2 ^ 32.
Proof. intros Hs. unfold jd_should_sample. repeat case_match; cbn [snd]; done || apply u32_range. Qed.

(** A call that is not due changes nothing, one that is due is the next phase. *)
Lemma blink_phase e o k now s :
  e <> 0 -> JD_BLINK_DURATION e <> JD_BLINK_DURATION_FAINT -> 0 <= now < 2 ^ 32 ->
  (k < 2 * Z.to_nat (JD_BLINK_REPETITIONS e))%nat -> blink_at e o k s ->
  if u32 (blink_step (st_blink s) - now) <? 2 ^ 31 then process_blinks now s = s
  else blink_at e o (S k) (process_blinks now s) /\
       ((S k < 2 * Z.to_nat (JD_BLINK_REPETITIONS e))%nat -> u32 (blink_step (st_blink (process_blinks now s)) - now) <= 2 ^ 17).
Proof.
  intros He Hd Hnow Hk (Hq & Hr & Hst & Ho). pose proof (reps_range e) as Hrr. pose proof (duration_range e).
  rewrite (proj2 (Nat.ltb_lt _ _) Hk) in Hq. unfold process_blinks. rewrite Hq. cbn [lookup list_lookup default from_option id].
  rewrite (proj2 (Z.eqb_neq _ _) He). pose proof (jd_should_sample_schedule now (blink_step (st_blink s)) (Z.shiftl 128 10) Hnow Hst ltac:(done)) as Hs.
  pose proof (sample_range now (blink_step (st_blink s)) (Z.shiftl 128 10) Hst) as Hrange.
  destruct (jd_should_sample now _ _) as [due step]. cbn [snd] in Hrange. destruct Hs as (Hs1 & Hs2 & Hs3).
  destruct (Z.ltb_spec (u32 (blink_step (st_blink s) - now)) (2 ^ 31)) as [Hw|Hw].
  { rewrite (proj2 Hs1 Hw). done. }
  destruct due; [|by exfalso; apply (Z.lt_irrefl (2 ^ 31)); apply Z.le_lt_trans with (1 := Hw), Hs1]. destruct (Hs3 eq_refl) as [Hstep _]. clear Hs1 Hs2 Hs3.
  cbn [negb]. rewrite (proj2 (Z.eqb_neq _ _) Hd). set (s0 := blink_upd s step _ _).
  assert (forall c, exists chs t es, set_blink_color c s0 = led_emit (set_in_tim (set_channels (set_override s0 (Z.land c 7)) chs) t) es) as Hc
    by (intros c; apply rgbled_show_frame).
  assert (JD_BLINK_COLOR e = Z.land e 7) as Hcol by done.
  assert (u8 (blink_rep (st_blink s) + 1) = Z.of_nat (S k)) as Hrep by (rewrite Hr, u8_small; lia).
  assert ((Z.land (blink_rep (st_blink s)) 1 =? 0) = Nat.even k) as Hev.
  { rewrite Hr. change 1 with (Z.ones 1). rewrite Z.land_ones by lia. destruct (Nat.Even_or_Odd k) as [[j ->]|[j ->]].
    - rewrite (proj2 (Nat.even_spec _)) by (by exists j). apply Z.eqb_eq. change (2 ^ 1) with 2. Z.to_euclidean_division_equations; lia.
    - rewrite <- Nat.negb_odd, (proj2 (Nat.odd_spec _)) by (by exists j). apply Z.eqb_neq. change (2 ^ 1) with 2. Z.to_euclidean_division_equations; lia. }
  rewrite Hev, Hrep. set (s1 := if negb (Nat.even k) then _ else _).
  assert (exists step' chs t es, s1 = led_emit (set_in_tim (set_channels (set_override (blink_upd s step' (Z.of_nat (S k)) [e; 0; 0])
            (if Nat.odd (S k) then JD_BLINK_COLOR e else 0)) chs) t) es /\ 0 <= step' < 2 ^ 32 /\ u32 (step' - now) <= 2 ^ 17) as (step' & chs & t & es & E & Hs1 & Hs2).
  { unfold s1. rewrite Nat.odd_succ. destruct (Nat.even k); cbn [negb].
    - destruct (Hc e) as (chs & t & es & ->). eexists _, chs, t, es. split; [reflexivity|]. split; [apply u32_range|].
      change (Z.shiftl 8 10) with 8192. set (d := JD_BLINK_DURATION e) in *. word_lia.
    - destruct (Hc 0) as (chs & t & es & ->). eexists step, chs, t, es. split; [reflexivity|]. split; [exact Hrange|exact Hstep]. }
  clearbody s1. subst s1. cbn [st_blink blink_rep led_emit set_in_tim set_channels set_override blink_upd set_blink queued_blinks].
  rewrite Z.geb_leb. rewrite shiftr_div by lia. change (2 ^ 1) with 2.
  destruct (Z.leb_spec (JD_BLINK_REPETITIONS e) (Z.of_nat (S k) / 2)) as [Hend|Hmore].
  - assert (S k = 2 * Z.to_nat (JD_BLINK_REPETITIONS e))%nat as HSk by (Z.to_euclidean_division_equations; lia).
    split; [|lia]. unfold blink_at. cbn [st_blink blink_rep led_emit set_in_tim set_channels set_override blink_upd set_blink queued_blinks blink_step color_override].
    rewrite (proj2 (Nat.ltb_ge _ _)) by lia. split; [done|]. split; [done|]. split; [apply u32_range|]. done.
  - assert (S k < 2 * Z.to_nat (JD_BLINK_REPETITIONS e))%nat as HSk by (Z.to_euclidean_division_equations; lia).
    split; [|done]. unfold blink_at. cbn [st_blink blink_rep led_emit set_in_tim set_channels set_override blink_upd set_blink queued_blinks blink_step color_override].
    rewrite (proj2 (Nat.ltb_lt _ _)) by lia. done.
Qed.

Fixpoint spaced (t : Z) (ts : list Z) : Prop :=
  match ts with [] => True | t' :: ts => 2 ^ 17 < t' - t <= 2 ^ 31 /\ spaced t' ts end.

Lemma blink_done e o k now s : (2 * Z.to_nat (JD_BLINK_REPETITIONS e) <= k)%nat -> blink_at e o k s -> process_blinks now s = s.
Proof. intros Hk (Hq & _). rewrite (proj2 (Nat.ltb_ge _ _) Hk) in Hq. unfold process_blinks. by rewrite Hq. Qed.

Lemma blink_run_at e o ts : e <> 0 -> JD_BLINK_DURATION e <> JD_BLINK_DURATION_FAINT -> forall k t s,
  (k <= 2 * Z.to_nat (JD_BLINK_REPETITIONS e))%nat -> blink_at e o k s ->
  exists k', (k <= k' <= k + length ts)%nat /\ (k' <= 2 * Z.to_nat (JD_BLINK_REPETITIONS e))%nat /\ blink_at e o k' (blink_run ts s) /\
    (u32 (blink_step (st_blink s) - u32 t) <= 2 ^ 17 \/ k = (2 * Z.to_nat (JD_BLINK_REPETITIONS e))%nat ->
     spaced t ts -> k' = Nat.min (k + length ts) (2 * Z.to_nat (JD_BLINK_REPETITIONS e))).
Proof.
  intros He Hd. induction ts as [|t' ts IH]; intros k t s Hk Hb; cbn [length spaced].
  { exists k. split; [lia|]. split; [done|]. split; [done|]. lia. }
  change (blink_run (t' :: ts) s) with (blink_run ts (process_blinks (u32 t') s)).
  destruct (Nat.eq_dec k (2 * Z.to_nat (JD_BLINK_REPETITIONS e))%nat) as [Hend|Hend].
  { rewrite (blink_done e o k) by (done || lia). destruct (IH k t' s Hk Hb) as (k' & H1 & H2 & H3 & H4).
    exists k'. split; [lia|]. split; [done|]. split; [done|]. intros _ [_ Hsp]. specialize (H4 (or_intror Hend) Hsp). lia. }
  pose proof (blink_phase e o k (u32 t') s He Hd (u32_range t') ltac:(lia) Hb) as Hph.
  destruct (Z.ltb_spec (u32 (blink_step (st_blink s) - u32 t')) (2 ^ 31)) as [Hw|Hw].
  - rewrite Hph. destruct (IH k t' s Hk Hb) as (k' & H1 & H2 & H3 & _). exists k'. split; [lia|]. split; [done|]. split; [done|].
    intros [Hle|]; [|done]. intros [Ht _]. exfalso. clear -Hle Hw Ht. word_lia.
  - destruct Hph as [Hb' Hs']. destruct (IH (S k) t' (process_blinks (u32 t') s) ltac:(lia) Hb') as (k' & H1 & H2 & H3 & H4).
    exists k'. split; [lia|]. split; [done|]. split; [done|]. intros _ [_ Hsp]. rewrite H4; [lia| |done].
    destruct (Nat.eq_dec (S k) (2 * Z.to_nat (JD_BLINK_REPETITIONS e))%nat) as [|Hne]; [by right|left]. apply Hs'. lia.
Qed.

(** A blink is shown as often as it says: with no other blink queued,
    [jd_blink] and then any number of calls of [jd_status_process] at any times
    leave the LED in one of the phases on, off, on, off, ... of the blink, of
    which there are twice the repetitions it asks for, each call moves on by
    one phase at most, and when the calls are at least 2^17 microseconds apart
    every one of them does; after the last phase the LED is free again and the
    blink is gone from the queue. *)
Lemma status_blink_shown e t ts s :
  queued_blinks (st_blink s) = [0; 0; 0] -> e <> 0 -> JD_BLINK_DURATION e <> JD_BLINK_DURATION_FAINT -> 1 <= JD_BLINK_REPETITIONS e ->
  exists k, (k <= length ts)%nat /\ (k <= 2 * Z.to_nat (JD_BLINK_REPETITIONS e))%nat /\
    blink_at e (color_override s) k (blink_run ts (jd_blink (u32 t) e s)) /\
    (spaced t ts -> k = Nat.min (length ts) (2 * Z.to_nat (JD_BLINK_REPETITIONS e))).
Proof.
  intros Hq He Hd Hr. assert (blink_at e (color_override s) 0 (jd_blink (u32 t) e s) /\ blink_step (st_blink (jd_blink (u32 t) e s)) = u32 t) as [Hb Hst].
  { unfold jd_blink. rewrite Hq. cbn [length blink_loop]. rewrite Hq. cbn [lookup list_lookup default from_option id].
    rewrite (proj2 (Z.eqb_neq 0 e)) by done. change (0 =? 0) with true. cbn [Nat.eqb]. rewrite orb_true_r. split; [|done].
    unfold blink_at. cbn [st_blink blink_upd set_blink queued_blinks blink_rep blink_step color_override].
    rewrite (proj2 (Nat.ltb_lt _ _)) by lia. split; [done|]. split; [done|]. split; [apply u32_range|done]. }
  destruct (blink_run_at e (color_override s) ts He Hd 0 t _ ltac:(lia) Hb) as (k & H1 & H2 & H3 & H4).
  exists k. split; [lia|]. split; [done|]. split; [done|]. intros Hsp. rewrite H4; [done| |done]. left. rewrite Hst, Z.sub_diag. done.
Qed.

(** ** Examples *)

#[local] Definition no_pwm : Pwm := fun pin _ _ _ => pin.
Definition demo_blink : Z := Z.lor 1 (Z.lor (Z.shiftl 2 3) (Z.shiftl 1 6)).

(** Without a configuration the LED is a single one on a pin that is not there:
    a blink switches it on and off. *)
Lemma status_demo :
  match jd_status_init (H := no_pwm) {| cf_addr := 0; cf_img := [] |} false (replicate 16 0) dcfg0 status0 with
  | Ret (s, _, _) =>
      let s := status_run (H := {| JD_CONTROL_CMD_SET_STATUS_LIGHT := 0x84; sizeof_set_status_light := 4; set_status_light := fun _ => (0, 0, 0, 0) |}) s
                 [OpBlink 10 demo_blink; OpProcess 20; OpProcess 200000; OpProcess 400000] in
      st_trace s = [PinSet 255 1; PinOutput 255; PinSet 255 0; PinSet 255 1; PinSet 255 0] /\ jd_status_has_color s = false
  | _ => False
  end.
Proof. vm_compute. split; reflexivity. Qed.

(** *** The protocol of the serial LEDs *)

(** The data pin at each rise of the clock. *)
Fixpoint clocked (l : led_config) (data : Z) (tr : list led_event) : list Z :=
  match tr with
  | [] => []
  | PinSet pin v :: tr =>
      if pin =? pin_apa_data l then clocked l v tr
      else if (pin =? pin_apa_clk l) && (v =? 1) then data :: clocked l data tr
      else clocked l data tr
  | _ :: tr => clocked l data tr
  end.
Definition bits (v : Z) : list Z := map (fun j => zbool (Z.testbit v j)) [7; 6; 5; 4; 3; 2; 1; 0].

(** The LED is clocked four zero bytes, the header and the colour, most
    significant bit first, and four zero bytes to end. *)
Lemma apa_set_sends r g b s : pin_apa_data (st_led s) <> pin_apa_clk (st_led s) ->
  exists es, st_trace (apa_set r g b s) = st_trace s ++ es /\
    forall d, clocked (st_led s) d es = flat_map bits [0; 0; 0; 0; 0xff; b; g; r; 0; 0; 0; 0].
Proof.
  intros Hne. set (l := st_led s) in *. unfold apa_set. eexists. split; [reflexivity|]. fold l.
  assert (forall v js tr d, (forall j, In j js -> 0 <= j) -> exists d', clocked l d (flat_map (apa_bit l v) js ++ tr) = map (fun j => zbool (Z.testbit v j)) js ++ clocked l d' tr) as Hbyte.
  { intros v js tr. induction js as [|j js IH]; intros d Hj; [by exists d|]. cbn [flat_map map]. unfold apa_bit at 1. cbn [app clocked].
    rewrite Z.eqb_refl, (proj2 (Z.eqb_neq _ _) (not_eq_sym Hne)), Z.eqb_refl. cbn [andb]. change (0 =? 1) with false. change (1 =? 1) with true. cbn [andb].
    edestruct IH as (d' & ->); [intros; apply Hj; by right|]. exists d'. f_equal. rewrite land_bit by (apply Hj; by left). by rewrite negb_involutive. }
  assert (forall js, (forall j, In j js -> 0 <= j) -> forall vs d,
    clocked l d (flat_map (fun v => flat_map (apa_bit l v) js) vs) = flat_map (fun v => map (fun j => zbool (Z.testbit v j)) js) vs) as Hbytes.
  { intros js Hj vs. induction vs as [|v vs IH]; intros d; [done|]. cbn [flat_map].
    edestruct Hbyte as (d' & ->); [done|]. f_equal. apply IH. }
  apply Hbytes. intros j Hj. simpl in Hj. lia.
Qed.

(** *** What else the code does *)

(** The shift of the queue leaves the last place as it was: once three blinks
    have been queued the third repeats for ever. *)
Lemma third_blink_repeats c ts : forall s, queued_blinks (st_blink s) = [c; c; c] -> queued_blinks (st_blink (blink_run ts s)) = [c; c; c].
Proof.
  induction ts as [|t ts IH]; intros s Hq; [done|]. apply IH. unfold process_blinks. rewrite Hq. cbn [lookup list_lookup default from_option id].
  destruct (c =? 0); [done|]. destruct (jd_should_sample _ _ _) as [due step]. destruct due; [|done]. cbn [negb].
  set (s1 := if _ =? _ then _ else _). assert (queued_blinks (st_blink s1) = [c; c; c]) as H1 by (unfold s1; repeat case_match; done).
  destruct (_ >=? _); [|done]. cbn [blink_upd set_blink st_blink queued_blinks]. by rewrite H1.
Qed.
Lemma third_blink_repeats_reached :
  let a := demo_blink in let b := a + 1 in let c := a + 2 in
  queued_blinks (st_blink (blink_run (map (fun k => 300000 * k) (seqZ 1 12)) (jd_blink 0 c (jd_blink 0 b (jd_blink 0 a status0))))) = [c; c; c].
Proof. vm_compute. reflexivity. Qed.

(** The counter of the phases is not reset between two queued blinks: the
    second of two equally long ones ends after its first phase, which is on, and
    the LED stays lit. *)
Lemma second_blink_stays_on :
  let s := blink_run (map (fun k => 300000 * k) (seqZ 1 20)) (jd_blink 0 (demo_blink + 1) (jd_blink 0 demo_blink status0)) in
  color_override s = 2 /\ queued_blinks (st_blink s) = [0; 0; 0].
Proof. vm_compute. split; reflexivity. Qed.
