(* ===== verification/Sensor.v ===== *)
(** * Sensors ([services/jd_sensor.c], [jd_env.c], [analogsensor.c], [jd_sensor.h])

    The part that the sensor services share: a sensor is put to work by the
    first query, its status is announced by events, and while a client keeps
    asking for samples it streams its readings. A driver is a table of functions
    ([sensor_api_t]) that may lack some; its state is [D] here. A sensor whose
    values come with an error (temperature, humidity, ...) is in the part of
    [jd_env.c], a generic analog sensor in that of [analogsensor.c]. *)
From S2P Require Import Prelude Frame Util Iface Registers.

(** Registers, codes and events of the generated headers. Documented: the codes
    of registers are positive and below 0x200, those a client may write below
    0x100. *)
Class SensorSpec := {
  JD_REG_INTENSITY : Z;
  JD_REG_STATUS_CODE : Z;
  JD_REG_READING : Z;
  JD_REG_READING_RANGE : Z;
  JD_REG_READING_ERROR : Z;
  JD_REG_MIN_READING : Z;
  JD_REG_MAX_READING : Z;
  JD_REG_SUPPORTED_RANGES : Z;
  JD_REG_STREAMING_SAMPLES : Z;
  JD_REG_STREAMING_INTERVAL : Z;
  JD_EV_STATUS_CODE_CHANGED : Z;
  JD_STATUS_CODES_READY : Z;
  JD_STATUS_CODES_INITIALIZING : Z;
  JD_STATUS_CODES_SLEEPING : Z;
  sensor_reg_codes : Forall (fun r => 0 < r < 0x200) 
    [JD_REG_INTENSITY; JD_REG_STATUS_CODE; JD_REG_READING; JD_REG_READING_RANGE; JD_REG_SUPPORTED_RANGES];
  sensor_rw_codes : 0 < JD_REG_STREAMING_SAMPLES < 0x100 /\ 0 < JD_REG_STREAMING_INTERVAL < 0x100;
  sensor_codes_differ : NoDup [JD_REG_STREAMING_SAMPLES; JD_REG_STREAMING_INTERVAL; JD_REG_INTENSITY; JD_REG_READING_RANGE];
}.

(** ** State *)

(** [sensor_api_t]: absent functions are [None]; a reading is the bytes that the
    result points to; the ranges are those before the terminator. *)
Record sensor_api (D : Type) := {
  api_init : option (D -> D);
  api_process : option (D -> D);
  api_sleep : option (D -> D);
  api_get_reading : D -> option (list Z) * D;
  api_get_range : option (D -> Z * D);
  api_set_range : option (Z -> D -> Z * D);
  api_ranges : option (list Z);
}.
Arguments api_init {D}. Arguments api_process {D}. Arguments api_sleep {D}. Arguments api_get_reading {D}.
Arguments api_get_range {D}. Arguments api_set_range {D}. Arguments api_ranges {D}.

(** [SENSOR_COMMON]; [sn_common] is the bytes of [SRV_COMMON]. *)
Record sensor := {
  sn_common : list Z;
  streaming_samples : Z;     (* uint8_t *)
  got_query : bool;
  jd_inited : bool;
  got_reading : bool;
  reading_pending : bool;
  streaming_interval : Z;    (* uint32_t *)
  next_streaming : Z;        (* uint32_t *)
}.
Definition service_idx (s : sensor) : Z := get8 (sn_common s) 4.

Definition set_streaming (s : sensor) (samples interval next : Z) : sensor :=
  {| sn_common := sn_common s; streaming_samples := samples; got_query := got_query s; jd_inited := jd_inited s;
     got_reading := got_reading s; reading_pending := reading_pending s; streaming_interval := interval;
     next_streaming := next |}.
Definition set_query (s : sensor) (b : bool) : sensor :=
  {| sn_common := sn_common s; streaming_samples := streaming_samples s; got_query := b; jd_inited := jd_inited s;
     got_reading := got_reading s; reading_pending := reading_pending s; streaming_interval := streaming_interval s;
     next_streaming := next_streaming s |}.
Definition set_inited (s : sensor) (inited reading : bool) : sensor :=
  {| sn_common := sn_common s; streaming_samples := streaming_samples s; got_query := got_query s; jd_inited := inited;
     got_reading := reading; reading_pending := reading_pending s; streaming_interval := streaming_interval s;
     next_streaming := next_streaming s |}.
Definition set_pending (s : sensor) (b : bool) : sensor :=
  {| sn_common := sn_common s; streaming_samples := streaming_samples s; got_query := got_query s; jd_inited := jd_inited s;
     got_reading := got_reading s; reading_pending := b; streaming_interval := streaming_interval s;
     next_streaming := next_streaming s |}.

(** The struct as the register engine sees it, and back: the bits, then
    [streaming_interval], [api] and [next_streaming]. *)
Definition sensor_encode (s : sensor) : list Z :=
  sn_common s ++ [streaming_samples s; zbool (got_query s) + 2 * zbool (jd_inited s) + 4 * zbool (got_reading s) + 8 * zbool (reading_pending s)]
  ++ le_bytes 4 (streaming_interval s) ++ le_bytes 4 0 ++ le_bytes 4 (next_streaming s).
Definition sensor_decode (s : sensor) (b : list Z) : sensor :=
  set_streaming s (get8 b 6) (get32 b 8) (next_streaming s).

Definition sensor_regs `{SensorSpec} : list Z :=
  REG_SRV_COMMON ++ [JD_REG_ 1 JD_REG_STREAMING_SAMPLES; JD_REG_ 5 JD_REG_STREAMING_INTERVAL; JD_REG_END].

Section Sensor.
Context `{JdSpec} `{SensorSpec} {T D : Type} `{Sender T} `{EventSender T}.
(** [state->api]; [None] is [NULL], and following it is [Panic]. *)
Context (api : option (sensor_api D)).

(** ** The common part *)

Definition get_status_code (s : sensor) : Z :=
  if negb (jd_inited s) then JD_STATUS_CODES_SLEEPING
  else if negb (got_reading s) then JD_STATUS_CODES_INITIALIZING
  else JD_STATUS_CODES_READY.

Definition sensor_send_status (s : sensor) (tx : T) : outcome T :=
  send_event tx (service_idx s) JD_EV_STATUS_CODE_CHANGED (le_bytes 4 (get_status_code s)).

Definition respond_ranges (a : sensor_api D) (s : sensor) (tx : T) : outcome (Z * T) :=
  match api_ranges a with
  | None => Ret (0, tx)
  | Some ranges =>
      '(_, tx) ← send_packet tx (service_idx s) (JD_GET JD_REG_SUPPORTED_RANGES) (flat_map (fun r => le_bytes 4 r) ranges);
      Ret (- JD_REG_SUPPORTED_RANGES, tx)
  end.

(** [JD_SET(JD_REG_INTENSITY)] *)
Definition set_intensity (pkt : list Z) (s : sensor) (d : D) (tx : T) : outcome (sensor * D * T) :=
  if negb (get8 (drop 16 pkt) 0 =? 0) then Ret (set_query s true, d, tx)
  else
    let s := set_streaming (set_query s false) 0 (streaming_interval s) (next_streaming s) in
    match api with
    | Some {| api_sleep := Some sleep |} =>
        if jd_inited s then
          let s := set_inited s false false in
          let d := sleep d in
          tx ← sensor_send_status s tx;
          Ret (s, d, tx)
        else Ret (s, d, tx)
    | _ => Ret (s, d, tx)
    end.

(** What follows a register write. *)
Definition streaming_set (now r : Z) (s : sensor) : sensor :=
  if r =? JD_REG_STREAMING_SAMPLES then
    if negb (streaming_samples s =? 0) then
      set_query (set_streaming s (streaming_samples s)
        (if streaming_interval s =? 0 then 100 else streaming_interval s) now) true
    else s
  else if r =? JD_REG_STREAMING_INTERVAL then
    let i := if streaming_interval s <? 20 then 20 else streaming_interval s in
    let i := if i >? 100000 then 100000 else i in
    set_streaming s (streaming_samples s) i (next_streaming s)
  else s.

Definition sensor_handle_packet (now : Z) (pkt : list Z) (s : sensor) (d : D) (tx : T) : outcome (Z * sensor * D * T) :=
  let cmd := p_service_command pkt in
  if cmd =? JD_GET JD_REG_INTENSITY then
    '(_, tx) ← jd_respond_u8 tx pkt (zbool (jd_inited s)); Ret (- JD_REG_INTENSITY, s, d, tx)
  else if cmd =? JD_GET JD_REG_STATUS_CODE then
    '(_, tx) ← jd_respond_u32 tx pkt (get_status_code s); Ret (- JD_REG_STATUS_CODE, s, d, tx)
  else if cmd =? JD_GET JD_REG_READING_RANGE then
    match api with
    | None => Panic
    | Some a =>
        match api_get_range a with
        | None => Ret (0, s, d, tx)
        | Some get_range =>
            let '(v, d) := get_range d in
            '(_, tx) ← jd_respond_u32 tx pkt v; Ret (- JD_REG_READING_RANGE, s, d, tx)
        end
    end
  else if cmd =? JD_SET JD_REG_READING_RANGE then
    match api with
    | None => Panic
    | Some a =>
        match api_set_range a with
        | None => Ret (0, s, d, tx)
        | Some set_range => let '(_, d) := set_range (get32 (drop 16 pkt) 0) d in Ret (JD_REG_READING_RANGE, s, d, tx)
        end
    end
  else if cmd =? JD_GET JD_REG_SUPPORTED_RANGES then
    match api with
    | None => Panic
    | Some a => '(r, tx) ← respond_ranges a s tx; Ret (r, s, d, tx)
    end
  else if cmd =? JD_SET JD_REG_INTENSITY then
    '(s, d, tx) ← set_intensity pkt s d tx; Ret (JD_REG_INTENSITY, s, d, tx)
  else
    '(r, b, tx) ← service_handle_register (sensor_encode s) pkt sensor_regs tx;
    Ret (r, streaming_set now r (sensor_decode s b), d, tx).

Definition sensor_get_reading (s : sensor) (d : D) (tx : T) : outcome (option (list Z) * sensor * D * T) :=
  match api with
  | None => Panic
  | Some a =>
      if negb (jd_inited s) then Ret (None, s, d, tx)
      else
        let '(r, d) := api_get_reading a d in
        match r with
        | Some _ =>
            if negb (got_reading s) then
              let s := set_inited s (jd_inited s) true in
              tx ← sensor_send_status s tx; Ret (r, s, d, tx)
            else Ret (r, s, d, tx)
        | None => Ret (r, s, d, tx)
        end
  end.

Definition sensor_maybe_init (s : sensor) (d : D) (tx : T) : outcome (bool * sensor * D * T) :=
  if got_query s && negb (jd_inited s) then
    let s := set_inited s true false in
    '(d, tx) ← match api with
               | Some {| api_init := Some init |} => tx ← sensor_send_status s tx; Ret (init d, tx)
               | _ => Ret (d, tx)
               end;
    let '(ready, d) := match api with
                       | None => (true, d)
                       | Some a => let '(r, d) := api_get_reading a d in (match r with Some _ => true | None => false end, d)
                       end in
    let s := if ready : bool then set_inited s true true else s in
    tx ← sensor_send_status s tx;
    Ret (true, s, d, tx)
  else Ret (false, s, d, tx).

Definition sensor_process (s : sensor) (d : D) (tx : T) : outcome (sensor * D * T) :=
  '(_, s, d, tx) ← sensor_maybe_init s d tx;
  match api with
  | Some {| api_process := Some process |} => Ret (s, if jd_inited s then process d else d, tx)
  | _ => Ret (s, d, tx)
  end.

Definition sensor_should_stream (now : Z) (s : sensor) : bool * sensor :=
  if streaming_samples s =? 0 then (false, s)
  else
    let '(due, next) := jd_should_sample now (next_streaming s) (u32 (streaming_interval s * 1000)) in
    if due then (true, set_streaming s (u8 (streaming_samples s - 1)) (streaming_interval s) next)
    else (false, set_streaming s (streaming_samples s) (streaming_interval s) next).

Definition sensor_process_simple (now : Z) (sample : list Z) (s : sensor) (d : D) (tx : T) : outcome (sensor * D * T) :=
  '(s, d, tx) ← sensor_process s d tx;
  let '(due, s) := sensor_should_stream now s in
  if due then '(_, tx) ← send_packet tx (service_idx s) (JD_GET JD_REG_READING) sample; Ret (s, d, tx)
  else Ret (s, d, tx).

Definition sensor_handle_packet_simple (now : Z) (pkt sample : list Z) (s : sensor) (d : D) (tx : T)
    : outcome (Z * sensor * D * T) :=
  '(r, s, d, tx) ← sensor_handle_packet now pkt s d tx;
  '(r, s, tx) ← (if p_service_command pkt =? JD_GET JD_REG_READING then
                   '(_, tx) ← send_packet tx (p_service_index pkt) (p_service_command pkt) sample;
                   Ret (- JD_REG_READING, set_query s true, tx)
                 else Ret (r, s, tx));
  if r =? 0 then '(_, tx) ← jd_send_not_implemented tx pkt; Ret (r, s, d, tx) else Ret (r, s, d, tx).

(** ** Sensors with an error ([env_reading_t] is four 32-bit fields) *)

Definition env_field (env : list Z) (off : Z) : list Z := mread env (4 * off) 4.

Definition env_sensor_process (now : Z) (s : sensor) (d : D) (tx : T) : outcome (sensor * D * T) :=
  '(s, d, tx) ← sensor_process s d tx;
  let '(due, s) := sensor_should_stream now s in
  if due then
    '(env, s, d, tx) ← sensor_get_reading s d tx;
    match env with
    | Some env =>
        '(_, tx) ← send_packet tx (service_idx s) (JD_GET JD_REG_READING) (env_field env 0);
        '(_, tx) ← send_packet tx (service_idx s) (JD_GET JD_REG_READING_ERROR) (env_field env 1);
        Ret (s, d, tx)
    | None => Ret (s, d, tx)
    end
  else Ret (s, d, tx).

Definition env_register (cmd : Z) : option Z :=
  if cmd =? JD_GET JD_REG_READING then Some 0
  else if cmd =? JD_GET JD_REG_READING_ERROR then Some 1
  else if cmd =? JD_GET JD_REG_MIN_READING then Some 2
  else if cmd =? JD_GET JD_REG_MAX_READING then Some 3
  else None.

Definition env_sensor_handle_packet (now : Z) (pkt : list Z) (s : sensor) (d : D) (tx : T) : outcome (Z * sensor * D * T) :=
  '(r, s, d, tx) ← sensor_handle_packet now pkt s d tx;
  if negb (r =? 0) then Ret (r, s, d, tx)
  else
    match env_register (p_service_command pkt) with
    | None => '(_, tx) ← jd_send_not_implemented tx pkt; Ret (0, s, d, tx)
    | Some off =>
        '(env, s, d, tx) ← sensor_get_reading (set_query s true) d tx;
        match env with
        | None => Ret (0, s, d, tx)
        | Some env =>
            '(_, tx) ← send_packet tx (p_service_index pkt) (p_service_command pkt) (env_field env off);
            Ret (- Z.land (p_service_command pkt) 0xfff, s, d, tx)
        end
    end.
End Sensor.

(** The range to use for a request: the list without its terminator; there is
    no range before an empty list. *)
Fixpoint lookup_range (prev : option Z) (ranges : list Z) (requested : Z) : option Z :=
  match ranges with
  | [] => prev
  | r :: ranges => if r >=? requested then Some r else lookup_range (Some r) ranges requested
  end.
Definition sensor_lookup_range (ranges : list Z) (requested : Z) : option Z := lookup_range None ranges requested.

(** The result and [*block]. *)
Definition sensor_should_send_threshold_event (now block debounce_ms : Z) (cond_ok : bool) : bool * Z :=
  if (block =? 0) || in_past now block then
    if cond_ok then
      if block =? 0 then (true, u32 (now + Z.shiftl debounce_ms 10)) else (false, now)
    else (false, 0)
  else (false, block).

(** ** Errors and absolute humidity *)

(** The table: pairs of a value and its error. [value] is past [prev], whose
    error is [e0]; products wrap, where C leaves them undefined. *)
Fixpoint extrapolate (value prev e0 : Z) (table : list (Z * Z)) : Z :=
  match table with
  | [] => e0
  | (curr, e1) :: table =>
      if value <=? curr then Z.quot (s32 ((value - prev) * (e1 - e0))) (curr - prev) + e0
      else extrapolate value curr e1 table
  end.
Definition env_extrapolate_error (value : Z) (table : list (Z * Z)) : Z :=
  match table with
  | [] => 0
  | (v0, e0) :: table => if value <? v0 then e0 else extrapolate value v0 e0 table
  end.

Definition env_set_value (env : list Z) (value : Z) (table : list (Z * Z)) : list Z :=
  mwrite env 0 (le_bytes 4 value ++ le_bytes 4 (env_extrapolate_error value table)).

(** [ABSHUM(t, h)]: [h] in tenths. *)
Definition ABSHUM (t h10 : Z) : Z * Z := (t * 1024, Z.quot (h10 * 1024) 10).
Definition abs_hum : list (Z * Z) :=
  [ABSHUM (-25) 6; ABSHUM (-20) 9; ABSHUM (-15) 16; ABSHUM (-10) 23; ABSHUM (-5) 34; ABSHUM 0 48; ABSHUM 5 68; ABSHUM 10 94;
   ABSHUM 15 128; ABSHUM 20 173; ABSHUM 25 230; ABSHUM 30 304; ABSHUM 35 396; ABSHUM 40 511; ABSHUM 45 654; ABSHUM 50 830].
Definition env_absolute_humidity (temp humidity : Z) : Z :=
  Z.shiftr (Z.quot (s32 (env_extrapolate_error temp abs_hum * humidity)) 100) 10.

(** ** The registers of a sensor *)

Section Regs.
Context `{JdSpec} `{SensorSpec}.

Definition sensor_layout : list reg_entry :=
  [{| re_reg := JD_REG_PADDING; re_tp := JD_REG_BYTES; re_off := 0; re_bit := 0; re_size := 6 |};
   {| re_reg := JD_REG_STREAMING_SAMPLES; re_tp := 1; re_off := 6; re_bit := 0; re_size := 1 |};
   {| re_reg := JD_REG_STREAMING_INTERVAL; re_tp := 5; re_off := 8; re_bit := 0; re_size := 4 |}].

Lemma sensor_layout_ok : layout sensor_regs 0 0 = Some sensor_layout.
Proof.
  destruct sensor_rw_codes as [Hs Hi]. unfold sensor_regs, REG_SRV_COMMON. cbn [app].
  transitivity (es ← layout [JD_REG_ 1 JD_REG_STREAMING_SAMPLES; JD_REG_ 5 JD_REG_STREAMING_INTERVAL; JD_REG_END] 6 0; Some (hd {| re_reg := 0; re_tp := 0; re_off := 0; re_bit := 0; re_size := 0 |} sensor_layout :: es)); [reflexivity|].
  rewrite (layout_plain 1 _ _ 6 0 6 1), (layout_plain 5 _ _ 7 0 8 4) by (reflexivity || lia). reflexivity.
Qed.

(** The register engine on a sensor: it ends, and sends reports only. *)
Lemma sensor_register_total s pkt (log : list output) : exists r b rs,
  service_handle_register (sensor_encode s) pkt sensor_regs log = Ret (r, b, log ++ map Report rs).
Proof. apply (register_total _ _ _ _ log sensor_layout_ok). Qed.

(** Asking for samples. *)
Lemma sensor_samples_set s pkt n : p_service_command pkt = JD_SET JD_REG_STREAMING_SAMPLES -> 1 <= p_service_size pkt ->
  get8 (drop 16 pkt) 0 = n -> 0 <= n < 256 -> zlen (sn_common s) = 6 -> drop 16 pkt <> [] -> 0 <= streaming_interval s < 2 ^ 32 -> forall (log : list output),
  exists b, service_handle_register (sensor_encode s) pkt sensor_regs log = Ret (JD_REG_STREAMING_SAMPLES, b, log) /\
    get8 b 6 = n /\ get32 b 8 = streaming_interval s.
Proof.
  intros Hc Hsz Hn Hr Hl Hne Hi log. destruct sensor_rw_codes as [Hs _].
  destruct (jd_set_split JD_REG_STREAMING_SAMPLES) as (E1 & E2 & E3); [lia|]. unfold service_handle_register. rewrite Hc, E1, E2, E3.
  cbn [negb andb]. rewrite (proj2 (Z.eqb_neq _ _)) by lia. rewrite Z.geb_leb. destruct (Z.leb_spec 0xf00 JD_REG_STREAMING_SAMPLES); [lia|].
  assert ((Z.land JD_REG_STREAMING_SAMPLES 0xf00 =? 0x100) = false) as ->.
  { rewrite reg_group, Z.div_small by lia. done. }
  rewrite (register_loop_layout _ _ 0 0 _ _ _ _ _ _ (le_n _) sensor_layout_ok). unfold sensor_layout. cbn [List.find re_reg].
  destruct (Z.eqb_spec JD_REG_PADDING JD_REG_STREAMING_SAMPLES) as [E|_]; [unfold JD_REG_PADDING in E; lia|]. rewrite Z.eqb_refl.
  cbn [re_tp re_size re_off re_bit]. eexists. split; [reflexivity|]. unfold reg_set. change (1 =? JD_REG_BIT) with false. cbn [negb].
  rewrite (proj2 (Z.leb_le _ _) Hsz). destruct (drop 16 pkt) as [|x rest]; [done|]. change (mread (x :: rest) 0 1) with [x].
  assert (x = n) as -> by exact Hn. unfold sensor_encode. destruct (sn_common s) as [|c0 [|c1 [|c2 [|c3 [|c4 [|c5 [|]]]]]]]; try (exfalso; unfold zlen in Hl; simpl in Hl; lia).
  split; [reflexivity|]. change (get32 _ 8) with (le_val (le_bytes 4 (streaming_interval s))). rewrite le_val_le_bytes. apply Z.mod_small. lia.
Qed.
End Regs.

(** ** Streaming *)

Definition reports (log : list output) : list sent :=
  omap (fun o => match o with Report s => Some s | Event _ _ _ => None end) log.

Lemma reports_app a b : reports (a ++ b) = reports a ++ reports b.
Proof. apply omap_app. Qed.

(** [jd_should_sample] on an unbounded clock: [D] is the next deadline. *)
Lemma jd_should_sample_at t D P : 0 < P < 2 ^ 30 -> - 2 ^ 30 <= D - t <= P ->
  jd_should_sample (u32 t) (u32 D) P =
    if D >=? t then (false, u32 D) else (true, u32 (if D + P >=? t then D + P else t + P)).
Proof.
  intros HP HD. unfold jd_should_sample, in_future. rewrite !is_before_spec, !Z.geb_leb.
  assert (u32 (u32 D - u32 t) = u32 (D - t)) as -> by (unfold u32; rewrite <- Zminus_mod; done).
  destruct (Z.leb_spec t D) as [Hle|Hgt].
  - destruct (Z.ltb_spec (u32 (D - t)) (2 ^ 31)) as [_|Hx]; [done|]. rewrite u32_small in Hx; lia.
  - assert (u32 (D - t) = D - t + 2 ^ 32) as -> by word_lia. destruct (Z.ltb_spec (D - t + 2 ^ 32) (2 ^ 31)) as [|_]; [lia|].
    assert (u32 (u32 D + P) = u32 (D + P)) as -> by (unfold u32; rewrite Z.add_mod_idemp_l; done).
    assert (u32 (u32 t + P) = u32 (t + P)) as -> by (unfold u32; rewrite Z.add_mod_idemp_l; done).
    assert (u32 (u32 (D + P) - u32 t) = u32 (D + P - t)) as -> by (unfold u32; rewrite <- Zminus_mod; done).
    destruct (Z.leb_spec t (D + P)); destruct (Z.ltb_spec (u32 (D + P - t)) (2 ^ 31)) as [Hx|Hx]; try done; exfalso.
    + rewrite u32_small in Hx; lia.
    + assert (u32 (D + P - t) = D + P - t + 2 ^ 32) as E by word_lia. lia.
Qed.

Section Streaming.
Context `{JdSpec} `{SensorSpec} {D : Type} (api : option (sensor_api D)).

(** Calls of [sensor_process_simple] at times of an unbounded clock, with what
    the sample is then. *)
Fixpoint stream_run (calls : list (Z * list Z)) (s : sensor) (d : D) (log : list output) : outcome (sensor * D * list output) :=
  match calls with
  | [] => Ret (s, d, log)
  | (t, sample) :: calls => '(s, d, log) ← sensor_process_simple api (u32 t) sample s d log; stream_run calls s d log
  end.

(** Putting the sensor to work sends events only and leaves the stream alone. *)
Definition same_stream (s s' : sensor) : Prop :=
  sn_common s' = sn_common s /\ streaming_samples s' = streaming_samples s /\
  streaming_interval s' = streaming_interval s /\ next_streaming s' = next_streaming s.

Lemma sensor_process_quiet s d (log : list output) : exists s' d' evs,
  sensor_process api s d log = Ret (s', d', log ++ evs) /\ reports evs = [] /\ same_stream s s'.
Proof.
  unfold sensor_process, sensor_maybe_init, sensor_send_status, send_event, output_event_sender.
  destruct (got_query s && negb (jd_inited s)).
  - destruct api as [[[i|] [p|] sl gr gg sr rg]|]; obind; cbn [api_get_reading];
      try (match goal with |- context [gr ?d] => destruct (gr d) as [[r|] d1] end); obind;
      (eexists _, _, _; split; [rewrite <- ?app_assoc; reflexivity|split; [reflexivity|by repeat split]]).
  - destruct api as [[[i|] [p|] sl gr gg sr rg]|]; obind;
      (eexists _, _, []; split; [by rewrite app_nil_r|split; [reflexivity|by repeat split]]).
Qed.

(** One call on the stream: a report when the deadline [Dl] has passed. *)
Lemma stream_call P Dl n t sample s d log :
  streaming_samples s = n -> 0 < n < 256 -> u32 (streaming_interval s * 1000) = P -> next_streaming s = u32 Dl ->
  0 < P < 2 ^ 30 -> - 2 ^ 30 <= Dl - t <= P ->
  exists s' d' evs, sensor_process_simple api (u32 t) sample s d log = Ret (s', d', log ++ evs) /\
    sn_common s' = sn_common s /\ streaming_interval s' = streaming_interval s /\
    (if Dl >=? t then reports evs = [] /\ streaming_samples s' = n /\ next_streaming s' = u32 Dl
     else reports evs = [{| s_index := service_idx s; s_command := JD_GET JD_REG_READING; s_data := sample |}] /\
          streaming_samples s' = n - 1 /\ next_streaming s' = u32 (if Dl + P >=? t then Dl + P else t + P)).
Proof.
  intros Hs Hn HP HD HPr Ht. unfold sensor_process_simple. destruct (sensor_process_quiet s d log) as (s1 & d1 & evs & -> & He & S1 & S2 & S3 & S4).
  obind. unfold sensor_should_stream. rewrite S2, S3, S4, Hs, HD, HP, jd_should_sample_at by done.
  rewrite (proj2 (Z.eqb_neq n 0)) by lia. destruct (Dl >=? t).
  - exists (set_streaming s1 n (streaming_interval s) (u32 Dl)), d1, evs. by split_and!.
  - unfold send_packet, output_sender. obind. eexists _, d1, (evs ++ [_]). split; [by rewrite app_assoc|]. split; [exact S1|]. split; [done|].
    rewrite reports_app, He. unfold service_idx. cbn [set_streaming sn_common]. rewrite S1. split; [done|]. split; [|done].
    cbn [set_streaming streaming_samples]. by rewrite u8_small by lia.
Qed.

(** A stream that has ended stays silent. *)
Lemma stream_over calls : forall s d log, streaming_samples s = 0 -> exists s' d' evs,
  stream_run calls s d log = Ret (s', d', log ++ evs) /\ reports evs = [].
Proof.
  induction calls as [|[t sample] calls IH]; intros s d log Hs; cbn [stream_run]; [by exists s, d, []; rewrite app_nil_r|].
  unfold sensor_process_simple. destruct (sensor_process_quiet s d log) as (s1 & d1 & evs & -> & He & S1 & S2 & S3 & S4).
  obind. unfold sensor_should_stream. rewrite S2, Hs. change (0 =? 0) with true. cbv iota. obind.
  destruct (IH s1 d1 (log ++ evs)) as (s' & d' & evs' & -> & He'); [by rewrite S2|]. exists s', d', (evs ++ evs').
  rewrite app_assoc, reports_app, He, He'. done.
Qed.

Definition reading_of (idx : Z) (c : Z * list Z) : sent :=
  {| s_index := idx; s_command := JD_GET JD_REG_READING; s_data := snd c |}.

Lemma stream_run_spec P calls : 0 < P < 2 ^ 29 -> forall n t Dl s d log,
  streaming_samples s = n -> 0 <= n < 256 -> u32 (streaming_interval s * 1000) = P -> next_streaming s = u32 Dl ->
  0 <= Dl - t <= P -> gaps 0 (2 ^ 29) t calls ->
  exists picks s' d' evs, stream_run calls s d log = Ret (s', d', log ++ evs) /\
    reports evs = map (reading_of (service_idx s)) picks /\ sublist picks calls /\ zlen picks <= n /\
    (forall j c, picks !! j = Some c -> Dl + Z.of_nat j * P < fst c) /\
    (gaps (P + 1) (2 ^ 29) t calls -> picks = take (Z.to_nat n) calls).
Proof.
  intros HP. induction calls as [|[t' x] calls IH]; intros n t Dl s d log Hs Hn Hi HD Ht Hg.
  { exists [], s, d, []. cbn [stream_run]. rewrite app_nil_r, take_nil. split_and!; try done. change (zlen []) with 0. lia. }
  destruct (Z.eq_dec n 0) as [Hz|Hz].
  { destruct (stream_over ((t', x) :: calls) s d log) as (s' & d' & evs & E & He); [lia|]. exists [], s', d', evs.
    rewrite Hz. split_and!; try done. apply sublist_nil_l. }
  destruct Hg as [Hg1 Hg]. cbn [stream_run].
  destruct (stream_call P Dl n t' x s d log Hs ltac:(lia) Hi HD ltac:(lia) ltac:(lia)) as (s1 & d1 & evs & -> & C1 & C2 & C3). obind.
  assert (service_idx s1 = service_idx s) as Hidx by (unfold service_idx; by rewrite C1).
  rewrite Z.geb_leb in C3. destruct (Z.leb_spec t' Dl) as [Hle|Hgt].
  - destruct C3 as (R1 & R2 & R3). destruct (IH n t' Dl s1 d1 (log ++ evs) R2 Hn ltac:(by rewrite C2) R3 ltac:(lia) Hg)
      as (picks & s' & d' & evs' & -> & H1 & H2 & H3 & H4 & H5).
    exists picks, s', d', (evs ++ evs'). rewrite app_assoc, reports_app, R1, H1, Hidx. split_and!; try done; [by constructor|].
    intros [Hbad _]. lia.
  - destruct C3 as (R1 & R2 & R3). rewrite Z.geb_leb in R3. set (D' := if t' <=? Dl + P then Dl + P else t' + P) in *.
    assert (0 <= D' - t' <= P /\ Dl + P <= D') as [HD1 HD2] by (unfold D'; destruct (Z.leb_spec t' (Dl + P)); lia).
    destruct (IH (n - 1) t' D' s1 d1 (log ++ evs) R2 ltac:(lia) ltac:(by rewrite C2) R3 HD1 Hg)
      as (picks & s' & d' & evs' & -> & H1 & H2 & H3 & H4 & H5).
    exists ((t', x) :: picks), s', d', (evs ++ evs'). rewrite app_assoc, reports_app, R1, H1, Hidx.
    split; [done|]. split; [done|]. split; [by constructor|]. split; [unfold zlen in *; simpl; lia|]. split.
    + intros [|j] c Hj; [injection Hj as <-; simpl; lia|]. specialize (H4 j c Hj). lia.
    + intros [_ Hsp]. rewrite (H5 Hsp). replace (Z.to_nat n) with (S (Z.to_nat (n - 1))) by lia. done.
Qed.

(** C39. A client that asks for [n] samples gets readings and no more than it
    asked for: after [SET streaming_samples n] and however often the sensor is
    processed, the reports are the samples of at most [n] of the calls, in
    order, each sent once, the one with index [j] later than [j] streaming
    intervals after the request; when every two calls are more than an interval
    apart, the first [n] calls report. The interval is the one in the service, or
    100 ms when there is none yet. *)
Theorem sensor_stream_bounded n pkt t0 calls s d log :
  p_service_command pkt = JD_SET JD_REG_STREAMING_SAMPLES -> 1 <= p_service_size pkt -> drop 16 pkt <> [] ->
  get8 (drop 16 pkt) 0 = n -> 1 <= n < 256 -> zlen (sn_common s) = 6 ->
  streaming_interval s = 0 \/ 20 <= streaming_interval s <= 100000 -> gaps 0 (2 ^ 29) t0 calls ->
  let P := 1000 * (if streaming_interval s =? 0 then 100 else streaming_interval s) in
  exists s1 picks s2 d2 evs,
    sensor_handle_packet_simple api (u32 t0) pkt [] s d log = Ret (JD_REG_STREAMING_SAMPLES, s1, d, log) /\
    stream_run calls s1 d log = Ret (s2, d2, log ++ evs) /\
    reports evs = map (reading_of (service_idx s)) picks /\ sublist picks calls /\ zlen picks <= n /\
    (forall j c, picks !! j = Some c -> t0 + Z.of_nat j * P < fst c) /\
    (gaps (P + 1) (2 ^ 29) t0 calls -> picks = take (Z.to_nat n) calls).
Proof.
  intros Hc Hsz Hne Hn Hr Hl Hi Hg P.
  destruct (sensor_samples_set s pkt n Hc Hsz Hn ltac:(lia) Hl Hne ltac:(lia) log) as (b & E & Hb1 & Hb2).
  set (s1 := streaming_set (u32 t0) JD_REG_STREAMING_SAMPLES (sensor_decode s b)).
  assert (sensor_handle_packet_simple api (u32 t0) pkt [] s d log = Ret (JD_REG_STREAMING_SAMPLES, s1, d, log)) as Eh.
  { unfold sensor_handle_packet_simple, sensor_handle_packet. rewrite Hc. pose proof sensor_reg_codes as Hcodes. destruct sensor_rw_codes as [Hs _].
    repeat (apply Forall_cons in Hcodes as [? Hcodes]). pose proof sensor_codes_differ as Hnd.
    repeat (rewrite (proj2 (Z.eqb_neq (JD_SET JD_REG_STREAMING_SAMPLES) (JD_GET _))) by (intros Ex; symmetry in Ex; revert Ex; apply jd_get_not_set; lia)).
    repeat (rewrite (proj2 (Z.eqb_neq (JD_SET JD_REG_STREAMING_SAMPLES) (JD_SET _))) by
      (intros Ex; apply jd_set_inj in Ex; [|lia|lia]; rewrite !NoDup_cons, !not_elem_of_cons in Hnd; intuition congruence)).
    rewrite E. obind. rewrite (proj2 (Z.eqb_neq _ _)) by lia. done. }
  assert (streaming_samples s1 = n /\ streaming_interval s1 = (if streaming_interval s =? 0 then 100 else streaming_interval s) /\
          next_streaming s1 = u32 t0 /\ sn_common s1 = sn_common s) as (A1 & A2 & A3 & A4).
  { unfold s1, streaming_set, sensor_decode. rewrite Z.eqb_refl. cbn [streaming_samples streaming_interval set_streaming]. rewrite Hb1, Hb2.
    rewrite (proj2 (Z.eqb_neq n 0)) by lia. done. }
  assert (u32 (streaming_interval s1 * 1000) = P) as HP by (rewrite A2; unfold P; destruct (Z.eqb_spec (streaming_interval s) 0); rewrite u32_small; lia).
  assert (0 < P < 2 ^ 29) by (unfold P; destruct (Z.eqb_spec (streaming_interval s) 0); lia).
  destruct (stream_run_spec P calls ltac:(lia) n t0 t0 s1 d log A1 ltac:(lia) HP A3 ltac:(lia) Hg) as (picks & s2 & d2 & evs & E2 & R1 & R2 & R3 & R4 & R5).
  exists s1, picks, s2, d2, evs. unfold service_idx in *. rewrite A4 in R1. by split_and!.
Qed.
End Streaming.

(** ** The life of a sensor *)

(** The calls of the driver, recorded beside its state. *)
Inductive driver_call := CallInit | CallProcess | CallSleep | CallReading | CallGetRange | CallSetRange.
Definition traced {W} (a : sensor_api W) : sensor_api (W * list driver_call) := {|
  api_init := option_map (fun f '(w, c) => (f w, c ++ [CallInit])) (api_init a);
  api_process := option_map (fun f '(w, c) => (f w, c ++ [CallProcess])) (api_process a);
  api_sleep := option_map (fun f '(w, c) => (f w, c ++ [CallSleep])) (api_sleep a);
  api_get_reading := fun '(w, c) => let '(r, w) := api_get_reading a w in (r, (w, c ++ [CallReading]));
  api_get_range := option_map (fun f '(w, c) => let '(r, w) := f w in (r, (w, c ++ [CallGetRange]))) (api_get_range a);
  api_set_range := option_map (fun f v '(w, c) => let '(r, w) := f v w in (r, (w, c ++ [CallSetRange]))) (api_set_range a);
  api_ranges := api_ranges a |}.

(** Whether the driver is awake; [None] when it was called out of turn. The
    functions of the range have no turn: a packet calls them at any time. *)
Definition driver_step (awake : option bool) (c : driver_call) : option bool :=
  match c, awake with
  | CallInit, Some false => Some true
  | CallProcess, Some true | CallReading, Some true => Some true
  | CallSleep, Some true => Some false
  | CallGetRange, Some b | CallSetRange, Some b => Some b
  | _, _ => None
  end.
Definition driver_state (calls : list driver_call) : option bool := fold_left driver_step calls (Some false).

Lemma driver_state_snoc calls c : driver_state (calls ++ [c]) = driver_step (driver_state calls) c.
Proof. unfold driver_state. by rewrite fold_left_app. Qed.

Section Life.
Context `{JdSpec} `{SensorSpec}.

(** The status that was announced last. *)
Definition last_status (log : list output) : option (list Z) :=
  fold_left (fun st o => match o with
                         | Event _ e p => if e =? JD_EV_STATUS_CODE_CHANGED then Some p else st
                         | Report _ => st
                         end) log None.

Lemma last_status_app log o : last_status (log ++ [o]) =
  match o with Event _ e p => if e =? JD_EV_STATUS_CODE_CHANGED then Some p else last_status log | Report _ => last_status log end.
Proof. unfold last_status. by rewrite fold_left_app. Qed.
Lemma last_status_reports log rs : last_status (log ++ map Report rs) = last_status log.
Proof.
  revert log. induction rs as [|r rs IH]; intros log; cbn [map]; [by rewrite app_nil_r|].
  change (Report r :: map Report rs) with ([Report r] ++ map Report rs). by rewrite app_assoc, IH, last_status_app.
Qed.

(** The status announced last is the status, or the sensor was never woken. *)
Definition status_sent (s : sensor) (log : list output) : Prop :=
  match last_status log with
  | Some p => p = le_bytes 4 (get_status_code s)
  | None => jd_inited s = false
  end.
Definition life_ok {W} (s : sensor) (d : W * list driver_call) (log : list output) : Prop :=
  driver_state (snd d) = Some (jd_inited s) /\ status_sent s log.

Lemma status_sent_now s i log : status_sent s (log ++ [Event i JD_EV_STATUS_CODE_CHANGED (le_bytes 4 (get_status_code s))]).
Proof. unfold status_sent. by rewrite last_status_app, Z.eqb_refl. Qed.

(** What the invariant depends on. *)
Lemma life_ok_same {W} s s' (d : W * list driver_call) log rs : jd_inited s' = jd_inited s -> got_reading s' = got_reading s ->
  life_ok s d log -> life_ok s' d (log ++ map Report rs).
Proof. intros E1 E2 [H1 H2]. unfold life_ok, status_sent, get_status_code in *. by rewrite last_status_reports, E1, E2. Qed.
Lemma life_ok_report {W} s (d : W * list driver_call) log r : life_ok s d log -> life_ok s d (log ++ [Report r]).
Proof. intros Hl. by apply (life_ok_same s s d log [r]). Qed.

Context {W : Type} (a : sensor_api W) (Hinit : api_init a <> None).
#[local] Abbreviation api := (Some (traced a)).

Lemma maybe_init_life s d log : life_ok s d log -> exists b s' d' log',
  sensor_maybe_init api s d log = Ret (b, s', d', log') /\ life_ok s' d' log' /\ same_stream s s'.
Proof.
  intros Hl. unfold sensor_maybe_init. destruct (got_query s); cbn [andb]; [|by exists false, s, d, log].
  destruct (jd_inited s) eqn:Ei; cbn [negb]; [by exists false, s, d, log|]. destruct d as [w c]. destruct Hl as [Hd _]. cbn [snd] in Hd. rewrite Ei in Hd.
  unfold traced. destruct (api_init a) as [i|]; [|done]. cbn [option_map]. unfold sensor_send_status, send_event, output_event_sender. obind.
  cbn [api_get_reading]. destruct (api_get_reading a (i w)) as [r w']. obind.
  eexists true, _, _, _. split; [reflexivity|]. split; [|by destruct r].
  split; [|apply status_sent_now]. cbn [snd]. rewrite !driver_state_snoc, Hd. by destruct r.
Qed.

Lemma process_life s d log : life_ok s d log -> exists s' d' log',
  sensor_process api s d log = Ret (s', d', log') /\ life_ok s' d' log'.
Proof.
  intros Hl. unfold sensor_process. destruct (maybe_init_life s d log Hl) as (b & s1 & d1 & log1 & -> & [Hd Ha] & _). obind.
  unfold traced. destruct (api_process a) as [p|]; cbn [option_map]; [|by exists s1, d1, log1].
  destruct (jd_inited s1) eqn:Ei; [|exists s1, d1, log1; split; [done|]; split; [by rewrite Ei|done]].
  destruct d1 as [w c]. eexists s1, _, log1. split; [reflexivity|]. split; [|done]. cbn [snd] in *. rewrite driver_state_snoc, Hd, Ei. done.
Qed.

Lemma get_reading_life s d log : life_ok s d log -> exists r s' d' log',
  sensor_get_reading api s d log = Ret (r, s', d', log') /\ life_ok s' d' log'.
Proof.
  intros Hl. unfold sensor_get_reading. destruct (jd_inited s) eqn:Ei; cbn [negb]; [|by exists None, s, d, log].
  destruct d as [w c]. destruct Hl as [Hd Ha]. cbn [snd] in Hd. cbn [api_get_reading traced]. destruct (api_get_reading a w) as [r w']. obind.
  assert (driver_state (c ++ [CallReading]) = Some true) as Hc by (by rewrite driver_state_snoc, Hd, Ei).
  destruct r as [r|]; [|eexists None, s, _, log; split; [reflexivity|]; split; [by rewrite Ei|done]].
  destruct (got_reading s) eqn:Eg; cbn [negb]; [eexists _, s, _, log; split; [reflexivity|]; split; [by rewrite Ei|done]|].
  unfold sensor_send_status, send_event, output_event_sender. obind. eexists _, _, _, _. split; [reflexivity|]. split; [done|apply status_sent_now].
Qed.

Lemma set_intensity_life pkt s d log : life_ok s d log -> exists s' d' log',
  set_intensity api pkt s d log = Ret (s', d', log') /\ life_ok s' d' log'.
Proof.
  intros Hl. unfold set_intensity. destruct (negb _); [by exists (set_query s true), d, log|].
  unfold traced. destruct (api_sleep a) as [sl|]; cbn [option_map]; [|by eexists _, d, log].
  cbn [jd_inited set_query set_streaming]. destruct (jd_inited s) eqn:Ei; [|eexists _, d, log; split; [reflexivity|exact Hl]].
  destruct d as [w c]. unfold sensor_send_status, send_event, output_event_sender. obind. eexists _, _, _. split; [reflexivity|].
  destruct Hl as [Hd _]. cbn [snd] in *. split; [|apply status_sent_now]. cbn [snd]. rewrite driver_state_snoc, Hd, Ei. done.
Qed.

Lemma streaming_set_same now r s b :
  jd_inited (streaming_set now r (sensor_decode s b)) = jd_inited s /\ got_reading (streaming_set now r (sensor_decode s b)) = got_reading s.
Proof. unfold streaming_set. repeat case_match; done. Qed.

Lemma handle_packet_life now pkt s d log : life_ok s d log -> exists r s' d' log',
  sensor_handle_packet api now pkt s d log = Ret (r, s', d', log') /\ life_ok s' d' log'.
Proof.
  intros Hl. unfold sensor_handle_packet, jd_respond_u8, jd_respond_u32, respond.
  destruct (_ =? JD_GET JD_REG_INTENSITY); [unfold send_packet, output_sender; obind; eexists _, s, d, _; split; [reflexivity|by apply life_ok_report]|].
  destruct (_ =? JD_GET JD_REG_STATUS_CODE); [unfold send_packet, output_sender; obind; eexists _, s, d, _; split; [reflexivity|by apply life_ok_report]|].
  destruct (_ =? JD_GET JD_REG_READING_RANGE).
  { unfold traced. destruct (api_get_range a) as [g|]; cbn [option_map api_get_range]; [|by eexists _, s, d, log].
    destruct d as [w c]. destruct (g w) as [v w']. unfold send_packet, output_sender. obind. eexists _, s, _, _. split; [reflexivity|]. apply life_ok_report.
    destruct Hl as [Hd Hl]. split; [|exact Hl]. cbn [snd] in *. by rewrite driver_state_snoc, Hd. }
  destruct (_ =? JD_SET JD_REG_READING_RANGE).
  { unfold traced. destruct (api_set_range a) as [g|]; cbn [option_map api_set_range]; [|by eexists _, s, d, log].
    destruct d as [w c]. destruct (g _ w) as [v w']. eexists _, s, _, _. split; [reflexivity|].
    destruct Hl as [Hd Hl]. split; [|exact Hl]. cbn [snd] in *. by rewrite driver_state_snoc, Hd. }
  destruct (_ =? JD_GET JD_REG_SUPPORTED_RANGES).
  { unfold respond_ranges. destruct (api_ranges _); [|by eexists _, s, d, log]. unfold send_packet, output_sender. obind.
    eexists _, s, d, _. split; [reflexivity|by apply life_ok_report]. }
  destruct (_ =? JD_SET JD_REG_INTENSITY).
  { destruct (set_intensity_life pkt s d log Hl) as (s' & d' & log' & -> & Hl'). obind. by eexists _, s', d', log'. }
  destruct (sensor_register_total s pkt log) as (r & b & rs & ->). obind. eexists _, _, d, _. split; [reflexivity|].
  destruct (streaming_set_same now r s b) as [E1 E2]. by apply (life_ok_same s).
Qed.

(** *** All histories *)

Inductive sensor_op :=
  | SensorPacket (now : Z) (pkt sample : list Z)   (* [sensor_handle_packet_simple] *)
  | SensorProcess (now : Z) (sample : list Z)      (* [sensor_process_simple] *)
  | EnvPacket (now : Z) (pkt : list Z)
  | EnvProcess (now : Z).

Definition sensor_step (o : sensor_op) (x : sensor * (W * list driver_call) * list output)
    : outcome (sensor * (W * list driver_call) * list output) :=
  let '(s, d, log) := x in
  match o with
  | SensorPacket now pkt sample => '(_, s, d, log) ← sensor_handle_packet_simple api now pkt sample s d log; Ret (s, d, log)
  | SensorProcess now sample => sensor_process_simple api now sample s d log
  | EnvPacket now pkt => '(_, s, d, log) ← env_sensor_handle_packet api now pkt s d log; Ret (s, d, log)
  | EnvProcess now => env_sensor_process api now s d log
  end.
Fixpoint sensor_run (ops : list sensor_op) (x : sensor * (W * list driver_call) * list output)
    : outcome (sensor * (W * list driver_call) * list output) :=
  match ops with [] => Ret x | o :: ops => x ← sensor_step o x; sensor_run ops x end.

Lemma should_stream_same now s : let s' := snd (sensor_should_stream now s) in jd_inited s' = jd_inited s /\ got_reading s' = got_reading s.
Proof. unfold sensor_should_stream. repeat case_match; done. Qed.

Lemma sensor_step_life o s d log : life_ok s d log -> exists s' d' log',
  sensor_step o (s, d, log) = Ret (s', d', log') /\ life_ok s' d' log'.
Proof.
  intros Hl. destruct o as [now pkt sample|now sample|now pkt|now]; cbn [sensor_step].
  - unfold sensor_handle_packet_simple. destruct (handle_packet_life now pkt s d log Hl) as (r & s1 & d1 & log1 & -> & Hl1). obind.
    assert (forall r2 s2 log2, life_ok s2 d1 log2 -> exists s' d' log',
      ('(_, s, d, log) ← (if r2 =? 0 then '(_, tx) ← jd_send_not_implemented log2 pkt; Ret (r2, s2, d1, tx) else Ret (r2, s2, d1, log2));
       Ret (s, d, log)) = Ret (A := sensor * (W * list driver_call) * list output) (s', d', log') /\ life_ok s' d' log') as Hend.
    { intros r2 s2 log2 Hl2. destruct (r2 =? 0); [|obind; by exists s2, d1, log2]. destruct (not_implemented_reports pkt log2) as (r3 & rs & ->). obind.
      eexists s2, d1, _. split; [reflexivity|]. by apply (life_ok_same s2). }
    destruct (_ =? _); [|by apply Hend]. unfold send_packet at 1, output_sender at 1. obind. apply Hend. by apply life_ok_report.
  - unfold sensor_process_simple. destruct (process_life s d log Hl) as (s1 & d1 & log1 & -> & Hl1). obind.
    destruct (should_stream_same now s1) as [E1 E2]. destruct (sensor_should_stream now s1) as [due s2]. cbn [snd] in *.
    destruct due; unfold send_packet, output_sender; obind; eexists s2, d1, _; (split; [reflexivity|]).
    + apply life_ok_report. rewrite <- (app_nil_r log1). by apply (life_ok_same s1 s2 d1 log1 []).
    + rewrite <- (app_nil_r log1). by apply (life_ok_same s1 s2 d1 log1 []).
  - unfold env_sensor_handle_packet. destruct (handle_packet_life now pkt s d log Hl) as (r & s1 & d1 & log1 & -> & Hl1). obind.
    destruct (negb _); [obind; by exists s1, d1, log1|]. destruct (env_register _) as [off|].
    + destruct (get_reading_life (set_query s1 true) d1 log1 Hl1) as (env & s2 & d2 & log2 & -> & Hl2). obind.
      destruct env; unfold send_packet, output_sender; obind; eexists s2, d2, _; (split; [reflexivity|]); [by apply life_ok_report|done].
    + destruct (not_implemented_reports pkt log1) as (r3 & rs & ->). obind. eexists s1, d1, _. split; [reflexivity|]. by apply (life_ok_same s1).
  - unfold env_sensor_process. destruct (process_life s d log Hl) as (s1 & d1 & log1 & -> & Hl1). obind.
    destruct (should_stream_same now s1) as [E1 E2]. destruct (sensor_should_stream now s1) as [due s2]. cbn [snd] in *.
    assert (life_ok s2 d1 log1) as Hl2 by (rewrite <- (app_nil_r log1); by apply (life_ok_same s1 s2 d1 log1 [])).
    destruct due; [|by exists s2, d1, log1]. destruct (get_reading_life s2 d1 log1 Hl2) as (env & s3 & d3 & log3 & -> & Hl3). obind.
    destruct env; unfold send_packet, output_sender; obind; eexists s3, d3, _; (split; [reflexivity|]); [by do 2 apply life_ok_report|done].
Qed.

(** C24. A sensor is woken before it is used and clients know its status: for a
    driver with an [init] function, every sequence of packets and turns of a
    plain sensor and of one with errors ends without a panic, and calls these
    functions of the driver in turn: [init] only when it is asleep, [process],
    [get_reading] and [sleep] only when it is awake, so never before the first
    query or after it was put to sleep. The functions of the range are not among
    them, packets reach them asleep or awake ([range_reaches_sleeping_driver]);
    they do not change whether the driver is awake. The status sent with the
    last event is the status of the sensor, which before the first event is
    sleeping. *)
Theorem sensor_life ops s (w : W) (log : list output) :
  jd_inited s = false -> last_status log = None ->
  exists s' w' calls log', sensor_run ops (s, (w, []), log) = Ret (s', (w', calls), log') /\
    driver_state calls = Some (jd_inited s') /\ status_sent s' log'.
Proof.
  intros Hs Hlog. assert (life_ok s (w, []) log) as Hl.
  { split; [by rewrite Hs|]. unfold status_sent. by rewrite Hlog. }
  revert Hl. clear Hs Hlog. generalize (w, @nil driver_call) as d. revert s log.
  induction ops as [|o ops IH]; intros s log d Hl; cbn [sensor_run].
  - destruct d as [w' c]. destruct Hl as [H1 H2]. by exists s, w', c, log.
  - destruct (sensor_step_life o s d log Hl) as (s1 & d1 & log1 & E & Hl1). rewrite E. obind. by apply IH.
Qed.
End Life.

(** ** Sensors without a driver

    Services that read their pins themselves have no table of functions; what
    the framework does for them is to stream, answer and announce its status. *)

Definition no_api : option (sensor_api unit) := None.

Section Bare.
Context `{JdSpec} `{SensorSpec}.

(** What the framework sends of its own. *)
Definition framework_output (o : output) : Prop := match o with Report _ => True | Event _ e _ => e = JD_EV_STATUS_CODE_CHANGED end.
(** The registers of the range, which follow the pointer to the table. *)
Definition range_cmd (cmd : Z) : Prop := cmd = JD_GET JD_REG_READING_RANGE \/ cmd = JD_SET JD_REG_READING_RANGE \/ cmd = JD_GET JD_REG_SUPPORTED_RANGES.

Lemma framework_reports rs : Forall framework_output (map Report rs).
Proof. induction rs; by constructor. Qed.

Lemma bare_maybe_init s (log : list output) : exists b s' es, sensor_maybe_init no_api s tt log = Ret (b, s', tt, log ++ es) /\
  Forall framework_output es /\ sn_common s' = sn_common s /\ (b = true <-> jd_inited s = false /\ got_query s = true) /\ jd_inited s' = (b || jd_inited s).
Proof.
  unfold sensor_maybe_init, no_api, sensor_send_status, send_event, output_event_sender. destruct (got_query s), (jd_inited s) eqn:Ei; cbn [andb negb]; obind.
  2: { exists true. eexists _, [_]. split; [reflexivity|]. split; [by repeat constructor|]. done. }
  all: exists false, s, []; rewrite app_nil_r, ?Ei; (split; [done|]); (split; [done|]); (split; [done|]); (split; [split; [done|intros []; congruence]|done]).
Qed.

Lemma bare_process now sample s (log : list output) : exists s' es, sensor_process_simple no_api now sample s tt log = Ret (s', tt, log ++ es) /\
  Forall framework_output es /\ sn_common s' = sn_common s /\ (jd_inited s = true -> jd_inited s' = true).
Proof.
  unfold sensor_process_simple, sensor_process. destruct (bare_maybe_init s log) as (b & s1 & es & -> & He & Hc & _ & Hi). obind. unfold no_api. obind.
  assert (sn_common (snd (sensor_should_stream now s1)) = sn_common s1 /\ jd_inited (snd (sensor_should_stream now s1)) = jd_inited s1) as [E1 E2]
    by (unfold sensor_should_stream; repeat case_match; done).
  destruct (sensor_should_stream now s1) as [due s2]. cbn [snd] in *. assert (jd_inited s = true -> jd_inited s2 = true) as Hin by (intros E; by rewrite E2, Hi, E, orb_true_r).
  destruct due; unfold send_packet, output_sender; obind.
  - exists s2, (es ++ [Report {| s_index := service_idx s2; s_command := JD_GET JD_REG_READING; s_data := sample |}]). rewrite app_assoc. split; [done|].
    split; [apply Forall_app; split; [done|by repeat constructor]|]. split; [congruence|done].
  - exists s2, es. split; [done|]. split; [done|]. split; [congruence|done].
Qed.

Lemma bare_handle now pkt s (log : list output) : ~ range_cmd (p_service_command pkt) -> exists r s' es,
  sensor_handle_packet no_api now pkt s tt log = Ret (r, s', tt, log ++ es) /\ Forall framework_output es /\ sn_common s' = sn_common s /\ jd_inited s' = jd_inited s.
Proof.
  intros Hr. unfold sensor_handle_packet, jd_respond_u8, jd_respond_u32, respond.
  assert (forall s1 r, sn_common s1 = sn_common s -> jd_inited s1 = jd_inited s -> exists r' s' es, Ret (r, s1, tt, log) = Ret (A := Z * sensor * unit * list output) (r', s', tt, log ++ es) /\
    Forall framework_output es /\ sn_common s' = sn_common s /\ jd_inited s' = jd_inited s) as Hnil.
  { intros s1 r E1 E2. exists r, s1, []. rewrite app_nil_r. done. }
  destruct (_ =? JD_GET JD_REG_INTENSITY); [unfold send_packet, output_sender; obind; eexists _, s, [_]; split; [reflexivity|]; by repeat constructor|].
  destruct (_ =? JD_GET JD_REG_STATUS_CODE); [unfold send_packet, output_sender; obind; eexists _, s, [_]; split; [reflexivity|]; by repeat constructor|].
  destruct (Z.eqb_spec (p_service_command pkt) (JD_GET JD_REG_READING_RANGE)); [exfalso; apply Hr; by left|].
  destruct (Z.eqb_spec (p_service_command pkt) (JD_SET JD_REG_READING_RANGE)); [exfalso; apply Hr; right; by left|].
  destruct (Z.eqb_spec (p_service_command pkt) (JD_GET JD_REG_SUPPORTED_RANGES)); [exfalso; apply Hr; right; by right|].
  destruct (_ =? JD_SET JD_REG_INTENSITY).
  { unfold set_intensity, no_api. destruct (negb _); obind; by apply Hnil. }
  destruct (sensor_register_total s pkt log) as (r & b & rs & ->). obind. eexists _, _, _. split; [reflexivity|]. split; [apply framework_reports|].
  destruct (streaming_set_same now r s b) as [E _]. split; [|exact E]. unfold streaming_set. repeat case_match; done.
Qed.

(** Packets and turns of such a sensor end, and send nothing but what the
    framework sends. *)
Lemma bare_packet now pkt sample s (log : list output) : ~ range_cmd (p_service_command pkt) -> exists r s' es,
  sensor_handle_packet_simple no_api now pkt sample s tt log = Ret (r, s', tt, log ++ es) /\ Forall framework_output es /\ sn_common s' = sn_common s /\
  jd_inited s' = jd_inited s.
Proof.
  intros Hr. unfold sensor_handle_packet_simple. destruct (bare_handle now pkt s log Hr) as (r & s1 & es & -> & He & Hc & Hi). obind.
  assert (forall r2 s2 es2, Forall framework_output es2 -> sn_common s2 = sn_common s -> jd_inited s2 = jd_inited s -> exists r' s' es',
    (if r2 =? 0 then '(_, tx) ← jd_send_not_implemented (log ++ es2) pkt; Ret (r2, s2, tt, tx) else Ret (r2, s2, tt, log ++ es2)) =
      Ret (A := Z * sensor * unit * list output) (r', s', tt, log ++ es') /\ Forall framework_output es' /\ sn_common s' = sn_common s /\ jd_inited s' = jd_inited s) as Hend.
  { intros r2 s2 es2 H1 H2 H3. destruct (r2 =? 0); [|by exists r2, s2, es2]. destruct (not_implemented_reports pkt (log ++ es2)) as (r3 & rs & ->). obind.
    exists r2, s2, (es2 ++ map Report rs). rewrite app_assoc. split; [done|]. split; [|done]. apply Forall_app. split; [done|apply framework_reports]. }
  destruct (_ =? _); [|obind; by apply Hend].
  assert (forall (l : list output) i c d, send_packet l i c d = Ret (0, l ++ [Report {| s_index := i; s_command := c; s_data := d |}])) as -> by done.
  obind. rewrite <- app_assoc. apply Hend; [|done|done].
  apply Forall_app. split; [done|by repeat constructor].
Qed.
End Bare.

(** ** Errors of readings *)

Fixpoint increasing (prev : Z) (table : list (Z * Z)) : Prop :=
  match table with [] => True | (v, _) :: table => prev < v /\ increasing v table end.

Lemma extrapolate_between lo hi w table : (hi - lo) * w < 2 ^ 31 -> forall value prev e0, prev <= value -> increasing prev table ->
  lo <= e0 <= hi -> Forall (fun x => lo <= snd x <= hi) table -> (forall v e i, table !! i = Some (v, e) -> v - prev <= w) ->
  lo <= extrapolate value prev e0 table <= hi.
Proof.
  intros Hw. induction table as [|[v e] table IH]; intros value prev e0 Hv Hinc He0 Hall Hspan; cbn [extrapolate]; [done|].
  destruct Hinc as [Hlt Hinc]. apply Forall_cons in Hall as [He Hall]. cbn [snd] in He. pose proof (Hspan v e 0%nat eq_refl) as Hsp.
  destruct (Z.leb_spec value v) as [Hle|Hgt].
  - set (p := (value - prev) * (e - e0)). assert (- 2 ^ 31 < p < 2 ^ 31) as Hp by (unfold p; nia).
    assert (s32 p = p) as -> by (unfold s32; rewrite Z.mod_small; lia).
    destruct (Z.le_gt_cases e0 e) as [Hee|Hee].
    + rewrite Z.quot_div_nonneg by (unfold p; nia). assert (0 <= p / (v - prev) <= e - e0); [|lia].
      split; [apply Z.div_pos; unfold p; nia|]. apply Z.div_le_upper_bound; [lia|]. unfold p. nia.
    + assert (p = - ((value - prev) * (e0 - e))) as -> by (unfold p; ring). rewrite Z.quot_opp_l by lia. rewrite Z.quot_div_nonneg by nia.
      assert (0 <= (value - prev) * (e0 - e) / (v - prev) <= e0 - e); [|lia].
      split; [apply Z.div_pos; nia|]. apply Z.div_le_upper_bound; [lia|]. nia.
  - apply IH; try done; [lia|]. intros v' e' i Hi. specialize (Hspan v' e' (S i) Hi). lia.
Qed.

(** The error of a reading is between the least and the greatest of the table. *)
Lemma env_extrapolate_error_between lo hi w v0 e0 table value :
  (hi - lo) * w < 2 ^ 31 -> increasing v0 table -> lo <= e0 <= hi -> Forall (fun x => lo <= snd x <= hi) table ->
  (forall v e i, table !! i = Some (v, e) -> v - v0 <= w) ->
  lo <= env_extrapolate_error value ((v0, e0) :: table) <= hi.
Proof.
  intros Hw Hinc He0 Hall Hspan. cbn [env_extrapolate_error]. destruct (Z.ltb_spec value v0); [done|]. by eapply extrapolate_between.
Qed.

(** At 30 degrees 60% of humidity are 18.2 g/m3 (18677 / 1024); at 70% the product overflows and
    the result is negative. *)
Lemma absolute_humidity_overflows :
  env_absolute_humidity (30 * 1024) (60 * 1024) = 18677 /\ env_absolute_humidity (30 * 1024) (70 * 1024) < 0.
Proof. vm_compute. split; reflexivity. Qed.

(** ** Ranges and thresholds *)

(** The range used is the smallest that holds the request, or the greatest. *)
Lemma sensor_lookup_range_spec ranges requested r : sensor_lookup_range ranges requested = Some r ->
  r ∈ ranges /\ (requested <= r \/ last ranges = Some r /\ Forall (fun x => x < requested) ranges).
Proof.
  unfold sensor_lookup_range. assert (forall prev, lookup_range prev ranges requested = Some r ->
    r ∈ ranges /\ (requested <= r \/ last ranges = Some r /\ Forall (fun x => x < requested) ranges) \/ ranges = [] /\ prev = Some r) as Hgen.
  { induction ranges as [|x ranges IH]; intros prev; cbn [lookup_range]; [by right|]. rewrite Z.geb_leb.
    destruct (Z.leb_spec requested x) as [Hle|Hgt]; [intros [= ->]; left; split; [by left|by left]|].
    intros Hr. left. destruct (IH (Some x) Hr) as [[Hin Hc]|[-> [= ->]]].
    - split; [by right|]. destruct Hc as [Hc|[Hlast Hall]]; [by left|right]. split; [|by constructor]. destruct ranges; [done|exact Hlast].
    - split; [by left|right]. split; [done|by repeat constructor]. }
  intros Hr. destruct (Hgen None Hr) as [Hok|[_ ?]]; [exact Hok|done].
Qed.

(** ** Examples *)

Definition demo_sensor_codes : SensorSpec.
Proof.
  refine {| JD_REG_INTENSITY := 0x01; JD_REG_STATUS_CODE := 0x103; JD_REG_READING := 0x101; JD_REG_READING_RANGE := 0x08;
    JD_REG_READING_ERROR := 0x106; JD_REG_MIN_READING := 0x104; JD_REG_MAX_READING := 0x105; JD_REG_SUPPORTED_RANGES := 0x10a;
    JD_REG_STREAMING_SAMPLES := 0x03; JD_REG_STREAMING_INTERVAL := 0x04; JD_EV_STATUS_CODE_CHANGED := 0x04;
    JD_STATUS_CODES_READY := 0; JD_STATUS_CODES_INITIALIZING := 1; JD_STATUS_CODES_SLEEPING := 3 |};
    [repeat constructor|split; split; reflexivity|by apply (bool_decide_unpack _)].
Defined.

Definition demo_sensor : sensor :=
  {| sn_common := [0; 0; 0; 0; 1; 0]; streaming_samples := 0; got_query := false; jd_inited := false; got_reading := false;
     reading_pending := false; streaming_interval := 0; next_streaming := 0 |}.
(** A driver that counts, and is ready from the first [process] on. *)
Definition demo_api : sensor_api Z := {|
  api_init := Some (fun _ => 0); api_process := Some (fun n => n + 1); api_sleep := Some (fun n => n);
  api_get_reading := fun n => (if n >? 0 then Some (le_bytes 4 n ++ [7; 0; 0; 0] ++ replicate 8 0) else None, n);
  api_get_range := Some (fun n => (8, n)); api_set_range := Some (fun r n => (r, n)); api_ranges := Some [2; 4; 8] |}.

(** Two samples are asked for, three calls follow. *)
Definition demo_stream : list (Z * list Z) := [(151000, [1]); (260000, [2]); (400000, [3])].
Lemma sensor_stream_bounded_witness :
  exists s1 s2 d2 evs,
    sensor_handle_packet_simple (H := demo_spec) (H0 := demo_sensor_codes) (Some demo_api) 1000 (demo_pkt 0x2003 [2]) [] demo_sensor 0 ([] : list output) = Ret (0x03, s1, 0, []) /\
    stream_run (H := demo_spec) (H0 := demo_sensor_codes) (Some demo_api) demo_stream s1 0 [] = Ret (s2, d2, evs) /\
    reports evs = [{| s_index := 1; s_command := 0x1101; s_data := [1] |}; {| s_index := 1; s_command := 0x1101; s_data := [2] |}].
Proof.
  destruct (sensor_stream_bounded (H := demo_spec) (H0 := demo_sensor_codes) (Some demo_api) 2 (demo_pkt 0x2003 [2]) 1000 demo_stream demo_sensor 0 [])
    as (s1 & picks & s2 & d2 & evs & E1 & E2 & E3 & _ & _ & _ & E6);
    [reflexivity|vm_compute; discriminate|vm_compute; discriminate|reflexivity|lia|reflexivity|by left|cbn; lia|].
  exists s1, s2, d2, evs. split; [exact E1|]. split; [exact E2|]. rewrite E3, E6 by (cbn; lia). reflexivity.
Defined.

Lemma sensor_life_witness :
  let ops := [SensorProcess 10 []; SensorPacket 20 (demo_pkt 0x2003 [1]) []; EnvProcess 30; EnvProcess 200000;
              SensorPacket 200010 (demo_pkt 0x2001 [0]) []; SensorProcess 200020 [];
              SensorPacket 200030 (demo_pkt 0x1008 []) []] in
  exists s' w' calls log', sensor_run (H := demo_spec) (H0 := demo_sensor_codes) demo_api ops (demo_sensor, (0, []), []) = Ret (s', (w', calls), log') /\
    driver_state calls = Some (jd_inited s') /\ status_sent (H0 := demo_sensor_codes) s' log'.
Proof.
  cbv zeta. apply (sensor_life (H := demo_spec) (H0 := demo_sensor_codes) demo_api); [discriminate|reflexivity|reflexivity].
Defined.
Example sensor_life_demo :
  match sensor_run (H := demo_spec) (H0 := demo_sensor_codes) demo_api
    [SensorProcess 10 []; SensorPacket 20 (demo_pkt 0x2003 [1]) []; EnvProcess 30; EnvProcess 200000;
     SensorPacket 200010 (demo_pkt 0x2001 [0]) []; SensorProcess 200020 []] (demo_sensor, (0, []), []) with
  | Ret (_, (_, calls), log) =>
      calls = [CallInit; CallReading; CallProcess; CallReading; CallProcess; CallSleep] /\
      log = [Event 1 4 [1; 0; 0; 0]; Event 1 4 [1; 0; 0; 0]; Event 1 4 [0; 0; 0; 0];
             Report {| s_index := 1; s_command := 0x1101; s_data := [1; 0; 0; 0] |}; Report {| s_index := 1; s_command := 0x1106; s_data := [7; 0; 0; 0] |};
             Event 1 4 [3; 0; 0; 0]]
  | _ => False
  end.
Proof. vm_compute. split; reflexivity. Qed.

(** A packet for the range calls the driver of a sensor that was never woken.
    The one of drivers/kxtj3.c follows a null pointer then ([r_accel] is set by
    its [init]), and a write turns on the chip of a sensor that is asleep. *)
Lemma range_reaches_sleeping_driver :
  match sensor_run (H := demo_spec) (H0 := demo_sensor_codes) demo_api
    [SensorPacket 20 (demo_pkt 0x1008 []) []; SensorPacket 30 (demo_pkt 0x2008 [4; 0; 0; 0]) []] (demo_sensor, (0, []), []) with
  | Ret (s, (_, calls), _) => jd_inited s = false /\ calls = [CallGetRange; CallSetRange]
  | _ => False
  end.
Proof. vm_compute. split; reflexivity. Qed.

(** What a write of the range reads is not bounded by the size of the packet:
    an empty packet sets the range from the bytes behind it. *)
Lemma range_set_past_payload :
  let api := Some {| api_init := None; api_process := None; api_sleep := None; api_get_reading := fun n => (None, n);
                     api_get_range := None; api_set_range := Some (fun r _ => (r, r)); api_ranges := None |} in
  match sensor_handle_packet (H := demo_spec) (H0 := demo_sensor_codes) api 0 (mwrite (demo_pkt 0x2008 []) 16 [7; 0; 0; 0]) demo_sensor 0 ([] : list output) with
  | Ret (r, _, d, _) => r = 8 /\ d = 7
  | _ => False
  end.
Proof. vm_compute. split; reflexivity. Qed.
