(* ===== verification/Analog.v ===== *)
(** * The analog sensor ([services/analogsensor.c])

    A sensor whose reading is a voltage: two pins power it for the time of a
    sample, the converter reads a third. [analog_config] makes one from the
    configuration image. What [adc_read_pin] gives and the functions of the pins
    are the port's: the value is an argument of each call, the pins are events
    of a trace. *)
From Stdlib Require Import String.
From S2P Require Import Prelude Frame Util Iface Registers Dcfg Srvcfg Sensor.

(** [analog_config_t] *)
Record analog_cfg := {
  pinH : Z; pinL : Z; pinM : Z;
  cf_variant : Z;
  cf_offset : Z;               (* int32_t *)
  cf_scale : Z;                (* int32_t *)
  sampling_ms : Z;
  sampling_delay : Z;
  cf_streaming_interval : Z;
}.

Inductive pin_event := PinOutputHigh (pin : Z) | PinOutputLow (pin : Z) | PinAnalogInput (pin : Z).

(** [ANALOG_SENSOR_STATE] *)
Record analog := {
  an_sensor : sensor;
  an_config : analog_cfg;
  an_sample : Z;               (* uint16_t *)
  nextSample : Z;
  an_trace : list pin_event;
}.
Definition set_sensor (a : analog) (s : sensor) : analog :=
  {| an_sensor := s; an_config := an_config a; an_sample := an_sample a; nextSample := nextSample a; an_trace := an_trace a |}.
Definition set_next_sample (a : analog) (v : Z) : analog :=
  {| an_sensor := an_sensor a; an_config := an_config a; an_sample := an_sample a; nextSample := v; an_trace := an_trace a |}.
Definition set_sample (a : analog) (v : Z) : analog :=
  {| an_sensor := an_sensor a; an_config := an_config a; an_sample := v; nextSample := nextSample a; an_trace := an_trace a |}.
Definition an_emit (a : analog) (es : list pin_event) : analog :=
  {| an_sensor := an_sensor a; an_config := an_config a; an_sample := an_sample a; nextSample := nextSample a; an_trace := an_trace a ++ es |}.

(** The sample of a conversion; the product wraps, where C leaves it
    undefined. *)
Definition analog_sample (cfg : analog_cfg) (adc : Z) : Z :=
  let scale := if cf_scale cfg =? 0 then 1024 else cf_scale cfg in
  let v := s32 (cf_offset cfg + Z.shiftr (s32 (adc * scale)) 10) in
  if v <? 0 then 0 else if v >? 0xffff then 0xffff else v.

Definition analog_update (now adc : Z) (a : analog) : analog :=
  let cfg := an_config a in
  let pending := reading_pending (an_sensor a) in
  let a := if pending then a else an_emit a [PinOutputHigh (pinH cfg); PinOutputLow (pinL cfg)] in
  if negb pending && negb (sampling_delay cfg =? 0) then
    set_sensor (set_next_sample a (u32 (now + 1000 * sampling_delay cfg))) (set_pending (an_sensor a) true)
  else
    let a := set_sensor a (set_pending (an_sensor a) false) in
    an_emit (set_sample a (analog_sample cfg adc)) [PinAnalogInput (pinH cfg); PinAnalogInput (pinL cfg)].

Section Analog.
Context `{JdSpec} `{SensorSpec} {T : Type} `{Sender T} `{EventSender T}.

Definition analog_process (now adc : Z) (a : analog) (tx : T) : outcome (analog * T) :=
  '(woken, s, _, tx) ← sensor_maybe_init no_api (an_sensor a) tt tx;
  let a := set_sensor a s in
  let a := if woken : bool then analog_update now adc a else a in
  let ms := s32 (sampling_ms (an_config a) * 1000) in
  let ms := if ms =? 0 then 9000 else ms in
  let '(due, next) := jd_should_sample now (nextSample a) (u32 ms) in
  let a := set_next_sample a next in
  let a := if due && jd_inited (an_sensor a) then analog_update now adc a else a in
  '(s, _, tx) ← sensor_process_simple no_api now (le_bytes 2 (an_sample a)) (an_sensor a) tt tx;
  Ret (set_sensor a s, tx).

Definition analog_handle_packet (now : Z) (pkt : list Z) (a : analog) (tx : T) : outcome (analog * T) :=
  if negb (cf_variant (an_config a) =? 0) && (p_service_command pkt =? JD_GET JD_REG_VARIANT) then
    '(_, tx) ← jd_respond_u8 tx pkt (cf_variant (an_config a)); Ret (a, tx)
  else
    '(_, s, _, tx) ← sensor_handle_packet_simple no_api now pkt (le_bytes 2 (an_sample a)) (an_sensor a) tt tx;
    Ret (set_sensor a s, tx).
End Analog.

(** [common] is the common part of the struct that [jd_allocate_service] made. *)
Definition analog_init (common : list Z) (cfg : analog_cfg) : analog :=
  {| an_sensor := {| sn_common := common; streaming_samples := 0; got_query := false; jd_inited := false; got_reading := false;
                     reading_pending := false; streaming_interval := cf_streaming_interval cfg; next_streaming := 0 |};
     an_config := cfg; an_sample := 0; nextSample := 0; an_trace := [] |}.

(** ** From the configuration *)

(** Classes of the generated headers. *)
Class AnalogSpec := {
  JD_SERVICE_CLASS_LIGHT_LEVEL : Z;
  JD_SERVICE_CLASS_REFLECTED_LIGHT : Z;
  JD_SERVICE_CLASS_WATER_LEVEL : Z;
  JD_SERVICE_CLASS_SOUND_LEVEL : Z;
  JD_SERVICE_CLASS_SOIL_MOISTURE : Z;
  JD_SERVICE_CLASS_POTENTIOMETER : Z;
}.

Definition subtypes `{AnalogSpec} : list (list Z * Z) :=
  [(chars "lightLevel", JD_SERVICE_CLASS_LIGHT_LEVEL); (chars "reflectedLight", JD_SERVICE_CLASS_REFLECTED_LIGHT);
   (chars "waterLevel", JD_SERVICE_CLASS_WATER_LEVEL); (chars "soundLevel", JD_SERVICE_CLASS_SOUND_LEVEL);
   (chars "soilMoisture", JD_SERVICE_CLASS_SOIL_MOISTURE); (chars "potentiometer", JD_SERVICE_CLASS_POTENTIOMETER)].

(** The text behind the first colon: [strchr(srv, ':') + 1]. *)
Fixpoint after_colon (s : list Z) : option (list Z) :=
  match s with
  | [] => None
  | c :: s => if c =? 58 then Some s else after_colon s
  end.

Section Config.
Context `{AnalogSpec} {A : Type} (base : config) (in_irq : bool) (adc_can_read_pin : Z -> bool).

(** The class and the configuration of the service to make, if there is one. *)
Definition analog_config (st : srvcfg A) : outcome (option (Z * analog_cfg) * srvcfg A) :=
  '(srv, st) ← service_string base in_irq st;
  match (match srv with Some s => after_colon s | None => None end) with
  | None => Ret (None, st)
  | Some srv =>
      let cls := match List.find (fun x => bool_decide (fst x = srv)) subtypes with Some (_, c) => c | None => 0 end in
      if cls =? 0 then Ret (None, st)
      else
        '(pin, st) ← jd_srvcfg_pin base in_irq st (chars "pin");
        if negb (adc_can_read_pin pin) then Ret (None, st)
        else
          '(low, st) ← jd_srvcfg_pin base in_irq st (chars "pinLow");
          '(high, st) ← jd_srvcfg_pin base in_irq st (chars "pinHigh");
          '(offset, st) ← jd_srvcfg_i32 base in_irq st (chars "offset") 0;
          '(scale, st) ← jd_srvcfg_i32 base in_irq st (chars "offset") 1024;
          '(itv, st) ← jd_srvcfg_u32 base in_irq st (chars "samplingItv") 9;
          '(delay, st) ← jd_srvcfg_u32 base in_irq st (chars "samplingDelay") 0;
          '(stream, st) ← jd_srvcfg_u32 base in_irq st (chars "streamingItv") 100;
          Ret (Some (cls, {| pinH := high; pinL := low; pinM := pin; cf_variant := 0; cf_offset := offset; cf_scale := scale;
                             sampling_ms := u32 itv; sampling_delay := u32 delay; cf_streaming_interval := u32 stream |}), st)
  end.
End Config.

(** ** Power and range *)

Definition powered_by (on : bool) (e : pin_event) : bool := match e with PinAnalogInput _ => false | _ => true end.
Definition powered (tr : list pin_event) : bool := fold_left powered_by tr false.

(** The pins are powered exactly while a sample is pending. *)
Definition analog_ok (a : analog) : Prop :=
  powered (an_trace a) = reading_pending (an_sensor a) /\ 0 <= an_sample a <= 0xffff.

Lemma analog_sample_range cfg adc : 0 <= analog_sample cfg adc <= 0xffff.
Proof. unfold analog_sample. set (v := s32 _). rewrite Z.gtb_ltb. destruct (Z.ltb_spec v 0); [lia|]. destruct (Z.ltb_spec 0xffff v); lia. Qed.

(** Without overflow it is the offset and the scaled voltage, cut to 16 bits. *)
Lemma analog_sample_value cfg adc : 0 <= adc < 65536 -> 0 < cf_scale cfg < 2 ^ 15 -> - 2 ^ 30 <= cf_offset cfg < 2 ^ 30 ->
  analog_sample cfg adc = Z.min 0xffff (Z.max 0 (cf_offset cfg + adc * cf_scale cfg / 1024)).
Proof.
  intros Ha Hs Ho. unfold analog_sample. rewrite (proj2 (Z.eqb_neq _ 0)) by lia. assert (0 <= adc * cf_scale cfg < 2 ^ 31) by nia.
  assert (s32 (adc * cf_scale cfg) = adc * cf_scale cfg) as -> by (unfold s32; rewrite Z.mod_small; lia).
  rewrite Z.shiftr_div_pow2 by lia. change (2 ^ 10) with 1024. set (q := adc * cf_scale cfg / 1024).
  assert (0 <= q < 2 ^ 22) by (unfold q; split; [apply Z.div_pos; lia|apply Z.div_lt_upper_bound; lia]).
  assert (s32 (cf_offset cfg + q) = cf_offset cfg + q) as -> by (unfold s32; rewrite Z.mod_small; lia).
  rewrite Z.gtb_ltb. destruct (Z.ltb_spec (cf_offset cfg + q) 0); [lia|]. destruct (Z.ltb_spec 0xffff (cf_offset cfg + q)); lia.
Qed.

Lemma powered_app tr es : powered (tr ++ es) = fold_left powered_by es (powered tr).
Proof. apply fold_left_app. Qed.

Lemma analog_update_ok now adc a : analog_ok a -> analog_ok (analog_update now adc a).
Proof.
  intros [Hp Hr]. unfold analog_update. destruct (reading_pending (an_sensor a)) eqn:Ep; cbn [negb andb].
  - split; [|apply analog_sample_range]. cbn [an_trace an_emit set_sample set_sensor]. rewrite powered_app. done.
  - destruct (sampling_delay (an_config a) =? 0); cbn [negb].
    + split; [|apply analog_sample_range]. cbn [an_trace an_emit set_sample set_sensor]. rewrite !powered_app. done.
    + split; [|exact Hr]. cbn [an_trace an_emit set_next_sample set_sensor an_sensor set_pending reading_pending]. rewrite powered_app. done.
Qed.

Section AnalogOk.
Context `{JdSpec} `{SensorSpec}.

Lemma maybe_init_pending s (log : list output) : exists b s' d' log', sensor_maybe_init no_api s tt log = Ret (b, s', d', log') /\ reading_pending s' = reading_pending s.
Proof.
  unfold sensor_maybe_init, no_api, sensor_send_status, send_event, output_event_sender. destruct (_ && _); obind; eexists _, _, _, _; (split; [reflexivity|done]).
Qed.

Lemma process_simple_pending now sample s (log : list output) : exists s' d' log',
  sensor_process_simple no_api now sample s tt log = Ret (s', d', log') /\ reading_pending s' = reading_pending s.
Proof.
  unfold sensor_process_simple, sensor_process. destruct (maybe_init_pending s log) as (b & s1 & d1 & log1 & -> & E). obind. unfold no_api. obind.
  assert (reading_pending (snd (sensor_should_stream now s1)) = reading_pending s1) as E2 by (unfold sensor_should_stream; repeat case_match; done).
  destruct (sensor_should_stream now s1) as [due s2]. cbn [snd] in E2. destruct due; unfold send_packet, output_sender; obind;
    eexists s2, d1, _; (split; [reflexivity|by rewrite E2, E]).
Qed.

(** A turn always ends, and leaves the pins unpowered unless a sample is
    pending. *)
Lemma analog_process_ok now adc a (log : list output) : analog_ok a -> exists a' log', analog_process now adc a log = Ret (a', log') /\ analog_ok a'.
Proof.
  intros Hok. unfold analog_process. destruct (maybe_init_pending (an_sensor a) log) as (b & s1 & d1 & log1 & -> & E). obind.
  assert (analog_ok (set_sensor a s1)) as H1 by (destruct Hok as [X Y]; split; [cbn [an_trace set_sensor an_sensor]; by rewrite E|exact Y]).
  set (a1 := if b then _ else _). assert (analog_ok a1) as H2 by (unfold a1; destruct b; [by apply analog_update_ok|done]).
  clearbody a1. cbv zeta. destruct (jd_should_sample _ _ _) as [due next]. assert (analog_ok (set_next_sample a1 next)) as H3 by exact H2.
  set (a2 := if due && _ then _ else _). assert (analog_ok a2) as H4 by (unfold a2; destruct (due && _); [by apply analog_update_ok|done]).
  clearbody a2. destruct (process_simple_pending now (le_bytes 2 (an_sample a2)) (an_sensor a2) log1) as (s3 & d3 & log3 & -> & E3). obind.
  eexists _, log3. split; [reflexivity|]. destruct H4 as [X Y]. split; [cbn [an_trace set_sensor an_sensor]; by rewrite E3|exact Y].
Qed.
End AnalogOk.

(** *** What else the code does *)

(** The [api] of an analog sensor is [NULL], and the handlers of three registers
    follow it without a test: a packet from the network that asks for the range
    of such a sensor reads through a null pointer. *)
Lemma range_of_analog_sensor_is_null_access :
  let a := analog_init [0; 0; 0; 0; 1; 0] {| pinH := 1; pinL := 2; pinM := 3; cf_variant := 0; cf_offset := 0; cf_scale := 0; sampling_ms := 9;
             sampling_delay := 0; cf_streaming_interval := 100 |} in
  analog_handle_packet (H := demo_spec) (H0 := demo_sensor_codes) 0 (demo_pkt 0x1008 []) a ([] : list output) = Panic.
Proof. vm_compute. reflexivity. Qed.

(** Two reads of one key, for whatever defaults. *)
Lemma i32_twice {A} base in_irq (st st1 : srvcfg A) key d1 d2 v :
  0 <= jd_srvcfg_idx st <= 100 -> zlen (sc_keybuf st) = 16 -> zlen key <= 14 -> Forall (fun b => b <> 0) key ->
  jd_srvcfg_i32 base in_irq st key d1 = Ret (v, st1) -> v <> d1 -> exists st2, jd_srvcfg_i32 base in_irq st1 key d2 = Ret (v, st2).
Proof.
  intros Hi Hb Hk Hnz. unfold jd_srvcfg_i32, jd_srvcfg_key, mk_key. rewrite (proj2 (Z.eqb_neq _ 0xff)) by lia.
  destruct (idx_key_text (sc_keybuf st) (jd_srvcfg_idx st) key Hb Hi Hk Hnz) as [-> Hb1].
  set (buf := snd (dcfg_idx_key _ _ _ _)) in *. cbn [set_sc_keybuf sc_dcfg]. unfold dcfg_get_i32, dcfg_get_entry.
  destruct (dcfg_init base in_irq (sc_dcfg st)) as [d| |] eqn:Ed; obind; [|done..].
  set (e := find_config (configs d) _). intros E Hne. injection E as <- <-.
  cbn [jd_srvcfg_idx set_sc_dcfg set_sc_keybuf sc_keybuf sc_dcfg]. rewrite (proj2 (Z.eqb_neq _ 0xff)) by lia.
  destruct (idx_key_text buf (jd_srvcfg_idx st) key Hb1 Hi Hk Hnz) as [-> _]. cbn [sc_dcfg set_sc_keybuf set_sc_dcfg].
  assert (dcfg_init base in_irq d = Ret d) as ->.
  { unfold dcfg_init in *. destruct (dcfg_inited (sc_dcfg st)) eqn:E1; [injection Ed as <-; by rewrite E1|]. destruct in_irq; [done|]. by injection Ed as <-. }
  obind. fold e. clearbody e. eexists. f_equal. f_equal. repeat case_match; done.
Qed.

(** [analog_config] reads the scale from the key of the offset: an offset that
    is configured is the scale too. *)
Lemma scale_is_the_offset {A} base in_irq (st st1 : srvcfg A) offset :
  0 <= jd_srvcfg_idx st <= 100 -> zlen (sc_keybuf st) = 16 ->
  jd_srvcfg_i32 base in_irq st (chars "offset") 0 = Ret (offset, st1) -> offset <> 0 ->
  exists st2, jd_srvcfg_i32 base in_irq st1 (chars "offset") 1024 = Ret (offset, st2).
Proof. intros Hi Hb. apply i32_twice; [done|done|vm_compute; discriminate|repeat constructor; discriminate]. Qed.
