(* ===== verification/Numfmt.v ===== *)
(** * Number formats ([source/jd_numfmt.c], [inc/jd_numfmt.h])

    Numbers in buffers: a format is one of eight integer types, a float or a
    double, and for integers a shift that makes them fixed-point numbers.
    [jd_float_t] is [double] ([Double.v]). A conversion from a [double] to an
    integer type that cannot hold it is undefined in C and wraps here. The two
    write functions call each other; [fuel] bounds the depth of the calls. *)
From S2P Require Import Prelude Double.

Definition JD_NUMFMT_U8 : Z := 0.
Definition JD_NUMFMT_U16 : Z := 1.
Definition JD_NUMFMT_U32 : Z := 2.
Definition JD_NUMFMT_U64 : Z := 3.
Definition JD_NUMFMT_I8 : Z := 4.
Definition JD_NUMFMT_I16 : Z := 5.
Definition JD_NUMFMT_I32 : Z := 6.
Definition JD_NUMFMT_I64 : Z := 7.
Definition JD_NUMFMT_F32 : Z := 10.
Definition JD_NUMFMT_F64 : Z := 11.
Definition JD_NUMFMT_SPECIAL : Z := 12.
Definition INT_MAX : Z := 2 ^ 31 - 1.
Definition INT_MIN : Z := - 2 ^ 31.

Definition jd_numfmt_bytes (numfmt : Z) : Z := Z.shiftl 1 (Z.land numfmt 3).
Definition jd_numfmt_is_plain_int (numfmt : Z) : bool := Z.shiftr numfmt 3 =? 0.
Definition jd_numfmt_special_idx (fmt : Z) : Z :=
  if Z.land fmt JD_NUMFMT_SPECIAL =? JD_NUMFMT_SPECIAL then Z.lor (Z.shiftr fmt 4) (Z.shiftl (Z.land fmt 3) 4) else -1.

Definition jd_numfmt_is_valid (fmt0 : Z) : bool :=
  let fmt := Z.land fmt0 0xf in
  let shift := Z.shiftr fmt0 4 in
  if (fmt =? 8) || (fmt =? 9) || (Z.shiftr fmt 2 =? 3) then false
  else negb (shift >? jd_numfmt_bytes fmt0 * 8).

(** ** The bits of a float *)

(** A number with [p] bits of mantissa and [w] of exponent, as its bits; NaN is
    the quiet one. *)
Definition float_bits (p w : Z) (x : spec_float) : Z :=
  let bias := 2 ^ (w - 1) - 1 in
  let pack (s : bool) e m := (if s then 2 ^ (p - 1 + w) else 0) + e * 2 ^ (p - 1) + m in
  match x with
  | S754_zero s => pack s 0 0
  | S754_infinity s => pack s (2 ^ w - 1) 0
  | S754_nan => pack false (2 ^ w - 1) (2 ^ (p - 2))
  | S754_finite s m e =>
      if Zpos m <? 2 ^ (p - 1) then pack s 0 (Zpos m)
      else pack s (e + p - 1 + bias) (Zpos m - 2 ^ (p - 1))
  end.
Definition bits_float (p w b : Z) : spec_float :=
  let bias := 2 ^ (w - 1) - 1 in
  let s := 2 ^ (p - 1 + w) <=? b in
  let e := (b / 2 ^ (p - 1)) mod 2 ^ w in
  let m := b mod 2 ^ (p - 1) in
  if e =? 2 ^ w - 1 then (if m =? 0 then S754_infinity s else S754_nan)
  else
    let '(m, e) := if e =? 0 then (m, 1 - bias - (p - 1)) else (m + 2 ^ (p - 1), e - bias - (p - 1)) in
    match m with
    | Zpos m => S754_finite s m e
    | _ => S754_zero s
    end.

Definition f64_bytes (x : double) : list Z := le_bytes 8 (float_bits 53 11 x).
Definition bytes_f64 (b : list Z) : double := bits_float 53 11 (le_val b).

(** The conversions between [double] and [float]. *)
Definition to_f32 (x : double) : spec_float :=
  match x with
  | S754_finite s m e => binary_normalize 24 128 (if s then Zneg m else Zpos m) e s
  | _ => x
  end.
Definition of_f32 (x : spec_float) : double :=
  match x with
  | S754_finite s m e => binary_normalize 53 1024 (if s then Zneg m else Zpos m) e s
  | _ => x
  end.
Definition f32_bytes (x : double) : list Z := le_bytes 4 (float_bits 24 8 (to_f32 x)).
Definition bytes_f32 (b : list Z) : double := of_f32 (bits_float 24 8 (le_val b)).

(** ** Conversions *)

(** [t.exponent = EXP_OFFSET + shift], the other bits 0. *)
Definition jd_shift_multiplier (shift : Z) : double := bits_float 53 11 (((0x3ff + shift) mod 2 ^ 11) * 2 ^ 52).

Definition clamp_int (vv l h : Z) : Z := if vv <? l then l else if vv >? h then h else vv.
Definition clamp_double (vv l h : double) : double :=
  if d_lt vv l then l else if d_gt vv h then h else d_add vv d_half.

(** A signed field of [n] bytes. *)
Definition signed_val (n : nat) (b : list Z) : Z :=
  let v := le_val (take n b) in if v <? 2 ^ (8 * Z.of_nat n - 1) then v else v - 2 ^ (8 * Z.of_nat n).
Definition unsigned_val (n : nat) (b : list Z) : Z := le_val (take n b).

(** [SET_VAL_I] and [SET_VAL_DIRECT]: the bytes stored; [None] is [JD_PANIC]. *)
Definition write_plain (fmt q : Z) : option (list Z) :=
  if fmt =? JD_NUMFMT_U8 then Some (le_bytes 1 (clamp_int q 0 0xff))
  else if fmt =? JD_NUMFMT_U16 then Some (le_bytes 2 (clamp_int q 0 0xffff))
  else if fmt =? JD_NUMFMT_U32 then Some (le_bytes 4 (clamp_int q 0 INT_MAX))
  else if fmt =? JD_NUMFMT_U64 then Some (le_bytes 8 (clamp_int q 0 INT_MAX))
  else if fmt =? JD_NUMFMT_I8 then Some (le_bytes 1 (clamp_int q (-0x80) 0x7f))
  else if fmt =? JD_NUMFMT_I16 then Some (le_bytes 2 (clamp_int q (-0x8000) 0x7fff))
  else if fmt =? JD_NUMFMT_I32 then Some (le_bytes 4 q)
  else if fmt =? JD_NUMFMT_I64 then Some (le_bytes 8 q)
  else None.

(** [-0x8000000000000000] is an expression of type [unsigned long long]. *)
Definition i64_lower : double := d_of_Z (2 ^ 63).

(** [jd_numfmt_write_float], calling [write_i32] for the formats it leaves. *)
Definition write_float_with (write_i32 : list Z -> Z -> Z -> outcome (list Z)) (data : list Z) (fmt0 : Z) (q : double)
    : outcome (list Z) :=
  let fmt := Z.land fmt0 0xf in
  let shift := Z.shiftr fmt0 4 in
  let q := if negb (shift =? 0) then d_mul q (jd_shift_multiplier shift) else q in
  if fmt =? JD_NUMFMT_U32 then
    Ret (mwrite data 0 (le_bytes 4 (d_trunc (clamp_double q (d_of_Z 0) (d_of_Z 0xffffffff)))))
  else if fmt =? JD_NUMFMT_U64 then
    Ret (mwrite data 0 (le_bytes 8 (d_trunc (clamp_double q (d_of_Z 0) (d_of_Z (2 ^ 64 - 1))))))
  else if fmt =? JD_NUMFMT_I64 then
    Ret (mwrite data 0 (le_bytes 8 (d_trunc (clamp_double q i64_lower (d_of_Z (2 ^ 63 - 1))))))
  else if fmt =? JD_NUMFMT_F32 then Ret (mwrite data 0 (f32_bytes q))
  else if fmt =? JD_NUMFMT_F64 then Ret (mwrite data 0 (f64_bytes q))
  else write_i32 data fmt (s32 (d_trunc (clamp_double q (d_of_Z INT_MIN) (d_of_Z INT_MAX)))).

Fixpoint jd_numfmt_write_i32 (fuel : nat) (data : list Z) (fmt q : Z) : outcome (list Z) :=
  match fuel with
  | O => OutOfFuel
  | S fuel =>
      if negb (jd_numfmt_is_plain_int fmt) then write_float_with (jd_numfmt_write_i32 fuel) data fmt (d_of_Z q)
      else match write_plain fmt q with Some b => Ret (mwrite data 0 b) | None => Panic end
  end.

(** A call of each is enough for a valid format. *)
Definition NUMFMT_FUEL : nat := 3.
Definition jd_numfmt_write_float (data : list Z) (fmt0 : Z) (q : double) : outcome (list Z) :=
  write_float_with (jd_numfmt_write_i32 NUMFMT_FUEL) data fmt0 q.

(** [GET_VAL_INT], [GET_VAL_UINT] and [GET_VAL_DIRECT]. *)
Definition read_plain (data : list Z) (fmt : Z) : option Z :=
  if fmt =? JD_NUMFMT_U8 then Some (unsigned_val 1 data)
  else if fmt =? JD_NUMFMT_U16 then Some (unsigned_val 2 data)
  else if fmt =? JD_NUMFMT_U32 then Some (Z.min INT_MAX (unsigned_val 4 data))
  else if fmt =? JD_NUMFMT_U64 then Some (Z.min INT_MAX (unsigned_val 8 data))
  else if fmt =? JD_NUMFMT_I8 then Some (signed_val 1 data)
  else if fmt =? JD_NUMFMT_I16 then Some (signed_val 2 data)
  else if fmt =? JD_NUMFMT_I32 then Some (signed_val 4 data)
  else if fmt =? JD_NUMFMT_I64 then Some (clamp_int (signed_val 8 data) INT_MIN INT_MAX)
  else None.

Definition read_float_with (read_i32 : list Z -> Z -> outcome Z) (data : list Z) (fmt0 : Z) : outcome double :=
  let fmt := Z.land fmt0 0xf in
  let shift := Z.shiftr fmt0 4 in
  q ← (if fmt =? JD_NUMFMT_U32 then Ret (d_of_Z (unsigned_val 4 data))
       else if fmt =? JD_NUMFMT_U64 then Ret (d_of_Z (unsigned_val 8 data))
       else if fmt =? JD_NUMFMT_I64 then Ret (d_of_Z (signed_val 8 data))
       else if fmt =? JD_NUMFMT_F32 then Ret (bytes_f32 (take 4 data))
       else if fmt =? JD_NUMFMT_F64 then Ret (bytes_f64 (take 8 data))
       else v ← read_i32 data fmt; Ret (d_of_Z v));
  Ret (if negb (shift =? 0) then d_mul q (jd_shift_multiplier (- shift)) else q).

Fixpoint jd_numfmt_read_i32 (fuel : nat) (data : list Z) (fmt : Z) : outcome Z :=
  match fuel with
  | O => OutOfFuel
  | S fuel =>
      if negb (jd_numfmt_is_plain_int fmt) then
        q ← read_float_with (jd_numfmt_read_i32 fuel) data fmt;
        Ret (s32 (d_trunc (clamp_double q (d_of_Z INT_MIN) (d_of_Z INT_MAX))))
      else match read_plain data fmt with Some v => Ret v | None => Panic end
  end.
Definition jd_numfmt_read_float (data : list Z) (fmt0 : Z) : outcome double :=
  read_float_with (jd_numfmt_read_i32 NUMFMT_FUEL) data fmt0.


(** ** Round trips *)

Lemma take_mwrite0 data b n : length b = n -> take n (mwrite data 0 b) = b.
Proof. intros <-. unfold mwrite. cbn [Z.to_nat]. rewrite take_0. cbn [app]. by rewrite take_app_length. Qed.

Lemma unsigned_val_write data n v : 0 <= v < 2 ^ (8 * Z.of_nat n) -> unsigned_val n (mwrite data 0 (le_bytes n v)) = v.
Proof.
  intros Hv. unfold unsigned_val. rewrite take_mwrite0 by apply length_le_bytes. rewrite le_val_le_bytes. apply Z.mod_small.
  by replace (256 ^ Z.of_nat n) with (2 ^ (8 * Z.of_nat n)) by (rewrite Z.pow_mul_r by lia; done).
Qed.
Lemma signed_val_write data n v : (0 < n)%nat -> - 2 ^ (8 * Z.of_nat n - 1) <= v < 2 ^ (8 * Z.of_nat n - 1) ->
  signed_val n (mwrite data 0 (le_bytes n v)) = v.
Proof.
  intros Hn Hv. unfold signed_val. rewrite take_mwrite0 by apply length_le_bytes. rewrite le_val_le_bytes.
  replace (256 ^ Z.of_nat n) with (2 ^ (8 * Z.of_nat n)) by (rewrite Z.pow_mul_r by lia; done).
  assert (2 ^ (8 * Z.of_nat n) = 2 * 2 ^ (8 * Z.of_nat n - 1)) as E by (rewrite <- Z.pow_succ_r by lia; f_equal; lia).
  set (h := 2 ^ (8 * Z.of_nat n - 1)) in *. rewrite E. destruct (Z.lt_ge_cases v 0).
  - assert (v mod (2 * h) = v + 2 * h) as -> by (symmetry; apply (Z.mod_unique _ _ (-1)); lia).
    destruct (Z.ltb_spec (v + 2 * h) h); lia.
  - rewrite Z.mod_small by lia. destruct (Z.ltb_spec v h); lia.
Qed.

(** The least and the greatest number that a plain format keeps of those the
    function writes. *)
Definition fmt_least (fmt : Z) : Z := if fmt <? 4 then 0 else if fmt =? 4 then -0x80 else if fmt =? 5 then -0x8000 else INT_MIN.
Definition fmt_greatest (fmt : Z) : Z :=
  if fmt =? 0 then 0xff else if fmt =? 1 then 0xffff else if fmt =? 4 then 0x7f else if fmt =? 5 then 0x7fff else INT_MAX.

Lemma clamp_int_range v l h : l <= h -> l <= clamp_int v l h <= h.
Proof. intros Hlh. unfold clamp_int. rewrite Z.gtb_ltb. destruct (Z.ltb_spec v l); [lia|]. destruct (Z.ltb_spec h v); lia. Qed.
Lemma clamp_int_id v l h : l <= v <= h -> clamp_int v l h = v.
Proof. intros Hv. unfold clamp_int. rewrite Z.gtb_ltb. destruct (Z.ltb_spec v l); [lia|]. destruct (Z.ltb_spec h v); lia. Qed.

Lemma plain_roundtrip data fmt q : 0 <= fmt < 8 -> INT_MIN <= q <= INT_MAX ->
  exists b, write_plain fmt q = Some b /\ zlen b = jd_numfmt_bytes fmt /\
    read_plain (mwrite data 0 b) fmt = Some (clamp_int q (fmt_least fmt) (fmt_greatest fmt)).
Proof.
  intros Hf Hq. unfold INT_MIN, INT_MAX in Hq.
  assert (fmt = 0 \/ fmt = 1 \/ fmt = 2 \/ fmt = 3 \/ fmt = 4 \/ fmt = 5 \/ fmt = 6 \/ fmt = 7) as Hc by lia.
  destruct Hc as [->|[->|[->|[->|[->|[->|[->| ->]]]]]]]; eexists; (split; [reflexivity|]); (split; [reflexivity|]);
    unfold read_plain; cbn [Z.eqb Pos.eqb JD_NUMFMT_U8 JD_NUMFMT_U16 JD_NUMFMT_U32 JD_NUMFMT_U64 JD_NUMFMT_I8 JD_NUMFMT_I16 JD_NUMFMT_I32 JD_NUMFMT_I64];
    unfold fmt_least, fmt_greatest; cbn [Z.ltb Z.eqb Z.compare Pos.eqb Pos.compare Pos.compare_cont]; f_equal.
  - apply unsigned_val_write. pose proof (clamp_int_range q 0 0xff ltac:(lia)). simpl. lia.
  - apply unsigned_val_write. pose proof (clamp_int_range q 0 0xffff ltac:(lia)). simpl. lia.
  - pose proof (clamp_int_range q 0 INT_MAX ltac:(done)). rewrite unsigned_val_write by (unfold INT_MAX in *; simpl in *; lia).
    lia.
  - pose proof (clamp_int_range q 0 INT_MAX ltac:(done)). rewrite unsigned_val_write by (unfold INT_MAX in *; simpl in *; lia).
    lia.
  - apply signed_val_write; [lia|]. pose proof (clamp_int_range q (-0x80) 0x7f ltac:(lia)). simpl. lia.
  - apply signed_val_write; [lia|]. pose proof (clamp_int_range q (-0x8000) 0x7fff ltac:(lia)). simpl. lia.
  - rewrite signed_val_write by (simpl; lia). symmetry. apply clamp_int_id. done.
  - rewrite signed_val_write by (simpl; lia). done.
Qed.

(** *** The bits of a double *)

Lemma digits2_pos_spec m : 2 ^ (Zpos (digits2_pos m) - 1) <= Zpos m < 2 ^ Zpos (digits2_pos m).
Proof.
  induction m as [m IH|m IH|]; cbn [digits2_pos]; [| |done]; rewrite Pos2Z.inj_succ;
    (assert (2 ^ Z.succ (Zpos (digits2_pos m)) = 2 * 2 ^ Zpos (digits2_pos m)) as E1 by (apply Z.pow_succ_r; lia));
    (assert (2 ^ (Z.succ (Zpos (digits2_pos m)) - 1) = 2 * 2 ^ (Zpos (digits2_pos m) - 1)) as E2
      by (rewrite <- Z.pow_succ_r by lia; f_equal; lia)); lia.
Qed.

(** What a canonical double looks like. *)
Lemma valid_double s m e : valid_binary 53 1024 (S754_finite s m e) = true ->
  0 < Zpos m < 2 ^ 53 /\ -1074 <= e <= 971 /\ (Zpos m < 2 ^ 52 -> e = -1074).
Proof.
  cbn [valid_binary]. unfold bounded, canonical_mantissa, fexp, emin. rewrite andb_true_iff, Z.eqb_eq, Z.leb_le. intros [Hc He].
  pose proof (digits2_pos_spec m) as Hd. set (d := Zpos (digits2_pos m)) in *.
  assert (d <= 53) as Hd53 by lia. assert (2 ^ d <= 2 ^ 53) by (apply Z.pow_le_mono_r; lia).
  split; [lia|]. split; [lia|]. intros Hm. destruct (Z.le_gt_cases 53 d); [|lia].
  assert (2 ^ 52 <= 2 ^ (d - 1)) by (apply Z.pow_le_mono_r; lia). lia.
Qed.

Lemma bits_pack (s : bool) e m : 0 <= e < 2 ^ 11 -> 0 <= m < 2 ^ 52 ->
  let b := (if s then 2 ^ 63 else 0) + e * 2 ^ 52 + m in
  0 <= b < 2 ^ 64 /\ (2 ^ 63 <=? b) = s /\ (b / 2 ^ 52) mod 2 ^ 11 = e /\ b mod 2 ^ 52 = m.
Proof.
  intros He Hm b. assert (b = (e + (if s then 2 ^ 11 else 0)) * 2 ^ 52 + m) as Hb by (subst b; destruct s; lia).
  split; [subst b; destruct s; lia|]. split; [subst b; destruct s; [apply Z.leb_le|apply Z.leb_gt]; lia|].
  assert (b / 2 ^ 52 = e + (if s then 2 ^ 11 else 0)) as -> by (rewrite Hb, Z.div_add_l by lia; rewrite Z.div_small by lia; lia).
  split; [destruct s; [rewrite <- Z.add_mod_idemp_r by lia; rewrite Z.mod_same, Z.add_0_r by lia|rewrite Z.add_0_r]; by apply Z.mod_small|].
  rewrite Hb. rewrite Z.add_comm, Z.mod_add by lia. by apply Z.mod_small.
Qed.

Lemma f64_roundtrip x : valid_binary 53 1024 x = true -> bytes_f64 (f64_bytes x) = x.
Proof.
  intros Hv. unfold bytes_f64, f64_bytes. rewrite le_val_le_bytes. change (256 ^ Z.of_nat 8) with (2 ^ 64).
  destruct x as [s|s| |s m e]; try (destruct s; reflexivity); [reflexivity|].
  destruct (valid_double s m e Hv) as (Hm & He & Hsub). unfold float_bits. change (53 - 1 + 11) with 63. change (53 - 1) with 52.
  change (2 ^ (11 - 1) - 1) with 1023. destruct (Z.ltb_spec (Zpos m) (2 ^ 52)) as [Hlt|Hge].
  - destruct (bits_pack s 0 (Zpos m) ltac:(lia) ltac:(lia)) as (B1 & B2 & B3 & B4). set (b := _ + Zpos m) in *.
    rewrite (Z.mod_small b) by lia. unfold bits_float. change (53 - 1 + 11) with 63. change (53 - 1) with 52. rewrite B2, B3, B4.
    change (0 =? 2 ^ 11 - 1) with false. change (0 =? 0) with true. cbv iota. rewrite Hsub by lia. reflexivity.
  - destruct (bits_pack s (e + 52 + 1023) (Zpos m - 2 ^ 52) ltac:(lia) ltac:(lia)) as (B1 & B2 & B3 & B4).
    replace (e + 53 - 1 + 1023) with (e + 52 + 1023) by lia. set (b := _ + (Zpos m - 2 ^ 52)) in *.
    rewrite (Z.mod_small b) by lia. unfold bits_float. change (53 - 1 + 11) with 63. change (53 - 1) with 52. rewrite B2, B3, B4.
    rewrite (proj2 (Z.eqb_neq _ (2 ^ 11 - 1))) by lia. rewrite (proj2 (Z.eqb_neq _ 0)) by lia. change (2 ^ (11 - 1) - 1) with 1023.
    replace (Zpos m - 2 ^ 52 + 2 ^ 52) with (Zpos m) by lia. f_equal. lia.
Qed.

(** C34. What is written is what is read: an integer written in any of the
    eight plain formats is read back cut to the range of the format (to what
    fits an [int32_t], for the unsigned ones of 32 and 64 bits), a double
    written as [F64] is read back as it was, and both touch only the bytes of
    the format. *)
Theorem numfmt_roundtrip data :
  8 <= zlen data ->
  (forall fmt q, 0 <= fmt < 8 -> INT_MIN <= q <= INT_MAX -> exists data',
    jd_numfmt_write_i32 NUMFMT_FUEL data fmt q = Ret data' /\
    jd_numfmt_read_i32 NUMFMT_FUEL data' fmt = Ret (clamp_int q (fmt_least fmt) (fmt_greatest fmt)) /\
    zlen data' = zlen data /\ drop (Z.to_nat (jd_numfmt_bytes fmt)) data' = drop (Z.to_nat (jd_numfmt_bytes fmt)) data) /\
  (forall x, valid_binary 53 1024 x = true -> exists data',
    jd_numfmt_write_float data JD_NUMFMT_F64 x = Ret data' /\ jd_numfmt_read_float data' JD_NUMFMT_F64 = Ret x /\
    zlen data' = zlen data /\ drop 8 data' = drop 8 data).
Proof.
  intros Hl. assert (forall b, zlen b <= 8 -> zlen (mwrite data 0 b) = zlen data /\ drop (length b) (mwrite data 0 b) = drop (length b) data) as Hw.
  { intros b Hb. unfold zlen in *. split; [rewrite length_mwrite; simpl; lia|]. unfold mwrite. cbn [Z.to_nat]. rewrite take_0. cbn [app].
    by rewrite drop_app_length. }
  split.
  - intros fmt q Hf Hq. destruct (plain_roundtrip data fmt q Hf Hq) as (b & E1 & E2 & E3). exists (mwrite data 0 b).
    assert (jd_numfmt_is_plain_int fmt = true) as Hp by (unfold jd_numfmt_is_plain_int; rewrite Z.shiftr_div_pow2, Z.div_small by lia; done).
    cbn [jd_numfmt_write_i32 jd_numfmt_read_i32 NUMFMT_FUEL]. rewrite Hp, E1, E3. cbn [negb]. split; [done|]. split; [done|].
    rewrite <- E2. unfold zlen at 3 4. rewrite Nat2Z.id. apply Hw. rewrite E2. unfold jd_numfmt_bytes. change 3 with (Z.ones 2). rewrite Z.land_ones by lia.
    pose proof (Z.mod_pos_bound fmt (2 ^ 2) ltac:(lia)). rewrite Z.shiftl_mul_pow2 by lia. assert (2 ^ (fmt mod 2 ^ 2) <= 2 ^ 3) by (apply Z.pow_le_mono_r; lia). lia.
  - intros x Hx. exists (mwrite data 0 (f64_bytes x)). destruct (Hw (f64_bytes x)) as [W1 W2]; [unfold f64_bytes; rewrite zlen_le_bytes; lia|].
    split; [reflexivity|]. split; [|split; [done|exact W2]].
    unfold jd_numfmt_read_float, read_float_with. change (Z.land JD_NUMFMT_F64 0xf) with 11. change (Z.shiftr JD_NUMFMT_F64 4) with 0.
    cbn [Z.eqb Pos.eqb JD_NUMFMT_U32 JD_NUMFMT_U64 JD_NUMFMT_I64 JD_NUMFMT_F32 JD_NUMFMT_F64 negb]. obind.
    rewrite take_mwrite0 by (unfold f64_bytes; apply length_le_bytes). by rewrite f64_roundtrip.
Qed.

Lemma numfmt_roundtrip_witness :
  exists data', jd_numfmt_write_i32 NUMFMT_FUEL (replicate 9 7) JD_NUMFMT_I16 100000 = Ret data' /\
    jd_numfmt_read_i32 NUMFMT_FUEL data' JD_NUMFMT_I16 = Ret 32767.
Proof.
  destruct (numfmt_roundtrip (replicate 9 7)) as [Hi _]; [vm_compute; discriminate|].
  destruct (Hi JD_NUMFMT_I16 100000) as (data' & E1 & E2 & _); [split; vm_compute; congruence|split; vm_compute; discriminate|].
  exists data'. split; [exact E1|]. exact E2.
Defined.

(** *** What else the code does *)

Definition written_then_read (fmt q : Z) : outcome Z :=
  data ← jd_numfmt_write_i32 NUMFMT_FUEL (replicate 8 0) fmt q; jd_numfmt_read_i32 NUMFMT_FUEL data fmt.

(** Adding one half and truncating rounds negative numbers towards zero: -3 as a
    double, as a float, and as a fixed-point number. *)
Lemma negative_numbers_misrounded :
  written_then_read JD_NUMFMT_F64 (-3) = Ret (-2) /\ written_then_read JD_NUMFMT_F32 (-3) = Ret (-2) /\
  written_then_read (JD_NUMFMT_I32 + 16 * 4) (-3) = Ret (-2) /\ written_then_read JD_NUMFMT_F64 3 = Ret 3.
Proof. vm_compute. repeat split. Qed.

(** The lower bound of [I64] is positive, so every number below 2^63 is replaced
    by it. *)
Lemma i64_clamped_to_lower_bound q h : d_lt q i64_lower = true -> clamp_double q i64_lower h = i64_lower.
Proof. unfold clamp_double. by intros ->. Qed.
Lemma i64_floats_are_lost :
  jd_numfmt_write_float (replicate 8 0) JD_NUMFMT_I64 (d_of_Z 5) = jd_numfmt_write_float (replicate 8 0) JD_NUMFMT_I64 (d_of_Z 7) /\
  written_then_read (JD_NUMFMT_I64 + 16) 5 = Ret (-2147483648).
Proof. vm_compute. split; reflexivity. Qed.

(** The two write functions call each other without end for the formats that
    [jd_numfmt_is_valid] refuses. *)
Lemma invalid_formats_recurse fuel data q : jd_numfmt_write_i32 fuel data 8 q = OutOfFuel /\ jd_numfmt_is_valid 8 = false.
Proof. split; [|reflexivity]. revert q. induction fuel as [|fuel IH]; intros q; [done|]. cbn [jd_numfmt_write_i32]. apply IH. Qed.
