(* ===== verification/Power.v ===== *)
(** * The power service ([services/power.c])

    A power supply for the wire: it switches a current limiter on and off,
    switches off for two seconds when the limiter reports a fault, gives way to
    other supplies that announce themselves with shutdown frames, and keeps a
    battery pack awake with pulses of current. Compiled with [JD_RAW_FRAME] and
    [JD_DCFG]. The levels of the pins that are read and the state of the raw
    frame are arguments, what is written to pins is a trace. *)
From Stdlib Require Import String.
From S2P Require Import Prelude Frame Util Iface Registers Dcfg Srvcfg Status.

Definition OVERLOAD_MS : Z := 2000.
Definition MS (v : Z) : Z := Z.shiftl v 10.

(** The generated header of the service. Documented: the four states are
    different bytes, "disallowed" being 0, the status is a read-only register and the others are read-write ones. *)
Class PowerSpec := {
  JD_POWER_REG_ALLOWED : Z;
  JD_POWER_REG_POWER_STATUS : Z;
  JD_POWER_REG_MAX_POWER : Z;
  JD_POWER_REG_KEEP_ON_PULSE_DURATION : Z;
  JD_POWER_REG_KEEP_ON_PULSE_PERIOD : Z;
  JD_POWER_CMD_SHUTDOWN : Z;
  JD_POWER_EV_POWER_STATUS_CHANGED : Z;
  JD_POWER_POWER_STATUS_DISALLOWED : Z;
  JD_POWER_POWER_STATUS_POWERING : Z;
  JD_POWER_POWER_STATUS_OVERLOAD : Z;
  JD_POWER_POWER_STATUS_OVERPROVISION : Z;
  power_states_differ : NoDup [JD_POWER_POWER_STATUS_DISALLOWED; JD_POWER_POWER_STATUS_POWERING;
                               JD_POWER_POWER_STATUS_OVERLOAD; JD_POWER_POWER_STATUS_OVERPROVISION];
  power_states_bytes : Forall is_byte [JD_POWER_POWER_STATUS_DISALLOWED; JD_POWER_POWER_STATUS_POWERING;
                                       JD_POWER_POWER_STATUS_OVERLOAD; JD_POWER_POWER_STATUS_OVERPROVISION];
  power_disallowed_zero : JD_POWER_POWER_STATUS_DISALLOWED = 0;
  power_rw_codes : Forall (fun r => 0 < r < 0x100)
    [JD_POWER_REG_ALLOWED; JD_POWER_REG_MAX_POWER; JD_POWER_REG_KEEP_ON_PULSE_DURATION; JD_POWER_REG_KEEP_ON_PULSE_PERIOD];
  power_ro_code : 0x100 <= JD_POWER_REG_POWER_STATUS < 0x200;
  power_codes_differ : NoDup [JD_POWER_REG_ALLOWED; JD_POWER_REG_MAX_POWER; JD_POWER_REG_KEEP_ON_PULSE_DURATION; JD_POWER_REG_KEEP_ON_PULSE_PERIOD];
}.

Inductive power_event :=
  | PwPin (pin v : Z)             (* pin_set *)
  | PwOutput (pin : Z)            (* pin_setup_output *)
  | PwInput (pin pull : Z)        (* pin_setup_input *)
  | PwAnalogInput (pin : Z)
  | PwWait (us : Z)               (* target_wait_us *)
  | PwGlow (g : Z)                (* jd_glow *)
  | PwMaxSleep (us : Z)           (* jd_set_max_sleep *)
  | PwShutdown.                   (* the raw shutdown frame is handed over *)

Record power_cfg := { pin_fault : Z; pin_en : Z; pin_pulse : Z; en_active_high : Z; fault_ignore_ms : Z }.

(** [struct srv_state]: the registers, the rest, and the timers. *)
Record power_regs_t := { allowed : Z; power_status : Z; max_power : Z; pulse_duration : Z; pulse_period : Z }.
Record power := {
  pw_common : list Z;
  pw_regs : power_regs_t;
  pw_cfg : power_cfg;
  prev_power_status : Z;
  hw_watchdog_pulse_status : bool;
  led_pulse_pin : Z;
  det_pin : Z;
  next_shutdown : Z;
  last_pulse : Z;
  next_leds : Z;
  power_switch_time : Z;
  power_on_complete : Z;
  re_enable : Z;
  hw_watchdog_pulse : Z;
  led_pulse_on : Z;
  led_pulse_off : Z;
  pw_seed : Z;                    (* of [jd_random] *)
  pw_trace : list power_event;
}.

(** Updates of one field each. *)
Definition pw_with_regs (s : power) (r : power_regs_t) : power :=
  {| pw_common := pw_common s; pw_regs := r; pw_cfg := pw_cfg s; prev_power_status := prev_power_status s;
     hw_watchdog_pulse_status := hw_watchdog_pulse_status s; led_pulse_pin := led_pulse_pin s; det_pin := det_pin s;
     next_shutdown := next_shutdown s; last_pulse := last_pulse s; next_leds := next_leds s; power_switch_time := power_switch_time s;
     power_on_complete := power_on_complete s; re_enable := re_enable s; hw_watchdog_pulse := hw_watchdog_pulse s;
     led_pulse_on := led_pulse_on s; led_pulse_off := led_pulse_off s; pw_seed := pw_seed s; pw_trace := pw_trace s |}.
Definition pw_with_watch (s : power) (b : bool) (t : Z) : power :=
  {| pw_common := pw_common s; pw_regs := pw_regs s; pw_cfg := pw_cfg s; prev_power_status := prev_power_status s;
     hw_watchdog_pulse_status := b; led_pulse_pin := led_pulse_pin s; det_pin := det_pin s;
     next_shutdown := next_shutdown s; last_pulse := last_pulse s; next_leds := next_leds s; power_switch_time := power_switch_time s;
     power_on_complete := power_on_complete s; re_enable := re_enable s; hw_watchdog_pulse := t;
     led_pulse_on := led_pulse_on s; led_pulse_off := led_pulse_off s; pw_seed := pw_seed s; pw_trace := pw_trace s |}.
Definition pw_with_prev (s : power) (v : Z) : power :=
  {| pw_common := pw_common s; pw_regs := pw_regs s; pw_cfg := pw_cfg s; prev_power_status := v;
     hw_watchdog_pulse_status := hw_watchdog_pulse_status s; led_pulse_pin := led_pulse_pin s; det_pin := det_pin s;
     next_shutdown := next_shutdown s; last_pulse := last_pulse s; next_leds := next_leds s; power_switch_time := power_switch_time s;
     power_on_complete := power_on_complete s; re_enable := re_enable s; hw_watchdog_pulse := hw_watchdog_pulse s;
     led_pulse_on := led_pulse_on s; led_pulse_off := led_pulse_off s; pw_seed := pw_seed s; pw_trace := pw_trace s |}.
Definition pw_with_pins (s : power) (led det : Z) : power :=
  {| pw_common := pw_common s; pw_regs := pw_regs s; pw_cfg := pw_cfg s; prev_power_status := prev_power_status s;
     hw_watchdog_pulse_status := hw_watchdog_pulse_status s; led_pulse_pin := led; det_pin := det;
     next_shutdown := next_shutdown s; last_pulse := last_pulse s; next_leds := next_leds s; power_switch_time := power_switch_time s;
     power_on_complete := power_on_complete s; re_enable := re_enable s; hw_watchdog_pulse := hw_watchdog_pulse s;
     led_pulse_on := led_pulse_on s; led_pulse_off := led_pulse_off s; pw_seed := pw_seed s; pw_trace := pw_trace s |}.
Definition pw_with_led (s : power) (leds on off : Z) : power :=
  {| pw_common := pw_common s; pw_regs := pw_regs s; pw_cfg := pw_cfg s; prev_power_status := prev_power_status s;
     hw_watchdog_pulse_status := hw_watchdog_pulse_status s; led_pulse_pin := led_pulse_pin s; det_pin := det_pin s;
     next_shutdown := next_shutdown s; last_pulse := last_pulse s; next_leds := leds; power_switch_time := power_switch_time s;
     power_on_complete := power_on_complete s; re_enable := re_enable s; hw_watchdog_pulse := hw_watchdog_pulse s;
     led_pulse_on := on; led_pulse_off := off; pw_seed := pw_seed s; pw_trace := pw_trace s |}.
(** The timers of the state machine, with the seed. *)
Definition pw_with_times (s : power) (shutdown switch complete enable seed : Z) : power :=
  {| pw_common := pw_common s; pw_regs := pw_regs s; pw_cfg := pw_cfg s; prev_power_status := prev_power_status s;
     hw_watchdog_pulse_status := hw_watchdog_pulse_status s; led_pulse_pin := led_pulse_pin s; det_pin := det_pin s;
     next_shutdown := shutdown; last_pulse := last_pulse s; next_leds := next_leds s; power_switch_time := switch;
     power_on_complete := complete; re_enable := enable; hw_watchdog_pulse := hw_watchdog_pulse s;
     led_pulse_on := led_pulse_on s; led_pulse_off := led_pulse_off s; pw_seed := seed; pw_trace := pw_trace s |}.
Definition pw_with_pulse (s : power) (t : Z) : power :=
  {| pw_common := pw_common s; pw_regs := pw_regs s; pw_cfg := pw_cfg s; prev_power_status := prev_power_status s;
     hw_watchdog_pulse_status := hw_watchdog_pulse_status s; led_pulse_pin := led_pulse_pin s; det_pin := det_pin s;
     next_shutdown := next_shutdown s; last_pulse := t; next_leds := next_leds s; power_switch_time := power_switch_time s;
     power_on_complete := power_on_complete s; re_enable := re_enable s; hw_watchdog_pulse := hw_watchdog_pulse s;
     led_pulse_on := led_pulse_on s; led_pulse_off := led_pulse_off s; pw_seed := pw_seed s; pw_trace := pw_trace s |}.
Definition pw_emit (s : power) (es : list power_event) : power :=
  {| pw_common := pw_common s; pw_regs := pw_regs s; pw_cfg := pw_cfg s; prev_power_status := prev_power_status s;
     hw_watchdog_pulse_status := hw_watchdog_pulse_status s; led_pulse_pin := led_pulse_pin s; det_pin := det_pin s;
     next_shutdown := next_shutdown s; last_pulse := last_pulse s; next_leds := next_leds s; power_switch_time := power_switch_time s;
     power_on_complete := power_on_complete s; re_enable := re_enable s; hw_watchdog_pulse := hw_watchdog_pulse s;
     led_pulse_on := led_pulse_on s; led_pulse_off := led_pulse_off s; pw_seed := pw_seed s; pw_trace := pw_trace s ++ es |}.

Definition status (s : power) : Z := power_status (pw_regs s).
Definition set_status (s : power) (v : Z) : power :=
  let r := pw_regs s in
  pw_with_regs s {| allowed := allowed r; power_status := v; max_power := max_power r; pulse_duration := pulse_duration r;
                    pulse_period := pulse_period r |}.
Definition set_pulse (r : power_regs_t) (duration period : Z) : power_regs_t :=
  {| allowed := allowed r; power_status := power_status r; max_power := max_power r; pulse_duration := duration; pulse_period := period |}.
Definition set_re_enable (s : power) (v seed : Z) : power :=
  pw_with_times s (next_shutdown s) (power_switch_time s) (power_on_complete s) v seed.
Definition set_complete (s : power) (v : Z) : power :=
  pw_with_times s (next_shutdown s) (power_switch_time s) v (re_enable s) (pw_seed s).
Definition set_next_shutdown (s : power) (v seed : Z) : power :=
  pw_with_times s v (power_switch_time s) (power_on_complete s) (re_enable s) seed.

Section Power.
Context `{JdSpec} `{PowerSpec} {T : Type} `{Sender T} `{EventSender T}.

#[local] Abbreviation DISALLOWED := JD_POWER_POWER_STATUS_DISALLOWED.
#[local] Abbreviation POWERING := JD_POWER_POWER_STATUS_POWERING.
#[local] Abbreviation OVERLOAD := JD_POWER_POWER_STATUS_OVERLOAD.
#[local] Abbreviation OVERPROVISION := JD_POWER_POWER_STATUS_OVERPROVISION.

Definition power_regs : list Z :=
  REG_SRV_COMMON ++
  [JD_REG_ 1 JD_POWER_REG_ALLOWED; JD_REG_ 1 JD_POWER_REG_POWER_STATUS; JD_REG_ 3 JD_POWER_REG_MAX_POWER;
   JD_REG_ 3 JD_POWER_REG_KEEP_ON_PULSE_DURATION; JD_REG_ 5 JD_POWER_REG_KEEP_ON_PULSE_PERIOD; JD_REG_END].

Definition HW_WATCHDOG (s : power) : bool := en_active_high (pw_cfg s) =? 3.

Definition set_limiter (s : power) : power :=
  let cfg := pw_cfg s in
  let onoff := status s =? POWERING in
  if HW_WATCHDOG s then s
  else if en_active_high cfg =? 2 then
    if onoff then pw_emit s [PwPin (pin_en cfg) 0; PwPin (pin_fault cfg) 1; PwOutput (pin_fault cfg); PwWait 1000; PwInput (pin_fault cfg) 1]
    else pw_emit s [PwPin (pin_en cfg) 1]
  else pw_emit s [PwPin (pin_en cfg) (zbool (if negb (en_active_high cfg =? 0) then onoff else negb onoff))].

(** [JD_GLOW(VERY_SLOW_LOW, CH_0, MAGENTA)] or off. *)
Definition glows (st : Z) : Z := if st =? OVERLOAD then JD_GLOW 5 0 5 else 0.
Definition set_leds (s : power) : power := pw_emit s [PwGlow (glows (status s))].

Definition send_shutdown (s : power) : power := pw_emit s [PwShutdown].

(** ** Turns

    [power_process] in its parts, in order; [pin] gives the levels of the
    inputs. *)

Definition check_power (pin : Z -> Z) (s : power) : power :=
  let s := pw_emit s [PwInput (det_pin s) 0] in
  if pin (det_pin s) =? 0 then (if status s =? POWERING then set_status s DISALLOWED else s)
  else if negb (allowed (pw_regs s) =? 0) && (status s =? DISALLOWED) then set_status s POWERING
  else s.

Definition pulse_led (now : Z) (s : power) : power :=
  let '(due, on) := jd_should_sample now (led_pulse_on s) (Z.shiftl 2 20) in
  let s := pw_with_led s (next_leds s) on (if due then u32 (now + Z.shiftl 50 10) else led_pulse_off s) in
  let s := if due && (status s =? POWERING) then pw_emit s [PwPin (led_pulse_pin s) 0; PwOutput (led_pulse_pin s)] else s in
  if in_past now (led_pulse_off s) then
    pw_with_led (pw_emit s [PwAnalogInput (led_pulse_pin s)]) (next_leds s) (led_pulse_on s) (u32 (now + Z.shiftl 50 20))
  else s.

Definition watchdog_pulse (now : Z) (s : power) : power :=
  if HW_WATCHDOG s then
    let '(due, t) := jd_should_sample now (hw_watchdog_pulse s) 9500 in
    let s := pw_with_watch s (hw_watchdog_pulse_status s) t in
    if due then
      if (status s =? OVERLOAD) || (status s =? POWERING) then
        pw_with_watch (pw_emit s [PwPin (pin_en (pw_cfg s)) (zbool (hw_watchdog_pulse_status s))]) (negb (hw_watchdog_pulse_status s)) t
      else pw_emit s [PwPin (pin_en (pw_cfg s)) 0]
    else s
  else s.

Definition update_leds (now : Z) (s : power) : power :=
  let '(due, t) := jd_should_sample now (next_leds s) (256 * 1024) in
  let s := pw_with_led s t (led_pulse_on s) (led_pulse_off s) in
  if due then set_leds s else s.

Definition keep_on (now : Z) (s : power) : power :=
  let r := pw_regs s in
  if negb (pulse_period r =? 0) && negb (pulse_duration r =? 0) then
    let delta := u32 (now - last_pulse s) in
    let '(delta, s) := if delta >? u32 (pulse_period r * 1000) then (0, pw_with_pulse s now) else (delta, s) in
    pw_emit s [PwPin (pin_pulse (pw_cfg s)) (zbool (delta <? pulse_duration r * 1000))]
  else s.

(** The state machine of the limiter; the result is false where the function
    returns because the limiter is still ramping up. *)
Definition switch_limiter (now : Z) (pin : Z -> Z) (s : power) : bool * power :=
  if status s =? POWERING then
    if prev_power_status s =? POWERING then
      if pin (pin_fault (pw_cfg s)) =? 0 then
        let s := set_status s OVERLOAD in
        let '(r, seed) := jd_random_around (pw_seed s) (OVERLOAD_MS * 1000) in
        (true, set_limiter (set_re_enable s (u32 (now + r)) seed))
      else (true, s)
    else if power_on_complete s =? 0 then
      let s := set_limiter s in
      let ign := fault_ignore_ms (pw_cfg s) in
      let t := u32 (now + MS (if negb (ign =? 0) then ign else 16)) in
      (false, set_complete s (if t =? 0 then 1 else t))
    else if in_future now (power_on_complete s) then (false, s)
    else (true, s)
  else (true, if negb (prev_power_status s =? status s) then set_limiter s else s).

(** What follows once the limiter is settled. *)
Definition announce_status (s : power) (tx : T) : outcome (power * T) :=
  if negb (prev_power_status s =? status s) then
    let s := pw_with_prev s (status s) in
    tx ← send_event tx (get8 (pw_common s) 4) JD_POWER_EV_POWER_STATUS_CHANGED (le_bytes 1 (status s));
    Ret (s, tx)
  else Ret (s, tx).

Definition shutdown_others (now : Z) (s : power) : bool * power :=
  if in_past now (next_shutdown s) then
    let '(r, seed) := jd_random_around (pw_seed s) (MS 512) in
    let s := set_next_shutdown s (u32 (now + r)) seed in
    (true, if (status s =? OVERLOAD) || (status s =? POWERING) then send_shutdown s else s)
  else (false, s).

Definition power_again (now : Z) (s : power) : power :=
  if allowed (pw_regs s) =? 0 then s
  else if (negb (status s =? POWERING) && in_past now (re_enable s))
          || ((status s =? OVERPROVISION) && in_past now (power_switch_time s)) then
    let s := set_re_enable s (u32 (now + MS (128 * 1024))) (pw_seed s) in
    set_next_shutdown (set_status s POWERING) now (pw_seed s)
  else s.

(** The part before the state machine, and the rest of the turn. *)
Definition power_prepare (now : Z) (pin : Z -> Z) (s : power) : power :=
  let s := if en_active_high (pw_cfg s) <? 2 then pw_emit s [PwMaxSleep 1000] else s in
  let s := check_power pin s in
  let s := pulse_led now s in
  let s := watchdog_pulse now s in
  let s := update_leds now s in
  let s := keep_on now s in
  if HW_WATCHDOG s && (status s =? OVERLOAD) && negb (pin (pin_fault (pw_cfg s)) =? 0) then set_status s POWERING else s.

Definition power_settle (now : Z) (pin : Z -> Z) (s : power) (tx : T) : outcome (power * T) :=
  let '(settled, s) := switch_limiter now pin s in
  if negb settled then Ret (s, tx)
  else
    let s := set_complete s 0 in
    '(s, tx) ← announce_status s tx;
    let '(done, s) := shutdown_others now s in
    if done : bool then Ret (s, tx) else Ret (power_again now s, tx).

Definition power_process (now : Z) (pin : Z -> Z) (s : power) (tx : T) : outcome (power * T) :=
  power_settle now pin (power_prepare now pin s) tx.

(** ** Packets *)

Definition power_encode (s : power) : list Z :=
  let r := pw_regs s in
  pw_common s ++ [allowed r; power_status r] ++ le_bytes 2 (max_power r) ++ le_bytes 2 (pulse_duration r) ++ le_bytes 4 (pulse_period r).
Definition power_decode (b : list Z) : power_regs_t :=
  {| allowed := get8 b 6; power_status := get8 b 7; max_power := get16 b 8; pulse_duration := get16 b 10; pulse_period := get32 b 12 |}.

(** What follows a write of one of the pulse registers. *)
Definition limit_pulse (r : power_regs_t) : power_regs_t :=
  if negb (pulse_period r =? 0) && negb (pulse_duration r =? 0) then
    let d := if pulse_duration r >? 1000 then 1000 else pulse_duration r in
    set_pulse r d (if pulse_period r <? d * 10 then d * 10 else pulse_period r)
  else r.

(** [pending] is [shutdown_pending()]. *)
Definition overprovision (now : Z) (pending : bool) (s : power) : power :=
  if ((status s =? POWERING) || (status s =? OVERLOAD)) && negb pending && (power_on_complete s =? 0) then
    let '(r, seed) := jd_random_around (pw_seed s) (MS (8 * 1024)) in
    let s := set_status s OVERPROVISION in
    pw_with_times s (next_shutdown s) (u32 (now + r)) (power_on_complete s) (re_enable s) seed
  else s.
Definition handle_shutdown (now : Z) (pending : bool) (pkt : list Z) (s : power) : power :=
  if has_flag (f_flags pkt) JD_FRAME_FLAG_LOOPBACK then s
  else
    let s := overprovision now pending s in
    let '(r, seed) := jd_random_around (pw_seed s) (MS 256) in
    set_re_enable s (u32 (now + MS 1024 + r)) seed.

Definition power_handle_packet (now : Z) (pending : bool) (pkt : list Z) (s : power) (tx : T) : outcome (power * T) :=
  let cmd := p_service_command pkt in
  if cmd =? JD_SET JD_POWER_REG_MAX_POWER then Ret (s, tx)
  else if cmd =? JD_POWER_CMD_SHUTDOWN then Ret (handle_shutdown now pending pkt s, tx)
  else
    '(blocked, tx) ← (if pin_pulse (pw_cfg s) =? NO_PIN then
                        '(b, tx) ← jd_block_register tx pkt JD_POWER_REG_KEEP_ON_PULSE_DURATION;
                        if negb (b =? 0) then Ret (b, tx) else jd_block_register tx pkt JD_POWER_REG_KEEP_ON_PULSE_PERIOD
                      else Ret (0, tx));
    if negb (blocked =? 0) then Ret (s, tx)
    else
      '(r, b, tx) ← service_handle_register_final (power_encode s) pkt power_regs tx;
      let regs := power_decode b in
      let s := pw_with_regs s regs in
      if r =? JD_POWER_REG_ALLOWED then Ret (set_status s (if negb (allowed regs =? 0) then POWERING else DISALLOWED), tx)
      else if (r =? JD_POWER_REG_KEEP_ON_PULSE_PERIOD) || (r =? JD_POWER_REG_KEEP_ON_PULSE_DURATION) then
        Ret (pw_with_regs s (limit_pulse regs), tx)
      else Ret (s, tx).

(** ** Start *)

Definition power_init (common : list Z) (cfg : power_cfg) (now seed : Z) : power :=
  let pull := if en_active_high cfg =? 3 then 0 else 1 in
  let s := {| pw_common := common;
              pw_regs := {| allowed := 0; power_status := POWERING; max_power := 0; pulse_duration := 0; pulse_period := 0 |};
              pw_cfg := cfg; prev_power_status := 0; hw_watchdog_pulse_status := false; led_pulse_pin := 0; det_pin := 0;
              next_shutdown := 0; last_pulse := 0; next_leds := 0; power_switch_time := 0; power_on_complete := 0; re_enable := 0;
              hw_watchdog_pulse := 0; led_pulse_on := 0; led_pulse_off := 0; pw_seed := seed;
              pw_trace := [PwInput (pin_fault cfg) pull; PwOutput (pin_en cfg); PwPin (pin_pulse cfg) 1; PwOutput (pin_pulse cfg)] |} in
  let s := set_limiter s in
  let '(r, seed) := jd_random_around seed (MS 256) in
  let s := set_next_shutdown s (u32 (now + r)) seed in
  let s := pw_with_pins s NO_PIN NO_PIN in
  let r := {| allowed := 1; power_status := POWERING; max_power := 900; pulse_duration := 0; pulse_period := 0 |} in
  if negb (pin_pulse cfg =? NO_PIN) then pw_with_pulse (pw_with_regs s (set_pulse r 600 20000)) (u32 (now - 600 * 1000))
  else pw_with_regs s r.

(** [power_config]: the configuration image names the pins; the service that
    [power_init] makes then gets the two of the board. [SRV_COMMON] comes from
    [jd_allocate_service]. *)
Definition power_config {A} (base : Dcfg.config) (in_irq : bool) (common : list Z) (now seed : Z) (st : srvcfg A)
    : outcome (power * srvcfg A) :=
  '(fault, st) ← jd_srvcfg_pin base in_irq st (chars "pinFault");
  '(en, st) ← jd_srvcfg_pin base in_irq st (chars "pinEn");
  '(pulse, st) ← jd_srvcfg_pin base in_irq st (chars "pinPulse");
  '(mode, st) ← jd_srvcfg_i32 base in_irq st (chars "mode") 0;
  '(ign, st) ← jd_srvcfg_i32 base in_irq st (chars "faultIgnoreMs") 16;
  let s := power_init common {| pin_fault := fault; pin_en := en; pin_pulse := pulse; en_active_high := u8 mode; fault_ignore_ms := u16 ign |} now seed in
  '(led, st) ← jd_srvcfg_pin base in_irq st (chars "pinLedPulse");
  '(det, st) ← jd_srvcfg_pin base in_irq st (chars "pinUsbDetect");
  Ret (pw_with_pins s led det, st).
End Power.

(** ** The registers *)

Section PowerRegs.
Context `{JdSpec} `{PowerSpec}.

Definition power_layout : list reg_entry :=
  [{| re_reg := JD_REG_PADDING; re_tp := JD_REG_BYTES; re_off := 0; re_bit := 0; re_size := 6 |};
   {| re_reg := JD_POWER_REG_ALLOWED; re_tp := 1; re_off := 6; re_bit := 0; re_size := 1 |};
   {| re_reg := JD_POWER_REG_POWER_STATUS; re_tp := 1; re_off := 7; re_bit := 0; re_size := 1 |};
   {| re_reg := JD_POWER_REG_MAX_POWER; re_tp := 3; re_off := 8; re_bit := 0; re_size := 2 |};
   {| re_reg := JD_POWER_REG_KEEP_ON_PULSE_DURATION; re_tp := 3; re_off := 10; re_bit := 0; re_size := 2 |};
   {| re_reg := JD_POWER_REG_KEEP_ON_PULSE_PERIOD; re_tp := 5; re_off := 12; re_bit := 0; re_size := 4 |}].

Lemma power_layout_ok : layout power_regs 0 0 = Some power_layout.
Proof.
  pose proof power_rw_codes as Hrw. pose proof power_ro_code as Hro. rewrite !Forall_cons in Hrw. destruct Hrw as (Ha & Hm & Hd & Hp & _).
  unfold power_regs, REG_SRV_COMMON. cbn [app].
  transitivity (es ← layout [JD_REG_ 1 JD_POWER_REG_ALLOWED; JD_REG_ 1 JD_POWER_REG_POWER_STATUS; JD_REG_ 3 JD_POWER_REG_MAX_POWER;
    JD_REG_ 3 JD_POWER_REG_KEEP_ON_PULSE_DURATION; JD_REG_ 5 JD_POWER_REG_KEEP_ON_PULSE_PERIOD; JD_REG_END] 6 0; Some (hd {| re_reg := 0; re_tp := 0; re_off := 0; re_bit := 0; re_size := 0 |} power_layout :: es)); [reflexivity|].
  rewrite (layout_plain 1 _ _ 6 0 6 1), (layout_plain 1 _ _ 7 0 7 1), (layout_plain 3 _ _ 8 0 8 2), (layout_plain 3 _ _ 10 0 10 2), (layout_plain 5 _ _ 12 0 12 4)
    by (reflexivity || lia). reflexivity.
Qed.

Definition regs_wf (r : power_regs_t) : Prop :=
  is_byte (allowed r) /\ is_byte (power_status r) /\ 0 <= max_power r < 2 ^ 16 /\ 0 <= pulse_duration r < 2 ^ 16 /\ 0 <= pulse_period r < 2 ^ 32.
Definition common_wf (c : list Z) : Prop := zlen c = 6 /\ Forall is_byte c.

Lemma power_encode_bytes s : common_wf (pw_common s) -> regs_wf (pw_regs s) -> Forall is_byte (power_encode s).
Proof.
  intros [_ Hc] (Ha & Hs & _). unfold power_encode. rewrite !Forall_app. split_and!; auto using le_bytes_is_byte.
Qed.
Lemma power_decode_wf b : Forall is_byte b -> regs_wf (power_decode b).
Proof.
  intros Hb. unfold regs_wf, power_decode. cbn. split_and!; auto using get8_is_byte; try exact (get8_is_byte _ _ Hb).
  all: unfold get16, get32; match goal with Hl : Forall is_byte ?l |- context [mread ?l ?i ?n] => pose proof (le_val_mread l i n Hl) end; lia.
Qed.
Lemma power_decode_encode s : common_wf (pw_common s) -> regs_wf (pw_regs s) -> power_decode (power_encode s) = pw_regs s.
Proof.
  intros [Hc _] (Ha & Hs & Hm & Hd & Hp). unfold power_encode, power_decode.
  destruct (pw_common s) as [|c0 [|c1 [|c2 [|c3 [|c4 [|c5 [|]]]]]]]; try (exfalso; unfold zlen in Hc; simpl in Hc; lia).
  destruct (pw_regs s) as [a st m d p]. cbn [allowed power_status max_power pulse_duration pulse_period] in *. f_equal.
  - change (get16 _ 8) with (le_val (le_bytes 2 m)). rewrite le_val_le_bytes. apply Z.mod_small. lia.
  - change (get16 _ 10) with (le_val (le_bytes 2 d)). rewrite le_val_le_bytes. apply Z.mod_small. lia.
  - change (get32 _ 12) with (le_val (le_bytes 4 p)). rewrite le_val_le_bytes. apply Z.mod_small. lia.
Qed.

(** The engine on the record of the registers. *)
Lemma power_register_regs s pkt (log : list output) :
  common_wf (pw_common s) -> regs_wf (pw_regs s) -> 0 <= p_service_size pkt <= zlen (drop 16 pkt) -> Forall is_byte pkt ->
  exists r b log', service_handle_register_final (power_encode s) pkt power_regs log = Ret (r, b, log') /\ regs_wf (power_decode b) /\
    power_status (power_decode b) = status s /\
    (r <> JD_POWER_REG_KEEP_ON_PULSE_DURATION -> pulse_duration (power_decode b) = pulse_duration (pw_regs s)) /\
    (r <> JD_POWER_REG_KEEP_ON_PULSE_PERIOD -> pulse_period (power_decode b) = pulse_period (pw_regs s)).
Proof.
  intros Hc Hr Hsz Hp. pose proof (power_encode_bytes s Hc Hr) as He.
  assert (Forall (fun e => re_end e <= zlen (power_encode s)) power_layout) as Hend.
  { destruct Hc as [Hc _]. unfold power_encode, zlen, power_layout, re_end in *. rewrite !length_app, !length_le_bytes. cbn [length].
    repeat constructor; cbn [re_off re_size]; lia. }
  destruct (register_final_spec (power_encode s) pkt power_regs _ log power_layout_ok Hend Hsz He Hp) as (r & b & log' & E & Hb & Hcase). exists r, b, log'. split; [done|].
  split; [by apply power_decode_wf|]. pose proof (power_decode_encode s Hc Hr) as Hde. unfold status. rewrite <- Hde. destruct Hcase as [->|(_ & _ & Hw & _ & Hsame)]; [done|].
  assert (r <> JD_POWER_REG_POWER_STATUS) as Hne.
  { intros ->. pose proof power_ro_code. unfold reg_writable in Hw. rewrite reg_group in Hw by lia.
    replace (JD_POWER_REG_POWER_STATUS / 256) with 1 in Hw by (Z.to_euclidean_division_equations; lia). by rewrite andb_false_r in Hw. }
  unfold power_decode. cbn [power_status pulse_duration pulse_period]. rewrite !get8_hd. unfold get16, get32. split; [|split; intros Hd]; f_equal.
  - refine (Hsame {| re_reg := JD_POWER_REG_POWER_STATUS; re_tp := 1; re_off := 7; re_bit := 0; re_size := 1 |} _ _); [cbn; tauto|cbn; congruence].
  - refine (Hsame {| re_reg := JD_POWER_REG_KEEP_ON_PULSE_DURATION; re_tp := 3; re_off := 10; re_bit := 0; re_size := 2 |} _ _); [cbn; tauto|cbn; congruence].
  - refine (Hsame {| re_reg := JD_POWER_REG_KEEP_ON_PULSE_PERIOD; re_tp := 5; re_off := 12; re_bit := 0; re_size := 4 |} _ _); [cbn; tauto|cbn; congruence].
Qed.
End PowerRegs.

(** ** What the parts of a turn change *)

(** The level last written to a pin. *)
Definition pin_level (tr : list power_event) (p : Z) : option Z :=
  fold_left (fun v e => match e with PwPin q x => if q =? p then Some x else v | _ => v end) tr None.
Definition writes_only (ps : list Z) (es : list power_event) : Prop :=
  Forall (fun e => match e with PwPin p _ => p ∈ ps | _ => True end) es.

Lemma pin_level_app tr es p : Forall (fun e => match e with PwPin q _ => q <> p | _ => True end) es -> pin_level (tr ++ es) p = pin_level tr p.
Proof.
  intros He. unfold pin_level. rewrite fold_left_app. revert He. generalize (fold_left (fun v e => match e with PwPin q x => if q =? p then Some x else v | _ => v end) tr None).
  induction es as [|e es IH]; intros v He; [done|]. apply Forall_cons in He as [He Hes]. cbn [fold_left].
  destruct e; try (by apply IH). rewrite (proj2 (Z.eqb_neq _ _) He). by apply IH.
Qed.
Lemma pin_level_kept tr es ps p : writes_only ps es -> p ∉ ps -> pin_level (tr ++ es) p = pin_level tr p.
Proof.
  intros Hw Hp. apply pin_level_app. eapply Forall_impl; [exact Hw|]. intros [] Hq; try done. intros ->. done.
Qed.
Lemma pin_level_written tr p v : pin_level (tr ++ [PwPin p v]) p = Some v.
Proof. unfold pin_level. rewrite fold_left_app. cbn. by rewrite Z.eqb_refl. Qed.

Definition with_status (r : power_regs_t) (v : Z) : power_regs_t :=
  {| allowed := allowed r; power_status := v; max_power := max_power r; pulse_duration := pulse_duration r; pulse_period := pulse_period r |}.

(** Only the status [st], the timers of the lights, and [ps] pins change. *)
Definition calm (ps : list Z) (st : Z) (s s' : power) : Prop :=
  pw_common s' = pw_common s /\ pw_regs s' = with_status (pw_regs s) st /\ pw_cfg s' = pw_cfg s /\ prev_power_status s' = prev_power_status s /\
  led_pulse_pin s' = led_pulse_pin s /\ det_pin s' = det_pin s /\ power_on_complete s' = power_on_complete s /\ re_enable s' = re_enable s /\
  last_pulse s' = last_pulse s /\ pw_seed s' = pw_seed s /\ exists es, pw_trace s' = pw_trace s ++ es /\ writes_only ps es.

Lemma with_status_same s : with_status (pw_regs s) (status s) = pw_regs s.
Proof. unfold with_status, status. by destruct (pw_regs s). Qed.

Lemma calm_trans ps st st' s s' s'' : calm ps st s s' -> calm ps st' s' s'' -> calm ps st' s s''.
Proof.
  intros (A1 & A2 & A3 & A4 & A5 & A6 & A7 & A8 & A9 & A10 & es & A11 & A12) (B1 & B2 & B3 & B4 & B5 & B6 & B7 & B8 & B9 & B10 & fs & B11 & B12).
  unfold calm. rewrite B1, B2, B3, B4, B5, B6, B7, B8, B9, B10, A1, A2, A3, A4, A5, A6, A7, A8, A9, A10. split_and!; try done.
  exists (es ++ fs). split; [by rewrite B11, A11, app_assoc|]. by apply Forall_app.
Qed.
Lemma calm_emit s es ps : writes_only ps es -> calm ps (status s) s (pw_emit s es).
Proof. intros Hw. unfold calm. rewrite with_status_same. split_and!; try done. exists es. done. Qed.
Lemma calm_same s s' ps st : calm ps st s s' -> status s' = st.
Proof. intros (_ & E & _). unfold status. by rewrite E. Qed.
Lemma calm_refl s ps : calm ps (status s) s s.
Proof. unfold calm. rewrite with_status_same. split_and!; try done. exists []. rewrite app_nil_r. split; [done|constructor]. Qed.

Section PowerTurn.
Context `{JdSpec} `{PowerSpec}.

#[local] Abbreviation DISALLOWED := JD_POWER_POWER_STATUS_DISALLOWED.
#[local] Abbreviation POWERING := JD_POWER_POWER_STATUS_POWERING.
#[local] Abbreviation OVERLOAD := JD_POWER_POWER_STATUS_OVERLOAD.
#[local] Abbreviation OVERPROVISION := JD_POWER_POWER_STATUS_OVERPROVISION.

(** The status once the supply has been looked at. *)
Definition checked_status (pin : Z -> Z) (s : power) : Z :=
  if pin (det_pin s) =? 0 then (if status s =? POWERING then DISALLOWED else status s)
  else if negb (allowed (pw_regs s) =? 0) && (status s =? DISALLOWED) then POWERING else status s.

Lemma check_power_calm pin s : calm [] (checked_status pin s) s (check_power pin s).
Proof.
  unfold check_power, checked_status, calm. cbn [pw_emit det_pin pw_regs].
  change (status (pw_emit s [PwInput (det_pin s) 0])) with (status s).
  repeat case_match; split_and!; try done; try (by rewrite with_status_same); eexists; (split; [reflexivity|repeat constructor]).
Qed.

Lemma pulse_led_calm now s : calm [led_pulse_pin s] (status s) s (pulse_led now s).
Proof.
  unfold pulse_led. destruct (jd_should_sample _ _ _) as [due on].
  set (s1 := pw_with_led s _ _ _). assert (calm [led_pulse_pin s] (status s) s s1) as H1 by exact (calm_refl s _).
  set (s2 := if due && _ then _ else s1). assert (calm [led_pulse_pin s] (status s) s s2) as H2.
  { unfold s2. destruct (_ && _); [|done]. eapply calm_trans; [exact H1|]. refine (calm_emit s1 _ _ _). repeat constructor. }
  assert (status s2 = status s) as E by (by apply (calm_same _ _ _ _ H2)). clearbody s2.
  destruct (in_past _ _); [|done]. eapply calm_trans; [exact H2|]. rewrite <- E. refine (calm_emit s2 _ _ _). repeat constructor.
Qed.

Lemma update_leds_calm now s : calm [] (status s) s (update_leds now s).
Proof.
  unfold update_leds. destruct (jd_should_sample _ _ _) as [due t]. set (s1 := pw_with_led _ _ _ _).
  assert (calm [] (status s) s s1) as H1 by exact (calm_refl s _). destruct due; [|done].
  eapply calm_trans; [exact H1|]. refine (calm_emit s1 _ _ _). repeat constructor.
Qed.
Lemma calm_weaken ps ps' st s s' : ps ⊆ ps' -> calm ps st s s' -> calm ps' st s s'.
Proof.
  intros Hps (A1 & A2 & A3 & A4 & A5 & A6 & A7 & A8 & A9 & A10 & es & A11 & A12). unfold calm. split_and!; try done.
  exists es. split; [done|]. eapply Forall_impl; [exact A12|]. intros []; try done. apply Hps.
Qed.

Definition pulse_enabled (r : power_regs_t) : bool := negb (pulse_period r =? 0) && negb (pulse_duration r =? 0).
(** The start of the pulse that counts at [now]. *)
Definition pulse_start (now : Z) (s : power) : Z :=
  if u32 (now - last_pulse s) >? u32 (pulse_period (pw_regs s) * 1000) then now else last_pulse s.
Lemma keep_on_spec now s : keep_on now s =
  if pulse_enabled (pw_regs s) then
    pw_emit (pw_with_pulse s (pulse_start now s))
      [PwPin (pin_pulse (pw_cfg s)) (zbool (u32 (now - pulse_start now s) <? pulse_duration (pw_regs s) * 1000))]
  else s.
Proof.
  unfold keep_on, pulse_enabled, pulse_start. destruct (_ && _); [|done]. destruct (_ >? _).
  - rewrite Z.sub_diag. change (u32 0) with 0. done.
  - by destruct s.
Qed.

Lemma power_prepare_calm now pin s : HW_WATCHDOG s = false ->
  exists s1, calm [led_pulse_pin s] (checked_status pin s) s s1 /\ power_prepare now pin s = keep_on now s1.
Proof.
  intros Hw. unfold power_prepare. set (s1 := if en_active_high _ <? 2 then _ else s).
  assert (calm [led_pulse_pin s] (status s) s s1) as H1.
  { unfold s1. destruct (_ <? 2); [|apply calm_refl]. apply calm_emit. repeat constructor. }
  assert (checked_status pin s1 = checked_status pin s) as Ec.
  { unfold checked_status. rewrite (calm_same _ _ _ _ H1). destruct H1 as (_ & E & _ & _ & _ & -> & _). rewrite E, with_status_same. done. }
  clearbody s1. pose proof (check_power_calm pin s1) as H2. rewrite Ec in H2. set (s2 := check_power pin s1) in *. clearbody s2.
  assert (calm [led_pulse_pin s] (checked_status pin s) s s2) as H3.
  { eapply calm_trans; [exact H1|]. eapply calm_weaken; [apply list_subseteq_nil|exact H2]. }
  pose proof (pulse_led_calm now s2) as H4. set (s3 := pulse_led now s2) in *. clearbody s3.
  rewrite (calm_same _ _ _ _ H3) in H4. assert (led_pulse_pin s2 = led_pulse_pin s) as El by apply H3. rewrite El in H4.
  pose proof (calm_trans _ _ _ _ _ _ H3 H4) as H5.
  assert (HW_WATCHDOG s3 = false) as Hw3 by (unfold HW_WATCHDOG in *; destruct H5 as (_ & _ & -> & _); done).
  unfold watchdog_pulse. rewrite Hw3. pose proof (update_leds_calm now s3) as H6. set (s4 := update_leds now s3) in *. clearbody s4.
  rewrite (calm_same _ _ _ _ H5) in H6. exists s4. split.
  { eapply calm_trans; [exact H5|]. eapply calm_weaken; [apply list_subseteq_nil|exact H6]. }
  assert (HW_WATCHDOG (keep_on now s4) = false) as ->; [|done].
  assert (pw_cfg (keep_on now s4) = pw_cfg s4) as E by (rewrite keep_on_spec; by destruct (pulse_enabled _)).
  unfold HW_WATCHDOG in *. rewrite E. destruct H6 as (_ & _ & -> & _). done.
Qed.
End PowerTurn.

(** ** The limiter *)

Section Limiter.
Context `{JdSpec} `{PowerSpec}.

#[local] Abbreviation DISALLOWED := JD_POWER_POWER_STATUS_DISALLOWED.
#[local] Abbreviation POWERING := JD_POWER_POWER_STATUS_POWERING.
#[local] Abbreviation OVERLOAD := JD_POWER_POWER_STATUS_OVERLOAD.
#[local] Abbreviation OVERPROVISION := JD_POWER_POWER_STATUS_OVERPROVISION.

Lemma states_ne : DISALLOWED <> POWERING /\ DISALLOWED <> OVERLOAD /\ DISALLOWED <> OVERPROVISION /\
  POWERING <> OVERLOAD /\ POWERING <> OVERPROVISION /\ OVERLOAD <> OVERPROVISION.
Proof.
  pose proof power_states_differ as Hd. rewrite !NoDup_cons in Hd. destruct Hd as (H1 & H2 & H3 & _).
  rewrite list_elem_of_In in H1, H2, H3. simpl in H1, H2, H3. split_and!; intros E; symmetry in E; tauto.
Qed.

(** One of the four states: what [glows] is indexed with. *)
Definition is_state (v : Z) : Prop := v ∈ [DISALLOWED; POWERING; OVERLOAD; OVERPROVISION].
Lemma is_state_each : is_state DISALLOWED /\ is_state POWERING /\ is_state OVERLOAD /\ is_state OVERPROVISION.
Proof. unfold is_state. rewrite !list_elem_of_In. simpl. tauto. Qed.
Lemma is_state_byte v : is_state v -> is_byte v.
Proof. pose proof power_states_bytes as Hb. rewrite Forall_forall in Hb. apply Hb. Qed.

(** The limiter is off: the level that [set_limiter] writes for that. *)
Definition off_value (cfg : power_cfg) : Z :=
  if (en_active_high cfg =? 2) || (en_active_high cfg =? 0) then 1 else 0.
Definition limiter_off (s : power) : Prop := pin_level (pw_trace s) (pin_en (pw_cfg s)) = Some (off_value (pw_cfg s)).

(** Faults and other supplies keep the limiter off: while it is in one of their
    states, and when such a state was the last one announced and no ramp-up is
    on its way. *)
Definition shut_off (st : Z) : Prop := st = OVERLOAD \/ st = OVERPROVISION.
Definition limiter_inv (s : power) : Prop :=
  (status s = OVERLOAD -> power_on_complete s = 0 /\ limiter_off s) /\
  (power_on_complete s = 0 -> shut_off (prev_power_status s) -> limiter_off s) /\
  (status s = OVERPROVISION -> power_on_complete s = 0).

(** What a turn keeps: all but the status, its timers, and the limiter's pins. *)
Definition turned (s s' : power) : Prop :=
  pw_common s' = pw_common s /\ pw_regs s' = with_status (pw_regs s) (status s') /\ pw_cfg s' = pw_cfg s /\
  led_pulse_pin s' = led_pulse_pin s /\ det_pin s' = det_pin s /\ last_pulse s' = last_pulse s /\ (is_state (status s) -> is_state (status s')) /\
  exists es, pw_trace s' = pw_trace s ++ es /\ writes_only [pin_en (pw_cfg s); pin_fault (pw_cfg s)] es.

Lemma turned_refl s : turned s s.
Proof. unfold turned. rewrite with_status_same. split_and!; try done. exists []. rewrite app_nil_r. split; [done|constructor]. Qed.
Lemma turned_emit s es : writes_only [pin_en (pw_cfg s); pin_fault (pw_cfg s)] es -> turned s (pw_emit s es).
Proof.
  intros Hw. unfold turned. change (status (pw_emit s es)) with (status s). rewrite with_status_same. split_and!; try done. by exists es.
Qed.
Lemma turned_trans s s' s'' : turned s s' -> turned s' s'' -> turned s s''.
Proof.
  intros (A1 & A2 & A3 & A4 & A5 & A6 & Ab & es & A7 & A8) (B1 & B2 & B3 & B4 & B5 & B6 & Bb & fs & B7 & B8).
  unfold turned. rewrite B1, B2, B3, B4, B5, B6, A1, A2, A3, A4, A5, A6. split_and!; try done; [auto|].
  exists (es ++ fs). split; [by rewrite B7, A7, app_assoc|]. rewrite A3 in B8. by apply Forall_app.
Qed.

Lemma set_limiter_turned s : turned s (set_limiter s).
Proof.
  unfold set_limiter. destruct (HW_WATCHDOG s); [apply turned_refl|].
  repeat case_match; apply turned_emit; repeat constructor.
Qed.
Lemma set_limiter_off s : HW_WATCHDOG s = false -> status s <> POWERING -> limiter_off (set_limiter s).
Proof.
  intros Hw Hs. unfold set_limiter. rewrite Hw, (proj2 (Z.eqb_neq _ _) Hs). unfold limiter_off, off_value. cbn [negb].
  destruct (en_active_high (pw_cfg s) =? 2) eqn:E2; cbn [pw_emit pw_cfg pw_trace]; rewrite pin_level_written, E2; [done|].
  by destruct (en_active_high (pw_cfg s) =? 0).
Qed.
Lemma set_limiter_keeps s : let s' := set_limiter s in
  status s' = status s /\ prev_power_status s' = prev_power_status s /\ power_on_complete s' = power_on_complete s /\
  re_enable s' = re_enable s /\ pw_seed s' = pw_seed s /\ pw_regs s' = pw_regs s.
Proof. cbn zeta. unfold set_limiter. repeat case_match; done. Qed.

(** The state machine: ramping up, or done with the limiter in place. *)
Lemma switch_limiter_spec now pin s : HW_WATCHDOG s = false -> limiter_inv s -> 0 <= pw_seed s < 2 ^ 32 ->
  let '(settled, s') := switch_limiter now pin s in
  turned s s' /\ prev_power_status s' = prev_power_status s /\ 0 <= pw_seed s' < 2 ^ 32 /\
  (settled = false -> status s' = POWERING /\ power_on_complete s' <> 0) /\
  (settled = true -> shut_off (status s') -> limiter_off s').
Proof.
  intros Hw (Hover & Hprev & Hop) Hseed. unfold switch_limiter. destruct states_ne as (N1 & N2 & N3 & N4 & N5 & N6).
  destruct (Z.eqb_spec (status s) POWERING) as [Es|Es].
  - destruct (Z.eqb_spec (prev_power_status s) POWERING) as [Ep|Ep].
    + destruct (pin _ =? 0); [|split; [apply turned_refl|]; do 3 (split; [done|]); intros _ [E|E]; congruence].
      pose proof (jd_random_around_bounds (pw_seed s) (OVERLOAD_MS * 1000) Hseed ltac:(unfold OVERLOAD_MS; lia)) as Hr.
      change (pw_seed (set_status s OVERLOAD)) with (pw_seed s). destruct (jd_random_around _ _) as [r seed]. cbn zeta.
      set (s1 := set_re_enable _ _ _). destruct (set_limiter_keeps s1) as (K1 & K2 & K3 & K4 & K5 & K6).
      split; [|split; [|split; [|split]]].
      * eapply turned_trans; [|apply set_limiter_turned]. unfold turned. split_and!; try done; [intros _; apply is_state_each|]. exists []. split; [by rewrite app_nil_r|constructor].
      * rewrite K2. done.
      * rewrite K5. unfold s1. cbn. lia.
      * done.
      * intros _ _. apply set_limiter_off; [exact Hw|]. unfold s1, status. cbn. congruence.
    + destruct (Z.eqb_spec (power_on_complete s) 0) as [Ec|Ec].
      * destruct (set_limiter_keeps s) as (K1 & K2 & K3 & K4 & K5 & K6). pose proof (set_limiter_turned s) as Ht.
        set (s1 := set_limiter s) in *. clearbody s1. set (t := u32 _).
        assert ((if t =? 0 then 1 else t) <> 0) as Hne by (destruct (Z.eqb_spec t 0); lia). set (t' := if t =? 0 then 1 else t) in *. clearbody t'.
        split; [exact Ht|]. split; [exact K2|]. split; [by rewrite <- K5 in Hseed|]. split; [|done]. intros _. split; [|exact Hne]. rewrite <- Es, <- K1. done.
      * destruct (in_future now _); (split; [apply turned_refl|]); do 2 (split; [done|]); (split; [done|]); [done|].
        intros _ [E|E]; congruence.
  - destruct (Z.eqb_spec (prev_power_status s) (status s)) as [Ep|Ep]; cbn [negb].
    + split; [apply turned_refl|]. split; [done|]. split; [done|]. split; [done|]. intros _ [E|E]; [by apply Hover|].
      apply Hprev; [by apply Hop|]. right. congruence.
    + destruct (set_limiter_keeps s) as (K1 & K2 & K3 & K4 & K5 & K6). split; [apply set_limiter_turned|]. split; [done|].
      split; [by rewrite K5|]. split; [done|]. intros _ _. by apply set_limiter_off.
Qed.

(** What a step does that neither leaves nor announces a status. *)
Definition steady (s s' : power) : Prop :=
  turned s s' /\ status s' = status s /\ prev_power_status s' = prev_power_status s /\ power_on_complete s' = power_on_complete s /\
  0 <= pw_seed s' < 2 ^ 32 /\ re_enable s' = re_enable s /\ (limiter_off s -> limiter_off s').

Lemma shutdown_others_steady now s : 0 <= pw_seed s < 2 ^ 32 -> steady s (snd (shutdown_others now s)).
Proof.
  intros Hs. unfold shutdown_others. destruct (in_past now (next_shutdown s)); [|pose proof (turned_refl s); done].
  pose proof (jd_random_around_bounds (pw_seed s) (MS 512) Hs ltac:(split; vm_compute; congruence)) as Hr.
  destruct (jd_random_around _ _) as [r seed]. cbn zeta. cbn [snd]. set (s1 := set_next_shutdown _ _ _).
  assert (turned s s1) as Hb by exact (turned_refl s). unfold steady.
  destruct (_ || _).
  - split; [|split_and!; try done; cbn; try lia].
    + eapply turned_trans; [exact Hb|]. refine (turned_emit s1 _ _). repeat constructor.
    + intros Hl. unfold limiter_off, send_shutdown. cbn [pw_trace pw_emit pw_cfg]. rewrite pin_level_app by (repeat constructor). exact Hl.
  - split; [exact Hb|]. split_and!; try done; cbn; lia.
Qed.

Lemma announce_status_spec s (log : list output) : exists log', announce_status s log = Ret (pw_with_prev s (status s), log').
Proof.
  unfold announce_status. destruct (Z.eqb_spec (prev_power_status s) (status s)) as [E|E]; cbn [negb]; [|by eexists].
  exists log. rewrite <- E. by destruct s.
Qed.

Lemma limiter_inv_announced s : power_on_complete s = 0 -> prev_power_status s = status s -> (shut_off (status s) -> limiter_off s) -> limiter_inv s.
Proof.
  intros Hc Hp Ho. unfold limiter_inv. rewrite Hp. split_and!; auto. intros E. split; [done|]. apply Ho. by left.
Qed.

Lemma power_again_spec now s : 0 <= pw_seed s < 2 ^ 32 -> power_on_complete s = 0 -> prev_power_status s = status s ->
  (shut_off (status s) -> limiter_off s) -> let s' := power_again now s in
  turned s s' /\ limiter_inv s' /\ 0 <= pw_seed s' < 2 ^ 32 /\ (status s' = OVERPROVISION -> limiter_off s').
Proof.
  intros Hs Hc Hp Ho. cbn zeta. destruct states_ne as (N1 & N2 & N3 & N4 & N5 & N6). unfold power_again.
  assert (turned s s /\ limiter_inv s /\ 0 <= pw_seed s < 2 ^ 32 /\ (status s = OVERPROVISION -> limiter_off s)) as Hsame.
  { split; [apply turned_refl|]. split; [by apply limiter_inv_announced|]. split; [done|]. intros E. apply Ho. by right. }
  destruct (allowed _ =? 0); [done|]. destruct (_ || _); [|done]. cbn zeta.
  split; [|split; [|split; [exact Hs|]]].
  - unfold turned. split_and!; try done; [intros _; apply is_state_each|]. exists []. split; [by rewrite app_nil_r|constructor].
  - unfold limiter_inv, status. cbn. split_and!; [congruence| |congruence]. intros _ E. refine (Ho _). rewrite <- Hp. exact E.
  - unfold status. cbn. congruence.
Qed.

(** The rest of a turn, settled or not. *)
Lemma power_settle_spec now pin s (log : list output) : HW_WATCHDOG s = false -> limiter_inv s -> 0 <= pw_seed s < 2 ^ 32 ->
  exists s' log', power_settle now pin s log = Ret (s', log') /\ turned s s' /\ limiter_inv s' /\ 0 <= pw_seed s' < 2 ^ 32 /\
    (status s' = OVERPROVISION -> limiter_off s').
Proof.
  intros Hw Hinv Hseed. unfold power_settle. pose proof (switch_limiter_spec now pin s Hw Hinv Hseed) as Hsw.
  destruct (switch_limiter now pin s) as [settled s1]. destruct Hsw as (Ht & Hp & Hs1 & Hramp & Hset). destruct states_ne as (N1 & N2 & N3 & N4 & N5 & N6).
  destruct settled; cbn [negb].
  2:{ destruct (Hramp eq_refl) as [E1 E2]. exists s1, log. split; [done|]. split; [done|]. split; [|split; [done|congruence]].
      unfold limiter_inv. split_and!; [congruence|done|congruence]. }
  specialize (Hset eq_refl). cbn zeta. destruct (announce_status_spec (set_complete s1 0) log) as [log' ->]. obind.
  set (s2 := pw_with_prev _ _). assert (turned s s2) as Ht2 by exact Ht. assert (power_on_complete s2 = 0 /\ prev_power_status s2 = status s2) as [Hc2 Hp2] by done.
  assert (0 <= pw_seed s2 < 2 ^ 32) as Hs2 by exact Hs1. assert (shut_off (status s2) -> limiter_off s2) as Ho2 by exact Hset. clearbody s2.
  pose proof (shutdown_others_steady now s2 Hs2) as (Ht3 & E1 & E2 & E3 & Hs3 & _ & Ho3).
  destruct (shutdown_others now s2) as [d s3]. cbn [snd] in *. pose proof (turned_trans _ _ _ Ht2 Ht3) as Ht4.
  assert (shut_off (status s3) -> limiter_off s3) as Ho by (rewrite E1; auto). rewrite Hc2 in E3. rewrite Hp2, <- E1 in E2.
  destruct d.
  - exists s3, log'. split; [done|]. split; [done|]. split; [by apply limiter_inv_announced|]. split; [done|]. intros E. apply Ho. by right.
  - destruct (power_again_spec now s3 Hs3 E3 E2 Ho) as (Ht5 & Hrest). exists (power_again now s3), log'. split; [done|]. split; [|done]. by eapply turned_trans.
Qed.
End Limiter.

(** ** Runs of the service *)

Inductive power_op :=
  | PowerTurn (now : Z) (pin : Z -> Z)                      (* [power_process] *)
  | PowerPacket (now : Z) (pending : bool) (pkt : list Z).   (* [power_handle_packet] *)

Section PowerRuns.
Context `{JdSpec} `{PowerSpec}.

#[local] Abbreviation DISALLOWED := JD_POWER_POWER_STATUS_DISALLOWED.
#[local] Abbreviation POWERING := JD_POWER_POWER_STATUS_POWERING.
#[local] Abbreviation OVERLOAD := JD_POWER_POWER_STATUS_OVERLOAD.
#[local] Abbreviation OVERPROVISION := JD_POWER_POWER_STATUS_OVERPROVISION.

Definition power_step (o : power_op) (s : power) (log : list output) : outcome (power * list output) :=
  match o with
  | PowerTurn now pin => power_process now pin s log
  | PowerPacket now pending pkt => power_handle_packet now pending pkt s log
  end.
Fixpoint power_run (ops : list power_op) (s : power) (log : list output) : outcome (power * list output) :=
  match ops with
  | [] => Ret (s, log)
  | o :: ops => '(s, log) ← power_step o s log; power_run ops s log
  end.
(** A packet as the receive queue delivers it. *)
Definition op_ok (o : power_op) : Prop :=
  match o with
  | PowerTurn _ _ => True
  | PowerPacket _ _ pkt => Forall is_byte pkt /\ 0 <= p_service_size pkt <= zlen (drop 16 pkt)
  end.

(** Pulses of at most a second, a tenth of the time. *)
Definition pulse_limited (r : power_regs_t) : Prop :=
  pulse_enabled r = true -> pulse_duration r <= 1000 /\ 10 * pulse_duration r <= pulse_period r.
(** The limiter is a plain one, and its pin is not used for anything else. *)
Definition power_wiring (s : power) : Prop :=
  HW_WATCHDOG s = false /\ pin_en (pw_cfg s) <> led_pulse_pin s /\ pin_en (pw_cfg s) <> pin_pulse (pw_cfg s).
Definition power_inv (s : power) : Prop :=
  power_wiring s /\ common_wf (pw_common s) /\ regs_wf (pw_regs s) /\ is_state (status s) /\ pulse_limited (pw_regs s) /\ 0 <= pw_seed s < 2 ^ 32 /\ limiter_inv s.

Lemma limiter_inv_same s s' : prev_power_status s' = prev_power_status s -> power_on_complete s' = power_on_complete s ->
  (status s' = OVERLOAD -> status s = OVERLOAD) -> (status s' = OVERPROVISION -> status s = OVERPROVISION \/ power_on_complete s = 0) ->
  (limiter_off s -> limiter_off s') -> limiter_inv s -> limiter_inv s'.
Proof.
  intros Ep Ec H1 H2 Ho (I1 & I2 & I3). unfold limiter_inv. rewrite Ep, Ec. split_and!; [intros E; destruct (I1 (H1 E)); auto|auto|].
  intros E. destruct (H2 E); auto.
Qed.

Lemma regs_wf_status r v : regs_wf r -> is_byte v -> regs_wf (with_status r v).
Proof. intros (A & _ & B & C & D) Hv. done. Qed.
Lemma limit_pulse_ok r : regs_wf r -> regs_wf (limit_pulse r) /\ pulse_limited (limit_pulse r) /\ power_status (limit_pulse r) = power_status r.
Proof.
  intros (A & B & C & D & E). unfold limit_pulse, pulse_limited, pulse_enabled. destruct (negb _ && negb _) eqn:En.
  2:{ split; [done|]. split; [by rewrite En|done]. }
  rewrite Z.gtb_ltb. unfold regs_wf. cbn. split; [|split; [intros _|done]]; destruct (Z.ltb_spec 1000 (pulse_duration r)).
  all: match goal with |- context [?p <? ?x] => destruct (Z.ltb_spec p x) end; split_and!; done || lia.
Qed.

Lemma checked_status_spec pin s :
  (checked_status pin s = OVERLOAD -> status s = OVERLOAD) /\ (checked_status pin s = OVERPROVISION -> status s = OVERPROVISION) /\
  (is_state (status s) -> is_state (checked_status pin s)).
Proof.
  destruct states_ne as (N1 & N2 & N3 & N4 & N5 & N6), is_state_each as (B1 & B2 & B3 & B4).
  unfold checked_status. repeat case_match; split_and!; congruence || done.
Qed.

(** What comes before the state machine leaves the limiter alone. *)
Lemma power_prepare_spec now pin s : power_wiring s ->
  let s' := power_prepare now pin s in
  pw_common s' = pw_common s /\ pw_regs s' = with_status (pw_regs s) (checked_status pin s) /\ pw_cfg s' = pw_cfg s /\
  led_pulse_pin s' = led_pulse_pin s /\ det_pin s' = det_pin s /\ pw_seed s' = pw_seed s /\ re_enable s' = re_enable s /\
  prev_power_status s' = prev_power_status s /\ power_on_complete s' = power_on_complete s /\ (limiter_off s -> limiter_off s').
Proof.
  intros (Hw & P1 & P2). cbn zeta. destruct (power_prepare_calm now pin s Hw) as (s1 & (C1 & C2 & C3 & C4 & C5 & C6 & C7 & C8 & C9 & C10 & es & C11 & C12) & ->).
  assert (limiter_off s -> limiter_off s1) as Ho.
  { unfold limiter_off. rewrite C3, C11. erewrite pin_level_kept by (exact C12 || (rewrite list_elem_of_singleton; done)). done. }
  rewrite keep_on_spec. destruct (pulse_enabled _); [|done]. split_and!; try done. intros Hoff. specialize (Ho Hoff). unfold limiter_off. cbn [pw_trace pw_emit pw_cfg pw_with_pulse].
  rewrite pin_level_app; [done|]. repeat constructor. rewrite C3. done.
Qed.

Lemma power_prepare_inv now pin s : power_inv s -> power_inv (power_prepare now pin s).
Proof.
  intros (Hwir & Hc & Hr & Hst & Hl & Hs & Hi). pose proof (power_prepare_spec now pin s Hwir) as (P1 & P2 & P3 & P4 & P5 & P6 & P7 & P8 & P9 & P10).
  set (s1 := power_prepare now pin s) in *. clearbody s1. destruct (checked_status_spec pin s) as (K1 & K2 & K3).
  assert (status s1 = checked_status pin s) as Es by (unfold status; by rewrite P2).
  unfold power_inv, power_wiring, HW_WATCHDOG. rewrite P1, P2, P3, P4, P6, Es. split; [exact Hwir|]. split; [done|].
  split; [by apply regs_wf_status; [|apply is_state_byte, K3]|]. split; [by apply K3|]. split; [exact Hl|]. split; [done|].
  apply (limiter_inv_same s s1); try done; rewrite Es; auto.
Qed.

Lemma power_settle_inv now pin s (log : list output) : power_inv s ->
  exists s' log', power_settle now pin s log = Ret (s', log') /\ power_inv s' /\ turned s s'.
Proof.
  intros (Hwir & Hc & Hr & Hst & Hl & Hs & Hl1).
  destruct (power_settle_spec now pin s log (proj1 Hwir) Hl1 Hs) as (s2 & log2 & E & Ht & Hi2 & Hs2 & _).
  exists s2, log2. split; [done|]. split; [|done]. destruct Ht as (T1 & T2 & T3 & T4 & T5 & T6 & Tb & _).
  unfold power_inv, power_wiring, HW_WATCHDOG. rewrite T1, T3, T4, T2. assert (is_state (status s2)) as Hst2 by (by apply Tb).
  split; [exact Hwir|]. split; [done|]. split; [by apply regs_wf_status; [|apply is_state_byte]|]. split; [done|]. split; [exact Hl|done].
Qed.
(** A whole turn: what is prepared, then the state machine. *)
Lemma power_process_spec now pin s (log : list output) : power_inv s ->
  exists s' log', power_process now pin s log = Ret (s', log') /\ power_inv s' /\ turned (power_prepare now pin s) s'.
Proof. intros Hi. apply power_settle_inv. by apply power_prepare_inv. Qed.

Lemma power_inv_same s s' : pw_common s' = pw_common s -> pw_regs s' = pw_regs s -> pw_cfg s' = pw_cfg s -> led_pulse_pin s' = led_pulse_pin s ->
  pw_trace s' = pw_trace s -> prev_power_status s' = prev_power_status s -> power_on_complete s' = power_on_complete s -> 0 <= pw_seed s' < 2 ^ 32 ->
  power_inv s -> power_inv s'.
Proof.
  intros E1 E2 E3 E4 E5 E6 E7 Hs (I1 & I2 & I3 & Is & I4 & _ & I6). unfold power_inv, power_wiring, HW_WATCHDOG, status. rewrite E1, E2, E3, E4.
  split_and!; try done; try apply I1; try lia. apply (limiter_inv_same s s'); try done; unfold status, limiter_off; rewrite ?E2, ?E3, ?E5; auto.
Qed.

(** Registers written by a packet: the status goes to an allowed one. *)
Lemma power_inv_regs s r st : power_inv s -> regs_wf r -> pulse_limited r -> power_status r = st ->
  st = status s \/ st = POWERING \/ st = DISALLOWED -> power_inv (pw_with_regs s r).
Proof.
  intros (I1 & I2 & _ & Is & _ & I5 & I6) Hr Hl <- Hst. destruct states_ne as (N1 & N2 & N3 & N4 & N5 & N6).
  split; [exact I1|]. split; [exact I2|]. split; [exact Hr|].
  split; [|split; [exact Hl|split; [exact I5|]]].
  { change (is_state (power_status r)). destruct Hst as [-> | [-> | ->]]; [done|apply is_state_each..]. }
  apply (limiter_inv_same s _); try done.
  - intros E. change (power_status r = OVERLOAD) in E. destruct Hst as [?|[?|?]]; congruence.
  - intros E. change (power_status r = OVERPROVISION) in E. left. destruct Hst as [?|[?|?]]; congruence.
Qed.

Lemma handle_shutdown_inv now pending pkt s : power_inv s -> power_inv (handle_shutdown now pending pkt s) /\ pw_cfg (handle_shutdown now pending pkt s) = pw_cfg s.
Proof.
  intros Hi. unfold handle_shutdown. destruct (has_flag _ _); [done|]. destruct Hi as (I1 & I2 & I3 & Is & I4 & I5 & I6).
  pose proof (jd_random_around_bounds (pw_seed s) (MS (8 * 1024)) I5 ltac:(split; vm_compute; congruence)) as Hr.
  set (s1 := overprovision _ _ _). destruct states_ne as (N1 & N2 & N3 & N4 & N5 & N6).
  assert (power_inv s1 /\ pw_cfg s1 = pw_cfg s) as [Hi1 Ec].
  { unfold s1, overprovision. destruct (_ && _) eqn:Ec; [|done]. destruct (jd_random_around (pw_seed s) (MS (8 * 1024))) as [r seed]. split; [|done].
    apply andb_true_iff in Ec as [_ Ec]. bool_to_prop. split; [exact I1|]. split; [exact I2|]. split; [|split; [apply is_state_each|split; [exact I4|split; [cbn; lia|]]]].
    - apply (regs_wf_status _ OVERPROVISION I3), is_state_byte, is_state_each.
    - apply (limiter_inv_same s _); [done|done|intros E; change (OVERPROVISION = OVERLOAD) in E; congruence|by right|auto|done]. }
  clearbody s1. assert (0 <= pw_seed s1 < 2 ^ 32) as Hs1 by apply Hi1.
  pose proof (jd_random_around_bounds (pw_seed s1) (MS 256) Hs1 ltac:(split; vm_compute; congruence)) as Hr1.
  destruct (jd_random_around (pw_seed s1) (MS 256)) as [r seed]. split; [|exact Ec]. apply (power_inv_same s1); try done. cbn. lia.
Qed.

Lemma power_allowed_apart : JD_POWER_REG_ALLOWED <> JD_POWER_REG_KEEP_ON_PULSE_DURATION /\ JD_POWER_REG_ALLOWED <> JD_POWER_REG_KEEP_ON_PULSE_PERIOD.
Proof.
  pose proof power_codes_differ as Hd. rewrite !NoDup_cons in Hd. destruct Hd as (H1 & _). rewrite list_elem_of_In in H1. simpl in H1.
  split; intros E; symmetry in E; tauto.
Qed.

Lemma power_handle_packet_inv now pending pkt s (log : list output) : power_inv s -> op_ok (PowerPacket now pending pkt) ->
  exists s' log', power_handle_packet now pending pkt s log = Ret (s', log') /\ power_inv s' /\ pw_cfg s' = pw_cfg s.
Proof.
  intros Hi [Hb Hsz]. unfold power_handle_packet. destruct (_ =? JD_SET _); [by exists s, log|].
  destruct (_ =? JD_POWER_CMD_SHUTDOWN); [destruct (handle_shutdown_inv now pending pkt s Hi); by eexists _, log|].
  match goal with |- context [mbind _ ?x] => assert (exists b log1, x = Ret (b, log1)) as (bl & log1 & ->) end.
  { destruct (_ =? NO_PIN); [|by eexists _, _]. unfold jd_block_register, jd_send_not_implemented, send_packet, output_sender.
    repeat (case_match; obind); by eexists _, _. }
  obind. destruct (negb _); [by exists s, log1|]. pose proof Hi as (I1 & I2 & I3 & Is & I4 & I5 & I6).
  destruct (power_register_regs s pkt log1 I2 I3 Hsz Hb) as (r & b & log2 & -> & Hwf & Hst & Hd & Hp). obind. cbn zeta.
  set (regs := power_decode b) in *. clearbody regs. 
  destruct (Z.eqb_spec r JD_POWER_REG_ALLOWED) as [Er|Er].
  - eexists _, log2. split; [reflexivity|]. split; [|done]. unfold set_status. cbn [pw_regs pw_with_regs].
    refine (power_inv_regs s (with_status regs _) _ Hi _ _ eq_refl _).
    + apply regs_wf_status; [done|]. destruct (negb _); apply is_state_byte, is_state_each.
    + unfold pulse_limited, pulse_enabled. cbn. unfold pulse_limited, pulse_enabled in I4.
      rewrite Hd, Hp by (rewrite Er; apply power_allowed_apart). exact I4.
    + cbn. destruct (negb _); auto.
  - destruct (_ || _) eqn:Ep; eexists _, log2; (split; [reflexivity|]); (split; [|done]).
    + destruct (limit_pulse_ok regs Hwf) as (L1 & L2 & L3). apply (power_inv_regs s _ (status s)); auto. by rewrite L3.
    + apply orb_false_iff in Ep as [Ep1 Ep2]. bool_to_prop. apply (power_inv_regs s _ (status s)); auto.
      unfold pulse_limited, pulse_enabled in *. by rewrite Hd, Hp.
Qed.

Lemma power_prepare_cfg now pin s : power_inv s -> pw_cfg (power_prepare now pin s) = pw_cfg s /\ led_pulse_pin (power_prepare now pin s) = led_pulse_pin s.
Proof. intros (Hwir & _). by destruct (power_prepare_spec now pin s Hwir) as (_ & _ & E1 & E2 & _). Qed.

Lemma power_step_inv o s (log : list output) : power_inv s -> op_ok o ->
  exists s' log', power_step o s log = Ret (s', log') /\ power_inv s' /\ pw_cfg s' = pw_cfg s.
Proof.
  intros Hi Ho. destruct o as [now pin|now pending pkt]; [|by apply power_handle_packet_inv].
  destruct (power_process_spec now pin s log Hi) as (s' & log' & E & Hi' & Ht). exists s', log'. split; [done|]. split; [done|].
  destruct Ht as (_ & _ & -> & _). by apply power_prepare_cfg.
Qed.
Lemma power_run_inv ops : forall s (log : list output), power_inv s -> Forall op_ok ops ->
  exists s' log', power_run ops s log = Ret (s', log') /\ power_inv s' /\ pw_cfg s' = pw_cfg s.
Proof.
  induction ops as [|o ops IH]; intros s log Hi Ho; cbn [power_run]; [by exists s, log|]. apply Forall_cons in Ho as [Ho Hops].
  destruct (power_step_inv o s log Hi Ho) as (s1 & log1 & -> & Hi1 & E1). obind. rewrite <- E1. by apply IH.
Qed.

(** The service as [power_config] leaves it. *)
Definition power_start (common : list Z) (cfg : power_cfg) (now seed led det : Z) : power := pw_with_pins (power_init common cfg now seed) led det.

Lemma power_start_inv common cfg now seed led det : common_wf common -> en_active_high cfg <> 3 -> pin_en cfg <> led -> pin_en cfg <> pin_pulse cfg ->
  0 <= seed < 2 ^ 32 -> power_inv (power_start common cfg now seed led det) /\ pw_cfg (power_start common cfg now seed led det) = cfg.
Proof.
  intros Hc Hm H1 H2 Hs. unfold power_start, power_init. cbn zeta.
  pose proof (jd_random_around_bounds seed (MS 256) Hs ltac:(split; vm_compute; congruence)) as Hr. destruct (jd_random_around seed (MS 256)) as [r seed'].
  destruct states_ne as (N1 & N2 & N3 & N4 & N5 & N6).
  set (s0 := {| pw_common := common |}). assert (turned s0 (set_limiter s0)) as Ht by apply set_limiter_turned.
  pose proof (set_limiter_keeps s0) as (K1 & K2 & K3 & K4 & K5 & K6). set (s1 := set_limiter s0) in *. clearbody s1.
  destruct Ht as (T1 & T2 & T3 & T4 & T5 & T6 & _ & _). 
  assert (forall r, power_status r = POWERING -> regs_wf r -> pulse_limited r -> forall t last,
    power_inv (pw_with_pulse (pw_with_regs (pw_with_pins (set_next_shutdown s1 t seed') led det) r) last)) as Hgen.
  { intros rg Hpw Hwf Hl t last. split; [split; [|split]; cbn; rewrite ?T3; [|exact H1|exact H2]|].
    { unfold HW_WATCHDOG. cbn. rewrite T3. cbn. by apply Z.eqb_neq. }
    split; [cbn; rewrite T1; exact Hc|]. split; [done|]. split; [unfold status; cbn; rewrite Hpw; apply is_state_each|]. split; [done|]. split; [cbn; lia|].
    unfold limiter_inv, status. cbn. rewrite Hpw, K2, K3. cbn. split_and!; [intros E; congruence| |done].
    intros _ [E|E]; exfalso; rewrite power_disallowed_zero in *; congruence. }
  assert (regs_wf {| allowed := 1; power_status := POWERING; max_power := 900; pulse_duration := 0; pulse_period := 0 |}) as Hwf.
  { unfold regs_wf. cbn. split_and!; try lia; try (unfold is_byte; lia); apply is_state_byte, is_state_each. }
  destruct (negb _).
  - split; [|cbn; by rewrite T3]. apply (Hgen (set_pulse _ 600 20000)); [done| |intros _; cbn; lia]. destruct Hwf as (W1 & W2 & W3 & _). unfold regs_wf. cbn in *. split_and!; try done; lia.
  - split; [|cbn; by rewrite T3]. refine (Hgen {| allowed := 1; power_status := POWERING; max_power := 900; pulse_duration := 0; pulse_period := 0 |} eq_refl Hwf _ (u32 (now + r)) (last_pulse s1)). by intros E.
Qed.
End PowerRuns.

(** ** A fault, and what follows *)

Section PowerTheorems.
Context `{JdSpec} `{PowerSpec}.

#[local] Abbreviation DISALLOWED := JD_POWER_POWER_STATUS_DISALLOWED.
#[local] Abbreviation POWERING := JD_POWER_POWER_STATUS_POWERING.
#[local] Abbreviation OVERLOAD := JD_POWER_POWER_STATUS_OVERLOAD.
#[local] Abbreviation OVERPROVISION := JD_POWER_POWER_STATUS_OVERPROVISION.

(** C26. Whatever packets and turns follow the start: the handlers return, the
    status is always one of the four states, so that the table of lights is
    indexed in range, the registers stay within their widths, and the pulses
    that keep a battery awake are configured to at most a second and a tenth of
    the time. *)
Theorem power_registers_typed common cfg now seed led det ops :
  common_wf common -> en_active_high cfg <> 3 -> pin_en cfg <> led -> pin_en cfg <> pin_pulse cfg -> 0 <= seed < 2 ^ 32 -> Forall op_ok ops ->
  exists s log, power_run ops (power_start common cfg now seed led det) [] = Ret (s, log) /\
    status s ∈ [DISALLOWED; POWERING; OVERLOAD; OVERPROVISION] /\ regs_wf (pw_regs s) /\ pulse_limited (pw_regs s).
Proof.
  intros Hc Hm H1 H2 Hs Ho. destruct (power_start_inv common cfg now seed led det Hc Hm H1 H2 Hs) as [Hi _].
  destruct (power_run_inv ops _ [] Hi Ho) as (s & log & E & (_ & _ & Hr & Hst & Hl & _) & _). by exists s, log.
Qed.

(** C9. A supply in trouble keeps its limiter off: whatever packets and turns
    follow the start, while the status says overload, or overprovision has been
    announced, the last level written to the limiter's pin is the one that
    switches it off. *)
Theorem power_faults_keep_off common cfg now seed led det ops :
  common_wf common -> en_active_high cfg <> 3 -> pin_en cfg <> led -> pin_en cfg <> pin_pulse cfg -> 0 <= seed < 2 ^ 32 -> Forall op_ok ops ->
  exists s log, power_run ops (power_start common cfg now seed led det) [] = Ret (s, log) /\
    (status s = OVERLOAD \/ status s = OVERPROVISION /\ prev_power_status s = OVERPROVISION ->
     pin_level (pw_trace s) (pin_en cfg) = Some (off_value cfg)).
Proof.
  intros Hc Hm H1 H2 Hs Ho. destruct (power_start_inv common cfg now seed led det Hc Hm H1 H2 Hs) as [Hi Ec].
  destruct (power_run_inv ops _ [] Hi Ho) as (s & log & E & (_ & _ & _ & _ & _ & _ & (I1 & I2 & I3)) & E2). exists s, log. split; [done|].
  rewrite <- Ec, <- E2. intros [E3|[E3 E4]]; [by apply I1|]. apply I2; [by apply I3|by right].
Qed.

Lemma in_past_before t R : t < R <= t + 2 ^ 31 -> in_past (u32 t) (u32 R) = false.
Proof. intros Hr. unfold in_past. rewrite is_before_spec. apply Z.ltb_ge. word_lia. Qed.

Lemma power_again_overload t R s : status s = OVERLOAD -> re_enable s = u32 R -> t < R <= t + 2 ^ 31 -> power_again (u32 t) s = s.
Proof.
  intros Es Er Ht. destruct states_ne as (N1 & N2 & N3 & N4 & N5 & N6). unfold power_again.
  rewrite Er, (in_past_before t R Ht), Es, andb_false_r, (proj2 (Z.eqb_neq _ _) N6). by destruct (_ =? 0).
Qed.

(** What is left of a turn once the status is announced, in overload. *)
Lemma overload_rest t R s (log : list output) : status s = OVERLOAD -> re_enable s = u32 R -> t < R <= t + 2 ^ 31 -> 0 <= pw_seed s < 2 ^ 32 ->
  exists s', (let '(done, s0) := shutdown_others (u32 t) s in if done : bool then Ret (s0, log) else Ret (power_again (u32 t) s0, log)) = Ret (s', log) /\ steady s s'.
Proof.
  intros Es Er Ht Hs. pose proof (shutdown_others_steady (u32 t) s Hs) as Hst. destruct (shutdown_others _ _) as [d s1]. cbn [snd] in Hst.
  exists s1. split; [|done]. destruct Hst as (_ & E1 & _ & _ & _ & E2 & _). destruct d; [done|]. rewrite (power_again_overload t R); congruence.
Qed.

(** The state machine finds the fault pin pulled low. *)
Lemma overload_settle t pin s (log : list output) : 0 <= pw_seed s < 2 ^ 32 -> status s = POWERING -> prev_power_status s = POWERING ->
  pin (pin_fault (pw_cfg s)) = 0 ->
  exists s' R, power_settle (u32 t) pin s log = Ret (s', log ++ [Event (get8 (pw_common s) 4) JD_POWER_EV_POWER_STATUS_CHANGED [OVERLOAD]]) /\
    status s' = OVERLOAD /\ prev_power_status s' = OVERLOAD /\ re_enable s' = u32 R /\ t + 1000000 <= R <= t + 3000000.
Proof.
  intros Hs Es Ep Hfault. destruct states_ne as (N1 & N2 & N3 & N4 & N5 & N6).
  unfold power_settle, switch_limiter. rewrite Es, Z.eqb_refl, Ep, Z.eqb_refl, Hfault. change (0 =? 0) with true. cbn [negb].
  change (pw_seed (set_status s OVERLOAD)) with (pw_seed s).
  pose proof (jd_random_around_bounds (pw_seed s) (OVERLOAD_MS * 1000) Hs ltac:(split; vm_compute; congruence)) as Hr.
  change (OVERLOAD_MS * 1000) with 2000000 in *. destruct (jd_random_around _ _) as [r seed]. destruct Hr as [Hseed Hr].
  change (2000000 / 2) with 1000000 in Hr. change ((2000000 + 1) / 2) with 1000000 in Hr.
  set (s2 := set_re_enable _ _ _). destruct (set_limiter_keeps s2) as (K1 & K2 & K3 & K4 & K5 & K6).
  assert (pw_common (set_limiter s2) = pw_common s2) as K7 by apply set_limiter_turned.
  set (s3 := set_complete (set_limiter s2) 0). assert (status s3 = OVERLOAD) as Es3 by exact K1.
  assert (prev_power_status s3 = POWERING) as Ep3 by (change (prev_power_status (set_limiter s2) = POWERING); rewrite K2; exact Ep).
  assert (re_enable s3 = u32 (t + r)) as Er3 by (change (re_enable (set_limiter s2) = u32 (t + r)); rewrite K4; change (u32 (u32 t + r) = u32 (t + r)); apply Zplus_mod_idemp_l).
  assert (pw_common s3 = pw_common s) as Ec3 by exact K7.
  assert (0 <= pw_seed s3 < 2 ^ 32) as Hs3 by (change (0 <= pw_seed (set_limiter s2) < 2 ^ 32); rewrite K5; cbn; lia). clearbody s3.
  unfold announce_status. rewrite Es3, Ep3, (proj2 (Z.eqb_neq _ _) N4). cbn [negb]. unfold send_event, output_event_sender. obind.
  set (log' := log ++ _). assert (log' = log ++ [Event (get8 (pw_common s) 4) JD_POWER_EV_POWER_STATUS_CHANGED [OVERLOAD]]) as El.
  { unfold log'. change (pw_common (pw_with_prev s3 OVERLOAD)) with (pw_common s3). change (status (pw_with_prev s3 OVERLOAD)) with (status s3). rewrite Ec3, Es3.
    cbn [le_bytes]. unfold u8. by rewrite Z.mod_small by apply is_state_byte, is_state_each. }
  clearbody log'. subst log'. destruct (overload_rest t (t + r) (pw_with_prev s3 OVERLOAD) (log ++ [Event (get8 (pw_common s) 4) JD_POWER_EV_POWER_STATUS_CHANGED [OVERLOAD]]))
    as (s4 & E4 & _ & F1 & F2 & _ & _ & F3 & _); [done|done|lia|done|].
  exists s4, (t + r). split; [exact E4|]. split; [exact (eq_trans F1 Es3)|]. split; [done|]. split; [exact (eq_trans F3 Er3)|lia].
Qed.

(** The turn that finds it. *)
Lemma overload_turn t pin s (log : list output) : power_inv s -> status s = POWERING -> prev_power_status s = POWERING ->
  pin (det_pin s) <> 0 -> pin (pin_fault (pw_cfg s)) = 0 ->
  exists s' R, power_settle (u32 t) pin (power_prepare (u32 t) pin s) log = Ret (s', log ++ [Event (get8 (pw_common s) 4) JD_POWER_EV_POWER_STATUS_CHANGED [OVERLOAD]]) /\
    status s' = OVERLOAD /\ prev_power_status s' = OVERLOAD /\ re_enable s' = u32 R /\ t + 1000000 <= R <= t + 3000000.
Proof.
  intros Hi Es Ep Hdet Hfault. destruct (power_prepare_spec (u32 t) pin s (proj1 Hi)) as (P1 & P2 & P3 & P4 & P5 & P6 & P7 & P8 & P9 & P10).
  rewrite <- P1. apply overload_settle.
  - rewrite P6. apply Hi.
  - unfold status. rewrite P2. cbn. unfold checked_status. rewrite (proj2 (Z.eqb_neq _ _) Hdet), Es. destruct (_ && _); done.
  - by rewrite P8.
  - by rewrite P3.
Qed.

(** Turns before the time is up. *)
Lemma overload_stays_settle t R pin s (log : list output) : 0 <= pw_seed s < 2 ^ 32 -> status s = OVERLOAD -> prev_power_status s = OVERLOAD ->
  re_enable s = u32 R -> t < R <= t + 2 ^ 31 ->
  exists s', power_settle (u32 t) pin s log = Ret (s', log) /\ status s' = OVERLOAD /\ prev_power_status s' = OVERLOAD /\ re_enable s' = u32 R.
Proof.
  intros Hs Es Ep Er Ht. destruct states_ne as (N1 & N2 & N3 & N4 & N5 & N6). unfold power_settle, switch_limiter.
  rewrite Es, (proj2 (Z.eqb_neq OVERLOAD POWERING)), Ep, Z.eqb_refl by congruence. cbn [negb].
  destruct (announce_status_spec (set_complete s 0) log) as [log' Ea]. unfold announce_status in *.
  change (prev_power_status (set_complete s 0)) with (prev_power_status s) in *. change (status (set_complete s 0)) with (status s) in *.
  rewrite Ep, Es, Z.eqb_refl in *. cbn [negb] in *. obind.
  destruct (overload_rest t R (set_complete s 0) log) as (s4 & E4 & _ & F1 & F2 & _ & _ & F3 & _); [done|done|lia|done|].
  exists s4. split; [exact E4|]. split; [exact (eq_trans F1 Es)|]. split; [exact (eq_trans F2 Ep)|exact (eq_trans F3 Er)].
Qed.

Lemma power_step_turn now pin s (log : list output) : power_step (PowerTurn now pin) s log = power_settle now pin (power_prepare now pin s) log.
Proof. reflexivity. Qed.

Lemma overload_stays calls : forall R s (log : list output), power_inv s -> status s = OVERLOAD -> prev_power_status s = OVERLOAD -> re_enable s = u32 R ->
  Forall (fun c => fst c < R <= fst c + 2 ^ 31) calls ->
  exists s', power_run (map (fun c => PowerTurn (u32 (fst c)) (snd c)) calls) s log = Ret (s', log) /\ power_inv s' /\ pw_cfg s' = pw_cfg s /\ status s' = OVERLOAD.
Proof.
  induction calls as [|[t pin] calls IH]; intros R s log Hi Es Ep Er Ht; cbn [map power_run]; [by exists s|].
  apply Forall_cons in Ht as [Ht Hts]. cbn [fst snd] in *. destruct (power_prepare_spec (u32 t) pin s (proj1 Hi)) as (P1 & P2 & P3 & P4 & P5 & P6 & P7 & P8 & P9 & P10).
  destruct (overload_stays_settle t R pin (power_prepare (u32 t) pin s) log) as (s1 & E & Es1 & Ep1 & Er1); [rewrite P6; apply Hi| |by rewrite P8|by rewrite P7|done|].
  { destruct states_ne as (N1 & N2 & N3 & N4 & N5 & N6). unfold status. rewrite P2. cbn. unfold checked_status. rewrite Es.
    rewrite (proj2 (Z.eqb_neq OVERLOAD POWERING)), (proj2 (Z.eqb_neq OVERLOAD DISALLOWED)), andb_false_r by congruence. by destruct (_ =? 0). }
  destruct (power_step_inv (PowerTurn (u32 t) pin) s log Hi I) as (s1' & log1 & E1 & Hi1 & Ec1). rewrite E1. rewrite power_step_turn, E in E1.
  injection E1 as <- <-. obind. rewrite <- Ec1. by apply (IH R).
Qed.

(** C10. A fault cuts the power: when the limiter has been on and the turn at
    [t] finds the fault pin low, that turn switches the limiter off and announces
    the overload, once, and turns in the second that follows, however the pins
    read then, neither switch it on again nor announce anything. *)
Theorem power_fault_cuts t pin s (log : list output) calls :
  power_inv s -> status s = POWERING -> prev_power_status s = POWERING -> pin (det_pin s) <> 0 -> pin (pin_fault (pw_cfg s)) = 0 ->
  Forall (fun c => t <= fst c < t + 1000000) calls ->
  exists s', power_run (PowerTurn (u32 t) pin :: map (fun c => PowerTurn (u32 (fst c)) (snd c)) calls) s log =
      Ret (s', log ++ [Event (get8 (pw_common s) 4) JD_POWER_EV_POWER_STATUS_CHANGED [OVERLOAD]]) /\
    status s' = OVERLOAD /\ pin_level (pw_trace s') (pin_en (pw_cfg s)) = Some (off_value (pw_cfg s)).
Proof.
  intros Hi Es Ep Hdet Hf Hc. destruct (overload_turn t pin s log Hi Es Ep Hdet Hf) as (s1 & R & E & Es1 & Ep1 & Er1 & HR). cbn [power_run].
  destruct (power_step_inv (PowerTurn (u32 t) pin) s log Hi I) as (s1' & log1 & E1 & Hi1 & Ec1). rewrite E1. rewrite power_step_turn, E in E1. injection E1 as <- <-. obind.
  destruct (overload_stays calls R s1 (log ++ [Event (get8 (pw_common s) 4) JD_POWER_EV_POWER_STATUS_CHANGED [OVERLOAD]]) Hi1 Es1 Ep1 Er1) as (s2 & E2 & Hi2 & Ec2 & Es2).
  { eapply Forall_impl; [exact Hc|]. intros c. cbn. lia. }
  exists s2. split; [exact E2|]. split; [done|]. rewrite <- Ec1, <- Ec2. destruct Hi2 as (_ & _ & _ & _ & _ & _ & (I1 & _)). by apply I1.
Qed.
End PowerTheorems.

(** ** Keep-on pulses *)

Section KeepOn.
Context `{JdSpec} `{PowerSpec}.

Lemma power_turn_pulse now pin s (log : list output) :
  power_inv s -> pulse_enabled (pw_regs s) = true -> pin_pulse (pw_cfg s) <> pin_en (pw_cfg s) -> pin_pulse (pw_cfg s) <> pin_fault (pw_cfg s) ->
  exists s' log', power_step (PowerTurn now pin) s log = Ret (s', log') /\ power_inv s' /\ pw_cfg s' = pw_cfg s /\
    pulse_duration (pw_regs s') = pulse_duration (pw_regs s) /\ pulse_period (pw_regs s') = pulse_period (pw_regs s) /\
    last_pulse s' = pulse_start now s /\
    pin_level (pw_trace s') (pin_pulse (pw_cfg s)) = Some (zbool (u32 (now - pulse_start now s) <? pulse_duration (pw_regs s) * 1000)).
Proof.
  intros Hi Hen H1 H2. rewrite power_step_turn. pose proof (power_prepare_inv now pin s Hi) as Hi1.
  destruct (power_prepare_calm now pin s (proj1 (proj1 Hi))) as (s1 & (C1 & C2 & C3 & C4 & C5 & C6 & C7 & C8 & C9 & C10 & _) & Ep).
  assert (pulse_start now s1 = pulse_start now s) as Est by (unfold pulse_start; by rewrite C9, C2).
  assert (pulse_enabled (pw_regs s1) = true) as Hen1 by (by rewrite C2). rewrite keep_on_spec, Hen1, C2, C3 in Ep. rewrite Ep in *.
  destruct (power_settle_inv now pin _ log Hi1) as (s2 & log2 & E & Hi2 & (T1 & T2 & T3 & T4 & T5 & T6 & _ & es & T7 & T8)).
  exists s2, log2. split; [exact E|]. split; [done|]. split; [rewrite T3; exact C3|]. split; [rewrite T2; cbn; by rewrite C2|]. split; [rewrite T2; cbn; by rewrite C2|].
  split; [rewrite T6; exact Est|]. rewrite T7. rewrite (pin_level_kept _ _ _ _ T8).
  - cbn [pw_emit pw_trace pw_with_pulse with_status pulse_duration]. by rewrite pin_level_written, Est.
  - change (pw_cfg (pw_emit _ _)) with (pw_cfg s1). rewrite C3, list_elem_of_In. simpl. intros [E1|[E1|[]]]; congruence.
Qed.

(** The times of the turns that leave the pulse on. *)
Fixpoint pulse_times (calls : list (Z * (Z -> Z))) (s : power) (log : list output) : outcome (list Z) :=
  match calls with
  | [] => Ret []
  | (t, pin) :: calls =>
      '(s, log) ← power_step (PowerTurn (u32 t) pin) s log;
      ons ← pulse_times calls s log;
      Ret (if bool_decide (pin_level (pw_trace s) (pin_pulse (pw_cfg s)) = Some 1) then t :: ons else ons)
  end.

(** [a] belongs to the pulse that started at [L]. *)
Definition in_pulse (D a L : Z) : Prop := L <= a < L + D.

Section Timing.
Context (P D G : Z) (HD : 0 < D <= P) (HG : 0 <= G) (HPG : P + G < 2 ^ 32).

Lemma pulse_start_at t L s : u32 (pulse_period (pw_regs s) * 1000) = P -> u32 (last_pulse s) = u32 L -> 0 <= t - L < 2 ^ 32 ->
  let L' := if P <? t - L then t else L in u32 (pulse_start (u32 t) s) = u32 L' /\ u32 (u32 t - pulse_start (u32 t) s) = t - L'.
Proof.
  intros Hp Hl Ht. unfold pulse_start. rewrite Hp. assert (u32 (u32 t - last_pulse s) = t - L) as ->.
  { unfold u32 in *. rewrite Zminus_mod_idemp_l, Zminus_mod, Hl, <- Zminus_mod. by apply Z.mod_small. }
  rewrite Z.gtb_ltb. destruct (P <? t - L) eqn:E; cbn zeta.
  - split; [unfold u32; by rewrite Zmod_mod|]. by rewrite !Z.sub_diag.
  - split; [done|]. unfold u32 in *. rewrite Zminus_mod_idemp_l, Zminus_mod, Hl, <- Zminus_mod. by apply Z.mod_small.
Qed.

(** Every turn with the pulse on lies in a pulse that starts now or, once the
    present one is over, more than a period later. *)
Lemma pulse_times_spec calls : forall s t L (log : list output), power_inv s -> pulse_enabled (pw_regs s) = true ->
  pin_pulse (pw_cfg s) <> pin_en (pw_cfg s) -> pin_pulse (pw_cfg s) <> pin_fault (pw_cfg s) ->
  pulse_period (pw_regs s) * 1000 = P -> pulse_duration (pw_regs s) * 1000 = D -> u32 (last_pulse s) = u32 L -> 0 <= t - L <= P -> gaps 0 G t calls ->
  exists ons, pulse_times calls s log = Ret ons /\
    (forall b, b ∈ ons -> t <= b /\ exists L', in_pulse D b L' /\ (L' = L \/ L + P < L')) /\
    (forall a b, a ∈ ons -> b ∈ ons -> a <= b -> b - a < D \/ P - D < b - a).
Proof.
  induction calls as [|[t1 pin] calls IH]; intros s t L log Hi Hen H1 H2 HP HDu Hl Ht Hg; cbn [pulse_times].
  { exists []. split; [done|]. split; [intros b Hb|intros a b Hb]; by apply not_elem_of_nil in Hb. }
  destruct Hg as [Hg Hgs]. destruct (power_turn_pulse (u32 t1) pin s log Hi Hen H1 H2) as (s1 & log1 & -> & Hi1 & Ec & Ed & Epp & El & Elev). obind.
  assert (u32 (pulse_period (pw_regs s) * 1000) = P) as HPu by (rewrite HP; apply Z.mod_small; lia).
  destruct (pulse_start_at t1 L s HPu Hl ltac:(lia)) as [S1 S2]. rewrite S2, HDu in Elev. rewrite <- Ec in Elev, H1, H2. rewrite <- Epp in HP. rewrite <- Ed in HDu.
  assert (pulse_enabled (pw_regs s1) = true) as Hen1 by (unfold pulse_enabled in *; by rewrite Ed, Epp). set (L1 := if P <? t1 - L then t1 else L) in *.
  assert (0 <= t1 - L1 <= P /\ (L1 = L \/ L + P < L1)) as [Ht1 HL1] by (unfold L1; destruct (Z.ltb_spec P (t1 - L)); lia).
  destruct (IH s1 t1 L1 log1 Hi1 Hen1 H1 H2 HP HDu ltac:(by rewrite El) Ht1 Hgs) as (ons & -> & Hin & Hpair). obind. clearbody L1.
  rewrite Elev. assert (forall b, b ∈ ons -> t <= b /\ exists L', in_pulse D b L' /\ (L' = L \/ L + P < L')) as Hin'.
  { intros b Hb. destruct (Hin b Hb) as [Hle (L' & HL' & Hc)]. split; [lia|]. exists L'. split; [done|]. destruct HL1, Hc; lia. }
  case_bool_decide as Eon; [|by exists ons].
  assert (in_pulse D t1 L1) as Ha by (destruct (Z.ltb_spec (t1 - L1) D); [unfold in_pulse; lia|done]).
  eexists. split; [reflexivity|]. split.
  - intros b [->|Hb]%elem_of_cons; [|by apply Hin']. split; [lia|]. exists L1. split; [done|]. lia.
  - intros a b [->|Hb1]%elem_of_cons [->|Hb2]%elem_of_cons Hab; [lia| | |by apply Hpair].
    + destruct (Hin b Hb2) as [_ (L' & HL' & Hc)]. unfold in_pulse in *. destruct Hc; lia.
    + destruct (Hin a Hb1) as [Hle _]. lia.
Qed.
End Timing.

(** The pulses that keep a battery awake are short and rare. Whatever has
    happened since the start, while the registers are left alone, any two turns
    that leave the pulse pin on are either within one pulse, less than the
    configured duration apart, or more than a period less a duration apart; and
    a period is at least ten durations of at most a second. This needs the
    period to fit the 32-bit clock in microseconds, and turns not to stop for
    as long as that clock takes to wrap. *)
Lemma keep_on_duty common cfg now seed led det ops s log0 calls t G :
  common_wf common -> en_active_high cfg <> 3 -> pin_en cfg <> led -> pin_en cfg <> pin_pulse cfg -> 0 <= seed < 2 ^ 32 -> Forall op_ok ops ->
  pin_pulse cfg <> pin_fault cfg ->
  power_run ops (power_start common cfg now seed led det) [] = Ret (s, log0) -> pulse_enabled (pw_regs s) = true ->
  u32 t = last_pulse s -> 0 <= G -> pulse_period (pw_regs s) * 1000 + G < 2 ^ 32 -> gaps 0 G t calls ->
  let P := pulse_period (pw_regs s) * 1000 in let D := pulse_duration (pw_regs s) * 1000 in
  D <= 1000000 /\ 10 * D <= P /\
  exists ons, pulse_times calls s log0 = Ret ons /\ forall a b, a ∈ ons -> b ∈ ons -> a <= b -> b - a < D \/ P - D < b - a.
Proof.
  intros Hc Hm H1 H2 Hs Ho H3 Hrun Hen Hl HG HPG Hg P D. destruct (power_start_inv common cfg now seed led det Hc Hm H1 H2 Hs) as [Hi Ec].
  destruct (power_run_inv ops _ [] Hi Ho) as (s' & log' & E & Hi' & E2). rewrite Hrun in E. injection E as <- <-. rewrite Ec in E2.
  assert (pulse_duration (pw_regs s) <= 1000 /\ 10 * pulse_duration (pw_regs s) <= pulse_period (pw_regs s)) as [L1 L2] by (by apply Hi').
  assert (0 < pulse_duration (pw_regs s)) as Hd.
  { unfold pulse_enabled in Hen. bool_to_prop. destruct Hi' as (_ & _ & (_ & _ & _ & Hr & _) & _). lia. }
  split; [lia|]. split; [lia|].
  destruct (pulse_times_spec P D G ltac:(lia) HG HPG calls s t t log0 Hi' Hen ltac:(rewrite E2; congruence) ltac:(by rewrite E2) eq_refl eq_refl) as (ons & E & _ & Hp); try lia; try done.
  - rewrite <- Hl. unfold u32. by rewrite Zmod_mod.
  - by exists ons.
Qed.
End KeepOn.

(** ** The theorems at concrete inputs *)

(** Codes like those of the generated header. *)
Definition demo_power_codes : PowerSpec.
Proof.
  refine {| JD_POWER_REG_ALLOWED := 0x1; JD_POWER_REG_POWER_STATUS := 0x181; JD_POWER_REG_MAX_POWER := 0x7;
    JD_POWER_REG_KEEP_ON_PULSE_DURATION := 0x80; JD_POWER_REG_KEEP_ON_PULSE_PERIOD := 0x81; JD_POWER_CMD_SHUTDOWN := 0x80;
    JD_POWER_EV_POWER_STATUS_CHANGED := 0x3; JD_POWER_POWER_STATUS_DISALLOWED := 0; JD_POWER_POWER_STATUS_POWERING := 1;
    JD_POWER_POWER_STATUS_OVERLOAD := 2; JD_POWER_POWER_STATUS_OVERPROVISION := 3 |};
    [by apply (bool_decide_unpack _)|by apply (bool_decide_unpack _)|done|repeat constructor|done|by apply (bool_decide_unpack _)].
Defined.

Definition demo_power_cfg : power_cfg := {| pin_fault := 1; pin_en := 2; pin_pulse := 3; en_active_high := 1; fault_ignore_ms := 16 |}.
Definition demo_common : list Z := [0; 0; 0; 0; 1; 0].
(** The pins read high, or all but the fault pin. *)
Definition all_high (_ : Z) : Z := 1.
Definition fault_low (p : Z) : Z := if p =? 1 then 0 else 1.
Definition demo_start : power := power_start (H0 := demo_power_codes) demo_common demo_power_cfg 1000 7 4 5.
(** Turns every ten milliseconds from [t]. *)
Definition turns_from (t : Z) (n : nat) : list (Z * (Z -> Z)) := map (fun i => (t + 10000 * Z.of_nat i, all_high)) (seq 0 n).
Definition turn_ops (calls : list (Z * (Z -> Z))) : list power_op := map (fun c => PowerTurn (u32 (fst c)) (snd c)) calls.
Definition demo_run (ops : list power_op) : outcome (power * list output) := power_run (H := demo_spec) (H0 := demo_power_codes) ops demo_start [].

Lemma power_registers_typed_witness :
  let ops := PowerPacket 1500 false (demo_pkt 0x2080 [0xff; 0xff]) :: PowerPacket 1600 false (demo_pkt 0x2081 [1; 0; 0; 0]) :: turn_ops (turns_from 2000 3) in
  exists s log, demo_run ops = Ret (s, log) /\
    status s ∈ [0; 1; 2; 3] /\ regs_wf (pw_regs s) /\ pulse_limited (pw_regs s).
Proof.
  apply (power_registers_typed (H := demo_spec) (H0 := demo_power_codes) demo_common demo_power_cfg 1000 7 4 5); try (cbn; lia).
  - split; [done|by apply bytes_by_test].
  - repeat constructor; try (by apply bytes_by_test); vm_compute; congruence.
Defined.

Lemma power_faults_keep_off_witness :
  let ops := turn_ops (turns_from 2000 5) ++ [PowerTurn 60000 fault_low; PowerTurn 70000 all_high] in
  exists s log, demo_run ops = Ret (s, log) /\ status s = 2 /\
    (status s = 2 \/ status s = 3 /\ prev_power_status s = 3 -> pin_level (pw_trace s) 2 = Some 0).
Proof.
  destruct (power_faults_keep_off (H := demo_spec) (H0 := demo_power_codes) demo_common demo_power_cfg 1000 7 4 5
    (turn_ops (turns_from 2000 5) ++ [PowerTurn 60000 fault_low; PowerTurn 70000 all_high])) as (s & log & E & Ho); try (cbn; lia).
  - split; [done|by apply bytes_by_test].
  - repeat constructor.
  - exists s, log. split; [exact E|]. split; [|exact Ho]. vm_compute in E. injection E as <- _. reflexivity.
Defined.

Definition demo_on : power :=
  match demo_run (turn_ops (turns_from 2000 5)) with Ret (s, _) => s | _ => demo_start end.
Lemma demo_on_inv : power_inv (H0 := demo_power_codes) demo_on.
Proof.
  destruct (power_start_inv (H0 := demo_power_codes) demo_common demo_power_cfg 1000 7 4 5) as [Hi _]; try (cbn; lia).
  { split; [done|by apply bytes_by_test]. }
  destruct (power_run_inv (H := demo_spec) (H0 := demo_power_codes) (turn_ops (turns_from 2000 5)) _ [] Hi) as (s & log & E & Hs & _); [repeat constructor|].
  assert (demo_on = s) as -> by (unfold demo_on, demo_run; change demo_start with (power_start (H0 := demo_power_codes) demo_common demo_power_cfg 1000 7 4 5); by rewrite E).
  exact Hs.
Qed.

Lemma power_fault_cuts_witness :
  exists s', power_run (H := demo_spec) (H0 := demo_power_codes) (PowerTurn (u32 60000) fault_low :: turn_ops (turns_from 70000 90)) demo_on [] =
      Ret (s', [Event (get8 (pw_common demo_on) 4) 3 [2]]) /\ status s' = 2 /\ pin_level (pw_trace s') (pin_en (pw_cfg demo_on)) = Some (off_value (pw_cfg demo_on)).
Proof.
  apply (power_fault_cuts (H := demo_spec) (H0 := demo_power_codes) 60000 fault_low demo_on [] (turns_from 70000 90));
    [|vm_compute; reflexivity|vm_compute; reflexivity|vm_compute; congruence|vm_compute; reflexivity|].
  - exact demo_on_inv.
  - apply Forall_forall. intros c Hc. unfold turns_from in Hc. apply list_elem_of_fmap in Hc as (i & -> & Hi%elem_of_seq). cbn [fst]. lia.
Defined.

Definition demo_pulse_ops : list power_op :=
  [PowerPacket 4000100 false (demo_pkt 0x2080 [200; 0]); PowerPacket 4000200 false (demo_pkt 0x2081 [0xd0; 7; 0; 0]); PowerTurn 5000000 all_high].
Definition demo_pulsing : power := match demo_run demo_pulse_ops with Ret (s, _) => s | _ => demo_start end.

(** The power that was never announced stays on: when the service is forbidden
    while the limiter ramps up, the status is again the one announced last, and
    the limiter is not switched off. *)
Lemma disallowed_stays_on :
  match demo_run [PowerTurn 2000 all_high; PowerPacket 3000 false (demo_pkt 0x2001 [0]); PowerTurn 60000 all_high; PowerTurn 70000 all_high] with
  | Ret (s, _) => status s = 0 /\ allowed (pw_regs s) = 0 /\ pin_level (pw_trace s) 2 = Some 1
  | _ => False
  end.
Proof. vm_compute. repeat split. Qed.

(** A period of 2^32 microseconds wraps to less than one: the pulse never ends. *)
Lemma pulse_period_wraps :
  match demo_run [PowerPacket 3000 false (demo_pkt 0x2081 [0x38; 0x89; 0x41; 0])] with
  | Ret (s, log) => pulse_period (pw_regs s) = 4294968 /\ pulse_times (H := demo_spec) (H0 := demo_power_codes) (turns_from 10000 300) s log = Ret (map fst (turns_from 10000 300))
  | _ => False
  end.
Proof. vm_compute. repeat split. Qed.

(** Pulses that are disabled during a pulse leave the pin on. *)
Lemma pulse_disabled_stays_on :
  match demo_run (PowerTurn 30000000 all_high :: PowerPacket 30000100 false (demo_pkt 0x2081 [0; 0; 0; 0]) :: turn_ops (turns_from 30010000 200)) with
  | Ret (s, _) => pulse_enabled (pw_regs s) = false /\ pin_level (pw_trace s) 3 = Some 1
  | _ => False
  end.
Proof. vm_compute. repeat split. Qed.
