(* ===== verification/Button.v ===== *)
(** * The button service ([services/button.c])

    A button is sampled every nine milliseconds; it announces when it goes down,
    every half second that it is held, and when it goes up, with the time for
    which it was down. The level of the pin, or what the callback of
    [button_init_fn] returns, is an argument of each call; what is written to
    pins is a trace. *)
From Stdlib Require Import String.
From S2P Require Import Prelude Frame Util Iface Registers Dcfg Srvcfg Sensor.

(** The generated header. Documented: the events have codes of their own. *)
Class ButtonSpec `{SensorSpec} := {
  JD_BUTTON_EV_DOWN : Z;
  JD_BUTTON_EV_UP : Z;
  JD_BUTTON_EV_HOLD : Z;
  button_events_differ : NoDup [JD_BUTTON_EV_DOWN; JD_BUTTON_EV_UP; JD_BUTTON_EV_HOLD; JD_EV_STATUS_CODE_CHANGED];
}.

Inductive button_event := BtSet (pin v : Z) | BtOutput (pin : Z) | BtInput (pin : Z) (pull_up : bool).

(** [struct srv_state] *)
Record button := {
  bt_sensor : sensor;
  pressed : Z;                 (* uint8_t *)
  bt_pin : Z;
  backlight_pin : Z;
  prev_pressed : Z;
  active : Z;
  is_active : bool;            (* there is a callback *)
  next_hold : Z;
  press_time : Z;
  bt_nextSample : Z;
  bt_trace : list button_event;
}.
Definition bt_with_press (b : button) (now_pressed prev hold time : Z) (es : list button_event) : button :=
  {| bt_sensor := bt_sensor b; pressed := now_pressed; bt_pin := bt_pin b; backlight_pin := backlight_pin b; prev_pressed := prev;
     active := active b; is_active := is_active b; next_hold := hold; press_time := time; bt_nextSample := bt_nextSample b;
     bt_trace := bt_trace b ++ es |}.

Section Button.
Context `{JdSpec} `{ButtonSpec} {T : Type} `{Sender T} `{EventSender T}.

(** [level] is [pin_get(pin)], or what the callback returns. *)
Definition button_level (b : button) (level : Z) : Z := if is_active b then u8 level else zbool (level =? active b).

(** The button goes up or down. *)
Definition press_change (now : Z) (b : button) (tx : T) : outcome (button * T) :=
  if pressed b =? prev_pressed b then Ret (b, tx)
  else
    let es := [BtSet (backlight_pin b) (pressed b)] in
    if negb (pressed b =? 0) then
      tx ← send_event tx (service_idx (bt_sensor b)) JD_BUTTON_EV_DOWN [];
      Ret (bt_with_press b (pressed b) (pressed b) 500000 now es, tx)
    else
      let presslen := u32 (now - press_time b) / 1000 in
      tx ← send_event tx (service_idx (bt_sensor b)) JD_BUTTON_EV_UP (le_bytes 4 presslen);
      Ret (bt_with_press b (pressed b) (pressed b) (next_hold b) (press_time b) es, tx).

Definition press_hold (now : Z) (b : button) (tx : T) : outcome (button * T) :=
  if negb (pressed b =? 0) then
    let presslen := u32 (now - press_time b) in
    if presslen >=? next_hold b then
      let b := bt_with_press b (pressed b) (prev_pressed b) (u32 (next_hold b + 500000)) (press_time b) [] in
      tx ← send_event tx (service_idx (bt_sensor b)) JD_BUTTON_EV_HOLD (le_bytes 4 (presslen / 1000));
      Ret (b, tx)
    else Ret (b, tx)
  else Ret (b, tx).

Definition update (now level : Z) (b : button) (tx : T) : outcome (button * T) :=
  let b := bt_with_press b (button_level b level) (prev_pressed b) (next_hold b) (press_time b) [] in
  '(b, tx) ← press_change now b tx;
  press_hold now b tx.




(** The struct that [jd_allocate_service] makes: zeros but for the common part. *)
Definition button_alloc (common : list Z) (pin backlight act : Z) (fn : bool) (tr : list button_event) : button :=
  {| bt_sensor := {| sn_common := common; streaming_samples := 0; got_query := false; jd_inited := false; got_reading := false;
                     reading_pending := false; streaming_interval := 0; next_streaming := 0 |};
     pressed := 0; bt_pin := pin; backlight_pin := backlight; prev_pressed := 0; active := act; is_active := fn; next_hold := 0;
     press_time := 0; bt_nextSample := 0; bt_trace := tr |}.

Definition button_init (common : list Z) (pin act backlight now level : Z) (tx : T) : outcome (button * T) :=
  update now level (button_alloc common pin backlight act false [BtOutput backlight; BtInput pin (act =? 0)]) tx.

Definition button_init_fn (common : list Z) (now level : Z) (tx : T) : outcome (button * T) :=
  update now level (button_alloc common NO_PIN NO_PIN 0 true []) tx.

Definition button_config {A} (base : Dcfg.config) (in_irq : bool) (common : list Z) (now level : Z) (st : srvcfg A) (tx : T)
    : outcome (button * srvcfg A * T) :=
  '(pin, st) ← jd_srvcfg_pin base in_irq st (chars "pin");
  '(act, st) ← jd_srvcfg_has_flag base in_irq st (chars "activeHigh");
  '(light, st) ← jd_srvcfg_pin base in_irq st (chars "pinBacklight");
  '(b, tx) ← button_init common pin (zbool act) light now level tx;
  Ret (b, st, tx).
End Button.

(** ** What a button announces

    On a clock that does not wrap: the time of the press and the number of
    announced half seconds, while the button is down. *)

Inductive announcement := Down | Up (ms : Z) | Hold (ms : Z).


Section Announcements.
Context `{JdSpec} `{ButtonSpec}.

Definition announce (idx : Z) (a : announcement) : output :=
  match a with
  | Down => Event idx JD_BUTTON_EV_DOWN []
  | Up ms => Event idx JD_BUTTON_EV_UP (le_bytes 4 ms)
  | Hold ms => Event idx JD_BUTTON_EV_HOLD (le_bytes 4 ms)
  end.








(** ** Runs *)




End Announcements.

Section ButtonTheorem.
Context `{JdSpec} `{ButtonSpec}.

End ButtonTheorem.

(** ** The theorem at a concrete input *)

#[local] Existing Instances demo_spec demo_sensor_codes.
Definition demo_button_codes : ButtonSpec.
Proof. refine {| JD_BUTTON_EV_DOWN := 1; JD_BUTTON_EV_UP := 2; JD_BUTTON_EV_HOLD := 0x81 |}. by apply (bool_decide_unpack _). Defined.

#[local] Existing Instance demo_button_codes.


(** Held for longer than the clock takes to wrap: [next_hold] wraps before the
    time does, every sample announces another "hold", and the length is small. *)
Lemma long_press_bursts :
  let b := {| bt_sensor := bt_sensor (button_alloc [0; 0; 0; 0; 1; 0] 7 8 0 false []); pressed := 1; bt_pin := 7; backlight_pin := 8; prev_pressed := 1; active := 0;
              is_active := false; next_hold := 8589 * 500000; press_time := 0; bt_nextSample := 0; bt_trace := [] |} in
  match '(b, log) ← update 4294500000 0 b ([] : list output); '(b, log) ← update 4294509000 0 b log;
        '(b, log) ← update 4294518000 0 b log; update (u32 4296000000) 1 b log with
  | Ret (_, log) => log = map (announce 1) [Hold 4294500; Hold 4294509; Hold 4294518; Up 1032]
  | _ => False
  end.
Proof. vm_compute. reflexivity. Qed.
