(* ===== verification/Rotary.v ===== *)
(** * The rotary encoder ([services/rotaryencoder.c])

    Two pins of the encoder change in turn, one for every quarter of a click;
    each sample compares their levels with those of the last one and moves the
    position. Built without [JD_ROTARY_HW]. The levels of the pins are arguments
    of each call, what is written to pins and the length of the sleep that is
    asked for are a trace. *)
From Stdlib Require Import String.
From S2P Require Import Prelude Frame Util Iface Registers Dcfg Srvcfg Sensor.

Definition GO_SLOW : Z := 8 * 1024 * 1024.
Definition PROBE_FAST : Z := 1000.
Definition PROBE_SLOW : Z := 5000.
Definition ROTARY_ENC_FLAG_DENSE : Z := 0x01.
Definition ROTARY_ENC_FLAG_INVERTED : Z := 0x02.

(** The generated header. *)
Class RotarySpec := { JD_ROTARY_ENCODER_REG_CLICKS_PER_TURN : Z }.

Inductive rotary_event := RoPullUp (pin : Z) | RoPullNone (pin : Z) | RoInput (pin : Z) | RoMaxSleep (us : Z).

(** [struct srv_state] *)
Record rotary := {
  ro_sensor : sensor;
  ro_state : Z;                (* uint8_t: the levels of the last sample *)
  pin0 : Z; pin1 : Z;
  pos_shift : Z;               (* uint8_t *)
  clicks_per_turn : Z;         (* uint16_t *)
  ro_sample : Z;               (* int32_t *)
  position : Z;                (* int32_t *)
  ro_nextSample : Z;
  go_fast : Z;
  ro_trace : list rotary_event;
}.
Definition ro_with_sensor (r : rotary) (s : sensor) (next : Z) : rotary :=
  {| ro_sensor := s; ro_state := ro_state r; pin0 := pin0 r; pin1 := pin1 r; pos_shift := pos_shift r; clicks_per_turn := clicks_per_turn r;
     ro_sample := ro_sample r; position := position r; ro_nextSample := next; go_fast := go_fast r; ro_trace := ro_trace r |}.
Definition ro_with_position (r : rotary) (st sample pos fast : Z) (es : list rotary_event) : rotary :=
  {| ro_sensor := ro_sensor r; ro_state := st; pin0 := pin0 r; pin1 := pin1 r; pos_shift := pos_shift r; clicks_per_turn := clicks_per_turn r;
     ro_sample := sample; position := pos; ro_nextSample := ro_nextSample r; go_fast := fast; ro_trace := ro_trace r ++ es |}.

Definition posMap : list Z := [0; 1; -1; 2; -1; 0; -2; 1; 1; -2; 0; -1; 2; -1; 1; 0].

(** What is reported of the position; the negation wraps. *)
Definition rotary_sample (pos_shift pos : Z) : Z :=
  let v := Z.shiftr pos (Z.land pos_shift 0xf) in
  if negb (Z.land pos_shift 0x80 =? 0) then s32 (- v) else v.

(** [p0] and [p1] are the levels of the pins. *)
Definition update (now p0 p1 : Z) (r : rotary) : rotary :=
  let s := Z.land (ro_state r) 3 in
  let s := if negb (p0 =? 0) then Z.lor s 4 else s in
  let s := if negb (p1 =? 0) then Z.lor s 8 else s in
  let es := [RoPullUp (pin0 r); RoPullUp (pin1 r); RoPullNone (pin0 r); RoPullNone (pin1 r)] in
  let step := default 0 (posMap !! Z.to_nat s) in
  let '(fast, pos) := if negb (step =? 0) then (u32 (now + GO_SLOW), s32 (position r + step)) else (go_fast r, position r) in
  ro_with_position r (Z.shiftr s 2) (rotary_sample (pos_shift r) pos) pos fast es.

Section Rotary.
Context `{JdSpec} `{SensorSpec} `{RotarySpec} {T : Type} `{Sender T} `{EventSender T}.

Definition maybe_init (now p0 p1 : Z) (r : rotary) (tx : T) : outcome (rotary * T) :=
  '(woken, s, _, tx) ← sensor_maybe_init no_api (ro_sensor r) tt tx;
  let r := ro_with_sensor r s (ro_nextSample r) in
  if woken : bool then
    let r := ro_with_position r (ro_state r) (ro_sample r) (position r) (go_fast r) [RoInput (pin0 r); RoInput (pin1 r)] in
    let r := update now p0 p1 r in
    Ret (ro_with_position r (ro_state r) 0 0 (go_fast r) [], tx)
  else Ret (r, tx).

(** The end of the fast probing, and the sleep. *)
Definition probe (now : Z) (r : rotary) : rotary :=
  if jd_inited (ro_sensor r) then
    let fast := if negb (go_fast r =? 0) && in_past now (go_fast r) then 0 else go_fast r in
    ro_with_position r (ro_state r) (ro_sample r) (position r) fast [RoMaxSleep (if negb (fast =? 0) then PROBE_FAST else PROBE_SLOW)]
  else r.

(** The turn once the sensor has been put to work. *)
Definition rotary_turn (now p0 p1 : Z) (r : rotary) (tx : T) : outcome (rotary * T) :=
  let '(due, next) := jd_should_sample now (ro_nextSample r) 900 in
  let r := ro_with_sensor r (ro_sensor r) next in
  let r := if due && jd_inited (ro_sensor r) then update now p0 p1 r else r in
  let r := probe now r in
  '(s, _, tx) ← sensor_process_simple no_api now (le_bytes 4 (ro_sample r)) (ro_sensor r) tt tx;
  Ret (ro_with_sensor r s (ro_nextSample r), tx).

Definition rotaryencoder_process (now p0 p1 : Z) (r : rotary) (tx : T) : outcome (rotary * T) :=
  '(r, tx) ← maybe_init now p0 p1 r tx;
  rotary_turn now p0 p1 r tx.

Definition rotaryencoder_handle_packet (now : Z) (pkt : list Z) (r : rotary) (tx : T) : outcome (rotary * T) :=
  if p_service_command pkt =? JD_GET JD_ROTARY_ENCODER_REG_CLICKS_PER_TURN then
    '(_, tx) ← send_packet tx (service_idx (ro_sensor r)) (JD_GET JD_ROTARY_ENCODER_REG_CLICKS_PER_TURN) (le_bytes 2 (clicks_per_turn r));
    Ret (r, tx)
  else
    '(_, s, _, tx) ← sensor_handle_packet_simple no_api now pkt (le_bytes 4 (ro_sample r)) (ro_sensor r) tt tx;
    Ret (ro_with_sensor r s (ro_nextSample r), tx).

Definition rotaryencoder_init (common : list Z) (p0 p1 clicks flags : Z) : rotary :=
  let shift := if negb (Z.land flags ROTARY_ENC_FLAG_DENSE =? 0) then 1 else 2 in
  {| ro_sensor := {| sn_common := common; streaming_samples := 0; got_query := false; jd_inited := false; got_reading := false;
                     reading_pending := false; streaming_interval := 0; next_streaming := 0 |};
     ro_state := 0; pin0 := p0; pin1 := p1;
     pos_shift := if negb (Z.land flags ROTARY_ENC_FLAG_INVERTED =? 0) then Z.lor shift 0x80 else shift;
     clicks_per_turn := clicks; ro_sample := 0; position := 0; ro_nextSample := 0; go_fast := 0; ro_trace := [] |}.

(** C leaves the order of the arguments of the call open; this is one of them
    (it only matters for the buffer of the key). *)
Definition rotaryencoder_config {A} (base : Dcfg.config) (in_irq : bool) (common : list Z) (st : srvcfg A) : outcome (rotary * srvcfg A) :=
  '(dense, st) ← jd_srvcfg_has_flag base in_irq st (chars "dense");
  '(inverted, st) ← jd_srvcfg_has_flag base in_irq st (chars "inverted");
  let flags := Z.lor (if dense : bool then ROTARY_ENC_FLAG_DENSE else 0) (if inverted : bool then ROTARY_ENC_FLAG_INVERTED else 0) in
  '(p0, st) ← jd_srvcfg_pin base in_irq st (chars "pin0");
  '(p1, st) ← jd_srvcfg_pin base in_irq st (chars "pin1");
  '(clicks, st) ← jd_srvcfg_i32 base in_irq st (chars "clicksPerTurn") 12;
  Ret (rotaryencoder_init common p0 p1 (u16 clicks) flags, st).
End Rotary.

(** ** The shaft

    [q] counts the quarters that the shaft has turned; its pins show [q] in a
    code where neighbours differ in one pin. *)

Definition gray (q : Z) : Z :=
  let m := q mod 4 in if m =? 0 then 0 else if m =? 1 then 2 else if m =? 2 then 3 else 1.
Definition level0 (q : Z) : Z := Z.land (gray q) 1.
Definition level1 (q : Z) : Z := Z.shiftr (gray q) 1.

Lemma gray_cases q : exists k, (q = 4 * k /\ gray q = 0) \/ (q = 4 * k + 1 /\ gray q = 2) \/ (q = 4 * k + 2 /\ gray q = 3) \/ (q = 4 * k + 3 /\ gray q = 1).
Proof.
  exists (q / 4). pose proof (Z.div_mod q 4 ltac:(lia)) as E. pose proof (Z.mod_pos_bound q 4 ltac:(lia)) as Hr. unfold gray.
  assert (q mod 4 = 0 \/ q mod 4 = 1 \/ q mod 4 = 2 \/ q mod 4 = 3) as [E2|[E2|[E2|E2]]] by lia; rewrite E2 in *; cbn; lia.
Qed.

(** The sample of a shaft that moved by a quarter at most. *)
Lemma update_shaft now q q' r : Z.land (ro_state r) 3 = gray q -> - 1 <= q' - q <= 1 -> - 2 ^ 31 <= position r + (q' - q) < 2 ^ 31 ->
  let r' := update now (level0 q') (level1 q') r in
  ro_state r' = gray q' /\ position r' = position r + (q' - q) /\ ro_sample r' = rotary_sample (pos_shift r) (position r') /\
  ro_sensor r' = ro_sensor r /\ ro_nextSample r' = ro_nextSample r /\ pos_shift r' = pos_shift r.
Proof.
  intros Hs Hq Hb. unfold update, level0, level1. rewrite Hs.
  assert (s32 (position r + (q' - q)) = position r + (q' - q)) as Es by (unfold s32; rewrite Z.mod_small; lia).
  assert (q' - q = 0 \/ q' - q = 1 \/ q' - q = -1) as Hd by lia.
  destruct (gray_cases q) as [k Hk], (gray_cases q') as [k' Hk'].
  destruct Hk as [[Eq ->]|[[Eq ->]|[[Eq ->]|[Eq ->]]]], Hk' as [[Eq' ->]|[[Eq' ->]|[[Eq' ->]|[Eq' ->]]]]; cbn;
    (destruct Hd as [Hd|[Hd|Hd]]; rewrite ?Hd in *; try (exfalso; lia)); rewrite ?Z.add_0_r, ?Es; by split_and!.
Qed.

(** The sample of the turn that wakes the encoder. *)
Lemma wake_update now q r : let r' := update now (level0 q) (level1 q) r in
  ro_state r' = gray q /\ ro_sensor r' = ro_sensor r /\ ro_nextSample r' = ro_nextSample r /\ pos_shift r' = pos_shift r.
Proof.
  cbv zeta. unfold update. destruct (if negb _ then (u32 _, _) else _) as [fast pos]. cbn. split; [|done]. unfold level0, level1.
  assert (0 <= Z.land (ro_state r) 3 < 4) as Hl by (change 3 with (Z.ones 2); rewrite Z.land_ones by lia; apply Z.mod_pos_bound; lia).
  assert (Z.land (ro_state r) 3 = 0 \/ Z.land (ro_state r) 3 = 1 \/ Z.land (ro_state r) 3 = 2 \/ Z.land (ro_state r) 3 = 3) as [->|[->|[->| ->]]] by lia;
    destruct (gray_cases q) as [k [[_ ->]|[[_ ->]|[[_ ->]|[_ ->]]]]]; reflexivity.
Qed.

Lemma last_cons_default (q d : Z) l : List.last (q :: l) d = List.last l q.
Proof. revert q d. induction l as [|x l IH]; intros q d; [done|]. change (List.last (q :: x :: l) d) with (List.last (x :: l) d). by rewrite !IH. Qed.

(** ** Runs *)

Inductive rotary_op :=
  | RotaryTurn (t q : Z)                    (* [rotaryencoder_process], the shaft at [q] *)
  | RotaryPacket (t : Z) (pkt : list Z).    (* [rotaryencoder_handle_packet] *)

Section Runs.
Context `{JdSpec} `{SensorSpec} `{RotarySpec}.

Definition rotary_step (o : rotary_op) (r : rotary) (log : list output) : outcome (rotary * list output) :=
  match o with
  | RotaryTurn t q => rotaryencoder_process (u32 t) (level0 q) (level1 q) r log
  | RotaryPacket t pkt => rotaryencoder_handle_packet (u32 t) pkt r log
  end.
Fixpoint rotary_run (ops : list rotary_op) (r : rotary) (log : list output) : outcome (rotary * list output) :=
  match ops with
  | [] => Ret (r, log)
  | o :: ops => '(r, log) ← rotary_step o r log; rotary_run ops r log
  end.

(** The positions of the shaft at the turns that sample the pins, and at all. *)
Fixpoint due_shaft (next : Z) (ops : list rotary_op) : list Z :=
  match ops with
  | [] => []
  | RotaryPacket _ _ :: ops => due_shaft next ops
  | RotaryTurn t q :: ops => let '(due, next) := jd_should_sample (u32 t) next 900 in if due then q :: due_shaft next ops else due_shaft next ops
  end.
Fixpoint shafts (ops : list rotary_op) : list Z :=
  match ops with [] => [] | RotaryPacket _ _ :: ops => shafts ops | RotaryTurn _ q :: ops => q :: shafts ops end.

(** From one sample to the next the shaft moves by a quarter at most. *)
Fixpoint quarter_steps (lo hi q : Z) (samples : list Z) : Prop :=
  match samples with [] => True | q' :: samples => -1 <= q' - q <= 1 /\ lo <= q' < hi /\ quarter_steps lo hi q' samples end.
Definition no_range_packets (ops : list rotary_op) : Prop :=
  Forall (fun o => match o with RotaryPacket _ pkt => ~ range_cmd (p_service_command pkt) | RotaryTurn _ _ => True end) ops.

(** Turns that are more than 900 microseconds apart are all samples. *)
Fixpoint spaced (t : Z) (ops : list rotary_op) : Prop :=
  match ops with
  | [] => True
  | RotaryPacket _ _ :: ops => spaced t ops
  | RotaryTurn t' _ :: ops => 901 <= t' - t <= 2 ^ 29 /\ spaced t' ops
  end.
Lemma spaced_samples ops : forall t D, t <= D <= t + 900 -> spaced t ops -> due_shaft (u32 D) ops = shafts ops.
Proof.
  induction ops as [|[t' q|t' pkt] ops IH]; intros t D HD Hs; cbn [due_shaft shafts spaced] in *; [done| |by apply (IH t)].
  destruct Hs as [Ht Hs]. rewrite jd_should_sample_at by lia. rewrite Z.geb_leb, (proj2 (Z.leb_gt t' D)) by lia.
  f_equal. apply (IH t'); [|done]. rewrite Z.geb_leb. destruct (Z.leb_spec t' (D + 900)); lia.
Qed.

(** Awake, with the shaft at [q] at the last sample; [base] is where it was
    when the position was zero. *)
Definition tracks (base q : Z) (r : rotary) : Prop :=
  jd_inited (ro_sensor r) = true /\ Z.land (ro_state r) 3 = gray q /\ position r = q - base /\ ro_sample r = rotary_sample (pos_shift r) (q - base).

Lemma gray_land q : Z.land (gray q) 3 = gray q.
Proof. by destruct (gray_cases q) as [k [[_ ->]|[[_ ->]|[[_ ->]|[_ ->]]]]]. Qed.

(** A turn whose sensor has been put to work. *)
Lemma rotary_turn_tracks base q0 t q r (log : list output) : tracks base q0 r ->
  (forall n, jd_should_sample (u32 t) (ro_nextSample r) 900 = (true, n) -> -1 <= q - q0 <= 1 /\ - 2 ^ 31 <= q - base < 2 ^ 31) ->
  let '(due, next) := jd_should_sample (u32 t) (ro_nextSample r) 900 in
  exists r' es, rotary_turn (u32 t) (level0 q) (level1 q) r log = Ret (r', log ++ es) /\ tracks base (if due then q else q0) r' /\
    pos_shift r' = pos_shift r /\ ro_nextSample r' = next.
Proof.
  intros (Hi & Hs & Hp & Hsm) Hq. unfold rotary_turn. destruct (jd_should_sample _ _ _) as [due next]. cbv zeta.
  set (r1 := ro_with_sensor r (ro_sensor r) next). change (jd_inited (ro_sensor r1)) with (jd_inited (ro_sensor r)). rewrite Hi, andb_true_r.
  set (r2 := if due then _ else r1).
  assert (tracks base (if due then q else q0) r2 /\ pos_shift r2 = pos_shift r /\ ro_nextSample r2 = next) as ((H1' & H2' & H3' & H4') & H5' & H6').
  { unfold r2. destruct due; [|by split_and!]. destruct (Hq next eq_refl) as [Hq1 Hq2].
    destruct (update_shaft (u32 t) q0 q r1 Hs Hq1) as (U1 & U2 & U3 & U4 & U5 & U6); [change (position r1) with (position r); lia|].
    change (position r1) with (position r) in U2. split; [|by split]. unfold tracks. rewrite U4, U1, gray_land, U3, U6, U2. split_and!; try done; try lia. do 2 f_equal. lia. }
  clearbody r2. unfold probe. rewrite H1'. set (r3 := ro_with_position r2 _ _ _ _ _).
  destruct (bare_process (u32 t) (le_bytes 4 (ro_sample r3)) (ro_sensor r3) log) as (s & es & -> & _ & _ & Hin). obind.
  eexists _, es. split; [reflexivity|]. split; [|by split]. split; [by apply Hin|done].
Qed.

Lemma rotary_run_tracks ops : forall base q r (log : list output), tracks base q r -> no_range_packets ops ->
  quarter_steps (base - 2 ^ 31) (base + 2 ^ 31) q (due_shaft (ro_nextSample r) ops) ->
  exists r' es, rotary_run ops r log = Ret (r', log ++ es) /\ tracks base (List.last (due_shaft (ro_nextSample r) ops) q) r' /\ pos_shift r' = pos_shift r.
Proof.
  induction ops as [|o ops IH]; intros base q r log Htr Hnr Hsl; cbn [rotary_run]; [exists r, []; by rewrite app_nil_r|].
  apply Forall_cons in Hnr as [Ho Hnr]. destruct o as [t' q'|t' pkt]; cbn [rotary_step due_shaft] in *.
  - pose proof Htr as (Hi & Hrest). unfold rotaryencoder_process, maybe_init.
    assert (exists s1 es1, sensor_maybe_init no_api (ro_sensor r) tt log = Ret (false, s1, tt, log ++ es1) /\ jd_inited s1 = true) as (s1 & es1 & -> & Hi1).
    { destruct (bare_maybe_init (ro_sensor r) log) as (b & s1 & es1 & E & _ & _ & Hb & Hin). destruct b; [destruct (proj1 Hb eq_refl); congruence|].
      exists s1, es1. split; [done|]. by rewrite Hin. }
    obind. set (r1 := ro_with_sensor r s1 (ro_nextSample r)). assert (tracks base q r1) as Htr1 by by split.
    pose proof (rotary_turn_tracks base q t' q' r1 (log ++ es1) Htr1) as Hturn. change (ro_nextSample r1) with (ro_nextSample r) in Hturn.
    destruct (jd_should_sample (u32 t') (ro_nextSample r) 900) as [due next].
    destruct Hturn as (r2 & es & E & Htr2 & Hsh & Hn); [intros n [= -> _]; destruct Hsl as (? & ? & _); lia|]. rewrite E. obind.
    destruct (IH base (if due then q' else q) r2 ((log ++ es1) ++ es) Htr2 Hnr) as (r3 & es3 & E3 & Htr3 & Hsh3); [rewrite Hn; destruct due; [apply Hsl|exact Hsl]|].
    exists r3, (es1 ++ es ++ es3). split; [rewrite E3, !app_assoc; done|]. split; [|rewrite Hsh3; exact Hsh].
    rewrite Hn in Htr3. destruct due; [|exact Htr3]. by rewrite last_cons_default.
  - unfold rotaryencoder_handle_packet. destruct (_ =? _).
    + unfold send_packet, output_sender. obind. destruct (IH base q r (log ++ [Report {| s_index := service_idx (ro_sensor r); s_command := JD_GET JD_ROTARY_ENCODER_REG_CLICKS_PER_TURN; s_data := le_bytes 2 (clicks_per_turn r) |}]) Htr Hnr Hsl) as (r2 & es2 & E2 & Hrest).
      eexists r2, _. rewrite E2, <- app_assoc. by split.
    + destruct (bare_packet (u32 t') pkt (le_bytes 4 (ro_sample r)) (ro_sensor r) log Ho) as (x & s1 & es1 & -> & _ & _ & Hi1). obind.
      assert (tracks base q (ro_with_sensor r s1 (ro_nextSample r))) as Htr1 by (destruct Htr as (Hi & Hrest); split; [cbn; by rewrite Hi1|exact Hrest]).
      destruct (IH base q _ (log ++ es1) Htr1 Hnr Hsl) as (r2 & es2 & E2 & Htr2 & Hsh). exists r2, (es1 ++ es2). rewrite E2, app_assoc. by split.
Qed.

(** The turn that wakes the encoder. *)
Lemma rotary_wake t q r (log : list output) : jd_inited (ro_sensor r) = false -> got_query (ro_sensor r) = true ->
  let '(due, next) := jd_should_sample (u32 t) (ro_nextSample r) 900 in
  exists r' es, rotaryencoder_process (u32 t) (level0 q) (level1 q) r log = Ret (r', log ++ es) /\ tracks q q r' /\
    pos_shift r' = pos_shift r /\ ro_nextSample r' = next.
Proof.
  intros Hi Hg. unfold rotaryencoder_process, maybe_init.
  assert (exists s1 es1, sensor_maybe_init no_api (ro_sensor r) tt log = Ret (true, s1, tt, log ++ es1) /\ jd_inited s1 = true) as (s1 & es1 & -> & Hi1).
  { destruct (bare_maybe_init (ro_sensor r) log) as (b & s1 & es1 & E & _ & _ & Hb & Hin). assert (b = true) as -> by (by apply Hb). exists s1, es1. split; [done|]. by rewrite Hin. }
  obind. cbv zeta. set (r1 := ro_with_position (ro_with_sensor r s1 (ro_nextSample r)) _ _ _ _ _).
  pose proof (wake_update (u32 t) q r1) as (E1 & E2 & E3 & E4). set (r2 := update (u32 t) (level0 q) (level1 q) r1) in *. clearbody r2. set (r3 := ro_with_position r2 _ _ _ _ _).
  assert (tracks q q r3) as Htr.
  { unfold tracks. cbn [r3 ro_with_position ro_sensor ro_state position ro_sample pos_shift]. rewrite E1, E2, gray_land, Z.sub_diag. split_and!; try done.
    unfold rotary_sample. rewrite Z.shiftr_0_l. by destruct (negb _). }
  pose proof (rotary_turn_tracks q q t q r3 (log ++ es1) Htr) as Hturn. change (ro_nextSample r3) with (ro_nextSample r2) in Hturn. rewrite E3 in Hturn.
  change (ro_nextSample r1) with (ro_nextSample r) in Hturn. destruct (jd_should_sample (u32 t) (ro_nextSample r) 900) as [due next].
  destruct Hturn as (r4 & es & E & Htr4 & Hsh & Hn); [intros n _; lia|]. exists r4, (es1 ++ es). split; [by rewrite E, app_assoc|].
  split; [by destruct due|]. split; [|exact Hn]. rewrite Hsh. exact E4.
Qed.

(** C29. The position follows the shaft. Somebody has asked for the encoder, and
    the turn at [t0], with the shaft at [q0], wakes it. Then turns at any times
    and any packets come, except those for the range of readings, which follow
    the missing table of functions. If the shaft moves by a quarter of a click
    at most between the turns that sample the pins (the others are those less
    than 900 microseconds after a sample), the position is the number of
    quarters that the shaft has turned until the last sample, in the direction
    that it has turned, and the reading is that in whole clicks, rounded down,
    or its negation for an inverted encoder. When the turns are more than 900
    microseconds apart, all of them are samples. *)
Theorem rotary_tracks_shaft r t0 q0 ops (log : list output) :
  jd_inited (ro_sensor r) = false -> got_query (ro_sensor r) = true -> no_range_packets ops ->
  let samples := due_shaft (ro_nextSample r) (RotaryTurn t0 q0 :: ops) in
  quarter_steps (q0 - 2 ^ 31) (q0 + 2 ^ 31) q0 samples ->
  exists r' log', rotary_run (RotaryTurn t0 q0 :: ops) r log = Ret (r', log') /\
    position r' = List.last samples q0 - q0 /\ ro_sample r' = rotary_sample (pos_shift r) (List.last samples q0 - q0) /\
    (forall D, ro_nextSample r = u32 D -> D < t0 <= D + 2 ^ 30 -> spaced t0 ops -> samples = q0 :: shafts ops).
Proof.
  intros Hi Hg Hnr samples Hsl. cbn [rotary_run rotary_step]. pose proof (rotary_wake t0 q0 r log Hi Hg) as Hw. unfold samples in *. cbn [due_shaft] in *.
  destruct (jd_should_sample (u32 t0) (ro_nextSample r) 900) as [due next] eqn:Ed. destruct Hw as (r1 & es1 & -> & Htr & Hsh & Hn). obind.
  assert (quarter_steps (q0 - 2 ^ 31) (q0 + 2 ^ 31) q0 (due_shaft next ops)) as Hq by (destruct due; [exact (proj2 (proj2 Hsl))|exact Hsl]). clear Hsl.
  assert (List.last (if due then q0 :: due_shaft next ops else due_shaft next ops) q0 = List.last (due_shaft next ops) q0) as -> by (destruct due; [apply last_cons_default|reflexivity]).
  rewrite <- Hn in Hq |- *. destruct (rotary_run_tracks ops q0 q0 r1 (log ++ es1) Htr Hnr Hq) as (r2 & es2 & E2 & (_ & _ & P2 & S2) & Hsh2).
  exists r2, ((log ++ es1) ++ es2). split; [exact E2|]. split; [exact P2|]. split; [rewrite S2, Hsh2, Hsh; reflexivity|].
  intros D HD Ht Hsp. rewrite HD, jd_should_sample_at in Ed by lia. rewrite Z.geb_leb, (proj2 (Z.leb_gt t0 D)) in Ed by lia. injection Ed as <- Ed. rewrite Hn, <- Ed. f_equal.
  apply (spaced_samples ops t0); [|exact Hsp]. rewrite Z.geb_leb. destruct (Z.leb_spec t0 (D + 900)); lia.
Qed.
End Runs.

#[local] Existing Instances demo_spec demo_sensor_codes.
Definition demo_rotary_codes : RotarySpec := {| JD_ROTARY_ENCODER_REG_CLICKS_PER_TURN := 0x180 |}.
#[local] Existing Instance demo_rotary_codes.

(** Five quarters forward, then nine back, of an inverted encoder; one turn
    comes too early to be a sample. *)
Definition demo_shaft : list rotary_op :=
  map (fun i => RotaryTurn (1000 + 1000 * Z.of_nat i) (7 + Z.of_nat i)) (seq 1 5) ++ [RotaryTurn 6300 13; RotaryPacket 6500 (demo_pkt 0x1180 [])] ++
  map (fun i => RotaryTurn (6000 + 1000 * Z.of_nat i) (12 - Z.of_nat i)) (seq 1 9).
Definition demo_rotary : rotary :=
  let r := rotaryencoder_init [0; 0; 0; 0; 1; 0] 7 8 12 2 in ro_with_sensor r (set_query (ro_sensor r) true) 0.
Lemma rotary_tracks_shaft_witness :
  exists r' log', rotary_run (RotaryTurn 1000 7 :: demo_shaft) demo_rotary [] = Ret (r', log') /\ position r' = -4 /\ ro_sample r' = 1.
Proof.
  destruct (rotary_tracks_shaft demo_rotary 1000 7 demo_shaft []) as (r' & log' & E & Hp & Hs & _); [reflexivity|reflexivity| | |].
  - unfold no_range_packets. repeat constructor. intros [E|[E|E]]; vm_compute in E; congruence.
  - vm_compute. repeat split; congruence.
  - exists r', log'. split; [exact E|]. vm_compute in Hp. vm_compute in Hs. by split.
Defined.
