(* ===== verification/Motor.v ===== *)
(** * The motor service ([services/motor.c])

    An H-bridge driven by two PWM channels: one of them turns the motor one way,
    the other one the other way. Duty is raised in steps and lowered at once.
    [jd_pwm_init] is the port's; what is written to pins, to PWM channels and to
    the power manager is a trace. *)
From Stdlib Require Import String.
From S2P Require Import Prelude Frame Util Iface Registers Dcfg Srvcfg.

Definition PWM_BITS : Z := 9.
Definition SERVO_PERIOD : Z := 512.

(** The generated headers: the registers can be written. *)
Class MotorSpec := {
  JD_MOTOR_REG_SPEED : Z;
  JD_MOTOR_REG_ENABLED : Z;
  motor_rw_codes : 0 < JD_MOTOR_REG_SPEED < 0x100 /\ 0 < JD_MOTOR_REG_ENABLED < 0x100;
}.

Inductive motor_event :=
  | MoPin (pin v : Z)                 (* pin_set *)
  | MoOutput (pin : Z)                (* pin_setup_output *)
  | MoPwmInit (pin : Z)               (* jd_pwm_init(pin, SERVO_PERIOD, 0, cpu_mhz / 16) *)
  | MoDuty (pwm v : Z)                (* jd_pwm_set_duty *)
  | MoPwm (pwm : Z) (on : bool)       (* jd_pwm_enable *)
  | MoTim (enter : bool).             (* pwr_enter_tim, pwr_leave_tim *)

(** [channel_t] *)
Record mchannel := { mc_pin : Z; pwm_pin : Z; target_duty : Z; current_duty : Z }.
(** [struct srv_state] *)
Record motor := {
  mo_common : list Z;
  value : Z;                          (* int16_t *)
  intensity : Z;
  pin_en : Z;
  is_on : Z;
  ch1 : mchannel;
  ch2 : mchannel;
  duty_step_sample : Z;
  mo_trace : list motor_event;
}.
Definition mo_with_regs (m : motor) (v i : Z) : motor :=
  {| mo_common := mo_common m; value := v; intensity := i; pin_en := pin_en m; is_on := is_on m; ch1 := ch1 m; ch2 := ch2 m;
     duty_step_sample := duty_step_sample m; mo_trace := mo_trace m |}.
Definition mo_with_channels (m : motor) (on : Z) (a b : mchannel) (next : Z) (es : list motor_event) : motor :=
  {| mo_common := mo_common m; value := value m; intensity := intensity m; pin_en := pin_en m; is_on := on; ch1 := a; ch2 := b;
     duty_step_sample := next; mo_trace := mo_trace m ++ es |}.

Definition disable_ch (ch : mchannel) : list motor_event * mchannel :=
  ([MoPin (mc_pin ch) 0] ++ (if negb (pwm_pin ch =? 0) then [MoDuty (pwm_pin ch) 0; MoPwm (pwm_pin ch) false] else []),
   {| mc_pin := mc_pin ch; pwm_pin := pwm_pin ch; target_duty := 0; current_duty := 0 |}).

Definition set_target (ch : mchannel) (v : Z) : mchannel :=
  {| mc_pin := mc_pin ch; pwm_pin := pwm_pin ch; target_duty := v; current_duty := current_duty ch |}.
Definition set_current (ch : mchannel) (v : Z) : mchannel :=
  {| mc_pin := mc_pin ch; pwm_pin := pwm_pin ch; target_duty := target_duty ch; current_duty := v |}.

Definition duty_step (ch : mchannel) : list motor_event * mchannel :=
  if target_duty ch =? current_duty ch then ([], ch)
  else
    let ch := if target_duty ch >? current_duty ch then set_current ch (u16 (current_duty ch + SERVO_PERIOD / 32)) else ch in
    let ch := if target_duty ch <? current_duty ch then set_current ch (target_duty ch) else ch in
    ([MoDuty (pwm_pin ch) (current_duty ch)], ch).

Definition motor_process (now : Z) (m : motor) : motor :=
  let '(due, next) := jd_should_sample now (duty_step_sample m) 9000 in
  if due then
    let '(e1, c1) := duty_step (ch1 m) in
    let '(e2, c2) := duty_step (ch2 m) in
    mo_with_channels m (is_on m) c1 c2 next (e1 ++ e2)
  else mo_with_channels m (is_on m) (ch1 m) (ch2 m) next [].

Definition pwm_value (v : Z) : Z :=
  let v := Z.shiftr v (15 - PWM_BITS) in
  if v >=? Z.shiftl 1 PWM_BITS then Z.shiftl 1 PWM_BITS - 1 else v.

Definition motor_regs `{MotorSpec} : list Z :=
  REG_SRV_COMMON ++ [JD_REG_ 2 JD_MOTOR_REG_SPEED; JD_REG_ 1 JD_MOTOR_REG_ENABLED; JD_REG_END].
Definition motor_encode (m : motor) : list Z := mo_common m ++ le_bytes 2 (value m) ++ [intensity m].
Definition motor_decode (m : motor) (b : list Z) : motor := mo_with_regs m (s16 (get16 b 6)) (get8 b 8).

Section Motor.
Context `{JdSpec} `{MotorSpec} {T : Type} `{Sender T} (jd_pwm_init : Z -> Z).

Definition enable_ch (ch : mchannel) : list motor_event * mchannel :=
  let init := pwm_pin ch =? 0 in
  let ch := if init then {| mc_pin := mc_pin ch; pwm_pin := jd_pwm_init (mc_pin ch); target_duty := target_duty ch; current_duty := current_duty ch |} else ch in
  ((if init then [MoPwmInit (mc_pin ch)] else []) ++ [MoPwm (pwm_pin ch) true], ch).

Definition set_pwr (on : Z) (m : motor) : motor :=
  if is_on m =? on then m
  else
    let '(e1, c1) := disable_ch (ch1 m) in
    let '(e2, c2) := disable_ch (ch2 m) in
    if negb (on =? 0) then
      let '(e3, c1) := enable_ch c1 in
      let '(e4, c2) := enable_ch c2 in
      mo_with_channels m on c1 c2 (duty_step_sample m) (e1 ++ e2 ++ [MoTim true] ++ e3 ++ e4 ++ [MoPin (pin_en m) 1])
    else mo_with_channels m on c1 c2 (duty_step_sample m) (e1 ++ e2 ++ [MoPin (pin_en m) 0; MoTim false]).

(** What follows when a register was read or written. *)
Definition motor_apply (m : motor) : motor :=
  let m := set_pwr (zbool (negb (intensity m =? 0))) m in
  if negb (is_on m =? 0) then
    let '(a, b) := if value m <? 0 then (0, pwm_value (- value m)) else (pwm_value (value m), 0) in
    mo_with_channels m (is_on m) (set_target (ch1 m) (u16 a)) (set_target (ch2 m) (u16 b)) (duty_step_sample m) []
  else m.

Definition motor_handle_packet (pkt : list Z) (m : motor) (tx : T) : outcome (motor * T) :=
  '(r, b, tx) ← service_handle_register_final (motor_encode m) pkt motor_regs tx;
  let m := motor_decode m b in
  Ret (if negb (r =? 0) then motor_apply m else m, tx).

Definition motor_init (common : list Z) (p1 p2 nsleep : Z) : motor :=
  let ch p := {| mc_pin := p; pwm_pin := 0; target_duty := 0; current_duty := 0 |} in
  {| mo_common := common; value := 0; intensity := 0; pin_en := nsleep; is_on := 0; ch1 := ch p1; ch2 := ch p2; duty_step_sample := 0;
     mo_trace := [MoOutput nsleep; MoOutput p1; MoOutput p2] |}.

Definition motor_config {A} (base : Dcfg.config) (in_irq : bool) (common : list Z) (st : srvcfg A) : outcome (motor * srvcfg A) :=
  '(p1, st) ← jd_srvcfg_pin base in_irq st (chars "pin1");
  '(p2, st) ← jd_srvcfg_pin base in_irq st (chars "pin2");
  '(en, st) ← jd_srvcfg_pin base in_irq st (chars "pinEnable");
  Ret (motor_init common p1 p2 en, st).
End Motor.

(** ** What the pins and the PWM channels show *)

Definition duty_shown (tr : list motor_event) (pwm : Z) : Z :=
  fold_left (fun v e => match e with MoDuty p x => if p =? pwm then x else v | _ => v end) tr 0.
Definition tim_locks (tr : list motor_event) : Z :=
  fold_left (fun n e => match e with MoTim true => n + 1 | MoTim false => n - 1 | _ => n end) tr 0.
(** Duties that are set in [es]. *)
Definition sets_duty (pwm : Z) (e : motor_event) : bool := match e with MoDuty p _ => p =? pwm | _ => false end.
Definition locks (e : motor_event) : bool := match e with MoTim _ => true | _ => false end.

Lemma duty_shown_kept tr es pwm : forallb (fun e => negb (sets_duty pwm e)) es = true -> duty_shown (tr ++ es) pwm = duty_shown tr pwm.
Proof.
  unfold duty_shown. rewrite fold_left_app. generalize (fold_left (fun v e => match e with MoDuty p x => if p =? pwm then x else v | _ => v end) tr 0).
  induction es as [|e es IH]; intros v He; [done|]. cbn [forallb] in He. apply andb_true_iff in He as [H1 H2]. cbn [fold_left].
  destruct e; cbn [sets_duty negb] in *; try (by apply IH). apply negb_true_iff in H1. rewrite H1. by apply IH.
Qed.
Lemma duty_shown_set tr pwm v : duty_shown (tr ++ [MoDuty pwm v]) pwm = v.
Proof. unfold duty_shown. rewrite fold_left_app. cbn. by rewrite Z.eqb_refl. Qed.
Lemma tim_locks_kept tr es : forallb (fun e => negb (locks e)) es = true -> tim_locks (tr ++ es) = tim_locks tr.
Proof.
  unfold tim_locks. rewrite fold_left_app. generalize (fold_left (fun n e => match e with MoTim true => n + 1 | MoTim false => n - 1 | _ => n end) tr 0).
  induction es as [|e es IH]; intros v He; [done|]. cbn [forallb] in He. apply andb_true_iff in He as [H1 H2]. cbn [fold_left].
  destruct e; cbn [locks negb] in *; done || by apply IH.
Qed.

Section Safe.
Context (jd_pwm_init : Z -> Z).

(** The pins of the bridge. *)
Context (p1 p2 : Z).

(** A channel and what its PWM shows. *)
Definition channel_ok (tr : list motor_event) (ch : mchannel) : Prop :=
  (pwm_pin ch = 0 /\ current_duty ch = 0 /\ target_duty ch = 0 \/ pwm_pin ch = jd_pwm_init (mc_pin ch)) /\
  duty_shown tr (jd_pwm_init (mc_pin ch)) = current_duty ch /\ 0 <= current_duty ch < 512 /\ 0 <= target_duty ch < 512.
Definition motor_inv (m : motor) : Prop :=
  channel_ok (mo_trace m) (ch1 m) /\ channel_ok (mo_trace m) (ch2 m) /\
  (current_duty (ch1 m) = 0 \/ current_duty (ch2 m) = 0) /\ (target_duty (ch1 m) = 0 \/ target_duty (ch2 m) = 0) /\
  (is_on m = 0 /\ target_duty (ch1 m) = 0 /\ target_duty (ch2 m) = 0 /\ current_duty (ch1 m) = 0 /\ current_duty (ch2 m) = 0 \/
   is_on m = 1 /\ pwm_pin (ch1 m) = jd_pwm_init (mc_pin (ch1 m)) /\ pwm_pin (ch2 m) = jd_pwm_init (mc_pin (ch2 m))) /\
  tim_locks (mo_trace m) = is_on m.
Definition wired (m : motor) : Prop :=
  mc_pin (ch1 m) = p1 /\ mc_pin (ch2 m) = p2 /\
  jd_pwm_init (mc_pin (ch1 m)) <> 0 /\ jd_pwm_init (mc_pin (ch2 m)) <> 0 /\ jd_pwm_init (mc_pin (ch1 m)) <> jd_pwm_init (mc_pin (ch2 m)).

(** One step moves the duty towards the target: up by a 32nd of the range at
    most, down at once. *)
Lemma duty_step_spec ch : 0 <= current_duty ch < 512 -> 0 <= target_duty ch < 512 ->
  let '(es, ch') := duty_step ch in
  mc_pin ch' = mc_pin ch /\ pwm_pin ch' = pwm_pin ch /\ target_duty ch' = target_duty ch /\
  current_duty ch' = Z.min (target_duty ch) (current_duty ch + 16) /\
  (es = [] /\ current_duty ch' = current_duty ch \/ es = [MoDuty (pwm_pin ch) (current_duty ch')] /\ target_duty ch <> current_duty ch).
Proof.
  intros Hc Ht. unfold duty_step. change (SERVO_PERIOD / 32) with 16. destruct (Z.eqb_spec (target_duty ch) (current_duty ch)) as [E|E].
  { split_and!; try done; [lia|by left]. }
  rewrite Z.gtb_ltb. assert (u16 (current_duty ch + 16) = current_duty ch + 16) as Eu by (unfold u16; apply Z.mod_small; lia).
  destruct (Z.ltb_spec (current_duty ch) (target_duty ch)); cbn [target_duty current_duty set_current]; rewrite ?Eu;
    case_cmp; cbn [mc_pin pwm_pin target_duty current_duty set_current]; split_and!; try done; try lia; right; done.
Qed.

Lemma channel_kept tr es ch : forallb (fun e => negb (sets_duty (jd_pwm_init (mc_pin ch)) e)) es = true -> channel_ok tr ch -> channel_ok (tr ++ es) ch.
Proof. intros He (H1 & H2 & H3). split; [done|]. split; [by rewrite duty_shown_kept|done]. Qed.

Lemma duty_step_ok tr ch : channel_ok tr ch -> let '(es, ch') := duty_step ch in
  channel_ok (tr ++ es) ch' /\ mc_pin ch' = mc_pin ch /\ pwm_pin ch' = pwm_pin ch /\ target_duty ch' = target_duty ch /\
  current_duty ch' = Z.min (target_duty ch) (current_duty ch + 16) /\ forallb (fun e => negb (locks e)) es = true /\
  (forall p, p <> jd_pwm_init (mc_pin ch) -> forallb (fun e => negb (sets_duty p e)) es = true).
Proof.
  intros (Hp & Hs & Hc & Ht). pose proof (duty_step_spec ch Hc Ht) as Hd. destruct (duty_step ch) as [es ch']. destruct Hd as (E1 & E2 & E3 & E4 & Hes).
  assert (channel_ok (tr ++ es) ch' /\ forallb (fun e => negb (locks e)) es = true /\ (forall p, p <> jd_pwm_init (mc_pin ch) -> forallb (fun e => negb (sets_duty p e)) es = true)) as (H1 & H2 & H3).
  { unfold channel_ok. rewrite E1, E2, E3. destruct Hes as [[-> Ec]|[-> Hne]].
    - rewrite app_nil_r, Ec. split; [|done]. split; [done|]. split; [done|lia].
    - destruct Hp as [(_ & Hc0 & Ht0)|Hp]; [congruence|]. split; [split; [by right|]; split; [rewrite <- Hp; apply duty_shown_set|lia]|]. split; [done|].
      intros p Hne2. cbn. rewrite Hp, (proj2 (Z.eqb_neq _ _)) by congruence. done. }
  done.
Qed.

Lemma motor_process_inv now m : wired m -> motor_inv m -> motor_inv (motor_process now m) /\ wired (motor_process now m) /\
  current_duty (ch1 (motor_process now m)) <= current_duty (ch1 m) + 16 /\ current_duty (ch2 (motor_process now m)) <= current_duty (ch2 m) + 16.
Proof.
  intros (Wp1 & Wp2 & W1 & W2 & W3) (H1 & H2 & Hc & Ht & Hon & Hl). unfold motor_process. destruct (jd_should_sample _ _ _) as [due next]. destruct due.
  2:{ unfold motor_inv, wired. cbn [mo_with_channels mo_trace ch1 ch2 is_on]. rewrite app_nil_r. split_and!; done || lia. }
  pose proof (duty_step_ok (mo_trace m) (ch1 m) H1) as D1. destruct (duty_step (ch1 m)) as [e1 c1]. destruct D1 as (A1 & A2 & A3 & A4 & A5 & A6 & A7).
  pose proof (duty_step_ok (mo_trace m ++ e1) (ch2 m) (channel_kept _ _ _ (A7 _ (not_eq_sym W3)) H2)) as D2. destruct (duty_step (ch2 m)) as [e2 c2]. destruct D2 as (B1 & B2 & B3 & B4 & B5 & B6 & B7).
  assert (channel_ok (mo_trace m ++ e1 ++ e2) c1) as A1'.
  { rewrite app_assoc. apply channel_kept; [|done]. apply B7. by rewrite A2. }
  rewrite <- app_assoc in B1. unfold motor_inv, wired. cbn [mo_with_channels mo_trace ch1 ch2 is_on]. rewrite A2, B2, A3, B3, A4, B4, A5, B5.
  assert (tim_locks (mo_trace m ++ e1 ++ e2) = is_on m) as -> by (rewrite tim_locks_kept; [done|]; by rewrite forallb_app, A6, B6).
  destruct H1 as (_ & _ & R1 & R2), H2 as (_ & _ & R3 & R4).
  split_and!; try done; try lia.
Qed.

(** A channel whose power is switched off. *)
Lemma disable_ch_ok tr ch : jd_pwm_init (mc_pin ch) <> 0 -> channel_ok tr ch -> let '(es, ch') := disable_ch ch in
  channel_ok (tr ++ es) ch' /\ mc_pin ch' = mc_pin ch /\ pwm_pin ch' = pwm_pin ch /\ target_duty ch' = 0 /\ current_duty ch' = 0 /\
  forallb (fun e => negb (locks e)) es = true /\
  (forall p, p <> jd_pwm_init (mc_pin ch) -> forallb (fun e => negb (sets_duty p e)) es = true).
Proof.
  intros Hw (Hp & Hs & Hc & Ht). unfold disable_ch, channel_ok. cbn [mc_pin pwm_pin target_duty current_duty].
  destruct (Z.eqb_spec (pwm_pin ch) 0) as [E|E]; cbn [negb app].
  - destruct Hp as [(_ & Hc0 & Ht0)|Hp]; [|congruence].
    split; [split; [by left|split; [rewrite duty_shown_kept by done; congruence|lia]]|]. by do 5 (split; [done|]).
  - destruct Hp as [(? & _)|Hp]; [done|].
    split; [split; [by right|split; [|lia]]|].
    + change [MoPin (mc_pin ch) 0; MoDuty (pwm_pin ch) 0; MoPwm (pwm_pin ch) false] with ([MoPin (mc_pin ch) 0] ++ [MoDuty (pwm_pin ch) 0] ++ [MoPwm (pwm_pin ch) false]).
      rewrite !app_assoc, duty_shown_kept by done. rewrite <- Hp. apply duty_shown_set.
    + do 5 (split; [done|]). intros p Hne. cbn. rewrite Hp, (proj2 (Z.eqb_neq _ _)) by congruence. done.
Qed.

Lemma enable_ch_ok tr ch : channel_ok tr ch -> let '(es, ch') := enable_ch jd_pwm_init ch in
  channel_ok (tr ++ es) ch' /\ mc_pin ch' = mc_pin ch /\ pwm_pin ch' = jd_pwm_init (mc_pin ch) /\ target_duty ch' = target_duty ch /\ current_duty ch' = current_duty ch /\
  forallb (fun e => negb (locks e)) es = true /\ (forall p, forallb (fun e => negb (sets_duty p e)) es = true).
Proof.
  intros (Hp & Hs & Hc & Ht). unfold enable_ch, channel_ok. destruct (Z.eqb_spec (pwm_pin ch) 0) as [E|E]; cbn [mc_pin pwm_pin target_duty current_duty app].
  - rewrite duty_shown_kept by done. split; [split; [by right|done]|]. done.
  - destruct Hp as [(? & _)|Hp]; [done|]. rewrite duty_shown_kept by done. split; [split; [by right|done]|]. done.
Qed.

Definition zb (x : Z) : Prop := x = 0 \/ x = 1.

Lemma set_pwr_inv on m : zb on -> wired m -> motor_inv m -> motor_inv (set_pwr jd_pwm_init on m) /\ wired (set_pwr jd_pwm_init on m) /\
  is_on (set_pwr jd_pwm_init on m) = on /\ value (set_pwr jd_pwm_init on m) = value m.
Proof.
  intros Hon W Hinv. pose proof Hinv as (H1 & H2 & Hc & Ht & Hi & Hl). pose proof W as (Wp1 & Wp2 & W1 & W2 & W3). unfold set_pwr. destruct (Z.eqb_spec (is_on m) on) as [E|E]; [done|].
  pose proof (disable_ch_ok (mo_trace m) (ch1 m) W1 H1) as D1. destruct (disable_ch (ch1 m)) as [e1 c1]. destruct D1 as (A1 & A2 & A3 & A4 & A5 & A6 & A7).
  pose proof (disable_ch_ok (mo_trace m ++ e1) (ch2 m) W2 (channel_kept _ _ _ (A7 _ (not_eq_sym W3)) H2)) as D2. destruct (disable_ch (ch2 m)) as [e2 c2].
  destruct D2 as (B1 & B2 & B3 & B4 & B5 & B6 & B7).
  assert (channel_ok ((mo_trace m ++ e1) ++ e2) c1) as A1' by (apply channel_kept; [rewrite A2; by apply B7|done]).
  destruct Hon as [-> | ->]; cbn [Z.eqb negb].
  - unfold motor_inv, wired. cbn [mo_with_channels mo_trace ch1 ch2 is_on value]. rewrite A2, B2, A4, B4, A5, B5, !app_assoc.
    split; [|done]. split; [by apply channel_kept|]. split; [by apply channel_kept|]. split; [by left|]. split; [by left|]. split; [by left|].
    change [MoPin (pin_en m) 0; MoTim false] with ([MoPin (pin_en m) 0] ++ [MoTim false]). rewrite app_assoc. unfold tim_locks at 1. rewrite fold_left_app. cbn [fold_left].
    fold (tim_locks (((mo_trace m ++ e1) ++ e2) ++ [MoPin (pin_en m) 0])). rewrite !tim_locks_kept, Hl by done. destruct Hi as [(? & _)|(? & _)]; [congruence|lia].
  - pose proof (enable_ch_ok (((mo_trace m ++ e1) ++ e2) ++ [MoTim true]) c1 (channel_kept _ [MoTim true] _ eq_refl A1')) as D3. destruct (enable_ch jd_pwm_init c1) as [e3 c3].
    destruct D3 as (C1 & C2 & C3 & C4 & C5 & C6 & C7). rewrite A2 in C3.
    pose proof (enable_ch_ok ((((mo_trace m ++ e1) ++ e2) ++ [MoTim true]) ++ e3) c2 (channel_kept _ _ _ (C7 _) (channel_kept _ [MoTim true] _ eq_refl B1))) as D4.
    destruct (enable_ch jd_pwm_init c2) as [e4 c4]. destruct D4 as (F1 & F2 & F3 & F4 & F5 & F6 & F7). rewrite B2 in F3.
    unfold motor_inv, wired. cbn [mo_with_channels mo_trace ch1 ch2 is_on value]. rewrite F2, C2, A2, B2, C3, F3, F4, C4, F5, C5, A4, B4, A5, B5.
    replace (mo_trace m ++ e1 ++ e2 ++ [MoTim true] ++ e3 ++ e4 ++ [MoPin (pin_en m) 1]) with (((((((mo_trace m ++ e1) ++ e2) ++ [MoTim true]) ++ e3) ++ e4) ++ [MoPin (pin_en m) 1])) by (by rewrite <- !app_assoc).
    split; [|done]. split; [apply channel_kept; [done|]; by apply channel_kept|]. split; [by apply channel_kept|]. split; [by left|]. split; [by left|]. split; [by right|].
    rewrite (tim_locks_kept _ [MoPin _ _]), (tim_locks_kept _ e4), (tim_locks_kept _ e3) by done. unfold tim_locks at 1. rewrite fold_left_app. cbn [fold_left].
    fold (tim_locks ((mo_trace m ++ e1) ++ e2)). rewrite !tim_locks_kept, Hl by done. destruct Hi as [(? & _)|(? & _)]; [lia|congruence].
Qed.

Lemma pwm_value_range v : 0 <= v <= 32768 -> 0 <= pwm_value v < 512.
Proof.
  intros Hv. unfold pwm_value, PWM_BITS. rewrite Z.shiftr_div_pow2 by lia. change (2 ^ (15 - 9)) with 64. change (Z.shiftl 1 9) with 512.
  rewrite Z.geb_leb. destruct (Z.leb_spec 512 (v / 64)); [lia|]. split; [apply Z.div_pos; lia|lia].
Qed.

Lemma motor_apply_inv m : - 2 ^ 15 <= value m < 2 ^ 15 -> wired m -> motor_inv m -> motor_inv (motor_apply jd_pwm_init m) /\ wired (motor_apply jd_pwm_init m).
Proof.
  intros Hv W Hi. unfold motor_apply. assert (zb (zbool (negb (intensity m =? 0)))) as Hz by (destruct (intensity m =? 0); [by left|by right]).
  destruct (set_pwr_inv _ m Hz W Hi) as (Hi1 & W1 & Eon & Ev).
  set (m1 := set_pwr jd_pwm_init _ m) in *. clearbody m1. destruct (Z.eqb_spec (is_on m1) 0) as [E0|E0]; cbn [negb]; [done|].
  rewrite Ev. destruct Hi1 as (H1 & H2 & Hc & Ht & Hon & Hl). set (ab := if value m <? 0 then _ else _).
  assert (0 <= fst ab < 512 /\ 0 <= snd ab < 512 /\ (fst ab = 0 \/ snd ab = 0)) as (R1 & R2 & R3).
  { unfold ab. destruct (Z.ltb_spec (value m) 0); cbn [fst snd]; (split; [|split]); try lia; apply pwm_value_range; lia. }
  destruct ab as [a b]. cbn [fst snd] in *. split; [|exact W1].
  unfold motor_inv, channel_ok. cbn [mo_with_channels mo_trace ch1 ch2 is_on mc_pin pwm_pin target_duty current_duty set_target]. rewrite app_nil_r.
  assert (u16 a = a) as -> by (unfold u16; apply Z.mod_small; lia). assert (u16 b = b) as -> by (unfold u16; apply Z.mod_small; lia).
  destruct Hon as [(? & _)|(O1 & O2 & O3)]; [congruence|].
  destruct H1 as (_ & P1 & P2 & _), H2 as (_ & Q1 & Q2 & _). split; [split; [by right|done]|]. split; [split; [by right|done]|]. split; [done|]. split; [done|]. split; [by right|done].
Qed.

End Safe.

(** ** Runs *)

Inductive motor_op := MotorTurn (now : Z) | MotorPacket (pkt : list Z).

Section Runs.
Context `{JdSpec} `{MotorSpec} (jd_pwm_init : Z -> Z) (p1 p2 : Z).

Definition motor_step (o : motor_op) (m : motor) (log : list output) : outcome (motor * list output) :=
  match o with
  | MotorTurn now => Ret (motor_process now m, log)
  | MotorPacket pkt => motor_handle_packet jd_pwm_init pkt m log
  end.
Fixpoint motor_run (ops : list motor_op) (m : motor) (log : list output) : outcome (motor * list output) :=
  match ops with
  | [] => Ret (m, log)
  | o :: ops => '(m, log) ← motor_step o m log; motor_run ops m log
  end.

Definition motor_layout : list reg_entry :=
  [{| re_reg := JD_REG_PADDING; re_tp := JD_REG_BYTES; re_off := 0; re_bit := 0; re_size := 6 |};
   {| re_reg := JD_MOTOR_REG_SPEED; re_tp := 2; re_off := 6; re_bit := 0; re_size := 2 |};
   {| re_reg := JD_MOTOR_REG_ENABLED; re_tp := 1; re_off := 8; re_bit := 0; re_size := 1 |}].
Lemma motor_layout_ok : layout motor_regs 0 0 = Some motor_layout.
Proof.
  destruct motor_rw_codes as [Hs He]. unfold motor_regs, REG_SRV_COMMON. cbn [app].
  transitivity (es ← layout [JD_REG_ 2 JD_MOTOR_REG_SPEED; JD_REG_ 1 JD_MOTOR_REG_ENABLED; JD_REG_END] 6 0;
    Some (hd {| re_reg := 0; re_tp := 0; re_off := 0; re_bit := 0; re_size := 0 |} motor_layout :: es)); [reflexivity|].
  rewrite (layout_plain 2 _ _ 6 0 6 2), (layout_plain 1 _ _ 8 0 8 1) by (reflexivity || lia). reflexivity.
Qed.

Lemma motor_step_inv o m (log : list output) : wired jd_pwm_init p1 p2 m -> motor_inv jd_pwm_init m ->
  exists m' log', motor_step o m log = Ret (m', log') /\ wired jd_pwm_init p1 p2 m' /\ motor_inv jd_pwm_init m'.
Proof.
  intros W Hi. destruct o as [now|pkt]; cbn [motor_step].
  - destruct (motor_process_inv jd_pwm_init p1 p2 now m W Hi) as (H1 & H2 & _). by exists (motor_process now m), log.
  - unfold motor_handle_packet. destruct (register_final_total (motor_encode m) pkt motor_regs _ log motor_layout_ok) as (r & b & rs & E). rewrite E. obind.
    set (m1 := motor_decode m b). assert (wired jd_pwm_init p1 p2 m1 /\ motor_inv jd_pwm_init m1) as [W1 Hi1] by (split; [exact W|exact Hi]).
    destruct (negb _); [|by eexists m1, _]. destruct (motor_apply_inv jd_pwm_init p1 p2 m1) as [Hi2 W2]; [apply s16_range|done|done|]. by eexists (motor_apply jd_pwm_init m1), _.
Qed.

Lemma motor_run_inv ops : forall m (log : list output), wired jd_pwm_init p1 p2 m -> motor_inv jd_pwm_init m ->
  exists m' log', motor_run ops m log = Ret (m', log') /\ wired jd_pwm_init p1 p2 m' /\ motor_inv jd_pwm_init m'.
Proof.
  induction ops as [|o ops IH]; intros m log W Hi; cbn [motor_run]; [by exists m, log|].
  destruct (motor_step_inv o m log W Hi) as (m1 & log1 & -> & W1 & Hi1). obind. by apply IH.
Qed.

(** C28. The bridge is driven from one side at a time. Whatever packets and
    turns follow the start, the handlers return, and after each call: at most
    one of the two PWM channels shows a duty other than zero, the duties that
    the channels show are those of the state and below the period, a motor that
    is switched off shows none, and the lock on the timers of the power manager
    is held exactly while the motor is on. (Within the turn that reverses the
    motor both are driven for a moment when it is the first channel that takes
    over.) *)
Theorem motor_one_side common nsleep ops :
  jd_pwm_init p1 <> 0 -> jd_pwm_init p2 <> 0 -> jd_pwm_init p1 <> jd_pwm_init p2 ->
  exists m log, motor_run ops (motor_init common p1 p2 nsleep) [] = Ret (m, log) /\
    let d1 := duty_shown (mo_trace m) (jd_pwm_init p1) in let d2 := duty_shown (mo_trace m) (jd_pwm_init p2) in
    (d1 = 0 \/ d2 = 0) /\ 0 <= d1 < SERVO_PERIOD /\ 0 <= d2 < SERVO_PERIOD /\ d1 = current_duty (ch1 m) /\ d2 = current_duty (ch2 m) /\
    (is_on m = 0 -> d1 = 0 /\ d2 = 0) /\ tim_locks (mo_trace m) = is_on m /\ (is_on m = 0 \/ is_on m = 1).
Proof.
  intros H1 H2 H3. set (m0 := motor_init common p1 p2 nsleep).
  assert (motor_inv jd_pwm_init m0) as Hi0.
  { unfold motor_inv, channel_ok, m0, motor_init. cbn. split_and!; try lia; by left. }
  destruct (motor_run_inv ops m0 [] (conj eq_refl (conj eq_refl (conj H1 (conj H2 H3)))) Hi0) as (m & log & E & (E1 & E2 & _) & (C1 & C2 & Hc & _ & Hon & Hl)).
  exists m, log. split; [exact E|]. destruct C1 as (_ & D1 & R1 & _), C2 as (_ & D2 & R2 & _). rewrite E1 in D1. rewrite E2 in D2. rewrite D1, D2.
  change SERVO_PERIOD with 512. split; [done|]. split; [done|]. split; [done|]. split; [done|]. split; [done|]. split; [|split; [done|]].
  - intros E0. destruct Hon as [(_ & _ & _ & ? & ?)|(? & _)]; [done|congruence].
  - destruct Hon as [(? & _)|(? & _)]; [by left|by right].
Qed.
End Runs.

(** ** The theorem at a concrete input *)

#[local] Existing Instance demo_spec.
Definition demo_motor_codes : MotorSpec.
Proof. refine {| JD_MOTOR_REG_SPEED := 0x2; JD_MOTOR_REG_ENABLED := 0x1 |}. done. Defined.
#[local] Existing Instance demo_motor_codes.

(** Full speed one way, then the other way. *)
Definition demo_motor_ops : list motor_op :=
  [MotorPacket (demo_pkt 0x2002 [0xff; 0x7f]); MotorPacket (demo_pkt 0x2001 [1])] ++ map (fun i => MotorTurn (10000 * Z.of_nat i)) (seq 1 40) ++
  [MotorPacket (demo_pkt 0x2002 [0x00; 0x80])] ++ map (fun i => MotorTurn (10000 * Z.of_nat i)) (seq 41 3).
Lemma motor_one_side_witness :
  exists m log, motor_run (fun p => p + 1) demo_motor_ops (motor_init [0; 0; 0; 0; 1; 0] 4 5 6) [] = Ret (m, log) /\
    duty_shown (mo_trace m) 5 = 0 /\ duty_shown (mo_trace m) 6 = 48 /\ tim_locks (mo_trace m) = 1 /\ 0 <= duty_shown (mo_trace m) 6 < SERVO_PERIOD.
Proof.
  destruct (motor_one_side (fun p => p + 1) 4 5 [0; 0; 0; 0; 1; 0] 6 demo_motor_ops) as (m & log & E & _ & _ & R & _); [lia|lia|lia|].
  exists m, log. split; [exact E|]. split; [|split; [|split; [|exact R]]]; vm_compute in E; injection E as <- _; reflexivity.
Defined.
