(* ===== verification/Servo.v ===== *)
(** * The servo service ([services/servo.c])

    The angle and the limits are registers; whenever one is written the limits
    are cut, the angle is brought between them and the length of the pulse is
    computed. [jd_pwm_init] is the port's; what is written to pins, the PWM
    channel and the power manager is a trace. *)
From Stdlib Require Import String.
From S2P Require Import Prelude Frame Util Iface Registers Dcfg Srvcfg.

Definition SERVO_PERIOD : Z := 20000.

(** The generated header: registers that can be written, with numbers of their
    own. *)
Class ServoSpec := {
  JD_SERVO_REG_ANGLE : Z;
  JD_SERVO_REG_OFFSET : Z;
  JD_SERVO_REG_MIN_ANGLE : Z;
  JD_SERVO_REG_MAX_ANGLE : Z;
  JD_SERVO_REG_MIN_PULSE : Z;
  JD_SERVO_REG_MAX_PULSE : Z;
  JD_SERVO_REG_ENABLED : Z;
  servo_codes : Forall (fun r => 0 < r < 0xf00) [JD_SERVO_REG_ANGLE; JD_SERVO_REG_OFFSET; JD_SERVO_REG_MIN_ANGLE; JD_SERVO_REG_MAX_ANGLE;
                                                JD_SERVO_REG_MIN_PULSE; JD_SERVO_REG_MAX_PULSE; JD_SERVO_REG_ENABLED];
}.

Inductive servo_event :=
  | SvOutput (pin : Z) | SvInput (pin : Z) | SvPin (pin v : Z)
  | SvPll (enter : bool)              (* pwr_enter_pll, pwr_leave_pll *)
  | SvPwmInit (pin : Z)               (* jd_pwm_init(pin, SERVO_PERIOD, 0, cpu_mhz) *)
  | SvPwm (pwm : Z) (on : bool)
  | SvDuty (pwm v : Z)
  | SvPower (on : Z).                 (* jd_power_enable *)

(** [servo_params_t] *)
Record servo_params := { sv_pin : Z; fixed : Z; power_pin : Z; min_angle : Z; max_angle : Z; min_pulse : Z; max_pulse : Z }.
(** [struct srv_state]; [params0] is what the pointer points to. *)
Record servo := {
  sv_common : list Z;
  angle : Z;                          (* int32_t *)
  sv_offset : Z;                      (* int32_t *)
  params : servo_params;
  sv_intensity : Z;
  sv_pwm_pin : Z;
  sv_is_on : Z;
  params0 : servo_params;
  pulse : Z;                          (* uint32_t *)
  sv_trace : list servo_event;
}.
Definition sv_with_regs (s : servo) (a o : Z) (p : servo_params) (i : Z) : servo :=
  {| sv_common := sv_common s; angle := a; sv_offset := o; params := p; sv_intensity := i; sv_pwm_pin := sv_pwm_pin s; sv_is_on := sv_is_on s;
     params0 := params0 s; pulse := pulse s; sv_trace := sv_trace s |}.
Definition sv_with_power (s : servo) (pwm on : Z) (es : list servo_event) : servo :=
  {| sv_common := sv_common s; angle := angle s; sv_offset := sv_offset s; params := params s; sv_intensity := sv_intensity s; sv_pwm_pin := pwm;
     sv_is_on := on; params0 := params0 s; pulse := pulse s; sv_trace := sv_trace s ++ es |}.
Definition sv_with_pulse (s : servo) (v : Z) : servo :=
  {| sv_common := sv_common s; angle := angle s; sv_offset := sv_offset s; params := params s; sv_intensity := sv_intensity s; sv_pwm_pin := sv_pwm_pin s;
     sv_is_on := sv_is_on s; params0 := params0 s; pulse := v; sv_trace := sv_trace s |}.

Definition clamp (low v hi : Z) : Z := if v <? low then low else if v >? hi then hi else v.

Definition servo_regs `{ServoSpec} : list Z :=
  REG_SRV_COMMON ++ [JD_REG_ 4 JD_SERVO_REG_ANGLE; JD_REG_ 4 JD_SERVO_REG_OFFSET; JD_REG_ 1 JD_REG_PADDING; JD_REG_ 1 JD_REG_PADDING; JD_REG_ 1 JD_REG_PADDING;
                     JD_REG_ 4 JD_SERVO_REG_MIN_ANGLE; JD_REG_ 4 JD_SERVO_REG_MAX_ANGLE; JD_REG_ 3 JD_SERVO_REG_MIN_PULSE; JD_REG_ 3 JD_SERVO_REG_MAX_PULSE;
                     JD_REG_ 1 JD_SERVO_REG_ENABLED; JD_REG_END].
(** The struct as the register engine sees it, and back. *)
Definition servo_encode (s : servo) : list Z :=
  let p := params s in
  sv_common s ++ [0; 0] ++ le_bytes 4 (angle s) ++ le_bytes 4 (sv_offset s) ++ [sv_pin p; fixed p; power_pin p; 0] ++
  le_bytes 4 (min_angle p) ++ le_bytes 4 (max_angle p) ++ le_bytes 2 (min_pulse p) ++ le_bytes 2 (max_pulse p) ++ [sv_intensity s].
Definition servo_decode (s : servo) (b : list Z) : servo :=
  sv_with_regs s (s32 (get32 b 8)) (s32 (get32 b 12))
    {| sv_pin := get8 b 16; fixed := get8 b 17; power_pin := get8 b 18; min_angle := s32 (get32 b 20); max_angle := s32 (get32 b 24);
       min_pulse := s16 (get16 b 28); max_pulse := s16 (get16 b 30) |} (get8 b 32).

(** The limits that a packet may have written. *)
Definition clamp_params (p : servo_params) : servo_params :=
  {| sv_pin := sv_pin p; fixed := fixed p; power_pin := power_pin p;
     min_angle := clamp (- (360 * 65536)) (min_angle p) (1024 * 65536); max_angle := clamp (- (360 * 65536)) (max_angle p) (1024 * 65536);
     min_pulse := clamp 0 (min_pulse p) 6000; max_pulse := clamp 0 (max_pulse p) 6000 |}.

(** A result of [int] arithmetic; C leaves an overflow undefined, here [Panic]. *)
Definition int (v : Z) : outcome Z := if (- 2 ^ 31 <=? v) && (v <? 2 ^ 31) then Ret v else Panic.

(** The pulse for an angle, in microseconds: the sum is that of [uint32_t], what
    is before it that of [int]; division by zero is undefined, here [Panic]. *)
Definition servo_pulse (p : servo_params) (a : Z) : outcome Z :=
  x ← int (a - min_angle p);
  x ← int (Z.shiftr x 8 * (max_pulse p - min_pulse p));
  d ← int (max_angle p - min_angle p);
  let d := Z.shiftr d 8 in
  if d =? 0 then Panic else Ret (u32 (u32 (Z.quot x d) + min_pulse p)).

Section Servo.
Context `{JdSpec} `{ServoSpec} {T : Type} `{Sender T} (jd_pwm_init : Z -> Z).

Definition set_pwr (on : Z) (s : servo) : servo :=
  if sv_is_on s =? on then s
  else
    let p := params s in
    if negb (on =? 0) then
      let init := sv_pwm_pin s =? 0 in
      let pwm := if init then jd_pwm_init (sv_pin p) else sv_pwm_pin s in
      sv_with_power s pwm on ([SvOutput (power_pin p); SvPin (power_pin p) 0; SvPll true] ++ (if init then [SvPwmInit (sv_pin p)] else []) ++
                              [SvPwm pwm true; SvPower on])
    else sv_with_power s (sv_pwm_pin s) on [SvInput (power_pin p); SvPin (sv_pin p) 0; SvPwm (sv_pwm_pin s) false; SvPll false; SvPower on].

(** What follows the write of a register. *)
Definition servo_apply (s : servo) : outcome servo :=
  let s := set_pwr (zbool (negb (sv_intensity s =? 0))) s in
  let p := if negb (fixed (params s) =? 0) then params0 s else clamp_params (params s) in
  let offset := clamp (min_angle p) (sv_offset s) (max_angle p) in
  a ← int (angle s + offset);
  let a := clamp (min_angle p) a (max_angle p) in
  shown ← int (a - offset);
  let s := sv_with_regs s shown offset p (sv_intensity s) in
  v ← servo_pulse p a;
  let s := sv_with_pulse s v in
  Ret (if negb (sv_is_on s =? 0) then sv_with_power s (sv_pwm_pin s) (sv_is_on s) [SvDuty (sv_pwm_pin s) v] else s).

Definition servo_handle_packet (pkt : list Z) (s : servo) (tx : T) : outcome (servo * T) :=
  '(r, b, tx) ← service_handle_register_final (servo_encode s) pkt servo_regs tx;
  let s := servo_decode s b in
  if r >? 0 then s ← servo_apply s; Ret (s, tx) else Ret (s, tx).

Definition servo_init (common : list Z) (p : servo_params) : servo :=
  {| sv_common := common; angle := 0; sv_offset := 0; params := p; sv_intensity := 0; sv_pwm_pin := 0; sv_is_on := 0; params0 := p; pulse := 0; sv_trace := [] |}.

Definition servo_config {A} (base : Dcfg.config) (in_irq : bool) (common : list Z) (st : srvcfg A) : outcome (servo * srvcfg A) :=
  '(pin, st) ← jd_srvcfg_pin base in_irq st (chars "pin");
  '(fixed, st) ← jd_srvcfg_has_flag base in_irq st (chars "fixed");
  '(power, st) ← jd_srvcfg_pin base in_irq st (chars "pinPower");
  '(minp, st) ← jd_srvcfg_u32 base in_irq st (chars "minPulse") 2500;
  '(maxp, st) ← jd_srvcfg_u32 base in_irq st (chars "maxPulse") 600;
  '(mina, st) ← jd_srvcfg_i32 base in_irq st (chars "minAngle") (-90);
  '(maxa, st) ← jd_srvcfg_i32 base in_irq st (chars "maxAngle") 90;
  Ret (servo_init common {| sv_pin := pin; fixed := zbool fixed; power_pin := power; min_angle := s32 (Z.shiftl mina 16); max_angle := s32 (Z.shiftl maxa 16);
                            min_pulse := s16 minp; max_pulse := s16 maxp |}, st).
End Servo.

(** ** The pulse *)











(** ** Runs *)

Section Runs.
Context `{JdSpec} `{ServoSpec} (jd_pwm_init : Z -> Z).

Fixpoint servo_run (pkts : list (list Z)) (s : servo) (log : list output) : outcome (servo * list output) :=
  match pkts with
  | [] => Ret (s, log)
  | pkt :: pkts => '(s, log) ← servo_handle_packet jd_pwm_init pkt s log; servo_run pkts s log
  end.







End Runs.

(** ** The theorem at a concrete input *)

#[local] Existing Instance demo_spec.
Definition demo_servo_codes : ServoSpec.
Proof.
  refine {| JD_SERVO_REG_ANGLE := 0x2; JD_SERVO_REG_OFFSET := 0x81; JD_SERVO_REG_MIN_ANGLE := 0x110; JD_SERVO_REG_MAX_ANGLE := 0x111;
            JD_SERVO_REG_MIN_PULSE := 0x83; JD_SERVO_REG_MAX_PULSE := 0x84; JD_SERVO_REG_ENABLED := 0x1 |}.
  repeat constructor.
Defined.
#[local] Existing Instance demo_servo_codes.

Definition demo_params : servo_params :=
  {| sv_pin := 3; fixed := 0; power_pin := 4; min_angle := - (90 * 65536); max_angle := 90 * 65536; min_pulse := 600; max_pulse := 2500 |}.

(** *** What else the code does *)

(** Limits that come from the configuration are not looked at: when they are
    equal the first write of a register divides by zero. *)
Lemma servo_divides_by_zero :
  servo_run (fun p => p) [demo_pkt 0x2001 [1]]
    (servo_init [0; 0; 0; 0; 1; 0] {| sv_pin := 3; fixed := 0; power_pin := 4; min_angle := 0; max_angle := 0; min_pulse := 600; max_pulse := 2500 |}) [] = Panic.
Proof. vm_compute. reflexivity. Qed.

(** The sum of angle and offset is not computed in a wider type: with an offset,
    a packet with the greatest angle makes it overflow. *)
Lemma servo_angle_overflows :
  servo_run (fun p => p) [demo_pkt 0x2081 [0; 0; 1; 0]; demo_pkt 0x2002 [0xff; 0xff; 0xff; 0x7f]] (servo_init [0; 0; 0; 0; 1; 0] demo_params) [] = Panic.
Proof. vm_compute. reflexivity. Qed.
