(* ===== verification/Accel.v ===== *)
(** * The accelerometer service ([services/accelerometer.c])

    Samples of a driver are turned by the configuration of the board, looked at
    for strong forces, shakes and postures, and streamed. Built without
    [PIN_ACC_INT], with [JD_DCFG]. *)
From Stdlib Require Import String.
From S2P Require Import Prelude Frame Util Iface Registers Dcfg Srvcfg Sensor.

Definition SAMPLING_PERIOD : Z := 7695 * 2.
Definition ACCELEROMETER_TILT_TOLERANCE : Z := 200.
Definition ACCELEROMETER_FREEFALL_TOLERANCE : Z := 400.
Definition ACCELEROMETER_SHAKE_TOLERANCE : Z := 400 * 1024.
Definition ACCELEROMETER_SHAKE_COUNT_THRESHOLD : Z := 4.
Definition ACCELEROMETER_GESTURE_DAMPING : Z := 5.
Definition ACCELEROMETER_SHAKE_DAMPING : Z := 10.
Definition ACCELEROMETER_SHAKE_RTX : Z := 30.
Definition ACCELEROMETER_FREEFALL_THRESHOLD : Z := ACCELEROMETER_FREEFALL_TOLERANCE * ACCELEROMETER_FREEFALL_TOLERANCE.
Definition JD_ACCELEROMETER_EV_NONE : Z := 0.

(** The generated header. Documented: the events have codes of their own, none
    of them zero. *)
Class AccelSpec `{SensorSpec} := {
  JD_ACCELEROMETER_EV_TILT_UP : Z;
  JD_ACCELEROMETER_EV_TILT_DOWN : Z;
  JD_ACCELEROMETER_EV_TILT_LEFT : Z;
  JD_ACCELEROMETER_EV_TILT_RIGHT : Z;
  JD_ACCELEROMETER_EV_FACE_UP : Z;
  JD_ACCELEROMETER_EV_FACE_DOWN : Z;
  JD_ACCELEROMETER_EV_FREEFALL : Z;
  JD_ACCELEROMETER_EV_SHAKE : Z;
  JD_ACCELEROMETER_EV_FORCE_2G : Z;
  JD_ACCELEROMETER_EV_FORCE_3G : Z;
  JD_ACCELEROMETER_EV_FORCE_6G : Z;
  JD_ACCELEROMETER_EV_FORCE_8G : Z;
  accel_events_differ : NoDup [JD_ACCELEROMETER_EV_NONE; JD_ACCELEROMETER_EV_TILT_UP; JD_ACCELEROMETER_EV_TILT_DOWN; JD_ACCELEROMETER_EV_TILT_LEFT;
    JD_ACCELEROMETER_EV_TILT_RIGHT; JD_ACCELEROMETER_EV_FACE_UP; JD_ACCELEROMETER_EV_FACE_DOWN; JD_ACCELEROMETER_EV_FREEFALL; JD_ACCELEROMETER_EV_SHAKE;
    JD_ACCELEROMETER_EV_FORCE_2G; JD_ACCELEROMETER_EV_FORCE_3G; JD_ACCELEROMETER_EV_FORCE_6G; JD_ACCELEROMETER_EV_FORCE_8G];
}.

(** [struct ShakeHistory] *)
Record shake_history := { shaken : bool; sh_x : bool; sh_y : bool; sh_z : bool; count : Z; timer : Z }.
(** [struct srv_state] *)
Record accel := {
  ac_sensor : sensor;
  sigma : Z;
  impulseSigma : Z;
  g_events : Z;                (* uint16_t *)
  currentGesture : Z;
  lastGesture : Z;
  ac_nextSample : Z;
  ac_sample : Z * Z * Z;       (* three int32_t *)
  shake : shake_history;
}.
Definition ac_with_sensor (a : accel) (s : sensor) (next : Z) (v : Z * Z * Z) : accel :=
  {| ac_sensor := s; sigma := sigma a; impulseSigma := impulseSigma a; g_events := g_events a; currentGesture := currentGesture a;
     lastGesture := lastGesture a; ac_nextSample := next; ac_sample := v; shake := shake a |}.
Definition ac_with_force (a : accel) (impulse g : Z) : accel :=
  {| ac_sensor := ac_sensor a; sigma := sigma a; impulseSigma := impulse; g_events := g; currentGesture := currentGesture a;
     lastGesture := lastGesture a; ac_nextSample := ac_nextSample a; ac_sample := ac_sample a; shake := shake a |}.
Definition ac_with_gesture (a : accel) (sg current last : Z) : accel :=
  {| ac_sensor := ac_sensor a; sigma := sg; impulseSigma := impulseSigma a; g_events := g_events a; currentGesture := current;
     lastGesture := last; ac_nextSample := ac_nextSample a; ac_sample := ac_sample a; shake := shake a |}.
Definition ac_with_shake (a : accel) (s : shake_history) : accel :=
  {| ac_sensor := ac_sensor a; sigma := sigma a; impulseSigma := impulseSigma a; g_events := g_events a; currentGesture := currentGesture a;
     lastGesture := lastGesture a; ac_nextSample := ac_nextSample a; ac_sample := ac_sample a; shake := s |}.

(** A zero crossing of one axis: the axis was on this side last. *)
Definition crossed (v : Z) (side : bool) : bool :=
  ((v <? - ACCELEROMETER_SHAKE_TOLERANCE) && side) || ((v >? ACCELEROMETER_SHAKE_TOLERANCE) && negb side).

(** Shakes: the new history, and whether a shake is reported. *)
Definition shake_count (detected : bool) (s : shake_history) : bool * shake_history :=
  if detected && (count s <? ACCELEROMETER_SHAKE_COUNT_THRESHOLD) then
    let n := u8 (count s + 1) in
    let t := if n =? 1 then 0 else timer s in
    if n =? ACCELEROMETER_SHAKE_COUNT_THRESHOLD then (true, {| shaken := true; sh_x := sh_x s; sh_y := sh_y s; sh_z := sh_z s; count := n; timer := 0 |})
    else (false, {| shaken := shaken s; sh_x := sh_x s; sh_y := sh_y s; sh_z := sh_z s; count := n; timer := t |})
  else (false, s).
(** The time of the shake, and the decay of the count. *)
Definition shake_timer (s : shake_history) : shake_history :=
  if count s >? 0 then
    let t := u8 (timer s + 1) in
    if shaken s && (t >=? ACCELEROMETER_SHAKE_RTX) then {| shaken := false; sh_x := sh_x s; sh_y := sh_y s; sh_z := sh_z s; count := 0; timer := 0 |}
    else if negb (shaken s) && (t >=? ACCELEROMETER_SHAKE_DAMPING) then
      {| shaken := false; sh_x := sh_x s; sh_y := sh_y s; sh_z := sh_z s; count := (if count s >? 0 then u8 (count s - 1) else count s); timer := 0 |}
    else {| shaken := shaken s; sh_x := sh_x s; sh_y := sh_y s; sh_z := sh_z s; count := count s; timer := t |}
  else s.

Section Accel.
Context `{JdSpec} `{AccelSpec}.

(** The posture that the forces show. *)
Definition posture (force : Z) (v : Z * Z * Z) : Z :=
  let '(x, y, z) := v in
  if force <? ACCELEROMETER_FREEFALL_THRESHOLD then JD_ACCELEROMETER_EV_FREEFALL
  else if Z.shiftr x 10 <? -1000 + ACCELEROMETER_TILT_TOLERANCE then JD_ACCELEROMETER_EV_TILT_LEFT
  else if Z.shiftr x 10 >? 1000 - ACCELEROMETER_TILT_TOLERANCE then JD_ACCELEROMETER_EV_TILT_RIGHT
  else if Z.shiftr y 10 <? -1000 + ACCELEROMETER_TILT_TOLERANCE then JD_ACCELEROMETER_EV_TILT_DOWN
  else if Z.shiftr y 10 >? 1000 - ACCELEROMETER_TILT_TOLERANCE then JD_ACCELEROMETER_EV_TILT_UP
  else if Z.shiftr z 10 <? -1000 + ACCELEROMETER_TILT_TOLERANCE then JD_ACCELEROMETER_EV_FACE_UP
  else if Z.shiftr z 10 >? 1000 - ACCELEROMETER_TILT_TOLERANCE then JD_ACCELEROMETER_EV_FACE_DOWN
  else JD_ACCELEROMETER_EV_NONE.

Definition instantaneousPosture (force : Z) (a : accel) : Z * accel :=
  let '(x, y, z) := ac_sample a in
  let s := shake a in
  let '(cx, cy, cz) := (crossed x (sh_x s), crossed y (sh_y s), crossed z (sh_z s)) in
  let s := {| shaken := shaken s; sh_x := xorb (sh_x s) cx; sh_y := xorb (sh_y s) cy; sh_z := xorb (sh_z s) cz; count := count s; timer := timer s |} in
  let '(reported, s) := shake_count (cx || cy || cz) s in
  if reported then (JD_ACCELEROMETER_EV_SHAKE, ac_with_shake a s)
  else (posture force (ac_sample a), ac_with_shake a (shake_timer s)).

Definition G (g : Z) : Z := (g * 1024) * (g * 1024).
(** The sum of the squares, in [uint32_t]. *)
Definition accel_force (v : Z * Z * Z) : Z :=
  let '(x, y, z) := v in
  u32 (Z.shiftr x 10 * Z.shiftr x 10 + Z.shiftr y 10 * Z.shiftr y 10 + Z.shiftr z 10 * Z.shiftr z 10).

Context {T : Type} `{Sender T} `{EventSender T}.

(** The bit [1 << ev]; C leaves the shift undefined for codes from 32 on, here
    it leaves the word. *)
Definition emit_g_event (ev : Z) (a : accel) (tx : T) : outcome (accel * T) :=
  if negb (Z.land (g_events a) (Z.shiftl 1 ev) =? 0) then Ret (a, tx)
  else
    let a := ac_with_force a (impulseSigma a) (u16 (Z.lor (g_events a) (Z.shiftl 1 ev))) in
    tx ← send_event tx (service_idx (ac_sensor a)) ev [];
    Ret (a, tx).

Definition force_events (force : Z) (a : accel) (tx : T) : outcome (accel * T) :=
  if force >? G 2 then
    let a := ac_with_force a 0 (g_events a) in
    '(a, tx) ← (if force >? G 2 then emit_g_event JD_ACCELEROMETER_EV_FORCE_2G a tx else Ret (a, tx));
    '(a, tx) ← (if force >? G 3 then emit_g_event JD_ACCELEROMETER_EV_FORCE_3G a tx else Ret (a, tx));
    '(a, tx) ← (if force >? G 6 then emit_g_event JD_ACCELEROMETER_EV_FORCE_6G a tx else Ret (a, tx));
    (if force >? G 8 then emit_g_event JD_ACCELEROMETER_EV_FORCE_8G a tx else Ret (a, tx))
  else Ret (a, tx).

(** A posture passes a filter before it is announced. *)
Definition gesture_event (g : Z) (a : accel) (tx : T) : outcome (accel * T) :=
  let a := if g =? currentGesture a then
             (if sigma a <? ACCELEROMETER_GESTURE_DAMPING then ac_with_gesture a (sigma a + 1) (currentGesture a) (lastGesture a) else a)
           else ac_with_gesture a 0 g (lastGesture a) in
  if negb (currentGesture a =? lastGesture a) && (sigma a >=? ACCELEROMETER_GESTURE_DAMPING) then
    let a := ac_with_gesture a (sigma a) (currentGesture a) (currentGesture a) in
    if negb (lastGesture a =? JD_ACCELEROMETER_EV_NONE) then
      tx ← send_event tx (service_idx (ac_sensor a)) (lastGesture a) []; Ret (a, tx)
    else Ret (a, tx)
  else Ret (a, tx).

Definition process_events (a : accel) (tx : T) : outcome (accel * T) :=
  let force := accel_force (ac_sample a) in
  '(a, tx) ← force_events force a tx;
  let a := if impulseSigma a <? 5 then ac_with_force a (impulseSigma a + 1) (g_events a) else ac_with_force a (impulseSigma a) 0 in
  let '(g, a) := instantaneousPosture force a in
  if g =? JD_ACCELEROMETER_EV_SHAKE then
    tx ← send_event tx (service_idx (ac_sensor a)) JD_ACCELEROMETER_EV_SHAKE []; Ret (a, tx)
  else gesture_event g a tx.

(** ** Samples *)

(** [accelerometer_data_transform]: each axis is one of the driver's, perhaps
    negated; an index that is none leaves the axis. *)
Definition acc_axis (v : Z * Z * Z) (i : Z) : Z := let '(x, y, z) := v in if i =? 0 then x else if i =? 1 then y else z.
Definition acc_transform1 (v : Z * Z * Z) (i acc : Z) : Z :=
  let '(m, idx) := if acc <? 0 then (-1, - acc) else (1, acc) in
  let idx := idx - 1 in
  let '(m, idx) := if (idx <? 0) || (idx >? 2) then (1, i) else (m, idx) in
  s32 (acc_axis v idx * m).
Definition accelerometer_data_transform (acc_idx : Z * Z * Z) (v : Z * Z * Z) : Z * Z * Z :=
  let '(a, b, c) := acc_idx in (acc_transform1 v 0 a, acc_transform1 v 1 b, acc_transform1 v 2 c).

Definition sample_bytes (v : Z * Z * Z) : list Z := let '(x, y, z) := v in le_bytes 4 x ++ le_bytes 4 y ++ le_bytes 4 z.
Definition bytes_sample (b : list Z) : Z * Z * Z := (s32 (get32 b 0), s32 (get32 b 4), s32 (get32 b 8)).

Context {D : Type} (api : option (sensor_api D)).

Definition accelerometer_process (acc_idx : Z * Z * Z) (now : Z) (a : accel) (d : D) (tx : T) : outcome (accel * D * T) :=
  let '(due, next) := jd_should_sample now (ac_nextSample a) SAMPLING_PERIOD in
  let a := ac_with_sensor a (ac_sensor a) next (ac_sample a) in
  if negb due then Ret (a, d, tx)
  else
    '(s, d, tx) ← sensor_process api (ac_sensor a) d tx;
    '(r, s, d, tx) ← sensor_get_reading api s d tx;
    let v := match r with Some b => accelerometer_data_transform acc_idx (bytes_sample b) | None => ac_sample a end in
    '(a, tx) ← process_events (ac_with_sensor a s (ac_nextSample a) v) tx;
    '(s, d, tx) ← sensor_process_simple api now (sample_bytes (ac_sample a)) (ac_sensor a) d tx;
    Ret (ac_with_sensor a s (ac_nextSample a) (ac_sample a), d, tx).

Definition accelerometer_handle_packet (now : Z) (pkt : list Z) (a : accel) (d : D) (tx : T) : outcome (accel * D * T) :=
  '(_, s, d, tx) ← sensor_handle_packet_simple api now pkt (sample_bytes (ac_sample a)) (ac_sensor a) d tx;
  Ret (ac_with_sensor a s (ac_nextSample a) (ac_sample a), d, tx).
End Accel.

Definition accelerometer_init (common : list Z) : accel :=
  {| ac_sensor := {| sn_common := common; streaming_samples := 0; got_query := false; jd_inited := false; got_reading := false;
                     reading_pending := false; streaming_interval := 0; next_streaming := 0 |};
     sigma := 0; impulseSigma := 0; g_events := 0; currentGesture := 0; lastGesture := 0; ac_nextSample := 0; ac_sample := (0, 0, 0);
     shake := {| shaken := false; sh_x := false; sh_y := false; sh_z := false; count := 0; timer := 0 |} |}.

Definition accelerometer_config {A} (base : Dcfg.config) (in_irq : bool) (st : srvcfg A) : outcome (Z * Z * Z * srvcfg A) :=
  '(x, st) ← jd_srvcfg_i32 base in_irq st (chars "trX") 1;
  '(y, st) ← jd_srvcfg_i32 base in_irq st (chars "trY") 2;
  '(z, st) ← jd_srvcfg_i32 base in_irq st (chars "trZ") 3;
  Ret (s8 x, s8 y, s8 z, st).

(** ** What the filter of the postures lets through

    The history of the postures, the newest first; a posture has settled when it
    was seen six times in a row. *)

Fixpoint streak (g : Z) (h : list Z) : Z :=
  match h with
  | x :: h => if x =? g then 1 + streak g h else 0
  | [] => 0
  end.
Fixpoint settled (h : list Z) : Z :=
  match h with
  | g :: h' => if 6 <=? streak g h then g else settled h'
  | [] => JD_ACCELEROMETER_EV_NONE
  end.

Lemma streak_nonneg g h : 0 <= streak g h.
Proof. induction h as [|x h IH]; cbn [streak]; [lia|]. destruct (x =? g); lia. Qed.
Lemma streak_head g h : streak g (g :: h) = 1 + streak g h.
Proof. cbn [streak]. by rewrite Z.eqb_refl. Qed.
Lemma streak_other g x h : x <> g -> streak g (x :: h) = 0.
Proof. intros Hn. cbn [streak]. by rewrite (proj2 (Z.eqb_neq _ _) Hn). Qed.

Section Postures.
Context `{JdSpec} `{AccelSpec}.

(** A sample is taken in. *)
Definition accel_sample (v : Z * Z * Z) (a : accel) (log : list output) : outcome (accel * list output) :=
  process_events (ac_with_sensor a (ac_sensor a) (ac_nextSample a) v) log.
Fixpoint accel_run (vs : list (Z * Z * Z)) (a : accel) (log : list output) : outcome (accel * list output) :=
  match vs with
  | [] => Ret (a, log)
  | v :: vs => '(a, log) ← accel_sample v a log; accel_run vs a log
  end.

(** The shakes look at the samples only. *)
Definition shake_sample (v : Z * Z * Z) (s : shake_history) : bool * shake_history :=
  let '(x, y, z) := v in
  let '(cx, cy, cz) := (crossed x (sh_x s), crossed y (sh_y s), crossed z (sh_z s)) in
  let '(reported, s) := shake_count (cx || cy || cz)
    {| shaken := shaken s; sh_x := xorb (sh_x s) cx; sh_y := xorb (sh_y s) cy; sh_z := xorb (sh_z s) cz; count := count s; timer := timer s |} in
  if reported then (true, s) else (false, shake_timer s).

(** The postures that are announced, and the shakes. *)
Fixpoint ref_accel (h : list Z) (s : shake_history) (vs : list (Z * Z * Z)) : list Z :=
  match vs with
  | [] => []
  | v :: vs =>
      let '(reported, s) := shake_sample v s in
      if reported then JD_ACCELEROMETER_EV_SHAKE :: ref_accel h s vs
      else
        let g := posture (accel_force v) v in
        (if (settled (g :: h) =? settled h) || (settled (g :: h) =? JD_ACCELEROMETER_EV_NONE) then [] else [g]) ++ ref_accel (g :: h) s vs
  end.

Definition is_gesture (o : output) : bool :=
  match o with
  | Event _ e _ => bool_decide (e ∈ [JD_ACCELEROMETER_EV_TILT_UP; JD_ACCELEROMETER_EV_TILT_DOWN; JD_ACCELEROMETER_EV_TILT_LEFT; JD_ACCELEROMETER_EV_TILT_RIGHT;
      JD_ACCELEROMETER_EV_FACE_UP; JD_ACCELEROMETER_EV_FACE_DOWN; JD_ACCELEROMETER_EV_FREEFALL; JD_ACCELEROMETER_EV_SHAKE])
  | Report _ => false
  end.
Definition gestures (log : list output) : list output := List.filter is_gesture log.
Definition gesture_out (idx g : Z) : output := Event idx g [].

Lemma gestures_app a b : gestures (a ++ b) = gestures a ++ gestures b.
Proof. apply List.filter_app. Qed.

Lemma posture_codes force v : posture force v <> JD_ACCELEROMETER_EV_SHAKE /\
  (posture force v = JD_ACCELEROMETER_EV_NONE \/ forall idx, is_gesture (gesture_out idx (posture force v)) = true).
Proof.
  pose proof accel_events_differ as Hd. rewrite !NoDup_cons, !list_elem_of_In in Hd. simpl in Hd.
  unfold posture. destruct v as [[x y] z].
  repeat (match goal with |- context [if ?c then _ else _] => destruct c end);
    (split; [intuition congruence|]); (right; intros idx; apply bool_decide_eq_true; by repeat constructor) || by left.
Qed.
Lemma force_no_gesture idx e : e ∈ [JD_ACCELEROMETER_EV_FORCE_2G; JD_ACCELEROMETER_EV_FORCE_3G; JD_ACCELEROMETER_EV_FORCE_6G; JD_ACCELEROMETER_EV_FORCE_8G] ->
  is_gesture (gesture_out idx e) = false.
Proof.
  pose proof accel_events_differ as Hd. rewrite !NoDup_cons, !list_elem_of_In in Hd. rewrite list_elem_of_In.
  intros He. apply bool_decide_eq_false. rewrite list_elem_of_In. simpl in *. intuition congruence.
Qed.

(** What the force events leave as it is. *)
Definition same_gesture (a a' : accel) : Prop :=
  ac_sensor a' = ac_sensor a /\ sigma a' = sigma a /\ currentGesture a' = currentGesture a /\ lastGesture a' = lastGesture a /\
  ac_nextSample a' = ac_nextSample a /\ ac_sample a' = ac_sample a /\ shake a' = shake a.
Lemma same_gesture_trans a b c : same_gesture a b -> same_gesture b c -> same_gesture a c.
Proof. intros (?&?&?&?&?&?&?) (?&?&?&?&?&?&?). unfold same_gesture. intuition congruence. Qed.

(** A computation that sends no gesture. *)
Definition quiet (a : accel) (log : list output) (r : outcome (accel * list output)) : Prop :=
  exists a' es, r = Ret (a', log ++ es) /\ gestures es = [] /\ same_gesture a a'.
Lemma quiet_ret a log : quiet a log (Ret (a, log)).
Proof. exists a, []. rewrite app_nil_r. by repeat split. Qed.
Lemma quiet_from a b log r : same_gesture a b -> quiet b log r -> quiet a log r.
Proof. intros Hab (a' & es & -> & He & Hs). exists a', es. split; [done|]. split; [done|]. by eapply same_gesture_trans. Qed.
Lemma quiet_bind a log r (k : accel -> list output -> outcome (accel * list output)) :
  quiet a log r -> (forall a' log', quiet a' log' (k a' log')) -> quiet a log ('(a, log) ← r; k a log).
Proof.
  intros (a' & es & -> & He & Hs) Hk. obind. destruct (Hk a' (log ++ es)) as (a2 & es2 & -> & He2 & Hs2).
  exists a2, (es ++ es2). rewrite app_assoc, gestures_app, He, He2. split; [done|]. split; [done|]. by eapply same_gesture_trans.
Qed.
Lemma emit_g_event_quiet ev a log :
  ev ∈ [JD_ACCELEROMETER_EV_FORCE_2G; JD_ACCELEROMETER_EV_FORCE_3G; JD_ACCELEROMETER_EV_FORCE_6G; JD_ACCELEROMETER_EV_FORCE_8G] ->
  quiet a log (emit_g_event ev a log).
Proof.
  intros He. unfold emit_g_event. destruct (negb _); [apply quiet_ret|]. unfold send_event, output_event_sender. obind.
  eexists _, [gesture_out _ ev]. split; [reflexivity|]. split; [|by repeat split]. unfold gestures. cbn [List.filter]. by rewrite force_no_gesture.
Qed.
Lemma force_events_quiet force a log : quiet a log (force_events force a log).
Proof.
  unfold force_events. destruct (force >? G 2); [|apply quiet_ret].
  assert (forall b ev a log, ev ∈ [JD_ACCELEROMETER_EV_FORCE_2G; JD_ACCELEROMETER_EV_FORCE_3G; JD_ACCELEROMETER_EV_FORCE_6G; JD_ACCELEROMETER_EV_FORCE_8G] ->
    quiet a log (if b : bool then emit_g_event ev a log else Ret (a, log))) as Hq.
  { intros [] ev a2 log2 He; [by apply emit_g_event_quiet|apply quiet_ret]. }
  apply (quiet_from _ (ac_with_force a 0 (g_events a))); [by repeat split|].
  apply (quiet_bind _ _ _ (fun a log => _)); [apply emit_g_event_quiet, list_elem_of_In; cbn; tauto|intros ? ?].
  do 2 (apply (quiet_bind _ _ _ (fun a log => _)); [apply Hq, list_elem_of_In; cbn; tauto|intros ? ?]). apply Hq, list_elem_of_In. cbn. tauto.
Qed.

Lemma instantaneousPosture_ref force a : instantaneousPosture force a =
  let '(r, s) := shake_sample (ac_sample a) (shake a) in (if r then JD_ACCELEROMETER_EV_SHAKE else posture force (ac_sample a), ac_with_shake a s).
Proof.
  unfold instantaneousPosture, shake_sample. destruct (ac_sample a) as [[x y] z]. destruct (shake_count _ _) as [[] s]; reflexivity.
Qed.

(** The filter and the history. *)
Definition filter_ok (h : list Z) (a : accel) : Prop :=
  (exists t, h = currentGesture a :: t) /\ sigma a = Z.min 5 (streak (currentGesture a) h - 1) /\ lastGesture a = settled h.

Lemma gesture_event_ref h g a (log : list output) : filter_ok h a ->
  exists a', gesture_event g a log = Ret (a', log ++ map (gesture_out (service_idx (ac_sensor a)))
      (if (settled (g :: h) =? settled h) || (settled (g :: h) =? JD_ACCELEROMETER_EV_NONE) then [] else [g])) /\
    filter_ok (g :: h) a' /\ ac_sensor a' = ac_sensor a /\ shake a' = shake a.
Proof.
  intros ([t ->] & Hs & Hl). set (c := currentGesture a) in *. pose proof (streak_nonneg c t) as Hn. rewrite streak_head in Hs.
  assert (streak g (g :: c :: t) = if g =? c then 2 + streak c t else 1) as Hst.
  { rewrite streak_head. destruct (Z.eqb_spec g c) as [-> | Hne]; [rewrite streak_head; lia|by rewrite (streak_other g c) by congruence]. }
  assert (filter_ok (g :: c :: t) {| ac_sensor := ac_sensor a; sigma := if g =? c then Z.min 5 (1 + streak c t) else 0; impulseSigma := impulseSigma a;
      g_events := g_events a; currentGesture := g; lastGesture := settled (g :: c :: t); ac_nextSample := ac_nextSample a; ac_sample := ac_sample a; shake := shake a |}) as Hok.
  { split; [by eexists|]. split; [|done]. cbn [sigma currentGesture]. rewrite Hst. destruct (g =? c); lia. }
  assert (settled (g :: c :: t) = if (g =? c) && (4 <=? streak c t) then g else lastGesture a) as Hset.
  { rewrite Hl. change (settled (g :: c :: t)) with (if 6 <=? streak g (g :: c :: t) then g else settled (c :: t)). rewrite Hst.
    destruct (g =? c); cbn [andb]; [|done]. by destruct (Z.leb_spec 6 (2 + streak c t)), (Z.leb_spec 4 (streak c t)); try lia. }
  rewrite Hset in Hok |- *. rewrite <- Hl. eexists. split; [|split; [exact Hok|done]]. clear Hok Hset Hst Hl.
  unfold gesture_event, ACCELEROMETER_GESTURE_DAMPING. destruct a as [sn sg im ge cu la ne sa sh].
  cbn [currentGesture sigma lastGesture ac_with_gesture ac_sensor impulseSigma g_events ac_nextSample ac_sample shake] in *. subst c sg. rewrite Z.geb_leb.
  destruct (Z.eqb_spec g cu) as [-> | Hne]; cbn [andb].
  - set (n := streak cu t) in *. clearbody n. destruct (Z.ltb_spec (Z.min 5 (1 + n - 1)) 5) as [Hlt|Hge];
      cbn [ac_with_gesture currentGesture lastGesture sigma ac_sensor impulseSigma g_events ac_nextSample ac_sample shake].
    1: replace (Z.min 5 (1 + n - 1) + 1) with (Z.min 5 (1 + n)) by lia. 2: replace (Z.min 5 (1 + n - 1)) with (Z.min 5 (1 + n)) by lia.
    all: replace (5 <=? Z.min 5 (1 + n)) with (4 <=? n) by (destruct (Z.leb_spec 4 n), (Z.leb_spec 5 (Z.min 5 (1 + n))); lia).
    all: unfold ac_with_gesture, send_event, output_event_sender; cbn [sigma impulseSigma g_events lastGesture ac_nextSample ac_sample shake ac_sensor].
    all: destruct (4 <=? n); rewrite ?andb_false_r, ?andb_true_r, ?Z.eqb_refl; cbn [orb map]; rewrite ?app_nil_r; [|done].
    all: destruct (Z.eqb_spec cu la) as [-> | Hne]; cbn [negb orb map]; rewrite ?app_nil_r; [done|].
    all: destruct (cu =? JD_ACCELEROMETER_EV_NONE); cbn [negb map]; rewrite ?app_nil_r; reflexivity.
  - cbn [ac_with_gesture currentGesture lastGesture sigma ac_sensor impulseSigma g_events ac_nextSample ac_sample shake].
    change (5 <=? 0) with false. rewrite andb_false_r, Z.eqb_refl. cbn [orb map]. by rewrite app_nil_r.
Qed.

Lemma shake_is_gesture idx : gestures [gesture_out idx JD_ACCELEROMETER_EV_SHAKE] = [gesture_out idx JD_ACCELEROMETER_EV_SHAKE].
Proof. unfold gestures. cbn [List.filter]. unfold is_gesture, gesture_out. rewrite bool_decide_eq_true_2; [done|]. apply list_elem_of_In. simpl. tauto. Qed.
Lemma announced_gesture idx force v h : let g := posture force v in let l := if (settled (g :: h) =? settled h) || (settled (g :: h) =? JD_ACCELEROMETER_EV_NONE) then [] else [g] in
  gestures (map (gesture_out idx) l) = map (gesture_out idx) l.
Proof.
  intros g l. subst l. destruct (orb _ _) eqn:E; [done|]. apply orb_false_iff in E as [E1 E2]. rewrite !Z.eqb_neq in E1, E2.
  unfold gestures. cbn [map List.filter]. destruct (posture_codes force v) as [_ [Hn|Hy]]; [fold g in Hn|fold g in Hy; by rewrite Hy].
  cbn [settled] in *. destruct (6 <=? streak g (g :: h)); congruence.
Qed.

(** The run. *)
Lemma accel_sample_ref h v a (log : list output) : filter_ok h a ->
  let '(reported, s) := shake_sample v (shake a) in
  exists a' es, accel_sample v a log = Ret (a', log ++ es) /\ shake a' = s /\ ac_sensor a' = ac_sensor a /\
    if reported then filter_ok h a' /\ gestures es = [gesture_out (service_idx (ac_sensor a)) JD_ACCELEROMETER_EV_SHAKE]
    else let g := posture (accel_force v) v in filter_ok (g :: h) a' /\ gestures es = map (gesture_out (service_idx (ac_sensor a)))
      (if (settled (g :: h) =? settled h) || (settled (g :: h) =? JD_ACCELEROMETER_EV_NONE) then [] else [g]).
Proof.
  intros Hf. unfold accel_sample, process_events. set (a0 := ac_with_sensor a (ac_sensor a) (ac_nextSample a) v). change (ac_sample a0) with v.
  destruct (force_events_quiet (accel_force v) a0 log) as (a1 & es1 & -> & He1 & (S1 & S2 & S3 & S4 & S5 & S6 & S7)). obind.
  set (a2 := if impulseSigma a1 <? 5 then _ else _).
  assert (same_gesture a0 a2) as (T1 & T2 & T3 & T4 & _ & T6 & T7) by (unfold a2; destruct (_ <? 5); by repeat split). clearbody a2.
  rewrite instantaneousPosture_ref, T6, T7. change (ac_sample a0) with v. change (shake a0) with (shake a). change (ac_sensor a0) with (ac_sensor a) in T1.
  assert (filter_ok h a2) as Hf2 by (unfold filter_ok; rewrite T2, T3, T4; exact Hf). clear T2 T3 T4.
  destruct (shake_sample v (shake a)) as [[] s]; cbv iota beta.
  - rewrite Z.eqb_refl. unfold send_event, output_event_sender. obind. eexists _, (es1 ++ [gesture_out _ _]). rewrite app_assoc.
    split; [reflexivity|]. split; [done|]. split; [exact T1|]. split; [exact Hf2|].
    rewrite gestures_app, He1. change (ac_sensor (ac_with_shake a2 s)) with (ac_sensor a2). rewrite T1. apply shake_is_gesture.
  - set (g := posture (accel_force v) v). destruct (posture_codes (accel_force v) v) as [Hg _]. fold g in Hg. rewrite (proj2 (Z.eqb_neq _ _) Hg).
    destruct (gesture_event_ref h g (ac_with_shake a2 s) (log ++ es1) Hf2) as (a3 & -> & Hf3 & Hsn & Hsh).
    eexists a3, (es1 ++ map _ _). rewrite app_assoc. split; [reflexivity|]. split; [exact Hsh|]. split; [by rewrite Hsn|]. split; [exact Hf3|].
    rewrite gestures_app, He1. change (ac_sensor (ac_with_shake a2 s)) with (ac_sensor a2). rewrite T1. apply announced_gesture.
Qed.

Lemma accel_run_ref vs : forall h a (log : list output), filter_ok h a ->
  exists a' es, accel_run vs a log = Ret (a', log ++ es) /\ gestures es = map (gesture_out (service_idx (ac_sensor a))) (ref_accel h (shake a) vs).
Proof.
  induction vs as [|v vs IH]; intros h a log Hf; cbn [accel_run ref_accel]; [exists a, []; by rewrite app_nil_r|].
  pose proof (accel_sample_ref h v a log Hf) as Hs. destruct (shake_sample v (shake a)) as [r s]. destruct Hs as (a1 & es1 & -> & <- & Hsn & Hr). obind. rewrite <- Hsn in *.
  assert (exists h1 l, filter_ok h1 a1 /\ gestures es1 = map (gesture_out (service_idx (ac_sensor a1))) l /\
    (if r then JD_ACCELEROMETER_EV_SHAKE :: ref_accel h (shake a1) vs else
       (if (settled (posture (accel_force v) v :: h) =? settled h) || (settled (posture (accel_force v) v :: h) =? JD_ACCELEROMETER_EV_NONE) then [] else [posture (accel_force v) v]) ++
         ref_accel (posture (accel_force v) v :: h) (shake a1) vs) = l ++ ref_accel h1 (shake a1) vs) as (h1 & l & Hf1 & Hl & ->).
  { destruct r; destruct Hr as [Hf1 He1]; [exists h, [JD_ACCELEROMETER_EV_SHAKE]|eexists _, _]; (split; [exact Hf1|]); (split; [exact He1|reflexivity]). }
  destruct (IH h1 a1 (log ++ es1) Hf1) as (a2 & es2 & -> & He2). exists a2, (es1 ++ es2). rewrite app_assoc, gestures_app, Hl, He2, map_app. done.
Qed.
End Postures.

Section AccelTheorem.
Context `{JdSpec} `{AccelSpec}.

(** C33. The accelerometer announces gestures. Whatever samples come in after the
    start, it sends a posture event exactly when a posture has been seen in six
    samples in a row and is not the one that settled before, and a shake event
    exactly when the zero crossings of the axes show a shake; a sample that
    shows a shake does not disturb the postures, and no force event, however
    strong, takes the place of a gesture. *)
Theorem accelerometer_postures common vs :
  exists a log, accel_run vs (accelerometer_init common) ([] : list output) = Ret (a, log) /\
    gestures log = map (gesture_out (get8 common 4)) (ref_accel [JD_ACCELEROMETER_EV_NONE] (shake (accelerometer_init common)) vs).
Proof.
  destruct (accel_run_ref vs [JD_ACCELEROMETER_EV_NONE] (accelerometer_init common) []) as (a & es & E & He).
  - split; [by exists []|]. by split.
  - by exists a, es.
Qed.
End AccelTheorem.

(** ** Shakes are apart

    The number of samples before the next shake can be reported. *)
Definition shake_rest (s : shake_history) : Z := if shaken s then 34 - timer s else 4 - count s.
Definition shake_ok (s : shake_history) : Prop :=
  if shaken s then count s = 4 /\ 0 <= timer s < 30 else 0 <= count s < 4 /\ 0 <= timer s < 10.
Lemma shake_count_rest d s : shake_ok s ->
  let '(r, s') := shake_count d s in
  shake_ok s' /\ if r then shake_rest s = 1 /\ shake_rest s' = 34 else shaken s' = shaken s /\ shake_rest s - (if shaken s then 0 else 1) <= shake_rest s'.
Proof.
  unfold shake_ok, shake_rest, shake_count, ACCELEROMETER_SHAKE_COUNT_THRESHOLD. destruct s as [sh x y z n t]. cbn [shaken count timer sh_x sh_y sh_z].
  intros Hok. destruct d; cbn [andb]; [|destruct sh; cbn [shaken count timer]; lia].
  destruct sh; (destruct (Z.ltb_spec n 4); [|cbn [shaken count timer]; lia]); [lia|]. rewrite u8_small by lia.
  destruct (Z.eqb_spec (n + 1) 4), (Z.eqb_spec (n + 1) 1); cbn [shaken count timer]; lia.
Qed.
Lemma shake_timer_rest s : shake_ok s -> shake_ok (shake_timer s) /\ shake_rest s - (if shaken s then 1 else 0) <= shake_rest (shake_timer s).
Proof.
  unfold shake_ok, shake_rest, shake_timer, ACCELEROMETER_SHAKE_RTX, ACCELEROMETER_SHAKE_DAMPING. destruct s as [sh x y z n t]. cbn [shaken count timer sh_x sh_y sh_z].
  intros Hok. rewrite Z.gtb_ltb, !Z.geb_leb. destruct (Z.ltb_spec 0 n); [|destruct sh; cbn [shaken count timer]; lia].
  destruct sh; rewrite !u8_small by lia; cbn [andb negb].
  - destruct (Z.leb_spec 30 (t + 1)); cbn [shaken count timer]; lia.
  - destruct (Z.leb_spec 10 (t + 1)); cbn [shaken count timer]; lia.
Qed.
Lemma shake_sample_rest v s : shake_ok s ->
  let '(r, s') := shake_sample v s in shake_ok s' /\ if r then shake_rest s = 1 /\ shake_rest s' = 34 else shake_rest s - 1 <= shake_rest s'.
Proof.
  intros Hok. destruct v as [[x y] z]. unfold shake_sample. set (s1 := {| shaken := shaken s |}). assert (shake_ok s1) as H1 by exact Hok.
  pose proof (shake_count_rest (crossed x (sh_x s) || crossed y (sh_y s) || crossed z (sh_z s)) s1 H1) as Hc.
  destruct (shake_count _ _) as [[] s2]; cbv iota beta; destruct Hc as [H2 Hc]; [by split|]. destruct Hc as [E Hc].
  destruct (shake_timer_rest s2 H2) as [H3 Ht]. split; [done|]. change (shake_rest s1) with (shake_rest s) in Hc. rewrite E in Ht. destruct (shaken s1); lia.
Qed.

Fixpoint shakes (s : shake_history) (vs : list (Z * Z * Z)) : list bool :=
  match vs with
  | [] => []
  | v :: vs => let '(r, s) := shake_sample v s in r :: shakes s vs
  end.
Lemma shakes_rest vs : forall s, shake_ok s -> Z.of_nat (length vs) < shake_rest s -> shakes s vs = repeat false (length vs).
Proof.
  induction vs as [|v vs IH]; intros s Hok Hr; cbn [shakes length repeat] in *; [done|]. pose proof (shake_sample_rest v s Hok) as Hs.
  destruct (shake_sample v s) as [r s']. destruct Hs as [Hok' Hs]. destruct r; [lia|]. rewrite IH; [done..|lia].
Qed.
(** After a shake no other one is reported in the next thirty-three samples,
    half a second. *)
Lemma shakes_apart v vs s s' : shake_ok s -> shake_sample v s = (true, s') -> (length vs <= 33)%nat -> shakes s' vs = repeat false (length vs).
Proof. intros Hok E Hl. pose proof (shake_sample_rest v s Hok) as Hs. rewrite E in Hs. destruct Hs as (Hok' & _ & Hr). apply shakes_rest; [done|lia]. Qed.

(** ** At a concrete input *)

#[local] Existing Instances demo_spec demo_sensor_codes.
Definition demo_accel_codes : AccelSpec.
Proof.
  refine {| JD_ACCELEROMETER_EV_TILT_UP := 0x81; JD_ACCELEROMETER_EV_TILT_DOWN := 0x82; JD_ACCELEROMETER_EV_TILT_LEFT := 0x83; JD_ACCELEROMETER_EV_TILT_RIGHT := 0x84;
            JD_ACCELEROMETER_EV_FACE_UP := 0x85; JD_ACCELEROMETER_EV_FACE_DOWN := 0x86; JD_ACCELEROMETER_EV_FREEFALL := 0x87; JD_ACCELEROMETER_EV_SHAKE := 0x8b;
            JD_ACCELEROMETER_EV_FORCE_2G := 0x8c; JD_ACCELEROMETER_EV_FORCE_3G := 0x88; JD_ACCELEROMETER_EV_FORCE_6G := 0x89; JD_ACCELEROMETER_EV_FORCE_8G := 0x8a |}.
  by apply (bool_decide_unpack _).
Defined.
#[local] Existing Instance demo_accel_codes.

(** Lying flat, tilted for five samples, flat again, tilted for good. *)
Definition flat : Z * Z * Z := (0, 0, -1000 * 1024).
Definition tilted : Z * Z * Z := (-1000 * 1024, 0, 0).
Example accelerometer_filters :
  ref_accel [0] (shake (accelerometer_init [])) (repeat flat 6 ++ repeat tilted 5 ++ repeat flat 3 ++ repeat tilted 6) =
  [JD_ACCELEROMETER_EV_FACE_UP; JD_ACCELEROMETER_EV_TILT_LEFT].
Proof. vm_compute. reflexivity. Qed.

(** With the event codes from 16 on the mask of the force events does not fit
    [g_events]: nothing is remembered, and a force of more than two g is
    announced again by every sample that shows it. *)
Lemma force_repeats ev a (log : list output) : 16 <= ev -> 0 <= g_events a < 2 ^ 16 ->
  exists a' o, emit_g_event ev a log = Ret (a', log ++ [o]) /\ g_events a' = g_events a.
Proof.
  intros He Hg. assert (forall i, 16 <= i -> Z.testbit (g_events a) i = false) as Hhi by (intros i Hi; rewrite <- (Z.mod_small _ _ Hg); apply Z.mod_pow2_bits_high; lia).
  assert (Z.land (g_events a) (2 ^ ev) = 0) as E1.
  { apply Z.bits_inj'. intros i Hi. rewrite Z.land_spec, Z.pow2_bits_eqb, Z.bits_0 by lia. destruct (Z.eqb_spec ev i) as [<- | _]; [by rewrite Hhi by lia|by rewrite andb_false_r]. }
  assert (u16 (Z.lor (g_events a) (2 ^ ev)) = g_events a) as E2.
  { unfold u16. rewrite <- Z.land_ones by lia. apply Z.bits_inj'. intros i Hi. rewrite Z.land_spec, Z.lor_spec, Z.pow2_bits_eqb, Z.testbit_ones by lia.
    destruct (Z.ltb_spec i 16); destruct (Z.eqb_spec ev i); rewrite ?Hhi by lia; rewrite ?(proj2 (Z.leb_le 0 i)) by lia; rewrite ?orb_false_r; cbn [andb]; rewrite ?andb_true_r, ?andb_false_r; try lia; done. }
  unfold emit_g_event. rewrite Z.shiftl_1_l, E1. cbn [Z.eqb negb]. unfold send_event, output_event_sender. obind. rewrite E2. by eexists _, _.
Qed.
