(* ===== verification/Hid.v ===== *)
(** * The HID services ([services/hidmouse.c], [hidkeyboard.c], [hidjoystick.c])

    A mouse, a keyboard and a joystick of a USB host that are moved by packets,
    with a report to the host every twenty milliseconds at most. Built with
    [JD_HID]. The reports are a trace, oldest first. *)
From S2P Require Import Prelude Frame Util Iface Registers.

Definition STEP_MS : Z := 20.

(** The generated headers: the codes, and what the packed structs of the
    commands say. Documented: the fields have the widths given, and the codes
    of the button events are those of an enumeration. *)
Class HidSpec := {
  JD_HID_MOUSE_CMD_SET_BUTTON : Z;
  JD_HID_MOUSE_CMD_MOVE : Z;
  JD_HID_MOUSE_CMD_WHEEL : Z;
  JD_HID_MOUSE_BUTTON_EVENT_UP : Z;
  JD_HID_MOUSE_BUTTON_EVENT_DOWN : Z;
  JD_HID_MOUSE_BUTTON_EVENT_CLICK : Z;
  JD_HID_MOUSE_BUTTON_EVENT_DOUBLE_CLICK : Z;
  sizeof_mouse_move : Z;
  mouse_move : list Z -> Z * Z * Z;          (* dx, dy : int16_t; time : uint16_t *)
  sizeof_mouse_wheel : Z;
  mouse_wheel : list Z -> Z * Z;             (* dy : int16_t; time : uint16_t *)
  sizeof_mouse_set_button : Z;
  mouse_set_button : list Z -> Z * Z;        (* buttons : uint16_t; ev : uint8_t *)
  JD_HID_KEYBOARD_CMD_KEY : Z;
  JD_HID_KEYBOARD_CMD_CLEAR : Z;
  JD_HID_KEYBOARD_ACTION_UP : Z;
  JD_HID_KEYBOARD_ACTION_DOWN : Z;
  sizeof_keyboard_key : Z;
  keyboard_key : list Z -> Z * Z * Z;        (* selector : uint16_t; modifiers, action : uint8_t *)
  JD_HID_JOYSTICK_CMD_SET_AXIS : Z;
  JD_HID_JOYSTICK_CMD_SET_BUTTONS : Z;
  JD_HID_JOYSTICK_REG_BUTTONS_ANALOG : Z;
  JD_HID_JOYSTICK_REG_BUTTON_COUNT : Z;
  JD_HID_JOYSTICK_REG_AXIS_COUNT : Z;
  mouse_events_differ : NoDup [JD_HID_MOUSE_BUTTON_EVENT_UP; JD_HID_MOUSE_BUTTON_EVENT_DOWN; JD_HID_MOUSE_BUTTON_EVENT_CLICK; JD_HID_MOUSE_BUTTON_EVENT_DOUBLE_CLICK];
  mouse_move_range d : let '(dx, dy, t) := mouse_move d in - 2 ^ 15 <= dx < 2 ^ 15 /\ - 2 ^ 15 <= dy < 2 ^ 15 /\ 0 <= t < 2 ^ 16;
  mouse_wheel_range d : let '(dy, t) := mouse_wheel d in - 2 ^ 15 <= dy < 2 ^ 15 /\ 0 <= t < 2 ^ 16;
  mouse_button_range d : let '(b, ev) := mouse_set_button d in 0 <= b < 2 ^ 16 /\ 0 <= ev < 2 ^ 8;
  keyboard_key_range d : let '(s, m, a) := keyboard_key d in 0 <= s < 2 ^ 16 /\ 0 <= m < 2 ^ 8 /\ 0 <= a < 2 ^ 8;
}.

(** ** The mouse *)

Definition NUM_BUTTONS : nat := 3.
Definition NUM_AXIS : nat := 4.
Definition BTN_OFF : Z := 0.
Definition BTN_CLICK_BEG : Z := 1.
Definition BTN_CLICK_OFF : Z := 1 + 100 / STEP_MS.
Definition BTN_DBL_CLICK_BEG : Z := 50.
Definition BTN_DBL_CLICK_PAUSE : Z := BTN_DBL_CLICK_BEG + 100 / STEP_MS.
Definition BTN_DBL_CLICK_PAUSE_END : Z := BTN_DBL_CLICK_BEG + 250 / STEP_MS.
Definition BTN_DBL_CLICK_END : Z := BTN_DBL_CLICK_BEG + 350 / STEP_MS.
Definition BTN_ON : Z := 0xff.

(** The array ends after the greatest of the indices. *)
Definition state_map_size `{HidSpec} : Z :=
  Z.max (Z.max JD_HID_MOUSE_BUTTON_EVENT_UP JD_HID_MOUSE_BUTTON_EVENT_DOWN) (Z.max JD_HID_MOUSE_BUTTON_EVENT_CLICK JD_HID_MOUSE_BUTTON_EVENT_DOUBLE_CLICK) + 1.
Definition state_map `{HidSpec} (ev : Z) : Z :=
  if ev =? JD_HID_MOUSE_BUTTON_EVENT_UP then BTN_OFF
  else if ev =? JD_HID_MOUSE_BUTTON_EVENT_DOWN then BTN_ON
  else if ev =? JD_HID_MOUSE_BUTTON_EVENT_CLICK then BTN_CLICK_BEG
  else if ev =? JD_HID_MOUSE_BUTTON_EVENT_DOUBLE_CLICK then BTN_DBL_CLICK_BEG
  else 0.

Definition is_btn_on (b : Z) : bool := negb (b =? BTN_OFF) && negb ((BTN_DBL_CLICK_PAUSE <=? b) && (b <? BTN_DBL_CLICK_PAUSE_END)).
Definition is_btn_final (b : Z) : bool := (b =? BTN_CLICK_OFF) || (b =? BTN_DBL_CLICK_END) || (b =? BTN_OFF).
Definition next_btn_state (b : Z) : Z := if is_btn_final b then BTN_OFF else if b =? BTN_ON then b else u8 (b + 1).

(** [axis_t] *)
Record axis_t := { target : Z (* int32_t *); step : Z (* int8_t *) }.
(** [jd_hid_mouse_report_t] *)
Record mouse_report := { mr_buttons : Z; mr_axis : list Z (* x, y, wheel, pan *) }.
(** [struct srv_state] *)
Record hidmouse := {
  hm_common : list Z;
  axis : list axis_t;
  hm_buttons : list Z;
  last_zero : bool;
  hm_next_tick : Z;
  hm_trace : list mouse_report;
}.
Definition hm_with (m : hidmouse) (ax : list axis_t) (bs : list Z) : hidmouse :=
  {| hm_common := hm_common m; axis := ax; hm_buttons := bs; last_zero := last_zero m; hm_next_tick := hm_next_tick m; hm_trace := hm_trace m |}.

Definition compute_step (ax : axis_t) (d time : Z) : axis_t :=
  let t := s32 (target ax + d) in
  let time := if time =? 0 then 1 else time in
  let per_step := Z.quot (s32 (STEP_MS * t)) time in
  {| target := t; step := if per_step <? -127 then -127 else if per_step >? 127 then 127 else per_step |}.

(** The step of this report, and the axis after it. *)
Definition current_step (ax : axis_t) : Z * axis_t :=
  let d := if Z.abs (target ax) <? Z.abs (step ax) then target ax else step ax in
  (s8 d, {| target := s32 (target ax - d); step := step ax |}).

Definition is_zero_report (r : mouse_report) : bool := (mr_buttons r =? 0) && forallb (fun v => v =? 0) (mr_axis r).

(** The mask of the buttons that are on, from bit [i] on. *)
Fixpoint btn_mask (bs : list Z) (i : Z) : Z :=
  match bs with
  | b :: bs => Z.lor (if is_btn_on b then Z.shiftl 1 i else 0) (btn_mask bs (i + 1))
  | [] => 0
  end.

Definition hidmouse_process (now : Z) (m : hidmouse) : hidmouse :=
  let '(due, next) := jd_should_sample_delay now (hm_next_tick m) (STEP_MS * 1000) in
  if negb due then m
  else
    let r := {| mr_buttons := btn_mask (hm_buttons m) 0; mr_axis := map (fun ax => fst (current_step ax)) (axis m) |} in
    let is_zero := is_zero_report r in
    let quiet := is_zero && last_zero m in
    {| hm_common := hm_common m; axis := map (fun ax => snd (current_step ax)) (axis m); hm_buttons := map next_btn_state (hm_buttons m);
       last_zero := if quiet then last_zero m else is_zero; hm_next_tick := next; hm_trace := if quiet then hm_trace m else hm_trace m ++ [r] |}.

Definition set_axis (axs : list axis_t) (i : nat) (d time : Z) : list axis_t := alter (fun ax => compute_step ax d time) i axs.

Definition set_buttons `{HidSpec} (bs : list Z) (buttons ev : Z) : list Z :=
  imap (fun i b => if negb (Z.land buttons (Z.shiftl 1 (Z.of_nat i)) =? 0) then (if ev <? state_map_size then state_map ev else b) else b) bs.

Definition hidmouse_regs : list Z := REG_SRV_COMMON ++ [JD_REG_END].

Section Mouse.
Context `{JdSpec} `{HidSpec} {T : Type} `{Sender T}.

Definition hidmouse_handle_packet (pkt : list Z) (m : hidmouse) (tx : T) : outcome (hidmouse * T) :=
  let cmd := p_service_command pkt in
  if cmd =? JD_HID_MOUSE_CMD_MOVE then
    if p_service_size pkt >=? sizeof_mouse_move then
      let '(dx, dy, time) := mouse_move (drop 16 pkt) in
      Ret (hm_with m (set_axis (set_axis (axis m) 0 dx time) 1 dy time) (hm_buttons m), tx)
    else Ret (m, tx)
  else if cmd =? JD_HID_MOUSE_CMD_WHEEL then
    if p_service_size pkt >=? sizeof_mouse_wheel then
      let '(dy, time) := mouse_wheel (drop 16 pkt) in
      Ret (hm_with m (set_axis (axis m) 2 dy time) (hm_buttons m), tx)
    else Ret (m, tx)
  else if cmd =? JD_HID_MOUSE_CMD_SET_BUTTON then
    if p_service_size pkt >=? sizeof_mouse_set_button - 1 then
      let '(buttons, ev) := mouse_set_button (drop 16 pkt) in
      Ret (hm_with m (axis m) (set_buttons (hm_buttons m) buttons ev), tx)
    else Ret (m, tx)
  else
    '(_, _, tx) ← service_handle_register_final (hm_common m) pkt hidmouse_regs tx;
    Ret (m, tx).
End Mouse.

Definition hidmouse_init (common : list Z) : hidmouse :=
  {| hm_common := common; axis := replicate NUM_AXIS {| target := 0; step := 0 |}; hm_buttons := replicate NUM_BUTTONS BTN_OFF;
     last_zero := false; hm_next_tick := 0; hm_trace := [] |}.

(** ** Reports that are sent when they change

    [Keyboard] and [Joystick] send a report that differs from the last one, and
    every report after two seconds. *)
Definition resend {R} (eqb : R -> R -> bool) (num_skips : Z) (r prev : R) (tr : list R) : Z * R * list R :=
  if (num_skips >? 2000 / STEP_MS) || negb (eqb r prev) then (0, r, tr ++ [r]) else (u16 (num_skips + 1), prev, tr).

(** ** The keyboard *)

Definition JD_HID_MAX_KEYCODES : nat := 6.
(** [jd_hid_keyboard_report_t] *)
Record key_report := { modifier : Z; keycode : list Z }.
Definition key_report_eqb (a b : key_report) : bool := (modifier a =? modifier b) && bool_decide (keycode a = keycode b).
(** [struct srv_state] *)
Record hidkeyboard := {
  hk_common : list Z;
  steps_left : list Z;
  hk_prev_r : key_report;
  hk_r : key_report;
  hk_num_skips : Z;
  hk_next_tick : Z;
  hk_trace : list key_report;
}.
Definition hk_with (k : hidkeyboard) (lefts : list Z) (r : key_report) : hidkeyboard :=
  {| hk_common := hk_common k; steps_left := lefts; hk_prev_r := hk_prev_r k; hk_r := r; hk_num_skips := hk_num_skips k;
     hk_next_tick := hk_next_tick k; hk_trace := hk_trace k |}.

Definition is_empty (r : key_report) : bool := forallb (fun c => c =? 0) (keycode r).

(** A key that was pressed for a while is let go at the end. *)
Definition key_tick (steps c : Z) : Z * Z :=
  if negb (steps =? 0) then let steps := u8 (steps - 1) in (steps, if steps =? 0 then 0 else c) else (steps, c).
Definition keys_tick (lefts cs : list Z) : list (Z * Z) := zip_with key_tick lefts cs.

Definition hidkeyboard_process (now : Z) (k : hidkeyboard) : hidkeyboard :=
  let '(due, next) := jd_should_sample_delay now (hk_next_tick k) (STEP_MS * 1000) in
  if negb due then k
  else
    let r := {| modifier := if is_empty (hk_r k) then 0 else modifier (hk_r k); keycode := keycode (hk_r k) |} in
    let '(skips, prev, tr) := resend key_report_eqb (hk_num_skips k) r (hk_prev_r k) (hk_trace k) in
    let ks := keys_tick (steps_left k) (keycode r) in
    {| hk_common := hk_common k; steps_left := map fst ks; hk_prev_r := prev; hk_r := {| modifier := modifier r; keycode := map snd ks |};
       hk_num_skips := skips; hk_next_tick := next; hk_trace := tr |}.

Fixpoint index_of_key (cs : list Z) (k : Z) : option nat :=
  match cs with
  | c :: cs => if c =? k then Some 0%nat else S <$> index_of_key cs k
  | [] => None
  end.

Definition hidkeyboard_regs : list Z := REG_SRV_COMMON ++ [JD_REG_END].

(** A key goes up, or down, or down for a while. *)
Definition key_action `{HidSpec} (selector action : Z) (lefts cs : list Z) : list Z * list Z :=
  if action =? JD_HID_KEYBOARD_ACTION_UP then
    match index_of_key cs selector with Some i => (lefts, <[i := 0]> cs) | None => (lefts, cs) end
  else
    let i := match index_of_key cs selector with
             | Some i => i
             | None => match index_of_key cs 0 with Some i => i | None => 0%nat end
             end in
    (<[i := if action =? JD_HID_KEYBOARD_ACTION_DOWN then 0 else 100 / STEP_MS]> lefts, <[i := selector]> cs).

Section Keyboard.
Context `{JdSpec} `{HidSpec} {T : Type} `{Sender T}.

Definition hidkeyboard_handle_packet (pkt : list Z) (k : hidkeyboard) (tx : T) : outcome (hidkeyboard * T) :=
  let cmd := p_service_command pkt in
  if cmd =? JD_HID_KEYBOARD_CMD_CLEAR then
    Ret (hk_with k (steps_left k) {| modifier := 0; keycode := replicate JD_HID_MAX_KEYCODES 0 |}, tx)
  else if cmd =? JD_HID_KEYBOARD_CMD_KEY then
    if p_service_size pkt >=? sizeof_keyboard_key then
      let '(selector, modifiers, action) := keyboard_key (drop 16 pkt) in
      if (action <=? JD_HID_KEYBOARD_ACTION_DOWN) && (0 <? selector) && (selector <? 0xE0) then
        let '(lefts, cs) := key_action selector action (steps_left k) (keycode (hk_r k)) in
        Ret (hk_with k lefts {| modifier := modifiers; keycode := cs |}, tx)
      else Ret (hk_with k (steps_left k) {| modifier := modifiers; keycode := keycode (hk_r k) |}, tx)
    else Ret (k, tx)
  else
    '(_, _, tx) ← service_handle_register_final (hk_common k) pkt hidkeyboard_regs tx;
    Ret (k, tx).
End Keyboard.

Definition no_keys : key_report := {| modifier := 0; keycode := replicate JD_HID_MAX_KEYCODES 0 |}.
Definition hidkeyboard_init (common : list Z) : hidkeyboard :=
  {| hk_common := common; steps_left := replicate JD_HID_MAX_KEYCODES 0; hk_prev_r := no_keys; hk_r := no_keys;
     hk_num_skips := 0xffff; hk_next_tick := 0; hk_trace := [] |}.

(** ** The joystick *)

Definition JOY_NUM_BUTTONS : Z := 16.
Definition BTN_ANALOG : Z := 0.
(** [jd_hid_gamepad_report_t]; the throttles stay zero. *)
Record pad_report := { pr_axis : list Z (* x0, y0, x1, y1 *); pr_buttons : Z (* uint16_t *) }.
Definition pad_report_eqb (a b : pad_report) : bool := bool_decide (pr_axis a = pr_axis b) && (pr_buttons a =? pr_buttons b).
(** [struct srv_state] *)
Record hidjoystick := {
  hj_common : list Z;
  button_analog : Z;
  button_count : Z;
  axis_count : Z;
  hj_prev_r : pad_report;
  hj_r : pad_report;
  hj_num_skips : Z;
  hj_next_tick : Z;
  hj_trace : list pad_report;
}.
Definition hj_with_r (j : hidjoystick) (r : pad_report) : hidjoystick :=
  {| hj_common := hj_common j; button_analog := button_analog j; button_count := button_count j; axis_count := axis_count j;
     hj_prev_r := hj_prev_r j; hj_r := r; hj_num_skips := hj_num_skips j; hj_next_tick := hj_next_tick j; hj_trace := hj_trace j |}.

Definition hidjoystick_process (now : Z) (j : hidjoystick) : hidjoystick :=
  let '(due, next) := jd_should_sample_delay now (hj_next_tick j) (STEP_MS * 1000) in
  if negb due then j
  else
    let '(skips, prev, tr) := resend pad_report_eqb (hj_num_skips j) (hj_r j) (hj_prev_r j) (hj_trace j) in
    {| hj_common := hj_common j; button_analog := button_analog j; button_count := button_count j; axis_count := axis_count j;
       hj_prev_r := prev; hj_r := hj_r j; hj_num_skips := skips; hj_next_tick := next; hj_trace := tr |}.

(** The upper bytes of the axes that the packet holds. *)
Definition joy_axis (data : list Z) (size : Z) (i : nat) : Z :=
  if Z.of_nat i * 2 + 1 <? size then s8 (Z.shiftr (s16 (get16 data (Z.of_nat i * 2))) 8) else 0.
(** A byte for each button, from [i] on. *)
Fixpoint joy_buttons (data : list Z) (i : Z) : Z :=
  match data with
  | b :: data => Z.lor (if negb (b =? 0) && (i <? 16) then Z.shiftl 1 i else 0) (joy_buttons data (i + 1))
  | [] => 0
  end.

Definition hidjoystick_regs `{HidSpec} : list Z :=
  REG_SRV_COMMON ++ [JD_REG_ 5 JD_HID_JOYSTICK_REG_BUTTONS_ANALOG; JD_REG_ 1 JD_HID_JOYSTICK_REG_BUTTON_COUNT; JD_REG_ 1 JD_HID_JOYSTICK_REG_AXIS_COUNT; JD_REG_END].
Definition joy_encode (j : hidjoystick) : list Z :=
  hj_common j ++ [0; 0] ++ le_bytes 4 (button_analog j) ++ [button_count j; axis_count j].
Definition joy_decode (j : hidjoystick) (b : list Z) : hidjoystick :=
  {| hj_common := hj_common j; button_analog := get32 b 8; button_count := get8 b 12; axis_count := get8 b 13;
     hj_prev_r := hj_prev_r j; hj_r := hj_r j; hj_num_skips := hj_num_skips j; hj_next_tick := hj_next_tick j; hj_trace := hj_trace j |}.

Section Joystick.
Context `{JdSpec} `{HidSpec} {T : Type} `{Sender T}.

Definition hidjoystick_handle_packet (pkt : list Z) (j : hidjoystick) (tx : T) : outcome (hidjoystick * T) :=
  let cmd := p_service_command pkt in
  if cmd =? JD_HID_JOYSTICK_CMD_SET_AXIS then
    Ret (hj_with_r j {| pr_axis := map (joy_axis (drop 16 pkt) (p_service_size pkt)) (seq 0 NUM_AXIS); pr_buttons := pr_buttons (hj_r j) |}, tx)
  else if cmd =? JD_HID_JOYSTICK_CMD_SET_BUTTONS then
    Ret (hj_with_r j {| pr_axis := pr_axis (hj_r j); pr_buttons := joy_buttons (pkt_payload pkt) 0 |}, tx)
  else
    '(_, b, tx) ← service_handle_register_final (joy_encode j) pkt hidjoystick_regs tx;
    Ret (joy_decode j b, tx).
End Joystick.

Definition hidjoystick_init (common : list Z) : hidjoystick :=
  let r := {| pr_axis := replicate NUM_AXIS 0; pr_buttons := 0 |} in
  {| hj_common := common; button_analog := BTN_ANALOG; button_count := JOY_NUM_BUTTONS; axis_count := Z.of_nat NUM_AXIS;
     hj_prev_r := r; hj_r := r; hj_num_skips := 0xffff; hj_next_tick := 0; hj_trace := [] |}.

(** ** The mouse goes where it is told to *)

(** An axis: the step leads to the target. *)
Definition axis_ok (bound : Z) (ax : axis_t) : Prop := Z.abs (target ax) <= bound /\ Z.abs (step ax) <= 127 /\ 0 <= step ax * target ax.

Lemma compute_step_ok bound ax d time : axis_ok bound ax -> bound + Z.abs d <= 107374182 -> 0 <= time ->
  axis_ok (bound + Z.abs d) (compute_step ax d time) /\ target (compute_step ax d time) = target ax + d.
Proof.
  intros (H1 & _ & _) Hb Ht. unfold compute_step, axis_ok, STEP_MS. cbn [target step]. rewrite (s32_small (target ax + d)), s32_small by (rewrite ?s32_small; lia).
  set (t := target ax + d) in *. assert (Z.abs t <= bound + Z.abs d) as Hta by lia. clearbody t. set (q := if time =? 0 then 1 else time). assert (0 < q) as Hq by (unfold q; destruct (Z.eqb_spec time 0); lia). clearbody q.
  split; [|done]. split; [done|]. assert (0 <= Z.quot (20 * t) q * t) as Hs.
  { destruct (Z.le_ge_cases 0 t); [apply Z.mul_nonneg_nonneg; [apply Z.quot_pos; lia|lia]|].
    replace (20 * t) with (- (20 * - t)) by lia. rewrite Z.quot_opp_l by lia. pose proof (Z.quot_pos (20 * - t) q ltac:(lia) ltac:(lia)). nia. }
  rewrite Z.gtb_ltb. destruct (Z.ltb_spec (Z.quot (20 * t) q) (-127)); [nia|]. destruct (Z.ltb_spec 127 (Z.quot (20 * t) q)); nia.
Qed.

Lemma current_step_ok bound ax : axis_ok bound ax -> bound <= 107374182 ->
  let '(d, ax') := current_step ax in
  Z.abs d <= 127 /\ target ax' = target ax - d /\ axis_ok bound ax' /\ step ax' = step ax /\ (step ax <> 0 -> target ax' = 0 \/ Z.abs (target ax') < Z.abs (target ax)).
Proof.
  intros (H1 & H2 & H3) Hb. unfold current_step. set (d := if _ <? _ then _ else _).
  assert (Z.abs d <= 127 /\ Z.abs d <= Z.abs (target ax) /\ 0 <= d * target ax /\ (step ax <> 0 -> target ax = 0 \/ d <> 0)) as (D1 & D2 & D3 & D4)
    by (unfold d; destruct (Z.ltb_spec (Z.abs (target ax)) (Z.abs (step ax))); lia || nia).
  assert (s8 d = d) as -> by (unfold s8; rewrite Z.mod_small; lia). cbn [target step]. clearbody d.
  rewrite s32_small by nia. split; [done|]. split; [done|]. split; [unfold axis_ok; cbn [target step]; split; [nia|]; split; [done|]; nia|]. split; [done|]. intros Hs. destruct (D4 Hs); nia.
Qed.

Definition moved (i : nat) (tr : list mouse_report) : Z := fold_right (fun r s => nth i (mr_axis r) 0 + s) 0 tr.
Lemma moved_snoc i tr r : moved i (tr ++ [r]) = moved i tr + nth i (mr_axis r) 0.
Proof. unfold moved. induction tr as [|r0 tr IH]; cbn [app fold_right] in *; lia. Qed.

(** What has been asked of the axes, and how much of it at most. *)
Definition mouse_inv (req ab : nat -> Z) (m : hidmouse) : Prop :=
  length (axis m) = NUM_AXIS /\ Forall (fun r => Forall (fun v => Z.abs v <= 127) (mr_axis r)) (hm_trace m) /\
  forall i ax, axis m !! i = Some ax -> axis_ok (ab i) ax /\ moved i (hm_trace m) + target ax = req i.

Lemma hidmouse_process_inv now req ab m : (forall i, ab i <= 107374182) -> mouse_inv req ab m -> mouse_inv req ab (hidmouse_process now m).
Proof.
  intros Hab (Hl & Hf & Hi). unfold hidmouse_process. destruct (jd_should_sample_delay _ _ _) as [[] next]; cbn [negb]; [|by split].
  set (r := {| mr_buttons := _ |}). unfold mouse_inv. cbn [axis hm_trace]. split; [by rewrite length_map|].
  assert (Forall (fun v => Z.abs v <= 127) (mr_axis r)) as Hr.
  { apply Forall_lookup. intros i v. cbn [r mr_axis]. rewrite list_lookup_fmap. destruct (axis m !! i) as [ax|] eqn:E; [|done]. intros Ev. apply (inj Some) in Ev as <-.
    destruct (Hi i ax E) as [Hok _]. pose proof (current_step_ok _ _ Hok (Hab i)) as Hc. destruct (current_step ax). apply Hc. }
  split; [destruct (_ && _); [done|]; apply Forall_app; split; [done|by repeat constructor]|].
  intros i ax'. rewrite list_lookup_fmap. destruct (axis m !! i) as [ax|] eqn:E; [|done]. intros Ev. apply (inj Some) in Ev as <-.
  destruct (Hi i ax E) as [Hok Hm]. pose proof (current_step_ok _ _ Hok (Hab i)) as Hc.
  assert (nth i (mr_axis r) 0 = fst (current_step ax)) as Hn.
  { cbn [r mr_axis]. rewrite (nth_lookup (map _ (axis m))), list_lookup_fmap, E. done. }
  destruct (current_step ax) as [d ax']. cbn [fst snd] in *. destruct Hc as (C1 & C2 & C3 & _ & _). split; [done|].
  destruct (is_zero_report r) eqn:Ez; cbn [andb]; [destruct (last_zero m)|]; rewrite ?moved_snoc, ?Hn; try lia.
  unfold is_zero_report in Ez. apply andb_true_iff in Ez as [_ Ez]. rewrite forallb_forall in Ez.
  assert (d = 0) as ->; [|lia]. apply Z.eqb_eq, Ez. rewrite <- Hn. apply nth_In. cbn [r mr_axis]. rewrite length_map. by eapply lookup_lt_Some.
Qed.

Lemma mouse_inv_ext req ab req' ab' m : (forall i, (i < NUM_AXIS)%nat -> req i = req' i /\ ab i = ab' i) -> mouse_inv req ab m -> mouse_inv req' ab' m.
Proof.
  intros He (Hl & Hf & Hi). split; [done|]. split; [done|]. intros i ax E. destruct (He i) as [<- <-]; [|by apply Hi]. rewrite <- Hl. by eapply lookup_lt_Some.
Qed.
Definition raise (f : nat -> Z) (i : nat) (d : Z) : nat -> Z := fun j => if decide (j = i) then f j + d else f j.
Lemma set_axis_inv req ab m i d time bs : mouse_inv req ab m -> ab i + Z.abs d <= 107374182 -> 0 <= time ->
  mouse_inv (raise req i d) (raise ab i (Z.abs d)) (hm_with m (set_axis (axis m) i d time) bs).
Proof.
  intros (Hl & Hf & Hi) Hd Ht. unfold mouse_inv, set_axis, raise. cbn [axis hm_trace hm_with]. split; [by rewrite length_alter|]. split; [done|].
  intros j ax. destruct (decide (j = i)) as [->|Hne]; [|rewrite list_lookup_alter_ne by done; apply Hi].
  rewrite list_lookup_alter_eq. destruct (axis m !! i) as [ax0|] eqn:E; [|done]. intros Ev. apply (inj Some) in Ev as <-.
  destruct (Hi i ax0 E) as [Hok Hm]. destruct (compute_step_ok _ _ d time Hok Hd Ht) as [Hok' ->]. split; [done|lia].
Qed.

(** ** Runs *)

Inductive mouse_op := MouseTurn (now : Z) | MousePacket (pkt : list Z).

Section MouseRuns.
Context `{JdSpec} `{HidSpec}.

Definition mouse_step (o : mouse_op) (m : hidmouse) (log : list output) : outcome (hidmouse * list output) :=
  match o with
  | MouseTurn now => Ret (hidmouse_process now m, log)
  | MousePacket pkt => hidmouse_handle_packet pkt m log
  end.
Fixpoint mouse_run (ops : list mouse_op) (m : hidmouse) (log : list output) : outcome (hidmouse * list output) :=
  match ops with
  | [] => Ret (m, log)
  | o :: ops => '(m, log) ← mouse_step o m log; mouse_run ops m log
  end.

(** What a packet asks of an axis, and all of them. *)
Definition asked (o : mouse_op) (i : nat) : Z :=
  match o with
  | MouseTurn _ => 0
  | MousePacket pkt =>
      if p_service_command pkt =? JD_HID_MOUSE_CMD_MOVE then
        if p_service_size pkt >=? sizeof_mouse_move then
          let '(dx, dy, _) := mouse_move (drop 16 pkt) in match i with O => dx | 1%nat => dy | _ => 0 end
        else 0
      else if p_service_command pkt =? JD_HID_MOUSE_CMD_WHEEL then
        if p_service_size pkt >=? sizeof_mouse_wheel then let '(dy, _) := mouse_wheel (drop 16 pkt) in match i with 2%nat => dy | _ => 0 end else 0
      else 0
  end.
Definition asks (ops : list mouse_op) (i : nat) : Z := fold_right (fun o s => asked o i + s) 0 ops.
Definition way (ops : list mouse_op) (i : nat) : Z := fold_right (fun o s => Z.abs (asked o i) + s) 0 ops.

Lemma way_nonneg ops i : 0 <= way ops i.
Proof. unfold way. induction ops as [|o ops IH]; cbn [fold_right]; lia. Qed.

Lemma mouse_regs_layout : layout hidmouse_regs 0 0 = Some [{| re_reg := JD_REG_PADDING; re_tp := JD_REG_BYTES; re_off := 0; re_bit := 0; re_size := 6 |}].
Proof. reflexivity. Qed.
Lemma mouse_packet_inv req ab m pkt (log : list output) : mouse_inv req ab m -> (forall i, ab i + Z.abs (asked (MousePacket pkt) i) <= 107374182) ->
  exists m' log', hidmouse_handle_packet pkt m log = Ret (m', log') /\
    mouse_inv (fun i => req i + asked (MousePacket pkt) i) (fun i => ab i + Z.abs (asked (MousePacket pkt) i)) m'.
Proof.
  intros Hm Hb. assert (forall r a, r = (fun _ : nat => 0) -> a = r -> mouse_inv (fun i => req i + r i) (fun i => ab i + Z.abs (a i)) m) as Hstay
    by (intros r a -> ->; eapply mouse_inv_ext; [|exact Hm]; intros i _; cbn; lia).
  unfold hidmouse_handle_packet, asked in *. destruct (p_service_command pkt =? JD_HID_MOUSE_CMD_MOVE).
  { destruct (p_service_size pkt >=? sizeof_mouse_move); [|eexists _, _; split; [reflexivity|by apply (Hstay _ _ eq_refl)]].
    pose proof (mouse_move_range (drop 16 pkt)) as Hr. destruct (mouse_move (drop 16 pkt)) as [[dx dy] time]. destruct Hr as (_ & _ & Ht).
    eexists _, _. split; [reflexivity|]. pose proof (Hb 0%nat) as Hb0. pose proof (Hb 1%nat) as Hb1. cbn in Hb0, Hb1.
    pose proof (set_axis_inv _ _ _ 0 dx time (hm_buttons m) Hm Hb0 ltac:(lia)) as H1'. pose proof (set_axis_inv _ _ _ 1 dy time (hm_buttons m) H1' ltac:(unfold raise; repeat case_decide; lia) ltac:(lia)) as H2'.
    eapply mouse_inv_ext; [|exact H2']. intros [|[|i]] _; unfold raise; repeat case_decide; cbn; lia. }
  destruct (p_service_command pkt =? JD_HID_MOUSE_CMD_WHEEL).
  { destruct (p_service_size pkt >=? sizeof_mouse_wheel); [|eexists _, _; split; [reflexivity|by apply (Hstay _ _ eq_refl)]].
    pose proof (mouse_wheel_range (drop 16 pkt)) as Hr. destruct (mouse_wheel (drop 16 pkt)) as [dy time]. destruct Hr as [_ Ht].
    eexists _, _. split; [reflexivity|]. pose proof (Hb 2%nat) as Hb2. cbn in Hb2.
    eapply mouse_inv_ext; [|exact (set_axis_inv _ _ _ 2 dy time (hm_buttons m) Hm Hb2 ltac:(lia))]. intros [|[|[|i]]] _; unfold raise; repeat case_decide; cbn; lia. }
  destruct (p_service_command pkt =? JD_HID_MOUSE_CMD_SET_BUTTON).
  { destruct (p_service_size pkt >=? sizeof_mouse_set_button - 1); [destruct (mouse_set_button (drop 16 pkt)) as [bs ev]|]; eexists _, _; (split; [reflexivity|by apply (Hstay _ _ eq_refl)]). }
  destruct (register_final_total (hm_common m) pkt hidmouse_regs _ log mouse_regs_layout) as (r & b & rs & ->). obind. eexists _, _. split; [reflexivity|by apply (Hstay _ _ eq_refl)].
Qed.

Lemma mouse_run_inv ops : forall req ab m (log : list output), mouse_inv req ab m -> (forall i, ab i + way ops i <= 107374182) ->
  exists m' log', mouse_run ops m log = Ret (m', log') /\ mouse_inv (fun i => req i + asks ops i) (fun i => ab i + way ops i) m'.
Proof.
  induction ops as [|o ops IH]; intros req ab m log Hm Hb; cbn [mouse_run].
  { exists m, log. split; [done|]. eapply mouse_inv_ext; [|exact Hm]. intros i _. cbn. lia. }
  assert (exists m1 log1, mouse_step o m log = Ret (m1, log1) /\ mouse_inv (fun i => req i + asked o i) (fun i => ab i + Z.abs (asked o i)) m1) as (m1 & log1 & -> & Hm1).
  { assert (forall i, ab i + Z.abs (asked o i) <= 107374182) as Hb1 by (intros i; specialize (Hb i); pose proof (way_nonneg ops i); cbn [way fold_right] in Hb; unfold way in *; lia).
    destruct o as [now|pkt]; [|by apply mouse_packet_inv]. eexists _, _. split; [reflexivity|]. eapply mouse_inv_ext; [|apply hidmouse_process_inv; [|exact Hm]].
    - intros i _. cbn. lia.
    - intros i. specialize (Hb1 i). cbn in Hb1. lia. }
  obind. destruct (IH _ _ m1 log1 Hm1) as (m2 & log2 & -> & Hm2); [intros i; specialize (Hb i); cbn [way fold_right] in Hb; unfold way; lia|].
  exists m2, log2. split; [done|]. eapply mouse_inv_ext; [|exact Hm2]. intros i _. cbn [asks way fold_right]. unfold asks, way. lia.
Qed.

(** Turns that make a report. *)
Fixpoint due_turns (next : Z) (ts : list Z) : Z :=
  match ts with
  | [] => 0
  | t :: ts => let '(due, next) := jd_should_sample_delay t next (STEP_MS * 1000) in (if due then 1 else 0) + due_turns next ts
  end.
Lemma due_turns_nonneg ts : forall next, 0 <= due_turns next ts.
Proof. induction ts as [|t ts IH]; intros next; cbn [due_turns]; [lia|]. destruct (jd_should_sample_delay _ _ _) as [[] next']; specialize (IH next'); lia. Qed.
Definition mouse_turns (ts : list Z) (m : hidmouse) : hidmouse := fold_left (fun m t => hidmouse_process t m) ts m.

Lemma mouse_turns_inv req ab ts : (forall i, ab i <= 107374182) -> forall m, mouse_inv req ab m -> mouse_inv req ab (mouse_turns ts m).
Proof. intros Hab. induction ts as [|t ts IH]; intros m Hm; [done|]. by apply IH, hidmouse_process_inv. Qed.
Lemma mouse_arrives req ab ts i : (forall i, ab i <= 107374182) -> forall m ax, mouse_inv req ab m -> axis m !! i = Some ax -> step ax <> 0 ->
  Z.abs (target ax) <= due_turns (hm_next_tick m) ts -> exists ax', axis (mouse_turns ts m) !! i = Some ax' /\ target ax' = 0.
Proof.
  intros Hab. induction ts as [|t ts IH]; intros m ax Hm E Hs Hd; cbn [due_turns mouse_turns fold_left] in *; [exists ax; split; [done|lia]|].
  pose proof (hidmouse_process_inv t _ _ _ Hab Hm) as Hm1. unfold hidmouse_process in *. destruct (jd_should_sample_delay t (hm_next_tick m) (STEP_MS * 1000)) as [due next] eqn:Ed.
  destruct due; cbn [negb] in *.
  - pose proof Hm as (_ & _ & Hi). destruct (Hi i ax E) as [Hok _]. pose proof (current_step_ok _ _ Hok (Hab i)) as Hc. destruct (current_step ax) as [d ax'] eqn:Ec. destruct Hc as (_ & _ & _ & Es & Hless).
    eapply (IH _ ax'); [exact Hm1| |by rewrite Es|].
    + cbn [axis]. rewrite list_lookup_fmap, E. change (Some (snd (current_step ax)) = Some ax'). by rewrite Ec.
    + cbn [hm_next_tick]. pose proof (due_turns_nonneg ts next). destruct (Hless Hs) as [-> | Hl]; lia.
  - eapply (IH m ax); [done..|]. unfold jd_should_sample_delay in Ed. destruct (in_future _ _); [injection Ed as <-|]; lia || done.
Qed.

(** C27. The mouse moves as it is told to. For every history of turns and packets
    that does not ask for more than 107374182 steps of an axis: the handlers
    return, no report moves an axis by more than 127, and what was reported of
    an axis and what is left of it always add up to what was asked. As soon as
    the speed of an axis is not zero, what is left of it becomes less with every
    report, so that after at most that many reports exactly what was asked has
    been reported. *)
Theorem mouse_moves_as_told common ops (log : list output) : (forall i, way ops i <= 107374182) ->
  exists m log', mouse_run ops (hidmouse_init common) log = Ret (m, log') /\
    Forall (fun r => Forall (fun v => Z.abs v <= 127) (mr_axis r)) (hm_trace m) /\
    forall i ax, axis m !! i = Some ax -> moved i (hm_trace m) + target ax = asks ops i /\
      forall ts, step ax <> 0 -> Z.abs (target ax) <= due_turns (hm_next_tick m) ts -> moved i (hm_trace (mouse_turns ts m)) = asks ops i.
Proof.
  intros Hw. destruct (mouse_run_inv ops (fun _ => 0) (fun _ => 0) (hidmouse_init common) log) as (m & log' & E & Hm).
  - split; [done|]. split; [by constructor|]. intros i ax Ei. apply lookup_replicate in Ei as [-> _]. unfold axis_ok. cbn. split; [|lia]. split; [lia|]. split; lia.
  - intros i. specialize (Hw i). lia.
  - assert (forall i, 0 + way ops i <= 107374182) as Hab by (intros i; specialize (Hw i); lia).
    exists m, log'. split; [exact E|]. split; [apply Hm|]. intros i ax Ei. split; [by apply Hm in Ei as [_ ->]|]. intros ts Hs Hd.
    destruct (mouse_arrives _ _ ts i Hab m ax Hm Ei Hs Hd) as (ax' & Ei' & E0).
    pose proof (mouse_turns_inv _ _ ts Hab m Hm) as Hm'. apply Hm' in Ei' as [_ Hsum]. rewrite E0 in Hsum. lia.
Qed.
End MouseRuns.

(** ** Clicks

    The reports in which a button is on, after a click and a double click. *)
Lemma click_reports : map is_btn_on (map (fun n => Nat.iter n next_btn_state BTN_CLICK_BEG) (seq 0 8)) = replicate 6 true ++ [false; false].
Proof. vm_compute. reflexivity. Qed.
Lemma double_click_reports :
  map is_btn_on (map (fun n => Nat.iter n next_btn_state BTN_DBL_CLICK_BEG) (seq 0 20)) = replicate 5 true ++ replicate 7 false ++ replicate 6 true ++ [false; false].
Proof. vm_compute. reflexivity. Qed.

(** ** The host sees the keys

    Keys that are down are distinct, and the last report shows them. *)

Definition keys_distinct (cs : list Z) : Prop := forall i j c, cs !! i = Some c -> cs !! j = Some c -> c <> 0 -> i = j.
Lemma index_of_key_some cs k i : index_of_key cs k = Some i -> cs !! i = Some k.
Proof.
  revert i. induction cs as [|c cs IH]; intros i; cbn [index_of_key]; [done|]. destruct (Z.eqb_spec c k) as [-> | _]; [by intros [= <-]|].
  destruct (index_of_key cs k) as [i'|]; [|done]. intros [= <-]. by apply IH.
Qed.
Lemma index_of_key_none cs k i : index_of_key cs k = None -> cs !! i <> Some k.
Proof.
  revert i. induction cs as [|c cs IH]; intros i; cbn [index_of_key]; [done|]. destruct (Z.eqb_spec c k) as [-> | Hne]; [done|].
  destruct (index_of_key cs k); [done|]. intros _. destruct i as [|i]; cbn; [congruence|by apply IH].
Qed.
Lemma keys_distinct_sub cs cs' : (forall i c, cs' !! i = Some c -> c <> 0 -> cs !! i = Some c) -> keys_distinct cs -> keys_distinct cs'.
Proof. intros Hs Hd i j c Hi Hj Hc. apply (Hd i j c); auto. Qed.
Lemma keys_distinct_insert cs i k : keys_distinct cs -> (forall j, cs !! j = Some k -> j = i) -> keys_distinct (<[i := k]> cs).
Proof.
  intros Hd Hk a b c Ha Hb Hc. destruct (decide (a = i)) as [->|Hai], (decide (b = i)) as [->|Hbi]; [done| | |].
  - rewrite list_lookup_insert_ne in Hb by done. apply list_lookup_insert_Some in Ha as [(_ & -> & _)|[? _]]; [|done]. symmetry. by apply Hk.
  - rewrite list_lookup_insert_ne in Ha by done. apply list_lookup_insert_Some in Hb as [(_ & -> & _)|[? _]]; [|done]. by apply Hk.
  - rewrite list_lookup_insert_ne in Ha by done. rewrite list_lookup_insert_ne in Hb by done. by apply (Hd a b c).
Qed.

Definition steps_ok (n : Z) : Prop := 0 <= n <= 5.
(** The slots of the keys. *)
Definition keys_inv (steps cs : list Z) : Prop :=
  length steps = JD_HID_MAX_KEYCODES /\ length cs = JD_HID_MAX_KEYCODES /\ Forall steps_ok steps /\ keys_distinct cs.
(** What the host was shown last. *)
Definition shown_ok (skips : Z) (prev : key_report) (tr : list key_report) : Prop :=
  (skips = 0xffff /\ tr = [] \/ 0 <= skips <= 101 /\ last tr = Some prev) /\ Forall (fun r => keys_distinct (keycode r)) tr.
Definition keyboard_inv (k : hidkeyboard) : Prop :=
  keys_inv (steps_left k) (keycode (hk_r k)) /\ shown_ok (hk_num_skips k) (hk_prev_r k) (hk_trace k).

Lemma key_report_eqb_eq a b : key_report_eqb a b = true -> a = b.
Proof. destruct a, b. unfold key_report_eqb. cbn. rewrite andb_true_iff, Z.eqb_eq, bool_decide_eq_true. by intros [-> ->]. Qed.
Lemma resend_shows skips r prev tr : shown_ok skips prev tr -> keys_distinct (keycode r) ->
  let '(skips', prev', tr') := resend key_report_eqb skips r prev tr in shown_ok skips' prev' tr' /\ last tr' = Some r /\ 0 <= skips' <= 101.
Proof.
  intros [Hs Ht] Hr. unfold resend. change (2000 / STEP_MS) with 100. rewrite Z.gtb_ltb. destruct (Z.ltb_spec 100 skips); cbn [orb].
  - assert (shown_ok 0 r (tr ++ [r])) by (split; [right; split; [lia|apply last_snoc]|apply Forall_app; split; [done|by repeat constructor]]).
    split; [done|]. split; [apply last_snoc|lia].
  - destruct Hs as [[-> _]|[Hs Hl]]; [lia|]. destruct (key_report_eqb r prev) eqn:E; cbn [negb].
    + apply key_report_eqb_eq in E as ->. unfold u16. rewrite Z.mod_small by lia. split; [split; [right; split; [lia|done]|done]|]. split; [done|lia].
    + split; [split; [right; split; [lia|apply last_snoc]|apply Forall_app; split; [done|by repeat constructor]]|]. split; [apply last_snoc|lia].
Qed.

Lemma key_tick_ok n c : steps_ok n -> let '(n', c') := key_tick n c in steps_ok n' /\ (c' = c \/ c' = 0) /\ (n <> 0 -> n' = n - 1 /\ (n = 1 -> c' = 0)).
Proof.
  unfold steps_ok, key_tick. intros Hn. destruct (Z.eqb_spec n 0) as [->|Hne]; cbn [negb]; [auto with lia|]. rewrite u8_small by lia.
  destruct (Z.eqb_spec (n - 1) 0); split_and!; auto with lia.
Qed.
Lemma keys_tick_inv steps cs : keys_inv steps cs -> keys_inv (map fst (keys_tick steps cs)) (map snd (keys_tick steps cs)).
Proof.
  intros (Hl & Hc & Hs & Hd). unfold keys_inv, keys_tick. rewrite !length_map, length_zip_with, Hl, Hc. split; [done|]. split; [done|]. split.
  - apply Forall_lookup. intros i n'. rewrite list_lookup_fmap, lookup_zip_with. destruct (steps !! i) as [n|] eqn:En; [|done]. destruct (cs !! i) as [c|]; [|done].
    intros Ev. apply (inj Some) in Ev as <-. pose proof (key_tick_ok n c (Forall_lookup_1 _ _ _ _ Hs En)) as Hk. destruct (key_tick n c). apply Hk.
  - eapply keys_distinct_sub; [|exact Hd]. intros i c'. rewrite list_lookup_fmap, lookup_zip_with. destruct (steps !! i) as [n|] eqn:En; [|done]. destruct (cs !! i) as [c|]; [|done].
    intros Ev Hne. apply (inj Some) in Ev as <-. pose proof (key_tick_ok n c (Forall_lookup_1 _ _ _ _ Hs En)) as Hk. destruct (key_tick n c) as [n' c']. cbn [snd] in *. destruct Hk as (_ & [-> | ->] & _); done.
Qed.
Lemma key_action_inv `{HidSpec} selector action steps cs : selector <> 0 -> keys_inv steps cs ->
  let '(steps', cs') := key_action selector action steps cs in keys_inv steps' cs'.
Proof.
  intros Hsel (Hl & Hc & Hs & Hd). unfold key_action. destruct (action =? JD_HID_KEYBOARD_ACTION_UP).
  - destruct (index_of_key cs selector) as [i|]; [|done]. unfold keys_inv. rewrite length_insert. split_and!; try done.
    eapply keys_distinct_sub; [|exact Hd]. intros j c Hj Hne. apply list_lookup_insert_Some in Hj as [(_ & E & _)|[_ ?]]; congruence.
  - set (i := match index_of_key cs selector with Some i => i | None => _ end). unfold keys_inv. rewrite !length_insert. split; [done|]. split; [done|]. split.
    + apply Forall_insert; [done|]. change (100 / STEP_MS) with 5. unfold steps_ok. destruct (_ =? _); lia.
    + apply keys_distinct_insert; [done|]. intros j Hj. unfold i. destruct (index_of_key cs selector) as [i'|] eqn:E.
      * apply (Hd j i' selector); [done|by apply index_of_key_some|done].
      * by apply (index_of_key_none _ _ j) in E.
Qed.

Lemma hidkeyboard_process_inv now k : keyboard_inv k ->
  let k' := hidkeyboard_process now k in
  keyboard_inv k' /\
  if fst (jd_should_sample_delay now (hk_next_tick k) (STEP_MS * 1000)) then
    last (hk_trace k') = Some {| modifier := if is_empty (hk_r k) then 0 else modifier (hk_r k); keycode := keycode (hk_r k) |} /\ 0 <= hk_num_skips k' <= 101
  else k' = k.
Proof.
  intros [Hk Hs]. unfold hidkeyboard_process. destruct (jd_should_sample_delay _ _ _) as [[] next]; cbn [negb fst]; [|by split].
  set (r := {| modifier := if is_empty (hk_r k) then 0 else modifier (hk_r k) |}). pose proof (resend_shows _ r _ _ Hs ltac:(apply Hk)) as Hr.
  destruct (resend _ _ _ _ _) as [[skips prev] tr]. destruct Hr as (Hr & Hlast & Hsk). split; [|by split]. split; [|exact Hr]. cbn [steps_left hk_r keycode]. by apply keys_tick_inv.
Qed.

Inductive keyboard_op := KeyTurn (now : Z) | KeyPacket (pkt : list Z).

Section KeyboardRuns.
Context `{JdSpec} `{HidSpec}.

Definition keyboard_step (o : keyboard_op) (k : hidkeyboard) (log : list output) : outcome (hidkeyboard * list output) :=
  match o with
  | KeyTurn now => Ret (hidkeyboard_process now k, log)
  | KeyPacket pkt => hidkeyboard_handle_packet pkt k log
  end.
Fixpoint keyboard_run (ops : list keyboard_op) (k : hidkeyboard) (log : list output) : outcome (hidkeyboard * list output) :=
  match ops with
  | [] => Ret (k, log)
  | o :: ops => '(k, log) ← keyboard_step o k log; keyboard_run ops k log
  end.

Lemma keyboard_packet_inv pkt k (log : list output) : keyboard_inv k -> exists k' log', hidkeyboard_handle_packet pkt k log = Ret (k', log') /\ keyboard_inv k'.
Proof.
  intros [Hk Hs]. unfold hidkeyboard_handle_packet. destruct (p_service_command pkt =? JD_HID_KEYBOARD_CMD_CLEAR).
  { eexists _, _. split; [reflexivity|]. split; [|exact Hs]. destruct Hk as (K1 & K2 & K3 & K4). cbn. split_and!; try done.
    intros i j c Hi Hj Hc. apply (lookup_replicate JD_HID_MAX_KEYCODES) in Hi as [-> _]. done. }
  destruct (p_service_command pkt =? JD_HID_KEYBOARD_CMD_KEY).
  { destruct (p_service_size pkt >=? sizeof_keyboard_key); [|by eexists _, _]. destruct (keyboard_key (drop 16 pkt)) as [[sel mods] act].
    destruct (act <=? JD_HID_KEYBOARD_ACTION_DOWN); cbn [andb]; [|by eexists _, _]. destruct (Z.ltb_spec 0 sel); cbn [andb]; [|by eexists _, _]. destruct (sel <? 0xE0); [|by eexists _, _].
    pose proof (key_action_inv sel act _ _ ltac:(lia) Hk) as Ha. destruct (key_action sel act _ _) as [steps cs]. by eexists _, _. }
  destruct (register_final_total (hk_common k) pkt hidkeyboard_regs _ log mouse_regs_layout) as (r & b & rs & ->). obind. by eexists _, _.
Qed.
Lemma keyboard_run_inv ops : forall k (log : list output), keyboard_inv k -> exists k' log', keyboard_run ops k log = Ret (k', log') /\ keyboard_inv k'.
Proof.
  induction ops as [|o ops IH]; intros k log Hk; cbn [keyboard_run]; [by exists k, log|].
  assert (exists k1 log1, keyboard_step o k log = Ret (k1, log1) /\ keyboard_inv k1) as (k1 & log1 & -> & Hk1); [|obind; by apply IH].
  destruct o as [now|pkt]; [|by apply keyboard_packet_inv]. eexists _, _. split; [reflexivity|]. exact (proj1 (hidkeyboard_process_inv now k Hk)).
Qed.
Lemma hidkeyboard_init_ok common : keyboard_inv (hidkeyboard_init common).
Proof.
  split; [|split; [by left|by constructor]]. split; [done|]. split; [done|]. split; [repeat constructor; lia|].
  intros i j c Hi Hj Hc. apply (lookup_replicate JD_HID_MAX_KEYCODES) in Hi as [-> _]. done.
Qed.

(** Turns that are not due change nothing; the due ones let timed keys go. *)
Lemma key_released ts i : forall k n, keyboard_inv k -> steps_left k !! i = Some n -> n <> 0 -> n <= due_turns (hk_next_tick k) ts ->
  exists ts1 ts2, ts = ts1 ++ ts2 /\ keycode (hk_r (fold_left (fun k t => hidkeyboard_process t k) ts1 k)) !! i = Some 0.
Proof.
  induction ts as [|t ts IH]; intros k n Hk Hn Hne Hd; cbn [due_turns] in Hd; [destruct Hk as [(_ & _ & Hs & _) _]; pose proof (Forall_lookup_1 _ _ _ _ Hs Hn) as [? _]; lia|].
  pose proof (hidkeyboard_process_inv t k Hk) as [Hk' _]. set (k' := hidkeyboard_process t k) in *.
  destruct Hk as [(Hl & Hc & Hs & _) _]. pose proof (Forall_lookup_1 _ _ _ _ Hs Hn) as Hn0. assert (exists c, keycode (hk_r k) !! i = Some c) as [c Ec] by (apply lookup_lt_is_Some; rewrite Hc, <- Hl; by eapply lookup_lt_Some).
  pose proof (key_tick_ok n c Hn0) as Ht. destruct (key_tick n c) as [n' c'] eqn:Ek. destruct Ht as (_ & _ & Ht). destruct (Ht Hne) as [-> H1'].
  destruct (jd_should_sample_delay t (hk_next_tick k) (STEP_MS * 1000)) as [[] next] eqn:Ed.
  - assert (steps_left k' !! i = Some (n - 1) /\ keycode (hk_r k') !! i = Some c' /\ hk_next_tick k' = next) as (E1 & E2 & E3).
    { unfold k', hidkeyboard_process. rewrite Ed. cbn [negb]. destruct (resend _ _ _ _ _) as [[skips prev] tr]. cbn [steps_left hk_r keycode hk_next_tick].
      unfold keys_tick. rewrite !list_lookup_fmap, lookup_zip_with, Hn. cbn [mbind option_bind]. rewrite Ec. cbn [fmap option_fmap option_map mbind option_bind]. by rewrite Ek. }
    destruct (decide (n = 1)) as [E|Hn1]; [exists [t], ts; split; [done|]; cbn [fold_left]; fold k'; rewrite E2, H1' by done; done|].
    destruct (IH k' (n - 1) Hk' E1 ltac:(lia) ltac:(rewrite E3; lia)) as (ts1 & ts2 & -> & E). by exists (t :: ts1), ts2.
  - assert (k' = k) as Ek' by (unfold k', hidkeyboard_process; by rewrite Ed). assert (next = hk_next_tick k) as -> by (unfold jd_should_sample_delay in Ed; destruct (in_future _ _); congruence).
    rewrite Ek' in Hk'. destruct (IH k n Hk' Hn Hne Hd) as (ts1 & ts2 & -> & E). exists (t :: ts1), ts2. split; [done|]. cbn [fold_left]. fold k'. by rewrite Ek'.
Qed.

(** C31. The host sees the keys. Whatever packets and turns follow the start, the
    handlers return; no report names a key twice; after a turn that is due the
    last report that was sent shows the keys that were down in this turn, with
    their modifiers unless there was no key; there are at most 101 turns in a row
    without a report; and a key that was pressed for a time is let go after at
    most five turns that are due. *)
Theorem keyboard_shows_keys common ops (log : list output) :
  exists k log', keyboard_run ops (hidkeyboard_init common) log = Ret (k, log') /\
    Forall (fun r => keys_distinct (keycode r)) (hk_trace k) /\
    (forall now, fst (jd_should_sample_delay now (hk_next_tick k) (STEP_MS * 1000)) = true ->
      last (hk_trace (hidkeyboard_process now k)) = Some {| modifier := if is_empty (hk_r k) then 0 else modifier (hk_r k); keycode := keycode (hk_r k) |} /\
      0 <= hk_num_skips (hidkeyboard_process now k) <= 101) /\
    (forall i n ts, steps_left k !! i = Some n -> n <> 0 -> 5 <= due_turns (hk_next_tick k) ts ->
      exists ts1 ts2, ts = ts1 ++ ts2 /\ keycode (hk_r (fold_left (fun k t => hidkeyboard_process t k) ts1 k)) !! i = Some 0).
Proof.
  destruct (keyboard_run_inv ops _ log (hidkeyboard_init_ok common)) as (k & log' & E & Hk). exists k, log'. split; [exact E|]. split; [apply Hk|]. split.
  - intros now Hd. pose proof (hidkeyboard_process_inv now k Hk) as [_ Hp]. by rewrite Hd in Hp.
  - intros i n ts Hn Hne Hd. apply (key_released ts i k n Hk Hn Hne). destruct Hk as [(_ & _ & Hs & _) _]. pose proof (Forall_lookup_1 _ _ _ _ Hs Hn) as [_ ?]. lia.
Qed.
End KeyboardRuns.

(** ** The theorems at concrete inputs *)

#[local] Existing Instance demo_spec.
Definition demo_hid_codes : HidSpec.
Proof.
  refine {| JD_HID_MOUSE_CMD_SET_BUTTON := 0x80; JD_HID_MOUSE_CMD_MOVE := 0x81; JD_HID_MOUSE_CMD_WHEEL := 0x82;
            JD_HID_MOUSE_BUTTON_EVENT_UP := 1; JD_HID_MOUSE_BUTTON_EVENT_DOWN := 2; JD_HID_MOUSE_BUTTON_EVENT_CLICK := 3; JD_HID_MOUSE_BUTTON_EVENT_DOUBLE_CLICK := 4;
            sizeof_mouse_move := 6; mouse_move := fun d => (s16 (get16 d 0), s16 (get16 d 2), u16 (get16 d 4)); sizeof_mouse_wheel := 4;
            mouse_wheel := fun d => (s16 (get16 d 0), u16 (get16 d 2)); sizeof_mouse_set_button := 4; mouse_set_button := fun d => (u16 (get16 d 0), u8 (get8 d 2));
            JD_HID_KEYBOARD_CMD_KEY := 0x80; JD_HID_KEYBOARD_CMD_CLEAR := 0x81; JD_HID_KEYBOARD_ACTION_UP := 1; JD_HID_KEYBOARD_ACTION_DOWN := 2; sizeof_keyboard_key := 4;
            keyboard_key := fun d => (u16 (get16 d 0), u8 (get8 d 2), u8 (get8 d 3)); JD_HID_JOYSTICK_CMD_SET_AXIS := 0x81; JD_HID_JOYSTICK_CMD_SET_BUTTONS := 0x80;
            JD_HID_JOYSTICK_REG_BUTTONS_ANALOG := 0x181; JD_HID_JOYSTICK_REG_BUTTON_COUNT := 0x180; JD_HID_JOYSTICK_REG_AXIS_COUNT := 0x182 |}.
  - by apply (bool_decide_unpack _).
  - intros d. cbv beta iota. generalize (get16 d 0), (get16 d 2), (get16 d 4). intros a b c. split_and!; word_lia.
  - intros d. cbv beta iota. generalize (get16 d 0), (get16 d 2). intros a b. split_and!; word_lia.
  - intros d. cbv beta iota. generalize (get16 d 0), (get8 d 2). intros a b. split_and!; word_lia.
  - intros d. cbv beta iota. generalize (get16 d 0), (get8 d 2), (get8 d 3). intros a b c. split_and!; word_lia.
Defined.
#[local] Existing Instance demo_hid_codes.

(** Three hundred to the right and ten up in a twentieth of a second. *)
Definition demo_mouse_ops : list mouse_op := [MouseTurn 1; MousePacket (demo_pkt 0x81 [44; 1; 246; 255; 50; 0]); MouseTurn 20002].
Lemma mouse_moves_as_told_witness :
  exists m log', mouse_run demo_mouse_ops (hidmouse_init [0; 0; 0; 0; 1; 0]) [] = Ret (m, log') /\
    map mr_axis (hm_trace m) = [[0; 0; 0; 0]; [120; -4; 0; 0]] /\ moved 0 (hm_trace (mouse_turns (map (fun n => 40003 + 20001 * Z.of_nat n) (seq 0 180)) m)) = 300.
Proof.
  destruct (mouse_moves_as_told [0; 0; 0; 0; 1; 0] demo_mouse_ops []) as (m & log' & E & _ & Hm).
  - intros [|[|[|i]]]; vm_compute; congruence.
  - exists m, log'. split; [exact E|]. vm_compute in E. injection E as <- _. split; [reflexivity|].
    destruct (Hm 0%nat {| target := 180; step := 120 |} eq_refl) as [_ Ha]. rewrite (Ha (map (fun n => 40003 + 20001 * Z.of_nat n) (seq 0 180))); [reflexivity|done|vm_compute; congruence].
Defined.

(** *** What else the code does *)

(** A move whose speed is less than one step for each report has the speed zero:
    it is not made, however long one waits. *)
Lemma still_axes ts : forall m, Forall (fun ax => step ax = 0 /\ - 2 ^ 31 <= target ax < 2 ^ 31) (axis m) -> axis (mouse_turns ts m) = axis m.
Proof.
  induction ts as [|t ts IH]; intros m Hm; [done|]. cbn [mouse_turns fold_left]. assert (axis (hidmouse_process t m) = axis m) as E.
  { unfold hidmouse_process. destruct (jd_should_sample_delay _ _ _) as [[] next]; cbn [negb]; [|done]. cbn [axis]. clear IH. induction Hm as [|ax axs [Hs Ht] _ IH]; [done|]. cbn [map]. rewrite IH. f_equal.
    destruct ax as [tg st]. cbn [step target] in *. subst st. unfold current_step. cbn [step target]. rewrite (proj2 (Z.ltb_ge _ _)) by lia. cbn [snd]. by rewrite Z.sub_0_r, s32_small. }
  fold (mouse_turns ts (hidmouse_process t m)). rewrite IH; [exact E|by rewrite E].
Qed.
Lemma slow_moves_are_lost ts :
  exists m, mouse_run [MousePacket (demo_pkt 0x81 [4; 0; 0; 0; 100; 0])] (hidmouse_init [0; 0; 0; 0; 1; 0]) [] = Ret (m, []) /\
    axis (mouse_turns ts m) !! 0%nat = Some {| target := 4; step := 0 |}.
Proof.
  eexists. split; [vm_compute; reflexivity|]. rewrite still_axes; [done|]. repeat constructor; cbn; lia.
Qed.

(** The joystick keeps the upper bytes of the axes, and a bit for each of sixteen
    buttons. *)
Example joystick_reports :
  match hidjoystick_handle_packet (demo_pkt 0x81 [0; 0x80; 0xff; 0x7f]) (hidjoystick_init [0; 0; 0; 0; 1; 0]) ([] : list output) with
  | Ret (j, _) => match hidjoystick_handle_packet (demo_pkt 0x80 (replicate 15 0 ++ [9; 9])) j ([] : list output) with
                  | Ret (j, _) => hj_trace (hidjoystick_process 5 j) = [{| pr_axis := [-128; 127; 0; 0]; pr_buttons := 32768 |}]
                  | _ => False
                  end
  | _ => False
  end.
Proof. vm_compute. reflexivity. Qed.
